(* ===== verification/_CoqProject ===== *)
-Q . S2P
Prelude.v
Spinlock.v
Dlist.v
Sleeplock.v
BufferCache.v
Bio.v
Superblock.v
Log.v
LogCrash.v
LogOps.v
LogSpec.v
Ramdisk.v
Memory.v
CString.v
Kalloc.v
Vm.v
BootPgdir.v
PageTable.v
AddrSpace.v
UserMem.v
VmSpec.v
NewSpace.v
Txn.v
Fs.v
FsAlloc.v
FsInode.v
FsFile.v
FsRw.v
FsDir.v
FsExample.v
File.v
FileSpec.v
FileExample.v
Console.v
ConsoleSpec.v
Proc.v
ProcSpec.v
Syscall.v
Sysfile.v
SyscallSpec.v
SyscallExample.v
Exec.v
Dispatch.v
Sh.v
ShSpec.v
ShComplete.v
Mkfs.v
MkfsFile.v
MkfsSpec.v
MkfsExample.v
Mmio.v
Triple.v
SdRegs.v
Sd.v
SdQueue.v
Emmc.v
SdSpec.v
SdExample.v
SdCard.v
SdInit.v
SdInitExample.v
Uart.v
UartSpec.v
Trap.v
TrapSpec.v
TrapExample.v
FirstProcs.v
Main.v
MainSpec.v
MainExample.v
FirstRun.v
FirstRunSpec.v
FirstRunExample.v
User.v
UserSpec.v
UserExample.v
