(* ===== verification/Prelude.v ===== *)
(** * Verification of a small ARMv8 kernel and its shell

    The program is a teaching kernel in the manner of xv6 (src/kern, src/inc)
    with a few user programs (src/user).  Its parts call each other from top
    to bottom as follows; in brackets the files of this library.

    - the shell, user/src/sh/main.c: lexer, recursive-descent parser that
      builds its tree in a fixed arena and terminates strings in the line
      itself, execution by fork and exec                      [Sh, ShSpec]
    - system calls, kern/syscall.c, sysproc.c, sysfile.c, exec.c: arguments
      from the trapframe and user memory, one function per call
               [Syscall, Sysfile, Exec, Dispatch, SyscallSpec, SyscallExample]
    - the other user programs, cat, ls and init, user/src
                                               [User, UserSpec, UserExample]
    - the start, kern/main.c on all CPUs, the first processes and what the
      first of them does in [forkret], kern/fs_test.c included
      [NewSpace, FirstProcs, Main, MainSpec, MainExample,
       FirstRun, FirstRunSpec, FirstRunExample]
    - processes, kern/proc.c: table, scheduler, sleep and wakeup, fork, exit,
      wait                                                   [Proc, ProcSpec]
    - open files, kern/file.c                   [File, FileSpec, FileExample]
    - the file system, kern/fs.c: block bitmap, inodes, file contents,
      directories, paths
         [Fs, FsAlloc, FsInode, FsFile, FsRw, FsDir, FsExample, Superblock]
    - the redo log, kern/log.c           [Log, LogCrash, LogOps, LogSpec, Txn]
    - the buffer cache, kern/bio.c                   [BufferCache, Bio, Dlist]
    - the SD card driver, kern/sd.c: initialisation and commands
                             [SdRegs, Sd, SdCard, SdInit, SdInitExample],
      the queue of requests and its interrupt handler
                                          [SdQueue, Emmc, SdSpec, SdExample]
    - device registers, kern/mbox.c and clock.c               [Mmio, Triple]
    - traps and interrupts, kern/trap.c and timer.c, down to the UART,
      kern/uart.c            [Uart, UartSpec, Trap, TrapSpec, TrapExample]
    - the page table at boot, kern/kpgdir.c                      [BootPgdir]
    - virtual memory, kern/vm.c, and the page allocator, kern/kalloc.c
        [Memory, Kalloc, Vm, PageTable, AddrSpace, UserMem, VmSpec]
    - the console, kern/console.c                      [Console, ConsoleSpec]
    - locks, kern/spinlock.c and sleeplock.c          [Spinlock, Sleeplock]
    - the image builder, user/src/mkfs/main.c
                                   [Mkfs, MkfsFile, MkfsSpec, MkfsExample]
    - inc/list.h and inc/string.h                          [Dlist, CString]

    ** How code becomes definitions

    A function of the kernel is a computation [M S A] of this file on the
    state [S] of its component: it returns, panics, has to wait on a channel
    ([Sleep]), runs into undefined behaviour ([Undef]), or exhausts the fuel
    of a loop.  Definitions have the names of the C functions; loops are
    Fixpoints next to them, called [f_loop].  A component's state contains
    that of the component below it, and [lift] runs the lower component's
    functions on it.  Machine integers are [Z] with [w8], [w32], [w64], [s32],
    [s64] where C wraps around.  Memory is a total function from addresses to
    bytes; an array access outside an array is [Undef].  A structure that
    several pointers share is an entry of an array or a heap, and a pointer is
    an index, so that aliasing is kept: list nodes, buffers, inodes, files,
    page tables, commands of the shell.

    A program for user space makes calls of the C library: the shell as a
    free monad of its calls (Sh), cat, ls and init, whose loops may run for
    ever, as interaction trees (User).

    Interfaces between components are classes with laws:

    - [Mmio] (Mmio): reading and writing device registers; [Emmc] (Emmc) and
      [Uart] (Uart): what the controller of the SD card and the UART do when
      they are accessed; instances: a controller in memory in SdExample, and a
      board with both in TrapExample;
    - [BlockDev] (BufferCache): what kern/sd.c does for the cache, which waits
      for each request; instance: [Ramdisk];
    - [BufferCache] (BufferCache): what the cache promises to the log, an
      abstract disk with pinned entries; instance: Bio over any [BlockDev];
    - [Txn] and [TxnOp] (Txn): what log and cache together promise to the
      file system, a view of the disk with the running transaction applied;
      instances: the log, with one operation running, and pairs of a state
      with something else;
    - [Kernel] (Syscall), [Libc] (Sysfile), [Elf] (Exec): addresses that the
      linker chooses, fields of structures in headers of the C library, which
      is a submodule, and the layout of ELF files; the numbers of the system
      calls are a parameter of file Dispatch; [Lens T statics] (Main): where
      the state below the file system keeps its static variables;
    - [World] and [Posix] (UserSpec): what the calls of a user program do, in
      terms of files, descriptors, output and children, failures and short
      writes included; instance: files in memory, and an output that may run
      out of room, in UserExample.

    The theorems about a component are proved against the interface below it,
    and the examples at the end run the real components on each other: the
    file system on the log on the cache on a disk in memory.

    ** What is proved

    - Log: a commit is atomic under crashes, where a crash keeps any prefix of
      the sector writes and recovery may itself crash any number of times;
      recovery ends; a returned [end_op] is durable; in every interleaving of
      operations the reservations of [begin_op], which are for the different
      blocks of an operation, suffice as long as the log is large enough, and
      mkfs's log is not; no sleeper of [begin_op] misses its wakeup.
    - Buffer cache: one buffer per block, LRU recycling, writes are read back.
    - File system: [balloc] and [bfree] change one bit, [iget] keeps one entry
      per inode, [iupdate] and [ilock] are inverse, [writei] and [readi] agree
      with the file as a function from offsets to bytes, through direct and
      indirect blocks, allocation included, and [dirlink] adds one name.
    - SD card: the queue of requests serves them first come first served, each
      interrupt finishing one and starting the next, for a controller that
      raises its flags after any number of polls within the limit; the
      capacity is the one the card's register encodes; [sdInit] returns
      whatever the device does, and [sd_init] leaves a card that is ready.
    - Traps: an interrupt of the SD card or of the UART reaches its driver, and
      the process that waits for it becomes runnable.
    - Boot: the first page table maps the low 2 GB twice, devices uncached;
      [main] makes four processes out of any memory and no CPU gets to the
      scheduler before; after a crash the first process finds a file system
      with all or none of the last operations, ready for the next; on an image
      of mkfs its tests, kern/fs_test.c, run to their end and pass.
    - Image builder: the kernel finds the files in the root directory of the
      image and reads their bytes.
    - Files: [filewrite] cuts a write into transactions that fit into the log.
    - Virtual memory: allocation, release, copying and copyout change the
      mappings they should, in one address space only, for all processes at
      once, with the free list and the page tables in one memory.
    - System calls: read(2), from the trapframe down to the log.
    - Processes: a type invariant of the table kept by every step of every
      CPU; no wakeup is lost between [wait] and [exit]; what [scheduler] picks.
    - Locks: mutual exclusion of the spin lock under all interleavings.
    - Console: the ring buffer refines a line editor; [console_read] returns
      lines; printed numbers are parsed back.
    - Shell: the child does what the grammar says the line means; the grammar
      is unambiguous, and the parser accepts all of it that fits into memory.
    - User programs, in a world whose calls may fail and whose writes may be
      short: cat writes nothing but its files, in order, and all of them when
      nothing fails, however its reads are cut; ls prints a line for each entry
      in use; init restarts its shell for ever.
    - Strings and lists: each function against its specification on lists.

    ** Bounds and fuel

    Fuel is a function of the state and shown to be enough in the theorem
    that needs it: one unit per entry of a fixed table (NBUF, NINODE, NPROC),
    per block of a request ([readi], [writei]: length / BSIZE + 3), per entry
    of a directory (size / 16 + 2), per character of a line (the parser: four
    calls per character and four more).  [NoFuel] is an outcome of its own, so
    that a theorem which says what a function returns also says that it ends.
    The loops of the SD card driver that poll a register have the counts that
    the code gives them; waiting for the mailbox has fuel.

    ** Concurrency

    Spin locks are left out of the sequential definitions: a critical section
    is one step, which the theorem on mutual exclusion in file Spinlock
    justifies; that file takes each access to memory as a step of its own.
    What a thread does between two sleeps is one computation; files LogOps and
    ProcSpec interleave such steps of all threads and CPUs.  In LogOps the log
    counts the calls of [wakeup(&log)], and a step that makes one ends the wait
    of everybody who sleeps in [begin_op]; in ProcSpec a wakeup makes sleepers
    of the process table runnable.  What code writes to a process without the
    lock is a step there, too.  Interrupts are steps like any other.

    ** Not modelled

    The entry of the kernel, of traps and of user programs is assembly, and
    [swtch] is the end of a step of file Proc.  [sd_test] and [test_mem] are
    tests that nothing calls, debug.c prints a superblock and nothing calls it
    either, and [procdump] is a stub that panics.  Messages printed by system
    calls and by drivers are left out.  In file Trap the driver of the SD card
    has its own view of the buffers: the cache reaches it through class
    [BlockDev].  libc is a submodule whose directory is empty. *)

From Stdlib Require Export ZArith Lia Bool.
From stdpp Require Export base tactics option list gmap strings.

#[global] Open Scope Z_scope.
#[export] Set Default Goal Selector "!".

(** * Outcomes and the kernel monad *)

(** What a piece of kernel code run by one thread can do: return, call
    [panic] (the cpu then spins for ever), have to wait on a channel for
    another thread ([sleep] in proc.c), run into behaviour that C leaves
    undefined (an access outside an array), or exhaust the fuel given to a
    loop whose bound the code does not state. *)
Inductive outcome (S A : Type) : Type :=
| Ret (a : A) (s : S)
| Panic (msg : string)
| Sleep (chan : Z)
| Undef (what : string)
| NoFuel.
Arguments Ret {S A} _ _.
Arguments Panic {S A} _.
Arguments Sleep {S A} _.
Arguments Undef {S A} _.
Arguments NoFuel {S A}.

Definition M (S A : Type) : Type := S → outcome S A.

#[export] Instance M_ret S : MRet (M S) := λ A a s, Ret a s.
#[export] Instance M_bind S : MBind (M S) := λ A B k m s,
  match m s with
  | Ret a s' => k a s'
  | Panic msg => Panic msg
  | Sleep c => Sleep c
  | Undef w => Undef w
  | NoFuel => NoFuel
  end.

Definition gets {S A} (f : S → A) : M S A := λ s, Ret (f s) s.
Definition modify {S} (f : S → S) : M S unit := λ s, Ret () (f s).
Definition panic {S A} (msg : string) : M S A := λ _, Panic msg.
Definition sleep_on {S A} (chan : Z) : M S A := λ _, Sleep chan.
Definition undef {S A} (what : string) : M S A := λ _, Undef what.
Definition no_fuel {S A} : M S A := λ _, NoFuel.
Definition when {S} (c : bool) (m : M S unit) : M S unit :=
  if c then m else mret ().

(** ** Components of a state *)

Class Lens (S T : Type) := {
  lget : S → T;
  lset : T → S → S;
  lget_lset t s : lget (lset t s) = t;
  lset_lget s : lset (lget s) s = s;
  lset_lset t t' s : lset t (lset t' s) = lset t s;
}.

Definition lift {S T} `{!Lens S T} {A} (m : M T A) : M S A := λ s,
  match m (lget s) with
  | Ret a t => Ret a (lset t s)
  | Panic msg => Panic msg
  | Sleep c => Sleep c
  | Undef w => Undef w
  | NoFuel => NoFuel
  end.

(** Access to element [i] of an array. *)
Definition array_get {S A} (l : list A) (i : Z) : M S A :=
  if i <? 0 then undef "array index"
  else match l !! Z.to_nat i with Some x => mret x | None => undef "array index" end.

Lemma array_get_some {S A} (l : list A) i x (s : S) :
  0 ≤ i → l !! Z.to_nat i = Some x → array_get l i s = Ret x s.
Proof. intros Hi Hx. unfold array_get. destruct (Z.ltb_spec i 0); [lia|]. by rewrite Hx. Qed.

Lemma mbind_ret {S A B} (m : M S A) (k : A → M S B) s a s' :
  m s = Ret a s' → mbind k m s = k a s'.
Proof. unfold mbind, M_bind. by intros ->. Qed.

Lemma lift_ret {S T} `{!Lens S T} {A} (m : M T A) s a t :
  m (lget s) = Ret a t → lift m s = Ret a (lset t s).
Proof. unfold lift. by intros ->. Qed.

Lemma mbind_inv {S A B} (m : M S A) (k : A → M S B) s b s' :
  mbind k m s = Ret b s' → ∃ a s1, m s = Ret a s1 ∧ k a s1 = Ret b s'.
Proof. unfold mbind, M_bind. destruct (m s) as [a s1| | | |]; try done. by exists a, s1. Qed.

Lemma lift_inv {S T} `{!Lens S T} {A} (m : M T A) s a s' :
  lift m s = Ret a s' → ∃ t, m (lget s) = Ret a t ∧ s' = lset t s.
Proof. unfold lift. destruct (m (lget s)); intros [=]; subst; eauto. Qed.

(** [keeps P m]: whenever [m] returns, its states before and after are
    related by [P]. *)
Definition keeps {S A} (P : S → S → Prop) (m : M S A) : Prop :=
  ∀ s a s', m s = Ret a s' → P s s'.

Section Keeps.
Context {S : Type} (P : S → S → Prop) `{!Reflexive P, !Transitive P}.

Lemma keeps_ret {A} (a : A) : keeps P (mret a).
Proof. by intros s a' s' [= _ ->]. Qed.
Lemma keeps_gets {A} (f : S → A) : keeps P (gets f).
Proof. by intros s a' s' [= _ ->]. Qed.
Lemma keeps_array_get {A} (l : list A) i : keeps P (array_get l i).
Proof.
  intros s a s'. unfold array_get. destruct (i <? 0); [done|].
  destruct (l !! _); [|done]. by intros [= _ ->].
Qed.
Lemma keeps_bind {A B} (m : M S A) (k : A → M S B) :
  keeps P m → (∀ a, keeps P (k a)) → keeps P (mbind k m).
Proof.
  intros Hm Hk s b s' (a & s1 & H1 & H2)%mbind_inv.
  etransitivity; [by eapply Hm|by eapply Hk].
Qed.
Lemma keeps_if {A} (c : bool) (m m' : M S A) :
  keeps P m → keeps P m' → keeps P (if c then m else m').
Proof. by destruct c. Qed.
Lemma keeps_undef {A} w : keeps P (undef (A := A) w).
Proof. done. Qed.
Lemma keeps_panic {A} w : keeps P (panic (A := A) w).
Proof. done. Qed.
End Keeps.

(** [mstep H]: run the next operation of a monadic goal with the equation
    [H] that says what it returns. *)
Ltac mstep H := erewrite mbind_ret; [|exact H].
Ltac mlift H := erewrite mbind_ret; [|apply lift_ret; exact H].

(** [lia] on goals with divisions and remainders by constants. *)
Ltac zlia := Z.to_euclidean_division_equations; lia.

(** * Machine integers *)

Definition w8 (x : Z) : Z := x mod 2 ^ 8.
Definition w16 (x : Z) : Z := x mod 2 ^ 16.
Definition w32 (x : Z) : Z := x mod 2 ^ 32.
Definition w64 (x : Z) : Z := x mod 2 ^ 64.
(** Conversion to a signed type: two's complement. *)
Definition s32 (x : Z) : Z := (x + 2 ^ 31) mod 2 ^ 32 - 2 ^ 31.
Definition s64 (x : Z) : Z := (x + 2 ^ 63) mod 2 ^ 64 - 2 ^ 63.

Lemma w32_small x : 0 ≤ x < 2 ^ 32 → w32 x = x.
Proof. apply Z.mod_small. Qed.
Lemma w64_small x : 0 ≤ x < 2 ^ 64 → w64 x = x.
Proof. apply Z.mod_small. Qed.
Lemma w32_range x : 0 ≤ w32 x < 2 ^ 32.
Proof. apply Z.mod_pos_bound. lia. Qed.
Lemma w64_range x : 0 ≤ w64 x < 2 ^ 64.
Proof. apply Z.mod_pos_bound. lia. Qed.
Lemma s32_small x : - 2 ^ 31 ≤ x < 2 ^ 31 → s32 x = x.
Proof. intros. unfold s32. rewrite Z.mod_small; lia. Qed.
Lemma s64_small x : - 2 ^ 63 ≤ x < 2 ^ 63 → s64 x = x.
Proof. intros. unfold s64. rewrite Z.mod_small; lia. Qed.

(** * Updates of total functions (arrays, disks, memories) *)

Definition upd {A} (f : Z → A) (k : Z) (v : A) : Z → A :=
  λ x, if Z.eqb x k then v else f x.

Lemma upd_eq {A} (f : Z → A) k v : upd f k v k = v.
Proof. unfold upd. by rewrite Z.eqb_refl. Qed.
Lemma upd_ne {A} (f : Z → A) k v x : x ≠ k → upd f k v x = f x.
Proof. unfold upd. intros. by destruct (Z.eqb_spec x k). Qed.
Lemma upd_case {A} (f : Z → A) k v x :
  upd f k v x = if decide (x = k) then v else f x.
Proof. unfold upd. by destruct (Z.eqb_spec x k), (decide (x = k)). Qed.

(** * Byte strings *)

Abbreviation block := (list Z).

Fixpoint bytes_of (n : nat) (z : Z) : list Z :=
  match n with
  | O => []
  | S n => z mod 256 :: bytes_of n (z / 256)
  end.

Fixpoint of_bytes (l : list Z) : Z :=
  match l with
  | [] => 0
  | b :: l => b + 256 * of_bytes l
  end.

Definition is_byte (b : Z) : Prop := 0 ≤ b < 256.

Lemma length_bytes_of n z : length (bytes_of n z) = n.
Proof. revert z. induction n; intros; simpl; auto. Qed.

Lemma bytes_of_range n z : Forall is_byte (bytes_of n z).
Proof.
  revert z. induction n as [|n IH]; intros z; simpl; constructor; [|apply IH].
  apply Z.mod_pos_bound. lia.
Qed.

Lemma of_bytes_bytes_of n z : of_bytes (bytes_of n z) = z mod 2 ^ (8 * Z.of_nat n).
Proof.
  revert z. induction n as [|n IH]; intros z; cbn [bytes_of of_bytes].
  - by rewrite Z.mod_1_r.
  - rewrite IH.
    replace (8 * Z.of_nat (S n)) with (8 + 8 * Z.of_nat n) by lia.
    rewrite Z.pow_add_r by lia. change (2 ^ 8) with 256.
    rewrite Z.rem_mul_r by lia. done.
Qed.

Lemma of_bytes_range l :
  Forall is_byte l → 0 ≤ of_bytes l < 2 ^ (8 * Z.of_nat (length l)).
Proof.
  induction 1 as [|b l Hb Hl IH]; [simpl; lia|]. cbn [of_bytes length].
  replace (8 * Z.of_nat (S (length l))) with (8 + 8 * Z.of_nat (length l)) by lia.
  rewrite Z.pow_add_r by lia. change (2 ^ 8) with 256. unfold is_byte in Hb. lia.
Qed.

Lemma bytes_of_of_bytes l :
  Forall is_byte l → bytes_of (length l) (of_bytes l) = l.
Proof.
  induction 1 as [|b l Hb Hl IH]; [done|]. unfold is_byte in Hb.
  cbn [of_bytes length bytes_of].
  rewrite (Z.mul_comm 256), Z.mod_add by lia. rewrite Z.mod_small by lia.
  rewrite Z.div_add by lia. rewrite Z.div_small by lia. by rewrite Z.add_0_l, IH.
Qed.

(** ** Strings in memory *)

(** The bytes of a string, and the string in a character array. *)
Definition text (s : string) : list Z :=
  map (λ a, Z.of_N (Ascii.N_of_ascii a)) (String.list_ascii_of_string s).
Fixpoint c_str (l : list Z) : list Z :=
  match l with [] => [] | c :: l => if c =? 0 then [] else c :: c_str l end.

Lemma c_str_app p l : 0 ∉ p → c_str (p ++ l) = p ++ c_str l.
Proof.
  induction p as [|c p IH]; [done|]. rewrite not_elem_of_cons. intros [Hc Hp]. cbn.
  destruct (Z.eqb_spec c 0); [congruence|]. by rewrite IH.
Qed.
Lemma c_str_end l rest : c_str (l ++ 0 :: rest) = c_str l.
Proof. induction l as [|c l IH]; [done|]. cbn. destruct (c =? 0); [done|]. by rewrite IH. Qed.
Lemma elem_of_c_str c l : c ∈ c_str l → c ∈ l.
Proof.
  induction l as [|c' l IH]; cbn; [done|]. destruct (c' =? 0); [intros []%elem_of_nil|].
  rewrite !elem_of_cons. tauto.
Qed.

(** ** Overwriting a range of a byte string *)

Definition splice {A} (l : list A) (n : nat) (l' : list A) : list A :=
  take n l ++ l' ++ drop (n + length l') l.

(** Bytes [n, n+k) of [l]. *)
Definition slice {A} (l : list A) (n k : nat) : list A := take k (drop n l).

Lemma length_splice {A} (l l' : list A) n :
  (n + length l' ≤ length l)%nat → length (splice l n l') = length l.
Proof. intros. unfold splice. rewrite !length_app, length_take, length_drop. lia. Qed.

Lemma length_slice {A} (l : list A) n k :
  (n + k ≤ length l)%nat → length (slice l n k) = k.
Proof. intros. unfold slice. rewrite length_take, length_drop. lia. Qed.

Lemma slice_splice_eq {A} (l l' : list A) n k :
  k = length l' → (n + length l' ≤ length l)%nat → slice (splice l n l') n k = l'.
Proof.
  intros -> ?. unfold slice, splice.
  rewrite drop_app_ge by (rewrite length_take; lia). rewrite length_take.
  replace (n - n `min` length l)%nat with 0%nat by lia.
  rewrite drop_0. by rewrite take_app_length.
Qed.

Lemma lookup_splice_new {A} (l l' : list A) n i :
  (n + length l' ≤ length l)%nat → (n ≤ i < n + length l')%nat →
  splice l n l' !! i = l' !! (i - n)%nat.
Proof.
  intros. unfold splice. rewrite lookup_app_r by (rewrite length_take; lia).
  rewrite length_take, lookup_app_l by lia. f_equal. lia.
Qed.

Lemma lookup_splice_old {A} (l l' : list A) n i :
  (n + length l' ≤ length l)%nat → (i < n ∨ n + length l' ≤ i)%nat →
  splice l n l' !! i = l !! i.
Proof.
  intros Hle [?|?]; unfold splice.
  - rewrite lookup_app_l by (rewrite length_take; lia).
    rewrite lookup_take. by rewrite decide_True by lia.
  - rewrite lookup_app_r by (rewrite length_take; lia). rewrite length_take.
    rewrite lookup_app_r by lia. rewrite lookup_drop. f_equal. lia.
Qed.

Lemma lookup_slice {A} (l : list A) n k i :
  (i < k)%nat → slice l n k !! i = l !! (n + i)%nat.
Proof.
  intros. unfold slice. rewrite lookup_take, decide_True by lia. apply lookup_drop.
Qed.

Lemma slice_splice_ne {A} (l l' : list A) n n' k :
  (n + length l' ≤ length l)%nat → (n' + k ≤ n ∨ n + length l' ≤ n')%nat →
  slice (splice l n l') n' k = slice l n' k.
Proof.
  intros ? Hdisj. apply list_eq. intros i.
  destruct (decide (i < k)%nat).
  - rewrite !lookup_slice by done. apply lookup_splice_old; lia.
  - unfold slice. rewrite !lookup_take. by rewrite !decide_False by lia.
Qed.

Lemma splice_slice {A} (l : list A) n k :
  (n + k ≤ length l)%nat → splice l n (slice l n k) = l.
Proof.
  intros. unfold splice. rewrite length_slice by lia. unfold slice.
  rewrite <-drop_drop. by rewrite !take_drop.
Qed.

Create HintDb kern.
Create Rewrite HintDb kern.
#[export] Hint Rewrite @upd_eq @length_bytes_of : kern.
#[export] Hint Rewrite @length_splice @length_slice using lia : kern.
#[export] Hint Resolve w32_range w64_range bytes_of_range : kern.

(** ** 16-, 32- and 64-bit little-endian fields of a byte string *)

Definition get16 (d : block) (o : nat) : Z := of_bytes (slice d o 2).
Definition put16 (d : block) (o : nat) (v : Z) : block := splice d o (bytes_of 2 v).
Definition get32 (d : block) (o : nat) : Z := of_bytes (slice d o 4).
Definition put32 (d : block) (o : nat) (v : Z) : block := splice d o (bytes_of 4 v).

Lemma length_put32 d o v : (o + 4 ≤ length d)%nat → length (put32 d o v) = length d.
Proof. intros. unfold put32. by rewrite length_splice by (rewrite length_bytes_of; lia). Qed.

Lemma length_put16 d o v : (o + 2 ≤ length d)%nat → length (put16 d o v) = length d.
Proof. intros. unfold put16. by rewrite length_splice by (rewrite length_bytes_of; lia). Qed.

Lemma get32_put32 d o v : (o + 4 ≤ length d)%nat → get32 (put32 d o v) o = w32 v.
Proof.
  intros. unfold get32, put32.
  rewrite slice_splice_eq by (rewrite length_bytes_of; lia).
  apply of_bytes_bytes_of.
Qed.

Lemma get32_put32_ne d o o' v :
  (o + 4 ≤ length d)%nat → (o' + 4 ≤ o ∨ o + 4 ≤ o')%nat →
  get32 (put32 d o v) o' = get32 d o'.
Proof.
  intros. unfold get32, put32.
  by rewrite slice_splice_ne by (rewrite length_bytes_of; lia).
Qed.

Lemma get16_put16 d o v : (o + 2 ≤ length d)%nat → get16 (put16 d o v) o = w16 v.
Proof.
  intros. unfold get16, put16.
  rewrite slice_splice_eq by (rewrite length_bytes_of; lia).
  apply of_bytes_bytes_of.
Qed.
