(* ===== verification/Spinlock.v ===== *)
(** Spin locks: kern/spinlock.c, run by all CPUs at once.

    A lock is its [locked] word and its [cpu] field ([None] for a null
    pointer).  Each CPU goes through [acquire], its critical section and
    [release] in steps of one access to memory each; [cpu_step c] is the next
    step of CPU [c], and a run is the list of the CPUs whose turn it is.
    Accesses are sequentially consistent.  The other files take a critical
    section as one step; this one shows that it is one. *)

From S2P Require Import Prelude.

Record spinlock := mkSpin { sp_locked : Z; sp_cpu : option Z }.

Definition initlock : spinlock := mkSpin 0 None.

(** [lk->locked && lk->cpu == thiscpu]; the second access is left out when the
    first one reads 0. *)
Definition holding_locked (lk : spinlock) : bool := negb (sp_locked lk =? 0).
Definition holding_cpu (c : Z) (lk : spinlock) : bool := bool_decide (sp_cpu lk = Some c).
Definition holding (c : Z) (lk : spinlock) : bool := holding_locked lk && holding_cpu c lk.

(** Where a CPU is: outside; in [holding] of [acquire], about to read [cpu]; in
    the loop of [acquire], about to read [locked], or about to do the atomic
    test-and-set; past the loop; in the critical section; in [holding] of
    [release], about to read [cpu]; past it; [cpu] cleared; or in [panic]. *)
Inductive pc :=
  Outside | Checking | Reading | Testing | Taken | Critical | Releasing | Owned | Leaving | Panicked.
#[export] Instance pc_eq_dec : EqDecision pc.
Proof. solve_decision. Defined.

Record sys := mkSys { s_lock : spinlock; s_pc : Z → pc }.

Definition goto (s : sys) (c : Z) (p : pc) (lk : spinlock) : sys := mkSys lk (upd (s_pc s) c p).

(** [acquire]: the check, the two accesses of the loop condition, and the
    assignment after the loop; the result is where the CPU is next. *)
Definition acquire_check (lk : spinlock) : pc := if holding_locked lk then Checking else Reading.
Definition acquire_check_cpu (c : Z) (lk : spinlock) : pc := if holding_cpu c lk then Panicked else Reading.
Definition acquire_read (lk : spinlock) : pc := if negb (sp_locked lk =? 0) then Reading else Testing.
Definition acquire_test (lk : spinlock) : pc * spinlock :=
  (if negb (sp_locked lk =? 0) then Reading else Taken, mkSpin 1 (sp_cpu lk)).
Definition acquire_own (c : Z) (lk : spinlock) : spinlock := mkSpin (sp_locked lk) (Some c).

(** [release]: the check, the assignment, and the atomic clear. *)
Definition release_check (lk : spinlock) : pc := if holding_locked lk then Releasing else Panicked.
Definition release_check_cpu (c : Z) (lk : spinlock) : pc := if holding_cpu c lk then Owned else Panicked.
Definition release_own (lk : spinlock) : spinlock := mkSpin (sp_locked lk) None.
Definition release_clear (lk : spinlock) : spinlock := mkSpin 0 (sp_cpu lk).

Definition cpu_step (s : sys) (c : Z) : sys :=
  let lk := s_lock s in
  match s_pc s c with
  | Outside => goto s c (acquire_check lk) lk
  | Checking => goto s c (acquire_check_cpu c lk) lk
  | Reading => goto s c (acquire_read lk) lk
  | Testing => let '(p, lk) := acquire_test lk in goto s c p lk
  | Taken => goto s c Critical (acquire_own c lk)
  | Critical => goto s c (release_check lk) lk
  | Releasing => goto s c (release_check_cpu c lk) lk
  | Owned => goto s c Leaving (release_own lk)
  | Leaving => goto s c Outside (release_clear lk)
  | Panicked => s
  end.

Definition start : sys := mkSys initlock (λ _, Outside).
Definition run (turns : list Z) : sys := fold_left cpu_step turns start.

(** In the critical section, or in the part of [release] that still counts as
    such; and having the lock. *)
Definition inside (p : pc) : bool := bool_decide (p = Critical ∨ p = Releasing ∨ p = Owned).
Definition owns (p : pc) : bool := inside p || bool_decide (p = Taken ∨ p = Leaving).

(** Either the lock is free and nobody has it, or exactly one CPU has it. *)
Record lock_ok (s : sys) (owner : option Z) : Prop := {
  lk_locked : sp_locked (s_lock s) = match owner with Some _ => 1 | None => 0 end;
  lk_owner c : owns (s_pc s c) = bool_decide (owner = Some c);
  lk_cpu : sp_cpu (s_lock s) = match owner with
                               | Some c => if inside (s_pc s c) then Some c else None
                               | None => None
                               end;
  lk_panic c : s_pc s c ≠ Panicked;
}.

Lemma start_ok : lock_ok start None.
Proof. by split. Qed.

(** CPU [c], which does not have the lock, moves on, and the lock does not
    change. *)
Lemma goto_ok s o c p :
  lock_ok s o → owns (s_pc s c) = false → owns p = false → p ≠ Panicked → lock_ok (goto s c p (s_lock s)) o.
Proof.
  intros [H1 H2 H3 H4] Hc Hf Hp. split; cbn [goto s_lock s_pc]; [done| | |].
  - intros c'. rewrite upd_case. destruct (decide (c' = c)); [subst; by rewrite <- H2, Hc|done].
  - rewrite H3. destruct o as [c'|]; [|done]. rewrite upd_case. destruct (decide (c' = c)) as [->|]; [|done].
    rewrite H2 in Hc. by apply bool_decide_eq_false in Hc.
  - intros c'. rewrite upd_case. by destruct (decide (c' = c)).
Qed.
(** The owner moves on, or a CPU takes the lock when it is free. *)
Lemma goto_owner s o c p lk :
  lock_ok s o → o = Some c ∨ o = None → owns p = true →
  sp_locked lk = 1 → sp_cpu lk = (if inside p then Some c else None) → lock_ok (goto s c p lk) (Some c).
Proof.
  intros [H1 H2 H3 H4] Ho Hp Hl Hc. split; cbn [goto s_lock s_pc]; [done| | |].
  - intros c'. rewrite upd_case. destruct (decide (c' = c)) as [->|Hne]; [by rewrite bool_decide_true|].
    rewrite H2, !bool_decide_false; [done|congruence|]. destruct Ho as [->| ->]; congruence.
  - by rewrite upd_eq.
  - intros c'. rewrite upd_case. destruct (decide (c' = c)); [by intros ->|done].
Qed.
(** The owner gives the lock back. *)
Lemma goto_free s c lk :
  lock_ok s (Some c) → sp_locked lk = 0 → sp_cpu lk = None → lock_ok (goto s c Outside lk) None.
Proof.
  intros [H1 H2 H3 H4] Hl Hc. split; cbn [goto s_lock s_pc]; [done| |done|].
  - intros c'. rewrite upd_case. destruct (decide (c' = c)) as [->|Hne]; [done|].
    rewrite H2, bool_decide_false; [done|congruence].
  - intros c'. rewrite upd_case. by destruct (decide (c' = c)).
Qed.

(** What a CPU finds in the lock. *)
Lemma lock_cpu s o c : lock_ok s o → holding_cpu c (s_lock s) = inside (s_pc s c).
Proof.
  intros [H1 H2 H3 H4]. specialize (H2 c). unfold holding_cpu, owns in *. rewrite H3.
  destruct (decide (o = Some c)) as [->|Ho].
  - destruct (inside (s_pc s c)); [by rewrite bool_decide_true|done].
  - rewrite (bool_decide_false (o = Some c)) in H2 by done. apply orb_false_iff in H2 as [-> _].
    apply bool_decide_eq_false. destruct o as [c'|]; [|done]. destruct (inside (s_pc s c')); congruence.
Qed.
Lemma lock_owned s o c : lock_ok s o → owns (s_pc s c) = true → o = Some c.
Proof. intros [H1 H2 H3 H4] Hc. rewrite H2 in Hc. by apply bool_decide_eq_true in Hc. Qed.
Lemma lock_locked s o c : lock_ok s o → owns (s_pc s c) = true → holding_locked (s_lock s) = true.
Proof. intros Hok Hc. rewrite (lock_owned s o c Hok Hc) in Hok. unfold holding_locked. by rewrite (lk_locked _ _ Hok). Qed.

Lemma cpu_step_ok s o c : lock_ok s o → ∃ o', lock_ok (cpu_step s c) o'.
Proof.
  intros Hok. unfold cpu_step. pose proof (lock_cpu s o c Hok) as Hcpu.
  pose proof (lock_owned s o c Hok) as Hown. pose proof (lock_locked s o c Hok) as Hlk.
  pose proof Hok as [H1 _ H3 H4]. specialize (H4 c). destruct (s_pc s c) eqn:Hp; cbn in Hcpu, Hown, Hlk.
  - exists o. unfold acquire_check. by destruct (holding_locked _); apply goto_ok; rewrite ?Hp.
  - exists o. unfold acquire_check_cpu. rewrite Hcpu. by apply goto_ok; rewrite ?Hp.
  - exists o. unfold acquire_read. by destruct (_ =? 0); apply goto_ok; rewrite ?Hp.
  - destruct o as [c'|].
    + exists (Some c'). unfold acquire_test. rewrite H1. cbn [Z.eqb negb].
      assert (mkSpin 1 (sp_cpu (s_lock s)) = s_lock s) as -> by (destruct (s_lock s); cbn in *; by subst).
      by apply goto_ok; rewrite ?Hp.
    + exists (Some c). unfold acquire_test. rewrite H1. cbn. eapply goto_owner; [exact Hok|by right|done..].
  - rewrite Hown in * by done. exists (Some c). eapply goto_owner; [exact Hok|by left|done..].
  - rewrite Hown in * by done. exists (Some c). unfold release_check. rewrite Hlk by done.
    eapply goto_owner; [exact Hok|by left|done|done|]. by rewrite H3, Hp.
  - rewrite Hown in * by done. exists (Some c). unfold release_check_cpu. rewrite Hcpu.
    eapply goto_owner; [exact Hok|by left|done|done|]. by rewrite H3, Hp.
  - rewrite Hown in * by done. exists (Some c). eapply goto_owner; [exact Hok|by left|done..].
  - rewrite Hown in * by done. exists None. apply goto_free; [exact Hok|done|]. cbn. by rewrite H3, Hp.
  - done.
Qed.

(** C35: mutual exclusion.  Whatever the order in which the CPUs take their
    steps through [acquire], their critical sections and [release], one access
    to memory each, two CPUs are never in the critical section together;
    neither function panics; and [holding] is true for a CPU exactly while it is
    in the critical section, which ends when [release] clears [cpu]. *)
Theorem mutual_exclusion turns :
  let s := run turns in
  (∀ c c', inside (s_pc s c) = true → inside (s_pc s c') = true → c = c') ∧
  (∀ c, s_pc s c ≠ Panicked) ∧
  (∀ c, holding c (s_lock s) = inside (s_pc s c)).
Proof.
  assert (∀ s o, lock_ok s o → ∃ o', lock_ok (fold_left cpu_step turns s) o') as Hrun.
  { induction turns as [|c turns IH]; intros s o Hok; cbn; [by exists o|].
    destruct (cpu_step_ok s o c Hok) as [o' Hok']. by eapply IH. }
  destruct (Hrun start None start_ok) as [o Hok]. fold (run turns) in *. cbv zeta.
  assert (∀ c, inside (s_pc (run turns) c) = true → owns (s_pc (run turns) c) = true) as Hio.
  { intros c Hc. unfold owns. by rewrite Hc. }
  split; [|split; [apply Hok|]].
  - intros c c' Hc%Hio%(lock_owned _ _ _ Hok) Hc'%Hio%(lock_owned _ _ _ Hok). congruence.
  - intros c. unfold holding. rewrite (lock_cpu _ _ _ Hok). destruct (inside _) eqn:Hc; [|apply andb_false_r].
    by rewrite (lock_locked _ _ c Hok (Hio c Hc)).
Qed.
