(* ===== verification/Dlist.v ===== *)
(** Circular doubly linked lists: inc/list.h.

    A heap of [struct list_head] nodes is a pair of total functions, the
    [next] and [prev] field of the node at each address.  The operations do
    the source's stores in the source's order, so that the aliasing between
    [prev], [next] and the head of a short list is the code's own.
    [dlist H h l] says that [h] heads a list whose elements are, in [next]
    order, [l]; the theorems say that each operation is the corresponding
    operation on [l].  The buffer cache (file Bio) has a second copy of the
    same structure in its [prev]/[next] fields and shares these lemmas. *)

From S2P Require Import Prelude.

Definition LIST_POISON1 : Z := 0x100.
Definition LIST_POISON2 : Z := 0x122.

Record lheap := mkLheap { l_next : Z → Z; l_prev : Z → Z }.

Definition set_next (p v : Z) (H : lheap) : lheap :=
  mkLheap (upd (l_next H) p v) (l_prev H).
Definition set_prev (p v : Z) (H : lheap) : lheap :=
  mkLheap (l_next H) (upd (l_prev H) p v).

Definition INIT_LIST_HEAD (list : Z) (H : lheap) : lheap :=
  let H := set_next list list H in
  set_prev list list H.

Definition __list_add (new prev next : Z) (H : lheap) : lheap :=
  let H := set_prev next new H in
  let H := set_next new next H in
  let H := set_prev new prev H in
  set_next prev new H.

Definition list_add (new head : Z) (H : lheap) : lheap :=
  __list_add new head (l_next H head) H.

Definition list_add_tail (new head : Z) (H : lheap) : lheap :=
  __list_add new (l_prev H head) head H.

Definition __list_del (prev next : Z) (H : lheap) : lheap :=
  let H := set_prev next prev H in
  set_next prev next H.

Definition list_del (entry : Z) (H : lheap) : lheap :=
  let H := __list_del (l_prev H entry) (l_next H entry) H in
  let H := set_next entry LIST_POISON1 H in
  set_prev entry LIST_POISON2 H.

Definition list_empty (head : Z) (H : lheap) : bool := l_next H head =? head.

(** [container_of] with the offset of the member made explicit. *)
Definition container_of (ptr offset : Z) : Z := ptr - offset.
Definition list_first_entry (head offset : Z) (H : lheap) : Z :=
  container_of (l_next H head) offset.

(** ** The shape of a list *)

(** From [a], following [next], the nodes [l] and then [z]; [prev] goes back. *)
Fixpoint seg (H : lheap) (a : Z) (l : list Z) (z : Z) : Prop :=
  match l with
  | [] => l_next H a = z ∧ l_prev H z = a
  | x :: l => (l_next H a = x ∧ l_prev H x = a) ∧ seg H x l z
  end.

Definition dlist (H : lheap) (h : Z) (l : list Z) : Prop :=
  NoDup (h :: l) ∧ seg H h l h.

Lemma seg_app H a l1 x l2 z :
  seg H a (l1 ++ x :: l2) z ↔ seg H a l1 x ∧ seg H x l2 z.
Proof. revert a. induction l1 as [|y l1 IH]; intros a; simpl; [tauto|]. rewrite IH. tauto. Qed.

(** A segment reads only the [next] of its start and inner nodes and the
    [prev] of its inner nodes and end. *)
Lemma seg_ext H H' a l z :
  (∀ x, x ∈ a :: l → l_next H' x = l_next H x) →
  (∀ x, x ∈ l ++ [z] → l_prev H' x = l_prev H x) →
  seg H a l z → seg H' a l z.
Proof.
  revert a. induction l as [|y l IH]; intros a Hn Hp; cbn [seg].
  - intros [? ?]. rewrite Hn, Hp by set_solver. done.
  - intros [[? ?] ?]. rewrite Hn, Hp by set_solver.
    split; [done|]. apply IH; [set_solver|set_solver|done].
Qed.

Lemma seg_set_next H a l z p v : p ∉ a :: l → seg H a l z → seg (set_next p v H) a l z.
Proof.
  intros Hp. apply seg_ext; [|done]. intros x Hx. simpl. apply upd_ne. set_solver.
Qed.
Lemma seg_set_prev H a l z p v : p ∉ l ++ [z] → seg H a l z → seg (set_prev p v H) a l z.
Proof.
  intros Hp. apply seg_ext; [done|]. intros x Hx. simpl. apply upd_ne. set_solver.
Qed.

(** Reading a field after a sequence of stores, and moving a segment
    through stores that miss it. *)
Ltac dl_read :=
  unfold set_next, set_prev; cbn [l_next l_prev];
  rewrite ?upd_case; repeat case_decide; (done || congruence || set_solver).
Ltac dl_seg :=
  repeat first [apply seg_set_next; [set_solver|] | apply seg_set_prev; [set_solver|]].

(** ** The operations on well-formed lists *)

Lemma dlist_init H h : dlist (INIT_LIST_HEAD h H) h [].
Proof.
  split; [apply NoDup_singleton|]. unfold INIT_LIST_HEAD. simpl. split; dl_read.
Qed.

Lemma dlist_next_head H h l : dlist H h l → l_next H h = List.hd h l.
Proof. intros [_ Hs]. destruct l; cbn [seg] in Hs; naive_solver. Qed.

Lemma dlist_prev_head H h l : dlist H h l → l_prev H h = List.last l h.
Proof.
  intros [_ Hs]. destruct l as [|x l _] using rev_ind; [by destruct Hs|].
  rewrite List.last_last. apply seg_app in Hs as [_ Hs]. by destruct Hs.
Qed.

Lemma dlist_add H h l new :
  new ∉ h :: l → dlist H h l → dlist (list_add new h H) h (new :: l).
Proof.
  intros Hnew Hd. pose proof (dlist_next_head _ _ _ Hd) as Hh. destruct Hd as [Hnd Hs].
  apply NoDup_cons in Hnd as [Hh' Hnd]. split.
  { repeat constructor; set_solver. }
  unfold list_add, __list_add. rewrite Hh.
  destruct l as [|x l]; cbn [List.hd seg] in *.
  - repeat split; dl_read.
  - apply NoDup_cons in Hnd as [Hx Hnd]. destruct Hs as [_ Hs].
    repeat split; [dl_read..|]. dl_seg. done.
Qed.

Lemma dlist_add_tail H h l new :
  new ∉ h :: l → dlist H h l → dlist (list_add_tail new h H) h (l ++ [new]).
Proof.
  intros Hnew Hd. pose proof (dlist_prev_head _ _ _ Hd) as Hh. destruct Hd as [Hnd Hs].
  apply NoDup_cons in Hnd as [Hh' Hnd]. split.
  { constructor; [set_solver|]. apply NoDup_app. split; [done|]. split; [set_solver|].
    apply NoDup_singleton. }
  unfold list_add_tail, __list_add. rewrite Hh.
  destruct l as [|x l _] using rev_ind; [cbn [List.last seg app] in *; repeat split; dl_read|].
  rewrite List.last_last. rewrite <-app_assoc. cbn [app].
  apply seg_app in Hs as [Hs _]. apply NoDup_app in Hnd as (Hnd & Hx & _).
  apply seg_app. split.
  - dl_seg. done.
  - cbn [seg]. repeat split; dl_read.
Qed.

Lemma dlist_unlink H h l1 x l2 :
  dlist H h (l1 ++ x :: l2) → dlist (__list_del (l_prev H x) (l_next H x) H) h (l1 ++ l2).
Proof.
  intros [Hnd Hs]. apply NoDup_cons in Hnd as [Hh Hnd].
  pose proof Hnd as Hnd'. apply NoDup_app in Hnd' as (Hnd1 & Hdis & Hnd2).
  apply NoDup_cons in Hnd2 as [Hx2 Hnd2].
  assert (NoDup (l1 ++ l2)) as Hnd3.
  { apply NoDup_app. split; [done|]. split; [set_solver|done]. }
  split; [constructor; [set_solver|done]|].
  apply seg_app in Hs as [Hs1 Hs2]. unfold __list_del.
  assert (l_prev H x = List.last l1 h) as ->.
  { destruct l1 as [|y l1 _] using rev_ind; [by destruct Hs1|].
    rewrite List.last_last. apply seg_app in Hs1 as [_ Hs1]. by destruct Hs1. }
  assert (l_next H x = List.hd h l2) as ->.
  { destruct l2; cbn [seg] in Hs2; naive_solver. }
  destruct l1 as [|p l1 _] using rev_ind; destruct l2 as [|n l2];
    rewrite ?List.last_last; cbn [List.last List.hd app seg] in *.
  - repeat split; dl_read.
  - destruct Hs2 as [_ Hs2]. apply NoDup_cons in Hnd2 as [? ?].
    repeat split; [dl_read..|]. dl_seg. done.
  - rewrite app_nil_r in *. apply seg_app in Hs1 as [Hs1 _].
    apply NoDup_app in Hnd1 as (? & ? & _).
    apply seg_app. split; [dl_seg; done|]. cbn [seg]. split; dl_read.
  - apply seg_app in Hs1 as [Hs1 _]. destruct Hs2 as [_ Hs2].
    apply NoDup_app in Hnd1 as (? & ? & _). apply NoDup_cons in Hnd2 as [? ?].
    rewrite <-!app_assoc in *. cbn [app] in *.
    apply seg_app. split; [dl_seg; done|]. cbn [seg].
    repeat split; [dl_read..|]. dl_seg. done.
Qed.

Lemma dlist_del H h l1 x l2 :
  dlist H h (l1 ++ x :: l2) → dlist (list_del x H) h (l1 ++ l2).
Proof.
  intros Hd. pose proof (dlist_unlink _ _ _ _ _ Hd) as [Hnd Hs].
  destruct Hd as [Hnd' _]. apply NoDup_cons in Hnd' as [Hh Hnd'].
  apply NoDup_app in Hnd' as (_ & Hd1 & Hnd2). apply NoDup_cons in Hnd2 as [Hd2 _].
  split; [done|]. unfold list_del. dl_seg. done.
Qed.

Lemma dlist_empty H h l : dlist H h l → list_empty h H = true ↔ l = [].
Proof.
  intros Hd. unfold list_empty. rewrite (dlist_next_head _ _ _ Hd), Z.eqb_eq.
  destruct Hd as [Hnd _]. destruct l as [|x l]; simpl; [done|].
  apply NoDup_cons in Hnd as [Hnd _]. split; [|done]. intros ->. set_solver.
Qed.

(** ** Walks along a list *)

(** [for (b = head.next; b != &head; b = b->next) if (P(b)) return b;]
    following the field [fld].  [None] is fuel exhausted, [Some None] a walk
    that reached the head. *)
Fixpoint walk (fuel : nat) (fld : Z → Z) (P : Z → bool) (head b : Z) : option (option Z) :=
  match fuel with
  | O => None
  | S fuel =>
    if b =? head then Some None
    else if P b then Some (Some b)
    else walk fuel fld P head (fld b)
  end.

Lemma walk_next_seg H P h a l fuel :
  h ∉ l → seg H a l h → (length l < fuel)%nat →
  walk fuel (l_next H) P h (l_next H a) = Some (List.find P l).
Proof.
  revert a fuel. induction l as [|x l IH]; intros a [|fuel] Hh Hs Hf; cbn in *; try lia.
  - destruct Hs as [-> _]. by rewrite Z.eqb_refl.
  - destruct Hs as [[-> _] Hs]. destruct (Z.eqb_spec x h) as [->|]; [set_solver|].
    destruct (P x); [done|]. apply IH; [set_solver|done|lia].
Qed.

Lemma walk_prev_seg H P h l z fuel :
  h ∉ l → seg H h l z → (length l < fuel)%nat →
  walk fuel (l_prev H) P h (l_prev H z) = Some (List.find P (List.rev l)).
Proof.
  revert z fuel. induction l as [|x l IH] using rev_ind;
    intros z [|fuel] Hh Hs Hf; rewrite ?length_app in Hf; cbn in *; try lia.
  - destruct Hs as [_ ->]. by rewrite Z.eqb_refl.
  - apply seg_app in Hs as [Hs [_ ->]]. rewrite List.rev_app_distr. cbn.
    destruct (Z.eqb_spec x h) as [->|]; [set_solver|].
    destruct (P x); [done|]. apply IH; [set_solver|done|lia].
Qed.

Lemma dlist_walk_next H P h l fuel :
  dlist H h l → (length l < fuel)%nat →
  walk fuel (l_next H) P h (l_next H h) = Some (List.find P l).
Proof.
  intros [Hnd Hs]. apply NoDup_cons in Hnd as [? _]. by apply walk_next_seg.
Qed.

Lemma dlist_walk_prev H P h l fuel :
  dlist H h l → (length l < fuel)%nat →
  walk fuel (l_prev H) P h (l_prev H h) = Some (List.find P (List.rev l)).
Proof.
  intros [Hnd Hs]. apply NoDup_cons in Hnd as [? _]. by apply walk_prev_seg.
Qed.

(** A list used as the driver uses its queue of buffers.  [list_add_tail]
    enqueues, the first entry is the oldest one and [list_del] of it dequeues
    it, leaving it poisoned; deleting from the middle keeps the other elements
    in order. *)
Theorem list_queue H h l new offset :
  dlist H h l → new ∉ h :: l →
  let H1 := list_add_tail new h H in
  dlist H1 h (l ++ [new]) ∧ list_empty h H1 = false ∧
  let x := List.hd new l in
  let H2 := list_del x H1 in
  list_first_entry h offset H1 = x - offset ∧
  dlist H2 h (List.tl (l ++ [new])) ∧
  l_next H2 x = LIST_POISON1 ∧ l_prev H2 x = LIST_POISON2 ∧
  ∀ l1 y l2, l ++ [new] = l1 ++ y :: l2 → dlist (list_del y H1) h (l1 ++ l2).
Proof.
  intros Hd Hn H1. pose proof (dlist_add_tail _ _ _ _ Hn Hd) as Hd1. fold H1 in Hd1.
  assert (List.hd h (l ++ [new]) = List.hd new l) as Hhd by by destruct l.
  split; [done|]. split.
  { destruct (list_empty h H1) eqn:He; [|done]. apply (dlist_empty _ _ _ Hd1) in He.
    by destruct l. }
  split.
  { unfold list_first_entry, container_of. by rewrite (dlist_next_head _ _ _ Hd1), Hhd. }
  split; [|split; [|split]].
  - destruct l as [|x l]; [by apply (dlist_del _ _ [] new [])|].
    by apply (dlist_del _ _ [] x (l ++ [new])).
  - unfold list_del, set_prev, set_next. cbn [l_next]. apply upd_eq.
  - unfold list_del, set_prev. cbn [l_prev]. apply upd_eq.
  - intros l1 y l2 Hl. rewrite Hl in Hd1. by apply dlist_del.
Qed.

Lemma list_queue_witness :
  let H := list_add_tail 10 5 (INIT_LIST_HEAD 5 (mkLheap (λ _, 0) (λ _, 0))) in
  let H1 := list_add_tail 20 5 H in
  dlist H1 5 [10; 20] ∧ dlist (list_del 10 H1) 5 [20].
Proof.
  intros H H1.
  assert (dlist H 5 [10]) as Hd.
  { apply (dlist_add_tail _ 5 [] 10); [set_solver by lia|apply dlist_init]. }
  destruct (list_queue H 5 [10] 20 0 Hd) as (Hq & _ & _ & Hq2 & _); [set_solver by lia|].
  exact (conj Hq Hq2).
Defined.
