(* ===== verification/Sleeplock.v ===== *)
(** Sleep locks: kern/sleeplock.c, as seen by the one thread that runs.

    The inner spin lock [lk] is held only inside each function, which runs to
    completion, so a call is one atomic step; Spinlock proves the mutual
    exclusion this relies on.  Where the source loops in [sleep] because
    another thread holds the lock, the outcome is [Sleep]: nothing this thread
    can do completes the call. *)

From S2P Require Import Prelude.

Record sleeplock := mkSleeplock { sl_locked : Z; sl_pid : Z }.

Definition initsleeplock : sleeplock := mkSleeplock 0 0.

Section Sleeplock.
(** [thisproc()->pid], and the address of the lock (its sleep channel). *)
Context (pid : Z) (lk : Z).

Definition acquiresleep : M sleeplock () := λ s,
  if sl_locked s =? 0 then Ret () (mkSleeplock 1 pid) else Sleep lk.

(** [wakeup(lk)] makes the sleepers on [lk] runnable; see file Proc. *)
Definition releasesleep : M sleeplock () := λ _, Ret () (mkSleeplock 0 0).

Definition holdingsleep : M sleeplock bool := λ s,
  Ret (negb (sl_locked s =? 0) && (sl_pid s =? pid)) s.
End Sleeplock.
