(* ===== verification/BufferCache.v ===== *)
(** What the buffer cache promises to the layers above it.

    [BufOps S] lists the operations of kern/bio.c on a state [S], and the
    accesses of its clients to the fields of a [struct buf].
    [BufferCache S] relates [S] to an abstract state [abs]: the contents of
    the disk, the sequence of sector writes issued so far, and one entry for
    each block whose cached copy matters, because a process holds it or
    because it is pinned by [B_DIRTY] until the log commits.  Clean unlocked
    buffers do not appear: they can be evicted at any time and the disk has
    their contents.  The log (file Log) and the file system (file Fs) are
    verified against these laws; file Bio proves them of the LRU cache. *)

From S2P Require Import Prelude.

Definition BSIZE : Z := 512.
Definition B_VALID : Z := 0x2.
Definition B_DIRTY : Z := 0x4.
Definition MBR_BASE : Z := 0x20800.
Definition MAXOPBLOCKS : Z := 10.
Definition NBUF : Z := MAXOPBLOCKS * 3.
Definition LOGSIZE : Z := MAXOPBLOCKS * 3.
Definition ROOTDEV : Z := 1.

(** A block number of the file system (relative to the partition). *)
Definition blk_ok (b : Z) : Prop := 0 ≤ b < 2 ^ 32 - MBR_BASE.
Definition block_ok (d : block) : Prop := length d = Z.to_nat BSIZE.

Record ent := Ent { e_data : block; e_dirty : bool; e_held : option Z }.

Record abs := Abs {
  a_disk : Z → block;
  a_writes : list (Z * block);
  a_ent : gmap Z ent;
}.

(** The contents a reader of block [b] sees. *)
Definition view (a : abs) (b : Z) : block :=
  match a_ent a !! b with Some e => e_data e | None => a_disk a b end.

Definition a_set (a : abs) (b : Z) (e : ent) : abs :=
  Abs (a_disk a) (a_writes a) (<[b := e]> (a_ent a)).
Definition a_del (a : abs) (b : Z) : abs :=
  Abs (a_disk a) (a_writes a) (delete b (a_ent a)).

(** Abstract [bread]: block [b] becomes held through handle [i]. *)
Definition a_bread (a : abs) (b i : Z) : abs :=
  a_set a b (Ent (view a b)
    (match a_ent a !! b with Some e => e_dirty e | None => false end) (Some i)).
(** Abstract [bwrite]. *)
Definition a_bwrite (a : abs) (b : Z) (e : ent) : abs :=
  Abs (upd (a_disk a) b (e_data e)) (a_writes a ++ [(b, e_data e)])
      (<[b := Ent (e_data e) false (e_held e)]> (a_ent a)).
(** Abstract [brelse]: a pinned block stays, a clean one is forgotten. *)
Definition a_brelse (a : abs) (b : Z) (e : ent) : abs :=
  if e_dirty e then a_set a b (Ent (e_data e) true None) else a_del a b.

(** There is a buffer for [b]: it has one, or one can be recycled. *)
Definition room (a : abs) (b : Z) : Prop :=
  is_Some (a_ent a !! b) ∨ Z.of_nat (size (a_ent a)) < NBUF.

Class BufOps (S : Type) := {
  bread : Z → Z → M S Z;
  bwrite : Z → M S ();
  brelse : Z → M S ();
  buf_data : Z → M S block;
  buf_set_data : Z → block → M S ();
  buf_blockno : Z → M S Z;
  buf_set_dirty : Z → M S ();
}.

Class BufferCache (S : Type) `{!BufOps S} := {
  bc_rel : S → abs → Prop;
  (** after a reboot: any state with an empty cache over a given disk *)
  bc_boot : S → (Z → block) → Prop;
  bc_boot_rel s d : bc_boot s d → bc_rel s (Abs d [] ∅);
  (** the contents of the disk, and the sector writes issued since the boot *)
  bc_disk : S → Z → block;
  bc_writes : S → list (Z * block);
  bc_disk_rel s a b : bc_rel s a → 0 ≤ b → bc_disk s b = a_disk a b;
  bc_writes_rel s a : bc_rel s a → bc_writes s = a_writes a;
  bc_disk_ok s a b : bc_rel s a → 0 ≤ b → block_ok (a_disk a b);
  bc_view_ok s a b : bc_rel s a → 0 ≤ b → block_ok (view a b);
  bread_law s a b :
    bc_rel s a → blk_ok b → room a b →
    (∀ e, a_ent a !! b = Some e → e_held e = None) →
    ∃ i s', bread ROOTDEV b s = Ret i s' ∧ bc_rel s' (a_bread a b i);
  bwrite_law s a b e i :
    bc_rel s a → a_ent a !! b = Some e → e_held e = Some i →
    ∃ s', bwrite i s = Ret () s' ∧ bc_rel s' (a_bwrite a b e);
  brelse_law s a b e i :
    bc_rel s a → a_ent a !! b = Some e → e_held e = Some i →
    (e_dirty e = false → e_data e = a_disk a b) →
    ∃ s', brelse i s = Ret () s' ∧ bc_rel s' (a_brelse a b e);
  buf_data_law s a b e i :
    bc_rel s a → a_ent a !! b = Some e → e_held e = Some i →
    buf_data i s = Ret (e_data e) s;
  buf_blockno_law s a b e i :
    bc_rel s a → a_ent a !! b = Some e → e_held e = Some i →
    buf_blockno i s = Ret (b + MBR_BASE) s;
  buf_set_data_law s a b e i d :
    bc_rel s a → a_ent a !! b = Some e → e_held e = Some i → block_ok d →
    ∃ s', buf_set_data i d s = Ret () s' ∧
          bc_rel s' (a_set a b (Ent d (e_dirty e) (e_held e)));
  buf_set_dirty_law s a b e i :
    bc_rel s a → a_ent a !! b = Some e → e_held e = Some i →
    ∃ s', buf_set_dirty i s = Ret () s' ∧
          bc_rel s' (a_set a b (Ent (e_data e) true (e_held e)));
}.

(** The disk driver (kern/sd.c) as the cache uses it, on a device state [D]:
    "If B_DIRTY is set, write buf to disk, clear B_DIRTY, set B_VALID.  Else
    if B_VALID is not set, read buf from disk, set B_VALID." *)
Class BlockDev (D : Type) := {
  sdrw : Z → Z → block → M D (Z * block);   (** flags, blockno, data *)
  sector : D → Z → block;
  dev_writes : D → list (Z * block);
  sdrw_write d flags bno data :
    Z.land flags B_DIRTY ≠ 0 → 0 ≤ bno < 2 ^ 32 → block_ok data →
    ∃ d', sdrw flags bno data d =
            Ret (Z.land (Z.lor flags B_VALID) (Z.lnot B_DIRTY), data) d' ∧
          (∀ x, 0 ≤ x → sector d' x = upd (sector d) bno data x) ∧
          dev_writes d' = dev_writes d ++ [(bno, data)];
  sdrw_read d flags bno data :
    Z.land flags (Z.lor B_VALID B_DIRTY) = 0 → 0 ≤ bno < 2 ^ 32 →
    ∃ d', sdrw flags bno data d =
            Ret (Z.land (Z.lor flags B_VALID) (Z.lnot B_DIRTY), sector d bno) d' ∧
          (∀ x, 0 ≤ x → sector d' x = sector d x) ∧
          dev_writes d' = dev_writes d;
}.
