(* ===== verification/Bio.v ===== *)
(** The buffer cache: kern/bio.c.

    State: the thirty [struct buf] of [bcache.buf], indexed 0..NBUF-1 (their
    addresses), the [prev]/[next] fields of these and of [bcache.head] (node
    NBUF) as a heap of list nodes, and the device below.  The spin lock
    [bcache.lock] is held only inside [bget] and [brelse], which are atomic
    steps of the one running thread.  Section [Proofs] shows that this state
    implements the interface of file BufferCache. *)

From S2P Require Import Prelude Dlist Sleeplock BufferCache.

Record buf := mkBuf {
  b_flags : Z; b_dev : Z; b_blockno : Z; b_refcnt : Z;
  b_data : block; b_lock : sleeplock;
}.

Definition buf0 : buf := mkBuf 0 0 0 0 (replicate (Z.to_nat BSIZE) 0) initsleeplock.

Record bcache := mkBcache { bc_buf : Z → buf; bc_list : lheap }.

Definition head : Z := NBUF.

Section Bio.
Context {D : Type} `{!BlockDev D} (pid : Z).

Record bst := mkBst { bs_cache : bcache; bs_dev : D }.

Definition set_buf (i : Z) (b : buf) (s : bst) : bst :=
  mkBst (mkBcache (upd (bc_buf (bs_cache s)) i b) (bc_list (bs_cache s))) (bs_dev s).
Definition set_list (H : lheap) (s : bst) : bst :=
  mkBst (mkBcache (bc_buf (bs_cache s)) H) (bs_dev s).

Definition get_buf (i : Z) : M bst buf := gets (λ s, bc_buf (bs_cache s) i).
Definition put_buf (i : Z) (b : buf) : M bst () := modify (set_buf i b).

(** [b->next = head.next; b->prev = &head; head.next->prev = b; head.next = b] *)
Definition link_mru (b : Z) (H : lheap) : lheap :=
  let H := set_next b (l_next H head) H in
  let H := set_prev b head H in
  let H := set_prev (l_next H head) b H in
  set_next head b H.

Fixpoint binit_loop (n : nat) (b : Z) (c : bcache) : bcache :=
  match n with
  | O => c
  | S n =>
    let old := bc_buf c b in
    let H := link_mru b (bc_list c) in
    binit_loop n (b + 1)
      (mkBcache (upd (bc_buf c) b
        (mkBuf (b_flags old) (b_dev old) (b_blockno old) (b_refcnt old)
               (b_data old) initsleeplock)) H)
  end.

Definition binit (c : bcache) : bcache :=
  let H := set_prev head head (bc_list c) in
  let H := set_next head head H in
  binit_loop (Z.to_nat NBUF) 0 (mkBcache (bc_buf c) H).

(** [acquiresleep(&b->lock)] and friends on the lock field of buffer [i]. *)
Definition with_lock {A} (i : Z) (m : M sleeplock A) : M bst A := λ s,
  let b := bc_buf (bs_cache s) i in
  match m (b_lock b) with
  | Ret a l => Ret a (set_buf i (mkBuf (b_flags b) (b_dev b) (b_blockno b)
                                       (b_refcnt b) (b_data b) l) s)
  | Panic msg => Panic msg
  | Sleep c => Sleep c
  | Undef w => Undef w
  | NoFuel => NoFuel
  end.

Definition walk_fuel : nat := S (Z.to_nat NBUF).

Definition bget (dev blockno : Z) : M bst Z :=
  c ← gets bs_cache;
  match walk walk_fuel (l_next (bc_list c))
          (λ i, (b_dev (bc_buf c i) =? dev) && (b_blockno (bc_buf c i) =? blockno))
          head (l_next (bc_list c) head) with
  | None => no_fuel
  | Some (Some i) =>
    b ← get_buf i;
    put_buf i (mkBuf (b_flags b) (b_dev b) (b_blockno b) (w32 (b_refcnt b + 1))
                     (b_data b) (b_lock b)) ;;
    with_lock i (acquiresleep pid i) ;;
    mret i
  | Some None =>
    match walk walk_fuel (l_prev (bc_list c))
            (λ i, (b_refcnt (bc_buf c i) =? 0) &&
                  (Z.land (b_flags (bc_buf c i)) B_DIRTY =? 0))
            head (l_prev (bc_list c) head) with
    | None => no_fuel
    | Some (Some i) =>
      b ← get_buf i;
      put_buf i (mkBuf 0 dev blockno 1 (b_data b) (b_lock b)) ;;
      with_lock i (acquiresleep pid i) ;;
      mret i
    | Some None => panic "bget: no buffers"
    end
  end.

(** [sdrw(b)]: the driver updates the flags and the data of [b]. *)
Definition sdrw_buf (i : Z) : M bst () := λ s,
  let b := bc_buf (bs_cache s) i in
  match sdrw (b_flags b) (b_blockno b) (b_data b) (bs_dev s) with
  | Ret (fl, data) d =>
    Ret () (set_buf i (mkBuf fl (b_dev b) (b_blockno b) (b_refcnt b) data (b_lock b))
              (mkBst (bs_cache s) d))
  | Panic msg => Panic msg
  | Sleep c => Sleep c
  | Undef w => Undef w
  | NoFuel => NoFuel
  end.

Definition bio_bread (dev blockno : Z) : M bst Z :=
  i ← bget dev (w32 (blockno + MBR_BASE));
  b ← get_buf i;
  (if Z.land (b_flags b) B_VALID =? 0 then sdrw_buf i else mret ()) ;;
  mret i.

Definition bio_bwrite (i : Z) : M bst () :=
  h ← with_lock i (holdingsleep pid);
  if negb h then panic "bwrite"
  else
    b ← get_buf i;
    put_buf i (mkBuf (Z.lor (b_flags b) B_DIRTY) (b_dev b) (b_blockno b)
                     (b_refcnt b) (b_data b) (b_lock b)) ;;
    sdrw_buf i.

Definition bio_brelse (i : Z) : M bst () :=
  h ← with_lock i (holdingsleep pid);
  if negb h then panic "brelse"
  else
    with_lock i releasesleep ;;
    b ← get_buf i;
    put_buf i (mkBuf (b_flags b) (b_dev b) (b_blockno b) (w32 (b_refcnt b - 1))
                     (b_data b) (b_lock b)) ;;
    b ← get_buf i;
    if b_refcnt b =? 0 then
      H ← gets (λ s, bc_list (bs_cache s));
      let H := set_prev (l_next H i) (l_prev H i) H in
      let H := set_next (l_prev H i) (l_next H i) H in
      modify (set_list (link_mru i H))
    else mret ().

(** Accesses of the clients to the fields of a buffer they hold. *)
Definition bio_data (i : Z) : M bst block := gets (λ s, b_data (bc_buf (bs_cache s) i)).
Definition bio_set_data (i : Z) (d : block) : M bst () :=
  b ← get_buf i;
  put_buf i (mkBuf (b_flags b) (b_dev b) (b_blockno b) (b_refcnt b) d (b_lock b)).
Definition bio_blockno (i : Z) : M bst Z :=
  gets (λ s, b_blockno (bc_buf (bs_cache s) i)).
Definition bio_set_dirty (i : Z) : M bst () :=
  b ← get_buf i;
  put_buf i (mkBuf (Z.lor (b_flags b) B_DIRTY) (b_dev b) (b_blockno b)
                   (b_refcnt b) (b_data b) (b_lock b)).

#[export] Instance bio_ops : BufOps bst := {
  bread := bio_bread; bwrite := bio_bwrite; brelse := bio_brelse;
  buf_data := bio_data; buf_set_data := bio_set_data;
  buf_blockno := bio_blockno; buf_set_dirty := bio_set_dirty;
}.

(** ** The invariant and the abstraction *)

Definition idxs : list Z := seqZ 0 NBUF.

(** The abstract entry that buffer [b] of index [i] stands for. *)
Definition ent_ok (a : abs) (i : Z) (b : buf) : Prop :=
  let r := b_blockno b - MBR_BASE in
  b_dev b = ROOTDEV ∧ blk_ok r ∧ block_ok (b_data b) ∧
  match a_ent a !! r with
  | Some e =>
    b_data b = e_data e ∧
    b_flags b = (if e_dirty e then Z.lor B_VALID B_DIRTY else B_VALID) ∧
    match e_held e with
    | Some j => j = i ∧ b_lock b = mkSleeplock 1 pid ∧ b_refcnt b = 1
    | None => e_dirty e = true ∧ b_lock b = initsleeplock ∧ b_refcnt b = 0
    end
  | None =>
    b_data b = a_disk a r ∧ b_flags b = B_VALID ∧
    b_lock b = initsleeplock ∧ b_refcnt b = 0
  end.

Definition buf_unused (b : buf) : Prop :=
  b_dev b = 0 ∧ b_flags b = 0 ∧ b_refcnt b = 0 ∧ b_lock b = initsleeplock.

Record bio_rel (s : bst) (a : abs) : Prop := {
  br_list : ∃ l, dlist (bc_list (bs_cache s)) head l ∧ l ≡ₚ idxs;
  br_bufs : ∀ i, i ∈ idxs → buf_unused (bc_buf (bs_cache s) i) ∨
                            ent_ok a i (bc_buf (bs_cache s) i);
  br_uniq : ∀ i j, i ∈ idxs → j ∈ idxs →
    b_dev (bc_buf (bs_cache s) i) = ROOTDEV →
    b_dev (bc_buf (bs_cache s) j) = ROOTDEV →
    b_blockno (bc_buf (bs_cache s) i) = b_blockno (bc_buf (bs_cache s) j) → i = j;
  br_ents : ∀ r e, a_ent a !! r = Some e → ∃ i, i ∈ idxs ∧
    b_dev (bc_buf (bs_cache s) i) = ROOTDEV ∧
    b_blockno (bc_buf (bs_cache s) i) = r + MBR_BASE;
  br_disk : ∀ r, 0 ≤ r → sector (bs_dev s) (r + MBR_BASE) = a_disk a r ∧
                         block_ok (a_disk a r);
  br_writes : dev_writes (bs_dev s) =
              map (λ w, (w.1 + MBR_BASE, w.2)) (a_writes a);
}.

Definition bio_boot (s : bst) (d : Z → block) : Prop :=
  (∃ H, bs_cache s = binit (mkBcache (λ _, buf0) H)) ∧
  (∀ r, 0 ≤ r → sector (bs_dev s) (r + MBR_BASE) = d r ∧ block_ok (d r)) ∧
  dev_writes (bs_dev s) = [].
End Bio.
Arguments bst D : clear implicits.

(** ** Proofs *)

Section Proofs.
Context {D : Type} `{!BlockDev D} (pid : Z).
Implicit Types (s : bst D) (a : abs).
Abbreviation rel := (bio_rel pid).

Lemma link_mru_dlist H l b :
  b ∉ head :: l → dlist H head l → dlist (link_mru b H) head (b :: l).
Proof.
  intros Hb Hd. pose proof (dlist_next_head _ _ _ Hd) as Hh. destruct Hd as [Hnd Hs].
  apply NoDup_cons in Hnd as [Hh' Hnd].
  split; [repeat constructor; set_solver|].
  unfold link_mru. destruct l as [|x l]; cbn [List.hd seg] in *.
  - assert (l_next (set_prev b head (set_next b (l_next H head) H)) head = head) as -> by dl_read.
    rewrite Hh. repeat split; dl_read.
  - assert (l_next (set_prev b head (set_next b (l_next H head) H)) head = x) as -> by dl_read.
    rewrite Hh. apply NoDup_cons in Hnd as [Hx Hnd]. destruct Hs as [_ Hs].
    repeat split; [dl_read..|]. dl_seg. done.
Qed.

Lemma idxs_length : length idxs = Z.to_nat NBUF.
Proof. apply length_seqZ. Qed.
Lemma elem_of_idxs i : i ∈ idxs ↔ 0 ≤ i < NBUF.
Proof. unfold idxs. rewrite elem_of_seqZ. lia. Qed.
Lemma NoDup_idxs : NoDup idxs.
Proof. apply NoDup_seqZ. Qed.

Lemma binit_loop_spec n b c l :
  0 ≤ b → b + Z.of_nat n ≤ NBUF →
  (∀ x, x ∈ l → 0 ≤ x < b) →
  (∀ i, bc_buf c i = buf0) → dlist (bc_list c) head l →
  let c' := binit_loop n b c in
  dlist (bc_list c') head (rev (seqZ b (Z.of_nat n)) ++ l) ∧ (∀ i, bc_buf c' i = buf0).
Proof.
  revert b c l. induction n as [|n IH]; intros b c l Hb Hn Hl Hbuf Hd; cbn [binit_loop].
  - change (seqZ b (Z.of_nat 0)) with (@nil Z). done.
  - rewrite seqZ_cons by lia. cbn [rev]. rewrite <-app_assoc. cbn [app].
    replace (Z.pred (Z.of_nat (S n))) with (Z.of_nat n) by lia.
    rewrite <-Z.add_1_r. apply IH.
    + lia.
    + lia.
    + intros x [->|Hx]%elem_of_cons; [lia|]. specialize (Hl x Hx). lia.
    + intros i. cbn [bc_buf]. rewrite upd_case. rewrite !Hbuf. by case_decide.
    + cbn [bc_list]. apply link_mru_dlist; [|done].
      unfold head in *. intros [->|Hx]%elem_of_cons; [lia|].
      specialize (Hl b Hx). lia.
Qed.

Lemma binit_spec H :
  let c := binit (mkBcache (λ _, buf0) H) in
  dlist (bc_list c) head (rev idxs) ∧ (∀ i, bc_buf c i = buf0).
Proof.
  cbv zeta. unfold binit. set (c0 := mkBcache _ _).
  destruct (binit_loop_spec (Z.to_nat NBUF) 0 c0 []) as [Hd Hb];
    [lia|by vm_compute|set_solver|done|..].
  - split; [apply NoDup_singleton|]. subst c0. cbn. split; dl_read.
  - rewrite app_nil_r in Hd. by split.
Qed.

(** The one way the relation is re-established: buffer [i] changed, and with
    it the entry and the disk contents of its block only. *)
Lemma rel_step s a s' a' i :
  rel s a → i ∈ idxs →
  let b' := bc_buf (bs_cache s') i in
  let r := b_blockno b' - MBR_BASE in
  (∃ l, dlist (bc_list (bs_cache s')) head l ∧ l ≡ₚ idxs) →
  (∀ j, j ≠ i → bc_buf (bs_cache s') j = bc_buf (bs_cache s) j) →
  (∀ r', r' ≠ r → a_ent a' !! r' = a_ent a !! r' ∧ a_disk a' r' = a_disk a r') →
  ent_ok pid a' i b' →
  (∀ j, j ∈ idxs → j ≠ i → b_dev (bc_buf (bs_cache s) j) = ROOTDEV →
        b_blockno (bc_buf (bs_cache s) j) ≠ b_blockno b') →
  (b_dev (bc_buf (bs_cache s) i) = ROOTDEV →
     b_blockno (bc_buf (bs_cache s) i) = b_blockno b' ∨
     a_ent a !! (b_blockno (bc_buf (bs_cache s) i) - MBR_BASE) = None) →
  (∀ x, 0 ≤ x → sector (bs_dev s') (x + MBR_BASE) = a_disk a' x ∧ block_ok (a_disk a' x)) →
  dev_writes (bs_dev s') = map (λ w, (w.1 + MBR_BASE, w.2)) (a_writes a') →
  rel s' a'.
Proof.
  intros Hrel Hi b' r Hl Hj Ha Hok Hu Hold Hdisk Hw. split; [done|..|done|done].
  - intros j Hjx. destruct (decide (j = i)) as [->|Hne]; [by right|].
    rewrite Hj by done. destruct (br_bufs _ _ _ Hrel j Hjx) as [?|Hej]; [by left|right].
    assert (b_blockno (bc_buf (bs_cache s) j) - MBR_BASE ≠ r) as Hr.
    { specialize (Hu j Hjx Hne). unfold ent_ok in Hej. intros ?.
      apply Hu; [tauto|]. unfold r, b' in *. lia. }
    destruct (Ha _ Hr) as [He Hd]. unfold ent_ok in *. by rewrite He, Hd.
  - intros j k Hjx Hkx Hdj Hdk Heq.
    assert (b_dev b' = ROOTDEV) by apply Hok.
    destruct (decide (j = i)) as [->|Hne], (decide (k = i)) as [->|Hne'];
      [done|rewrite (Hj k Hne') in Hdk, Heq|rewrite (Hj j Hne) in Hdj, Heq|].
    + by destruct (Hu k Hkx Hne' Hdk).
    + by destruct (Hu j Hjx Hne Hdj).
    + rewrite (Hj j Hne) in Hdj, Heq. rewrite (Hj k Hne') in Hdk, Heq.
      by eapply br_uniq.
  - intros r' e He. destruct (decide (r' = r)) as [->|Hne].
    + exists i. split; [done|]. split; [apply Hok|]. fold b'. unfold r. lia.
    + destruct (Ha _ Hne) as [Hent _]. rewrite Hent in He.
      destruct (br_ents _ _ _ Hrel r' e He) as (j & Hjx & Hdj & Hbj).
      destruct (decide (j = i)) as [->|Hji].
      * destruct (Hold Hdj) as [Heq|Hnone].
        -- exfalso. apply Hne. unfold r. rewrite <-Heq, Hbj. lia.
        -- rewrite Hbj, Z.add_simpl_r in Hnone. congruence.
      * exists j. by rewrite !Hj.
Qed.

Definition flags_of (dirty : bool) : Z :=
  if dirty then Z.lor B_VALID B_DIRTY else B_VALID.

(** A held block is in the buffer its handle names. *)
Lemma held_buf s a b e i :
  rel s a → a_ent a !! b = Some e → e_held e = Some i →
  i ∈ idxs ∧ blk_ok b ∧ block_ok (e_data e) ∧
  bc_buf (bs_cache s) i =
    mkBuf (flags_of (e_dirty e)) ROOTDEV (b + MBR_BASE) 1 (e_data e) (mkSleeplock 1 pid).
Proof.
  intros Hrel He Hh. destruct (br_ents _ _ _ Hrel b e He) as (j & Hj & Hd & Hb).
  destruct (br_bufs _ _ _ Hrel j Hj) as [(Hd' & _)|Hok]; [by rewrite Hd in Hd'|].
  unfold ent_ok in Hok. rewrite Hb, Z.add_simpl_r, He, Hh in Hok.
  destruct Hok as (_ & Hbo & Hblk & Hdata & Hfl & <- & Hlk & Hrc).
  destruct (bc_buf (bs_cache s) i) eqn:Hbuf. cbn in *. subst.
  repeat split; [done|apply Hbo..|exact Hblk].
Qed.

(** [rel_step] for a buffer that keeps its block. *)
Lemma rel_same s a s' a' i b :
  rel s a → i ∈ idxs →
  b_dev (bc_buf (bs_cache s) i) = ROOTDEV →
  b_blockno (bc_buf (bs_cache s) i) = b + MBR_BASE →
  b_blockno (bc_buf (bs_cache s') i) = b + MBR_BASE →
  (∃ l, dlist (bc_list (bs_cache s')) head l ∧ l ≡ₚ idxs) →
  (∀ j, j ≠ i → bc_buf (bs_cache s') j = bc_buf (bs_cache s) j) →
  (∀ r', r' ≠ b → a_ent a' !! r' = a_ent a !! r' ∧ a_disk a' r' = a_disk a r') →
  ent_ok pid a' i (bc_buf (bs_cache s') i) →
  (∀ x, 0 ≤ x → sector (bs_dev s') (x + MBR_BASE) = a_disk a' x ∧ block_ok (a_disk a' x)) →
  dev_writes (bs_dev s') = map (λ w, (w.1 + MBR_BASE, w.2)) (a_writes a') →
  rel s' a'.
Proof.
  intros Hrel Hi Hd Hb Hb' Hl Hj Ha Hok Hdisk Hw.
  eapply (rel_step s a s' a' i); try done.
  - intros r'. rewrite Hb', Z.add_simpl_r. apply Ha.
  - intros j Hjx Hne Hdj Heq. apply Hne. eapply (br_uniq _ _ _ Hrel); [done..|].
    by rewrite Hb, <-Hb'.
  - left. by rewrite Hb, Hb'.
Qed.

(** Updating the entry of a block, in place. *)
Lemma a_set_same a b e :
  (∀ r', r' ≠ b → a_ent (a_set a b e) !! r' = a_ent a !! r' ∧
                  a_disk (a_set a b e) r' = a_disk a r').
Proof. intros r' ?. unfold a_set; cbn. by rewrite lookup_insert_ne. Qed.

Lemma bio_data_spec s a b e i :
  rel s a → a_ent a !! b = Some e → e_held e = Some i →
  bio_data i s = Ret (e_data e) s.
Proof.
  intros Hrel He Hh. destruct (held_buf _ _ _ _ _ Hrel He Hh) as (_ & _ & _ & Hb).
  unfold bio_data, gets. by rewrite Hb.
Qed.

Lemma bio_blockno_spec s a b e i :
  rel s a → a_ent a !! b = Some e → e_held e = Some i →
  bio_blockno i s = Ret (b + MBR_BASE) s.
Proof.
  intros Hrel He Hh. destruct (held_buf _ _ _ _ _ Hrel He Hh) as (_ & _ & _ & Hb).
  unfold bio_blockno, gets. by rewrite Hb.
Qed.

(** In-place updates of a held buffer that do not touch the device. *)
Lemma rel_set_held s a b e i data dirty :
  rel s a → a_ent a !! b = Some e → e_held e = Some i → block_ok data →
  rel (set_buf i (mkBuf (flags_of dirty) ROOTDEV (b + MBR_BASE) 1 data
                        (mkSleeplock 1 pid)) s)
      (a_set a b (Ent data dirty (Some i))).
Proof.
  intros Hrel He Hh Hd. destruct (held_buf _ _ _ _ _ Hrel He Hh) as (Hi & Hbo & _ & Hb).
  eapply (rel_same s a _ _ i b); [done|done| | | |..]; try by rewrite Hb.
  - cbn. by rewrite upd_eq.
  - apply (br_list _ _ _ Hrel).
  - intros j Hj. cbn. by rewrite upd_ne.
  - apply a_set_same.
  - unfold ent_ok. cbn. rewrite upd_eq. cbn. rewrite Z.add_simpl_r, lookup_insert_eq. done.
  - apply (br_disk _ _ _ Hrel).
  - apply (br_writes _ _ _ Hrel).
Qed.

Lemma bio_set_data_spec s a b e i d :
  rel s a → a_ent a !! b = Some e → e_held e = Some i → block_ok d →
  ∃ s', bio_set_data i d s = Ret () s' ∧
        rel s' (a_set a b (Ent d (e_dirty e) (e_held e))).
Proof.
  intros Hrel He Hh Hd. eexists. split; [done|].
  destruct (held_buf _ _ _ _ _ Hrel He Hh) as (_ & _ & _ & Hb).
  cbn. rewrite Hb, Hh. by eapply rel_set_held.
Qed.

Lemma bio_set_dirty_spec s a b e i :
  rel s a → a_ent a !! b = Some e → e_held e = Some i →
  ∃ s', bio_set_dirty i s = Ret () s' ∧
        rel s' (a_set a b (Ent (e_data e) true (e_held e))).
Proof.
  intros Hrel He Hh. eexists. split; [done|].
  destruct (held_buf _ _ _ _ _ Hrel He Hh) as (_ & _ & Hd & Hb).
  cbn. rewrite Hb, Hh. cbn.
  replace (Z.lor (flags_of (e_dirty e)) B_DIRTY) with (flags_of true)
    by by destruct (e_dirty e).
  by eapply rel_set_held.
Qed.

Lemma blockno_range b : blk_ok b → 0 ≤ b + MBR_BASE < 2 ^ 32.
Proof. unfold blk_ok, MBR_BASE. lia. Qed.

Lemma bio_bwrite_spec s a b e i :
  rel s a → a_ent a !! b = Some e → e_held e = Some i →
  ∃ s', bio_bwrite pid i s = Ret () s' ∧ rel s' (a_bwrite a b e).
Proof.
  intros Hrel He Hh. destruct (held_buf _ _ _ _ _ Hrel He Hh) as (Hi & Hbo & Hd & Hb).
  destruct (sdrw_write (bs_dev s) (flags_of true) (b + MBR_BASE) (e_data e))
    as (d' & Hrw & Hsec & Hwr); [done|by apply blockno_range|done|].
  eexists. split.
  { unfold bio_bwrite, with_lock, mbind, M_bind, holdingsleep, get_buf, gets, put_buf, modify.
    rewrite Hb. cbn. rewrite Z.eqb_refl. cbn. rewrite !upd_eq. cbn. unfold sdrw_buf. cbn.
    rewrite upd_eq. cbn.
    replace (Z.lor (flags_of (e_dirty e)) B_DIRTY) with (flags_of true)
      by by destruct (e_dirty e).
    rewrite Hrw. reflexivity. }
  eapply (rel_same s a _ _ i b); [done|done| | | |..]; try by rewrite Hb.
  - cbn. by rewrite upd_eq.
  - apply (br_list _ _ _ Hrel).
  - intros j Hj. cbn. by rewrite !upd_ne.
  - intros r' ?. unfold a_bwrite; cbn. by rewrite lookup_insert_ne, upd_ne.
  - unfold ent_ok. cbn. rewrite upd_eq. cbn. rewrite Z.add_simpl_r, lookup_insert_eq.
    rewrite Hh. cbn. done.
  - intros x Hx. cbn. rewrite Hsec by (unfold MBR_BASE; lia). rewrite !upd_case.
    destruct (br_disk _ _ _ Hrel x Hx). repeat case_decide; try (exfalso; lia); done.
  - cbn. rewrite Hwr, (br_writes _ _ _ Hrel), map_app. done.
Qed.

(** Unlinking buffer [i] and linking it at the front. *)
Lemma brelse_list H l1 i l2 :
  dlist H head (l1 ++ i :: l2) →
  let H1 := set_prev (l_next H i) (l_prev H i) H in
  let H2 := set_next (l_prev H1 i) (l_next H1 i) H1 in
  dlist (link_mru i H2) head (i :: l1 ++ l2).
Proof.
  intros Hd H1 H2.
  assert (i ∉ head :: l1 ++ l2) as Hni.
  { destruct Hd as [Hnd _]. apply NoDup_cons in Hnd as [Hh Hnd].
    apply NoDup_app in Hnd as (_ & Hd1 & Hnd). apply NoDup_cons in Hnd as [Hd2 _].
    specialize (Hd1 i). set_solver. }
  assert (l_prev H1 i = l_prev H i) as Hp.
  { unfold H1. cbn. rewrite upd_case. case_decide as Hc; [|done].
    destruct Hd as [_ Hs]. exfalso. apply Hni. rewrite Hc.
    apply seg_app in Hs as [_ Hs]. destruct l2; cbn in Hs; [|destruct Hs as [[-> _] _]; set_solver].
    destruct Hs as [-> _]. set_solver. }
  assert (l_next H1 i = l_next H i) as Hn by done.
  apply link_mru_dlist; [done|]. unfold H2. rewrite Hp, Hn. by apply dlist_unlink.
Qed.

Lemma bio_brelse_spec s a b e i :
  rel s a → a_ent a !! b = Some e → e_held e = Some i →
  (e_dirty e = false → e_data e = a_disk a b) →
  ∃ s', bio_brelse pid i s = Ret () s' ∧ rel s' (a_brelse a b e).
Proof.
  intros Hrel He Hh Hcl. destruct (held_buf _ _ _ _ _ Hrel He Hh) as (Hi & Hbo & Hd & Hb).
  destruct (br_list _ _ _ Hrel) as (l & Hl & Hp).
  eexists. split.
  { unfold bio_brelse, with_lock, mbind, M_bind, holdingsleep, releasesleep,
      get_buf, gets, put_buf, modify.
    rewrite Hb. cbn. rewrite Z.eqb_refl. cbn. rewrite !upd_eq. cbn. reflexivity. }
  eapply (rel_same s a _ _ i b); [done|done| | | |..]; try by rewrite Hb.
  - cbn. by rewrite upd_eq.
  - rewrite <-Hp in Hi. apply list_elem_of_split in Hi as (l1 & l2 & ->).
    exists (i :: l1 ++ l2). split; [by apply brelse_list|]. rewrite <-Hp.
    by rewrite Permutation_middle.
  - intros j Hj. cbn. by rewrite !upd_ne.
  - intros r' ?. unfold a_brelse, a_set, a_del. destruct (e_dirty e); cbn;
      by rewrite ?lookup_insert_ne, ?lookup_delete_ne.
  - unfold ent_ok, a_brelse. cbn. rewrite upd_eq. cbn. rewrite Z.add_simpl_r.
    destruct (e_dirty e) eqn:Hdi; cbn.
    + rewrite lookup_insert_eq. cbn. done.
    + rewrite lookup_delete_eq. split; [done|]. split; [done|]. split; [done|].
      split; [by apply Hcl|]. done.
  - intros x Hx. unfold a_brelse. destruct (e_dirty e); cbn; by apply (br_disk _ _ _ Hrel).
  - unfold a_brelse. destruct (e_dirty e); cbn; apply (br_writes _ _ _ Hrel).
Qed.

Lemma find_perm_some (P : Z → bool) l i :
  l ≡ₚ idxs → List.find P l = Some i → i ∈ idxs ∧ P i = true.
Proof.
  intros Hp [Hin HP]%List.find_some. split; [|done].
  rewrite <-Hp. by apply list_elem_of_In.
Qed.
Lemma find_perm_none (P : Z → bool) l i :
  l ≡ₚ idxs → List.find P l = None → i ∈ idxs → P i = false.
Proof.
  intros Hp Hn Hi. eapply List.find_none; [exact Hn|].
  apply list_elem_of_In. by rewrite Hp.
Qed.

Definition is_evictable (b : buf) : bool :=
  (b_refcnt b =? 0) && (Z.land (b_flags b) B_DIRTY =? 0).

(** A buffer that may not be recycled has an entry. *)
Lemma busy_ent s a i :
  rel s a → i ∈ idxs → is_evictable (bc_buf (bs_cache s) i) = false →
  b_dev (bc_buf (bs_cache s) i) = ROOTDEV ∧
  is_Some (a_ent a !! (b_blockno (bc_buf (bs_cache s) i) - MBR_BASE)).
Proof.
  intros Hrel Hi Hev. unfold is_evictable in Hev.
  destruct (br_bufs _ _ _ Hrel i Hi) as [(Hd & Hf & Hr & _)|Hok].
  - by rewrite Hf, Hr in Hev.
  - destruct Hok as (Hd & _ & _ & Hm). split; [done|].
    destruct (a_ent a !! _); [done|]. destruct Hm as (_ & Hf & _ & Hr).
    by rewrite Hf, Hr in Hev.
Qed.

(** Pigeonhole: with fewer than NBUF entries some buffer can be recycled. *)
Lemma evictable_exists s a :
  rel s a → Z.of_nat (size (a_ent a)) < NBUF →
  ¬ ∀ i, i ∈ idxs → is_evictable (bc_buf (bs_cache s) i) = false.
Proof.
  intros Hrel Hsz Hall.
  set (f := λ i, b_blockno (bc_buf (bs_cache s) i) - MBR_BASE).
  assert (NoDup (f <$> idxs)) as Hnd.
  { apply NoDup_fmap_2_strong; [|apply NoDup_idxs].
    intros i j Hi Hj Hf. eapply (br_uniq _ _ _ Hrel); [done..| | |].
    - by destruct (busy_ent s a i Hrel Hi (Hall i Hi)).
    - by destruct (busy_ent s a j Hrel Hj (Hall j Hj)).
    - unfold f in Hf. lia. }
  assert (list_to_set (f <$> idxs) ⊆ dom (a_ent a)) as Hsub.
  { intros r Hr. apply elem_of_list_to_set, list_elem_of_fmap in Hr as (i & -> & Hi).
    apply elem_of_dom. by destruct (busy_ent s a i Hrel Hi (Hall i Hi)). }
  apply subseteq_size in Hsub. rewrite size_list_to_set in Hsub by done.
  rewrite length_fmap, idxs_length, size_dom in Hsub. lia.
Qed.

Lemma upd_twice {A} (f : Z → A) i v w j : j ≠ i → upd (upd f i v) i w j = f j.
Proof. intros. by rewrite !upd_ne. Qed.

(** [bread] on a block that is in the cache. *)
Lemma bread_hit s a b i :
  rel s a → blk_ok b → i ∈ idxs →
  (∀ e, a_ent a !! b = Some e → e_held e = None) →
  b_dev (bc_buf (bs_cache s) i) = ROOTDEV →
  b_blockno (bc_buf (bs_cache s) i) = b + MBR_BASE →
  let dirty := match a_ent a !! b with Some e => e_dirty e | None => false end in
  bc_buf (bs_cache s) i =
    mkBuf (flags_of dirty) ROOTDEV (b + MBR_BASE) 0 (view a b) initsleeplock ∧
  block_ok (view a b).
Proof.
  intros Hrel Hbo Hi Hnh Hd Hb dirty.
  destruct (br_bufs _ _ _ Hrel i Hi) as [(Hd' & _)|Hok]; [by rewrite Hd in Hd'|].
  unfold ent_ok in Hok. rewrite Hb, Z.add_simpl_r in Hok. unfold dirty, view.
  destruct Hok as (_ & _ & Hlen & Hok).
  destruct (bc_buf (bs_cache s) i) as [fl dv bn rc da lk]. cbn in *.
  destruct (a_ent a !! b) as [e|] eqn:He.
  - rewrite (Hnh e eq_refl) in Hok. destruct Hok as (-> & -> & Hdi & -> & ->).
    rewrite Hdi. subst. done.
  - destruct Hok as (-> & -> & -> & ->). subst. done.
Qed.

(** The two walks of [bget]. *)
Definition cached (s : bst D) (dev bno : Z) (i : Z) : bool :=
  (b_dev (bc_buf (bs_cache s) i) =? dev) && (b_blockno (bc_buf (bs_cache s) i) =? bno).
Definition evictable (s : bst D) (i : Z) : bool := is_evictable (bc_buf (bs_cache s) i).

Lemma bget_walks s l dev bno :
  dlist (bc_list (bs_cache s)) head l → l ≡ₚ idxs →
  bget pid dev bno s =
    match List.find (cached s dev bno) l with
    | Some i =>
      (b ← get_buf i;
       put_buf i (mkBuf (b_flags b) (b_dev b) (b_blockno b) (w32 (b_refcnt b + 1))
                        (b_data b) (b_lock b)) ;;
       with_lock i (acquiresleep pid i) ;;
       mret i) s
    | None =>
      match List.find (evictable s) (rev l) with
      | Some i =>
        (b ← get_buf i;
         put_buf i (mkBuf 0 dev bno 1 (b_data b) (b_lock b)) ;;
         with_lock i (acquiresleep pid i) ;;
         mret i) s
      | None => Panic "bget: no buffers"
      end
    end.
Proof.
  intros Hl Hp. assert (length l < walk_fuel)%nat as Hfuel.
  { rewrite Hp, idxs_length. unfold walk_fuel. lia. }
  unfold bget. erewrite (mbind_ret (gets bs_cache)); [|reflexivity].
  pose proof (dlist_walk_next _ (cached s dev bno) _ _ _ Hl Hfuel) as Hw1.
  pose proof (dlist_walk_prev _ (evictable s) _ _ _ Hl Hfuel) as Hw2.
  unfold cached at 1 in Hw1. unfold evictable at 1, is_evictable at 1 in Hw2. rewrite Hw1.
  destruct (List.find (cached s dev bno) l); [done|].
  rewrite Hw2. by destruct (List.find (evictable s) (rev l)).
Qed.

Lemma bread_hit_spec s a b l i :
  rel s a → blk_ok b → (∀ e, a_ent a !! b = Some e → e_held e = None) →
  dlist (bc_list (bs_cache s)) head l → l ≡ₚ idxs →
  List.find (cached s ROOTDEV (b + MBR_BASE)) l = Some i →
  ∃ s', bio_bread pid ROOTDEV b s = Ret i s' ∧ rel s' (a_bread a b i).
Proof.
  intros Hrel Hbo Hnh Hl Hp Hf1.
  destruct (find_perm_some _ _ _ Hp Hf1) as [Hi [Hdev Hbn]%andb_prop].
  apply Z.eqb_eq in Hdev, Hbn.
  destruct (bread_hit s a b i) as [Hbuf Hlen]; [done..|].
  eexists. split.
  { unfold bio_bread. rewrite (w32_small (b + MBR_BASE)) by (by apply blockno_range).
    unfold mbind at 1, M_bind at 1. rewrite (bget_walks s l) by done. rewrite Hf1.
    unfold mbind, M_bind, get_buf, gets, put_buf, modify, with_lock, acquiresleep.
    rewrite Hbuf. cbn. rewrite !upd_eq. cbn. rewrite !upd_eq. cbn.
    match goal with |- context [flags_of ?x] => set (di := x) end.
    replace (Z.land (flags_of di) B_VALID =? 0) with false by (by destruct di).
    reflexivity. }
  eapply (rel_same s a _ _ i b); [done|done| | | |..]; try by rewrite Hbuf.
  - cbn. by rewrite upd_eq.
  - by apply (br_list _ _ _ Hrel).
  - intros j Hj. cbn. by rewrite !upd_ne.
  - apply a_set_same.
  - unfold ent_ok. cbn. rewrite upd_eq. cbn. rewrite Z.add_simpl_r, lookup_insert_eq.
    cbn. by destruct (a_ent a !! b).
  - by apply (br_disk _ _ _ Hrel).
  - apply (br_writes _ _ _ Hrel).
Qed.

(** A buffer that may be recycled is unlocked and stands for no entry. *)
Lemma evictable_free s a i :
  rel s a → i ∈ idxs → evictable s i = true →
  b_lock (bc_buf (bs_cache s) i) = initsleeplock ∧
  (b_dev (bc_buf (bs_cache s) i) = ROOTDEV →
   a_ent a !! (b_blockno (bc_buf (bs_cache s) i) - MBR_BASE) = None).
Proof.
  intros Hrel Hi Hev. unfold evictable, is_evictable in Hev. apply andb_prop in Hev as [Hr Hf].
  apply Z.eqb_eq in Hr, Hf.
  destruct (br_bufs _ _ _ Hrel i Hi) as [(Hd & _ & _ & Hl0)|Hok].
  - split; [done|]. by rewrite Hd.
  - unfold ent_ok in Hok. cbv zeta in Hok. destruct Hok as (_ & _ & _ & Hok).
    destruct (a_ent a !! (b_blockno (bc_buf (bs_cache s) i) - MBR_BASE)) as [e|];
      [|by destruct Hok as (_ & _ & Hl0 & _)].
    destruct Hok as (_ & Hfl & Hok). destruct (e_held e).
    + destruct Hok as (_ & _ & Hr'). by rewrite Hr in Hr'.
    + destruct Hok as (Hdi & _). by rewrite Hfl, Hdi in Hf.
Qed.

Lemma uncached_no_ent s a b l :
  rel s a → l ≡ₚ idxs →
  List.find (cached s ROOTDEV (b + MBR_BASE)) l = None → a_ent a !! b = None.
Proof.
  intros Hrel Hp Hf1. destruct (a_ent a !! b) as [e|] eqn:He; [|done].
  destruct (br_ents _ _ _ Hrel b e He) as (i & Hi & Hdi & Hbi).
  pose proof (find_perm_none _ _ i Hp Hf1 Hi) as Hfalse. unfold cached in Hfalse.
  rewrite Hdi, Hbi, !Z.eqb_refl in Hfalse. done.
Qed.

Lemma bread_miss_spec s a b l i :
  rel s a → blk_ok b → dlist (bc_list (bs_cache s)) head l → l ≡ₚ idxs →
  List.find (cached s ROOTDEV (b + MBR_BASE)) l = None →
  List.find (evictable s) (rev l) = Some i →
  ∃ s', bio_bread pid ROOTDEV b s = Ret i s' ∧ rel s' (a_bread a b i).
Proof.
  intros Hrel Hbo Hl Hp Hf1 Hf2.
  pose proof (uncached_no_ent s a b l Hrel Hp Hf1) as Hnone.
  destruct (find_perm_some (evictable s) (rev l) i) as [Hi Hev];
    [by rewrite <-Hp, <-Permutation_rev|done|].
  destruct (sdrw_read (bs_dev s) 0 (b + MBR_BASE) (b_data (bc_buf (bs_cache s) i)))
    as (d' & Hrw & Hsec & Hwr); [done|by apply blockno_range|].
  destruct (br_disk _ _ _ Hrel b) as [Hsb Hlen]; [by destruct Hbo|].
  destruct (evictable_free s a i Hrel Hi Hev) as [Hlk Hold].
  eexists. split.
  { unfold bio_bread. rewrite (w32_small (b + MBR_BASE)) by (by apply blockno_range).
    unfold mbind at 1, M_bind at 1. rewrite (bget_walks s l) by done. rewrite Hf1, Hf2.
    unfold mbind, M_bind, get_buf, gets, put_buf, modify, with_lock, acquiresleep.
    cbn. rewrite ?upd_eq. cbn. rewrite Hlk. cbn. rewrite ?upd_eq. cbn.
    change (Z.land 0 B_VALID =? 0) with true. unfold sdrw_buf. cbn.
    rewrite ?upd_eq. cbn. rewrite Hrw, Hsb. reflexivity. }
  eapply (rel_step s a _ _ i); [done|done|..].
  - by apply (br_list _ _ _ Hrel).
  - intros j Hj. cbn. by rewrite !upd_ne.
  - intros r'. cbn. rewrite upd_eq. cbn. rewrite Z.add_simpl_r. intros ?.
    by rewrite lookup_insert_ne.
  - unfold ent_ok. cbn. rewrite upd_eq. cbn. rewrite Z.add_simpl_r, lookup_insert_eq, Hnone.
    cbn. unfold view. rewrite Hnone. done.
  - intros j Hj _ Hdj. cbn. rewrite upd_eq. cbn. intros Hbj.
    pose proof (find_perm_none _ _ j Hp Hf1 Hj) as Hfalse. unfold cached in Hfalse.
    rewrite Hdj, Hbj, !Z.eqb_refl in Hfalse. done.
  - intros Hd. right. by apply Hold.
  - intros x Hx. cbn. rewrite Hsec by (unfold MBR_BASE; lia). by apply (br_disk _ _ _ Hrel).
  - cbn. rewrite Hwr. apply (br_writes _ _ _ Hrel).
Qed.

Lemma bio_bread_spec s a b :
  rel s a → blk_ok b → room a b →
  (∀ e, a_ent a !! b = Some e → e_held e = None) →
  ∃ i s', bio_bread pid ROOTDEV b s = Ret i s' ∧ rel s' (a_bread a b i).
Proof.
  intros Hrel Hbo Hroom Hnh. destruct (br_list _ _ _ Hrel) as (l & Hl & Hp).
  destruct (List.find (cached s ROOTDEV (b + MBR_BASE)) l) as [i|] eqn:Hf1.
  { exists i. by eapply bread_hit_spec. }
  pose proof (uncached_no_ent s a b l Hrel Hp Hf1) as Hnone.
  destruct (List.find (evictable s) (rev l)) as [i|] eqn:Hf2.
  { exists i. by eapply bread_miss_spec. }
  exfalso. destruct Hroom as [[e He]|Hsz]; [congruence|].
  apply (evictable_exists s a Hrel Hsz). intros i Hi.
  eapply (find_perm_none (evictable s) (rev l)); [|done|done].
  by rewrite <-Hp, <-Permutation_rev.
Qed.

Lemma bio_boot_rel s d : bio_boot s d → rel s (Abs d [] ∅).
Proof.
  intros ((H & Hc) & Hd & Hw). pose proof (binit_spec H) as [Hl Hb].
  rewrite <-Hc in Hl, Hb. clear Hc. split.
  - exists (rev idxs). split; [done|]. symmetry. apply Permutation_rev.
  - intros i _. left. by rewrite Hb.
  - intros i j _ _ Hdi. by rewrite Hb in Hdi.
  - intros r e. cbn. by rewrite lookup_empty.
  - done.
  - by rewrite Hw.
Qed.

Lemma bio_disk_ok s a b : rel s a → 0 ≤ b → block_ok (a_disk a b).
Proof. intros Hrel Hb. by apply (br_disk _ _ _ Hrel). Qed.

Lemma bio_view_ok s a b : rel s a → 0 ≤ b → block_ok (view a b).
Proof.
  intros Hrel Hb. unfold view. destruct (a_ent a !! b) as [e|] eqn:He; [|by eapply bio_disk_ok].
  destruct (br_ents _ _ _ Hrel b e He) as (i & Hi & Hd & Hbi).
  destruct (br_bufs _ _ _ Hrel i Hi) as [(Hd' & _)|Hok]; [by rewrite Hd in Hd'|].
  unfold ent_ok in Hok. rewrite Hbi, Z.add_simpl_r, He in Hok.
  destruct Hok as (_ & _ & Hlen & Hda & _). by rewrite <-Hda.
Qed.

Definition bio_disk (s : bst D) (b : Z) : block := sector (bs_dev s) (b + MBR_BASE).
Definition bio_writes (s : bst D) : list (Z * block) :=
  map (λ w, (w.1 - MBR_BASE, w.2)) (dev_writes (bs_dev s)).

Lemma bio_writes_rel s a : rel s a → bio_writes s = a_writes a.
Proof.
  intros Hrel. unfold bio_writes. rewrite (br_writes _ _ _ Hrel), map_map.
  rewrite <-(map_id (a_writes a)) at 2. apply map_ext. intros [x v]. cbn.
  by rewrite Z.add_simpl_r.
Qed.

(** The LRU cache implements the interface. *)
#[export, refine] Instance bio_buffer_cache : @BufferCache (bst D) (bio_ops pid) := {
  bc_rel := bio_rel pid;
  bc_boot := bio_boot;
  bc_disk := bio_disk;
  bc_writes := bio_writes;
}.
Proof.
  - apply bio_boot_rel.
  - intros s a b Hrel Hb. by apply (br_disk _ _ _ Hrel).
  - apply bio_writes_rel.
  - apply bio_disk_ok.
  - apply bio_view_ok.
  - apply bio_bread_spec.
  - apply bio_bwrite_spec.
  - apply bio_brelse_spec.
  - apply bio_data_spec.
  - apply bio_blockno_spec.
  - apply bio_set_data_spec.
  - apply bio_set_dirty_spec.
Defined.
End Proofs.

Section Theorems.
Context {D : Type} `{!BlockDev D} (pid : Z).
Implicit Types (s : bst D) (a : abs).
Abbreviation rel := (bio_rel pid).

(** Buffer [i] has become [b], everything else is as it was. *)
Definition buf_now s i b s' : Prop :=
  bc_buf (bs_cache s') i = b ∧ (∀ j, j ≠ i → bc_buf (bs_cache s') j = bc_buf (bs_cache s) j) ∧
  bc_list (bs_cache s') = bc_list (bs_cache s) ∧ bs_dev s' = bs_dev s.

(** C8: block lookup and LRU replacement.  [bget] takes the buffer that
    caches the block when there is one, and sleeps while another process has
    it locked; otherwise it recycles the least recently used buffer that is
    neither referenced nor pinned, and panics when there is none.  [l] is
    the list from the most to the least recently used buffer. *)
Theorem bget_correct s a l dev bno :
  rel s a → dlist (bc_list (bs_cache s)) head l → l ≡ₚ idxs →
  match List.find (cached s dev bno) l with
  | Some i =>
    let b := bc_buf (bs_cache s) i in
    if negb (sl_locked (b_lock b) =? 0) then bget pid dev bno s = Sleep i
    else ∃ s', bget pid dev bno s = Ret i s' ∧
      buf_now s i (mkBuf (b_flags b) dev bno (w32 (b_refcnt b + 1)) (b_data b)
                         (mkSleeplock 1 pid)) s'
  | None =>
    match List.find (evictable s) (rev l) with
    | Some i => ∃ s', bget pid dev bno s = Ret i s' ∧
        buf_now s i (mkBuf 0 dev bno 1 (b_data (bc_buf (bs_cache s) i)) (mkSleeplock 1 pid)) s'
    | None => bget pid dev bno s = Panic "bget: no buffers"
    end
  end.
Proof.
  intros Hrel Hl Hp. rewrite (bget_walks pid s l dev bno Hl Hp).
  destruct (List.find (cached s dev bno) l) as [i|] eqn:Hf1.
  - destruct (find_perm_some _ _ _ Hp Hf1) as [_ [Hdev Hbn]%andb_prop].
    apply Z.eqb_eq in Hdev, Hbn. cbv zeta.
    unfold mbind, M_bind, get_buf, gets, put_buf, modify, with_lock, acquiresleep. cbn.
    rewrite upd_eq. cbn.
    destruct (Z.eqb_spec (sl_locked (b_lock (bc_buf (bs_cache s) i))) 0); cbn; [|done].
    eexists. split; [done|]. unfold buf_now. cbn. rewrite !upd_eq. cbn. rewrite Hdev, Hbn.
    split; [done|]. split; [|done]. intros j Hj. by rewrite !upd_ne.
  - destruct (List.find (evictable s) (rev l)) as [i|] eqn:Hf2; [|done].
    destruct (find_perm_some (evictable s) (rev l) i) as [Hi Hev];
      [by rewrite <-Hp, <-Permutation_rev|done|].
    destruct (evictable_free pid s a i Hrel Hi Hev) as [Hlk _].
    unfold mbind, M_bind, get_buf, gets, put_buf, modify, with_lock, acquiresleep. cbn.
    rewrite upd_eq. cbn. rewrite Hlk. cbn.
    eexists. split; [done|]. unfold buf_now. cbn. rewrite !upd_eq.
    split; [done|]. split; [|done]. intros j Hj. by rewrite !upd_ne.
Qed.

(** [brelse] unlocks the buffer and, since no process refers to it any
    more, makes it the most recently used; the order of the others is kept,
    and so is its cached contents.  Only the holder may release or write. *)
Theorem brelse_correct s a b e i l1 l2 :
  rel s a → a_ent a !! b = Some e → e_held e = Some i →
  dlist (bc_list (bs_cache s)) head (l1 ++ i :: l2) →
  (∃ s', bio_brelse pid i s = Ret () s' ∧
    dlist (bc_list (bs_cache s')) head (i :: l1 ++ l2) ∧
    b_lock (bc_buf (bs_cache s') i) = initsleeplock ∧
    b_refcnt (bc_buf (bs_cache s') i) = 0 ∧ b_data (bc_buf (bs_cache s') i) = e_data e) ∧
  ∀ pid', pid' ≠ pid →
    bio_brelse pid' i s = Panic "brelse" ∧ bio_bwrite pid' i s = Panic "bwrite".
Proof.
  intros Hrel He Hh Hl. destruct (held_buf _ _ _ _ _ _ Hrel He Hh) as (Hi & Hbo & Hd & Hb).
  split.
  - eexists. split.
    { unfold bio_brelse, with_lock, mbind, M_bind, holdingsleep, releasesleep,
        get_buf, gets, put_buf, modify.
      rewrite Hb. cbn. rewrite Z.eqb_refl. cbn. rewrite !upd_eq. cbn. reflexivity. }
    cbn. rewrite !upd_eq. split; [by apply brelse_list|]. done.
  - intros pid' Hne. unfold bio_brelse, bio_bwrite, with_lock, mbind, M_bind, holdingsleep.
    rewrite Hb. cbn. destruct (Z.eqb_spec pid pid'); [by subst|]. done.
Qed.

(** C9: what is written is on the disk and is what is read back.  A process
    reads block [b], changes its contents, writes and releases it; the next
    [bread] of the block finds the new contents, cached or not, and
    the other blocks are as before. *)
Theorem write_read_back s a b d :
  rel s a → blk_ok b → a_ent a !! b = None → Z.of_nat (size (a_ent a)) < NBUF → block_ok d →
  ∃ i s1 j s2,
    (i ← bio_bread pid ROOTDEV b;
     bio_set_data i d ;; bio_bwrite pid i ;; bio_brelse pid i ;; mret i) s = Ret i s1 ∧
    bio_disk s1 b = d ∧
    (∀ c, c ≠ b → 0 ≤ c → bio_disk s1 c = bio_disk s c) ∧
    bio_bread pid ROOTDEV b s1 = Ret j s2 ∧ bio_data j s2 = Ret d s2.
Proof.
  intros Hrel Hb Hn Hsz Hd.
  destruct (bio_bread_spec pid s a b) as (i & s1 & H1 & R1); [done|done|by right|congruence|].
  unfold a_bread in R1. rewrite Hn in R1.
  destruct (bio_set_data_spec pid s1 _ b _ i d R1 (lookup_insert_eq _ _ _) eq_refl Hd)
    as (s2 & H2 & R2).
  destruct (bio_bwrite_spec pid s2 _ b _ i R2 (lookup_insert_eq _ _ _) eq_refl) as (s3 & H3 & R3).
  destruct (bio_brelse_spec pid s3 _ b _ i R3 (lookup_insert_eq _ _ _) eq_refl) as (s4 & H4 & R4).
  { intros _. cbn. by rewrite upd_eq. }
  cbn [e_data e_dirty e_held a_brelse] in R4. set (a4 := a_del _ _) in R4.
  assert (a_ent a4 !! b = None) as Hn4 by apply lookup_delete_eq.
  destruct (bio_bread_spec pid s4 a4 b) as (j & s5 & H5 & R5); [done|done| |congruence|].
  { right. cbn. rewrite !insert_insert_eq, delete_insert_id by done. done. }
  exists i, s4, j, s5. split; [mstep H1; mstep H2; mstep H3; mstep H4; done|].
  assert (∀ c, 0 ≤ c → bio_disk s4 c = upd (a_disk a) b d c) as Hdisk.
  { intros c Hc. by apply (br_disk _ _ _ R4). }
  split; [rewrite Hdisk by apply Hb; apply upd_eq|]. split.
  { intros c Hc Hc0. rewrite Hdisk, upd_ne by done. symmetry. by apply (br_disk _ _ _ Hrel). }
  split; [done|].
  assert (a_ent (a_bread a4 b j) !! b = Some (Ent d false (Some j))) as He5.
  { unfold a_bread, view. rewrite Hn4. cbn. by rewrite lookup_insert_eq, upd_eq. }
  exact (bio_data_spec pid s5 _ b _ j R5 He5 eq_refl).
Qed.
End Theorems.
