(* ===== verification/Superblock.v ===== *)
(** The superblock: [struct superblock] of inc/fs.h and [readsb] of kern/fs.c. *)

From S2P Require Import Prelude BufferCache.

Record superblock := mkSb {
  sb_size : Z; sb_nblocks : Z; sb_ninodes : Z; sb_nlog : Z;
  sb_logstart : Z; sb_inodestart : Z; sb_bmapstart : Z;
}.

(** The seven little-endian words at the start of the block. *)
Definition sb_of_block (d : block) : superblock :=
  mkSb (get32 d 0) (get32 d 4) (get32 d 8) (get32 d 12)
       (get32 d 16) (get32 d 20) (get32 d 24).

Section Readsb.
Context {B : Type} `{!BufOps B}.

Definition readsb (dev : Z) : M B superblock :=
  bp ← bread dev 1;
  d ← buf_data bp;
  brelse bp ;;
  mret (sb_of_block d).
End Readsb.

Section Proofs.
Context {B : Type} `{BufferCache B}.

(** Reading a block that is not in use leaves the cache as it was. *)
Lemma a_bread_brelse a b i :
  a_ent a !! b = None →
  a_brelse (a_bread a b i) b (Ent (view a b) false (Some i)) = a.
Proof.
  intros Hb. unfold a_brelse, a_del, a_bread, a_set. cbn.
  rewrite delete_insert_id by done. by destruct a.
Qed.

(** Reading the superblock. *)
Lemma sb_block_read s a :
  bc_rel s a → a_ent a !! 1 = None → Z.of_nat (size (a_ent a)) < NBUF →
  ∃ i s1 s2, bread ROOTDEV 1 s = Ret i s1 ∧ buf_data i s1 = Ret (a_disk a 1) s1 ∧
    brelse i s1 = Ret () s2 ∧ bc_rel s2 a.
Proof.
  intros Hrel Hn Hsz.
  destruct (bread_law s a 1) as (i & s1 & Hr & Hrel1);
    [done|by vm_compute|by right|congruence|].
  assert (a_ent (a_bread a 1 i) !! 1 = Some (Ent (a_disk a 1) false (Some i))) as He.
  { unfold a_bread, a_set, view. cbn. by rewrite Hn, lookup_insert_eq. }
  destruct (brelse_law _ _ 1 _ i Hrel1 He) as (s2 & Hb & Hrel2); [done..|].
  exists i, s1, s2. split; [done|]. split; [exact (buf_data_law _ _ _ _ _ Hrel1 He eq_refl)|]. split; [done|].
  rewrite <-(a_bread_brelse a 1 i Hn). unfold view. by rewrite Hn.
Qed.
Lemma readsb_spec s a :
  bc_rel s a → a_ent a !! 1 = None → Z.of_nat (size (a_ent a)) < NBUF →
  ∃ s', readsb ROOTDEV s = Ret (sb_of_block (a_disk a 1)) s' ∧ bc_rel s' a.
Proof.
  intros Hrel Hn Hsz. destruct (sb_block_read s a Hrel Hn Hsz) as (i & s1 & s2 & H1 & H2 & H3 & Hrel2).
  exists s2. split; [|done]. unfold readsb. mstep H1. mstep H2. mstep H3. done.
Qed.
End Proofs.
