(* ===== verification/Log.v ===== *)
(** The redo log: kern/log.c, over the interface of file BufferCache. *)

From S2P Require Import Prelude BufferCache Superblock.

(** [struct log] with its [struct logheader] inlined as [lg_n], [lg_block];
    [lg_wakes] counts the calls of [wakeup(&log)]. *)
Record log := mkLog {
  lg_start : Z; lg_size : Z; lg_outstanding : Z; lg_committing : Z; lg_dev : Z;
  lg_n : Z; lg_block : list Z; lg_wakes : nat;
}.

(** The zero-initialised global. *)
Definition log0 : log := mkLog 0 0 0 0 0 0 (replicate (Z.to_nat LOGSIZE) 0) 0.

(** [hb->block[0..] = l], from byte offset [o] of the header block. *)
Fixpoint put_words (d : block) (o : nat) (l : list Z) : block :=
  match l with
  | [] => d
  | v :: l => put_words (put32 d o v) (o + 4) l
  end.
(** [lh->block[0..k-1]] as [int]s. *)
Fixpoint get_words (d : block) (o : nat) (k : nat) : list Z :=
  match k with
  | O => []
  | S k => s32 (get32 d o) :: get_words d (o + 4) k
  end.

(** The sleep channel [&log]. *)
Definition log_chan : Z := -1.

Section Log.
Context {B : Type} `{!BufOps B}.

Record lst := mkLst { ls_log : log; ls_buf : B }.

#[export, refine] Instance lst_lens : Lens lst B := {
  lget := ls_buf;
  lset b s := mkLst (ls_log s) b;
}.
Proof. all: by intros; repeat match goal with s : lst |- _ => destruct s end. Defined.

Definition get_log : M lst log := gets ls_log.
Definition put_log (lg : log) : M lst () := modify (λ s, mkLst lg (ls_buf s)).
Definition set_lh (lg : log) (n : Z) (block : list Z) : log :=
  mkLog (lg_start lg) (lg_size lg) (lg_outstanding lg) (lg_committing lg) (lg_dev lg) n block (lg_wakes lg).
Definition set_outstanding (lg : log) (o : Z) : log :=
  mkLog (lg_start lg) (lg_size lg) o (lg_committing lg) (lg_dev lg) (lg_n lg) (lg_block lg) (lg_wakes lg).
Definition set_committing (lg : log) (c : Z) : log :=
  mkLog (lg_start lg) (lg_size lg) (lg_outstanding lg) c (lg_dev lg) (lg_n lg) (lg_block lg) (lg_wakes lg).
Definition log_woken (lg : log) : log :=
  mkLog (lg_start lg) (lg_size lg) (lg_outstanding lg) (lg_committing lg) (lg_dev lg) (lg_n lg) (lg_block lg)
        (S (lg_wakes lg)).
(** [wakeup(&log)]. *)
Definition wakeup_log : M lst () := lg ← get_log; put_log (log_woken lg).

Fixpoint install_loop (n : nat) (tail : Z) : M lst () :=
  match n with
  | O => mret ()
  | S n =>
    lg ← get_log;
    lbuf ← lift (bread (lg_dev lg) (w32 (lg_start lg + tail + 1)));
    bno ← array_get (lg_block lg) tail;
    dbuf ← lift (bread (lg_dev lg) (w32 bno));
    d ← lift (buf_data lbuf);
    lift (buf_set_data dbuf d) ;;
    lift (bwrite dbuf) ;;
    lift (brelse lbuf) ;;
    lift (brelse dbuf) ;;
    install_loop n (tail + 1)
  end.

Definition install_trans : M lst () :=
  lg ← get_log; install_loop (Z.to_nat (lg_n lg)) 0.

Definition read_head : M lst () :=
  lg ← get_log;
  buf ← lift (bread (lg_dev lg) (w32 (lg_start lg)));
  d ← lift (buf_data buf);
  let n := s32 (get32 d 0) in
  if LOGSIZE <? n then undef "read_head: block[] overflows"
  else
    put_log (set_lh lg n (get_words d 4 (Z.to_nat n) ++ drop (Z.to_nat n) (lg_block lg))) ;;
    lift (brelse buf).

Definition write_head : M lst () :=
  lg ← get_log;
  buf ← lift (bread (lg_dev lg) (w32 (lg_start lg)));
  d ← lift (buf_data buf);
  if LOGSIZE <? lg_n lg then undef "write_head: block[] overflows"
  else
    lift (buf_set_data buf
      (put_words (put32 d 0 (lg_n lg)) 4 (take (Z.to_nat (lg_n lg)) (lg_block lg)))) ;;
    lift (bwrite buf) ;;
    lift (brelse buf).

Definition recover_from_log : M lst () :=
  read_head ;;
  install_trans ;;
  lg ← get_log;
  put_log (set_lh lg 0 (lg_block lg)) ;;
  write_head.

Definition initlog (dev : Z) : M lst () :=
  sb ← lift (readsb dev);
  lg ← get_log;
  put_log (mkLog (s32 (sb_logstart sb)) (s32 (sb_nlog sb)) (lg_outstanding lg)
                 (lg_committing lg) dev (lg_n lg) (lg_block lg) (lg_wakes lg)) ;;
  recover_from_log.

Definition begin_op : M lst () :=
  lg ← get_log;
  if negb (lg_committing lg =? 0) then sleep_on log_chan
  else if LOGSIZE <? lg_n lg + (lg_outstanding lg + 1) * MAXOPBLOCKS then sleep_on log_chan
  else put_log (set_outstanding lg (lg_outstanding lg + 1)).

Fixpoint write_log_loop (n : nat) (tail : Z) : M lst () :=
  match n with
  | O => mret ()
  | S n =>
    lg ← get_log;
    to ← lift (bread (lg_dev lg) (w32 (lg_start lg + tail + 1)));
    bno ← array_get (lg_block lg) tail;
    from ← lift (bread (lg_dev lg) (w32 bno));
    d ← lift (buf_data from);
    lift (buf_set_data to d) ;;
    lift (bwrite to) ;;
    lift (brelse from) ;;
    lift (brelse to) ;;
    write_log_loop n (tail + 1)
  end.

Definition write_log : M lst () :=
  lg ← get_log; write_log_loop (Z.to_nat (lg_n lg)) 0.

Definition commit : M lst () :=
  lg ← get_log;
  if 0 <? lg_n lg then
    write_log ;;
    write_head ;;
    install_trans ;;
    lg ← get_log;
    put_log (set_lh lg 0 (lg_block lg)) ;;
    write_head
  else mret ().

(** The locked part of [end_op]; the result is [do_commit]. *)
Definition end_op_locked : M lst bool :=
  lg ← get_log;
  let lg := set_outstanding lg (lg_outstanding lg - 1) in
  if negb (lg_committing lg =? 0) then panic "end_op: log.committing"
  else if lg_outstanding lg =? 0 then put_log (set_committing lg 1) ;; mret true
  else put_log lg ;; wakeup_log ;; mret false.

(** The rest of it, when [do_commit]. *)
Definition end_op_commit : M lst () :=
  commit ;;
  lg ← get_log;
  put_log (set_committing lg 0) ;;
  wakeup_log.

Definition end_op : M lst () :=
  do_commit ← end_op_locked;
  if do_commit : bool then end_op_commit else mret ().

(** The index at which [log_write]'s loop stops. *)
Fixpoint absorb (l : list Z) (bno : Z) : nat :=
  match l with
  | [] => 0
  | b :: l => if w32 b =? bno then 0 else S (absorb l bno)
  end.

Definition log_write (b : Z) : M lst () :=
  lg ← get_log;
  if (LOGSIZE <=? lg_n lg) || (lg_size lg - 1 <=? lg_n lg)
  then panic "log_write: too big a transaction"
  else
    blockno ← lift (buf_blockno b);
    let bno := w32 (blockno - MBR_BASE) in
    let i := absorb (take (Z.to_nat (lg_n lg)) (lg_block lg)) bno in
    put_log (set_lh lg (if Z.of_nat i =? lg_n lg then lg_n lg + 1 else lg_n lg)
                    (<[i := s32 bno]> (lg_block lg))) ;;
    lift (buf_set_dirty b).
End Log.
Arguments lst B : clear implicits.

(** ** The header block as an encoding of a list of block numbers *)

Lemma w32_s32 x : w32 (s32 x) = w32 x.
Proof.
  unfold w32, s32. rewrite Zminus_mod, Z.mod_mod, <-Zminus_mod by lia. f_equal. lia.
Qed.
Lemma s32_w32 x : s32 (w32 x) = s32 x.
Proof. unfold w32, s32. by rewrite Z.add_mod_idemp_l by lia. Qed.

Lemma length_put_words d o l :
  (o + 4 * length l ≤ length d)%nat → length (put_words d o l) = length d.
Proof.
  revert d o. induction l as [|v l IH]; intros d o Hle; cbn [put_words length] in *; [done|].
  rewrite IH; rewrite length_put32; lia.
Qed.

Lemma get32_put_words_before d o l o' :
  (o + 4 * length l ≤ length d)%nat → (o' + 4 ≤ o)%nat →
  get32 (put_words d o l) o' = get32 d o'.
Proof.
  revert d o. induction l as [|v l IH]; intros d o Hle Ho; cbn [put_words length] in *; [done|].
  rewrite IH by (rewrite ?length_put32; lia). by rewrite get32_put32_ne by lia.
Qed.

Lemma get_words_put_words d o l :
  (o + 4 * length l ≤ length d)%nat →
  get_words (put_words d o l) o (length l) = map s32 l.
Proof.
  revert d o. induction l as [|v l IH]; intros d o Hle; cbn [put_words get_words length map] in *; [done|].
  rewrite get32_put_words_before by (rewrite ?length_put32; lia).
  rewrite get32_put32 by lia. rewrite s32_w32. f_equal. apply IH.
  rewrite length_put32; lia.
Qed.

Lemma get_words_put32_before d o k v :
  (4 ≤ o)%nat → (4 ≤ length d)%nat → get_words (put32 d 0 v) o k = get_words d o k.
Proof.
  intros Ho Hd. revert o Ho. induction k as [|k IH]; intros o Ho; cbn [get_words]; [done|].
  rewrite get32_put32_ne by lia. by rewrite IH by lia.
Qed.

(** The header written for the blocks [bs]. *)
Definition header (old : block) (bs : list Z) : block :=
  put_words (put32 old 0 (Z.of_nat (length bs))) 4 (map s32 bs).

(** The header block [d] lists exactly [bs]. *)
Definition header_is (d : block) (bs : list Z) : Prop :=
  block_ok d ∧ get32 d 0 = Z.of_nat (length bs) ∧
  get_words d 4 (length bs) = map s32 bs ∧ Z.of_nat (length bs) ≤ LOGSIZE.

Lemma header_header_is old bs :
  block_ok old → Z.of_nat (length bs) ≤ LOGSIZE → header_is (header old bs) bs.
Proof.
  unfold block_ok, header, BSIZE, LOGSIZE, MAXOPBLOCKS. intros Hold Hle.
  assert (length (put32 old 0 (Z.of_nat (length bs))) = 512%nat) as Hl
    by (rewrite length_put32; lia).
  repeat split.
  - unfold block_ok, BSIZE. rewrite length_put_words; rewrite ?length_map; lia.
  - rewrite get32_put_words_before by (rewrite ?length_map; lia).
    rewrite get32_put32 by lia. apply w32_small. lia.
  - rewrite <-(length_map s32 bs) at 2. rewrite get_words_put_words.
    + rewrite map_map. apply map_ext. intros x. rewrite <-(s32_w32 (s32 x)), w32_s32. apply s32_w32.
    + rewrite length_map. lia.
  - done.
Qed.

(** ** Sequences of sector writes *)

Definition apply_writes (d : Z → block) (W : list (Z * block)) : Z → block :=
  fold_left (λ d w, upd d w.1 w.2) W d.

Lemma apply_writes_app d W1 W2 :
  apply_writes d (W1 ++ W2) = apply_writes (apply_writes d W1) W2.
Proof. apply fold_left_app. Qed.

Lemma apply_writes_ne d W b :
  b ∉ W.*1 → apply_writes d W b = d b.
Proof.
  revert d. induction W as [|[c v] W IH]; intros d Hb; cbn in *; [done|].
  rewrite not_elem_of_cons in Hb. destruct Hb. unfold apply_writes in *. cbn.
  rewrite IH by done. by rewrite upd_ne.
Qed.

Lemma apply_writes_in d W b v :
  NoDup W.*1 → (b, v) ∈ W → apply_writes d W b = v.
Proof.
  revert d. induction W as [|[c w] W IH]; intros d Hnd Hin; [set_solver|].
  cbn in Hnd. apply NoDup_cons in Hnd as [Hc Hnd]. unfold apply_writes. cbn.
  apply elem_of_cons in Hin as [[= -> ->]|Hin].
  - change (fold_left _ W ?d) with (apply_writes d W).
    rewrite apply_writes_ne by done. apply upd_eq.
  - by apply IH.
Qed.

(** The abstract state after the writes [W], with entries [m]. *)
Definition wrote (a : abs) (W : list (Z * block)) (m : gmap Z ent) : abs :=
  Abs (apply_writes (a_disk a) W) (a_writes a ++ W) m.

Lemma wrote_nil a : wrote a [] (a_ent a) = a.
Proof. unfold wrote. rewrite app_nil_r. by destruct a. Qed.

Lemma wrote_wrote a W1 m1 W2 m2 :
  wrote (wrote a W1 m1) W2 m2 = wrote a (W1 ++ W2) m2.
Proof. unfold wrote. cbn. by rewrite apply_writes_app, app_assoc. Qed.

Section Copy.
Context {B : Type} `{BufferCache B}.
Implicit Types (s : lst B) (a : abs).
Abbreviation rel s a := (bc_rel (ls_buf s) a).

Lemma lift_buf {A} (m : M B A) s x b :
  m (ls_buf s) = Ret x b → lift m s = Ret x (mkLst (ls_log s) b).
Proof. intros Hm. unfold lift. cbn. by rewrite Hm. Qed.

(** The common part of [write_log] and [install_trans]: copy a held block
    to another held block, write that, release both. *)
Definition copy_tail (i j : Z) (k : M (lst B) ()) : M (lst B) () :=
  d ← lift (buf_data i);
  lift (buf_set_data j d) ;;
  lift (bwrite j) ;;
  lift (brelse i) ;;
  lift (brelse j) ;; k.

Lemma copy_tail_spec s a src dst e1 e2 i j k :
  rel s a → src ≠ dst →
  a_ent a !! src = Some e1 → e_held e1 = Some i →
  a_ent a !! dst = Some e2 → e_held e2 = Some j →
  block_ok (e_data e1) →
  (e_dirty e1 = false → e_data e1 = a_disk a src) →
  ∃ s', copy_tail i j k s = k s' ∧ ls_log s' = ls_log s ∧
    rel s' (wrote a [(dst, e_data e1)]
      (delete dst (if e_dirty e1 then <[src := Ent (e_data e1) true None]> (a_ent a)
                   else delete src (a_ent a)))).
Proof.
  intros Hrel Hne H1 Hi H2 Hj Hok Hcl. unfold copy_tail.
  pose proof (buf_data_law _ _ _ _ _ Hrel H1 Hi) as Hd.
  mstep (lift_buf _ _ _ _ Hd). clear Hd.
  destruct (buf_set_data_law _ _ _ _ _ (e_data e1) Hrel H2 Hj Hok) as (b1 & Hs & Hrel1).
  mstep (lift_buf _ (mkLst (ls_log s) (ls_buf s)) _ _ Hs). clear Hs Hrel. rewrite Hj in Hrel1.
  assert (∀ e, a_ent (a_set a dst e) !! dst = Some e) as Hset by (intros; apply lookup_insert_eq).
  destruct (bwrite_law _ _ _ _ j Hrel1 (Hset _) eq_refl) as (b2 & Hs & Hrel2).
  mstep (lift_buf _ (mkLst (ls_log s) b1) _ _ Hs). clear Hs Hrel1 Hset.
  set (a2 := a_bwrite _ _ _) in Hrel2. cbn in a2.
  assert (a_ent a2 !! src = Some e1) as H1'.
  { unfold a2. cbn. by rewrite !lookup_insert_ne. }
  destruct (brelse_law _ _ _ _ i Hrel2 H1' Hi) as (b3 & Hs & Hrel3).
  { intros Hdi. unfold a2. cbn. rewrite upd_ne by done. auto. }
  mstep (lift_buf _ (mkLst (ls_log s) b2) _ _ Hs). clear Hs Hrel2.
  assert (a_ent (a_brelse a2 src e1) !! dst = Some (Ent (e_data e1) false (Some j))) as H2'.
  { unfold a_brelse, a_set, a_del, a2. destruct (e_dirty e1); cbn;
      rewrite ?lookup_insert_ne, ?lookup_delete_ne by done; by rewrite lookup_insert_eq. }
  destruct (brelse_law _ _ _ _ j Hrel3 H2' eq_refl) as (b4 & Hs & Hrel4).
  { intros _. unfold a_brelse, a_set, a_del, a2. destruct (e_dirty e1); cbn; by rewrite upd_eq. }
  mstep (lift_buf _ (mkLst (ls_log s) b3) _ _ Hs). clear Hs Hrel3.
  exists (mkLst (ls_log s) b4). split; [done|]. split; [done|]. cbn.
  refine (eq_ind _ (bc_rel b4) Hrel4 _ _). clear.
  unfold a_brelse at 1. cbn [e_dirty]. unfold a_del, wrote. cbn.
  unfold a_brelse, a_set, a_del, a2. destruct (e_dirty e1); cbn; f_equal.
  - apply map_eq. intros x. rewrite !lookup_delete. case_decide; [done|].
    rewrite !lookup_insert. repeat case_decide; done.
  - apply map_eq. intros x. rewrite !lookup_delete. repeat case_decide; try done.
    rewrite !lookup_insert. repeat case_decide; done.
Qed.
End Copy.

(** ** The loops *)

(** Writes of [ds] to consecutive blocks from [p]. *)
Fixpoint log_writes (p : Z) (ds : list block) : list (Z * block) :=
  match ds with
  | [] => []
  | d :: ds => (p, d) :: log_writes (p + 1) ds
  end.

(** Writes of the consecutive blocks of [d] from [p] to the blocks [bs]. *)
Fixpoint home_writes (d : Z → block) (p : Z) (bs : list Z) : list (Z * block) :=
  match bs with
  | [] => []
  | b :: bs => (b, d p) :: home_writes d (p + 1) bs
  end.

(** The in-memory log describes the blocks [bs]. *)
Record log_ok (lg : log) (bs : list Z) : Prop := {
  lo_dev : lg_dev lg = ROOTDEV;
  lo_n : lg_n lg = Z.of_nat (length bs);
  lo_blocks : take (length bs) (lg_block lg) = map s32 bs;
  lo_len : length (lg_block lg) = Z.to_nat LOGSIZE;
  lo_start : 0 ≤ lg_start lg;
  lo_end : lg_start lg + lg_size lg < 2 ^ 31;
  lo_cap : Z.of_nat (length bs) < lg_size lg;
}.

Definition in_log (lg : log) (b : Z) : Prop := lg_start lg ≤ b < lg_start lg + lg_size lg.
(** A block outside the log. *)
Definition home (lg : log) (b : Z) : Prop := blk_ok b ∧ ¬ in_log lg b.

(** No process holds, and nothing pins, a block of the log. *)
Definition log_free (lg : log) (a : abs) : Prop :=
  ∀ b, in_log lg b → a_ent a !! b = None.

Lemma in_log_blk_ok lg bs b : log_ok lg bs → in_log lg b → blk_ok b.
Proof. intros [] ?. unfold blk_ok, in_log, MBR_BASE in *. lia. Qed.

Lemma log_ok_le lg bs : log_ok lg bs → Z.of_nat (length bs) ≤ LOGSIZE.
Proof.
  intros []. apply (f_equal length) in lo_blocks0.
  rewrite length_map, length_take in lo_blocks0.
  unfold LOGSIZE, MAXOPBLOCKS in *. lia.
Qed.

Lemma log_block_get {S} lg bs t b (s : S) :
  log_ok lg bs → bs !! t = Some b →
  array_get (lg_block lg) (Z.of_nat t) s = Ret (s32 b) s.
Proof.
  intros Hok Hb. apply array_get_some; [lia|]. rewrite Nat2Z.id.
  pose proof (lookup_lt_Some _ _ _ Hb).
  rewrite <-(lookup_take_lt _ (length bs)) by done.
  rewrite (lo_blocks _ _ Hok). by rewrite list_lookup_fmap, Hb.
Qed.

Section Loops.
Context {B : Type} `{BufferCache B}.
Implicit Types (s : lst B) (a : abs).
Abbreviation rel s a := (bc_rel (ls_buf s) a).

(** [bread] of a block without an entry. *)
Lemma bread_fresh (s : lst B) a b :
  rel s a → blk_ok b → a_ent a !! b = None → Z.of_nat (size (a_ent a)) < NBUF →
  ∃ i s', lift (bread ROOTDEV b) s = Ret i s' ∧ ls_log s' = ls_log s ∧
    rel s' (a_set a b (Ent (a_disk a b) false (Some i))).
Proof.
  intros Hrel Hb Hn Hsz.
  destruct (bread_law (ls_buf s) a b) as (i & b' & Hr & Hrel'); [done|done|by right|congruence|].
  exists i, (mkLst (ls_log s) b'). split; [by apply lift_buf|]. split; [done|]. cbn.
  unfold a_bread, view in Hrel'. by rewrite Hn in Hrel'.
Qed.

(** [bread] of a pinned block. *)
Lemma bread_pinned (s : lst B) a b e :
  rel s a → blk_ok b → a_ent a !! b = Some e → e_held e = None →
  ∃ i s', lift (bread ROOTDEV b) s = Ret i s' ∧ ls_log s' = ls_log s ∧
    rel s' (a_set a b (Ent (e_data e) (e_dirty e) (Some i))).
Proof.
  intros Hrel Hb He Hh.
  destruct (bread_law (ls_buf s) a b) as (i & b' & Hr & Hrel');
    [done|done|by left; eexists|congruence|].
  exists i, (mkLst (ls_log s) b'). split; [by apply lift_buf|]. split; [done|]. cbn.
  unfold a_bread, view in Hrel'. by rewrite He in Hrel'.
Qed.

Lemma write_log_step s a bs t b d k :
  log_ok (ls_log s) bs → bs !! t = Some b → home (ls_log s) b → rel s a →
  log_free (ls_log s) a → Z.of_nat (size (a_ent a)) < NBUF →
  a_ent a !! b = Some (Ent d true None) →
  let p := lg_start (ls_log s) + Z.of_nat t + 1 in
  ∃ s', (lg ← get_log;
         to ← lift (bread (lg_dev lg) (w32 (lg_start lg + Z.of_nat t + 1)));
         bno ← array_get (lg_block lg) (Z.of_nat t);
         from ← lift (bread (lg_dev lg) (w32 bno));
         copy_tail from to k) s = k s' ∧ ls_log s' = ls_log s ∧
    rel s' (wrote a [(p, d)] (a_ent a)).
Proof.
  intros Hok Hb [Hbo Hnl] Hrel Hfree Hsz He p.
  pose proof (lookup_lt_Some _ _ _ Hb) as Hlt.
  assert (in_log (ls_log s) p) as Hp by (destruct Hok; unfold in_log, p; lia).
  pose proof (Hfree p Hp) as Hpn.
  destruct (bread_fresh s a p) as (i & s1 & Hr1 & Hl1 & Hrel1);
    [done|by eapply in_log_blk_ok|done|done|].
  assert (b ≠ p) as Hne by (intros ->; tauto).
  assert (a_ent (a_set a p (Ent (a_disk a p) false (Some i))) !! b = Some (Ent d true None)) as He1.
  { cbn. by rewrite lookup_insert_ne. }
  destruct (bread_pinned s1 _ b _ Hrel1 Hbo He1 eq_refl) as (j & s2 & Hr2 & Hl2 & Hrel2).
  destruct (copy_tail_spec s2 _ b p (Ent d true (Some j)) (Ent (a_disk a p) false (Some i)) j i k Hrel2)
    as (s3 & Hc & Hl3 & Hrel3); [done|..|done|].
  { cbn. by rewrite lookup_insert_eq. }
  { done. }
  { cbn. rewrite lookup_insert_ne by done. apply lookup_insert_eq. }
  { done. }
  { pose proof (bc_view_ok _ _ b Hrel (proj1 Hbo)) as Hv. unfold view in Hv.
    by rewrite He in Hv. }
  exists s3. split; [|split; [congruence|]].
  - mstep (eq_refl (get_log s)). rewrite (lo_dev _ _ Hok).
    rewrite w32_small by (destruct Hok; unfold in_log, p in *; lia). mstep Hr1.
    rewrite <-Hl1. rewrite <-Hl1 in Hok. mstep (log_block_get _ _ _ _ s1 Hok Hb).
    rewrite w32_s32, w32_small by (unfold blk_ok, MBR_BASE in Hbo; lia).
    mstep Hr2. exact Hc.
  - refine (eq_ind _ (bc_rel (ls_buf s3)) Hrel3 _ _). unfold wrote. cbn. f_equal.
    apply map_eq. intros x. rewrite lookup_delete. case_decide as Hx.
    { by rewrite <-Hx, Hpn. }
    rewrite lookup_insert. case_decide as Hxb; [by rewrite <-Hxb|].
    by rewrite !lookup_insert_ne.
Qed.

Lemma write_log_loop_spec rest : ∀ pre bs s a,
  bs = pre ++ rest → log_ok (ls_log s) bs → Forall (home (ls_log s)) rest → rel s a →
  log_free (ls_log s) a → Z.of_nat (size (a_ent a)) < NBUF →
  (∀ b, b ∈ rest → ∃ d, a_ent a !! b = Some (Ent d true None)) →
  ∃ s', write_log_loop (length rest) (Z.of_nat (length pre)) s = Ret () s' ∧
    ls_log s' = ls_log s ∧
    rel s' (wrote a (log_writes (lg_start (ls_log s) + Z.of_nat (length pre) + 1)
                                (map (view a) rest)) (a_ent a)).
Proof.
  induction rest as [|b rest IH]; intros pre bs s a Hbs Hok Hhome Hrel Hfree Hsz Hpin.
  { exists s. split; [done|]. split; [done|]. cbn. by rewrite wrote_nil. }
  apply Forall_cons in Hhome as [Hb Hhome].
  destruct (Hpin b) as [d Hd]; [set_solver|].
  assert (bs !! length pre = Some b) as Hlk.
  { by rewrite Hbs, lookup_app_r, Nat.sub_diag by lia. }
  destruct (write_log_step s a bs (length pre) b d
    (write_log_loop (length rest) (Z.of_nat (length pre) + 1))) as (s1 & Hs1 & Hl1 & Hrel1);
    [done..|].
  edestruct (IH (pre ++ [b]) bs s1) as (s2 & Hs2 & Hl2 & Hrel2);
    [by rewrite <-app_assoc|by rewrite Hl1|by rewrite Hl1|exact Hrel1|by rewrite Hl1|
     done|intros; apply Hpin; set_solver|].
  exists s2. split; [|split; [congruence|]].
  - cbn [write_log_loop length]. etransitivity; [exact Hs1|]. rewrite <-Hs2. f_equal.
    rewrite length_app. cbn. lia.
  - refine (eq_ind _ (bc_rel (ls_buf s2)) Hrel2 _ _). rewrite wrote_wrote, Hl1.
    f_equal. cbn [map log_writes app]. unfold view at 2. rewrite Hd. cbn. f_equal.
    rewrite length_app. cbn.
    replace (lg_start (ls_log s) + Z.of_nat (length pre + 1) + 1)
      with (lg_start (ls_log s) + Z.of_nat (length pre) + 1 + 1) by lia.
    f_equal. apply map_ext_in. intros x Hx%list_elem_of_In.
    destruct (Hpin x) as [dx Hdx]; [set_solver|]. unfold view. cbn. by rewrite Hdx.
Qed.

Lemma install_step s a bs t b k :
  log_ok (ls_log s) bs → bs !! t = Some b → home (ls_log s) b → rel s a →
  log_free (ls_log s) a → Z.of_nat (size (a_ent a)) < NBUF →
  (∀ e, a_ent a !! b = Some e → e_held e = None) →
  (is_Some (a_ent a !! b) ∨ Z.of_nat (size (a_ent a)) + 1 < NBUF) →
  let p := lg_start (ls_log s) + Z.of_nat t + 1 in
  ∃ s', (lg ← get_log;
         lbuf ← lift (bread (lg_dev lg) (w32 (lg_start lg + Z.of_nat t + 1)));
         bno ← array_get (lg_block lg) (Z.of_nat t);
         dbuf ← lift (bread (lg_dev lg) (w32 bno));
         copy_tail lbuf dbuf k) s = k s' ∧ ls_log s' = ls_log s ∧
    rel s' (wrote a [(b, a_disk a p)] (delete b (a_ent a))).
Proof.
  intros Hok Hb [Hbo Hnl] Hrel Hfree Hsz Hnh Hroom p.
  pose proof (lookup_lt_Some _ _ _ Hb) as Hlt.
  assert (in_log (ls_log s) p) as Hp by (destruct Hok; unfold in_log, p; lia).
  pose proof (Hfree p Hp) as Hpn.
  destruct (bread_fresh s a p) as (i & s1 & Hr1 & Hl1 & Hrel1);
    [done|by eapply in_log_blk_ok|done|done|].
  assert (b ≠ p) as Hne by (intros ->; tauto).
  assert (∃ j s2 e2, lift (bread ROOTDEV b) s1 = Ret j s2 ∧ ls_log s2 = ls_log s1 ∧
    e_held e2 = Some j ∧
    rel s2 (a_set (a_set a p (Ent (a_disk a p) false (Some i))) b e2))
    as (j & s2 & e2 & Hr2 & Hl2 & Hj & Hrel2).
  { destruct (a_ent a !! b) as [e|] eqn:He.
    - assert (a_ent (a_set a p (Ent (a_disk a p) false (Some i))) !! b = Some e) as He1.
      { cbn. by rewrite lookup_insert_ne. }
      destruct (bread_pinned s1 _ b e Hrel1 Hbo He1 (Hnh e eq_refl)) as (j & s2 & ? & ? & ?).
      by exists j, s2, (Ent (e_data e) (e_dirty e) (Some j)).
    - destruct Hroom as [[e ?]|Hroom]; [done|].
      destruct (bread_fresh s1 _ b Hrel1 Hbo) as (j & s2 & ? & ? & ?).
      + cbn. by rewrite lookup_insert_ne.
      + cbn. rewrite map_size_insert_None by done. lia.
      + by eexists j, s2, (Ent _ false (Some j)). }
  destruct (copy_tail_spec s2 _ p b (Ent (a_disk a p) false (Some i)) e2 i j k Hrel2)
    as (s3 & Hc & Hl3 & Hrel3); [done|..|done|].
  { cbn. rewrite lookup_insert_ne by done. apply lookup_insert_eq. }
  { done. }
  { cbn. apply lookup_insert_eq. }
  { done. }
  { eapply bc_disk_ok; [done|]. destruct Hok; unfold p; lia. }
  exists s3. split; [|split; [congruence|]].
  - mstep (eq_refl (get_log s)). rewrite (lo_dev _ _ Hok).
    rewrite w32_small by (destruct Hok; unfold in_log, p in *; lia). mstep Hr1.
    rewrite <-Hl1. rewrite <-Hl1 in Hok. mstep (log_block_get _ _ _ _ s1 Hok Hb).
    rewrite w32_s32, w32_small by (unfold blk_ok, MBR_BASE in Hbo; lia).
    mstep Hr2. exact Hc.
  - refine (eq_ind _ (bc_rel (ls_buf s3)) Hrel3 _ _). unfold wrote. cbn. f_equal.
    apply map_eq. intros x. rewrite !lookup_delete. case_decide as Hx; [done|].
    case_decide as Hxp; [by rewrite <-Hxp, Hpn|]. by rewrite !lookup_insert_ne.
Qed.

Lemma home_writes_ext d d' p bs :
  (∀ q, p ≤ q < p + Z.of_nat (length bs) → d q = d' q) →
  home_writes d p bs = home_writes d' p bs.
Proof.
  revert p. induction bs as [|b bs IH]; intros p Hd; cbn in *; [done|].
  rewrite Hd by lia. f_equal. apply IH. intros. apply Hd. lia.
Qed.

Lemma install_loop_spec rest : ∀ pre bs s a,
  bs = pre ++ rest → NoDup bs → log_ok (ls_log s) bs → Forall (home (ls_log s)) rest →
  rel s a → log_free (ls_log s) a → Z.of_nat (size (a_ent a)) < NBUF →
  (∀ b e, b ∈ rest → a_ent a !! b = Some e → e_held e = None) →
  ((∀ b, b ∈ rest → is_Some (a_ent a !! b)) ∨ Z.of_nat (size (a_ent a)) + 1 < NBUF) →
  ∃ s', install_loop (length rest) (Z.of_nat (length pre)) s = Ret () s' ∧
    ls_log s' = ls_log s ∧
    rel s' (wrote a (home_writes (a_disk a)
                       (lg_start (ls_log s) + Z.of_nat (length pre) + 1) rest)
                    (foldr delete (a_ent a) rest)).
Proof.
  induction rest as [|b rest IH]; intros pre bs s a Hbs Hnd Hok Hhome Hrel Hfree Hsz Hnh Hroom.
  { exists s. split; [done|]. split; [done|]. cbn. by rewrite wrote_nil. }
  apply Forall_cons in Hhome as [Hb Hhome].
  assert (bs !! length pre = Some b) as Hlk.
  { by rewrite Hbs, lookup_app_r, Nat.sub_diag by lia. }
  assert (b ∉ rest) as Hbr.
  { rewrite Hbs in Hnd. apply NoDup_app in Hnd as (_ & _ & Hnd).
    by apply NoDup_cons in Hnd as [? _]. }
  destruct (install_step s a bs (length pre) b
    (install_loop (length rest) (Z.of_nat (length pre) + 1))) as (s1 & Hs1 & Hl1 & Hrel1);
    [done..|by intros e' He'; apply (Hnh b e'); [set_solver|]| |].
  { destruct Hroom as [Hroom|?]; [left; apply Hroom; set_solver|by right]. }
  assert (size (delete b (a_ent a)) ≤ size (a_ent a))%nat as Hle.
  { apply map_subseteq_size, delete_subseteq. }
  edestruct (IH (pre ++ [b]) bs s1) as (s2 & Hs2 & Hl2 & Hrel2);
    [by rewrite <-app_assoc|done|by rewrite Hl1|by rewrite Hl1|exact Hrel1|
     rewrite Hl1; intros x Hx; cbn; rewrite lookup_delete; case_decide; [done|by apply Hfree]|
     cbn; lia| | |].
  { intros x e Hx. cbn. rewrite lookup_delete. case_decide; [done|]. apply Hnh. set_solver. }
  { destruct Hroom as [Hroom|?]; [left|right; cbn; lia]. intros x Hx. cbn.
    rewrite lookup_delete_ne by (intros ->; done). apply Hroom. set_solver. }
  exists s2. split; [|split; [congruence|]].
  - cbn [install_loop length]. etransitivity; [exact Hs1|]. rewrite <-Hs2. f_equal.
    rewrite length_app. cbn. lia.
  - refine (eq_ind _ (bc_rel (ls_buf s2)) Hrel2 _ _). rewrite wrote_wrote, Hl1.
    f_equal.
    + cbn [home_writes app]. rewrite length_app. cbn.
      replace (lg_start (ls_log s) + Z.of_nat (length pre + 1) + 1)
        with (lg_start (ls_log s) + Z.of_nat (length pre) + 1 + 1) by lia.
      f_equal. apply home_writes_ext. intros q Hq. apply upd_ne.
      intros ->. destruct Hb as [_ Hb]. apply Hb. pose proof (f_equal length Hbs) as Hlen.
      rewrite length_app in Hlen. cbn in Hlen. destruct Hok. unfold in_log. lia.
    + cbn. clear. induction rest as [|x rest IH]; cbn; [done|]. rewrite IH.
      by rewrite delete_delete.
Qed.

(** [write_head] with the in-memory log describing [bs]. *)
Lemma write_head_spec s a bs :
  log_ok (ls_log s) bs → rel s a → log_free (ls_log s) a →
  Z.of_nat (size (a_ent a)) < NBUF →
  let p := lg_start (ls_log s) in
  ∃ s', write_head s = Ret () s' ∧ ls_log s' = ls_log s ∧
    rel s' (wrote a [(p, header (a_disk a p) bs)] (a_ent a)).
Proof.
  intros Hok Hrel Hfree Hsz p.
  assert (in_log (ls_log s) p) as Hp by (destruct Hok; unfold in_log, p; lia).
  pose proof (Hfree p Hp) as Hpn.
  destruct (bread_fresh s a p) as (i & s1 & Hr1 & Hl1 & Hrel1);
    [done|by eapply in_log_blk_ok|done|done|].
  destruct s1 as [lg b1]. cbn in Hl1, Hrel1. subst lg.
  assert (∀ e, a_ent (a_set a p e) !! p = Some e) as Hset by (intros; apply lookup_insert_eq).
  pose proof (buf_data_law _ _ _ _ _ Hrel1 (Hset _) eq_refl) as Hd.
  assert (block_ok (a_disk a p)) as Hbok.
  { eapply bc_disk_ok; [done|]. destruct Hok; unfold p; lia. }
  pose proof (header_header_is (a_disk a p) bs Hbok (log_ok_le _ _ Hok)) as Hhd.
  destruct (buf_set_data_law _ _ p _ i (header (a_disk a p) bs) Hrel1 (Hset _) eq_refl)
    as (b2 & Hs2 & Hrel2); [apply Hhd|].
  assert (∀ e e', a_ent (a_set (a_set a p e) p e') !! p = Some e') as Hset'
    by (intros; apply lookup_insert_eq).
  destruct (bwrite_law _ _ p _ i Hrel2 (Hset' _ _) eq_refl) as (b3 & Hs3 & Hrel3).
  cbn [e_data e_dirty e_held] in *.
  match type of Hrel3 with bc_rel _ ?x => set (a3 := x) in * end.
  assert (a_ent a3 !! p = Some (Ent (header (a_disk a p) bs) false (Some i))) as H3
    by apply lookup_insert_eq.
  destruct (brelse_law _ _ p _ i Hrel3 H3 eq_refl) as (b4 & Hs4 & Hrel4).
  { intros _. unfold a3. cbn. by rewrite upd_eq. }
  exists (mkLst (ls_log s) b4). split; [|split; [done|]].
  - unfold write_head. mstep (eq_refl (get_log s)). rewrite (lo_dev _ _ Hok).
    rewrite w32_small by (destruct Hok; lia). mstep Hr1.
    mstep (lift_buf _ (mkLst (ls_log s) b1) _ _ Hd).
    pose proof (log_ok_le _ _ Hok) as Hle. rewrite (lo_n _ _ Hok).
    destruct (Z.ltb_spec LOGSIZE (Z.of_nat (length bs))); [lia|].
    rewrite Nat2Z.id, (lo_blocks _ _ Hok). fold (header (a_disk a p) bs).
    mstep (lift_buf _ (mkLst (ls_log s) b1) _ _ Hs2).
    mstep (lift_buf _ (mkLst (ls_log s) b2) _ _ Hs3).
    exact (lift_buf _ (mkLst (ls_log s) b3) _ _ Hs4).
  - refine (eq_ind _ (bc_rel b4) Hrel4 _ _). unfold wrote, a_brelse, a_del, a3. cbn.
    f_equal. apply map_eq. intros x. rewrite lookup_delete. case_decide as Hx.
    { by rewrite <-Hx, Hpn. }
    by rewrite !lookup_insert_ne.
Qed.
End Loops.

(** ** Commit *)

Lemma log_writes_fst p ds : (log_writes p ds).*1 = seqZ p (Z.of_nat (length ds)).
Proof.
  revert p. induction ds as [|d ds IH]; intros p; cbn; [done|].
  rewrite seqZ_cons by lia. f_equal. rewrite IH. f_equal; lia.
Qed.

Lemma log_writes_lookup p ds k d :
  ds !! k = Some d → (p + Z.of_nat k, d) ∈ log_writes p ds.
Proof.
  revert p k. induction ds as [|d' ds IH]; intros p k Hk; [done|].
  destruct k as [|k]; cbn in *.
  - rewrite Z.add_0_r. injection Hk as ->. apply list_elem_of_here.
  - apply list_elem_of_further. replace (p + Z.of_nat (S k)) with (p + 1 + Z.of_nat k) by lia.
    by apply IH.
Qed.

(** After the log writes, the log blocks hold the data. *)
Lemma apply_log_writes d p ds k v :
  ds !! k = Some v → apply_writes d (log_writes p ds) (p + Z.of_nat k) = v.
Proof.
  intros Hk. apply apply_writes_in; [|by apply log_writes_lookup].
  rewrite log_writes_fst. apply NoDup_seqZ.
Qed.

Lemma home_writes_zip d p bs ds :
  length bs = length ds →
  (∀ k v, ds !! k = Some v → d (p + Z.of_nat k) = v) →
  home_writes d p bs = zip bs ds.
Proof.
  revert p ds. induction bs as [|b bs IH]; intros p [|v ds] Hl Hd; cbn in *; try done.
  f_equal.
  - f_equal. rewrite <-(Hd 0%nat v); [|done]. f_equal. lia.
  - apply IH; [lia|]. intros k w Hk. rewrite <-(Hd (S k) w); [|done]. f_equal. lia.
Qed.

Lemma zip_fst {A C} (l : list A) (k : list C) : length l = length k → (zip l k).*1 = l.
Proof. intros. apply fst_zip. lia. Qed.

(** The sector writes of a commit of the blocks [bs] with contents [ds], when
    [old] is the header block: log blocks, header, home blocks, header. *)
Definition commit_writes (p : Z) (old : block) (bs : list Z) (ds : list block) :
    list (Z * block) :=
  log_writes (p + 1) ds ++ [(p, header old bs)] ++
  zip bs ds ++ [(p, header (header old bs) [])].

Lemma home_not_log lg bs q :
  Forall (home lg) bs → in_log lg q → q ∉ bs.
Proof.
  intros Hh Hq Hin. rewrite Forall_forall in Hh. by destruct (Hh q Hin).
Qed.

Section Commit.
Context {B : Type} `{BufferCache B}.
Implicit Types (s : lst B) (a : abs).
Abbreviation rel s a := (bc_rel (ls_buf s) a).

(** What [commit] needs of the cache: every block of the log is pinned, no
    other block is in use in the log, and one buffer can be recycled. *)
Record commit_pre (s : lst B) (a : abs) (bs : list Z) : Prop := {
  cp_log : log_ok (ls_log s) bs;
  cp_nodup : NoDup bs;
  cp_home : Forall (home (ls_log s)) bs;
  cp_rel : rel s a;
  cp_free : log_free (ls_log s) a;
  cp_size : Z.of_nat (size (a_ent a)) < NBUF;
  cp_pin : ∀ b, b ∈ bs → ∃ d, a_ent a !! b = Some (Ent d true None);
}.

Lemma set_lh_nil lg bs : log_ok lg bs → log_ok (set_lh lg 0 (lg_block lg)) [].
Proof. intros []. split; cbn; try done. lia. Qed.

Lemma foldr_delete_lookup (m : gmap Z ent) bs x :
  foldr delete m bs !! x = if decide (x ∈ bs) then None else m !! x.
Proof.
  induction bs as [|b bs IH]; cbn [foldr].
  - case_decide as Hc; [set_solver|done].
  - rewrite lookup_delete, IH. repeat case_decide; try done; set_solver.
Qed.

Lemma foldr_delete_size (m : gmap Z ent) bs :
  (size (foldr delete m bs) ≤ size m)%nat.
Proof.
  induction bs as [|b bs IH]; cbn [foldr]; [done|].
  etransitivity; [|exact IH]. apply map_subseteq_size, delete_subseteq.
Qed.

Lemma commit_spec s a bs :
  commit_pre s a bs → bs ≠ [] →
  let lg := ls_log s in
  ∃ s', commit s = Ret () s' ∧ ls_log s' = set_lh lg 0 (lg_block lg) ∧
    rel s' (wrote a (commit_writes (lg_start lg) (a_disk a (lg_start lg)) bs (map (view a) bs))
                    (foldr delete (a_ent a) bs)).
Proof.
  intros [Hok Hnd Hhome Hrel Hfree Hsz Hpin] Hne lg.
  set (p := lg_start lg). set (ds := map (view a) bs).
  assert (length bs = length ds) as Hlen by (unfold ds; by rewrite length_map).
  assert (in_log lg p) as Hp by (destruct Hok; unfold in_log, p, lg; lia).
  destruct (write_log_loop_spec bs [] bs s a eq_refl Hok Hhome Hrel Hfree Hsz Hpin)
    as (s1 & Hs1 & Hl1 & Hrel1).
  cbn [length] in Hrel1. rewrite Z.add_0_r in Hrel1. fold lg p ds in Hrel1, Hl1.
  set (a1 := wrote _ _ _) in Hrel1.
  assert (a_disk a1 p = a_disk a p) as Hp1.
  { apply apply_writes_ne. rewrite log_writes_fst, elem_of_seqZ. lia. }
  destruct (write_head_spec s1 a1 bs) as (s2 & Hs2 & Hl2 & Hrel2);
    [by rewrite Hl1|done|by rewrite Hl1|done|]. rewrite Hl1 in Hrel2. fold p in Hrel2.
  rewrite Hp1 in Hrel2. set (a2 := wrote _ _ _) in Hrel2.
  assert (∀ k v, ds !! k = Some v → a_disk a2 (p + 1 + Z.of_nat k) = v) as Hlog.
  { intros k v Hk. unfold a2, wrote, apply_writes. cbn. rewrite upd_ne by lia.
    by apply apply_log_writes. }
  edestruct (install_loop_spec bs [] bs s2 a2) as (s3 & Hs3 & Hl3 & Hrel3);
    [done|done|by rewrite Hl2, Hl1|by rewrite Hl2, Hl1|done|by rewrite Hl2, Hl1|done| | |].
  { intros b e Hb He. change (a_ent a !! b = Some e) in He.
    destruct (Hpin b Hb) as [d Hd]. rewrite Hd in He. by injection He as <-. }
  { left. intros b Hb. destruct (Hpin b Hb) as [d Hd]. by exists (Ent d true None). }
  rewrite Hl2, Hl1 in Hl3, Hrel3. cbn [length] in Hrel3. rewrite Z.add_0_r in Hrel3.
  fold p in Hrel3. rewrite (home_writes_zip _ _ _ ds Hlen Hlog) in Hrel3.
  set (a3 := wrote _ _ _) in Hrel3.
  assert (a_disk a3 p = header (a_disk a p) bs) as Hp3.
  { unfold a3, wrote. cbn [a_disk]. rewrite apply_writes_ne.
    - apply upd_eq.
    - rewrite zip_fst by done. by eapply home_not_log. }
  destruct (write_head_spec (mkLst (set_lh lg 0 (lg_block lg)) (ls_buf s3)) a3 [])
    as (s4 & Hs4 & Hl4 & Hrel4); [by eapply set_lh_nil|done| | |].
  { intros b Hb. cbn. rewrite foldr_delete_lookup. case_decide; [done|]. by apply Hfree. }
  { pose proof (foldr_delete_size (a_ent a2) bs) as Hs. cbn in *. lia. }
  exists s4. split; [|split; [done|]].
  - unfold commit. mstep (eq_refl (get_log s)). rewrite (lo_n _ _ Hok).
    destruct (Z.ltb_spec 0 (Z.of_nat (length bs))) as [_|Hz]; [|destruct bs; cbn in Hz; [done|lia]].
    unfold write_log. erewrite mbind_ret; last first.
    { mstep (eq_refl (get_log s)). rewrite (lo_n _ _ Hok), Nat2Z.id. exact Hs1. }
    mstep Hs2. unfold install_trans. erewrite mbind_ret; last first.
    { mstep (eq_refl (get_log s2)). rewrite Hl2, Hl1. unfold lg. rewrite (lo_n _ _ Hok), Nat2Z.id.
      exact Hs3. }
    mstep (eq_refl (get_log s3)). rewrite Hl3. exact Hs4.
  - refine (eq_ind _ (bc_rel (ls_buf s4)) Hrel4 _ _). cbn [ls_log lg_start set_lh].
    fold p. rewrite Hp3. unfold a3, a2, a1. by rewrite !wrote_wrote.
Qed.
End Commit.
