(* ===== verification/LogCrash.v ===== *)
(** Crash safety of the log (kern/log.c): a commit is atomic.

    A crash loses the memory and keeps the disk after some prefix of the
    sector writes that were issued (a sector is written as a whole).  The
    machine then boots with an empty cache and a zeroed [struct log] and runs
    [initlog], which may itself crash, any number of times. *)

From S2P Require Import Prelude BufferCache Superblock Log.

(** The log occupies blocks [p, p+sz), as the superblock of [d] says, and
    neither contains the superblock nor wraps around. *)
Record geom (d : Z → block) (p sz : Z) : Prop := {
  g_start : sb_logstart (sb_of_block (d 1)) = p;
  g_size : sb_nlog (sb_of_block (d 1)) = sz;
  g_pos : 0 ≤ p;
  g_sz : 0 < sz;
  g_end : p + sz < 2 ^ 31;
  g_sb : ¬ (p ≤ 1 < p + sz);
}.

Definition home_blk (p sz b : Z) : Prop := blk_ok b ∧ ¬ (p ≤ b < p + sz).

(** The block list of a log: distinct blocks outside it, not the superblock. *)
Record log_list (p sz : Z) (bs : list Z) : Prop := {
  ll_nodup : NoDup bs;
  ll_home : Forall (home_blk p sz) bs;
  ll_sb : 1 ∉ bs;
  ll_len : Z.of_nat (length bs) < sz;
}.

Section Reboots.
Context {B : Type} `{BufferCache B}.

(** [initlog] run on a freshly booted machine over the disk [d]. *)
Definition boots (d : Z → block) (s' : lst B) : Prop :=
  ∃ b, bc_boot b d ∧ initlog ROOTDEV (mkLst log0 b) = Ret () s'.

(** The disk after a recovery that completes, after any number of
    recoveries that crashed on the way. *)
Inductive reboots (d : Z → block) : (Z → block) → Prop :=
| reboot_done s' : boots d s' → reboots d (bc_disk (ls_buf s'))
| reboot_crash s' k d' :
    boots d s' → reboots (apply_writes d (take k (bc_writes (ls_buf s')))) d' →
    reboots d d'.
End Reboots.

Section Recovery.
Context {B : Type} `{BufferCache B}.
Implicit Types (s : lst B) (a : abs).
Abbreviation rel s a := (bc_rel (ls_buf s) a).

Lemma read_head_spec s a bs :
  log_ok (ls_log s) [] → rel s a → log_free (ls_log s) a →
  Z.of_nat (size (a_ent a)) < NBUF →
  header_is (a_disk a (lg_start (ls_log s))) bs →
  let lg := ls_log s in
  ∃ s', read_head s = Ret () s' ∧ rel s' a ∧
    ls_log s' = set_lh lg (Z.of_nat (length bs))
                  (map s32 bs ++ drop (length bs) (lg_block lg)).
Proof.
  intros Hok Hrel Hfree Hsz (Hb & Hn & Hw & Hle) lg. fold lg in Hb, Hn, Hw, Hok, Hfree.
  set (p := lg_start lg) in *.
  assert (in_log lg p) as Hp by (destruct Hok; cbn in *; unfold in_log, p; lia).
  pose proof (Hfree p Hp) as Hpn.
  destruct (bread_fresh s a p) as (i & [lg1 b1] & Hr1 & Hl1 & Hrel1);
    [done|by eapply in_log_blk_ok|done|done|].
  cbn in Hl1, Hrel1. subst lg1.
  assert (a_ent (a_set a p (Ent (a_disk a p) false (Some i))) !! p =
          Some (Ent (a_disk a p) false (Some i))) as Hset by apply lookup_insert_eq.
  pose proof (buf_data_law _ _ _ _ _ Hrel1 Hset eq_refl) as Hd.
  destruct (brelse_law _ _ p _ i Hrel1 Hset eq_refl) as (b2 & Hs2 & Hrel2); [done|].
  assert (s32 (get32 (a_disk a p) 0) = Z.of_nat (length bs)) as Hn'.
  { rewrite Hn. apply s32_small. unfold LOGSIZE, MAXOPBLOCKS in Hle. lia. }
  eexists (mkLst _ b2). split; [|split].
  - unfold read_head. mstep (eq_refl (get_log s)). fold lg p. rewrite (lo_dev _ _ Hok).
    rewrite w32_small by (destruct Hok; unfold p, lg in *; cbn in *; lia).
    mstep Hr1. mstep (lift_buf _ (mkLst (ls_log s) b1) _ _ Hd). cbv zeta. cbn [e_data]. rewrite Hn'.
    destruct (Z.ltb_spec LOGSIZE (Z.of_nat (length bs))); [lia|].
    rewrite Nat2Z.id, Hw.
    mstep (eq_refl (put_log (set_lh lg (Z.of_nat (length bs))
      (map s32 bs ++ drop (length bs) (lg_block lg))) (mkLst (ls_log s) b1))).
    exact (lift_buf _ (mkLst _ b1) _ _ Hs2).
  - cbn. refine (eq_ind _ (bc_rel b2) Hrel2 _ _).
    etransitivity; [|exact (a_bread_brelse a p i Hpn)].
    unfold a_bread, view. by rewrite Hpn.
  - done.
Qed.

Lemma log_ok_loaded lg bs :
  log_ok lg [] → Z.of_nat (length bs) < lg_size lg → Z.of_nat (length bs) ≤ LOGSIZE →
  log_ok (set_lh lg (Z.of_nat (length bs)) (map s32 bs ++ drop (length bs) (lg_block lg))) bs.
Proof.
  intros [] ? ?. split; cbn; try done.
  - rewrite take_app_le by (rewrite length_map; lia). apply take_ge. by rewrite length_map.
  - rewrite length_app, length_map, length_drop. unfold LOGSIZE, MAXOPBLOCKS in *. lia.
Qed.

(** The writes of a recovery that finds the blocks [bs] in the log. *)
Definition recover_writes (d : Z → block) (p : Z) (bs : list Z) : list (Z * block) :=
  home_writes d (p + 1) bs ++ [(p, header (d p) [])].

Lemma home_writes_fst d p bs : (home_writes d p bs).*1 = bs.
Proof. revert p. induction bs as [|b bs IH]; intros p; cbn; [done|]. by rewrite IH. Qed.

Lemma recover_spec s a bs :
  log_ok (ls_log s) [] → rel s a → a_ent a = ∅ →
  header_is (a_disk a (lg_start (ls_log s))) bs →
  log_list (lg_start (ls_log s)) (lg_size (ls_log s)) bs →
  let lg := ls_log s in
  ∃ s', recover_from_log s = Ret () s' ∧ log_ok (ls_log s') [] ∧
    lg_start (ls_log s') = lg_start lg ∧ lg_size (ls_log s') = lg_size lg ∧
    rel s' (wrote a (recover_writes (a_disk a) (lg_start lg) bs) ∅).
Proof.
  intros Hok Hrel He Hh Hll lg.
  assert (log_free lg a) as Hfree by (intros b _; rewrite He; apply lookup_empty).
  assert (size (a_ent a) = 0%nat) as Hsz by (rewrite He; apply map_size_empty).
  assert (Z.of_nat (size (a_ent a)) < NBUF) as Hsz1 by (rewrite Hsz; by vm_compute).
  destruct (read_head_spec s a bs) as (s1 & Hs1 & Hrel1 & Hl1); [done..|].
  pose proof (log_ok_loaded lg bs Hok (ll_len _ _ _ Hll) (proj2 (proj2 (proj2 Hh)))) as Hok1.
  fold lg in Hl1. rewrite <-Hl1 in Hok1.
  assert (lg_start (ls_log s1) = lg_start lg ∧ lg_size (ls_log s1) = lg_size lg) as [Hst Hsi].
  { by rewrite Hl1. }
  assert (Forall (home (ls_log s1)) bs) as Hhome.
  { eapply Forall_impl; [apply Hll|]. intros b [??]. split; [done|].
    unfold in_log. by rewrite Hst, Hsi. }
  assert (log_free (ls_log s1) a) as Hfree1.
  { intros b _. rewrite He. apply lookup_empty. }
  destruct (install_loop_spec bs [] bs s1 a eq_refl (ll_nodup _ _ _ Hll) Hok1 Hhome Hrel1
              Hfree1 Hsz1) as (s2 & Hs2 & Hl2 & Hrel2).
  { intros b e _. by rewrite He, lookup_empty. }
  { right. rewrite Hsz. by vm_compute. }
  assert (foldr delete (a_ent a) bs = ∅) as Hem.
  { rewrite He. apply map_eq. intros x. rewrite foldr_delete_lookup, lookup_empty.
    by case_decide. }
  rewrite Hem in Hrel2. cbn [length] in Hrel2. rewrite Z.add_0_r, Hst in Hrel2.
  set (a2 := wrote _ _ _) in Hrel2.
  destruct (write_head_spec (mkLst (set_lh (ls_log s2) 0 (lg_block (ls_log s2))) (ls_buf s2)) a2 [])
    as (s3 & Hs3 & Hl3 & Hrel3).
  { rewrite Hl2. by eapply set_lh_nil. }
  { done. }
  { intros b _. apply lookup_empty. }
  { by vm_compute. }
  exists s3. rewrite Hl3. cbn [ls_log set_lh lg_start lg_size]. rewrite Hl2.
  split; [|split; [by eapply set_lh_nil|]; split; [done|]; split; [done|]].
  - unfold recover_from_log. mstep Hs1. unfold install_trans. erewrite mbind_ret; last first.
    { mstep (eq_refl (get_log s1)). rewrite Hl1. cbn [lg_n set_lh]. rewrite Nat2Z.id. exact Hs2. }
    mstep (eq_refl (get_log s2)). exact Hs3.
  - refine (eq_ind _ (bc_rel (ls_buf s3)) Hrel3 _ _).
    cbn [ls_log set_lh lg_start]. rewrite Hl2, Hst. unfold a2. rewrite wrote_wrote.
    unfold recover_writes. cbn [wrote a_disk]. rewrite apply_writes_ne; [done|].
    rewrite home_writes_fst. eapply home_not_log; [exact Hhome|].
    destruct Hok; cbn in *. unfold in_log, lg in *. rewrite Hst, Hsi. lia.
Qed.

(** [initlog] with an empty cache: the writes it issues, and its result. *)
Lemma initlog_spec b d p sz bs :
  bc_rel b (Abs d [] ∅) → geom d p sz → header_is (d p) bs → log_list p sz bs →
  ∃ s', initlog ROOTDEV (mkLst log0 b) = Ret () s' ∧
    log_ok (ls_log s') [] ∧ lg_start (ls_log s') = p ∧ lg_size (ls_log s') = sz ∧
    rel s' (wrote (Abs d [] ∅) (recover_writes d p bs) ∅).
Proof.
  intros Hrel [Hst Hsi Hpos Hsz Hend Hsb] Hh Hll.
  destruct (readsb_spec b (Abs d [] ∅)) as (b1 & Hr & Hrel1);
    [done|apply lookup_empty|by vm_compute|]. cbn [a_disk] in Hr.
  set (lg := mkLog p sz 0 0 ROOTDEV 0 (lg_block log0) 0).
  destruct (recover_spec (mkLst lg b1) (Abs d [] ∅) bs) as (s' & Hs' & Hok & Hls & Hlz & Hrel').
  { by split. }
  { done. }
  { done. }
  { done. }
  { done. }
  exists s'. split; [|done]. unfold initlog.
  mstep (lift_buf (readsb ROOTDEV) (mkLst log0 b) _ _ Hr).
  rewrite Hst, Hsi. rewrite !s32_small by lia. exact Hs'.
Qed.
End Recovery.

(** The header of an emptied log. *)
Lemma header_nil o : block_ok o → header_is (header o []) [].
Proof. intros. by apply header_header_is. Qed.

(** ** Disks on which a commit of [bs] with contents [ds] may have crashed *)

Section Clean.
Context (p sz : Z).

(** The log is empty and the home blocks are those of [t]. *)
Definition phase_clean (t : Z → block) (d : Z → block) : Prop :=
  geom d p sz ∧ header_is (d p) [] ∧ ∀ b, home_blk p sz b → d b = t b.

Lemma geom_ext d d' : d' 1 = d 1 → geom d p sz → geom d' p sz.
Proof. intros H1 []. split; by rewrite ?H1. Qed.

Lemma p_home b : home_blk p sz b → 0 < sz → b ≠ p.
Proof. intros [_ Hb] ? ->. lia. Qed.

Lemma clean_write_header t d v :
  phase_clean t d → header_is v [] → phase_clean t (upd d p v).
Proof.
  intros (Hg & Hh & Ht) Hv. split; [|split].
  - eapply geom_ext; [|exact Hg]. apply upd_ne. destruct Hg. lia.
  - by rewrite upd_eq.
  - intros b Hb. rewrite upd_ne; [by apply Ht|]. apply p_home; [done|apply Hg].
Qed.
End Clean.

Section Phases.
Context (p sz : Z) (bs : list Z) (ds : list block) (old : Z → block).
Hypothesis Hll : log_list p sz bs.
Hypothesis Hlen : length bs = length ds.
Hypothesis Hcap : Z.of_nat (length bs) ≤ LOGSIZE.

Definition new (b : Z) : block := apply_writes old (zip bs ds) b.

(** The log is committed; home blocks outside [bs] are untouched. *)
Definition phase_committed (d : Z → block) : Prop :=
  geom d p sz ∧ header_is (d p) bs ∧
  (∀ k v, ds !! k = Some v → d (p + 1 + Z.of_nat k) = v) ∧
  ∀ b, home_blk p sz b → b ∉ bs → d b = old b.

Definition crashed (d : Z → block) : Prop :=
  phase_clean p sz old d ∨ phase_committed d ∨ phase_clean p sz new d.

Lemma committed_home_writes d k :
  phase_committed d → phase_committed (apply_writes d (take k (zip bs ds))).
Proof.
  intros (Hg & Hh & Hd & Ht). assert (∀ b, b ∉ bs → apply_writes d (take k (zip bs ds)) b = d b) as Hne.
  { intros b Hb. apply apply_writes_ne. intros Hin. apply Hb.
    rewrite <-(zip_fst bs ds Hlen). rewrite fmap_take in Hin.
    apply elem_of_take in Hin as (i & Hi & _). by eapply list_elem_of_lookup_2. }
  assert (∀ b, p ≤ b < p + sz → b ∉ bs) as Hnl.
  { intros b Hb Hin. pose proof (ll_home _ _ _ Hll) as Hhome.
    rewrite Forall_forall in Hhome. by destruct (Hhome b Hin). }
  pose proof (ll_len _ _ _ Hll) as Hl. destruct Hg as [? ? ? Hsz ? ?]. split; [|split; [|split]].
  - eapply (geom_ext p sz d); [|by split]. apply Hne, Hll.
  - rewrite Hne; [done|]. apply Hnl. lia.
  - intros j v Hj. rewrite Hne; [by apply Hd|]. apply Hnl.
    apply lookup_lt_Some in Hj. lia.
  - intros b Hb Hin. rewrite Hne by done. by apply Ht.
Qed.

Lemma committed_installed d :
  phase_committed d → ∀ b, home_blk p sz b → apply_writes d (zip bs ds) b = new b.
Proof.
  intros (_ & _ & _ & Ht) b Hb. unfold new. destruct (decide (b ∈ bs)) as [Hin|Hin].
  - pose proof (zip_fst bs ds Hlen) as Hz. rewrite <-Hz in Hin.
    apply list_elem_of_fmap in Hin as ([b' v] & -> & Hin). cbn.
    assert (NoDup (zip bs ds).*1) as Hnd by (rewrite Hz; apply Hll).
    by rewrite (apply_writes_in d _ b' v Hnd Hin), (apply_writes_in old _ b' v Hnd Hin).
  - rewrite !apply_writes_ne by (by rewrite zip_fst). by apply Ht.
Qed.

(** Erasing the header of an installed log. *)
Lemma committed_erase d v :
  phase_committed d → header_is v [] →
  phase_clean p sz new (upd (apply_writes d (zip bs ds)) p v).
Proof.
  intros Hc Hv. assert (length (zip bs ds) ≤ length bs)%nat as Hz
    by (rewrite length_zip; lia).
  pose proof (committed_home_writes d (length bs) Hc) as (Hg & _).
  rewrite take_ge in Hg by done. split; [|split].
  - eapply geom_ext; [|exact Hg]. apply upd_ne. destruct Hg. lia.
  - by rewrite upd_eq.
  - intros b Hb. rewrite upd_ne by (apply (p_home p sz); [done|apply Hg]).
    by apply committed_installed.
Qed.

(** Writing the log blocks, or some of them, changes neither the header nor
    a home block. *)
Lemma clean_log_writes d k :
  phase_clean p sz old d → phase_clean p sz old (apply_writes d (take k (log_writes (p + 1) ds))).
Proof.
  intros (Hg & Hh & Ht). pose proof (ll_len _ _ _ Hll) as Hl.
  assert (∀ b, b ∉ seqZ (p + 1) (Z.of_nat (length ds)) →
    apply_writes d (take k (log_writes (p + 1) ds)) b = d b) as Hne.
  { intros b Hb. apply apply_writes_ne. intros Hin. apply Hb.
    rewrite <-log_writes_fst. rewrite fmap_take in Hin.
    apply elem_of_take in Hin as (i & Hi & _). by eapply list_elem_of_lookup_2. }
  pose proof Hg as []. split; [|split].
  - eapply (geom_ext p sz d); [|done]. apply Hne. rewrite elem_of_seqZ. lia.
  - rewrite Hne; [done|]. rewrite elem_of_seqZ. lia.
  - intros b Hb. rewrite Hne; [by apply Ht|]. rewrite elem_of_seqZ. destruct Hb. lia.
Qed.

(** The header write is the commit point. *)
Lemma clean_commit_point d v :
  phase_clean p sz old d → header_is v bs →
  phase_committed (upd (apply_writes d (log_writes (p + 1) ds)) p v).
Proof.
  intros Hc Hv. pose proof (clean_log_writes d (length (log_writes (p + 1) ds)) Hc) as Hc'.
  rewrite take_ge in Hc' by done. destruct Hc' as (Hg & _ & Ht).
  pose proof Hg as []. split; [|split; [|split]].
  - eapply geom_ext; [|exact Hg]. apply upd_ne. lia.
  - by rewrite upd_eq.
  - intros k w Hk. rewrite upd_ne by lia. by apply apply_log_writes.
  - intros b Hb _. rewrite upd_ne by (by apply (p_home p sz)). by apply Ht.
Qed.

(** Every prefix of a commit leaves a disk of one of the three phases. *)
Lemma commit_prefix d k :
  phase_clean p sz old d →
  crashed (apply_writes d (take k (commit_writes p (d p) bs ds))).
Proof.
  intros Hc. pose proof Hc as (Hg & (Hok & _) & Ht).
  assert (header_is (header (d p) bs) bs) as Hh by by apply header_header_is.
  unfold commit_writes. set (lw := log_writes (p + 1) ds).
  destruct (decide (k ≤ length lw)%nat) as [Hk|Hk].
  - rewrite take_app_le by done. left. by apply clean_log_writes.
  - rewrite take_app_ge by lia. destruct (k - length lw)%nat as [|j] eqn:Hj; [lia|].
    cbn [app take]. rewrite apply_writes_app.
    pose proof (clean_commit_point d _ Hc Hh) as Hcm. fold lw in Hcm.
    change (apply_writes ?x ((p, ?h) :: ?l)) with (apply_writes (upd x p h) l).
    set (d1 := upd _ _ _) in *. destruct (decide (j ≤ length (zip bs ds))%nat) as [Hz|Hz].
    + rewrite take_app_le by done. right; left. by apply committed_home_writes.
    + rewrite take_app_ge by lia. destruct (j - length (zip bs ds))%nat as [|j'] eqn:Hj'; [lia|].
      cbn [take]. rewrite apply_writes_app. right; right.
      replace (take j' []) with (@nil (Z * block)) by by destruct j'.
      apply committed_erase; [done|]. apply header_nil, Hh.
Qed.

Lemma commit_all d :
  phase_clean p sz old d →
  phase_clean p sz new (apply_writes d (commit_writes p (d p) bs ds)).
Proof.
  intros Hc. pose proof Hc as (Hg & (Hok & _) & Ht).
  assert (header_is (header (d p) bs) bs) as Hh by by apply header_header_is.
  unfold commit_writes. rewrite apply_writes_app. cbn [app].
  change (apply_writes ?x ((p, ?h) :: ?l)) with (apply_writes (upd x p h) l).
  rewrite apply_writes_app. apply committed_erase.
  - by apply clean_commit_point.
  - apply header_nil, Hh.
Qed.
End Phases.

Section Crash.
Context {B : Type} `{BufferCache B}.
Context (p sz : Z) (bs : list Z) (ds : list block) (old : Z → block).
Hypothesis Hll : log_list p sz bs.
Hypothesis Hlen : length bs = length ds.
Hypothesis Hcap : Z.of_nat (length bs) ≤ LOGSIZE.
Abbreviation crashed := (crashed p sz bs ds old).
Abbreviation new := (new bs ds old).

(** All or nothing, on the blocks outside the log. *)
Definition atomic (d : Z → block) : Prop :=
  (∀ b, home_blk p sz b → d b = old b) ∨ (∀ b, home_blk p sz b → d b = new b).

Lemma log_list_nil : 0 < sz → log_list p sz [].
Proof. intros. split; [apply NoDup_nil_2|done|set_solver|done]. Qed.

(** A completed recovery: an empty log in memory and on disk, an empty
    cache, and the home blocks of [t]. *)
Definition recovered (t : Z → block) (s' : lst B) : Prop :=
  log_ok (ls_log s') [] ∧ lg_start (ls_log s') = p ∧ lg_size (ls_log s') = sz ∧
  ∃ a', bc_rel (ls_buf s') a' ∧ a_ent a' = ∅ ∧ phase_clean p sz t (a_disk a').

Lemma recovered_disk t s' q :
  recovered t s' → home_blk p sz q → bc_disk (ls_buf s') q = t q.
Proof.
  intros (_ & _ & _ & a' & Hrel & _ & _ & _ & Ht) Hq.
  rewrite (bc_disk_rel _ _ _ Hrel) by apply Hq. by apply Ht.
Qed.

(** A recovery that finds an empty log. *)
Lemma clean_recovers t d b :
  phase_clean p sz t d → bc_rel b (Abs d [] ∅) →
  ∃ s', initlog ROOTDEV (mkLst log0 b) = Ret () s' ∧ recovered t s' ∧
    ∀ k, phase_clean p sz t (apply_writes d (take k (bc_writes (ls_buf s')))).
Proof.
  intros Hc Hb. pose proof Hc as (Hg & Hh & Ht).
  destruct (initlog_spec b d p sz []) as (s' & Hs' & Hok & Hp & Hz & Hrel);
    [done..|apply log_list_nil; apply Hg|].
  assert (phase_clean p sz t (upd d p (header (d p) []))) as Hc'.
  { apply clean_write_header; [done|]. apply header_nil, Hh. }
  exists s'. split; [done|]. split.
  - split; [done|]. split; [done|]. split; [done|]. eexists. split; [exact Hrel|]. done.
  - intros k. rewrite (bc_writes_rel _ _ Hrel). cbn.
    destruct k as [|k]; cbn; [done|]. by destruct k.
Qed.

(** A recovery that finds the committed log. *)
Lemma committed_recovers d b :
  phase_committed p sz bs ds old d → bc_rel b (Abs d [] ∅) →
  ∃ s', initlog ROOTDEV (mkLst log0 b) = Ret () s' ∧ recovered new s' ∧
    ∀ k, crashed (apply_writes d (take k (bc_writes (ls_buf s')))).
Proof.
  intros Hc Hb. pose proof Hc as (Hg & Hh & Hd & Ht).
  destruct (initlog_spec b d p sz bs) as (s' & Hs' & Hok & Hp & Hz & Hrel); [done..|].
  unfold recover_writes in Hrel. rewrite (home_writes_zip _ _ _ ds Hlen Hd) in Hrel.
  assert (phase_clean p sz new (apply_writes d (zip bs ds ++ [(p, header (d p) [])]))) as Hc'.
  { rewrite apply_writes_app. apply committed_erase; [done..|]. apply header_nil, Hh. }
  exists s'. split; [done|]. split.
  - split; [done|]. split; [done|]. split; [done|]. eexists. split; [exact Hrel|]. done.
  - intros k. rewrite (bc_writes_rel _ _ Hrel). cbn [wrote a_writes app].
    destruct (decide (k ≤ length (zip bs ds))%nat) as [Hk|Hk].
    + rewrite take_app_le by done. right; left. by apply committed_home_writes.
    + rewrite take_ge; [by right; right|]. rewrite length_app. cbn. lia.
Qed.

Lemma crashed_recovers d b :
  crashed d → bc_rel b (Abs d [] ∅) →
  ∃ s', initlog ROOTDEV (mkLst log0 b) = Ret () s' ∧
    (recovered old s' ∨ recovered new s') ∧
    ∀ k, crashed (apply_writes d (take k (bc_writes (ls_buf s')))).
Proof.
  intros [Hc|[Hc|Hc]] Hb.
  - destruct (clean_recovers old d b Hc Hb) as (s' & ? & ? & Hk).
    exists s'. split; [done|]. split; [by left|]. intros k. left. apply Hk.
  - destruct (committed_recovers d b Hc Hb) as (s' & ? & ? & Hk).
    exists s'. split; [done|]. split; [by right|]. done.
  - destruct (clean_recovers new d b Hc Hb) as (s' & ? & ? & Hk).
    exists s'. split; [done|]. split; [by right|]. intros k. right; right. apply Hk.
Qed.

(** The superblock is as before. *)
Lemma crashed_sb d : crashed d → 1 ∉ bs → d 1 = old 1.
Proof.
  intros Hc Hsb. assert (∀ d', geom d' p sz → home_blk p sz 1) as Hhome.
  { intros d' Hg. split; [by vm_compute|apply Hg]. }
  destruct Hc as [(Hg & _ & Ht)|[(Hg & _ & _ & Ht)|(Hg & _ & Ht)]].
  - apply Ht, (Hhome d), Hg.
  - apply Ht; [apply (Hhome d), Hg|done].
  - rewrite Ht by apply (Hhome d), Hg. unfold new. apply apply_writes_ne. by rewrite zip_fst.
Qed.

Lemma recovered_atomic s' :
  recovered old s' ∨ recovered new s' → atomic (bc_disk (ls_buf s')).
Proof. intros [Hr|Hr]; [left|right]; intros b Hb; by apply recovered_disk. Qed.

(** A disk on which a commit crashed, after any number of further crashes. *)
Lemma crashed_reboots d d' : crashed d → reboots (B := B) d d' → atomic d'.
Proof.
  intros Hc Hr. revert Hc.
  induction Hr as [d s' (b & Hb & Hi)|d s' k d' (b & Hb & Hi) _ IH]; intros Hc;
    destruct (crashed_recovers d b Hc (bc_boot_rel _ _ Hb)) as (s2 & Hs2 & Ha & Hk);
    rewrite Hi in Hs2; injection Hs2 as <-; [by apply recovered_atomic|]. by apply IH.
Qed.
End Crash.
