(* ===== verification/LogOps.v ===== *)
(** System calls as log operations: [begin_op], [log_write] and [end_op] of
    kern/log.c, run by one operation at a time (Section Single) and
    interleaved by many threads that sleep and are woken up (Section
    Concurrent). *)

From S2P Require Import Prelude BufferCache Superblock Log.

Section Single.
Context {B : Type} `{BufferCache B}.
Implicit Types (s : lst B) (a : abs).
Abbreviation rel s a := (bc_rel (ls_buf s) a).

(** The blocks [bs] are logged and pinned, nothing else is pinned. *)
Record log_inv (s : lst B) (a : abs) (bs : list Z) : Prop := {
  li_log : log_ok (ls_log s) bs;
  li_nodup : NoDup bs;
  li_home : Forall (home (ls_log s)) bs;
  li_rel : rel s a;
  li_free : log_free (ls_log s) a;
  li_dirty b : b ∈ bs ↔ ∃ e, a_ent a !! b = Some e ∧ e_dirty e = true;
}.

(** The block list after logging [b]. *)
Definition logged (bs : list Z) (b : Z) : list Z := if decide (b ∈ bs) then bs else bs ++ [b].

Lemma absorb_spec bs b :
  Forall blk_ok bs → blk_ok b →
  absorb (map s32 bs) b = match list_find (b =.) bs with Some (i, _) => i | None => length bs end.
Proof.
  intros Hbs Hb. induction Hbs as [|c bs Hc Hbs IH]; cbn [map absorb list_find length]; [done|].
  rewrite w32_s32, w32_small by (unfold blk_ok, MBR_BASE in Hc; lia).
  destruct (Z.eqb_spec c b) as [->|Hne]; [by rewrite decide_True|].
  rewrite decide_False by congruence. rewrite IH.
  by destruct (list_find (b =.) bs) as [[]|].
Qed.

Lemma log_write_panics i s :
  LOGSIZE <= lg_n (ls_log s) ∨ lg_size (ls_log s) - 1 <= lg_n (ls_log s) →
  log_write i s = Panic "log_write: too big a transaction".
Proof.
  intros Hn. unfold log_write. mstep (eq_refl (get_log s)).
  destruct (Z.leb_spec LOGSIZE (lg_n (ls_log s))); [done|].
  destruct (Z.leb_spec (lg_size (ls_log s) - 1) (lg_n (ls_log s))); [done|lia].
Qed.

(** The list stored back by [log_write]. *)
Lemma logged_words lg bs b :
  log_ok lg bs → Forall blk_ok bs → blk_ok b →
  Z.of_nat (length bs) < LOGSIZE → Z.of_nat (length bs) < lg_size lg - 1 →
  let i := absorb (map s32 bs) b in
  log_ok (set_lh lg (if Z.of_nat i =? lg_n lg then lg_n lg + 1 else lg_n lg)
                 (<[i := s32 b]> (lg_block lg))) (logged bs b).
Proof.
  intros [Hdev Hn Hblk Hlen Hst Hend Hcp] Hbs Hb Hcap Hsz i. unfold i. rewrite absorb_spec by done.
  assert (length bs < length (lg_block lg))%nat as Hlt by (rewrite Hlen; lia).
  unfold logged. destruct (list_find (b =.) bs) as [[j c]|] eqn:Hf.
  - apply list_find_Some in Hf as (Hj & <- & _). pose proof (lookup_lt_Some _ _ _ Hj).
    rewrite decide_True by by eapply list_elem_of_lookup_2.
    destruct (Z.eqb_spec (Z.of_nat j) (lg_n lg)); [lia|].
    split; cbn; try done; [|by rewrite length_insert].
    rewrite <-Hblk, take_insert_lt by done. apply list_insert_id.
    rewrite Hblk, list_lookup_fmap, Hj. done.
  - apply list_find_None in Hf. rewrite decide_False.
    2:{ intros Hin. rewrite Forall_forall in Hf. by eapply Hf. }
    rewrite Hn, Z.eqb_refl. split; cbn; try done.
    + rewrite length_app. cbn. lia.
    + rewrite length_app, Nat.add_1_r. erewrite take_S_r; [|by apply list_lookup_insert_eq].
      rewrite take_insert_ge by lia. by rewrite Hblk, map_app.
    + by rewrite length_insert.
    + rewrite length_app. cbn. lia.
Qed.

Lemma log_write_ok s a bs b e i :
  log_inv s a bs → home (ls_log s) b → a_ent a !! b = Some e → e_held e = Some i →
  Z.of_nat (length bs) < LOGSIZE → Z.of_nat (length bs) < lg_size (ls_log s) - 1 →
  ∃ s', log_write i s = Ret () s' ∧
    log_inv s' (a_set a b (Ent (e_data e) true (Some i))) (logged bs b).
Proof.
  intros [Hok Hnd Hhome Hrel Hfree Hd] Hb He Hh Hcap Hsz.
  assert (Forall blk_ok bs) as Hbs by (eapply Forall_impl; [exact Hhome|by intros ? []]).
  pose proof (logged_words (ls_log s) bs b Hok Hbs (proj1 Hb) Hcap Hsz) as Hlok.
  destruct (buf_set_dirty_law _ _ _ _ _ Hrel He Hh) as (b1 & Hs1 & Hrel1). rewrite Hh in Hrel1.
  cbv zeta in Hlok. match type of Hlok with log_ok ?l _ => set (lg' := l) in Hlok end. exists (mkLst lg' b1). split.
  - unfold log_write. mstep (eq_refl (get_log s)). pose proof Hok as [Hdev Hn Hblk Hlen Hst Hend Hcp].
    destruct (Z.leb_spec LOGSIZE (lg_n (ls_log s))); [lia|].
    destruct (Z.leb_spec (lg_size (ls_log s) - 1) (lg_n (ls_log s))); [lia|]. cbn [orb].
    mstep (lift_buf _ _ _ _ (buf_blockno_law _ _ _ _ _ Hrel He Hh)). cbv zeta.
    replace (b + MBR_BASE - MBR_BASE) with b by lia.
    rewrite w32_small by (destruct Hb as [Hb _]; unfold blk_ok, MBR_BASE in Hb; lia).
    rewrite Hn, Nat2Z.id, Hblk, <-Hn. fold lg'.
    mstep (eq_refl (put_log lg' (mkLst (ls_log s) (ls_buf s)))).
    exact (lift_buf _ (mkLst lg' (ls_buf s)) _ _ Hs1).
  - assert (∀ c, c ∈ logged bs b ↔ c ∈ bs ∨ c = b) as Hin.
    { intros c. unfold logged. case_decide; set_solver. }
    split; cbn [ls_log ls_buf]; try done.
    + unfold logged. case_decide as Hc; [done|]. apply NoDup_app. split; [done|].
      split; [set_solver|]. apply NoDup_singleton.
    + apply Forall_forall. intros c [Hc | ->]%Hin; [|done].
      rewrite Forall_forall in Hhome. by apply (Hhome c).
    + intros c Hc. cbn. destruct (decide (c = b)) as [->|]; [by destruct Hb|].
      rewrite lookup_insert_ne by done. by apply Hfree.
    + intros c. rewrite Hin, Hd. cbn. destruct (decide (c = b)) as [->|Hne].
      * rewrite lookup_insert_eq. split; [eauto|by right].
      * rewrite lookup_insert_ne by done. split; [by intros [?|?]|by left].
Qed.
End Single.

(** ** What the operations do to [struct log], whatever the cache does *)

Section Frames.
Context {B : Type} `{!BufOps B}.
Implicit Types (s : lst B).

Definition same_log s s' : Prop := ls_log s' = ls_log s.
(** The counters of running operations are unchanged. *)
Definition same_counts s s' : Prop :=
  lg_outstanding (ls_log s') = lg_outstanding (ls_log s) ∧
  lg_committing (ls_log s') = lg_committing (ls_log s).

#[local] Instance same_log_refl : Reflexive same_log.
Proof. done. Qed.
#[local] Instance same_log_trans : Transitive same_log.
Proof. unfold same_log. by intros ??? -> ->. Qed.
#[local] Instance same_counts_refl : Reflexive same_counts.
Proof. done. Qed.
#[local] Instance same_counts_trans : Transitive same_counts.
Proof. unfold same_counts. by intros ??? [-> ->] [-> ->]. Qed.

Lemma same_log_counts s s' : same_log s s' → same_counts s s'.
Proof. unfold same_log, same_counts. by intros ->. Qed.

Lemma lift_same_log {A} (m : M B A) : keeps same_log (lift m).
Proof. by intros s a s' (t & _ & ->)%lift_inv. Qed.
Lemma put_same_counts lg s :
  lg_outstanding lg = lg_outstanding (ls_log s) →
  lg_committing lg = lg_committing (ls_log s) → same_counts s (mkLst lg (ls_buf s)).
Proof. done. Qed.

(** Splits a monadic term whose every step keeps [struct log]. *)
Ltac keep :=
  repeat first [apply keeps_bind; [apply _| |intros ?]
    | apply keeps_array_get; apply _ | apply keeps_if
    | apply keeps_ret; apply _ | apply keeps_gets; apply _
    | apply lift_same_log | apply keeps_undef ].

Lemma install_loop_same n t : keeps same_log (install_loop (B := B) n t).
Proof. revert t. induction n as [|n IH]; intros t; cbn [install_loop]; keep. apply IH. Qed.
Lemma write_log_loop_same n t : keeps same_log (write_log_loop (B := B) n t).
Proof. revert t. induction n as [|n IH]; intros t; cbn [write_log_loop]; keep. apply IH. Qed.
Lemma install_trans_same : keeps same_log (install_trans (B := B)).
Proof. unfold install_trans. keep. apply install_loop_same. Qed.
Lemma write_log_same : keeps same_log (write_log (B := B)).
Proof. unfold write_log. keep. apply write_log_loop_same. Qed.
Lemma write_head_same : keeps same_log (write_head (B := B)).
Proof. unfold write_head. keep. Qed.

(** Reading [struct log] and continuing from what was read. *)
Lemma keeps_get_log {A} P (k : log → M (lst B) A) :
  (∀ s, ∀ a s', k (ls_log s) s = Ret a s' → P s s') → keeps P (mbind k get_log).
Proof. intros Hk s a s'. apply Hk. Qed.

(** [commit] empties the list and changes nothing else. *)
Lemma commit_log s s' :
  commit s = Ret () s' →
  ls_log s' = if 0 <? lg_n (ls_log s) then set_lh (ls_log s) 0 (lg_block (ls_log s)) else ls_log s.
Proof.
  intros Hc. unfold commit in Hc. apply mbind_inv in Hc as (lg0 & s0 & [= <- <-] & Hc).
  destruct (0 <? lg_n (ls_log s)); [|by injection Hc as <-].
  apply mbind_inv in Hc as ([] & s1 & H1%write_log_same & Hc). apply mbind_inv in Hc as ([] & s2 & H2%write_head_same & Hc).
  apply mbind_inv in Hc as ([] & s3 & H3%install_trans_same & Hc).
  apply mbind_inv in Hc as (lg & s3' & [= <- <-] & Hc).
  apply mbind_inv in Hc as ([] & s4 & [= <-] & H5%write_head_same).
  unfold same_log in *. rewrite H5. cbn. by rewrite H3, H2, H1.
Qed.
Lemma end_op_commit_log s s' :
  0 ≤ lg_n (ls_log s) → end_op_commit s = Ret () s' →
  lg_n (ls_log s') = 0 ∧ lg_outstanding (ls_log s') = lg_outstanding (ls_log s) ∧
  lg_committing (ls_log s') = 0 ∧ lg_block (ls_log s') = lg_block (ls_log s) ∧
  lg_wakes (ls_log s') = S (lg_wakes (ls_log s)) ∧ lg_size (ls_log s') = lg_size (ls_log s).
Proof.
  intros Hn Hr. apply mbind_inv in Hr as ([] & s1 & Hc%commit_log & Hr).
  apply mbind_inv in Hr as (lg & s1' & [= <- <-] & Hr). apply mbind_inv in Hr as ([] & s2 & [= <-] & Hr).
  apply mbind_inv in Hr as (lg & s2' & [= <- <-] & [= <-]). cbn. rewrite Hc.
  destruct (Z.ltb_spec 0 (lg_n (ls_log s))); [done|]. split; [lia|done].
Qed.

Lemma recover_same_counts : keeps same_counts (recover_from_log (B := B)).
Proof.
  unfold recover_from_log. apply keeps_bind; [apply _| |intros []].
  - unfold read_head. apply keeps_get_log. intros s [] s' Hr.
    apply mbind_inv in Hr as (i & s1 & H1%lift_same_log & Hr).
    apply mbind_inv in Hr as (d & s2 & H2%lift_same_log & Hr). cbv zeta in Hr.
    destruct (_ <? _); [done|].
    apply mbind_inv in Hr as ([] & s3 & [= <-] & H4%lift_same_log).
    unfold same_log, same_counts in *. rewrite H4. done.
  - apply keeps_bind; [apply _| |intros []].
    { intros s a s' Hi. apply same_log_counts. by eapply install_trans_same. }
    apply keeps_get_log. intros s [] s' Hr.
    apply mbind_inv in Hr as ([] & s3 & [= <-] & H4%write_head_same).
    unfold same_log, same_counts in *. by rewrite H4.
Qed.

Lemma initlog_counts dev : keeps same_counts (initlog (B := B) dev).
Proof.
  unfold initlog. apply keeps_bind; [apply _| |intros sb].
  { intros s a s' Hi. apply same_log_counts. by eapply lift_same_log. }
  apply keeps_get_log. intros s [] s' Hr.
  apply mbind_inv in Hr as ([] & s3 & [= <-] & H4%recover_same_counts).
  unfold same_counts in *. by destruct H4 as [-> ->].
Qed.

(** [log_write] changes the list of blocks of the log only. *)
Lemma log_write_log i s s' :
  log_write i s = Ret () s' → ∃ n bl, ls_log s' = set_lh (ls_log s) n bl.
Proof.
  unfold log_write. intros (lg & s1 & [= <- <-] & H1)%mbind_inv.
  destruct (_ || _); [done|]. apply mbind_inv in H1 as (bno & s2 & H2%lift_inv & H3).
  destruct H2 as (b2 & _ & ->). apply mbind_inv in H3 as (u & s3 & [= <- <-] & H4).
  apply lift_inv in H4 as (b4 & _ & ->). cbn. eauto.
Qed.

(** The block numbers in the list. *)
Definition listed (lg : log) : list Z := map w32 (take (Z.to_nat (lg_n lg)) (lg_block lg)).
Lemma absorb_listed l b :
  if decide (b ∈ map w32 l) then ∃ x, l !! absorb l b = Some x ∧ w32 x = b else absorb l b = length l.
Proof.
  induction l as [|x l IH]; cbn [map absorb length].
  { rewrite decide_False; [done|apply not_elem_of_nil]. }
  destruct (Z.eqb_spec (w32 x) b) as [Hx|Hx].
  - rewrite decide_True by (rewrite Hx; apply list_elem_of_here). by exists x.
  - destruct (decide (b ∈ map w32 l)) as [Hin|Hin].
    + rewrite decide_True by (by apply elem_of_cons; right). exact IH.
    + rewrite decide_False by (intros [->|]%elem_of_cons; done). by rewrite IH.
Qed.
(** [log_write] lists a block that is not listed yet (absorption). *)
Lemma log_write_lists i s s' :
  0 ≤ lg_n (ls_log s) → length (lg_block (ls_log s)) = Z.to_nat LOGSIZE → log_write i s = Ret () s' →
  ∃ bno b1, buf_blockno i (ls_buf s) = Ret bno b1 ∧
    let b := w32 (bno - MBR_BASE) in let lg := ls_log s in let lg' := ls_log s' in
    lg' = set_lh lg (lg_n lg') (lg_block lg') ∧ length (lg_block lg') = length (lg_block lg) ∧
    lg_n lg' = (if decide (b ∈ listed lg) then lg_n lg else lg_n lg + 1) ∧
    ∀ x, x ∈ listed lg' ↔ x = b ∨ x ∈ listed lg.
Proof.
  intros Hn Hlen Hr. unfold log_write in Hr. apply mbind_inv in Hr as (lg & s0 & [= <- <-] & Hr).
  destruct (Z.leb_spec LOGSIZE (lg_n (ls_log s))) as [|Hcap]; [done|].
  destruct (lg_size (ls_log s) - 1 <=? lg_n (ls_log s)); [done|]. cbn [orb] in Hr.
  apply mbind_inv in Hr as (bno & s1 & (b1 & Hb & ->)%lift_inv & Hr). cbv zeta in Hr.
  apply mbind_inv in Hr as ([] & s2 & [= <-] & H2%lift_same_log). unfold same_log in H2. cbn [ls_log lset lst_lens] in H2.
  exists bno, b1. split; [exact Hb|]. cbv zeta. rewrite H2. set (b := w32 (bno - MBR_BASE)).
  set (lg := ls_log s) in *. set (n := Z.to_nat (lg_n lg)) in *.
  assert (length (take n (lg_block lg)) = n) as Hlt by (rewrite length_take; unfold LOGSIZE, MAXOPBLOCKS in *; lia).
  assert (w32 (s32 b) = b) as Hs by (rewrite w32_s32; unfold b, w32; by rewrite Z.mod_mod).
  pose proof (absorb_listed (take n (lg_block lg)) b) as Habs.
  change (map w32 (take n (lg_block lg))) with (listed lg) in Habs.
  cbn [set_lh lg_n lg_block]. split; [done|]. split; [by rewrite length_insert|].
  destruct (decide (b ∈ listed lg)) as [Hin|Hin].
  - destruct Habs as (x & Hx & Hxb). pose proof (lookup_lt_Some _ _ _ Hx) as Hi. rewrite Hlt in Hi.
    set (i' := absorb _ _) in *. destruct (Z.eqb_spec (Z.of_nat i') (lg_n lg)); [lia|]. split; [done|].
    intros y. unfold listed at 1. cbn [set_lh lg_n lg_block]. fold n. rewrite take_insert_lt by lia. rewrite list_fmap_insert, Hs.
    rewrite list_insert_id by (by rewrite list_lookup_fmap, Hx, <- Hxb).
    change (map w32 (take n (lg_block lg))) with (listed lg). split; [by right|]. by intros [->|].
  - rewrite Habs, Hlt. replace (Z.of_nat n) with (lg_n lg) by lia. rewrite Z.eqb_refl. split; [done|].
    intros y. unfold listed at 1. cbn [set_lh lg_n lg_block]. replace (Z.to_nat (lg_n lg + 1)) with (S n) by lia. erewrite take_S_r by (apply list_lookup_insert_eq; unfold LOGSIZE, MAXOPBLOCKS in *; lia).
    rewrite take_insert_ge by lia. rewrite map_app, elem_of_app. cbn. rewrite Hs, list_elem_of_singleton.
    change (map w32 (take n (lg_block lg))) with (listed lg). tauto.
Qed.
End Frames.

(** ** Interleaved operations *)

(** Thread [t] runs a system call that has logged the blocks [D], when the
    map has [t ↦ D]; the threads in [c_asleep] sleep in [begin_op] until
    [wakeup(&log)] makes them try again.  The steps are the locked sections of
    the threads, in any order; while one thread commits, the others may run
    everything but what [log.committing] excludes.  An operation writes a
    block as often as it likes, but no more than [MAXOPBLOCKS] different ones. *)
Section Concurrent.
Context {B : Type} `{!BufOps B}.

Record cst := mkCst { c_st : lst B; c_ops : gmap Z (gset Z); c_asleep : gset Z }.

(** Who is still asleep after a step. *)
Definition woken (s s' : lst B) (a : gset Z) : gset Z :=
  if decide (lg_wakes (ls_log s') = lg_wakes (ls_log s)) then a else ∅.

Inductive op_step : cst → cst → Prop :=
| op_begin t s s' m a :
    m !! t = None → t ∉ a → begin_op s = Ret () s' →
    op_step (mkCst s m a) (mkCst s' (<[t := ∅]> m) a)
| op_sleep t s m a :
    m !! t = None → t ∉ a → begin_op s = Sleep log_chan →
    op_step (mkCst s m a) (mkCst s m ({[t]} ∪ a))
| op_write t (D : gset Z) i bno b1 s s' m a :
    m !! t = Some D → buf_blockno i (ls_buf s) = Ret bno b1 →
    let D' := {[w32 (bno - MBR_BASE)]} ∪ D in
    Z.of_nat (size D') ≤ MAXOPBLOCKS → log_write i s = Ret () s' →
    op_step (mkCst s m a) (mkCst s' (<[t := D']> m) a)
| op_end t D c s s' m a :
    m !! t = Some D → end_op_locked s = Ret c s' →
    op_step (mkCst s m a) (mkCst s' (delete t m) (woken s s' a))
| op_commit s s' m a :
    lg_committing (ls_log s) = 1 → end_op_commit s = Ret () s' →
    op_step (mkCst s m a) (mkCst s' m (woken s s' a))
| op_buf s s' m a :
    ls_log s' = ls_log s → op_step (mkCst s m a) (mkCst s' m a).

(** Blocks that the running operations may still log. *)
Definition credit (D : gset Z) : Z := MAXOPBLOCKS - Z.of_nat (size D).
Definition reserved (m : gmap Z (gset Z)) : Z := map_fold (λ _ D r, credit D + r) 0 m.

(** [begin_op] cannot admit an operation. *)
Definition full (lg : log) : Prop :=
  lg_committing lg ≠ 0 ∨ LOGSIZE < lg_n lg + (lg_outstanding lg + 1) * MAXOPBLOCKS.

Record op_inv (c : cst) : Prop := {
  oi_n : 0 ≤ lg_n (ls_log (c_st c));
  oi_len : length (lg_block (ls_log (c_st c))) = Z.to_nat LOGSIZE;
  oi_out : lg_outstanding (ls_log (c_st c)) = Z.of_nat (size (c_ops c));
  oi_com : lg_committing (ls_log (c_st c)) = 0 ∨
           lg_committing (ls_log (c_st c)) = 1 ∧ c_ops c = ∅;
  oi_ten t D : c_ops c !! t = Some D → 0 ≤ credit D;
  oi_in t D b : c_ops c !! t = Some D → b ∈ D → b ∈ listed (ls_log (c_st c));
  oi_res : lg_n (ls_log (c_st c)) + reserved (c_ops c) ≤ LOGSIZE;
  oi_idle : c_ops c = ∅ → lg_committing (ls_log (c_st c)) = 0 → lg_n (ls_log (c_st c)) = 0;
  oi_asleep t : t ∈ c_asleep c → full (ls_log (c_st c));
}.

Lemma reserved_insert m t D : m !! t = None → reserved (<[t := D]> m) = credit D + reserved m.
Proof. intros Ht. unfold reserved. apply (map_fold_insert_L (λ (_ : Z) D r, credit D + r)); [intros; lia|done]. Qed.

Lemma reserved_delete m t D : m !! t = Some D → reserved m = credit D + reserved (delete t m).
Proof. intros Ht. unfold reserved. apply (map_fold_delete_L (λ (_ : Z) D r, credit D + r)); [intros; lia|done]. Qed.

Lemma reserved_bounds m :
  (∀ t D, m !! t = Some D → 0 ≤ credit D) → 0 ≤ reserved m ≤ MAXOPBLOCKS * Z.of_nat (size m).
Proof.
  induction m as [|t D m Ht IH] using map_ind; intros Hm; [done|].
  rewrite reserved_insert, map_size_insert_None by done.
  assert (0 ≤ reserved m ≤ MAXOPBLOCKS * Z.of_nat (size m)).
  { apply IH. intros t' D' HD'. apply (Hm t'). rewrite lookup_insert_ne; [done|].
    intros ->. congruence. }
  specialize (Hm t D (lookup_insert_eq _ _ _)). unfold credit in *. lia.
Qed.

(** One more block. *)
Lemma credit_add (b : Z) (D : gset Z) : credit ({[b]} ∪ D) = if decide (b ∈ D) then credit D else credit D - 1.
Proof.
  unfold credit. case_decide as Hb.
  - by replace ({[b]} ∪ D) with D by set_solver.
  - rewrite size_union, size_singleton by set_solver. lia.
Qed.

Lemma begin_op_spec (s : lst B) :
  full (ls_log s) ∧ begin_op s = Sleep log_chan ∨
  lg_committing (ls_log s) = 0 ∧
    lg_n (ls_log s) + (lg_outstanding (ls_log s) + 1) * MAXOPBLOCKS ≤ LOGSIZE ∧
    begin_op s = Ret () (mkLst (set_outstanding (ls_log s) (lg_outstanding (ls_log s) + 1)) (ls_buf s)).
Proof.
  unfold begin_op, full. rewrite (mbind_ret _ _ s _ s (eq_refl (get_log s))).
  destruct (Z.eqb_spec (lg_committing (ls_log s)) 0); cbn [negb]; [|left; split; [by left|done]].
  destruct (Z.ltb_spec LOGSIZE (lg_n (ls_log s) + (lg_outstanding (ls_log s) + 1) * MAXOPBLOCKS));
    [left; split; [by right|done]|by right].
Qed.
Lemma begin_op_full (s : lst B) : full (ls_log s) → begin_op s = Sleep log_chan.
Proof. intros Hf. destruct (begin_op_spec s) as [[_ ?]|(Hc & Hn & _)]; [done|]. destruct Hf; lia. Qed.

Lemma end_op_locked_spec (s : lst B) :
  lg_committing (ls_log s) = 0 →
  let lg := set_outstanding (ls_log s) (lg_outstanding (ls_log s) - 1) in
  end_op_locked s = if lg_outstanding (ls_log s) =? 1 then Ret true (mkLst (set_committing lg 1) (ls_buf s))
                    else Ret false (mkLst (log_woken lg) (ls_buf s)).
Proof.
  intros Hc lg. unfold end_op_locked. rewrite (mbind_ret _ _ s _ s (eq_refl (get_log s))).
  cbn [set_outstanding lg_committing lg_outstanding]. rewrite Hc. cbn [Z.eqb negb].
  destruct (Z.eqb_spec (lg_outstanding (ls_log s) - 1) 0), (Z.eqb_spec (lg_outstanding (ls_log s)) 1); [done|lia|lia|done].
Qed.

Lemma op_inv_begin t s s' m a :
  op_inv (mkCst s m a) → m !! t = None → begin_op s = Ret () s' →
  op_inv (mkCst s' (<[t := ∅]> m) a).
Proof.
  intros [Hn Hlen Ho Hc Ht Hin Hr Hid Ha] Hm Hb.
  destruct (begin_op_spec s) as [[_ Hs]|(Hc0 & Hle & Hs)]; rewrite Hs in Hb; [done|]. injection Hb as <-. cbn in *.
  pose proof (reserved_bounds m Ht). split; cbn; try done.
  - rewrite map_size_insert_None by done. lia.
  - by left.
  - intros t' D [[<- <-]|[_ Hk]]%lookup_insert_Some; [done|by eapply Ht].
  - intros t' D b [[<- <-]|[_ Hk]]%lookup_insert_Some; [by intros ?%elem_of_empty|by eapply Hin].
  - rewrite reserved_insert by done. unfold credit. rewrite size_empty. unfold LOGSIZE, MAXOPBLOCKS in *. lia.
  - intros Hem. by apply insert_non_empty in Hem.
  - intros t' [Hf|Hf]%Ha; [by left|]. right. cbn. unfold MAXOPBLOCKS in *. lia.
Qed.

Lemma op_inv_write t D i bno b1 s s' m a :
  op_inv (mkCst s m a) → m !! t = Some D → buf_blockno i (ls_buf s) = Ret bno b1 →
  let D' := {[w32 (bno - MBR_BASE)]} ∪ D in
  Z.of_nat (size D') ≤ MAXOPBLOCKS → log_write i s = Ret () s' →
  op_inv (mkCst s' (<[t := D']> m) a).
Proof.
  intros [Hn Hlen Ho Hc Ht Hin Hr Hid Ha] Hm Hb D' HD' Hw. cbn in *.
  destruct (log_write_lists _ _ _ Hn Hlen Hw) as (bno' & b1' & Hb' & Hlg & Hlen' & Hn' & Hls).
  rewrite Hb in Hb'. injection Hb' as <- <-. cbv zeta in *. set (b := w32 (bno - MBR_BASE)) in *.
  assert (lg_outstanding (ls_log s') = lg_outstanding (ls_log s) ∧
    lg_committing (ls_log s') = lg_committing (ls_log s)) as [Hout Hcom] by (by rewrite Hlg).
  pose proof (credit_add b D) as Hcr. fold D' in Hcr.
  assert (lg_n (ls_log s) ≤ lg_n (ls_log s')) as Hge by (rewrite Hn'; destruct (decide (b ∈ listed _)); lia).
  rewrite (reserved_delete _ _ _ Hm) in Hr. split; cbn.
  - lia.
  - congruence.
  - rewrite map_size_insert_Some by eauto. congruence.
  - rewrite Hcom. destruct Hc as [|[_ ->]]; [by left|]. by rewrite lookup_empty in Hm.
  - intros t' E [[<- <-]|[_ Hk]]%lookup_insert_Some; [unfold credit; lia|by eapply Ht].
  - intros t' E x [[<- <-]|[_ Hk]]%lookup_insert_Some Hx; apply Hls; [|right; by eapply Hin].
    apply elem_of_union in Hx as [->%elem_of_singleton|Hx]; [by left|right; by eapply Hin].
  - rewrite <-insert_delete_eq, reserved_insert by apply lookup_delete_eq. rewrite Hn'.
    destruct (decide (b ∈ D)) as [HbD|]; [rewrite decide_True by (by eapply Hin); lia|destruct (decide (b ∈ listed _)); lia].
  - intros Hem. by apply insert_non_empty in Hem.
  - intros t' [Hf|Hf]%Ha; [left; congruence|]. right. rewrite Hout. lia.
Qed.

Lemma op_inv_end t D c s s' m a :
  op_inv (mkCst s m a) → m !! t = Some D → end_op_locked s = Ret c s' →
  op_inv (mkCst s' (delete t m) (woken s s' a)).
Proof.
  intros [Hn Hlen Ho Hc Ht Hin Hr Hid Ha] Hm He. cbn in *.
  assert (lg_committing (ls_log s) = 0) as Hc0.
  { destruct Hc as [|[_ ->]]; [done|]. by rewrite lookup_empty in Hm. }
  rewrite (reserved_delete _ _ _ Hm) in Hr. pose proof (Ht t D Hm) as Hcr.
  assert (size m = S (size (delete t m))) as Hsz.
  { rewrite map_size_delete_Some by eauto.
    assert (size m ≠ 0%nat); [|lia]. rewrite map_size_ne_0_lookup. eauto. }
  rewrite end_op_locked_spec in He by done.
  destruct (Z.eqb_spec (lg_outstanding (ls_log s)) 1) as [H1|H1]; injection He as _ <-; split; cbn; try done; try lia.
  - right. split; [done|]. apply map_size_empty_inv. lia.
  - intros t' E [_ Hk]%lookup_delete_Some. by eapply Ht.
  - intros t' E b [_ Hk]%lookup_delete_Some. by eapply Hin.
  - intros t' _. left. done.
  - intros t' E [_ Hk]%lookup_delete_Some. by eapply Ht.
  - intros t' E b [_ Hk]%lookup_delete_Some. by eapply Hin.
  - intros Hem _. rewrite Hem, map_size_empty in Hsz. lia.
  - intros t'. unfold woken. cbn. rewrite decide_False by lia. by intros ?%elem_of_empty.
Qed.

Lemma op_inv_commit s s' m a :
  op_inv (mkCst s m a) → lg_committing (ls_log s) = 1 → end_op_commit s = Ret () s' →
  op_inv (mkCst s' m (woken s s' a)).
Proof.
  intros [Hn Hlen Ho Hc Ht Hin Hr Hid Ha] Hcm Hr1. cbn in *.
  destruct (end_op_commit_log _ _ Hn Hr1) as (Hn' & Hout & Hcom & Hbl & Hw & _).
  destruct Hc as [|[_ ->]]; [congruence|]. split; cbn; try done; try congruence.
  - by rewrite Hn'.
  - by left.
  - by rewrite Hn'.
  - intros t'. unfold woken. rewrite Hw, decide_False by lia. by intros ?%elem_of_empty.
Qed.

Lemma op_inv_step c c' : op_inv c → op_step c c' → op_inv c'.
Proof.
  intros Hi Hs. revert Hi.
  destruct Hs as [t s s' m a Hm Hta Hb|t s m a Hm Hta Hb|t D i bno b1 s s' m a Hm Hb D' HD' Hw|t D cm s s' m a Hm He
    |s s' m a Hcm Hco|s s' m a Hl]; intros Hi.
  - by apply (op_inv_begin t s).
  - destruct Hi as [Hn Hlen Ho Hc Ht Hin Hr Hid Ha]. split; try done. intros t'. cbn.
    destruct (begin_op_spec s) as [[Hf _]|(_ & _ & Hs)]; [done|]. rewrite Hs in Hb. discriminate.
  - by apply (op_inv_write t D i bno b1 s).
  - by apply (op_inv_end t D cm s).
  - by apply op_inv_commit.
  - destruct Hi as [Hn Hlen Ho Hc Ht Hin Hr Hid Ha]. cbn in *. by split; cbn; rewrite ?Hl.
Qed.

Lemma op_inv_reachable c c' : op_inv c → rtc op_step c c' → op_inv c'.
Proof. intros Hi Hr. induction Hr; [done|]. eauto using op_inv_step. Qed.
End Concurrent.
Arguments cst B : clear implicits.

(** ** Running a schedule of operations *)

Section Schedule.
Context {B : Type} `{!BufOps B}.

Inductive act := ABegin (t : Z) | AWrite (t i : Z) | AEnd (t : Z) | ACommit.

Definition run_act (x : act) (c : cst B) : option (cst B) :=
  let '(mkCst s m a) := c in
  match x with
  | ABegin t =>
    if decide (t ∈ a) then None
    else
      match m !! t, begin_op s with
      | None, Ret () s' => Some (mkCst s' (<[t := ∅]> m) a)
      | None, Sleep ch => if decide (ch = log_chan) then Some (mkCst s m ({[t]} ∪ a)) else None
      | _, _ => None
      end
  | AWrite t i =>
    match m !! t, buf_blockno i (ls_buf s), log_write i s with
    | Some D, Ret bno _, Ret () s' =>
      let D' := {[w32 (bno - MBR_BASE)]} ∪ D in
      if decide (Z.of_nat (size D') ≤ MAXOPBLOCKS) then Some (mkCst s' (<[t := D']> m) a) else None
    | _, _, _ => None
    end
  | AEnd t =>
    match m !! t, end_op_locked s with
    | Some _, Ret _ s' => Some (mkCst s' (delete t m) (woken s s' a))
    | _, _ => None
    end
  | ACommit =>
    if lg_committing (ls_log s) =? 1 then
      match end_op_commit s with
      | Ret () s' => Some (mkCst s' m (woken s s' a))
      | _ => None
      end
    else None
  end.

Fixpoint run_acts (l : list act) (c : cst B) : option (cst B) :=
  match l with
  | [] => Some c
  | x :: l => c' ← run_act x c; run_acts l c'
  end.

Lemma run_act_step x c c' : run_act x c = Some c' → op_step c c'.
Proof.
  destruct c as [s m a], x as [t|t i|t|]; cbn.
  - destruct (decide (t ∈ a)) as [|Ha]; [done|]. destruct (m !! t) eqn:Hm; [done|].
    destruct (begin_op s) as [[] s'| |ch| |] eqn:Hb; try done; [intros [= <-]; by apply op_begin|].
    destruct (decide (ch = log_chan)) as [->|]; [|done]. intros [= <-]. by apply op_sleep.
  - destruct (m !! t) as [D|] eqn:Hm; [|done]. destruct (buf_blockno i (ls_buf s)) as [bno b1| | | |] eqn:Hb; try done.
    destruct (log_write i s) as [[] s'| | | |] eqn:Hw; try done.
    case_decide; [|done]. intros [= <-]. by eapply op_write.
  - destruct (m !! t) as [k|] eqn:Hm; try done.
    destruct (end_op_locked s) as [b s'| | | |] eqn:Hb; try done.
    intros [= <-]. by eapply op_end.
  - destruct (Z.eqb_spec (lg_committing (ls_log s)) 1); [|done].
    destruct (end_op_commit s) as [[] s'| | | |] eqn:Hb; try done.
    intros [= <-]. by apply op_commit.
Qed.

Lemma run_acts_rtc l c c' : run_acts l c = Some c' → rtc op_step c c'.
Proof.
  revert c. induction l as [|x l IH]; intros c; cbn; [intros [= ->]; constructor|].
  destruct (run_act x c) as [c1|] eqn:Hx; [|done]. intros Hr.
  eapply rtc_l; [by eapply run_act_step|]. by apply IH.
Qed.
End Schedule.

(** ** The theorems *)

Section Theorems.
Context {B : Type} `{!BufOps B}.

(** No operation is running, nobody waits and the log is empty. *)
Definition idle (c : cst B) : Prop :=
  lg_n (ls_log (c_st c)) = 0 ∧ lg_outstanding (ls_log (c_st c)) = 0 ∧
  lg_committing (ls_log (c_st c)) = 0 ∧ length (lg_block (ls_log (c_st c))) = Z.to_nat LOGSIZE ∧
  c_ops c = ∅ ∧ c_asleep c = ∅.

Lemma idle_reachable c c' : idle c → rtc op_step c c' → op_inv c'.
Proof.
  intros (Hn & Ho & Hc & Hl & Hm & Ha). apply op_inv_reachable.
  split; rewrite ?Hn, ?Ho, ?Hc, ?Hm, ?Ha; try done; by left.
Qed.

(** C5: the reservations of [begin_op] suffice.  In any interleaving of
    operations that each log at most [MAXOPBLOCKS] different blocks, each as
    often as it likes, started on an idle log of more than [LOGSIZE] blocks: an
    operation that has logged fewer than [MAXOPBLOCKS] different blocks can call
    [log_write] for any block without its panic, a block that it has logged
    before takes no further slot (absorption), and [end_op] never finds a commit
    in progress. *)
Theorem reservations_suffice c c' t D :
  idle c → rtc op_step c c' → LOGSIZE < lg_size (ls_log (c_st c')) →
  c_ops c' !! t = Some D →
  (∃ b s', end_op_locked (c_st c') = Ret b s') ∧
  ∀ i bno b1 b2, Z.of_nat (size D) < MAXOPBLOCKS →
    buf_blockno i (ls_buf (c_st c')) = Ret bno b1 → buf_set_dirty i b1 = Ret () b2 →
    ∃ s', log_write i (c_st c') = Ret () s' ∧
      (w32 (bno - MBR_BASE) ∈ D → lg_n (ls_log s') = lg_n (ls_log (c_st c'))).
Proof.
  intros Hi Hr Hsz Ht. destruct (idle_reachable _ _ Hi Hr) as [Hn Hlen Ho Hc Hten Hin Hres _ _].
  destruct c' as [s m a]. cbn in *. assert (lg_committing (ls_log s) = 0) as Hc0.
  { destruct Hc as [|[_ ->]]; [done|]. by rewrite lookup_empty in Ht. }
  split.
  - rewrite end_op_locked_spec by done. destruct (_ =? 1); by eexists _, _.
  - intros i bno b1 b2 Hk Hb Hd. rewrite (reserved_delete _ _ _ Ht) in Hres. unfold credit in Hres.
    pose proof (reserved_bounds (delete t m) (λ t' E Hl, Hten t' E (proj2 (proj1 (lookup_delete_Some _ _ _ _) Hl)))).
    assert (∃ s', log_write i s = Ret () s') as [s' Hw].
    { unfold log_write. setoid_rewrite (mbind_ret _ _ s _ s (eq_refl (get_log s))).
      destruct (Z.leb_spec LOGSIZE (lg_n (ls_log s))); [lia|].
      destruct (Z.leb_spec (lg_size (ls_log s) - 1) (lg_n (ls_log s))); [lia|]. cbn [orb].
      eexists. mstep (lift_ret (buf_blockno i) s _ _ Hb). cbv zeta.
      erewrite mbind_ret; [|reflexivity]. apply lift_ret. exact Hd. }
    exists s'. split; [exact Hw|]. intros HbD.
    destruct (log_write_lists _ _ _ Hn Hlen Hw) as (bno' & b1' & Hb' & _ & _ & Hn' & _).
    rewrite Hb in Hb'. injection Hb' as <- <-. by rewrite Hn', decide_True by (by eapply Hin).
Qed.

(** C6: who waits in [begin_op] is woken up.  In any interleaving from an idle
    log, a thread that sleeps in [begin_op] could not begin its operation now
    either, so that no wakeup has been lost; an operation is running or a commit
    is in progress; every running operation can end, and its [end_op] wakes up
    all sleepers, at once when other operations remain and otherwise after the
    commit; and after a commit [begin_op] succeeds. *)
Theorem begin_op_progress c c' t :
  idle c → rtc op_step c c' → t ∈ c_asleep c' →
  let s := c_st c' in
  begin_op s = Sleep log_chan ∧
  (lg_committing (ls_log s) = 1 ∨ ∃ t' D, c_ops c' !! t' = Some D) ∧
  (lg_committing (ls_log s) = 1 → ∀ s', end_op_commit s = Ret () s' →
    woken s s' (c_asleep c') = ∅ ∧ ∃ s2, begin_op s' = Ret () s2) ∧
  (∀ t' D, c_ops c' !! t' = Some D → ∃ do_commit s1, end_op_locked s = Ret do_commit s1 ∧
    if do_commit : bool then
      delete t' (c_ops c') = ∅ ∧ lg_committing (ls_log s1) = 1 ∧
      ∀ s', end_op_commit s1 = Ret () s' → woken s1 s' (c_asleep c') = ∅ ∧ ∃ s2, begin_op s' = Ret () s2
    else woken s s1 (c_asleep c') = ∅).
Proof.
  intros Hi Hr Hta s. pose proof (idle_reachable _ _ Hi Hr) as Hinv.
  destruct Hinv as [Hn Hlen Ho Hc Hten Hin Hres Hid Ha].
  destruct c' as [s0 m a]. cbn in *. subst s. pose proof (Ha t Hta) as Hfull.
  assert (∀ s1 : lst B, lg_n (ls_log s1) = lg_n (ls_log s0) → lg_outstanding (ls_log s1) = 0 →
    ∀ s', end_op_commit s1 = Ret () s' → woken s1 s' a = ∅ ∧ ∃ s2, begin_op s' = Ret () s2) as Hcommit.
  { intros s1 Hn1 Ho1 s' Hr1. destruct (end_op_commit_log s1 s' ltac:(lia) Hr1) as (Hn' & Ho' & Hc' & _ & Hw & _).
    split; [unfold woken; by rewrite decide_False by lia|].
    destruct (begin_op_spec s') as [[[Hf|Hf] _]|(_ & _ & Hb)]; [by rewrite Hc' in Hf| |by eexists].
    rewrite Hn', Ho', Ho1 in Hf. unfold LOGSIZE, MAXOPBLOCKS in Hf. lia. }
  split; [by apply begin_op_full|]. split; [|split].
  - destruct Hc as [Hc|[Hc _]]; [right|by left]. destruct (map_choose m) as (t' & D & Hk); [|by eauto]. intros Hm.
    destruct Hfull as [|Hf]; [done|]. rewrite (Hid Hm Hc), Ho, Hm, map_size_empty in Hf.
    unfold LOGSIZE, MAXOPBLOCKS in Hf. lia.
  - intros Hc1. apply Hcommit; [done|]. destruct Hc as [|[_ ->]]; [congruence|exact Ho].
  - intros t' D Ht'. assert (lg_committing (ls_log s0) = 0) as Hc0.
    { destruct Hc as [|[_ ->]]; [done|]. by rewrite lookup_empty in Ht'. }
    rewrite end_op_locked_spec by done. destruct (Z.eqb_spec (lg_outstanding (ls_log s0)) 1) as [H1|H1]; eexists _, _;
      (split; [reflexivity|]).
    + split; [|split; [done|apply Hcommit; [done|cbn; lia]]]. apply map_size_empty_inv.
      rewrite map_size_delete_Some by eauto. lia.
    + unfold woken. cbn. by rewrite decide_False by lia.
Qed.
End Theorems.

(** ** A log as mkfs makes it *)

(** A cache that only tells block numbers: buffer [i] holds block [i]. *)
#[local] Instance unit_ops : BufOps () := {
  bread _ b := mret b; bwrite _ := mret (); brelse _ := mret (); buf_data _ := mret [];
  buf_set_data _ _ := mret (); buf_blockno i := mret (i + MBR_BASE); buf_set_dirty _ := mret ();
}.

Definition example_cst (size : Z) : cst () :=
  mkCst (mkLst (mkLog 2 size 0 0 ROOTDEV 0 (replicate (Z.to_nat LOGSIZE) 0) 0) ()) ∅ ∅.

(** Three operations of ten blocks each, the last block excepted. *)
Definition example_acts : list act :=
  [ABegin 1; ABegin 2; ABegin 3] ++
  map (λ n, AWrite (1 + n / 10) (100 + n)) (seqZ 0 29).

Lemma example_idle size : idle (example_cst size).
Proof. done. Qed.
(** What is reached by a schedule. *)
Lemma acts_reach l (c : cst ()) : match run_acts l c with Some c' => rtc op_step c c' | None => True end.
Proof. destruct (run_acts l c) eqn:Hr; [by eapply run_acts_rtc|done]. Qed.

(** C7: the reservations do not suffice for the log that mkfs makes.
    user/src/mkfs gives the log [LOGSIZE] blocks, the header among them, and
    [begin_op] admits three operations at once; when each logs the
    [MAXOPBLOCKS] distinct blocks it may log, the last call of [log_write]
    panics although its operation has a block left. *)
Theorem mkfs_log_too_small :
  ∃ (c c' : cst ()) D, idle c ∧ lg_size (ls_log (c_st c)) = LOGSIZE ∧ rtc op_step c c' ∧
    c_ops c' !! 3 = Some D ∧ Z.of_nat (size D) = MAXOPBLOCKS - 1 ∧
    ∀ i, log_write i (c_st c') = Panic "log_write: too big a transaction".
Proof.
  pose proof (acts_reach example_acts (example_cst LOGSIZE)) as Hs.
  destruct (run_acts example_acts (example_cst LOGSIZE)) as [c'|] eqn:Hr; [|vm_compute in Hr; discriminate].
  assert (∃ D, c_ops c' !! 3 = Some D ∧ Z.of_nat (size D) = MAXOPBLOCKS - 1) as (D & HD & HDs).
  { vm_compute in Hr. injection Hr as <-. eexists. split; vm_compute; reflexivity. }
  exists (example_cst LOGSIZE), c', D. split; [apply example_idle|]. split; [reflexivity|]. split; [exact Hs|].
  split; [exact HD|]. split; [exact HDs|]. intros i. apply log_write_panics. right.
  vm_compute in Hr. injection Hr as <-. vm_compute. discriminate.
Qed.

(** The test for a full log comes before the search of the list: three
    operations that have logged all their blocks cannot write one of them once
    more, whatever the size of the log. *)
Lemma full_log_rewrite_panics :
  ∃ (c c' : cst ()) D, idle c ∧ lg_size (ls_log (c_st c)) = 40 ∧ rtc op_step c c' ∧
    c_ops c' !! 3 = Some D ∧ 129 ∈ D ∧ log_write 129 (c_st c') = Panic "log_write: too big a transaction".
Proof.
  set (l := example_acts ++ [AWrite 3 129]). pose proof (acts_reach l (example_cst 40)) as Hs.
  destruct (run_acts l (example_cst 40)) as [c'|] eqn:Hr; [|vm_compute in Hr; discriminate].
  assert (∃ D, c_ops c' !! 3 = Some D ∧ bool_decide (129 ∈ D) = true) as (D & HD & HDs).
  { vm_compute in Hr. injection Hr as <-. eexists. split; vm_compute; reflexivity. }
  exists (example_cst 40), c', D. split; [apply example_idle|]. split; [reflexivity|]. split; [exact Hs|].
  split; [exact HD|]. split; [by apply bool_decide_eq_true in HDs|]. apply log_write_panics. left.
  vm_compute in Hr. injection Hr as <-. vm_compute. discriminate.
Qed.

(** Operation 3 writes its first block twelve times, and then another time. *)
Lemma reservations_suffice_witness :
  ∃ c' D, rtc op_step (example_cst 40) c' ∧ c_ops c' !! 3 = Some D ∧ 120 ∈ D ∧
    ∃ s', log_write 120 (c_st c') = Ret () s' ∧ lg_n (ls_log s') = lg_n (ls_log (c_st c')).
Proof.
  set (l := example_acts ++ replicate 12 (AWrite 3 120)).
  pose proof (acts_reach l (example_cst 40)) as Hs.
  destruct (run_acts l (example_cst 40)) as [c'|] eqn:Hr; [|vm_compute in Hr; discriminate].
  vm_compute in Hr. injection Hr as <-.
  match type of Hs with rtc _ _ ?c => assert (∃ D, c_ops c !! 3 = Some D ∧ bool_decide (120 ∈ D) = true ∧
    bool_decide (Z.of_nat (size D) < MAXOPBLOCKS) = true) as (D & HD & HDin & HDs)
      by (eexists; split; [vm_compute; reflexivity|split; vm_compute; reflexivity]) end.
  apply bool_decide_eq_true in HDin, HDs.
  destruct (proj2 (reservations_suffice (example_cst 40) _ 3 D (example_idle 40) Hs
    ltac:(vm_compute; reflexivity) HD) 120 (120 + MBR_BASE) () () HDs eq_refl eq_refl) as (s' & Hw & Hn).
  eexists _, D. split; [exact Hs|]. split; [exact HD|]. split; [exact HDin|]. exists s'. split; [exact Hw|].
  apply Hn. exact HDin.
Defined.

(** A fourth operation waits; the end of the first wakes it up. *)
Lemma begin_op_progress_witness :
  ∃ c', rtc op_step (example_cst 40) c' ∧ 4 ∈ c_asleep c' ∧
    begin_op (c_st c') = Sleep log_chan ∧
    ∃ do_commit s1, end_op_locked (c_st c') = Ret do_commit s1 ∧ do_commit = false ∧
      woken (c_st c') s1 (c_asleep c') = ∅.
Proof.
  set (l := example_acts ++ [ABegin 4]). pose proof (acts_reach l (example_cst 40)) as Hs.
  destruct (run_acts l (example_cst 40)) as [c'|] eqn:Hr; [|vm_compute in Hr; discriminate].
  vm_compute in Hr. injection Hr as <-.
  match type of Hs with rtc _ _ ?c => assert (bool_decide (4 ∈ c_asleep c) = true) as Ha by (vm_compute; reflexivity);
    assert (∃ D, c_ops c !! 1 = Some D) as (D & HD) by (eexists; vm_compute; reflexivity) end.
  apply bool_decide_eq_true in Ha.
  destruct (begin_op_progress (example_cst 40) _ 4 (example_idle 40) Hs Ha) as (Hsl & _ & _ & Hend).
  destruct (Hend 1 D HD) as (do_commit & s1 & Hrun & Hw).
  eexists. split; [exact Hs|]. split; [exact Ha|]. split; [exact Hsl|]. exists do_commit, s1. split; [exact Hrun|].
  vm_compute in Hrun. injection Hrun as <- _. split; [reflexivity|exact Hw].
Defined.

Section LogWrite.
Context {B : Type} `{BufferCache B}.

(** [log_write] of a held buffer.  It pins the block with the contents
    of the buffer, and lists it once however often it is written
    (absorption); when the log has no room left it panics, even for a block
    already listed. *)
Theorem log_write_correct (s : lst B) a bs b e i :
  log_inv s a bs → home (ls_log s) b → a_ent a !! b = Some e → e_held e = Some i →
  let n := Z.of_nat (length bs) in
  if (LOGSIZE <=? n) || (lg_size (ls_log s) - 1 <=? n)
  then log_write i s = Panic "log_write: too big a transaction"
  else ∃ s', log_write i s = Ret () s' ∧
    log_inv s' (a_set a b (Ent (e_data e) true (Some i)))
            (if decide (b ∈ bs) then bs else bs ++ [b]).
Proof.
  intros Hi Hb He Hh n. pose proof (lo_n _ _ (li_log _ _ _ Hi)) as Hn.
  destruct (Z.leb_spec LOGSIZE n); cbn [orb]; [apply log_write_panics; lia|].
  destruct (Z.leb_spec (lg_size (ls_log s) - 1) n); [apply log_write_panics; lia|].
  by apply (log_write_ok s a bs b e i).
Qed.
End LogWrite.
