(* ===== verification/LogSpec.v ===== *)
(** What the log promises its clients: a system call that ends the last
    outstanding operation makes all logged blocks durable or none, whatever
    the moment of a crash and however often the recovery itself crashes. *)

From S2P Require Import Prelude BufferCache Superblock Log LogCrash LogOps.

Section Spec.
Context {B : Type} `{BufferCache B}.
Implicit Types (s : lst B) (a : abs) (bs : list Z).

(** The last outstanding operation is about to end: the log lists the
    blocks [bs], all pinned, no process holds a buffer, one buffer can be
    recycled, and the header on disk is empty. *)
Record ending (s : lst B) (a : abs) (bs : list Z) : Prop := {
  en_inv : log_inv s a bs;
  en_out : lg_outstanding (ls_log s) = 1;
  en_com : lg_committing (ls_log s) = 0;
  en_quiet b e : a_ent a !! b = Some e → e_dirty e = true ∧ e_held e = None;
  en_size : Z.of_nat (size (a_ent a)) < NBUF;
  en_geom : geom (a_disk a) (lg_start (ls_log s)) (lg_size (ls_log s));
  en_sb : 1 ∉ bs;
  en_hdr : get32 (a_disk a (lg_start (ls_log s))) 0 = 0;
}.

(** The home blocks of a disk have the contents [t]. *)
Definition contents (lg : log) (t d : Z → block) : Prop :=
  ∀ b, home_blk (lg_start lg) (lg_size lg) b → d b = t b.

Lemma ending_commit_pre s a bs lg :
  ending s a bs →
  lg = set_committing (set_outstanding (ls_log s) 0) 1 →
  commit_pre (mkLst lg (ls_buf s)) a bs.
Proof.
  intros [[Hok Hnd Hhome Hrel Hfree Hd] _ _ Hq Hsz _ _ _] ->. split; try done.
  - destruct Hok. by split.
  - intros b (e & He & Hdi)%Hd. destruct (Hq b e He) as [_ Hh].
    exists (e_data e). rewrite He. destruct e; cbn in *; by subst.
Qed.

Lemma ending_view s a bs b :
  ending s a bs → apply_writes (a_disk a) (zip bs (map (view a) bs)) b = view a b.
Proof.
  intros He. assert (length bs = length (map (view a) bs)) as Hl by by rewrite length_map.
  destruct (decide (b ∈ bs)) as [Hin|Hin].
  - apply apply_writes_in; [rewrite zip_fst by done; apply (en_inv _ _ _ He)|].
    apply list_elem_of_lookup in Hin as [i Hi]. apply list_elem_of_lookup. exists i.
    apply lookup_zip_Some. split; [done|]. by rewrite list_lookup_fmap, Hi.
  - rewrite apply_writes_ne by by rewrite zip_fst.
    unfold view. destruct (a_ent a !! b) as [e|] eqn:Hb; [|done]. destruct Hin.
    apply (en_inv _ _ _ He). exists e. split; [done|]. by eapply en_quiet.
Qed.

Lemma ending_lists s a bs :
  ending s a bs → let lg := ls_log s in
  log_list (lg_start lg) (lg_size lg) bs ∧
  phase_clean (lg_start lg) (lg_size lg) (a_disk a) (a_disk a) ∧
  Z.of_nat (length bs) ≤ LOGSIZE.
Proof.
  intros [[Hok Hnd Hhome Hrel Hfree Hd] _ _ Hq Hsz Hg Hsb Hh] lg. split; [|split].
  - split; [done|exact Hhome|done|]. apply Hok.
  - split; [done|]. split; [|done]. split; [|done].
    eapply bc_disk_ok; [done|]. apply Hg.
  - by eapply log_ok_le.
Qed.

(** The writes of the commit that [end_op] starts. *)
Definition end_op_writes (lg : log) (a : abs) (bs : list Z) : list (Z * block) :=
  match bs with
  | [] => []
  | _ => commit_writes (lg_start lg) (a_disk a (lg_start lg)) bs (map (view a) bs)
  end.

Lemma foldr_delete_quiet s a bs :
  ending s a bs → foldr delete (a_ent a) bs = ∅.
Proof.
  intros He. apply map_eq. intros b. rewrite foldr_delete_lookup, lookup_empty.
  case_decide as Hin; [done|]. destruct (a_ent a !! b) as [e|] eqn:Hb; [|done].
  destruct Hin. apply (en_inv _ _ _ He). exists e. split; [done|]. by eapply en_quiet.
Qed.

Lemma end_op_spec s a bs :
  ending s a bs → let lg := ls_log s in
  ∃ s', end_op s = Ret () s' ∧
    ls_log s' = set_lh (log_woken (set_committing (set_outstanding lg 0) 0)) 0 (lg_block lg) ∧
    bc_rel (ls_buf s') (wrote a (end_op_writes lg a bs) ∅).
Proof.
  intros He lg. pose proof (ending_commit_pre s a bs _ He eq_refl) as Hpre.
  set (lg1 := set_committing _ _) in Hpre.
  assert (∀ k : bool → M (lst B) (), mbind k end_op_locked s =
    k true (mkLst lg1 (ls_buf s))) as Hlk.
  { intros k. apply mbind_ret. unfold end_op_locked. mstep (eq_refl (get_log s)).
    cbn. rewrite (en_com _ _ _ He), (en_out _ _ _ He). done. }
  unfold end_op. rewrite Hlk. unfold end_op_commit. destruct bs as [|b bs].
  - exists (mkLst (log_woken (set_committing lg1 0)) (ls_buf s)). destruct Hpre as [[_ Hn] _ _ Hrel _ _ _].
    assert (commit (mkLst lg1 (ls_buf s)) = Ret () (mkLst lg1 (ls_buf s))) as Hc.
    { unfold commit. mstep (eq_refl (get_log (mkLst lg1 (ls_buf s)))). by rewrite Hn. }
    cbn [length Z.of_nat lg1 lg_n set_committing set_outstanding ls_log] in Hn. split; [|split].
    + mstep Hc. done.
    + unfold lg1, set_lh, log_woken, set_committing, set_outstanding. cbn. by rewrite Hn.
    + cbn. rewrite <-(foldr_delete_quiet _ _ _ He). cbn. by rewrite wrote_nil.
  - destruct (commit_spec _ _ _ Hpre) as (s1 & Hs1 & Hl1 & Hrel1); [done|].
    eexists (mkLst _ (ls_buf s1)). split; [|split; [reflexivity|]].
    + mstep Hs1. mstep (eq_refl (get_log s1)). rewrite Hl1. reflexivity.
    + cbn [ls_buf]. by rewrite (foldr_delete_quiet _ _ _ He) in Hrel1.
Qed.

Lemma end_op_wrote s a bs s' :
  ending s a bs → end_op s = Ret () s' →
  drop (length (bc_writes (ls_buf s))) (bc_writes (ls_buf s')) = end_op_writes (ls_log s) a bs.
Proof.
  intros He Hend. destruct (end_op_spec _ _ _ He) as (s1 & Hs1 & _ & Hrel).
  rewrite Hend in Hs1. injection Hs1 as <-.
  rewrite (bc_writes_rel _ _ Hrel), (bc_writes_rel _ _ (li_rel _ _ _ (en_inv _ _ _ He))).
  apply drop_app_length.
Qed.

(** Every prefix of the writes of [end_op] is a prefix of a commit. *)
Lemma end_op_prefix s a bs k :
  ending s a bs → let lg := ls_log s in
  crashed (lg_start lg) (lg_size lg) bs (map (view a) bs) (a_disk a)
    (apply_writes (a_disk a) (take k (end_op_writes lg a bs))).
Proof.
  intros He lg. destruct (ending_lists _ _ _ He) as (Hll & Hc & Hcap).
  destruct bs as [|b bs].
  - cbn. rewrite take_nil. by left.
  - apply commit_prefix; [done|by rewrite length_map|done|done].
Qed.

Lemma atomic_contents s a bs d :
  ending s a bs → let lg := ls_log s in
  atomic (lg_start lg) (lg_size lg) bs (map (view a) bs) (a_disk a) d →
  contents lg (a_disk a) d ∨ contents lg (view a) d.
Proof.
  intros He lg [Hd|Hd]; [by left|]. right. intros b Hb. rewrite Hd by done.
  by eapply ending_view.
Qed.

(** Recovery from the disk of a commit that was cut after [n] writes, with an
    empty cache. *)
Lemma recovers_after_crash s a bs n b :
  ending s a bs → let lg := ls_log s in
  let d := apply_writes (a_disk a) (take n (end_op_writes lg a bs)) in
  bc_rel b (Abs d [] ∅) →
  d 1 = a_disk a 1 ∧
  ∃ s2 a2, initlog ROOTDEV (mkLst log0 b) = Ret () s2 ∧
    lg_start (ls_log s2) = lg_start lg ∧ lg_size (ls_log s2) = lg_size lg ∧ same_counts (mkLst log0 b) s2 ∧
    log_inv s2 a2 [] ∧ a_ent a2 = ∅ ∧ geom (a_disk a2) (lg_start lg) (lg_size lg) ∧
    header_is (a_disk a2 (lg_start lg)) [] ∧
    (contents lg (a_disk a) (a_disk a2) ∨ contents lg (view a) (a_disk a2)).
Proof.
  intros He lg d Hb. destruct (ending_lists _ _ _ He) as (Hll & Hc & Hcap).
  pose proof (end_op_prefix s a bs n He) as Hcr. cbv zeta in Hcr. fold lg d in Hcr.
  split; [eapply crashed_sb; [exact (eq_sym (length_map (view a) bs))|exact Hcr|apply He]|].
  edestruct (crashed_recovers _ _ _ _ (a_disk a) Hll (eq_sym (length_map (view a) bs)) Hcap) as (s2 & Hs2 & Hr & _);
    [exact Hcr|exact Hb|].
  assert (∃ t, recovered (lg_start lg) (lg_size lg) t s2 ∧
    (t = a_disk a ∨ t = LogCrash.new bs (map (view a) bs) (a_disk a)))
    as (t & (Hok & Hst & Hsi & a2 & Hrel2 & He2 & Hg2 & Hh2 & Ht) & Hold).
  { destruct Hr as [Hr|Hr]; eexists; split; [exact Hr|auto|exact Hr|auto]. }
  exists s2, a2. repeat (split; [done|]). split; [exact (initlog_counts ROOTDEV _ _ _ Hs2)|].
  split; [|repeat (split; [done|])].
  - split; try done; [apply NoDup_nil_2|intros q _; by rewrite He2|].
    intros q. rewrite He2. split; [set_solver|]. by intros (e & He3 & _).
  - destruct Hold as [->| ->]; [by left|right]. intros q Hq. rewrite Ht by done.
    by eapply ending_view.
Qed.
End Spec.

Section Theorems.
Context {B : Type} `{BufferCache B}.
Implicit Types (s : lst B) (a : abs) (bs : list Z).

(** C1: crash atomicity.  [end_op] of the last outstanding operation
    returns; if the machine stops after any number [k] of the sector writes
    it issued and the recovery is then run to completion, itself interrupted
    and restarted any number of times, then the blocks of the file system
    are all as before the operations, or all as the operations left them
    (what a reader of the cache saw). *)
Theorem end_op_crash_atomic s a bs :
  ending s a bs →
  ∃ s' W, end_op s = Ret () s' ∧ bc_writes (ls_buf s') = bc_writes (ls_buf s) ++ W ∧
    ∀ k d', reboots (B := B) (apply_writes (a_disk a) (take k W)) d' →
      contents (ls_log s) (a_disk a) d' ∨ contents (ls_log s) (view a) d'.
Proof.
  intros He. destruct (end_op_spec _ _ _ He) as (s' & Hs' & _ & Hrel).
  exists s', (end_op_writes (ls_log s) a bs). split; [done|]. split.
  - rewrite (bc_writes_rel _ _ Hrel), (bc_writes_rel _ _ (li_rel _ _ _ (en_inv _ _ _ He))). done.
  - intros k d' Hr. destruct (ending_lists _ _ _ He) as (Hll & Hc & Hcap).
    eapply atomic_contents; [done|]. eapply crashed_reboots; [..|exact Hr];
      [done|by rewrite length_map|done|by apply end_op_prefix].
Qed.

(** C2: recovery succeeds.  Booted on the disk of a commit that was cut
    after any number of writes, [initlog] neither panics nor diverges; it
    leaves an empty log and an empty cache, with the file system before or
    after the operations. *)
Theorem recovery_completes s a bs k b s' :
  ending s a bs → end_op s = Ret () s' →
  bc_boot b (apply_writes (a_disk a)
    (take k (drop (length (bc_writes (ls_buf s))) (bc_writes (ls_buf s'))))) →
  let lg := ls_log s in
  ∃ s2 a2, initlog ROOTDEV (mkLst log0 b) = Ret () s2 ∧
    lg_start (ls_log s2) = lg_start lg ∧ lg_size (ls_log s2) = lg_size lg ∧
    log_inv s2 a2 [] ∧ a_ent a2 = ∅ ∧ header_is (a_disk a2 (lg_start lg)) [] ∧
    (contents lg (a_disk a) (a_disk a2) ∨ contents lg (view a) (a_disk a2)).
Proof.
  intros He Hend Hb lg. rewrite (end_op_wrote s a bs s' He Hend) in Hb.
  destruct (recovers_after_crash s a bs k b He (bc_boot_rel _ _ Hb)) as (_ & s2 & a2 & Hs2 & Hst & Hsi & _ & Hi & Hn & _ & Hr).
  by exists s2, a2.
Qed.

(** The state after the last [end_op]. *)
Lemma end_op_done s a bs :
  ending s a bs → let lg := ls_log s in
  ∃ s' a', end_op s = Ret () s' ∧ log_inv s' a' [] ∧ a_ent a' = ∅ ∧
    contents lg (view a) (a_disk a') ∧ contents lg (view a) (view a') ∧
    geom (a_disk a') (lg_start lg) (lg_size lg) ∧
    header_is (a_disk a' (lg_start lg)) [] ∧
    lg_outstanding (ls_log s') = 0 ∧ lg_committing (ls_log s') = 0.
Proof.
  intros He lg. destruct (end_op_spec _ _ _ He) as (s' & Hs' & Hl & Hrel).
  destruct (ending_lists _ _ _ He) as (Hll & Hc & Hcap).
  assert (phase_clean (lg_start lg) (lg_size lg) (view a)
    (apply_writes (a_disk a) (end_op_writes lg a bs))) as (Hg & Hh & Ht).
  { destruct bs as [|b bs].
    - destruct Hc as (Hg & Hh & _). split; [done|]. split; [done|]. intros q _. cbn.
      apply (ending_view _ _ _ q He).
    - edestruct (commit_all _ _ _ _ (a_disk a) Hll (eq_sym (length_map (view a) (b :: bs))) Hcap) as (Hg & Hh & Ht);
        [exact Hc|]. split; [done|]. split; [done|]. intros q Hq. cbn [end_op_writes].
      rewrite Ht by done. by apply (ending_view _ _ _ q He). }
  assert (log_ok (ls_log s') []) as Hok.
  { rewrite Hl. apply (set_lh_nil (log_woken (set_committing (set_outstanding (ls_log s) 0) 0)) bs). destruct (li_log _ _ _ (en_inv _ _ _ He)). by split. }
  exists s', (wrote a (end_op_writes lg a bs) ∅). split; [done|].
  rewrite Hl. cbn [lg_outstanding lg_committing set_lh log_woken set_committing set_outstanding].
  split; [|by do 6 (split; [done|])].
  split; try done; [apply NoDup_nil_2|].
  intros q. split; [set_solver|]. by intros (e & ? & _).
Qed.

(** C3: durability.  When [end_op] returns, the disk holds what readers
    saw, no buffer is pinned any more, and the log is empty again in memory
    and on disk, so that the next operations can begin. *)
Theorem end_op_durable s a bs :
  ending s a bs → let lg := ls_log s in
  ∃ s' a', end_op s = Ret () s' ∧ log_inv s' a' [] ∧ a_ent a' = ∅ ∧
    contents lg (view a) (a_disk a') ∧ contents lg (view a) (view a') ∧
    geom (a_disk a') (lg_start lg) (lg_size lg) ∧
    header_is (a_disk a' (lg_start lg)) [] ∧
    lg_outstanding (ls_log s') = 0 ∧ lg_committing (ls_log s') = 0.
Proof. exact (end_op_done s a bs). Qed.
End Theorems.
