(* ===== verification/Ramdisk.v ===== *)
(** A disk in memory: a concrete device that satisfies the interface of
    kern/sd.c (class [BlockDev]) and a freshly made file system image on it.
    The theorems about the log are evaluated on it. *)

From S2P Require Import Prelude BufferCache Sleeplock Dlist Bio Superblock Log LogCrash LogOps LogSpec.

Record ramdisk := mkRd { rd_sector : Z → block; rd_writes : list (Z * block) }.

Definition rd_sdrw (flags bno : Z) (data : block) : M ramdisk (Z * block) := λ d,
  let flags' := Z.land (Z.lor flags B_VALID) (Z.lnot B_DIRTY) in
  if negb (Z.land flags B_DIRTY =? 0) then
    Ret (flags', data) (mkRd (upd (rd_sector d) bno data) (rd_writes d ++ [(bno, data)]))
  else if Z.land flags B_VALID =? 0 then Ret (flags', rd_sector d bno) d
  else Ret (flags, data) d.

#[export, refine] Instance ramdisk_dev : BlockDev ramdisk := {
  sdrw := rd_sdrw; sector := rd_sector; dev_writes := rd_writes;
}.
Proof.
  - intros d flags bno data Hf Hb Hok. unfold rd_sdrw.
    destruct (Z.eqb_spec (Z.land flags B_DIRTY) 0); [done|]. by eexists.
  - intros d flags bno data Hf Hb. unfold rd_sdrw. rewrite Z.land_lor_distr_r in Hf.
    apply Z.lor_eq_0_iff in Hf as [-> ->]. by exists d.
Defined.

(** A superblock with the log in blocks 2..31, as user/src/mkfs writes it. *)
Definition example_sb : block :=
  put32 (put32 (replicate (Z.to_nat BSIZE) 0) 12 LOGSIZE) 16 2.

Definition example_disk (b : Z) : block :=
  if b =? 1 then example_sb else replicate (Z.to_nat BSIZE) 0.

Definition example_boot : bst ramdisk :=
  mkBst (binit (mkBcache (λ _, buf0) (mkLheap (λ _, 0) (λ _, 0))))
        (mkRd (λ b, example_disk (b - MBR_BASE)) []).

(** Process 1 runs the kernel code below. *)
#[export] Instance example_ops : BufOps (bst ramdisk) := bio_ops 1.
#[export] Instance example_cache : BufferCache (bst ramdisk) := bio_buffer_cache 1.

Lemma example_boot_ok : bc_boot example_boot example_disk.
Proof.
  change (bio_boot example_boot example_disk). unfold bio_boot, example_boot. cbn [bs_cache bs_dev].
  split; [exists (mkLheap (λ _, 0) (λ _, 0)); reflexivity|]. split; [|reflexivity]. intros r Hr.
  cbn [sector ramdisk_dev rd_sector]. rewrite Z.add_simpl_r. split; [done|].
  unfold example_disk, block_ok. by destruct (r =? 1).
Qed.

Lemma example_geom : geom example_disk 2 30.
Proof. split; [by vm_compute|by vm_compute|lia|lia|lia|lia]. Qed.

(** A transaction that writes one block. *)
Section OneBlock.
Context {B : Type} `{BufferCache B}.

Definition one_block (b : Z) (d : block) : M (lst B) () :=
  begin_op ;;
  i ← lift (bread ROOTDEV b);
  lift (buf_set_data i d) ;;
  log_write i ;;
  lift (brelse i).

Lemma one_block_spec (s : lst B) a b d :
  log_inv s a [] → a_ent a = ∅ → home (ls_log s) b → b ≠ 1 → block_ok d →
  geom (a_disk a) (lg_start (ls_log s)) (lg_size (ls_log s)) → 1 < lg_size (ls_log s) →
  get32 (a_disk a (lg_start (ls_log s))) 0 = 0 →
  lg_outstanding (ls_log s) = 0 → lg_committing (ls_log s) = 0 →
  ∃ s' a', one_block b d s = Ret () s' ∧ ending s' a' [b] ∧
    a_disk a' = a_disk a ∧ view a' b = d ∧
    lg_start (ls_log s') = lg_start (ls_log s) ∧ lg_size (ls_log s') = lg_size (ls_log s).
Proof.
  intros Hi He Hb Hb1 Hd Hg Hsz Hh Ho Hc.
  set (lg1 := set_outstanding (ls_log s) 1).
  assert (begin_op s = Ret () (mkLst lg1 (ls_buf s))) as Hbeg.
  { unfold begin_op. mstep (eq_refl (get_log s)). rewrite Hc, Ho.
    rewrite (lo_n _ _ (li_log _ _ _ Hi)). done. }
  destruct (bread_law (ls_buf s) a b) as (i & b1 & Hr & Hrel1).
  { apply Hi. } { apply Hb. } { right. rewrite He. done. } { by rewrite He. }
  assert (a_bread a b i = a_set a b (Ent (a_disk a b) false (Some i))) as Hab.
  { unfold a_bread, view. by rewrite He. }
  rewrite Hab in Hrel1.
  destruct (buf_set_data_law _ _ _ _ i d Hrel1 (lookup_insert_eq _ _ _) eq_refl Hd)
    as (b2 & Hs2 & Hrel2).
  set (a2 := a_set _ _ _) in Hrel2. cbn [e_dirty e_held] in a2.
  assert (log_inv (mkLst lg1 b2) a2 []) as Hi2.
  { destruct Hi as [Hok Hnd Hhome Hrel Hfree Hdi]. split; try done.
    - destruct Hok. by split.
    - intros q Hq. cbn. rewrite !lookup_insert_ne; [by apply Hfree|..]; intros ->; by apply Hb.
    - intros q. split; [set_solver|]. intros (e & Hq & Hqd). cbn in Hq.
      rewrite insert_insert_eq, He in Hq. apply lookup_insert_Some in Hq as [[<- <-]|[_ Hq]]; [done|].
      by rewrite lookup_empty in Hq. }
  destruct (log_write_ok _ _ _ b _ i Hi2 Hb (lookup_insert_eq _ _ _) eq_refl)
    as ([lg3 b3] & Hs3 & Hi3); [done|cbn; lia|].
  cbn [e_data] in Hi3. set (a3 := a_set _ _ _) in Hi3.
  destruct (log_write_log _ _ _ Hs3) as (n3 & bl3 & Hl3). cbn [ls_log] in Hl3.
  destruct (brelse_law _ a3 b _ i (li_rel _ _ _ Hi3) (lookup_insert_eq _ _ _) eq_refl)
    as (b4 & Hs4 & Hrel4); [done|].
  eexists (mkLst lg3 b4), _. split; [|split].
  - unfold one_block. mstep Hbeg. mstep (lift_buf (bread ROOTDEV b) (mkLst lg1 (ls_buf s)) _ _ Hr).
    mstep (lift_buf (buf_set_data i d) (mkLst lg1 b1) _ _ Hs2). cbn [ls_log].
    mstep Hs3. exact (lift_buf (brelse i) (mkLst lg3 b3) _ _ Hs4).
  - destruct Hi3 as [Hok3 Hnd3 Hhome3 _ Hfree3 Hd3].
    assert (∀ q, a_ent (a_brelse a3 b (Ent d true (Some i))) !! q =
      if decide (q = b) then Some (Ent d true None) else None) as Hent.
    { intros q. cbn. rewrite !insert_insert_eq, He. case_decide as Hq; [subst; apply lookup_insert_eq|].
      rewrite lookup_insert_ne by done. apply lookup_empty. }
    cbn [ls_log ls_buf] in *. split; cbn [ls_log]; try done.
    + split; try done.
      * intros q Hq. rewrite Hent. case_decide as Hqb; [|done]. subst.
        specialize (Hfree3 b Hq). cbn in Hfree3. by rewrite lookup_insert_eq in Hfree3.
      * intros q. rewrite Hent, Hd3. cbn. rewrite !insert_insert_eq, He.
        case_decide as Hq; [subst; rewrite lookup_insert_eq; naive_solver|].
        rewrite lookup_insert_ne, lookup_empty by done. naive_solver.
    + by rewrite Hl3.
    + by rewrite Hl3.
    + intros q e. rewrite Hent. case_decide; [|done]. by intros [= <-].
    + cbn. rewrite !insert_insert_eq, He. rewrite map_size_insert_None, map_size_empty by apply lookup_empty. done.
    + by rewrite Hl3.
    + cbn. set_solver.
    + by rewrite Hl3.
  - split; [done|]. split; [unfold view; cbn; by rewrite lookup_insert_eq|]. by rewrite Hl3.
Qed.
End OneBlock.

(** The machine after booting, and about to end an operation that fills
    block 100 with sevens. *)
Definition example_data : block := replicate (Z.to_nat BSIZE) 7.

Lemma example_ending :
  ∃ (s : lst (bst ramdisk)) a, ending s a [100] ∧ view a 100 = example_data ∧
    bc_disk (ls_buf s) 100 ≠ example_data ∧ lg_start (ls_log s) = 2 ∧ lg_size (ls_log s) = 30.
Proof.
  destruct (initlog_spec example_boot example_disk 2 30 []) as (s & Hs & Hok & Hst & Hsz & Hrel).
  { apply bc_boot_rel, example_boot_ok. } { apply example_geom. }
  { split; [done|]. split; [by vm_compute|]. by split. }
  { split; [apply NoDup_nil_2|done|set_solver|done]. }
  destruct (initlog_counts _ _ _ _ Hs) as [Ho Hc]. cbn [lg_outstanding lg_committing log0 ls_log] in Ho, Hc.
  set (a := wrote _ _ _) in Hrel.
  assert (∀ q, q ≠ 2 → a_disk a q = example_disk q) as Hd.
  { intros q Hq. unfold a. cbn. by rewrite upd_ne. }
  assert (a_ent a = ∅) as Hem by reflexivity.
  assert (get32 (a_disk a 2) 0 = 0) as Hh by (vm_compute; reflexivity).
  clearbody a. clear Hs.
  destruct (one_block_spec s a 100 example_data) as (s' & a' & Hr & He & Hdisk & Hv & Hst' & Hsz').
  - split; [exact Hok|apply NoDup_nil_2|done|exact Hrel|intros q _; rewrite Hem; apply lookup_empty|].
    intros q. rewrite Hem. split; [by intros ?%not_elem_of_nil|]. by intros (e & ? & _).
  - exact Hem.
  - unfold home, in_log. rewrite Hst, Hsz. split; [by vm_compute|lia].
  - lia.
  - reflexivity.
  - rewrite Hst, Hsz. destruct example_geom as [G1 G2 G3 G4 G5 G6].
    split; rewrite ?Hd by lia; assumption.
  - rewrite Hsz. lia.
  - rewrite Hst. exact Hh.
  - exact Ho.
  - exact Hc.
  - exists s', a'. split; [exact He|]. split; [exact Hv|].
    rewrite (bc_disk_rel _ _ _ (li_rel _ _ _ (en_inv _ _ _ He))) by lia.
    rewrite Hdisk, Hd by lia. rewrite Hst', Hsz', Hst, Hsz. split; [|by split].
    vm_compute. discriminate.
Qed.

(** ** The theorems on this machine *)

Lemma log_write_correct_witness :
  ∃ (s s' : lst (bst ramdisk)) a i,
    log_write i s = Ret () s' ∧
    log_inv s' (a_set a 100 (Ent (view a 100) true (Some i))) [100].
Proof.
  destruct example_ending as (s & a & He & Hv & _ & _ & Hsz).
  pose proof (en_inv _ _ _ He) as Hi.
  destruct (proj1 (li_dirty _ _ _ Hi 100) (list_elem_of_here 100 [])) as (e & Ha & Hd).
  destruct (en_quiet _ _ _ He 100 e Ha) as [_ Hh].
  assert (home (ls_log s) 100) as Hhome.
  { pose proof (li_home _ _ _ Hi) as Hf. rewrite Forall_forall in Hf. apply Hf, list_elem_of_here. }
  destruct (bread_law (ls_buf s) a 100) as (i & b & Hr & Hrel).
  { apply Hi. } { apply Hhome. } { left. by eexists. } { intros e' He'. congruence. }
  assert (log_inv (mkLst (ls_log s) b) (a_bread a 100 i) [100]) as Hi'.
  { destruct Hi as [H1 H2 H3 H4 H5 H6]. split; try done.
    - intros q Hq. cbn. rewrite lookup_insert_ne; [by apply H5|]. intros <-. by apply Hhome.
    - intros q. rewrite H6. cbn. rewrite Ha. destruct (decide (q = 100)) as [->|Hne].
      + rewrite lookup_insert_eq, Ha. naive_solver.
      + by rewrite lookup_insert_ne. }
  pose proof (log_write_correct _ _ _ 100 _ i Hi' Hhome (lookup_insert_eq _ _ _) eq_refl) as Hw.
  cbn [length] in Hw. change (LOGSIZE <=? Z.of_nat 1) with false in Hw. cbn [orb ls_log] in Hw.
  destruct (Z.leb_spec (lg_size (ls_log s) - 1) (Z.of_nat 1)) as [Hle|Hlt].
  { rewrite Hsz in Hle. lia. }
  destruct Hw as (s' & Hs' & Hinv). exists (mkLst (ls_log s) b), s', (a_bread a 100 i), i.
  split; [exact Hs'|]. assert (view (a_bread a 100 i) 100 = view a 100) as ->.
  { unfold view at 1. cbn. by rewrite lookup_insert_eq. }
  exact Hinv.
Defined.

Lemma end_op_crash_atomic_witness :
  ∃ (s s' : lst (bst ramdisk)) a W,
    end_op s = Ret () s' ∧ bc_writes (ls_buf s') = bc_writes (ls_buf s) ++ W ∧
    view a 100 = example_data ∧ a_disk a 100 ≠ example_data ∧
    ∀ k d', reboots (B := bst ramdisk) (apply_writes (a_disk a) (take k W)) d' →
      contents (ls_log s) (a_disk a) d' ∨ contents (ls_log s) (view a) d'.
Proof.
  destruct example_ending as (s & a & He & Hv & Hd & _ & _).
  rewrite (bc_disk_rel _ _ _ (li_rel _ _ _ (en_inv _ _ _ He))) in Hd by lia.
  destruct (end_op_crash_atomic s a [100] He) as (s' & W & H1 & H2 & H3).
  exists s, s', a, W. exact (conj H1 (conj H2 (conj Hv (conj Hd H3)))).
Defined.

Lemma end_op_durable_witness :
  ∃ (s s' : lst (bst ramdisk)) a', end_op s = Ret () s' ∧ log_inv s' a' [] ∧
    a_disk a' 100 = example_data.
Proof.
  destruct example_ending as (s & a & He & Hv & _ & Hst & Hsz).
  destruct (end_op_durable s a [100] He) as (s' & a' & H1 & H2 & _ & H4 & _).
  exists s, s', a'. split; [exact H1|]. split; [exact H2|]. rewrite <-Hv. apply H4.
  rewrite Hst, Hsz. split; [split; [lia|vm_compute; reflexivity]|lia].
Defined.

(** A machine booted on the disk [d]. *)
Definition rd_boot (d : Z → block) : bst ramdisk :=
  mkBst (binit (mkBcache (λ _, buf0) (mkLheap (λ _, 0) (λ _, 0))))
        (mkRd (λ b, d (b - MBR_BASE)) []).

Lemma rd_boot_ok d : (∀ b, 0 ≤ b → block_ok (d b)) → bc_boot (rd_boot d) d.
Proof.
  intros Hd. change (bio_boot (rd_boot d) d). unfold bio_boot, rd_boot. cbn [bs_cache bs_dev].
  split; [exists (mkLheap (λ _, 0) (λ _, 0)); reflexivity|]. split; [|reflexivity]. intros r Hr.
  cbn [sector ramdisk_dev rd_sector]. rewrite Z.add_simpl_r. split; [done|by apply Hd].
Qed.

(** A crash right after the commit point, two writes into [end_op]. *)
(** A crash after two writes of a commit, and the machine booted again. *)
Lemma example_crash :
  ∃ (s s' : lst (bst ramdisk)) a b, ending s a [100] ∧ end_op s = Ret () s' ∧
    bc_boot b (apply_writes (a_disk a) (take 2 (drop (length (bc_writes (ls_buf s))) (bc_writes (ls_buf s'))))).
Proof.
  destruct example_ending as (s & a & He & Hv & _ & _ & _).
  destruct (end_op_spec _ _ _ He) as (s' & Hs' & _).
  pose proof (li_rel _ _ _ (en_inv _ _ _ He)) as Hrel0.
  set (W := drop (length (bc_writes (ls_buf s))) (bc_writes (ls_buf s'))).
  assert (W = end_op_writes (ls_log s) a [100]) as HW by exact (end_op_wrote s a [100] s' He Hs').
  pose proof (proj1 (proj2 (ending_lists _ _ _ He))) as (Hg & (Hb & _) & _).
  assert (∀ b, 0 ≤ b → block_ok (apply_writes (a_disk a) (take 2 W) b)) as Hok.
  { intros b Hb0. rewrite HW. unfold end_op_writes, commit_writes. cbn [map log_writes app take].
    unfold apply_writes. cbn [fold_left fst snd]. rewrite take_0. cbn [fold_left]. rewrite !upd_case. case_decide.
    - by apply header_header_is.
    - case_decide; [rewrite Hv; reflexivity|by eapply bc_disk_ok]. }
  exists s, s', a, (rd_boot (apply_writes (a_disk a) (take 2 W))). exact (conj He (conj Hs' (rd_boot_ok _ Hok))).
Qed.
Lemma recovery_completes_witness :
  ∃ (s s' s2 : lst (bst ramdisk)) a b a2, end_op s = Ret () s' ∧
    initlog ROOTDEV (mkLst log0 b) = Ret () s2 ∧ log_inv s2 a2 [] ∧
    (contents (ls_log s) (a_disk a) (a_disk a2) ∨ contents (ls_log s) (view a) (a_disk a2)).
Proof.
  destruct example_crash as (s & s' & a & b & He & Hs' & Hb).
  destruct (recovery_completes s a [100] 2 b s' He Hs' Hb) as (s2 & a2 & H1 & _ & _ & H2 & _ & _ & H3).
  exists s, s', s2, a, b, a2. exact (conj Hs' (conj H1 (conj H2 H3))).
Defined.

Lemma example_list : dlist (bc_list (bs_cache example_boot)) Bio.head (rev idxs) ∧ rev idxs ≡ₚ idxs.
Proof.
  split; [exact (proj1 (binit_spec _))|]. symmetry. apply Permutation_rev.
Qed.

Lemma example_rel : bio_rel 1 example_boot (Abs example_disk [] ∅).
Proof. apply bio_boot_rel, example_boot_ok. Qed.

(** The first buffer to be recycled is the first that [binit] linked. *)
Lemma bget_correct_witness :
  ∃ s', bget 1 ROOTDEV (100 + MBR_BASE) example_boot = Ret 0 s' ∧
    b_blockno (bc_buf (bs_cache s') 0) = 100 + MBR_BASE ∧
    b_lock (bc_buf (bs_cache s') 0) = mkSleeplock 1 1.
Proof.
  destruct example_list as [Hl Hp].
  pose proof (bget_correct 1 example_boot _ _ ROOTDEV (100 + MBR_BASE) example_rel Hl Hp) as Hb.
  assert (List.find (cached example_boot ROOTDEV (100 + MBR_BASE)) (rev idxs) = None) as H1
    by (vm_compute; reflexivity).
  assert (List.find (evictable example_boot) (rev (rev idxs)) = Some 0) as H2
    by (vm_compute; reflexivity).
  rewrite H1, H2 in Hb. destruct Hb as (s' & Hs' & Hn & _).
  exists s'. split; [exact Hs'|]. rewrite Hn. split; reflexivity.
Defined.

Lemma brelse_correct_witness :
  ∃ s' s2, bio_bread 1 ROOTDEV 100 example_boot = Ret 0 s' ∧ bio_brelse 1 0 s' = Ret () s2 ∧
    bio_brelse 2 0 s' = Panic "brelse".
Proof.
  destruct example_list as [Hl Hp].
  destruct (bread_miss_spec 1 example_boot _ 100 _ 0 example_rel ltac:(split; vm_compute; congruence)
    Hl Hp ltac:(vm_compute; reflexivity) ltac:(vm_compute; reflexivity)) as (s' & Hs' & Hrel).
  destruct (br_list _ _ _ Hrel) as (l & Hl' & Hp').
  assert (0 ∈ l) as Hin by (rewrite Hp'; apply elem_of_idxs; split; vm_compute; congruence).
  apply list_elem_of_split in Hin as (l1 & l2 & ->).
  destruct (brelse_correct 1 s' _ 100 _ 0 _ _ Hrel (lookup_insert_eq _ _ _) eq_refl Hl')
    as [(s2 & Hs2 & _) Hno].
  exists s', s2. split; [exact Hs'|]. split; [exact Hs2|]. apply (Hno 2). discriminate.
Defined.

Lemma write_read_back_witness :
  ∃ s1 s2 i j,
    (i ← bio_bread 1 ROOTDEV 100;
     bio_set_data i example_data ;; bio_bwrite 1 i ;; bio_brelse 1 i ;; mret i) example_boot = Ret i s1 ∧
    bio_disk s1 100 = example_data ∧
    bio_bread 1 ROOTDEV 100 s1 = Ret j s2 ∧ bio_data j s2 = Ret example_data s2.
Proof.
  destruct (write_read_back 1 example_boot _ 100 example_data example_rel
    ltac:(split; vm_compute; congruence) (lookup_empty _) ltac:(vm_compute; reflexivity)
    ltac:(vm_compute; reflexivity)) as (i & s1 & j & s2 & H1 & H2 & _ & H3 & H4).
  exists s1, s2, i, j. exact (conj H1 (conj H2 (conj H3 H4))).
Defined.
