(* ===== verification/Memory.v ===== *)
(** Byte-addressed kernel memory, with the page arithmetic of inc/types.h and
    inc/mmu.h and the address map of inc/memlayout.h.

    A memory is a total function from addresses to bytes, the addresses being
    those the kernel uses (the direct map that starts at KERNBASE).  [mbytes]
    reads a range as a list; [load64]/[store64] are the accesses through a
    [uint64_t *] or a pointer field, little-endian as on AArch64. *)

From S2P Require Import Prelude.

Definition mem : Type := Z → Z.

Definition KERNBASE : Z := 0xFFFF000000000000.
Definition PHYSTOP : Z := 0x3F000000.
Definition V2P (a : Z) : Z := w64 (a - KERNBASE).
Definition P2V (a : Z) : Z := w64 (a + KERNBASE).

Definition PGSIZE : Z := 4096.
Definition BKSIZE : Z := 2 ^ 21.
Definition ROUNDDOWN (a n : Z) : Z := w64 a - w64 a mod n.
Definition ROUNDUP (a n : Z) : Z := ROUNDDOWN (w64 (a + n - 1)) n.

(** ** Ranges of bytes *)

Fixpoint mbytes (m : mem) (a : Z) (n : nat) : list Z :=
  match n with
  | O => []
  | S n => m a :: mbytes m (a + 1) n
  end.

Fixpoint mwrite (m : mem) (a : Z) (l : list Z) : mem :=
  match l with
  | [] => m
  | b :: l => mwrite (upd m a b) (a + 1) l
  end.

Definition load64 (m : mem) (a : Z) : Z := of_bytes (mbytes m a 8).
Definition store64 (m : mem) (a v : Z) : mem := mwrite m a (bytes_of 8 v).

(** Two memories agree outside [[a, a+n)]. *)
Definition same_outside (m m' : mem) (a n : Z) : Prop :=
  ∀ x, ¬ (a ≤ x < a + n) → m' x = m x.

Lemma length_mbytes m a n : length (mbytes m a n) = n.
Proof. revert a. induction n; intros; cbn; auto. Qed.

Lemma lookup_mbytes m a n i : (i < n)%nat → mbytes m a n !! i = Some (m (a + Z.of_nat i)).
Proof.
  revert a i. induction n as [|n IH]; intros a [|i] Hi; cbn; try lia.
  - by rewrite Z.add_0_r.
  - rewrite IH by lia. f_equal. f_equal. lia.
Qed.

Lemma mbytes_ext m m' a a' n :
  (∀ i, 0 ≤ i < Z.of_nat n → m' (a' + i) = m (a + i)) → mbytes m' a' n = mbytes m a n.
Proof.
  intros Hm. apply list_eq. intros i. destruct (decide (i < n)%nat).
  - rewrite !lookup_mbytes by done. by rewrite Hm by lia.
  - by rewrite !lookup_ge_None_2 by (rewrite length_mbytes; lia).
Qed.

Lemma mwrite_outside l : ∀ m a, same_outside m (mwrite m a l) a (Z.of_nat (length l)).
Proof.
  induction l as [|b l IH]; intros m a x Hx; cbn in *; [done|].
  rewrite IH by lia. apply upd_ne. lia.
Qed.

Lemma mwrite_inside l : ∀ m a i b,
  l !! i = Some b → mwrite m a l (a + Z.of_nat i) = b.
Proof.
  induction l as [|c l IH]; intros m a [|i] b Hi; cbn in *; try done.
  - injection Hi as ->. rewrite Z.add_0_r, (mwrite_outside l _ _ a) by lia. apply upd_eq.
  - replace (a + Z.of_nat (S i)) with (a + 1 + Z.of_nat i) by lia. by apply IH.
Qed.

Lemma mbytes_mwrite m a l : mbytes (mwrite m a l) a (length l) = l.
Proof.
  apply list_eq. intros i. destruct (decide (i < length l)%nat) as [Hi|Hi].
  - rewrite lookup_mbytes by done. apply lookup_lt_is_Some in Hi as [b Hb].
    by rewrite Hb, (mwrite_inside _ _ _ _ _ Hb).
  - by rewrite !lookup_ge_None_2 by (rewrite ?length_mbytes; lia).
Qed.

Lemma load64_store64 m a v : 0 ≤ v < 2 ^ 64 → load64 (store64 m a v) a = v.
Proof.
  intros Hv. unfold load64, store64.
  pose proof (mbytes_mwrite m a (bytes_of 8 v)) as Hb. rewrite length_bytes_of in Hb.
  rewrite Hb, of_bytes_bytes_of. by apply Z.mod_small.
Qed.

Lemma store64_outside m a v : same_outside m (store64 m a v) a 8.
Proof. apply (mwrite_outside (bytes_of 8 v)). Qed.

Lemma load64_ext m m' a : (∀ i, 0 ≤ i < 8 → m' (a + i) = m (a + i)) → load64 m' a = load64 m a.
Proof. intros Hm. unfold load64. by rewrite (mbytes_ext m m' a a 8). Qed.

Lemma load64_outside m m' a b n :
  same_outside m m' b n → a + 8 ≤ b ∨ b + n ≤ a → load64 m' a = load64 m a.
Proof. intros Hm Ha. apply load64_ext. intros i Hi. apply Hm. lia. Qed.

Lemma load64_zero m a : (∀ i, 0 ≤ i < 8 → m (a + i) = 0) → load64 m a = 0.
Proof. intros Hm. by rewrite (load64_ext (λ _, 0) m a Hm). Qed.

Definition bytes_ok (m : mem) : Prop := ∀ a, is_byte (m a).

Lemma load64_range m a : bytes_ok m → 0 ≤ load64 m a < 2 ^ 64.
Proof.
  intros Hm. unfold load64.
  assert (Forall is_byte (mbytes m a 8)) as Hf.
  { apply Forall_lookup. intros i x Hx.
    pose proof (lookup_lt_Some _ _ _ Hx) as Hi. rewrite length_mbytes in Hi.
    rewrite lookup_mbytes in Hx by done. injection Hx as <-. apply Hm. }
  apply of_bytes_range in Hf. by rewrite length_mbytes in Hf.
Qed.

(** ** Pages *)

Lemma rounddown_spec a : 0 ≤ a < 2 ^ 64 → ROUNDDOWN a PGSIZE = 4096 * (a / 4096).
Proof.
  intros Ha. unfold ROUNDDOWN. rewrite w64_small by done. unfold PGSIZE.
  pose proof (Z_div_mod_eq_full a 4096). lia.
Qed.

Lemma roundup_spec a :
  0 ≤ a < 2 ^ 64 - 4096 → ROUNDUP a PGSIZE = 4096 * ((a + 4095) / 4096).
Proof.
  intros Ha. unfold ROUNDUP, PGSIZE. rewrite (w64_small (a + 4096 - 1)) by lia.
  replace (a + 4096 - 1) with (a + 4095) by lia. by apply (rounddown_spec (a + 4095)); lia.
Qed.
