(* ===== verification/CString.v ===== *)
(** The string library: inc/string.h.

    Every function works on the byte memory of file Memory and does its loads
    and stores in the order of the source, so that overlapping arguments
    behave as they do in C.  [char] is unsigned, as it is on AArch64.  A loop
    that stops at a byte of memory takes fuel; a loop bounded by an argument
    recurses on that argument.  Pointers do not wrap around. *)

From S2P Require Import Prelude Memory.

Fixpoint strlen_loop (fuel : nat) (m : mem) (s n : Z) : option Z :=
  match fuel with
  | O => None
  | S fuel => if m s =? 0 then Some n else strlen_loop fuel m (s + 1) (n + 1)
  end.
Definition strlen (fuel : nat) (m : mem) (s : Z) : option Z := strlen_loop fuel m s 0.

Fixpoint strnlen_loop (size : nat) (m : mem) (s n : Z) : Z :=
  match size with
  | O => n
  | S size => if m s =? 0 then n else strnlen_loop size m (s + 1) (n + 1)
  end.
Definition strnlen (m : mem) (s size : Z) : Z := strnlen_loop (Z.to_nat size) m s 0.

(** Copies up to and including the null byte. *)
Fixpoint strcpy (fuel : nat) (m : mem) (dst src : Z) : option mem :=
  match fuel with
  | O => None
  | S fuel =>
    let c := m src in
    let m := upd m dst c in
    if c =? 0 then Some m else strcpy fuel m (dst + 1) (src + 1)
  end.

Definition strcat (fuel : nat) (m : mem) (dst src : Z) : option mem :=
  len ← strlen fuel m dst; strcpy fuel m (dst + len) src.

Fixpoint strncpy_loop (size : nat) (m : mem) (dst src : Z) : mem :=
  match size with
  | O => m
  | S size =>
    let m := upd m dst (m src) in
    strncpy_loop size m (dst + 1) (if m src =? 0 then src else src + 1)
  end.
Definition strncpy (m : mem) (dst src size : Z) : mem := strncpy_loop (Z.to_nat size) m dst src.

(** [while (--size > 0 && *src) *dst++ = *src++;], [k] being [size - 1]. *)
Fixpoint strlcpy_loop (k : nat) (m : mem) (dst src : Z) : mem * Z :=
  match k with
  | O => (m, dst)
  | S k => if m src =? 0 then (m, dst) else strlcpy_loop k (upd m dst (m src)) (dst + 1) (src + 1)
  end.
Definition strlcpy (m : mem) (dst src size : Z) : mem * Z :=
  if 0 <? size then
    let '(m, d) := strlcpy_loop (Z.to_nat (size - 1)) m dst src in
    (upd m d 0, d - dst)
  else (m, 0).

Fixpoint strcmp (fuel : nat) (m : mem) (p q : Z) : option Z :=
  match fuel with
  | O => None
  | S fuel =>
    if negb (m p =? 0) && (m p =? m q) then strcmp fuel m (p + 1) (q + 1)
    else Some (m p - m q)
  end.

Fixpoint strncmp_loop (n : nat) (m : mem) (p q : Z) : Z :=
  match n with
  | O => 0
  | S n =>
    if negb (m p =? 0) && (m p =? m q) then strncmp_loop n m (p + 1) (q + 1)
    else m p - m q
  end.
Definition strncmp (m : mem) (p q n : Z) : Z := strncmp_loop (Z.to_nat n) m p q.

(** A null pointer is 0. *)
Fixpoint strchr (fuel : nat) (m : mem) (s c : Z) : option Z :=
  match fuel with
  | O => None
  | S fuel =>
    if m s =? 0 then Some 0 else if m s =? c then Some s else strchr fuel m (s + 1) c
  end.

Fixpoint strfind (fuel : nat) (m : mem) (s c : Z) : option Z :=
  match fuel with
  | O => None
  | S fuel =>
    if m s =? 0 then Some s else if m s =? c then Some s else strfind fuel m (s + 1) c
  end.

Fixpoint memset_loop (n : nat) (m : mem) (p c : Z) : mem :=
  match n with
  | O => m
  | S n => memset_loop n (upd m p (w8 c)) (p + 1) c
  end.
(** The count is converted to [int]: [m = n; while (--m >= 0)]. *)
Definition memset (m : mem) (v c n : Z) : mem := memset_loop (Z.to_nat (s32 n)) m v c.

Fixpoint move_down (n : nat) (m : mem) (d s : Z) : mem :=
  match n with
  | O => m
  | S n => move_down n (upd m (d - 1) (m (s - 1))) (d - 1) (s - 1)
  end.
Fixpoint move_up (n : nat) (m : mem) (d s : Z) : mem :=
  match n with
  | O => m
  | S n => move_up n (upd m d (m s)) (d + 1) (s + 1)
  end.
Definition memmove (m : mem) (dst src n : Z) : mem :=
  if (src <? dst) && (dst <? src + n)
  then move_down (Z.to_nat n) m (dst + n) (src + n)
  else move_up (Z.to_nat n) m dst src.

Definition memcpy (m : mem) (dst src n : Z) : mem := memmove m dst src n.

Fixpoint memcmp_loop (n : nat) (m : mem) (s1 s2 : Z) : Z :=
  match n with
  | O => 0
  | S n => if negb (m s1 =? m s2) then m s1 - m s2 else memcmp_loop n m (s1 + 1) (s2 + 1)
  end.
Definition memcmp (m : mem) (v1 v2 n : Z) : Z := memcmp_loop (Z.to_nat n) m v1 v2.

Fixpoint memfind_loop (n : nat) (m : mem) (s c : Z) : Z :=
  match n with
  | O => s
  | S n => if m s =? w8 c then s else memfind_loop n m (s + 1) c
  end.
Definition memfind (m : mem) (s c n : Z) : Z := memfind_loop (Z.to_nat n) m s c.

(** Skips blanks and tabs. *)
Fixpoint skip_blanks (fuel : nat) (m : mem) (s : Z) : option Z :=
  match fuel with
  | O => None
  | S fuel => if (m s =? 32) || (m s =? 9) then skip_blanks fuel m (s + 1) else Some s
  end.

(** The value of a digit, 0-9, a-z or A-Z. *)
Definition digit (c : Z) : option Z :=
  if (48 <=? c) && (c <=? 57) then Some (c - 48)
  else if (97 <=? c) && (c <=? 122) then Some (c - 97 + 10)
  else if (65 <=? c) && (c <=? 90) then Some (c - 65 + 10)
  else None.

(** [val] is a [long]; it wraps where the source says it does not detect
    overflow. *)
Fixpoint strtol_digits (fuel : nat) (m : mem) (s val base : Z) : option (Z * Z) :=
  match fuel with
  | O => None
  | S fuel =>
    match digit (m s) with
    | None => Some (s, val)
    | Some dig =>
      if base <=? dig then Some (s, val)
      else strtol_digits fuel m (s + 1) (s64 (val * base + dig)) base
    end
  end.

(** The result is the value and the pointer stored to [*endptr]. *)
Definition strtol (fuel : nat) (m : mem) (s base : Z) : option (Z * Z) :=
  s ← skip_blanks fuel m s;
  let '(s, neg) :=
    if m s =? 43 then (s + 1, false) else if m s =? 45 then (s + 1, true) else (s, false) in
  let '(s, base) :=
    if ((base =? 0) || (base =? 16)) && ((m s =? 48) && (m (s + 1) =? 120)) then (s + 2, 16)
    else if (base =? 0) && (m s =? 48) then (s + 1, 8)
    else if base =? 0 then (s, 10) else (s, base) in
  '(s, val) ← strtol_digits fuel m s 0 base;
  Some (if neg then s64 (- val) else val, s).

(** ** Lemmas *)

Lemma move_up_spec n : ∀ m d s,
  ¬ (s < d < s + Z.of_nat n) →
  let m' := move_up n m d s in
  (∀ i, 0 ≤ i < Z.of_nat n → m' (d + i) = m (s + i)) ∧
  same_outside m m' d (Z.of_nat n).
Proof.
  induction n as [|n IH]; intros m d s Hov; cbn [move_up].
  { split; [lia|]. by intros x _. }
  destruct (IH (upd m d (m s)) (d + 1) (s + 1)) as [Hin Hout]; [lia|]. split.
  - intros i Hi. destruct (decide (i = 0)) as [->|].
    + rewrite Z.add_0_r, Hout by lia. by rewrite upd_eq, Z.add_0_r.
    + replace (d + i) with (d + 1 + (i - 1)) by lia. rewrite Hin by lia.
      rewrite upd_ne by lia. f_equal. lia.
  - intros x Hx. rewrite Hout by lia. apply upd_ne. lia.
Qed.

Lemma move_down_spec n : ∀ m d s,
  ¬ (d < s < d + Z.of_nat n) →
  let m' := move_down n m (d + Z.of_nat n) (s + Z.of_nat n) in
  (∀ i, 0 ≤ i < Z.of_nat n → m' (d + i) = m (s + i)) ∧
  same_outside m m' d (Z.of_nat n).
Proof.
  induction n as [|n IH]; intros m d s Hov; cbn [move_down].
  { split; [lia|]. by intros x _. }
  replace (d + Z.of_nat (S n) - 1) with (d + Z.of_nat n) by lia.
  replace (s + Z.of_nat (S n) - 1) with (s + Z.of_nat n) by lia.
  destruct (IH (upd m (d + Z.of_nat n) (m (s + Z.of_nat n))) d s) as [Hin Hout]; [lia|]. split.
  - intros i Hi. destruct (decide (i = Z.of_nat n)) as [->|].
    + rewrite Hout by lia. apply upd_eq.
    + rewrite Hin by lia. rewrite upd_ne by lia. done.
  - intros x Hx. rewrite Hout by lia. apply upd_ne. lia.
Qed.

Lemma memmove_spec m dst src n :
  0 ≤ n → let m' := memmove m dst src n in
  (∀ i, 0 ≤ i < n → m' (dst + i) = m (src + i)) ∧ same_outside m m' dst n.
Proof.
  intros Hn. pose proof (move_down_spec (Z.to_nat n) m dst src) as Hdown.
  pose proof (move_up_spec (Z.to_nat n) m dst src) as Hup. rewrite Z2Nat.id in Hdown, Hup by lia.
  unfold memmove. destruct (Z.ltb_spec src dst), (Z.ltb_spec dst (src + n)); cbn [andb];
    [apply Hdown|apply Hup..]; lia.
Qed.

Lemma memset_loop_spec n : ∀ m v c,
  let m' := memset_loop n m v c in
  (∀ i, 0 ≤ i < Z.of_nat n → m' (v + i) = w8 c) ∧ same_outside m m' v (Z.of_nat n).
Proof.
  induction n as [|n IH]; intros m v c; cbn [memset_loop].
  { split; [lia|]. by intros x _. }
  destruct (IH (upd m v (w8 c)) (v + 1) c) as [Hin Hout]. split.
  - intros i Hi. destruct (decide (i = 0)) as [->|].
    + rewrite Z.add_0_r, Hout by lia. apply upd_eq.
    + replace (v + i) with (v + 1 + (i - 1)) by lia. apply Hin. lia.
  - intros x Hx. rewrite Hout by lia. apply upd_ne. lia.
Qed.

Lemma memset_spec m v c n :
  0 ≤ n < 2 ^ 31 → let m' := memset m v c n in
  (∀ i, 0 ≤ i < n → m' (v + i) = w8 c) ∧ same_outside m m' v n.
Proof.
  intros Hn. unfold memset. rewrite s32_small by lia.
  pose proof (memset_loop_spec (Z.to_nat n) m v c) as H. by rewrite Z2Nat.id in H by lia.
Qed.

(** [s] points to the C string [l]. *)
Definition cstr (m : mem) (s : Z) (l : list Z) : Prop :=
  (∀ i c, l !! i = Some c → m (s + Z.of_nat i) = c ∧ c ≠ 0) ∧ m (s + Z.of_nat (length l)) = 0.

Lemma cstr_nil m s : cstr m s [] ↔ m s = 0.
Proof. unfold cstr. cbn. rewrite Z.add_0_r. split; [by intros []|]. intros ?. split; [|done]. set_solver. Qed.

Lemma cstr_cons m s c l : cstr m s (c :: l) ↔ m s = c ∧ c ≠ 0 ∧ cstr m (s + 1) l.
Proof.
  unfold cstr. split.
  - intros [Hl H0]. destruct (Hl 0%nat c eq_refl) as [Hc Hn]. rewrite Z.add_0_r in Hc.
    split; [done|]. split; [done|]. split.
    + intros i d Hd. destruct (Hl (S i) d Hd) as [<- ?]. split; [f_equal; lia|done].
    + rewrite <-H0. f_equal. cbn. lia.
  - intros (Hc & Hn & Hl & H0). split.
    + intros [|i] d Hd; cbn in Hd.
      * injection Hd as <-. by rewrite Z.add_0_r.
      * destruct (Hl i d Hd) as [<- ?]. split; [f_equal; lia|done].
    + rewrite <-H0. f_equal. cbn. lia.
Qed.

Lemma cstr_unique m s l l' : cstr m s l → cstr m s l' → l = l'.
Proof.
  revert s l'. induction l as [|c l IH]; intros s [|c' l'] Hl Hl'; try done.
  - apply cstr_nil in Hl. apply cstr_cons in Hl' as (? & ? & _). congruence.
  - apply cstr_nil in Hl'. apply cstr_cons in Hl as (? & ? & _). congruence.
  - apply cstr_cons in Hl as (? & ? & Hl). apply cstr_cons in Hl' as (? & ? & Hl').
    f_equal; [congruence|]. by eapply IH.
Qed.

Lemma strlen_loop_spec fuel m s l n :
  cstr m s l → (length l < fuel)%nat → strlen_loop fuel m s n = Some (n + Z.of_nat (length l)).
Proof.
  revert s l n. induction fuel as [|fuel IH]; intros s l n Hl Hf; [lia|]. cbn [strlen_loop].
  destruct l as [|c l].
  - apply cstr_nil in Hl. rewrite Hl. cbn. by rewrite Z.add_0_r.
  - apply cstr_cons in Hl as (-> & Hc & Hl). destruct (Z.eqb_spec c 0); [done|].
    cbn [length] in *. rewrite (IH _ l) by (done || lia). f_equal. lia.
Qed.

(** The string at [s], cut after [n] bytes: what the [n]-bounded functions see. *)
Fixpoint strn (m : mem) (s : Z) (n : nat) : list Z :=
  match n with
  | O => []
  | S n => if m s =? 0 then [] else m s :: strn m (s + 1) n
  end.

(** Lexicographic order on byte strings. *)
Fixpoint lex_lt (l k : list Z) : Prop :=
  match l, k with
  | _, [] => False
  | [], _ => True
  | c :: l, d :: k => c < d ∨ c = d ∧ lex_lt l k
  end.

Lemma strn_cstr m s l n : cstr m s l → strn m s n = take n l.
Proof.
  revert s l. induction n as [|n IH]; intros s l Hl; cbn [strn]; [by rewrite take_0|].
  destruct l as [|c l].
  - apply cstr_nil in Hl. by rewrite Hl.
  - apply cstr_cons in Hl as (-> & Hc & Hl). destruct (Z.eqb_spec c 0); [done|].
    cbn [take]. f_equal. by apply IH.
Qed.

Lemma strn_ext m m' s s' n :
  (∀ i, 0 ≤ i < Z.of_nat n → m' (s' + i) = m (s + i)) → strn m' s' n = strn m s n.
Proof.
  revert s s'. induction n as [|n IH]; intros s s' Hm; cbn [strn]; [done|].
  pose proof (Hm 0) as H0. rewrite !Z.add_0_r in H0. rewrite H0 by lia.
  destruct (m s =? 0); [done|]. f_equal. apply IH. intros i Hi.
  specialize (Hm (i + 1)). rewrite <-!Z.add_assoc, (Z.add_comm 1). apply Hm. lia.
Qed.

Lemma length_strn m s n : (length (strn m s n) ≤ n)%nat.
Proof.
  revert s. induction n as [|n IH]; intros s; cbn; [done|]. destruct (m s =? 0); cbn; [lia|].
  specialize (IH (s + 1)). lia.
Qed.

Lemma strncmp_loop_spec n : ∀ m p q, bytes_ok m →
  (strncmp_loop n m p q = 0 ↔ strn m p n = strn m q n) ∧
  (strncmp_loop n m p q < 0 ↔ lex_lt (strn m p n) (strn m q n)).
Proof.
  induction n as [|n IH]; intros m p q Hm; cbn [strncmp_loop strn]; [done|].
  pose proof (Hm p) as Hp. pose proof (Hm q) as Hq. unfold is_byte in Hp, Hq.
  destruct (Z.eqb_spec (m p) 0) as [Hp0|Hp0], (Z.eqb_spec (m q) 0) as [Hq0|Hq0];
    cbn [negb andb lex_lt].
  - rewrite Hp0, Hq0. done.
  - split; split; try done; lia.
  - destruct (Z.eqb_spec (m p) (m q)); [lia|]. split; split; try done; lia.
  - destruct (Z.eqb_spec (m p) (m q)) as [He|He].
    + destruct (IH m (p + 1) (q + 1) Hm) as [IH1 IH2]. rewrite IH1, IH2, He.
      split; split; [by intros ->|by intros [= ->]|by right|].
      intros [?|[_ ?]]; [lia|done].
    + split; split; [lia|by intros [= ? ?]|intros; left; lia|]. intros [?|[? _]]; [lia|done].
Qed.

Lemma strncpy_loop_spec n : ∀ m dst src,
  src + Z.of_nat n ≤ dst ∨ dst + Z.of_nat n ≤ src →
  let m' := strncpy_loop n m dst src in
  same_outside m m' dst (Z.of_nat n) ∧ strn m' dst n = strn m src n ∧
  (∀ i, Z.of_nat (length (strn m src n)) ≤ i < Z.of_nat n → m' (dst + i) = 0).
Proof.
  induction n as [|n IH]; intros m dst src Hdis; cbn [strncpy_loop].
  { split; [by intros ?|]. split; [done|]. lia. }
  set (m1 := upd m dst (m src)).
  assert (m1 src = m src) as -> by (apply upd_ne; lia).
  assert (∀ s, (s = src ∨ s = src + 1) → strn m1 s n = strn m s n) as Hext.
  { intros s Hs. apply strn_ext. intros i Hi. unfold m1. apply upd_ne. lia. }
  destruct (Z.eqb_spec (m src) 0) as [H0|H0].
  - destruct (IH m1 (dst + 1) src) as (Hout & Hstr & Hpad); [lia|]. split; [|split].
    + intros x Hx. rewrite Hout by lia. apply upd_ne. lia.
    + cbn [strn]. rewrite Hout by lia. unfold m1. by rewrite upd_eq, H0.
    + intros i Hi. destruct (decide (i = 0)) as [->|].
      * rewrite Z.add_0_r, Hout by lia. unfold m1. by rewrite upd_eq.
      * replace (dst + i) with (dst + 1 + (i - 1)) by lia. apply Hpad.
        rewrite Hext by auto. cbn [strn] in Hi. rewrite H0 in Hi. cbn in Hi.
        assert (strn m src n = []) as ->; [|cbn; lia].
        destruct n; cbn [strn]; [done|]. by rewrite H0.
  - destruct (IH m1 (dst + 1) (src + 1)) as (Hout & Hstr & Hpad); [lia|]. split; [|split].
    + intros x Hx. rewrite Hout by lia. apply upd_ne. lia.
    + cbn [strn]. rewrite Hout by lia. unfold m1. rewrite upd_eq.
      destruct (Z.eqb_spec (m src) 0); [done|]. f_equal. fold m1. rewrite Hstr. by apply Hext; auto.
    + intros i Hi. cbn [strn] in Hi. destruct (Z.eqb_spec (m src) 0); [done|]. cbn [length] in Hi.
      replace (dst + i) with (dst + 1 + (i - 1)) by lia. apply Hpad. rewrite Hext by auto. lia.
Qed.

Lemma strncpy_bytes n : ∀ m dst src, bytes_ok m → bytes_ok (strncpy_loop n m dst src).
Proof.
  induction n as [|n IH]; intros m dst src Hm; cbn [strncpy_loop]; [done|].
  apply IH. intros a. rewrite upd_case. case_decide; apply Hm.
Qed.

Lemma strlcpy_loop_spec k : ∀ m dst src,
  src + Z.of_nat k ≤ dst ∨ dst + Z.of_nat k ≤ src →
  let l := strn m src k in
  let '(m', d) := strlcpy_loop k m dst src in
  d = dst + Z.of_nat (length l) ∧ same_outside m m' dst (Z.of_nat (length l)) ∧
  ∀ i c, l !! i = Some c → m' (dst + Z.of_nat i) = c ∧ c ≠ 0.
Proof.
  induction k as [|k IH]; intros m dst src Hdis; cbn [strlcpy_loop strn].
  { cbn. split; [lia|]. split; [by intros ?|]. by intros []. }
  destruct (Z.eqb_spec (m src) 0) as [H0|H0]; cbn [length].
  { cbn. split; [lia|]. split; [by intros ?|]. by intros []. }
  set (m1 := upd m dst (m src)).
  assert (strn m1 (src + 1) k = strn m (src + 1) k) as Hext.
  { apply strn_ext. intros i Hi. unfold m1. apply upd_ne. lia. }
  specialize (IH m1 (dst + 1) (src + 1)). rewrite Hext in IH. cbv zeta in IH.
  destruct (strlcpy_loop k m1 (dst + 1) (src + 1)) as [m' d].
  destruct IH as (-> & Hout & Hin); [lia|]. split; [lia|]. split.
  - intros x Hx. rewrite Hout by lia. apply upd_ne. lia.
  - intros [|i] c Hc; cbn in Hc.
    + injection Hc as <-. rewrite Z.add_0_r, Hout by lia. unfold m1. by rewrite upd_eq.
    + destruct (Hin i c Hc) as [<- ?]. split; [f_equal; lia|done].
Qed.

(** [memmove] copies correctly whether or not the source and destination
    overlap, and writes nothing else; [memcpy] is the same function. *)
Theorem memmove_correct m dst src n :
  0 ≤ n →
  mbytes (memmove m dst src n) dst (Z.to_nat n) = mbytes m src (Z.to_nat n) ∧
  same_outside m (memmove m dst src n) dst n ∧ memcpy m dst src n = memmove m dst src n.
Proof.
  intros Hn. destruct (memmove_spec m dst src n Hn) as [Hin Hout].
  split; [|done]. apply mbytes_ext. intros i Hi. apply Hin. lia.
Qed.

Lemma memmove_correct_witness :
  let m : mem := λ a, a mod 256 in
  mbytes (memmove m 103 100 5) 103 5 = [100; 101; 102; 103; 104] ∧
  mbytes (memmove m 100 103 5) 100 5 = [103; 104; 105; 106; 107].
Proof.
  intros m. destruct (memmove_correct m 103 100 5 ltac:(lia)) as [H1 _].
  destruct (memmove_correct m 100 103 5 ltac:(lia)) as [H2 _].
  change (Z.to_nat 5) with 5%nat in H1, H2.
  split; [rewrite H1; reflexivity|rewrite H2; reflexivity].
Defined.

(** The bounded string functions on names that fill their field, as the
    file system uses them.  [strncpy] copies the string, pads the field with
    null bytes and writes nothing outside it; [strncmp] of the copy and the
    original is 0; and [strncmp] orders strings lexicographically, as
    sequences of unsigned bytes cut after [n]. *)
Theorem strncpy_strncmp m dst src n :
  0 ≤ n → bytes_ok m → src + n ≤ dst ∨ dst + n ≤ src →
  let m' := strncpy m dst src n in
  same_outside m m' dst n ∧ strncmp m' dst src n = 0 ∧
  (∀ i, strnlen m src n ≤ i < n → m' (dst + i) = 0) ∧
  ∀ p q, (strncmp m p q n = 0 ↔ strn m p (Z.to_nat n) = strn m q (Z.to_nat n)) ∧
         (strncmp m p q n < 0 ↔ lex_lt (strn m p (Z.to_nat n)) (strn m q (Z.to_nat n))).
Proof.
  intros Hn Hm Hdis m'.
  destruct (strncpy_loop_spec (Z.to_nat n) m dst src) as (Hout & Hstr & Hpad); [lia|].
  fold (strncpy m dst src n) in Hout, Hstr, Hpad. fold m' in Hout, Hstr, Hpad.
  rewrite Z2Nat.id in Hout, Hpad by lia.
  assert (∀ k s i, strnlen_loop k m s i = i + Z.of_nat (length (strn m s k))) as Hlen.
  { intros k. induction k as [|k IH]; intros s i; cbn [strnlen_loop strn length]; [lia|].
    destruct (m s =? 0); cbn [length]; [lia|]. rewrite IH. lia. }
  split; [done|]. split; [|split].
  - apply strncmp_loop_spec; [by apply strncpy_bytes|].
    rewrite Hstr. symmetry. apply strn_ext. intros i Hi. apply Hout. lia.
  - intros i Hi. apply Hpad. unfold strnlen in Hi. rewrite Hlen in Hi. lia.
  - intros p q. by apply strncmp_loop_spec.
Qed.

(** A directory name of three bytes in a field of five. *)
Lemma strncpy_strncmp_witness :
  let m : mem := upd (upd (upd (λ _, 0) 100 97) 101 98) 102 99 in
  strncmp (strncpy m 200 100 5) 200 100 5 = 0 ∧ mbytes (strncpy m 200 100 5) 200 6 = [97; 98; 99; 0; 0; 0].
Proof.
  intros m. assert (bytes_ok m) as Hm.
  { intros a. unfold m. rewrite !upd_case. unfold is_byte. repeat case_decide; lia. }
  destruct (strncpy_strncmp m 200 100 5 ltac:(lia) Hm ltac:(lia)) as (_ & H1 & _).
  split; [exact H1|vm_compute; reflexivity].
Defined.

(** [strlcpy] never writes outside its buffer, always leaves a null-terminated
    string when the buffer is not empty, and returns the length of what it
    copied. *)
Theorem strlcpy_correct m dst src size :
  0 < size → src + size ≤ dst ∨ dst + size ≤ src →
  let l := strn m src (Z.to_nat (size - 1)) in
  let '(m', r) := strlcpy m dst src size in
  r = Z.of_nat (length l) ∧ r < size ∧ cstr m' dst l ∧ same_outside m m' dst (r + 1).
Proof.
  intros Hs Hdis l. unfold strlcpy. destruct (Z.ltb_spec 0 size); [|lia].
  pose proof (strlcpy_loop_spec (Z.to_nat (size - 1)) m dst src) as Hl. cbv zeta in Hl. fold l in Hl.
  pose proof (length_strn m src (Z.to_nat (size - 1))) as Hlen. fold l in Hlen.
  destruct (strlcpy_loop _ m dst src) as [m1 d]. destruct Hl as (-> & Hout & Hin); [lia|].
  split; [lia|]. split; [lia|]. split; [split|].
  - intros i c Hc. pose proof (lookup_lt_Some _ _ _ Hc). rewrite upd_ne by lia. by apply Hin.
  - apply upd_eq.
  - intros x Hx. rewrite upd_ne by lia. apply Hout. lia.
Qed.

Lemma strlcpy_correct_witness :
  let m : mem := λ a, if a =? 110 then 0 else a mod 256 in
  cstr (strlcpy m 200 100 5).1 200 [100; 101; 102; 103].
Proof.
  intros m. pose proof (strlcpy_correct m 200 100 5 ltac:(lia) ltac:(lia)) as H.
  destruct (strlcpy m 200 100 5) as [m' r]. destruct H as (_ & _ & H & _). exact H.
Defined.
