(* ===== verification/Kalloc.v ===== *)
(** The physical page allocator: kern/kalloc.c.

    State: kernel memory and [kmem.free_list], the address of the first free
    page or 0; the [next] field of each free page lies in its own first eight
    bytes.  [kend] is the address of the linker's symbol [end].  The spin lock
    [kmem.lock] makes each function one atomic step. *)

From S2P Require Import Prelude Memory CString.

Record kst := mkKst { k_mem : mem; k_free : Z }.

Section Kalloc.
Context (kend : Z).

Definition kfree (v : Z) : M kst () := λ s,
  if negb (v mod PGSIZE =? 0) || (v <? kend) || (PHYSTOP <=? V2P v) then Panic "kfree"
  else Ret () (mkKst (store64 (k_mem s) v (k_free s)) v).

Fixpoint free_range_loop (fuel : nat) (p vend : Z) : M kst () :=
  match fuel with
  | O => no_fuel
  | S fuel =>
    if w64 (p + PGSIZE) <=? vend then
      kfree p ;; free_range_loop fuel (w64 (p + PGSIZE)) vend
    else mret ()
  end.

Definition free_range (fuel : nat) (vstart vend : Z) : M kst () :=
  free_range_loop fuel (ROUNDUP vstart PGSIZE) vend.

Definition alloc_init (fuel : nat) : M kst () := free_range fuel kend (P2V PHYSTOP).

Definition kalloc : M kst Z := λ s,
  let r := k_free s in
  let s := if negb (r =? 0) then mkKst (k_mem s) (load64 (k_mem s) r) else s in
  Ret r (if negb (r =? 0) then mkKst (memset (k_mem s) r 5 PGSIZE) (k_free s) else s).

Fixpoint check_free_loop (fuel : nat) (p : Z) : M kst () := λ s,
  match fuel with
  | O => NoFuel
  | S fuel =>
    if p =? 0 then Ret () s
    else if kend <? p then check_free_loop fuel (load64 (k_mem s) p) s
    else Panic "assertion failed"
  end.
Definition check_free_list (fuel : nat) : M kst () := λ s,
  if k_free s =? 0 then Panic "kmem.free_list is a null pointer!"
  else check_free_loop fuel (k_free s) s.

(** ** The free list *)

(** A page that the allocator may own. *)
Definition page_ok (p : Z) : Prop :=
  p mod PGSIZE = 0 ∧ kend ≤ p ∧ KERNBASE ≤ p < KERNBASE + PHYSTOP.

Fixpoint flist (m : mem) (f : Z) (l : list Z) : Prop :=
  match l with
  | [] => f = 0
  | p :: l => f = p ∧ flist m (load64 m p) l
  end.

(** The free pages are, in list order, [l]. *)
Record kinv (s : kst) (l : list Z) : Prop := {
  ki_list : flist (k_mem s) (k_free s) l;
  ki_nodup : NoDup l;
  ki_pages : Forall page_ok l;
}.

(** [x] lies in the page at [p]. *)
Definition in_page (p x : Z) : Prop := p ≤ x < p + PGSIZE.

Definition aligned (p : Z) : Prop := p mod PGSIZE = 0.
Lemma page_aligned p : page_ok p → aligned p.
Proof. by intros (? & _). Qed.
Lemma aligned_disjoint p q x : aligned p → aligned q → in_page p x → in_page q x → p = q.
Proof.
  unfold aligned, in_page, PGSIZE. intros Hp Hq Hx Hy.
  apply Z.mod_divide in Hp as [a ->]; [|lia]. apply Z.mod_divide in Hq as [b ->]; lia.
Qed.
Lemma pages_disjoint p q x : page_ok p → page_ok q → in_page p x → in_page q x → p = q.
Proof. intros Hp%page_aligned Hq%page_aligned. by apply aligned_disjoint. Qed.

Lemma page_ok_panics p :
  0 ≤ kend → 0 ≤ p < 2 ^ 64 → KERNBASE ≤ p →
  negb (p mod PGSIZE =? 0) || (p <? kend) || (PHYSTOP <=? V2P p) = false ↔ page_ok p.
Proof.
  intros Hk Hp Hb. unfold page_ok, V2P. rewrite w64_small by (unfold KERNBASE in *; lia).
  rewrite !orb_false_iff, negb_false_iff, Z.eqb_eq, Z.ltb_ge, Z.leb_gt. lia.
Qed.

Lemma flist_ext m m' f l :
  Forall page_ok l → (∀ p x, p ∈ l → in_page p x → m' x = m x) → flist m f l → flist m' f l.
Proof.
  revert f. induction l as [|p l IH]; intros f Hok Hm; cbn [flist]; [done|].
  apply Forall_cons in Hok as [Hp Hok]. intros [-> Hl]. split; [done|].
  rewrite (load64_ext m m' p).
  - apply IH; [done| |done]. intros q x Hq. apply Hm. by apply elem_of_cons; right.
  - intros i Hi. apply (Hm p); [by apply elem_of_cons; left|]. unfold in_page, PGSIZE. lia.
Qed.

Lemma flist_nil_0 m l : Forall page_ok l → flist m 0 l → l = [].
Proof.
  destruct l as [|p l]; [done|]. intros [(_ & _ & Hp) _]%Forall_cons [<- _].
  unfold KERNBASE in Hp. lia.
Qed.

Lemma kfree_spec s l v :
  0 ≤ kend → kinv s l → page_ok v → v ∉ l →
  ∃ s', kfree v s = Ret () s' ∧ kinv s' (v :: l) ∧ same_outside (k_mem s) (k_mem s') v 8.
Proof.
  intros Hk [Hl Hnd Hok] Hv Hin. pose proof Hv as (_ & _ & Hb).
  assert (0 ≤ k_free s < 2 ^ 64) as Hf.
  { destruct l as [|p l]; cbn in Hl; [rewrite Hl; lia|]. destruct Hl as [-> _].
    apply Forall_cons in Hok as [(_ & _ & Hp) _]. unfold KERNBASE, PHYSTOP in *. lia. }
  eexists. split; [|split].
  - unfold kfree. rewrite (proj2 (page_ok_panics v Hk ltac:(unfold KERNBASE, PHYSTOP in *; lia)
      ltac:(lia)) Hv). reflexivity.
  - split; cbn [k_mem k_free flist]; [|by constructor|by constructor]. split; [done|].
    rewrite load64_store64 by done. eapply flist_ext; [done| |exact Hl].
    intros p x Hp Hx. apply store64_outside. intros Hx'. apply Hin.
    rewrite Forall_forall in Hok. rewrite <-(pages_disjoint p v x); try done; [by apply Hok|].
    unfold in_page, PGSIZE. lia.
  - apply store64_outside.
Qed.

Lemma kalloc_spec s l :
  kinv s l →
  match l with
  | [] => kalloc s = Ret 0 s
  | p :: l' => ∃ s', kalloc s = Ret p s' ∧ kinv s' l' ∧
      (∀ x, in_page p x → k_mem s' x = 5) ∧ same_outside (k_mem s) (k_mem s') p PGSIZE
  end.
Proof.
  intros [Hl Hnd Hok]. unfold kalloc. destruct l as [|p l]; cbn in Hl; [by rewrite Hl|].
  destruct Hl as [Hf Hl]. apply NoDup_cons in Hnd as [Hp Hnd].
  apply Forall_cons in Hok as [Hpo Hok]. rewrite Hf.
  destruct (Z.eqb_spec p 0) as [->|Hp0]; [destruct Hpo as (_ & _ & ?); unfold KERNBASE in *; lia|].
  cbn [negb k_mem k_free].
  destruct (memset_spec (k_mem s) p 5 PGSIZE) as [Hin Hout]; [unfold PGSIZE; lia|].
  eexists. split; [reflexivity|]. split; [split; cbn; try done|split; cbn].
  - eapply flist_ext; [done| |exact Hl]. intros q x Hq Hx. apply Hout. intros Hx'. apply Hp.
    rewrite Forall_forall in Hok. by rewrite (pages_disjoint p q x Hpo (Hok q Hq) Hx' Hx).
  - intros x Hx. unfold in_page in Hx. replace x with (p + (x - p)) by lia.
    rewrite Hin by lia. done.
  - exact Hout.
Qed.

(** The pages of [[p, p + n * PGSIZE)], last one first. *)
Fixpoint pages_from (n : nat) (p : Z) (l : list Z) : list Z :=
  match n with
  | O => l
  | S n => pages_from n (p + PGSIZE) (p :: l)
  end.

Lemma pages_from_elem n : ∀ p l x,
  x ∈ pages_from n p l ↔ x ∈ l ∨ ∃ k, 0 ≤ k < Z.of_nat n ∧ x = p + k * PGSIZE.
Proof.
  induction n as [|n IH]; intros p l x; cbn [pages_from].
  - split; [by left|]. intros [?|(k & Hk & _)]; [done|lia].
  - rewrite IH, elem_of_cons. split.
    + intros [[->|?]|(k & Hk & ->)]; [right; exists 0; lia|by left|].
      right. exists (k + 1). lia.
    + intros [?|(k & Hk & ->)]; [by auto|]. destruct (decide (k = 0)) as [->|]; [left; left; lia|].
      right. exists (k - 1). lia.
Qed.

Lemma free_range_spec n : ∀ p s l fuel,
  0 ≤ kend → kend ≤ p → KERNBASE ≤ p → p mod PGSIZE = 0 →
  p + Z.of_nat n * PGSIZE = KERNBASE + PHYSTOP → (n < fuel)%nat →
  kinv s l → (∀ x, x ∈ l → x < p) →
  ∃ s', free_range_loop fuel p (KERNBASE + PHYSTOP) s = Ret () s' ∧ kinv s' (pages_from n p l) ∧
    ∀ x, x < kend → k_mem s' x = k_mem s x.
Proof.
  induction n as [|n IH]; intros p s l fuel Hk Hp Hb Ha Hn Hf Hi Hlt;
    (destruct fuel as [|fuel]; [lia|]); cbn [free_range_loop pages_from].
  - exists s. split; [|done]. rewrite w64_small by (unfold KERNBASE, PHYSTOP, PGSIZE in *; lia).
    destruct (Z.leb_spec (p + PGSIZE) (KERNBASE + PHYSTOP)); [|done].
    unfold KERNBASE, PHYSTOP, PGSIZE in *. lia.
  - rewrite !w64_small by (unfold KERNBASE, PHYSTOP, PGSIZE in *; lia).
    destruct (Z.leb_spec (p + PGSIZE) (KERNBASE + PHYSTOP)); [|unfold PGSIZE in *; lia].
    destruct (kfree_spec s l p) as (s1 & H1 & Hi1 & Hm1); [done|done| | |].
    { split; [done|]. split; [done|]. unfold PGSIZE in *. lia. }
    { intros Hin. specialize (Hlt p Hin). lia. }
    mstep H1. destruct (IH (p + PGSIZE) s1 (p :: l) fuel) as (s' & H2 & H3 & Hm2); try done; try (unfold PGSIZE in *; lia).
    3: { exists s'. split; [done|]. split; [done|]. intros x Hx. rewrite Hm2 by done. apply Hm1. lia. }
    + unfold PGSIZE in *. rewrite <-Zplus_mod_idemp_r, Z.mod_same, Z.add_0_r by lia. done.
    + intros x [->|Hx]%elem_of_cons; [unfold PGSIZE; lia|]. specialize (Hlt x Hx). unfold PGSIZE. lia.
Qed.

Lemma length_pages_from n : ∀ p l, length (pages_from n p l) = (n + length l)%nat.
Proof. induction n as [|n IH]; intros p l; cbn [pages_from]; [done|]. rewrite IH. cbn. lia. Qed.

(** Enough iterations for the whole of physical memory. *)
Definition init_fuel : nat := S (Z.to_nat ((KERNBASE + PHYSTOP - ROUNDUP kend PGSIZE) / PGSIZE)).

(** [alloc_init] terminates and puts on the free list every page between
    the end of the kernel and the top of physical memory, once, and nothing
    else. *)
Theorem alloc_init_correct s :
  KERNBASE ≤ kend < KERNBASE + PHYSTOP → k_free s = 0 →
  ∃ s' l, alloc_init init_fuel s = Ret () s' ∧ kinv s' l ∧ (length l < init_fuel)%nat ∧
    (∀ p, p ∈ l ↔ page_ok p) ∧ ∀ x, x < kend → k_mem s' x = k_mem s x.
Proof.
  intros Hk Hf. unfold alloc_init, free_range, init_fuel.
  assert (P2V PHYSTOP = KERNBASE + PHYSTOP) as -> by done.
  assert (ROUNDUP kend PGSIZE = 4096 * ((kend + 4095) / 4096)) as Hr
    by (apply roundup_spec; unfold KERNBASE, PHYSTOP in *; lia).
  rewrite Hr. set (q := (kend + 4095) / 4096).
  assert (kend ≤ 4096 * q < kend + 4096) as Hq by (unfold q; zlia).
  set (n := Z.to_nat ((KERNBASE + PHYSTOP - 4096 * q) / PGSIZE)).
  assert (4096 * q + Z.of_nat n * PGSIZE = KERNBASE + PHYSTOP) as Hn.
  { unfold n, PGSIZE. assert (4096 * q ≤ KERNBASE + PHYSTOP) by (unfold KERNBASE, PHYSTOP in *; lia).
    change (KERNBASE + PHYSTOP) with (4096 * 0xFFFF00003F000) in *.
    rewrite Z2Nat.id; zlia. }
  destruct (free_range_spec n (4096 * q) s [] (S n)) as (s' & H1 & H2 & Hm).
  { unfold KERNBASE in *; lia. } { lia. } { lia. } { unfold PGSIZE. zlia. } { done. } { lia. }
  { split; [done|apply NoDup_nil_2|done]. } { set_solver. }
  exists s', (pages_from n (4096 * q) []). split; [done|]. split; [done|].
  split; [rewrite length_pages_from; cbn; lia|]. split; [|done]. intros p.
  rewrite pages_from_elem. split.
  - intros [?|(k & Hk' & ->)]; [set_solver|]. unfold page_ok, PGSIZE in *. zlia.
  - intros (Ha & He & Hb). right. exists ((p - 4096 * q) / 4096). unfold PGSIZE in *. zlia.
Qed.

Lemma check_free_loop_spec l : ∀ f s fuel,
  flist (k_mem s) f l → Forall page_ok l → (length l < fuel)%nat →
  check_free_loop fuel f s = if bool_decide (kend ∈ l) then Panic "assertion failed" else Ret () s.
Proof.
  induction l as [|p l IH]; intros f s fuel Hl Hok Hf; (destruct fuel as [|fuel]; [cbn in Hf; lia|]);
    cbn [check_free_loop]; cbn in Hl.
  - rewrite Hl, Z.eqb_refl, bool_decide_false by set_solver. done.
  - destruct Hl as [-> Hl]. apply Forall_cons in Hok as [(_ & Hp & Hb) Hok].
    destruct (Z.eqb_spec p 0); [unfold KERNBASE in *; lia|]. destruct (Z.ltb_spec kend p) as [Hlt|Hge].
    + rewrite IH by (done || cbn in Hf; lia). erewrite bool_decide_ext; [done|]. rewrite elem_of_cons. naive_solver lia.
    + assert (kend = p) as -> by lia. rewrite bool_decide_true; [done|]. apply elem_of_cons. by left.
Qed.

(** [check_free_list] finds a list of pages after the end of the kernel, or
    panics: also when the kernel ends at a page boundary and its first page is
    free, which [free_range] allows. *)
Lemma check_free_list_spec s l fuel :
  kinv s l → l ≠ [] → (length l < fuel)%nat →
  check_free_list fuel s = if bool_decide (kend ∈ l) then Panic "assertion failed" else Ret () s.
Proof.
  intros [Hl _ Hok] Hne Hf. unfold check_free_list. destruct (Z.eqb_spec (k_free s) 0) as [H0|_].
  - rewrite H0 in Hl. apply flist_nil_0 in Hl; done.
  - by apply check_free_loop_spec.
Qed.

(** The allocator's contract.  With free pages [l], [kalloc] takes the
    first one, fills it with 5 and writes nowhere else, or returns 0 and
    changes nothing when there is none; [kfree] of a page that is not free puts
    it first and writes nowhere else, so the next [kalloc] returns it; and
    [kfree] of an address that is not a page of managed memory panics. *)
Theorem kalloc_kfree_correct s l :
  0 ≤ kend → kinv s l →
  (∃ s', kalloc s = Ret (List.hd 0 l) s' ∧ kinv s' (List.tl l) ∧
     match l with
     | [] => s' = s
     | p :: _ => (∀ x, in_page p x → k_mem s' x = 5) ∧ same_outside (k_mem s) (k_mem s') p PGSIZE
     end) ∧
  (∀ v, page_ok v → v ∉ l →
     ∃ s', kfree v s = Ret () s' ∧ kinv s' (v :: l) ∧ same_outside (k_mem s) (k_mem s') v PGSIZE ∧
       ∃ s'', kalloc s' = Ret v s'' ∧ kinv s'' l) ∧
  (∀ v, KERNBASE ≤ v < 2 ^ 64 → ¬ page_ok v → kfree v s = Panic "kfree").
Proof.
  intros Hk Hi. split; [|split].
  - pose proof (kalloc_spec s l Hi) as Ha. destruct l as [|p l]; [by eauto|].
    destruct Ha as (s' & H1 & H2 & H3 & H4). by eauto.
  - intros v Hv Hin. destruct (kfree_spec s l v Hk Hi Hv Hin) as (s' & H1 & H2 & H3).
    exists s'. split; [done|]. split; [done|]. split.
    + intros x Hx. apply H3. unfold PGSIZE in Hx. lia.
    + destruct (kalloc_spec s' (v :: l) H2) as (s'' & H4 & H5 & _). by eauto.
  - intros v Hv Hno. unfold kfree. destruct (_ || _) eqn:Hc; [done|]. destruct Hno.
    apply page_ok_panics; [done|unfold KERNBASE in *; lia|lia|done].
Qed.
End Kalloc.

Lemma alloc_init_correct_witness :
  let kend := KERNBASE + PHYSTOP - 10000 in
  ∃ s' l, alloc_init kend (init_fuel kend) (mkKst (λ _, 0) 0) = Ret () s' ∧ kinv kend s' l ∧
    KERNBASE + PHYSTOP - 4096 ∈ l ∧ KERNBASE + PHYSTOP - 8192 ∈ l.
Proof.
  intros kend.
  destruct (alloc_init_correct kend (mkKst (λ _, 0) 0) ltac:(unfold kend, KERNBASE, PHYSTOP; lia)
    eq_refl) as (s' & l & H1 & H2 & _ & H3 & _).
  exists s', l. split; [exact H1|]. split; [exact H2|].
  split; apply H3; unfold page_ok, PGSIZE, kend, KERNBASE, PHYSTOP; split; (reflexivity || lia).
Defined.

Lemma kalloc_kfree_correct_witness :
  let kend := KERNBASE + 4096 in let p := KERNBASE + 8192 in
  let s := mkKst (λ _, 0) p in
  (∃ s', kalloc s = Ret p s' ∧ kinv kend s' []) ∧ kfree kend (p + 8) s = Panic "kfree".
Proof.
  intros kend p s.
  assert (kinv kend s [p]) as Hi.
  { split; [by split|apply NoDup_singleton|]. apply Forall_singleton.
    unfold page_ok, PGSIZE, p, kend, KERNBASE, PHYSTOP; split; (reflexivity || lia). }
  destruct (kalloc_kfree_correct kend s [p] ltac:(unfold kend, KERNBASE; lia) Hi)
    as ((s' & H1 & H2 & _) & _ & H3).
  split; [exists s'; exact (conj H1 H2)|]. apply H3; [unfold p, KERNBASE; lia|].
  intros (Ha & _). vm_compute in Ha. discriminate.
Defined.
