(* ===== verification/Vm.v ===== *)
(** Page tables and user address spaces: kern/vm.c.

    Page tables live in kernel memory (state [kst] of file Kalloc) as arrays of
    512 [uint64_t] entries; a [uint64_t *] is an address.  [uvm_load], which
    reads an inode, is in file Exec, and [uvm_switch] in file Trap; [test_mem]
    is not modelled. *)

From S2P Require Import Prelude Memory CString Kalloc.

Definition PTX (level va : Z) : Z := Z.land (Z.shiftr (w64 va) (39 - 9 * level)) 0x1FF.

Definition PTE_P : Z := Z.shiftl 1 0.
Definition PTE_BLOCK : Z := Z.shiftl 0 1.
Definition PTE_PAGE : Z := Z.shiftl 1 1.
Definition PTE_TABLE : Z := Z.shiftl 1 1.
Definition PTE_USER : Z := Z.shiftl 1 6.
Definition PTE_RW : Z := Z.shiftl 0 7.
Definition PTE_RO : Z := Z.shiftl 1 7.
Definition PTE_AF : Z := Z.shiftl 1 10.
Definition MT_NORMAL : Z := 1.
Definition MM_TYPE_BLOCK : Z := Z.lor PTE_P PTE_BLOCK.
Definition PTE_NORMAL : Z := Z.lor (Z.lor MM_TYPE_BLOCK (Z.shiftl MT_NORMAL 2)) PTE_AF.
Definition PTE_ADDR (pte : Z) : Z := Z.land pte (Z.lnot 0xFFF).
Definition UADDR_SZ : Z := Z.shiftl 1 28.

Section Vm.
Context (kend : Z).

Definition ld (a : Z) : M kst Z := gets (λ s, load64 (k_mem s) a).
Definition st (a v : Z) : M kst () := modify (λ s, mkKst (store64 (k_mem s) a v) (k_free s)).
Definition setmem (v c n : Z) : M kst () :=
  modify (λ s, mkKst (memset (k_mem s) v c n) (k_free s)).
Definition movemem (dst src n : Z) : M kst () :=
  modify (λ s, mkKst (memmove (k_mem s) dst src n) (k_free s)).

(** [&pgdir[PTX(level, va)]]. *)
Definition pte_addr (pgdir level va : Z) : Z := pgdir + 8 * PTX level va.

(** The loop of [pgdir_walk] with [n] levels to go. *)
Fixpoint walk_loop (n : nat) (level pgdir va alloc : Z) : M kst Z :=
  match n with
  | O => mret (pte_addr pgdir 3 va)
  | S n =>
    let pte := pte_addr pgdir level va in
    v ← ld pte;
    if negb (Z.land v PTE_P =? 0) then
      walk_loop n (level + 1) (P2V (PTE_ADDR v)) va alloc
    else if alloc =? 0 then mret 0
    else
      pg ← kalloc;
      if pg =? 0 then mret 0
      else
        setmem pg 0 PGSIZE ;;
        st pte (Z.lor (Z.lor (V2P (PTE_ADDR pg)) PTE_P) PTE_TABLE) ;;
        walk_loop n (level + 1) pg va alloc
  end.
Definition pgdir_walk (pgdir va alloc : Z) : M kst Z := walk_loop 3 0 pgdir va alloc.

(** The entry that [map_region] stores. *)
Definition leaf (pa perm : Z) : Z :=
  Z.lor (Z.lor (Z.lor (Z.lor (Z.lor (PTE_ADDR pa) perm) PTE_P) PTE_TABLE) PTE_AF) PTE_NORMAL.

Fixpoint map_loop (fuel : nat) (pgdir a last pa perm : Z) : M kst Z :=
  match fuel with
  | O => no_fuel
  | S fuel =>
    pte ← pgdir_walk pgdir a 1;
    if pte =? 0 then mret (-1)
    else
      v ← ld pte;
      if negb (Z.land v PTE_P =? 0) then panic "remap"
      else
        st pte (leaf pa perm) ;;
        if a =? last then mret 0
        else map_loop fuel pgdir (w64 (a + PGSIZE)) last (w64 (pa + PGSIZE)) perm
  end.
Definition map_region (fuel : nat) (pgdir va size pa perm : Z) : M kst Z :=
  map_loop fuel pgdir (ROUNDDOWN va PGSIZE) (ROUNDDOWN (w64 (va + size - 1)) PGSIZE) pa perm.

(** [for (i = 0; i < 512; i++) if (pgdir[i] & PTE_P) f(P2V(PTE_ADDR(pgdir[i])));],
    [n] entries to go. *)
Fixpoint for_entries (n : nat) (i pgdir : Z) (f : Z → M kst ()) : M kst () :=
  match n with
  | O => mret ()
  | S n =>
    v ← ld (pgdir + 8 * i);
    (if negb (Z.land v PTE_P =? 0) then f (P2V (PTE_ADDR v)) else mret ()) ;;
    for_entries n (i + 1) pgdir f
  end.

(** [vm_free] at level [3 - d]. *)
Fixpoint vm_free_at (d : nat) (pgdir : Z) : M kst () :=
  match d with
  | O => for_entries 512 0 pgdir (kfree kend)
  | S d => for_entries 512 0 pgdir (vm_free_at d) ;; kfree kend pgdir
  end.
Definition vm_free (pgdir level : Z) : M kst () :=
  if level =? 3 then vm_free_at 0 pgdir
  else if (0 <=? level) && (level <=? 2) then vm_free_at (Z.to_nat (3 - level)) pgdir
  else panic "vm_free: unexpected level".

Definition pgdir_init : M kst Z :=
  pgt ← kalloc;
  if pgt =? 0 then panic "pgdir_init: kalloc failed"
  else setmem pgt 0 PGSIZE ;; mret pgt.

(** [binary] is a kernel address. *)
Definition uvm_init (fuel : nat) (pgdir binary sz : Z) : M kst () :=
  if PGSIZE <? sz then panic "uvm_init: page overflow!"
  else
    mem ← kalloc;
    setmem mem 0 PGSIZE ;;
    map_region fuel pgdir 0 PGSIZE (V2P mem) (Z.lor (Z.lor PTE_USER PTE_RW) PTE_PAGE) ;;
    movemem mem binary sz.

Fixpoint dealloc_loop (fuel : nat) (pgdir a oldsz : Z) : M kst () :=
  match fuel with
  | O => no_fuel
  | S fuel =>
    if a <? oldsz then
      pte ← pgdir_walk pgdir a 0;
      a ← (if pte =? 0 then mret (ROUNDUP a BKSIZE)
           else
             v ← ld pte;
             (if negb (Z.land v PTE_P =? 0) then
                let pa := PTE_ADDR v in
                if pa =? 0 then panic "uvm_dealloc"
                else kfree kend (P2V pa) ;; st pte 0
              else mret ()) ;;
             mret a);
      dealloc_loop fuel pgdir (w64 (a + PGSIZE)) oldsz
    else mret ()
  end.
(** The result is converted to [int]. *)
Definition uvm_dealloc (fuel : nat) (pgdir oldsz newsz : Z) : M kst Z :=
  if oldsz <=? newsz then mret (s32 oldsz)
  else
    dealloc_loop fuel pgdir (ROUNDUP newsz PGSIZE) oldsz ;;
    mret (s32 newsz).

(** [dfuel] is for the loop of [uvm_dealloc]. *)
Fixpoint alloc_loop (fuel dfuel : nat) (pgdir a oldsz newsz : Z) : M kst Z :=
  match fuel with
  | O => no_fuel
  | S fuel =>
    if a <? newsz then
      mem ← kalloc;
      if mem =? 0 then
        uvm_dealloc dfuel pgdir newsz oldsz ;; mret 0
      else
        setmem mem 0 PGSIZE ;;
        r ← map_region 1 pgdir a PGSIZE (V2P mem) (Z.lor PTE_RW PTE_USER);
        if r <? 0 then
          uvm_dealloc dfuel pgdir newsz oldsz ;;
          kfree kend mem ;; mret 0
        else alloc_loop fuel dfuel pgdir (w64 (a + PGSIZE)) oldsz newsz
    else mret (s32 newsz)
  end.
Definition uvm_alloc (fuel : nat) (pgdir oldsz newsz : Z) : M kst Z :=
  if UADDR_SZ <=? newsz then mret 0
  else if newsz <? oldsz then mret (s32 oldsz)
  else alloc_loop fuel fuel pgdir (ROUNDUP oldsz PGSIZE) oldsz newsz.

Definition clearpteu (pgdir uva : Z) : M kst () :=
  pte ← pgdir_walk pgdir uva 0;
  if pte =? 0 then panic "clearpteu"
  else v ← ld pte; st pte (Z.land v (Z.lnot PTE_USER)).

(** Dereferences the result of [pgdir_walk] without a check. *)
Definition uva2ka (pgdir uva : Z) : M kst Z :=
  pte ← pgdir_walk pgdir uva 0;
  if pte =? 0 then undef "uva2ka: null pte"
  else
    v ← ld pte;
    if Z.land v PTE_P =? 0 then mret 0
    else if Z.land v PTE_USER =? 0 then mret 0
    else mret (P2V (PTE_ADDR v)).

Fixpoint copyout_loop (fuel : nat) (pgdir va buf len : Z) : M kst Z :=
  match fuel with
  | O => no_fuel
  | S fuel =>
    if 0 <? len then
      let va0 := ROUNDDOWN va PGSIZE in
      pa0 ← uva2ka pgdir va0;
      if pa0 =? 0 then mret (-1)
      else
        let n := PGSIZE - (va - va0) in
        let n := if len <? n then len else n in
        movemem (pa0 + (va - va0)) buf n ;;
        copyout_loop fuel pgdir (w64 (va0 + PGSIZE)) (buf + n) (len - n)
    else mret 0
  end.
Definition copyout (fuel : nat) (pgdir va p len : Z) : M kst Z := copyout_loop fuel pgdir va p len.

Fixpoint copyuvm_loop (fuel : nat) (pgdir new_pgdir i sz : Z) : M kst Z :=
  match fuel with
  | O => no_fuel
  | S fuel =>
    if i <? sz then
      pte ← pgdir_walk pgdir i 0;
      if pte =? 0 then panic "copyuvm"
      else
        v ← ld pte;
        if Z.land v (Z.lor PTE_PAGE PTE_P) =? 0 then panic "copyuvm"
        else
          let pa := PTE_ADDR v in
          let perm := Z.land v (Z.lor PTE_USER PTE_RO) in
          page ← kalloc;
          if page =? 0 then kfree kend new_pgdir ;; mret 0
          else
            movemem page (P2V pa) PGSIZE ;;
            r ← map_region 1 new_pgdir i PGSIZE (V2P page) perm;
            if r <? 0 then kfree kend new_pgdir ;; mret 0
            else copyuvm_loop fuel pgdir new_pgdir (w64 (i + PGSIZE)) sz
    else mret new_pgdir
  end.
Definition copyuvm (fuel : nat) (pgdir sz : Z) : M kst Z :=
  new_pgdir ← pgdir_init;
  if new_pgdir =? 0 then mret 0
  else copyuvm_loop fuel pgdir new_pgdir 0 sz.
End Vm.
