(* ===== verification/BootPgdir.v ===== *)
(** The page table that the kernel boots with, kern/kpgdir.c, and what it maps.

    The three tables are written out as in the code.  The addresses that the
    linker gives them are parameters.  [translate] is the walk that the ARMv8
    architecture prescribes for 48-bit addresses and 4 KB pages. *)

From S2P Require Import Prelude Memory Vm.

(** ** kern/kpgdir.c *)

Definition MT_DEVICE_nGnRnE : Z := 0x0.
Definition PTE_DEVICE : Z := Z.lor (Z.lor MM_TYPE_BLOCK (Z.shiftl MT_DEVICE_nGnRnE 2)) PTE_AF.

(** The entries for memory and those for devices. *)
Definition kpte_normal : list Z := map (λ a, Z.lor a PTE_NORMAL)
  [0x0; 0x200000; 0x400000; 0x600000; 0x800000; 0xa00000; 0xc00000; 0xe00000; 0x1000000; 0x1200000;
   0x1400000; 0x1600000; 0x1800000; 0x1a00000; 0x1c00000; 0x1e00000; 0x2000000; 0x2200000; 0x2400000; 0x2600000;
   0x2800000; 0x2a00000; 0x2c00000; 0x2e00000; 0x3000000; 0x3200000; 0x3400000; 0x3600000; 0x3800000; 0x3a00000;
   0x3c00000; 0x3e00000; 0x4000000; 0x4200000; 0x4400000; 0x4600000; 0x4800000; 0x4a00000; 0x4c00000; 0x4e00000;
   0x5000000; 0x5200000; 0x5400000; 0x5600000; 0x5800000; 0x5a00000; 0x5c00000; 0x5e00000; 0x6000000; 0x6200000;
   0x6400000; 0x6600000; 0x6800000; 0x6a00000; 0x6c00000; 0x6e00000; 0x7000000; 0x7200000; 0x7400000; 0x7600000;
   0x7800000; 0x7a00000; 0x7c00000; 0x7e00000; 0x8000000; 0x8200000; 0x8400000; 0x8600000; 0x8800000; 0x8a00000;
   0x8c00000; 0x8e00000; 0x9000000; 0x9200000; 0x9400000; 0x9600000; 0x9800000; 0x9a00000; 0x9c00000; 0x9e00000;
   0xa000000; 0xa200000; 0xa400000; 0xa600000; 0xa800000; 0xaa00000; 0xac00000; 0xae00000; 0xb000000; 0xb200000;
   0xb400000; 0xb600000; 0xb800000; 0xba00000; 0xbc00000; 0xbe00000; 0xc000000; 0xc200000; 0xc400000; 0xc600000;
   0xc800000; 0xca00000; 0xcc00000; 0xce00000; 0xd000000; 0xd200000; 0xd400000; 0xd600000; 0xd800000; 0xda00000;
   0xdc00000; 0xde00000; 0xe000000; 0xe200000; 0xe400000; 0xe600000; 0xe800000; 0xea00000; 0xec00000; 0xee00000;
   0xf000000; 0xf200000; 0xf400000; 0xf600000; 0xf800000; 0xfa00000; 0xfc00000; 0xfe00000; 0x10000000; 0x10200000;
   0x10400000; 0x10600000; 0x10800000; 0x10a00000; 0x10c00000; 0x10e00000; 0x11000000; 0x11200000; 0x11400000; 0x11600000;
   0x11800000; 0x11a00000; 0x11c00000; 0x11e00000; 0x12000000; 0x12200000; 0x12400000; 0x12600000; 0x12800000; 0x12a00000;
   0x12c00000; 0x12e00000; 0x13000000; 0x13200000; 0x13400000; 0x13600000; 0x13800000; 0x13a00000; 0x13c00000; 0x13e00000;
   0x14000000; 0x14200000; 0x14400000; 0x14600000; 0x14800000; 0x14a00000; 0x14c00000; 0x14e00000; 0x15000000; 0x15200000;
   0x15400000; 0x15600000; 0x15800000; 0x15a00000; 0x15c00000; 0x15e00000; 0x16000000; 0x16200000; 0x16400000; 0x16600000;
   0x16800000; 0x16a00000; 0x16c00000; 0x16e00000; 0x17000000; 0x17200000; 0x17400000; 0x17600000; 0x17800000; 0x17a00000;
   0x17c00000; 0x17e00000; 0x18000000; 0x18200000; 0x18400000; 0x18600000; 0x18800000; 0x18a00000; 0x18c00000; 0x18e00000;
   0x19000000; 0x19200000; 0x19400000; 0x19600000; 0x19800000; 0x19a00000; 0x19c00000; 0x19e00000; 0x1a000000; 0x1a200000;
   0x1a400000; 0x1a600000; 0x1a800000; 0x1aa00000; 0x1ac00000; 0x1ae00000; 0x1b000000; 0x1b200000; 0x1b400000; 0x1b600000;
   0x1b800000; 0x1ba00000; 0x1bc00000; 0x1be00000; 0x1c000000; 0x1c200000; 0x1c400000; 0x1c600000; 0x1c800000; 0x1ca00000;
   0x1cc00000; 0x1ce00000; 0x1d000000; 0x1d200000; 0x1d400000; 0x1d600000; 0x1d800000; 0x1da00000; 0x1dc00000; 0x1de00000;
   0x1e000000; 0x1e200000; 0x1e400000; 0x1e600000; 0x1e800000; 0x1ea00000; 0x1ec00000; 0x1ee00000; 0x1f000000; 0x1f200000;
   0x1f400000; 0x1f600000; 0x1f800000; 0x1fa00000; 0x1fc00000; 0x1fe00000; 0x20000000; 0x20200000; 0x20400000; 0x20600000;
   0x20800000; 0x20a00000; 0x20c00000; 0x20e00000; 0x21000000; 0x21200000; 0x21400000; 0x21600000; 0x21800000; 0x21a00000;
   0x21c00000; 0x21e00000; 0x22000000; 0x22200000; 0x22400000; 0x22600000; 0x22800000; 0x22a00000; 0x22c00000; 0x22e00000;
   0x23000000; 0x23200000; 0x23400000; 0x23600000; 0x23800000; 0x23a00000; 0x23c00000; 0x23e00000; 0x24000000; 0x24200000;
   0x24400000; 0x24600000; 0x24800000; 0x24a00000; 0x24c00000; 0x24e00000; 0x25000000; 0x25200000; 0x25400000; 0x25600000;
   0x25800000; 0x25a00000; 0x25c00000; 0x25e00000; 0x26000000; 0x26200000; 0x26400000; 0x26600000; 0x26800000; 0x26a00000;
   0x26c00000; 0x26e00000; 0x27000000; 0x27200000; 0x27400000; 0x27600000; 0x27800000; 0x27a00000; 0x27c00000; 0x27e00000;
   0x28000000; 0x28200000; 0x28400000; 0x28600000; 0x28800000; 0x28a00000; 0x28c00000; 0x28e00000; 0x29000000; 0x29200000;
   0x29400000; 0x29600000; 0x29800000; 0x29a00000; 0x29c00000; 0x29e00000; 0x2a000000; 0x2a200000; 0x2a400000; 0x2a600000;
   0x2a800000; 0x2aa00000; 0x2ac00000; 0x2ae00000; 0x2b000000; 0x2b200000; 0x2b400000; 0x2b600000; 0x2b800000; 0x2ba00000;
   0x2bc00000; 0x2be00000; 0x2c000000; 0x2c200000; 0x2c400000; 0x2c600000; 0x2c800000; 0x2ca00000; 0x2cc00000; 0x2ce00000;
   0x2d000000; 0x2d200000; 0x2d400000; 0x2d600000; 0x2d800000; 0x2da00000; 0x2dc00000; 0x2de00000; 0x2e000000; 0x2e200000;
   0x2e400000; 0x2e600000; 0x2e800000; 0x2ea00000; 0x2ec00000; 0x2ee00000; 0x2f000000; 0x2f200000; 0x2f400000; 0x2f600000;
   0x2f800000; 0x2fa00000; 0x2fc00000; 0x2fe00000; 0x30000000; 0x30200000; 0x30400000; 0x30600000; 0x30800000; 0x30a00000;
   0x30c00000; 0x30e00000; 0x31000000; 0x31200000; 0x31400000; 0x31600000; 0x31800000; 0x31a00000; 0x31c00000; 0x31e00000;
   0x32000000; 0x32200000; 0x32400000; 0x32600000; 0x32800000; 0x32a00000; 0x32c00000; 0x32e00000; 0x33000000; 0x33200000;
   0x33400000; 0x33600000; 0x33800000; 0x33a00000; 0x33c00000; 0x33e00000; 0x34000000; 0x34200000; 0x34400000; 0x34600000;
   0x34800000; 0x34a00000; 0x34c00000; 0x34e00000; 0x35000000; 0x35200000; 0x35400000; 0x35600000; 0x35800000; 0x35a00000;
   0x35c00000; 0x35e00000; 0x36000000; 0x36200000; 0x36400000; 0x36600000; 0x36800000; 0x36a00000; 0x36c00000; 0x36e00000;
   0x37000000; 0x37200000; 0x37400000; 0x37600000; 0x37800000; 0x37a00000; 0x37c00000; 0x37e00000; 0x38000000; 0x38200000;
   0x38400000; 0x38600000; 0x38800000; 0x38a00000; 0x38c00000; 0x38e00000; 0x39000000; 0x39200000; 0x39400000; 0x39600000;
   0x39800000; 0x39a00000; 0x39c00000; 0x39e00000; 0x3a000000; 0x3a200000; 0x3a400000; 0x3a600000; 0x3a800000; 0x3aa00000;
   0x3ac00000; 0x3ae00000; 0x3b000000; 0x3b200000; 0x3b400000; 0x3b600000; 0x3b800000; 0x3ba00000; 0x3bc00000; 0x3be00000;
   0x3c000000; 0x3c200000; 0x3c400000; 0x3c600000; 0x3c800000; 0x3ca00000; 0x3cc00000; 0x3ce00000; 0x3d000000; 0x3d200000;
   0x3d400000; 0x3d600000; 0x3d800000; 0x3da00000; 0x3dc00000; 0x3de00000; 0x3e000000; 0x3e200000; 0x3e400000; 0x3e600000;
   0x3e800000; 0x3ea00000; 0x3ec00000; 0x3ee00000].
Definition kpte_device : list Z := map (λ a, Z.lor a PTE_DEVICE)
  [0x3f000000; 0x3f200000; 0x3f400000; 0x3f600000; 0x3f800000; 0x3fa00000; 0x3fc00000; 0x3fe00000].
Definition kpte : list Z := kpte_normal ++ kpte_device.
(** What the initialiser leaves out is zero; [a_kpte] and [a_kpud] are the
    addresses of the arrays. *)
Definition kpud (a_kpte : Z) : list Z :=
  [V2P a_kpte + PTE_TABLE + PTE_P; Z.lor 0x40000000 PTE_DEVICE] ++ replicate 510 0.
Definition kpgdir (a_kpud : Z) : list Z := [V2P a_kpud + PTE_TABLE + PTE_P] ++ replicate 511 0.

(** ** Address translation *)

(** The output address of a descriptor, whose [sh] low bits come from the
    virtual address, and the index of its memory attributes. *)
Definition out_addr (e sh : Z) : Z := e mod 2 ^ 48 / 2 ^ sh * 2 ^ sh.
Definition attr_index (e : Z) : Z := e / 4 mod 8.

(** The walk from level [l] on, with [n] levels to go, in physical memory [m]:
    the physical address and the attributes, or a translation fault. *)
Fixpoint walk (n : nat) (l : Z) (m : mem) (table va : Z) : option (Z * Z) :=
  let e := load64 m (table + 8 * PTX l va) in
  let sh := 39 - 9 * l in
  let leaf := Some (out_addr e sh + va mod 2 ^ sh, attr_index e) in
  if e mod 2 =? 0 then None
  else
    match n with
    | O => if e / 2 mod 2 =? 1 then leaf else None
    | S n =>
      if e / 2 mod 2 =? 1 then walk n (l + 1) m (out_addr e 12) va
      else if l =? 0 then None else leaf
    end.
Definition translate (m : mem) (ttbr va : Z) : option (Z * Z) := walk 3 0 m ttbr va.

(** An array of 512 entries at physical address [pa]. *)
Definition table_at (m : mem) (pa : Z) (t : list Z) : Prop :=
  ∀ i, 0 ≤ i < 512 → load64 m (pa + 8 * i) = nth (Z.to_nat i) t 0.
(** The loader has put the tables into memory at page boundaries. *)
Record boot_tables (m : mem) (a_kpgdir a_kpud a_kpte : Z) : Prop := {
  bt_kpgdir : table_at m (V2P a_kpgdir) (kpgdir a_kpud);
  bt_kpud : table_at m (V2P a_kpud) (kpud a_kpte);
  bt_kpte : table_at m (V2P a_kpte) kpte;
  bt_low : 0 ≤ V2P a_kpud < 2 ^ 48 ∧ 0 ≤ V2P a_kpte < 2 ^ 48;
  bt_aligned : V2P a_kpud mod PGSIZE = 0 ∧ V2P a_kpte mod PGSIZE = 0;
}.

Lemma kpte_entry i :
  0 ≤ i < 512 → nth (Z.to_nat i) kpte 0 = i * 2 ^ 21 + (if i * 2 ^ 21 <? PHYSTOP then PTE_NORMAL else PTE_DEVICE).
Proof.
  intros Hi.
  assert (forallb (λ n, nth n kpte 0 =? Z.of_nat n * 2 ^ 21 + (if Z.of_nat n * 2 ^ 21 <? PHYSTOP then PTE_NORMAL else PTE_DEVICE))
            (seq 0 512) = true) as Hall by (vm_compute; reflexivity).
  rewrite forallb_forall in Hall. specialize (Hall (Z.to_nat i)). rewrite Z2Nat.id in Hall by lia.
  apply Z.eqb_eq, Hall, in_seq. lia.
Qed.

(** The index at each level, for an address in either half. *)
Lemma PTX_val l va : 0 ≤ l ≤ 3 → PTX l va = w64 va / 2 ^ (39 - 9 * l) mod 512.
Proof.
  intros Hl. unfold PTX. change 0x1FF with (Z.ones 9). rewrite Z.land_ones by lia. by rewrite Z.shiftr_div_pow2 by lia.
Qed.
Definition kernel_or_user (va off : Z) : Prop := va = off ∨ va = KERNBASE + off.
Lemma PTX_off l va off :
  kernel_or_user va off → 0 ≤ off < 2 ^ 48 → 0 ≤ l ≤ 3 → PTX l va = off / 2 ^ (39 - 9 * l) mod 512.
Proof.
  intros Hv Ho Hl. rewrite PTX_val by done. destruct Hv as [-> | ->].
  - by rewrite w64_small by lia.
  - rewrite w64_small by (unfold KERNBASE; lia).
    assert (KERNBASE = 0xFFFF * 2 ^ 9 * 2 ^ (9 * l) * 2 ^ (39 - 9 * l)) as ->.
    { rewrite <-!Z.mul_assoc, <-!Z.pow_add_r by lia. by replace (9 + (9 * l + (39 - 9 * l))) with 48 by lia. }
    rewrite Z.add_comm, Z.div_add by (apply Z.pow_nonzero; lia).
    replace (0xFFFF * 2 ^ 9 * 2 ^ (9 * l)) with (0xFFFF * 2 ^ (9 * l) * 512) by lia. by rewrite Z.mod_add by lia.
Qed.
Lemma mod_off va off k : kernel_or_user va off → 0 ≤ k ≤ 48 → va mod 2 ^ k = off mod 2 ^ k.
Proof.
  intros [-> | ->] Hk; [done|]. replace KERNBASE with (0xFFFF * 2 ^ (48 - k) * 2 ^ k).
  - rewrite Z.add_comm. apply Z.mod_add, Z.pow_nonzero; lia.
  - rewrite <-Z.mul_assoc, <-Z.pow_add_r by lia. by replace (48 - k + k) with 48 by lia.
Qed.

(** A descriptor that points to a table. *)
Lemma walk_table n l m table va x :
  load64 m (table + 8 * PTX l va) = x + PTE_TABLE + PTE_P → 0 ≤ x < 2 ^ 48 → x mod PGSIZE = 0 →
  walk (S n) l m table va = walk n (l + 1) m x va.
Proof.
  intros He Hx Ha. cbn [walk]. rewrite He. change PTE_TABLE with 2. change PTE_P with 1. change PGSIZE with 4096 in Ha.
  destruct (Z.eqb_spec ((x + 2 + 1) mod 2) 0) as [H0|_]; [exfalso; zlia|].
  destruct (Z.eqb_spec ((x + 2 + 1) / 2 mod 2) 1) as [_|H1]; [|exfalso; zlia].
  f_equal. unfold out_addr. rewrite Z.mod_small by zlia. change (2 ^ 12) with 4096. zlia.
Qed.
Lemma walk_fault n l m table va : load64 m (table + 8 * PTX l va) = 0 → walk n l m table va = None.
Proof. intros He. destruct n; cbn [walk]; by rewrite He. Qed.
(** A block descriptor at level 1 or 2. *)
Lemma walk_block n l m table va b at_ :
  load64 m (table + 8 * PTX l va) = b * 2 ^ (39 - 9 * l) + Z.lor (Z.lor MM_TYPE_BLOCK (Z.shiftl at_ 2)) PTE_AF →
  1 ≤ l ≤ 2 → 0 ≤ b < 2 ^ 9 → 0 ≤ at_ ≤ 1 →
  walk (S n) l m table va = Some (b * 2 ^ (39 - 9 * l) + va mod 2 ^ (39 - 9 * l), at_).
Proof.
  intros He Hl Hb Hat. cbn [walk]. rewrite He.
  assert (Z.lor (Z.lor MM_TYPE_BLOCK (Z.shiftl at_ 2)) PTE_AF = 1025 + 4 * at_) as ->.
  { by assert (at_ = 0 ∨ at_ = 1) as [-> | ->] by lia. }
  assert (2 ^ (39 - 9 * l) = 2 ^ 21 ∨ 2 ^ (39 - 9 * l) = 2 ^ 30) as Hp.
  { assert (l = 1 ∨ l = 2) as [-> | ->] by lia; [by right|by left]. }
  assert (b * 2 ^ (39 - 9 * l) < 2 ^ 48) by (destruct Hp as [-> | ->]; lia).
  destruct (Z.eqb_spec ((b * 2 ^ (39 - 9 * l) + (1025 + 4 * at_)) mod 2) 0) as [H0|_].
  { exfalso. destruct Hp as [E|E]; rewrite E in H0; zlia. }
  destruct (Z.eqb_spec ((b * 2 ^ (39 - 9 * l) + (1025 + 4 * at_)) / 2 mod 2) 1) as [H1|_].
  { exfalso. destruct Hp as [E|E]; rewrite E in H1; zlia. }
  destruct (Z.eqb_spec l 0); [lia|]. unfold out_addr, attr_index. f_equal. f_equal.
  - f_equal. destruct Hp as [E|E]; rewrite E in *; zlia.
  - destruct Hp as [E|E]; rewrite E in *; zlia.
Qed.

Lemma nth_replicate_0 k n : nth n (replicate k 0) 0 = 0.
Proof. revert n. induction k as [|k IH]; intros [|n]; cbn; auto. Qed.
Lemma nth_initialised es n i : Z.of_nat (length es) ≤ i → nth (Z.to_nat i) (es ++ replicate n 0) 0 = 0.
Proof. intros Hl. rewrite app_nth2 by lia. apply nth_replicate_0. Qed.

Section Boot.
Context (m : mem) (a_kpgdir a_kpud a_kpte : Z) (HB : boot_tables m a_kpgdir a_kpud a_kpte).

(** C20: the boot page table maps the physical addresses below 2 GB, and nothing
    else, in both halves of the address space: the address that [P2V] gives is
    translated to the address it is made from.  What lies below PHYSTOP is
    normal memory and the rest is device memory, so that [MMIO_BASE] and
    [LOCAL_BASE] are accessed uncached. *)
Theorem boot_map va off :
  kernel_or_user va off → 0 ≤ off < 2 ^ 48 →
  translate m (V2P a_kpgdir) va =
    if off <? 2 ^ 31 then Some (off, if off <? PHYSTOP then MT_NORMAL else MT_DEVICE_nGnRnE) else None.
Proof.
  intros Hv Ho. unfold translate. destruct HB as [H0 H1 H2 [L1 L2] [A1 A2]].
  assert (∀ l, 0 ≤ l ≤ 3 → 0 ≤ PTX l va < 512) as Hr.
  { intros l Hl. rewrite (PTX_off l va off) by done. by apply Z.mod_pos_bound. }
  pose proof (H0 (PTX 0 va) ltac:(by apply Hr)) as E0.
  pose proof (H1 (PTX 1 va) ltac:(by apply Hr)) as E1.
  pose proof (H2 (PTX 2 va) ltac:(by apply Hr)) as E2. rewrite kpte_entry in E2 by (by apply Hr).
  pose proof (PTX_off 0 va off Hv Ho ltac:(lia)) as P0. pose proof (PTX_off 1 va off Hv Ho ltac:(lia)) as P1.
  pose proof (PTX_off 2 va off Hv Ho ltac:(lia)) as P2. 
  change (39 - 9 * 0) with 39 in P0. change (39 - 9 * 1) with 30 in P1. change (39 - 9 * 2) with 21 in P2.
  destruct (Z.ltb_spec off (2 ^ 39)) as [Hl0|Hl0].
  2:{ destruct (Z.ltb_spec off (2 ^ 31)); [lia|]. apply walk_fault. rewrite E0. apply nth_initialised. rewrite P0. cbn. zlia. }
  replace (PTX 0 va) with 0 in E0 at 2 by (rewrite P0; zlia).
  rewrite (walk_table 2 0 m _ va (V2P a_kpud) E0 L1 A1). change (0 + 1) with 1.
  destruct (Z.ltb_spec off (2 ^ 31)) as [Hl1|Hl1].
  2:{ apply walk_fault. rewrite E1. apply nth_initialised. rewrite P1. cbn. zlia. }
  destruct (Z.ltb_spec off (2 ^ 30)) as [Hl2|Hl2].
  - replace (PTX 1 va) with 0 in E1 at 2 by (rewrite P1; zlia).
    rewrite (walk_table 1 1 m _ va (V2P a_kpte) E1 L2 A2). change (1 + 1) with 2.
    assert (PTX 2 va = off / 2 ^ 21) as P2' by (rewrite P2; zlia).
    rewrite (walk_block 0 2 m _ va (PTX 2 va) (if off <? PHYSTOP then MT_NORMAL else MT_DEVICE_nGnRnE)).
    + f_equal. f_equal. change (39 - 9 * 2) with 21. rewrite (mod_off va off) by (done || lia). rewrite P2'. zlia.
    + rewrite E2. f_equal. rewrite P2'.
      assert ((off / 2 ^ 21 * 2 ^ 21 <? PHYSTOP) = (off <? PHYSTOP)) as ->; [|by destruct (off <? PHYSTOP)].
      unfold PHYSTOP. destruct (Z.ltb_spec off 0x3F000000), (Z.ltb_spec (off / 2 ^ 21 * 2 ^ 21) 0x3F000000); zlia.
    + lia.
    + by apply Hr.
    + by destruct (off <? PHYSTOP).
  - replace (PTX 1 va) with 1 in E1 at 2 by (rewrite P1; zlia).
    rewrite (walk_block 1 1 m _ va 1 MT_DEVICE_nGnRnE).
    + change (39 - 9 * 1) with 30. rewrite (mod_off va off) by (done || lia). destruct (Z.ltb_spec off PHYSTOP); [unfold PHYSTOP in *; lia|].
      f_equal. f_equal. zlia.
    + rewrite E1. reflexivity.
    + lia.
    + lia.
    + unfold MT_DEVICE_nGnRnE. lia.
Qed.
End Boot.

(** The tables at physical pages 1 to 3. *)
Definition ex_tables : list (list Z) := [[]; kpgdir (P2V 0x2000); kpud (P2V 0x3000); kpte].
Definition ex_mem : mem := λ a,
  nth (Z.to_nat (a mod 8)) (bytes_of 8 (nth (Z.to_nat (a mod 0x1000 / 8)) (nth (Z.to_nat (a / 0x1000)) ex_tables []) 0)) 0.
Lemma ex_table k t : (k < 4)%nat → nth k ex_tables [] = t →
  forallb (λ n, load64 ex_mem (Z.of_nat k * 0x1000 + 8 * Z.of_nat n) =? nth n t 0) (seq 0 512) = true →
  table_at ex_mem (Z.of_nat k * 0x1000) t.
Proof.
  intros Hk Ht Hall i Hi. rewrite forallb_forall in Hall. specialize (Hall (Z.to_nat i)). rewrite Z2Nat.id in Hall by lia.
  apply Z.eqb_eq, Hall, in_seq. lia.
Qed.
Lemma boot_map_witness :
  translate ex_mem 0x1000 (P2V 0x123456) = Some (0x123456, MT_NORMAL) ∧
  translate ex_mem 0x1000 (KERNBASE + 0x40000034) = Some (0x40000034, MT_DEVICE_nGnRnE) ∧
  translate ex_mem 0x1000 0x80000000 = None.
Proof.
  assert (boot_tables ex_mem (P2V 0x1000) (P2V 0x2000) (P2V 0x3000)) as HB.
  { split.
    - apply (ex_table 1); [lia|reflexivity|vm_compute; reflexivity].
    - apply (ex_table 2); [lia|reflexivity|vm_compute; reflexivity].
    - apply (ex_table 3); [lia|reflexivity|vm_compute; reflexivity].
    - split; vm_compute; split; congruence.
    - split; vm_compute; reflexivity. }
  pose proof (boot_map ex_mem (P2V 0x1000) (P2V 0x2000) (P2V 0x3000) HB) as H.
  split; [|split].
  - apply (H (P2V 0x123456) 0x123456); [right; reflexivity|lia].
  - apply (H (KERNBASE + 0x40000034) 0x40000034); [right; reflexivity|lia].
  - apply (H 0x80000000 0x80000000); [left; reflexivity|lia].
Defined.
