(* ===== verification/PageTable.v ===== *)
(** The page tables of file Vm as an abstract map, and the proof that each
    operation changes only the mappings it should, in one address space only.

    Every page in use by the virtual memory is registered in a map [K]: the
    root of the table it belongs to, its level (0 to 3 for tables, 4 for a page
    of user memory) and the index path that leads to it.  One page has one
    registration, so tables and user pages are never shared, within an address
    space or between two of them; pages on the free list have none. *)

From S2P Require Import Prelude Memory CString Kalloc Vm.

(** ** Bits of page table entries *)

Lemma land_flags x f g :
  x mod 4096 = 0 → 0 ≤ f < 4096 → 0 ≤ g < 4096 →
  Z.lor x f = x + f ∧ Z.land (Z.lor x f) g = Z.land f g ∧ Z.land (Z.lor x f) (Z.lnot 0xFFF) = x.
Proof.
  intros Hx Hf Hg.
  assert (∀ y, 0 ≤ y < 4096 → Z.land x y = 0) as Hz.
  { intros y Hy. apply Z.bits_inj'. intros n Hn. rewrite Z.land_spec, Z.bits_0.
    destruct (Z.ltb_spec n 12) as [Hlt|Hge].
    - replace x with (x / 4096 * 2 ^ 12) by (change (2 ^ 12) with 4096; zlia).
      by rewrite Z.mul_pow2_bits_low.
    - rewrite (Z.bits_above_log2 y n); [apply andb_false_r|lia|].
      destruct (decide (y = 0)) as [->|]; [cbn; lia|].
      apply Z.log2_lt_pow2; [lia|]. apply Z.lt_le_trans with (2 ^ 12); [lia|].
      apply Z.pow_le_mono_r; lia. }
  split; [|split].
  - pose proof (Z.add_lor_land x f) as Hl. rewrite (Hz f Hf) in Hl. lia.
  - rewrite Z.land_lor_distr_l, (Hz g Hg). done.
  - rewrite Z.land_lor_distr_l. change (Z.lnot 0xFFF) with (Z.lnot (Z.ones 12)).
    rewrite <-!Z.ldiff_land, !Z.ldiff_ones_r by lia.
    rewrite !Z.shiftr_div_pow2, !Z.shiftl_mul_pow2 by lia. change (2 ^ 12) with 4096.
    rewrite (Z.div_small f) by lia. rewrite Z.lor_0_r. zlia.
Qed.

Lemma pte_addr_range pte : 0 ≤ pte → PTE_ADDR pte = 4096 * (pte / 4096).
Proof.
  intros Hp. unfold PTE_ADDR. change (Z.lnot 0xFFF) with (Z.lnot (Z.ones 12)).
  rewrite <-Z.ldiff_land, Z.ldiff_ones_r by lia.
  rewrite Z.shiftr_div_pow2, Z.shiftl_mul_pow2 by lia. change (2 ^ 12) with 4096. lia.
Qed.

(** The physical address of a managed page. *)
Lemma v2p_page kend p :
  page_ok kend p → V2P p = p - KERNBASE ∧ V2P p mod 4096 = 0 ∧ 0 ≤ V2P p < PHYSTOP ∧
  PTE_ADDR p = p ∧ PTE_ADDR (V2P p) = V2P p ∧ P2V (V2P p) = p.
Proof.
  intros (Ha & _ & Hb). unfold PGSIZE in Ha.
  assert (V2P p = p - KERNBASE) as Hv.
  { unfold V2P. apply w64_small. unfold KERNBASE, PHYSTOP in *. lia. }
  rewrite Hv. assert ((p - KERNBASE) mod 4096 = 0) as Hm.
  { unfold KERNBASE in *. zlia. }
  split; [done|]. split; [done|]. split; [lia|]. split; [|split].
  - rewrite pte_addr_range by (unfold KERNBASE in *; lia). zlia.
  - rewrite pte_addr_range by lia. zlia.
  - unfold P2V. rewrite Z.sub_add. apply w64_small. unfold KERNBASE, PHYSTOP in *. lia.
Qed.

(** An entry for the managed page [p] with flags [f]. *)
Lemma entry_page kend p f :
  page_ok kend p → 0 ≤ f < 4096 → let e := Z.lor (V2P p) f in
  P2V (PTE_ADDR e) = p ∧ (∀ g, 0 ≤ g < 4096 → Z.land e g = Z.land f g) ∧ 0 ≤ e < 2 ^ 64.
Proof.
  intros Hp Hf e. destruct (v2p_page kend p Hp) as (_ & Hm & Hr & _ & _ & Hv).
  unfold e, PTE_ADDR. split; [|split].
  - destruct (land_flags (V2P p) f 0 Hm Hf) as (_ & _ & ->); [lia|done].
  - intros g Hg. by destruct (land_flags (V2P p) f g Hm Hf Hg) as (_ & -> & _).
  - destruct (land_flags (V2P p) f 0 Hm Hf) as (-> & _); [lia|]. unfold PHYSTOP in Hr. lia.
Qed.

(** ** Index paths *)

Lemma PTX_range l va : 0 ≤ PTX l va < 512.
Proof.
  unfold PTX. change 0x1FF with (Z.ones 9). rewrite Z.land_ones by lia.
  apply Z.mod_pos_bound. lia.
Qed.

(** The path of [va] to level [l]. *)
Fixpoint path (l : nat) (va : Z) : Z :=
  match l with
  | O => 0
  | S l => path l va * 512 + PTX (Z.of_nat l) va
  end.

Lemma path_split x i : 0 ≤ i < 512 → (x * 512 + i) / 512 = x ∧ (x * 512 + i) mod 512 = i.
Proof. zlia. Qed.

Lemma path_page va : 0 ≤ va < 2 ^ 48 → path 4 va = va / 4096.
Proof.
  intros Hva. cbn [path]. unfold PTX. change 0x1FF with (Z.ones 9).
  rewrite !Z.land_ones, w64_small, !Z.shiftr_div_pow2 by lia.
  change (2 ^ (39 - 9 * Z.of_nat 0)) with (2 ^ 39). change (2 ^ (39 - 9 * Z.of_nat 1)) with (2 ^ 30).
  change (2 ^ (39 - 9 * Z.of_nat 2)) with (2 ^ 21). change (2 ^ (39 - 9 * Z.of_nat 3)) with (2 ^ 12).
  zlia.
Qed.

(** ** The registration of pages *)

Record reg := Reg { r_root : Z; r_level : nat; r_path : Z }.

Definition entry (m : mem) (p i : Z) : Z := load64 m (p + 8 * i).
Definition child (e : Z) : Z := P2V (PTE_ADDR e).
Definition present (e : Z) : Prop := Z.land e PTE_P ≠ 0.

Section Tables.
Context (kend : Z).
Implicit Types (m : mem) (K : gmap Z reg).

(** A present entry of a registered table leads to the page registered for
    that position, and every registered page other than a root is reached that
    way. *)
Record pt_ok m K : Prop := {
  pk_page p r : K !! p = Some r → page_ok kend p;
  pk_level p r : K !! p = Some r → (r_level r ≤ 4)%nat;
  pk_root p r pre : K !! p = Some (Reg r 0 pre) → p = r ∧ pre = 0;
  pk_parent c r l pre : K !! c = Some (Reg r (S l) pre) →
    ∃ p, K !! p = Some (Reg r l (pre / 512)) ∧ present (entry m p (pre mod 512)) ∧
         child (entry m p (pre mod 512)) = c;
  pk_child p r l pre i : K !! p = Some (Reg r l pre) → (l < 4)%nat → 0 ≤ i < 512 →
    present (entry m p i) → K !! child (entry m p i) = Some (Reg r (S l) (pre * 512 + i));
}.

Record vm_inv (s : kst) (l : list Z) K : Prop := {
  vi_free : kinv kend s l;
  vi_pt : pt_ok (k_mem s) K;
  vi_disj p : p ∈ l → K !! p = None;
}.

(** The walk as a function of the memory: 0 when a table is missing. *)
Fixpoint slot_from (n : nat) m (level p va : Z) : Z :=
  match n with
  | O => pte_addr p 3 va
  | S n =>
    let e := entry m p (PTX level va) in
    if Z.land e PTE_P =? 0 then 0 else slot_from n m (level + 1) (child e) va
  end.
Definition val_from (n : nat) m (level p va : Z) : Z :=
  let a := slot_from n m level p va in if a =? 0 then 0 else load64 m a.

(** The page table entry of [va] in the address space [root]; 0 if it has none. *)
Definition slot m (root va : Z) : Z := slot_from 3 m 0 root va.
Definition pte_val m (root va : Z) : Z := val_from 3 m 0 root va.

Definition is_root K (root : Z) : Prop := K !! root = Some (Reg root 0 0).

Lemma walk_noalloc n : ∀ level p va s,
  walk_loop n level p va 0 s = Ret (slot_from n (k_mem s) level p va) s.
Proof.
  induction n as [|n IH]; intros level p va s; cbn [walk_loop slot_from]; [done|].
  mstep (eq_refl (ld (pte_addr p level va) s)). unfold entry, pte_addr.
  destruct (Z.land _ PTE_P =? 0); cbn [negb]; [done|]. apply IH.
Qed.

Lemma page_pos p : page_ok kend p → 0 < p.
Proof. intros (_ & _ & Hp). unfold KERNBASE in Hp. lia. Qed.

Lemma slot_reg m K n : ∀ l p va r,
  pt_ok m K → K !! p = Some (Reg r l (path l va)) → (n + l = 3)%nat →
  let a := slot_from n m (Z.of_nat l) p va in
  a = 0 ∨ ∃ q, K !! q = Some (Reg r 3 (path 3 va)) ∧ a = q + 8 * PTX 3 va.
Proof.
  induction n as [|n IH]; intros l p va r Hok Hp Hn; cbn [slot_from].
  - right. assert (l = 3%nat) as -> by lia. by exists p.
  - destruct (Z.eqb_spec (Z.land (entry m p (PTX (Z.of_nat l) va)) PTE_P) 0) as [He|He]; [by left|].
    replace (Z.of_nat l + 1) with (Z.of_nat (S l)) by lia. apply IH; [done| |lia].
    apply (pk_child _ _ Hok _ _ _ _ _ Hp); [lia|apply PTX_range|done].
Qed.


(** An address of an entry lies in the page, eight bytes at a time. *)
Lemma entry_in_page p i k : 0 ≤ i < 512 → 0 ≤ k < 8 → in_page p (p + 8 * i + k).
Proof. unfold in_page, PGSIZE. lia. Qed.

Lemma entry_ext m m' p i :
  0 ≤ i < 512 → (∀ x, in_page p x → m' x = m x) → entry m' p i = entry m p i.
Proof. intros Hi Hm. apply load64_ext. intros k Hk. by apply Hm, entry_in_page. Qed.

Lemma entry_store m p i q j v :
  page_ok kend p → page_ok kend q → 0 ≤ i < 512 → 0 ≤ j < 512 → 0 ≤ v < 2 ^ 64 →
  entry (store64 m (p + 8 * i) v) q j = if decide (q = p ∧ j = i) then v else entry m q j.
Proof.
  intros Hp Hq Hi Hj Hv. case_decide as Hc.
  - destruct Hc as [-> ->]. by apply load64_store64.
  - eapply load64_outside; [apply store64_outside|].
    destruct (decide (q = p)) as [->|Hne]; [lia|].
    destruct (decide (q < p)).
    + left. unfold page_ok, PGSIZE in *. zlia.
    + right. unfold page_ok, PGSIZE in *. zlia.
Qed.

(** A page of zeroes has no mapping. *)
Lemma val_zero m n level p va :
  (∀ x, in_page p x → m x = 0) → val_from n m level p va = 0.
Proof.
  intros Hz. unfold val_from. destruct n as [|n]; cbn [slot_from].
  - destruct (_ =? 0); [done|]. apply load64_zero. intros k Hk.
    apply Hz, entry_in_page; [apply PTX_range|done].
  - unfold entry. rewrite load64_zero; [done|]. intros k Hk.
    apply Hz, entry_in_page; [apply PTX_range|done].
Qed.

(** Memory that is neither tables nor free (user pages, pages that the kernel
    uses for itself, the kernel's code and data) keeps its contents. *)
Definition user_same (free : list Z) K (m m' : mem) : Prop :=
  ∀ p x, aligned p → p ∉ free → (∀ r, K !! p = Some r → r_level r = 4%nat) →
    in_page p x → m' x = m x.

(** Every existing address space keeps its mappings. *)
Definition maps_same K (m m' : mem) : Prop :=
  ∀ l p r va n, K !! p = Some (Reg r l (path l va)) → (n + l = 3)%nat →
    val_from n m' (Z.of_nat l) p va = val_from n m (Z.of_nat l) p va.

(** The page [c] becomes the table below entry [i] of [p]. *)
Section Extend.
Context (m m' : mem) (K : gmap Z reg) (p r : Z) (l : nat) (pre i c : Z).
Hypothesis (Hok : pt_ok m K) (Hp : K !! p = Some (Reg r l pre)) (Hl : (l < 3)%nat).
Hypothesis (Hi : 0 ≤ i < 512) (Habs : ¬ present (entry m p i)).
Hypothesis (Hc : page_ok kend c) (Hcn : K !! c = None).
Hypothesis (Hz : ∀ x, in_page c x → m' x = 0).
Hypothesis (Hent : ∀ q j rg, K !! q = Some rg → 0 ≤ j < 512 →
  entry m' q j = if decide (q = p ∧ j = i) then Z.lor (V2P c) 3 else entry m q j).

Let K' := <[c := Reg r (S l) (pre * 512 + i)]> K.

Lemma extend_entry_p : entry m' p i = Z.lor (V2P c) 3.
Proof. rewrite (Hent p i _ Hp Hi). by rewrite decide_True. Qed.

Lemma new_entry : present (Z.lor (V2P c) 3) ∧ child (Z.lor (V2P c) 3) = c.
Proof.
  destruct (entry_page kend c 3 Hc) as (Hch & Hfl & _); [lia|].
  split; [|done]. unfold present. by rewrite Hfl.
Qed.

Lemma extend_parent : ∀ d r' l' pre', K' !! d = Some (Reg r' (S l') pre') →
  ∃ q, K' !! q = Some (Reg r' l' (pre' / 512)) ∧ present (entry m' q (pre' mod 512)) ∧
       child (entry m' q (pre' mod 512)) = d.
Proof.
  destruct new_entry as [Hnp Hnc].
  intros d r' l' pre' [[<- [= <- <- <-]]|[Hdc Hd]]%lookup_insert_Some.
  - exists p. destruct (path_split pre i Hi) as [-> ->].
    rewrite extend_entry_p. split; [|done]. unfold K'. rewrite lookup_insert_ne; [done|congruence].
  - destruct (pk_parent _ _ Hok _ _ _ _ Hd) as (q & Hq & Hpr & Hch). exists q.
    assert (0 ≤ pre' mod 512 < 512) as Hj by (apply Z.mod_pos_bound; lia).
    split; [unfold K'; rewrite lookup_insert_ne; [done|congruence]|].
    rewrite (Hent q _ _ Hq Hj). case_decide as Hx; [|done]. destruct Hx as [-> Hx].
    rewrite Hx in Hpr. by destruct Habs.
Qed.

Lemma extend_ok : pt_ok m' K'.
Proof.
  split.
  - intros q rg Hq. apply lookup_insert_Some in Hq as [[<- _]|[_ Hq]]; [done|].
    by eapply pk_page.
  - intros q rg [[_ <-]|[_ Hq]]%lookup_insert_Some; [cbn; lia|]. by eapply pk_level.
  - intros q r' pre' [[_ Hq]|[_ Hq]]%lookup_insert_Some; [done|]. by eapply pk_root.
  - apply extend_parent.
  - intros q r' l' pre' j Hq Hl' Hj Hpr. unfold K' in Hq |- *.
    apply lookup_insert_Some in Hq as [[<- Heq]|[Hqc Hq]].
    + exfalso. apply Hpr. unfold entry. rewrite load64_zero; [done|].
      intros k Hk. by apply Hz, entry_in_page.
    + rewrite (Hent q j _ Hq Hj) in Hpr |- *. case_decide as Hd.
      * destruct Hd as [-> ->]. rewrite Hp in Hq. injection Hq as <- <- <-.
        unfold child. destruct (entry_page kend c 3 Hc) as (-> & _); [lia|].
        by rewrite lookup_insert_eq.
      * assert (K !! child (entry m q j) = Some (Reg r' (S l') (pre' * 512 + j))) as Hch
          by by apply (pk_child _ _ Hok _ _ _ _ _ Hq).
        rewrite lookup_insert_ne; [done|]. intros Heq. rewrite <-Heq in Hch. congruence.
Qed.

Lemma extend_maps : maps_same K m m'.
Proof.
  intros l2 q r2 va n. revert l2 q. induction n as [|n IH]; intros l2 q Hq Hn.
  - assert (l2 = 3%nat) as -> by lia. unfold val_from. cbn [slot_from].
    destruct (_ =? 0); [done|]. change (load64 ?x (pte_addr q 3 va)) with (entry x q (PTX 3 va)).
    rewrite (Hent q _ _ Hq (PTX_range 3 va)). rewrite decide_False; [done|].
    intros [-> _]. rewrite Hp in Hq. injection Hq as _ -> _. lia.
  - unfold val_from. cbn [slot_from]. rewrite (Hent q _ _ Hq (PTX_range _ va)).
    case_decide as Hd.
    + destruct Hd as [-> Hix].
      destruct (Z.eqb_spec (Z.land (entry m p (PTX (Z.of_nat l2) va)) PTE_P) 0) as [_|Hbad];
        [|rewrite Hix in Hbad; by destruct Habs].
      destruct (entry_page kend c 3 Hc) as (Hch & Hfl & _); [lia|].
      rewrite Hfl by done. unfold child. rewrite Hch.
      change (Z.land 3 PTE_P =? 0) with false. cbv iota.
      pose proof (val_zero m' n (Z.of_nat l2 + 1) c va Hz) as Hv. unfold val_from in Hv.
      rewrite Hv. done.
    + destruct (Z.eqb_spec (Z.land (entry m q (PTX (Z.of_nat l2) va)) PTE_P) 0) as [He|He]; [done|].
      replace (Z.of_nat l2 + 1) with (Z.of_nat (S l2)) by lia. apply IH; [|lia].
      apply (pk_child _ _ Hok _ _ _ _ _ Hq); [lia|apply PTX_range|done].
Qed.
End Extend.

Lemma kinv_ext s m' l :
  kinv kend s l → (∀ p x, p ∈ l → in_page p x → m' x = k_mem s x) →
  kinv kend (mkKst m' (k_free s)) l.
Proof. intros [Hl Hnd Hok] Hm. split; try done. cbn. by eapply flist_ext. Qed.

Lemma maps_same_trans K K1 m m1 m2 :
  K ⊆ K1 → maps_same K m m1 → maps_same K1 m1 m2 → maps_same K m m2.
Proof.
  intros Hsub H1 H2 l p r va n Hp Hn.
  rewrite (H2 l p r va n); [by eapply H1|by eapply lookup_weaken|done].
Qed.
(** The tables have grown, and nothing else has happened. *)
Record grows s free K s' free' K' : Prop := {
  gr_inv : vm_inv s' free' K';
  gr_sub : K ⊆ K';
  gr_free : ∃ used, free = used ++ free';
  gr_new q rg : K' !! q = Some rg → K !! q = None → q ∈ free ∧ (r_level rg < 4)%nat;
  gr_maps : maps_same K (k_mem s) (k_mem s');
  gr_user : user_same free K (k_mem s) (k_mem s');
  gr_kept p r l pre i : K !! p = Some (Reg r l pre) → (l < 4)%nat → 0 ≤ i < 512 →
    present (entry (k_mem s) p i) → entry (k_mem s') p i = entry (k_mem s) p i;
}.

Lemma grows_refl s free K : vm_inv s free K → grows s free K s free K.
Proof. intros Hi. split; try done; [by exists []|congruence]. Qed.

Lemma grows_trans s f K s1 f1 K1 s2 f2 K2 :
  grows s f K s1 f1 K1 → grows s1 f1 K1 s2 f2 K2 → grows s f K s2 f2 K2.
Proof.
  intros [I1 S1 [u1 F1] N1 M1 U1 E1] [I2 S2 [u2 F2] N2 M2 U2 E2]. split.
  - done.
  - by transitivity K1.
  - exists (u1 ++ u2). by rewrite F1, F2, app_assoc.
  - intros q rg Hq Hn. destruct (K1 !! q) as [rg1|] eqn:H1.
    + destruct (N1 q rg1 H1 Hn) as [? ?]. split; [done|].
      pose proof (lookup_weaken _ _ _ _ H1 S2). congruence.
    + destruct (N2 q rg Hq H1). split; [|done]. rewrite F1. apply elem_of_app. by right.
  - by eapply maps_same_trans.
  - intros p x Hp Hf Hl Hx. rewrite (U2 p x Hp); [by apply (U1 p)| | |done].
    + intros Hf1. apply Hf. rewrite F1. apply elem_of_app. by right.
    + intros rg Hq. destruct (K !! p) as [rg1|] eqn:H1; [|by destruct (N1 p rg Hq H1)].
      pose proof (lookup_weaken _ _ _ _ H1 S1). apply Hl. congruence.
  - intros p r l pre i Hp Hl Hi Hpr. pose proof (E1 _ _ _ _ _ Hp Hl Hi Hpr) as He.
    rewrite (E2 p r l pre i); [done|by eapply lookup_weaken|done|done|by rewrite He].
Qed.

(** One more table. *)
Lemma grow_table s c free K p r l pre i :
  vm_inv s (c :: free) K → K !! p = Some (Reg r l pre) → (l < 3)%nat → 0 ≤ i < 512 →
  ¬ present (entry (k_mem s) p i) →
  ∃ s1, kalloc s = Ret c s1 ∧
    let m2 := memset (k_mem s1) c 0 PGSIZE in
    let m3 := store64 m2 (p + 8 * i) (Z.lor (V2P c) 3) in
    let s3 := mkKst m3 (k_free s1) in
    let K' := <[c := Reg r (S l) (pre * 512 + i)]> K in
    grows s (c :: free) K s3 free K' ∧ entry m3 p i = Z.lor (V2P c) 3.
Proof.
  intros [Hf Hok Hd] Hp Hl Hi Habs.
  assert (page_ok kend c) as Hc by (pose proof (ki_pages _ _ _ Hf) as Hf'; by apply Forall_cons in Hf' as []).
  assert (page_ok kend p) as Hpp by by eapply pk_page.
  assert (K !! c = None) as Hcn by (apply Hd, elem_of_cons; by left).
  assert (p ≠ c) as Hpc by congruence.
  destruct (kalloc_spec kend s _ Hf) as (s1 & H1 & Hf1 & _ & Hout1).
  exists s1. split; [done|]. intros m2 m3 s3 K'.
  destruct (memset_spec (k_mem s1) c 0 PGSIZE) as [Hin2 Hout2]; [unfold PGSIZE; lia|]. fold m2 in Hin2, Hout2.
  destruct (entry_page kend c 3 Hc) as (_ & _ & Hrange); [lia|].
  assert (∀ q x, aligned q → q ≠ c → in_page q x → m2 x = k_mem s x) as Hq2.
  { intros q x Hq Hne Hx. rewrite Hout2, Hout1; [done|..]; intros Hx'; apply Hne;
      by apply (aligned_disjoint q c x); [|eapply page_aligned| |]. }
  assert (∀ q x, aligned q → q ≠ p → in_page q x → m3 x = m2 x) as Hq3.
  { intros q x Hq Hne Hx. apply store64_outside. intros Hx'. apply Hne.
    apply (aligned_disjoint q p x); [done|by eapply page_aligned|done|]. unfold in_page, PGSIZE. lia. }
  assert (∀ x, in_page c x → m3 x = 0) as Hz.
  { intros x Hx. rewrite (Hq3 c x) by (done || by eapply page_aligned). unfold in_page in Hx.
    replace x with (c + (x - c)) by lia. by rewrite Hin2 by lia. }
  assert (∀ q j rg, K !! q = Some rg → 0 ≤ j < 512 →
    entry m3 q j = if decide (q = p ∧ j = i) then Z.lor (V2P c) 3 else entry (k_mem s) q j) as Hent.
  { intros q j rg Hq Hj. assert (page_ok kend q) by by eapply pk_page.
    unfold m3. rewrite entry_store by done. case_decide; [done|].
    apply entry_ext; [done|]. intros x Hx. apply (Hq2 q); [by eapply page_aligned|congruence|done]. }
  assert (∀ q, q ∈ free → page_ok kend q ∧ q ≠ c ∧ q ≠ p) as Hfree.
  { intros q Hq. pose proof (ki_pages _ _ _ Hf) as Hfp. pose proof (ki_nodup _ _ _ Hf) as Hnd.
    apply NoDup_cons in Hnd as [Hnd _]. rewrite Forall_forall in Hfp.
    split; [apply Hfp, elem_of_cons; by right|]. split; [by intros ->|]. intros ->.
    rewrite Hd in Hp; [done|]. apply elem_of_cons; by right. }
  split; [split|].
  - split.
    + apply (kinv_ext s1); [done|]. intros q x Hq Hx. destruct (Hfree q Hq) as (Hqo & Hqc & Hqp).
      rewrite (Hq3 q) by (done || by eapply page_aligned). apply Hout2. intros Hx'. apply Hqc. by eapply (pages_disjoint kend q c x).
    + by apply (extend_ok (k_mem s) m3 K p r l pre i c).
    + intros q Hq. unfold K'. destruct (Hfree q Hq) as (_ & Hqc & _).
      rewrite lookup_insert_ne by done. apply Hd, elem_of_cons. by right.
  - unfold K'. by apply insert_subseteq.
  - by exists [c].
  - intros q rg [[<- <-]|[_ Hq]]%lookup_insert_Some Hn; [|congruence].
    split; [apply elem_of_cons; by left|cbn; lia].
  - by apply (extend_maps (k_mem s) m3 K p r l pre i c).
  - intros q x Hqo Hqf Hlev Hx. cbn.
    assert (q ≠ p) by (intros ->; specialize (Hlev _ Hp); cbn in Hlev; lia).
    rewrite (Hq3 q) by done. apply (Hq2 q); [done| |done]. intros ->. apply Hqf, elem_of_cons. by left.
  - intros q r' l' pre' j Hq Hl' Hj Hpr. change (entry m3 q j = entry (k_mem s) q j). rewrite (Hent q j _ Hq Hj). case_decide as Hdd; [|done].
    destruct Hdd as [-> ->]. by destruct Habs.
  - rewrite (Hent p i _ Hp Hi). by rewrite decide_True.
Qed.

Lemma walk_alloc n : ∀ l p va s free K r,
  vm_inv s free K → K !! p = Some (Reg r l (path l va)) → (n + l = 3)%nat →
  ∃ a s' free' K', walk_loop n (Z.of_nat l) p va 1 s = Ret a s' ∧ grows s free K s' free' K' ∧
    a = slot_from n (k_mem s') (Z.of_nat l) p va ∧ (a = 0 → free' = [] ∧ (length free < n)%nat) ∧
    (length free ≤ length free' + n)%nat.
Proof.
  induction n as [|n IH]; intros l p va s free K r Hi Hp Hn; cbn [walk_loop slot_from].
  - exists (pte_addr p 3 va), s, free, K. split; [done|]. split; [by apply grows_refl|].
    split; [done|]. split; [|lia].
    pose proof (page_pos p (pk_page _ _ (vi_pt _ _ _ Hi) _ _ Hp)). pose proof (PTX_range 3 va).
    unfold pte_addr. lia.
  - mstep (eq_refl (ld (pte_addr p (Z.of_nat l) va) s)). fold (entry (k_mem s) p (PTX (Z.of_nat l) va)).
    unfold pte_addr at 1. fold (entry (k_mem s) p (PTX (Z.of_nat l) va)).
    set (i := PTX (Z.of_nat l) va). assert (0 ≤ i < 512) as Hr by apply PTX_range.
    replace (Z.of_nat l + 1) with (Z.of_nat (S l)) by lia.
    destruct (Z.eqb_spec (Z.land (entry (k_mem s) p i) PTE_P) 0) as [He|He]; cbn [negb].
    + cbn [Z.eqb]. destruct free as [|c free].
      * exists 0, s, [], K. pose proof (kalloc_spec kend s [] (vi_free _ _ _ Hi)) as Hk.
        split; [mstep Hk; done|]. split; [by apply grows_refl|]. split; [|split; [intros _; cbn; split; [done|lia]|cbn; lia]].
        by rewrite He.
      * destruct (grow_table s c free K p r l (path l va) i Hi Hp) as (s1 & H1 & Hg & Hen); [lia|done| |].
        { intros Hpr. by apply Hpr. }
        assert (page_ok kend c) as Hc.
        { pose proof (ki_pages _ _ _ (vi_free _ _ _ Hi)) as Hf'. by apply Forall_cons in Hf' as []. }
        set (s3 := mkKst _ _) in Hg. set (K' := <[c := _]> K) in Hg.
        destruct (IH (S l) c va s3 free K' r) as (a & s' & free' & K2 & Hw & Hg2 & Ha & H0 & Hlen).
        { apply Hg. } { unfold K'. rewrite lookup_insert_eq. done. } { lia. }
        exists a, s', free', K2. split; [|split; [|split; [|split; [|cbn; lia]]]].
        4: { intros Ha0. destruct (H0 Ha0). split; [done|cbn; lia]. }
        -- mstep H1. pose proof (page_pos c Hc). destruct (Z.eqb_spec c 0); [lia|].
           mstep (eq_refl (setmem c 0 PGSIZE s1)).
           destruct (v2p_page kend c Hc) as (_ & _ & _ & Hpa & _). rewrite Hpa.
           rewrite <-Z.lor_assoc. change (Z.lor PTE_P PTE_TABLE) with 3. exact Hw.
        -- by eapply grows_trans.
        -- assert (entry (k_mem s') p i = Z.lor (V2P c) 3) as Hen'.
           { rewrite <-Hen. apply (gr_kept _ _ _ _ _ _ Hg2 p r l (path l va)); [|lia|done|].
             - unfold K'. rewrite lookup_insert_ne; [done|]. intros <-.
               rewrite (vi_disj _ _ _ Hi) in Hp; [done|]. apply elem_of_cons; by left.
             - change (present (entry (store64 (memset (k_mem s1) c 0 PGSIZE) (p + 8 * i)
                 (Z.lor (V2P c) 3)) p i)). rewrite Hen.
               unfold present. destruct (entry_page kend c 3 Hc) as (_ & -> & _); done. }
           rewrite Hen'. destruct (entry_page kend c 3 Hc) as (Hch & Hfl & _); [lia|].
           rewrite Hfl by done. unfold child. rewrite Hch. exact Ha.
    + assert (K !! child (entry (k_mem s) p i) = Some (Reg r (S l) (path (S l) va))) as Hch
        by (apply (pk_child _ _ (vi_pt _ _ _ Hi) _ _ _ _ _ Hp); [lia|done|done]).
      destruct (IH (S l) _ va s free K r Hi Hch) as (a & s' & free' & K2 & Hw & Hg2 & Ha & H0 & Hlen); [lia|].
      exists a, s', free', K2. split; [done|]. split; [done|].
      split; [|split; [|lia]]. 2: { intros Ha0. destruct (H0 Ha0). split; [done|lia]. }
      rewrite (gr_kept _ _ _ _ _ _ Hg2 p r l (path l va)) by (done || lia).
      destruct (Z.eqb_spec (Z.land (entry (k_mem s) p i) PTE_P) 0); [done|]. exact Ha.
Qed.

(** One position, one page. *)
Lemma pk_inj m K l : ∀ p p' r pre,
  pt_ok m K → K !! p = Some (Reg r l pre) → K !! p' = Some (Reg r l pre) → p = p'.
Proof.
  induction l as [|l IH]; intros p p' r pre Hok Hp Hp'.
  - destruct (pk_root _ _ Hok _ _ _ Hp) as [-> _]. by destruct (pk_root _ _ Hok _ _ _ Hp') as [-> _].
  - destruct (pk_parent _ _ Hok _ _ _ _ Hp) as (q & Hq & _ & <-).
    destruct (pk_parent _ _ Hok _ _ _ _ Hp') as (q' & Hq' & _ & <-).
    by rewrite (IH q q' r _ Hok Hq Hq').
Qed.

(** The upper levels decide where a walk ends. *)
Lemma slot_frame m m' K n : ∀ l p r va,
  pt_ok m K → K !! p = Some (Reg r l (path l va)) → (n + l = 3)%nat →
  (∀ q r' l' pre j, K !! q = Some (Reg r' l' pre) → (l' < 3)%nat → 0 ≤ j < 512 →
     entry m' q j = entry m q j) →
  slot_from n m' (Z.of_nat l) p va = slot_from n m (Z.of_nat l) p va.
Proof.
  induction n as [|n IH]; intros l p r va Hok Hp Hn He; cbn [slot_from]; [done|].
  rewrite (He p r l (path l va)) by (done || lia || apply PTX_range).
  destruct (Z.eqb_spec (Z.land (entry m p (PTX (Z.of_nat l) va)) PTE_P) 0); [done|].
  replace (Z.of_nat l + 1) with (Z.of_nat (S l)) by lia. apply (IH _ _ r); [done| |lia|done].
  apply (pk_child _ _ Hok _ _ _ _ _ Hp); [lia|apply PTX_range|done].
Qed.

Definition same_page (va va2 : Z) : Prop := va2 / 4096 = va / 4096.
#[global] Instance same_page_dec va va2 : Decision (same_page va va2) := decide (_ = _).

Lemma PTX_same_page va va2 l :
  0 ≤ va < 2 ^ 48 → 0 ≤ va2 < 2 ^ 48 → same_page va va2 → (l < 4)%nat →
  PTX (Z.of_nat l) va2 = PTX (Z.of_nat l) va.
Proof.
  intros Hva Hva2 Hs Hl. pose proof (path_page va Hva) as H1. pose proof (path_page va2 Hva2) as H2.
  rewrite Hs, <-H1 in H2. clear H1. cbn [path] in H2.
  pose proof (PTX_range (Z.of_nat 0) va). pose proof (PTX_range (Z.of_nat 0) va2).
  pose proof (PTX_range (Z.of_nat 1) va). pose proof (PTX_range (Z.of_nat 1) va2).
  pose proof (PTX_range (Z.of_nat 2) va). pose proof (PTX_range (Z.of_nat 2) va2).
  pose proof (PTX_range (Z.of_nat 3) va). pose proof (PTX_range (Z.of_nat 3) va2).
  do 4 (destruct l as [|l]; [lia|]). lia.
Qed.

Lemma slot_same_page m p va va2 n : ∀ l,
  0 ≤ va < 2 ^ 48 → 0 ≤ va2 < 2 ^ 48 → same_page va va2 → (n + l = 3)%nat →
  slot_from n m (Z.of_nat l) p va2 = slot_from n m (Z.of_nat l) p va.
Proof.
  revert p. induction n as [|n IH]; intros p l Hva Hva2 Hs Hn; cbn [slot_from].
  - unfold pte_addr. pose proof (PTX_same_page va va2 3 Hva Hva2 Hs) as H3.
    change (Z.of_nat 3) with 3 in H3. by rewrite H3 by lia.
  - rewrite (PTX_same_page va va2 l) by (done || lia).
    destruct (_ =? 0); [done|]. replace (Z.of_nat l + 1) with (Z.of_nat (S l)) by lia.
    apply IH; done || lia.
Qed.

(** What a store to the entry of [va] in the address space [root] needs of
    the new registration [K']: only the page mapped at [va] may change. *)
Record leaf_change (free : list Z) K root va (v : Z) K' : Prop := {
  lc_tables p r l pre : (l < 4)%nat → K' !! p = Some (Reg r l pre) ↔ K !! p = Some (Reg r l pre);
  lc_new : present v → K' !! child v = Some (Reg root 4 (path 4 va));
  lc_users p r pre : K !! p = Some (Reg r 4 pre) → r ≠ root ∨ pre ≠ path 4 va →
    K' !! p = Some (Reg r 4 pre);
  lc_back p r pre : K' !! p = Some (Reg r 4 pre) →
    r = root ∧ pre = path 4 va ∧ present v ∧ child v = p ∨
    K !! p = Some (Reg r 4 pre) ∧ (r ≠ root ∨ pre ≠ path 4 va);
  lc_level p r : K' !! p = Some r → (r_level r ≤ 4)%nat;
  lc_ok p r : K' !! p = Some r → page_ok kend p;
  lc_disj p : p ∈ free → K' !! p = None;
}.

Lemma set_leaf s free K root va v K' :
  kinv kend s free → pt_ok (k_mem s) K →
  (∀ p r, p ∈ free → K !! p = Some r → r_level r = 4%nat) → is_root K root → 0 ≤ va < 2 ^ 48 → slot (k_mem s) root va ≠ 0 → 0 ≤ v < 2 ^ 64 →
  leaf_change free K root va v K' →
  let m' := store64 (k_mem s) (slot (k_mem s) root va) v in
  vm_inv (mkKst m' (k_free s)) free K' ∧ user_same [] K (k_mem s) m' ∧
  ∀ root2 va2, is_root K root2 → 0 ≤ va2 < 2 ^ 48 →
    slot m' root2 va2 = slot (k_mem s) root2 va2 ∧
    pte_val m' root2 va2 =
      if decide (root2 = root ∧ same_page va va2) then v else pte_val (k_mem s) root2 va2.
Proof.
  intros Hf Hok Hd Hroot Hva Ha Hv [Ht Hnew Hus Hbk Hlev Hpo Hdj].
  destruct (slot_reg (k_mem s) K 3 0 root va root Hok Hroot eq_refl) as [?|(q & Hq & Hqa)]; [done|].
  change (slot_from 3 (k_mem s) (Z.of_nat 0) root va) with (slot (k_mem s) root va) in Hqa.
  rewrite Hqa. intros m'. pose proof (PTX_range 3 va) as Hi.
  assert (page_ok kend q) as Hqo by by eapply pk_page.
  assert (∀ p j r, K !! p = Some r → 0 ≤ j < 512 →
    entry m' p j = if decide (p = q ∧ j = PTX 3 va) then v else entry (k_mem s) p j) as He.
  { intros p j r Hp Hj. apply entry_store; [done|by eapply pk_page|done..]. }
  assert (∀ p x, aligned p → p ≠ q → in_page p x → m' x = k_mem s x) as Hm.
  { intros p x Hp Hne Hx. apply store64_outside. intros Hx'. apply Hne.
    apply (aligned_disjoint p q x); [done|by eapply page_aligned|done|]. unfold in_page, PGSIZE. lia. }
  assert (∀ root2 va2, is_root K root2 → slot m' root2 va2 = slot (k_mem s) root2 va2) as Hslot.
  { intros root2 va2 Hr2. apply (slot_frame _ _ K 3 0 root2 root2 va2); [done|exact Hr2|done|].
    intros p r l pre j Hp Hl Hj. rewrite (He p j _ Hp Hj). rewrite decide_False; [done|].
    intros [-> _]. rewrite Hq in Hp. injection Hp as _ ? _. lia. }
  split; [split|split].
  - apply kinv_ext; [done|]. intros p x Hp Hx. apply (Hm p); [|intros ->; by specialize (Hd _ _ Hp Hq)|done].
    pose proof (ki_pages _ _ _ Hf) as Hfp. rewrite Forall_forall in Hfp. by eapply page_aligned, Hfp.
  - cbn [k_mem]. split; [done|done| | |].
    + intros p r pre Hp. apply Ht in Hp; [|lia]. by apply (pk_root _ _ Hok).
    + intros c r l pre Hcr. assert (0 ≤ pre mod 512 < 512) as Hj by (apply Z.mod_pos_bound; lia).
      assert (∀ p, K !! p = Some (Reg r l (pre / 512)) → (l < 4)%nat →
        present (entry (k_mem s) p (pre mod 512)) → child (entry (k_mem s) p (pre mod 512)) = c →
        ¬ (p = q ∧ pre mod 512 = PTX 3 va) →
        ∃ p, K' !! p = Some (Reg r l (pre / 512)) ∧ present (entry m' p (pre mod 512)) ∧
          child (entry m' p (pre mod 512)) = c) as Hold.
      { intros p Hp Hl Hpr Hch Hne. exists p. rewrite (He p _ _ Hp Hj), decide_False by done.
        split; [by apply Ht|done]. }
      destruct (decide (l < 3)%nat) as [Hl|Hl].
      { apply Ht in Hcr; [|lia]. destruct (pk_parent _ _ Hok _ _ _ _ Hcr) as (p & Hp & Hpr & Hch).
        apply (Hold p); try done; [lia|]. intros [-> _]. rewrite Hq in Hp. injection Hp as _ ? _. lia. }
      destruct (decide (l = 3%nat)) as [->|Hl3]; [|by apply Hlev in Hcr; cbn in Hcr; lia].
      destruct (Hbk _ _ _ Hcr) as [(-> & -> & Hpr & Hch)|[Hcr' Hne]].
      * exists q. change (path 4 va) with (path 3 va * 512 + PTX 3 va).
        destruct (path_split (path 3 va) (PTX 3 va) Hi) as [-> ->].
        rewrite (He q _ _ Hq Hi), decide_True by done. split; [apply Ht; [lia|done]|done].
      * destruct (pk_parent _ _ Hok _ _ _ _ Hcr') as (p & Hp & Hpr & Hch).
        apply (Hold p); try done; [lia|]. intros [-> Hj']. rewrite Hq in Hp. injection Hp as Hr Hpre.
        change (path 4 va) with (path 3 va * 512 + PTX 3 va) in Hne.
        destruct Hne as [|Hne]; [congruence|]. apply Hne.
        assert (path 3 va = pre / 512) as -> by done. rewrite <-Hj'. clear. zlia.
    + intros p r l pre j Hp Hl Hj Hpr. apply Ht in Hp; [|done].
      rewrite (He p j _ Hp Hj) in Hpr |- *. case_decide as Hc.
      * destruct Hc as [-> ->]. rewrite Hq in Hp. injection Hp as <- <- <-. by apply Hnew.
      * pose proof (pk_child _ _ Hok _ _ _ _ _ Hp Hl Hj Hpr) as Hch.
        destruct (decide (l = 3%nat)) as [->|Hl3]; [|apply Ht; [lia|done]].
        apply Hus; [done|]. destruct (decide (r = root)) as [->|]; [right|by left]. intros Hpath.
        change (path 4 va) with (path 3 va * 512 + PTX 3 va) in Hpath. apply Hc.
        assert (j = PTX 3 va ∧ pre = path 3 va) as [-> ->] by lia. split; [|done].
        by apply (pk_inj _ _ _ _ _ _ _ Hok Hp Hq).
  - done.
  - intros p x Hp _ Hlv Hx. apply (Hm p); [done| |done]. intros ->. by specialize (Hlv _ Hq).
  - intros root2 va2 Hr2 Hva2. split; [by apply Hslot|]. unfold pte_val, val_from.
    change (slot_from 3 ?mm 0 root2 va2) with (slot mm root2 va2). rewrite Hslot by done.
    destruct (decide (root2 = root ∧ same_page va va2)) as [[-> Hs]|Hne].
    + assert (slot (k_mem s) root va2 = slot (k_mem s) root va) as ->
        by by apply (slot_same_page _ root va va2 3 0).
      rewrite Hqa. destruct (Z.eqb_spec (q + 8 * PTX 3 va) 0); [congruence|]. by apply load64_store64.
    + destruct (slot_reg (k_mem s) K 3 0 root2 va2 root2 Hok Hr2 eq_refl) as [H0|(q2 & Hq2 & Ha2)];
        change (slot_from 3 (k_mem s) (Z.of_nat 0) root2 va2) with (slot (k_mem s) root2 va2) in *;
        [by rewrite H0|]. rewrite Ha2. destruct (_ =? 0); [done|].
      change (entry m' q2 (PTX 3 va2) = entry (k_mem s) q2 (PTX 3 va2)).
      rewrite (He q2 _ _ Hq2 (PTX_range 3 va2)), decide_False; [done|]. intros [-> Hix].
      rewrite Hq in Hq2. injection Hq2 as Hr Hpath. apply Hne. split; [done|].
      unfold same_page. rewrite <-!path_page by done. change (path 4 va2) with (path 3 va2 * 512 + PTX 3 va2). change (path 4 va) with (path 3 va * 512 + PTX 3 va). assert (path 3 va = path 3 va2) as -> by done. lia.
Qed.
End Tables.
