(* ===== verification/AddrSpace.v ===== *)
(** User address spaces: what [map_region], [uvm_dealloc], [uvm_alloc],
    [copyuvm] and [copyout] of kern/vm.c do to the address spaces of all
    processes, in terms of the registration of pages of file PageTable. *)

From S2P Require Import Prelude Memory CString Kalloc Vm PageTable.

Lemma lor_bound n x y : 0 ≤ n → 0 ≤ x < 2 ^ n → 0 ≤ y < 2 ^ n → 0 ≤ Z.lor x y < 2 ^ n.
Proof.
  intros Hn [Hx Hx'] [Hy Hy']. assert (0 ≤ Z.lor x y) by (apply Z.lor_nonneg; lia).
  split; [done|]. destruct (decide (Z.lor x y = 0)) as [->|]; [lia|].
  apply Z.log2_lt_pow2; [lia|]. rewrite Z.log2_lor by done.
  assert (∀ z, 0 ≤ z → z < 2 ^ n → n ≠ 0 → Z.log2 z < n) as Hl.
  { intros z Hz Hzn Hn0. destruct (decide (z = 0)) as [->|]; [cbn; lia|].
    apply Z.log2_lt_pow2; lia. }
  destruct (decide (n = 0)) as [->|]; [|apply Z.max_lub_lt; by apply Hl].
  assert (x = 0) as -> by lia. assert (y = 0) as -> by lia. done.
Qed.

(** What [map_region] stores for the managed page [c]. *)
Definition leaf_of (c perm : Z) : Z := Z.lor (V2P c) (Z.lor perm 0x407).

Section Space.
Context (kend : Z) (Hkend : KERNBASE < kend).
Implicit Types (m : mem) (K : gmap Z reg) (s : kst).

Lemma leaf_leaf_of c perm : page_ok kend c → leaf (V2P c) perm = leaf_of c perm.
Proof.
  intros Hc. unfold leaf. destruct (v2p_page kend c Hc) as (_ & _ & _ & _ & -> & _).
  rewrite <-!Z.lor_assoc. done.
Qed.

Lemma leaf_of_spec c perm :
  page_ok kend c → 0 ≤ perm < 4096 →
  child (leaf_of c perm) = c ∧ present (leaf_of c perm) ∧ 0 ≤ leaf_of c perm < 2 ^ 64 ∧
  ∀ g, 0 ≤ g < 4096 → Z.land (leaf_of c perm) g = Z.land (Z.lor perm 0x407) g.
Proof.
  intros Hc Hp. pose proof (lor_bound 12 perm 0x407 ltac:(lia) Hp ltac:(lia)) as Hb.
  destruct (entry_page kend c _ Hc Hb) as (H1 & H2 & H3).
  split; [done|]. split; [|done]. unfold present, leaf_of. rewrite H2 by done.
  rewrite Z.land_lor_distr_l. intros H0. apply Z.lor_eq_0_iff in H0 as [_ H0]. done.
Qed.

(** Changes outside the tables do not matter to them. *)
Lemma pt_ok_ext m m' K :
  pt_ok kend m K →
  (∀ p r j, K !! p = Some r → (r_level r < 4)%nat → 0 ≤ j < 512 → entry m' p j = entry m p j) →
  pt_ok kend m' K ∧
  ∀ root va, is_root K root → slot m' root va = slot m root va ∧ pte_val m' root va = pte_val m root va.
Proof.
  intros Hok He. split; [split|].
  - apply Hok.
  - apply Hok.
  - apply Hok.
  - intros c r l pre Hc. destruct (pk_parent _ _ _ Hok _ _ _ _ Hc) as (p & Hp & Hpr & Hch).
    exists p. pose proof (pk_level _ _ _ Hok _ _ Hc) as Hl. cbn in Hl.
    rewrite (He p _ _ Hp); [done|cbn; lia|apply Z.mod_pos_bound; lia].
  - intros p r l pre i Hp Hl Hi Hpr. rewrite (He p _ _ Hp) in Hpr |- *; try done.
    by eapply pk_child.
  - intros root va Hr.
    assert (slot m' root va = slot m root va) as Hs.
    { apply (slot_frame kend _ _ K 3 0 root root va); [done|exact Hr|done|].
      intros q r l pre j Hq Hl Hj. apply (He q _ j Hq); cbn; lia. }
    split; [done|]. unfold pte_val, val_from. change (slot_from 3 ?x 0 root va) with (slot x root va).
    rewrite Hs. destruct (slot_reg kend m K 3 0 root va root Hok Hr eq_refl) as [H0|(q & Hq & Ha)];
      change (slot_from 3 m (Z.of_nat 0) root va) with (slot m root va) in *; [by rewrite H0|].
    rewrite Ha. destruct (_ =? 0); [done|]. apply (He q _ _ Hq); [cbn; lia|apply PTX_range].
Qed.

(** The page mapped at a present entry. *)
Lemma pte_child m K root va :
  pt_ok kend m K → is_root K root → present (pte_val m root va) →
  slot m root va ≠ 0 ∧ pte_val m root va = load64 m (slot m root va) ∧
  K !! child (pte_val m root va) = Some (Reg root 4 (path 4 va)).
Proof.
  intros Hok Hr Hp. unfold pte_val, val_from in *.
  change (slot_from 3 m 0 root va) with (slot m root va) in *.
  destruct (Z.eqb_spec (slot m root va) 0) as [H0|H0]; [by destruct Hp|]. split; [done|]. split; [done|].
  destruct (slot_reg kend m K 3 0 root va root Hok Hr eq_refl) as [|(q & Hq & Ha)]; [done|].
  change (slot_from 3 m (Z.of_nat 0) root va) with (slot m root va) in Ha.
  rewrite Ha in *. apply (pk_child _ _ _ Hok _ _ _ _ _ Hq); [lia|apply PTX_range|done].
Qed.

(** The walk goes through the table registered for each prefix. *)
Lemma walk_reaches m K root va l : ∀ p n,
  pt_ok kend m K → K !! p = Some (Reg root l (path l va)) → (n + l = 3)%nat →
  slot m root va = slot_from n m (Z.of_nat l) p va.
Proof.
  induction l as [|l IH]; intros p n Hok Hp Hn.
  - destruct (pk_root _ _ _ Hok _ _ _ Hp) as [-> _]. by assert (n = 3%nat) as -> by lia.
  - destruct (pk_parent _ _ _ Hok _ _ _ _ Hp) as (q & Hq & Hpr & Hch). cbn [path] in Hq, Hpr, Hch.
    destruct (path_split (path l va) (PTX (Z.of_nat l) va) (PTX_range _ _)) as [Hd Hm].
    rewrite Hd in Hq. rewrite Hm in Hpr, Hch.
    rewrite (IH q (S n)) by (done || lia). cbn [slot_from].
    destruct (Z.eqb_spec (Z.land (entry m q (PTX (Z.of_nat l) va)) PTE_P) 0); [done|].
    rewrite Hch. f_equal. lia.
Qed.

Lemma user_page_present m K root va p :
  pt_ok kend m K → K !! p = Some (Reg root 4 (path 4 va)) → present (load64 m (slot m root va)).
Proof.
  intros Hok Hp. destruct (pk_parent _ _ _ Hok _ _ _ _ Hp) as (q & Hq & Hpr & _).
  change (path 4 va) with (path 3 va * 512 + PTX 3 va) in Hq, Hpr.
  destruct (path_split (path 3 va) (PTX 3 va) (PTX_range _ _)) as [Hd Hm].
  rewrite Hd in Hq. rewrite Hm in Hpr. by rewrite (walk_reaches m K root va 3 q 0).
Qed.

(** ** One page is mapped *)

(** From [s1], the page [c] has been mapped at [va] in [root], and nothing
    else has happened. *)
Record mapped s1 free K1 root va c perm s' : Prop := {
  mp_inv : vm_inv kend s' free (<[c := Reg root 4 (path 4 va)]> K1);
  mp_user : user_same [] K1 (k_mem s1) (k_mem s');
  mp_pte root2 va2 : is_root K1 root2 → 0 ≤ va2 < 2 ^ 48 →
    pte_val (k_mem s') root2 va2 =
      if decide (root2 = root ∧ same_page va va2) then leaf_of c perm
      else pte_val (k_mem s1) root2 va2;
}.

Lemma map_page s free K root va c perm :
  vm_inv kend s free K → is_root K root → 0 ≤ va < 2 ^ 48 → va mod 4096 = 0 →
  page_ok kend c → K !! c = None → c ∉ free → 0 ≤ perm < 4096 →
  ¬ present (pte_val (k_mem s) root va) →
  ∃ s1 free1 K1, grows kend s free K s1 free1 K1 ∧ K1 !! c = None ∧
    (length free ≤ length free1 + 3)%nat ∧
    (map_region 1 root va PGSIZE (V2P c) perm s = Ret (-1) s1 ∧ (length free < 3)%nat ∨
     ∃ s', map_region 1 root va PGSIZE (V2P c) perm s = Ret 0 s' ∧
       mapped s1 free1 K1 root va c perm s').
Proof.
  intros Hi Hroot Hva Hal Hc Hcn Hcf Hperm Habs.
  destruct (walk_alloc kend 3 0 root va s free K root Hi Hroot eq_refl)
    as (a & s1 & free1 & K1 & Hw & Hg & Ha & H0 & Hlen).
  assert (K1 !! c = None) as Hcn1.
  { destruct (K1 !! c) as [rg|] eqn:H1; [|done]. by destruct (gr_new _ _ _ _ _ _ _ Hg c rg H1 Hcn). }
  exists s1, free1, K1. split; [done|]. split; [done|]. split; [done|].
  assert (map_region 1 root va PGSIZE (V2P c) perm s = map_loop 1 root va va (V2P c) perm s) as Hmr.
  { unfold map_region. rewrite rounddown_spec by lia.
    rewrite w64_small by (unfold PGSIZE; lia). rewrite rounddown_spec by (unfold PGSIZE; lia).
    unfold PGSIZE. f_equal; zlia. }
  rewrite Hmr. cbn [map_loop]. unfold pgdir_walk.
  change (walk_loop 3 0 root va 1 s = Ret a s1) in Hw.
  change (slot_from 3 (k_mem s1) (Z.of_nat 0) root va) with (slot (k_mem s1) root va) in Ha.
  destruct (Z.eqb_spec a 0) as [Ha0|Ha0].
  { left. split; [|by apply H0]. mstep Hw. by rewrite Ha0. }
  right. assert (load64 (k_mem s1) a = pte_val (k_mem s) root va) as Hld.
  { transitivity (pte_val (k_mem s1) root va).
    - unfold pte_val, val_from. change (slot_from 3 (k_mem s1) 0 root va) with (slot (k_mem s1) root va).
      rewrite <-Ha. by destruct (Z.eqb_spec a 0).
    - by apply (gr_maps _ _ _ _ _ _ _ Hg 0%nat root root va 3%nat). }
  destruct (leaf_of_spec c perm Hc Hperm) as (Hch & Hpr & Hrange & _).
  pose proof (gr_inv _ _ _ _ _ _ _ Hg) as [Hf1 Hok1 Hd1].
  assert (is_root K1 root) as Hr1 by (eapply lookup_weaken; [exact Hroot|apply Hg]).
  set (K' := <[c := Reg root 4 (path 4 va)]> K1).
  assert (leaf_change kend free1 K1 root va (leaf_of c perm) K') as Hlc.
  { split; unfold K'.
    - intros p r l pre Hl. rewrite lookup_insert_Some. split.
      + intros [[_ [= _ <- _]]|[_ ?]]; [lia|done].
      + intros Hp. right. split; [congruence|done].
    - intros _. rewrite Hch. apply lookup_insert_eq.
    - intros p r pre Hp Hne. rewrite lookup_insert_ne; [done|congruence].
    - intros p r pre [[<- [= <- <-]]|[Hne Hp]]%lookup_insert_Some; [by left|].
      right. split; [done|]. destruct (decide (r = root)) as [->|]; [right|by left]. intros ->.
      apply Habs. rewrite <-Hld, Ha. by apply (user_page_present (k_mem s1) K1 root va p).
    - intros p r [[_ <-]|[_ Hp]]%lookup_insert_Some; [cbn; lia|by eapply pk_level].
    - intros p r [[<- _]|[_ Hp]]%lookup_insert_Some; [done|by eapply pk_page].
    - intros p Hp. rewrite lookup_insert_ne; [by apply Hd1|]. intros <-.
      destruct (gr_free _ _ _ _ _ _ _ Hg) as [used Hu]. apply Hcf. rewrite Hu. apply elem_of_app. by right. }
  destruct (set_leaf kend s1 free1 K1 root va (leaf_of c perm) K') as (Hi' & Hus & Hmaps); try done.
  { intros p r Hp Hr. by rewrite Hd1 in Hr. }
  { by rewrite <-Ha. }
  rewrite <-Ha in Hi', Hus, Hmaps.
  eexists. split; [|split; [exact Hi'|exact Hus|]].
  - mstep Hw. destruct (Z.eqb_spec a 0); [done|]. mstep (eq_refl (ld a s1)). rewrite Hld.
    destruct (Z.eqb_spec (Z.land (pte_val (k_mem s) root va) PTE_P) 0) as [_|Hbad]; [|by destruct Habs].
    cbn [negb]. rewrite leaf_leaf_of by done. mstep (eq_refl (st a (leaf_of c perm) s1)).
    by rewrite Z.eqb_refl.
  - intros root2 va2 Hr2 Hva2. by destruct (Hmaps root2 va2 Hr2 Hva2).
Qed.

(** ** Pages are unmapped *)

(** Memory has changed only inside one page that is not a table. *)
Lemma page_write_ok m m' K c n :
  pt_ok kend m K → page_ok kend c → (∀ r, K !! c = Some r → r_level r = 4%nat) →
  0 ≤ n ≤ PGSIZE → same_outside m m' c n →
  (∀ p r j, K !! p = Some r → (r_level r < 4)%nat → 0 ≤ j < 512 → entry m' p j = entry m p j) ∧
  ∀ p x, aligned p → p ≠ c → in_page p x → m' x = m x.
Proof.
  intros Hok Hc Hl Hn Hm.
  assert (∀ p x, aligned p → p ≠ c → in_page p x → m' x = m x) as Hother.
  { intros p x Hp Hne Hx. apply Hm. intros Hx'. apply Hne.
    apply (aligned_disjoint p c x); [done|by eapply page_aligned|done|]. unfold in_page, PGSIZE in *. lia. }
  split; [|done]. intros p r j Hp Hlt Hj. apply entry_ext; [done|]. intros x Hx.
  apply (Hother p); [by eapply page_aligned, pk_page| |done]. intros ->. specialize (Hl _ Hp). lia.
Qed.

Lemma unmap_page s free K root va :
  vm_inv kend s free K → is_root K root → 0 ≤ va < 2 ^ 48 → present (pte_val (k_mem s) root va) →
  let c := child (pte_val (k_mem s) root va) in
  ∃ s', (kfree kend c ;; st (slot (k_mem s) root va) 0) s = Ret () s' ∧
    vm_inv kend s' (c :: free) (delete c K) ∧ user_same [c] K (k_mem s) (k_mem s') ∧
    ∀ root2 va2, is_root K root2 → 0 ≤ va2 < 2 ^ 48 →
      slot (k_mem s') root2 va2 = slot (k_mem s) root2 va2 ∧
      pte_val (k_mem s') root2 va2 =
        if decide (root2 = root ∧ same_page va va2) then 0 else pte_val (k_mem s) root2 va2.
Proof.
  intros [Hf Hok Hd] Hr Hva Hpr c.
  destruct (pte_child (k_mem s) K root va Hok Hr Hpr) as (Hs0 & _ & Hc). fold c in Hc.
  assert (page_ok kend c) as Hco by by eapply pk_page.
  assert (c ∉ free) as Hcf by (intros Hin; specialize (Hd c Hin); congruence).
  destruct (kfree_spec kend s free c) as (s1 & H1 & Hf1 & Hm1); [unfold KERNBASE in Hkend; lia|done..|].
  assert (∀ r, K !! c = Some r → r_level r = 4%nat) as Hcl by (intros r Hcr; rewrite Hc in Hcr; by injection Hcr as <-).
  destruct (page_write_ok _ _ K c 8 Hok Hco Hcl ltac:(unfold PGSIZE; lia) Hm1) as [He Hother].
  destruct (pt_ok_ext _ _ K Hok He) as [Hok1 Hpte1].
  assert (leaf_change kend (c :: free) K root va 0 (delete c K)) as Hlc.
  { split.
    - intros p r l pre Hl. rewrite lookup_delete_Some. split; [by intros [_ ?]|]. intros Hp.
      split; [|done]. intros <-. rewrite Hc in Hp. injection Hp as _ <- _. lia.
    - intros Hbad. by destruct Hbad.
    - intros p r pre Hp Hne. rewrite lookup_delete_ne; [done|]. intros <-. rewrite Hc in Hp.
      injection Hp as <- <-. by destruct Hne.
    - intros p r pre [Hpc Hp]%lookup_delete_Some. right. split; [done|].
      destruct (decide (r = root)) as [->|]; [right|by left]. intros ->.
      apply Hpc. by apply (pk_inj kend _ _ _ _ _ _ _ Hok Hc Hp).
    - intros p r [_ Hp]%lookup_delete_Some. by eapply pk_level.
    - intros p r [_ Hp]%lookup_delete_Some. by eapply pk_page.
    - intros p [->|Hp]%elem_of_cons; [apply lookup_delete_eq|].
      rewrite lookup_delete_ne; [by apply Hd|]. intros <-. done. }
  destruct (Hpte1 root va Hr) as [Hsl1 _].
  destruct (set_leaf kend s1 (c :: free) K root va 0 (delete c K)) as (Hi' & Hus & Hmaps); try done.
  { intros p r [->|Hp]%elem_of_cons Hpr'; [by apply Hcl|]. rewrite (Hd p Hp) in Hpr'. done. }
  { by rewrite Hsl1. }
  rewrite Hsl1 in Hi', Hus, Hmaps. eexists. split; [|split; [exact Hi'|split]].
  - mstep H1. done.
  - intros p x Hp Hpc Hl Hx. etransitivity; [apply (Hus p x Hp); [set_solver|done|done]|].
    apply (Hother p); [done|set_solver|done].
  - intros root2 va2 Hr2 Hva2. destruct (Hmaps root2 va2 Hr2 Hva2) as [Hsl Hpv].
    destruct (Hpte1 root2 va2 Hr2) as [<- <-]. done.
Qed.

(** The address space [root] has lost its pages in the range [R]; they are free. *)
Record shrunk root (R : Z → bool) s free K s' free' K' : Prop := {
  sh_inv : vm_inv kend s' free' K';
  sh_sub : K' ⊆ K;
  sh_lost p r : K !! p = Some r → K' !! p = None →
    ∃ va, R va = true ∧ r = Reg root 4 (path 4 va);
  sh_free : ∃ freed, free' = freed ++ free;
  sh_freed p : p ∈ free' → p ∈ free ∨ is_Some (K !! p);
  sh_user : user_same free' K (k_mem s) (k_mem s');
  sh_in va2 : 0 ≤ va2 < 2 ^ 48 → R va2 = true → ¬ present (pte_val (k_mem s') root va2);
  sh_slot root2 va2 : is_root K root2 → 0 ≤ va2 < 2 ^ 48 →
    slot (k_mem s') root2 va2 = slot (k_mem s) root2 va2;
  sh_out root2 va2 : is_root K root2 → 0 ≤ va2 < 2 ^ 48 → ¬ (root2 = root ∧ R va2 = true) →
    pte_val (k_mem s') root2 va2 = pte_val (k_mem s) root2 va2;
}.

Lemma shrunk_root root R s free K s' free' K' root2 :
  shrunk root R s free K s' free' K' → is_root K root2 → is_root K' root2.
Proof.
  intros Hs Hr. unfold is_root in *. destruct (K' !! root2) as [r|] eqn:H'.
  - pose proof (lookup_weaken _ _ _ _ H' (sh_sub _ _ _ _ _ _ _ _ Hs)). congruence.
  - destruct (sh_lost _ _ _ _ _ _ _ _ Hs _ _ Hr H') as (va & _ & [=]).
Qed.

Lemma shrunk_none root R s free K :
  vm_inv kend s free K → is_root K root →
  (∀ va2, 0 ≤ va2 < 2 ^ 48 → R va2 = true → ¬ present (pte_val (k_mem s) root va2)) →
  shrunk root R s free K s free K.
Proof. intros Hi Hr Hn. split; try done; [congruence|by exists []|by left]. Qed.

Lemma shrunk_trans root R1 R2 R s f K s1 f1 K1 s2 f2 K2 :
  is_root K root → (∀ va, 0 ≤ va < 2 ^ 48 → R va = R1 va || R2 va) →
  (∀ va, R1 va = true ∨ R2 va = true → R va = true) →
  shrunk root R1 s f K s1 f1 K1 → shrunk root R2 s1 f1 K1 s2 f2 K2 →
  shrunk root R s f K s2 f2 K2.
Proof.
  intros Hr HR HR' Hs1 Hs2. pose proof (λ r, shrunk_root _ _ _ _ _ _ _ _ r Hs1) as Hroots.
  destruct Hs1 as [I1 S1 L1 [u1 F1] G1 U1 N1 W1 O1], Hs2 as [I2 S2 L2 [u2 F2] G2 U2 N2 W2 O2]. split.
  - done.
  - by transitivity K1.
  - intros p r Hp Hn. destruct (K1 !! p) as [r1|] eqn:H1.
    + pose proof (lookup_weaken _ _ _ _ H1 S1). assert (r = r1) as -> by congruence.
      destruct (L2 _ _ H1 Hn) as (va & ? & ?). exists va. split; [|done]. apply HR'. by right.
    + destruct (L1 _ _ Hp H1) as (va & ? & ?). exists va. split; [|done]. apply HR'. by left.
  - exists (u2 ++ u1). by rewrite F2, F1, app_assoc.
  - intros p Hp. destruct (G2 p Hp) as [Hp1|[r Hp1]]; [by apply G1|].
    right. eexists. by eapply lookup_weaken.
  - intros p x Hp Hf Hl Hx. rewrite (U2 p x Hp Hf); [|intros r H1; by apply Hl; eapply lookup_weaken|done].
    apply (U1 p x Hp); [|done|done]. intros Hf1. apply Hf. rewrite F2. apply elem_of_app. by right.
  - intros va2 Hva2 HRv. destruct (R2 va2) eqn:H2; [by apply N2|].
    rewrite O2; [apply N1; [done|]|exact (Hroots root Hr)|done|intros [_ ?]; congruence].
    rewrite HR, H2, orb_false_r in HRv by done. done.
  - intros root2 va2 Hr2 Hva2. rewrite W2 by (done || by apply Hroots). by apply W1.
  - intros root2 va2 Hr2 Hva2 Hne. etransitivity.
    + apply O2; [by apply Hroots|done|]. intros [-> H2]. apply Hne. split; [done|].
      apply HR'. by right.
    + apply O1; [done|done|]. intros [-> H1]. apply Hne. split; [done|]. apply HR'. by left.
Qed.

Definition in_range (lo hi va : Z) : bool := (lo <=? va) && (va <? hi).

(** Unmapping one page shrinks the address space by that page. *)
Lemma unmap_shrunk s free K root a s' :
  vm_inv kend s free K → is_root K root → 0 ≤ a < 2 ^ 48 → a mod 4096 = 0 →
  present (pte_val (k_mem s) root a) →
  (kfree kend (child (pte_val (k_mem s) root a)) ;; st (slot (k_mem s) root a) 0) s = Ret () s' →
  let c := child (pte_val (k_mem s) root a) in
  shrunk root (in_range a (a + 4096)) s free K s' (c :: free) (delete c K).
Proof.
  intros Hi Hr Ha Hal Hpr Hrun c.
  destruct (unmap_page s free K root a Hi Hr Ha Hpr) as (s1 & H1 & Hi1 & Hus & Hmaps).
  rewrite Hrun in H1. injection H1 as <-. fold c in Hi1, Hus.
  destruct (pte_child (k_mem s) K root a (vi_pt _ _ _ _ Hi) Hr Hpr) as (_ & _ & Hc). fold c in Hc.
  assert (∀ va2, 0 ≤ va2 < 2 ^ 48 → in_range a (a + 4096) va2 = true ↔ same_page a va2) as Hsp.
  { intros va2 Hva2. unfold in_range, same_page. rewrite andb_true_iff, Z.leb_le, Z.ltb_lt. zlia. }
  split.
  - done.
  - apply delete_subseteq.
  - intros p r Hp Hn. destruct (decide (c = p)) as [<-|Hne].
    + exists a. split; [unfold in_range; rewrite andb_true_iff, Z.leb_le, Z.ltb_lt; lia|congruence].
    + rewrite lookup_delete_ne in Hn by done. congruence.
  - by exists [c].
  - intros p [->|Hp]%elem_of_cons; [right; eauto|by left].
  - intros p x Hp Hf Hl Hx. apply (Hus p x Hp); [|done|done]. intros ->%list_elem_of_singleton.
    apply Hf, elem_of_cons. by left.
  - intros va2 Hva2 HR. apply Hsp in HR; [|done]. destruct (Hmaps root va2 Hr Hva2) as [_ ->].
    rewrite decide_True by done. by intros Hx.
  - intros root2 va2 Hr2 Hva2. by destruct (Hmaps root2 va2 Hr2 Hva2).
  - intros root2 va2 Hr2 Hva2 Hne. destruct (Hmaps root2 va2 Hr2 Hva2) as [_ ->].
    rewrite decide_False; [done|]. intros [-> Hs]. apply Hne. split; [done|]. by apply Hsp.
Qed.

Lemma in_range_iff lo hi va : in_range lo hi va = true ↔ lo ≤ va < hi.
Proof. unfold in_range. rewrite andb_true_iff, Z.leb_le, Z.ltb_lt. done. Qed.

Lemma in_range_split lo mid hi va :
  lo ≤ mid → in_range lo hi va = in_range lo (Z.min mid hi) va || in_range mid hi va.
Proof.
  intros Hm. apply eq_true_iff_eq. rewrite orb_true_iff, !in_range_iff. lia.
Qed.

Lemma pte_same_page m root a va :
  0 ≤ a < 2 ^ 48 → 0 ≤ va < 2 ^ 48 → same_page a va → pte_val m root va = pte_val m root a.
Proof.
  intros Ha Hva Hs. unfold pte_val, val_from.
  pose proof (slot_same_page m root a va 3 0 Ha Hva Hs eq_refl) as Hsl.
  change (Z.of_nat 0) with 0 in Hsl. by rewrite Hsl.
Qed.

(** No page is mapped after the first address without a page table. *)
Definition contiguous m root lo hi : Prop :=
  ∀ a va, lo ≤ a → a ≤ va < hi → slot m root a = 0 → ¬ present (pte_val m root va).

Lemma roundup_block a :
  0 ≤ a < 2 ^ 63 → a mod 4096 = 0 →
  let b := ROUNDUP a BKSIZE in a ≤ b < a + 2 ^ 21 ∧ b mod 4096 = 0.
Proof.
  intros Ha Hal b. unfold b, ROUNDUP, ROUNDDOWN, BKSIZE.
  rewrite (w64_small (a + _ - 1)) by lia. rewrite w64_small by lia. zlia.
Qed.

Definition page_up (x : Z) : Z := 4096 * ((x + 4095) / 4096).

(** The one-page prefix of a range that is already unmapped. *)
Lemma shrunk_skip root a mid hi s free K s' free' K' :
  vm_inv kend s free K → is_root K root → 0 ≤ a → a ≤ mid → hi < 2 ^ 48 →
  (∀ va, a ≤ va < Z.min mid hi → ¬ present (pte_val (k_mem s) root va)) →
  shrunk root (in_range mid hi) s free K s' free' K' →
  shrunk root (in_range a hi) s free K s' free' K'.
Proof.
  intros Hi Hr Ha Hm Hhi Hn Hs.
  apply (shrunk_trans root (in_range a (Z.min mid hi)) (in_range mid hi) _ s free K s free K); try done.
  - intros va _. by apply in_range_split.
  - intros va. rewrite !in_range_iff. lia.
  - apply shrunk_none; [done|done|]. intros va Hva HR%in_range_iff. by apply Hn.
Qed.

Lemma dealloc_loop_spec root oldsz n : ∀ a s free K fuel,
  vm_inv kend s free K → is_root K root → 0 ≤ a < 2 ^ 48 → a mod 4096 = 0 → 0 ≤ oldsz < 2 ^ 47 →
  oldsz - a ≤ 4096 * Z.of_nat n → (n < fuel)%nat →
  contiguous (k_mem s) root a (page_up oldsz) →
  ∃ s' free' K', dealloc_loop kend fuel root a oldsz s = Ret () s' ∧
    shrunk root (in_range a (page_up oldsz)) s free K s' free' K'.
Proof.
  induction n as [|n IH]; intros a s free K fuel Hi Hr Ha Hal Ho Hn Hf Hcon;
    (destruct fuel as [|fuel]; [lia|]); cbn [dealloc_loop].
  { exists s, free, K. destruct (Z.ltb_spec a oldsz); [lia|]. split; [done|].
    apply shrunk_none; [done|done|]. intros va Hva HR%in_range_iff. unfold page_up in HR. zlia. }
  destruct (Z.ltb_spec a oldsz) as [Hlt|Hge].
  2:{ exists s, free, K. split; [done|]. apply shrunk_none; [done|done|].
      intros va Hva HR%in_range_iff. unfold page_up in HR. zlia. }
  assert (oldsz ≤ page_up oldsz < oldsz + 4096) as Hup by (unfold page_up; zlia).
  assert (∀ mid, a ≤ mid → contiguous (k_mem s) root mid (page_up oldsz)) as Hconm.
  { intros mid Hmid a' va Ha' Hva. apply Hcon; lia. }
  mstep (walk_noalloc 3 0 root a s). change (slot_from 3 (k_mem s) 0 root a) with (slot (k_mem s) root a).
  destruct (Z.eqb_spec (slot (k_mem s) root a) 0) as [H0|H0].
  - mstep (eq_refl (Ret (ROUNDUP a BKSIZE) s : outcome kst Z)).
    destruct (roundup_block a) as [Hb Hbm]; [lia|done|].
    set (b := ROUNDUP a BKSIZE) in *. rewrite w64_small by (unfold PGSIZE; lia).
    destruct (decide (b + PGSIZE < 2 ^ 48)) as [Hb48|Hb48].
    2:{ unfold PGSIZE in *. lia. }
    destruct (IH (b + PGSIZE) s free K fuel) as (s' & free' & K' & Hl & Hs); try done;
      [unfold PGSIZE; lia|unfold PGSIZE; zlia|unfold PGSIZE; lia|lia|apply Hconm; unfold PGSIZE; lia|].
    exists s', free', K'. split; [done|].
    eapply (shrunk_skip root a (b + PGSIZE)); [done|done|lia|unfold PGSIZE; lia|lia| |done].
    intros va Hva. apply (Hcon a va); [lia|lia|done].
  - assert (load64 (k_mem s) (slot (k_mem s) root a) = pte_val (k_mem s) root a) as Hld.
    { unfold pte_val, val_from. change (slot_from 3 (k_mem s) 0 root a) with (slot (k_mem s) root a).
      by destruct (Z.eqb_spec (slot (k_mem s) root a) 0). }
    assert (w64 (a + PGSIZE) = a + PGSIZE) as Hw by (apply w64_small; unfold PGSIZE; lia).
    destruct (Z.eqb_spec (Z.land (pte_val (k_mem s) root a) PTE_P) 0) as [Hp|Hp].
    + destruct (IH (a + PGSIZE) s free K fuel) as (s' & free' & K' & Hl & Hs); try done;
        [unfold PGSIZE; lia|unfold PGSIZE; zlia|unfold PGSIZE; lia|lia|apply Hconm; unfold PGSIZE; lia|].
      exists s', free', K'. split.
      * erewrite mbind_ret; [rewrite Hw; exact Hl|]. mstep (eq_refl (ld (slot (k_mem s) root a) s)).
        rewrite Hld, Hp. done.
      * eapply (shrunk_skip root a (a + PGSIZE)); [done|done|lia|unfold PGSIZE; lia|lia| |done].
        intros va Hva Hpr. apply Hpr. rewrite (pte_same_page _ root a); [done|lia|lia|].
        unfold same_page, PGSIZE in *. zlia.
    + destruct (unmap_page s free K root a Hi Hr Ha Hp) as (s1 & H1 & Hi1 & _).
      pose proof (unmap_shrunk s free K root a s1 Hi Hr Ha Hal Hp H1) as Hsh1. cbv zeta in Hsh1.
      set (c := child (pte_val (k_mem s) root a)) in *.
      assert (is_root (delete c K) root) as Hr1 by by eapply shrunk_root.
      destruct (IH (a + PGSIZE) s1 (c :: free) (delete c K) fuel) as (s' & free' & K' & Hl & Hs); try done;
        [unfold PGSIZE; lia|unfold PGSIZE; zlia|unfold PGSIZE; lia|lia| |].
      { intros a' va Ha' Hva Hsl Hpr. unfold PGSIZE in Ha'.
        rewrite (sh_slot _ _ _ _ _ _ _ _ Hsh1 root a' Hr) in Hsl by lia.
        rewrite (sh_out _ _ _ _ _ _ _ _ Hsh1 root va Hr) in Hpr;
          [|lia|rewrite in_range_iff; lia]. by apply (Hcon a' va); [lia|lia|..]. }
      exists s', free', K'. split.
      * erewrite mbind_ret; [rewrite Hw; exact Hl|]. mstep (eq_refl (ld (slot (k_mem s) root a) s)).
        rewrite Hld. destruct (Z.eqb_spec (Z.land (pte_val (k_mem s) root a) PTE_P) 0); [done|].
        cbn [negb]. destruct (Z.eqb_spec (PTE_ADDR (pte_val (k_mem s) root a)) 0) as [Hz|Hz].
        { exfalso. destruct (pte_child _ K root a (vi_pt _ _ _ _ Hi) Hr Hp) as (_ & _ & Hc).
          pose proof (pk_page _ _ _ (vi_pt _ _ _ _ Hi) _ _ Hc) as (_ & Hk & _).
          unfold child in Hk. rewrite Hz in Hk. change (P2V 0) with KERNBASE in Hk. lia. }
        erewrite mbind_ret; [reflexivity|]. exact H1.
      * apply (shrunk_trans root (in_range a (a + 4096)) (in_range (a + PGSIZE) (page_up oldsz)) _
          s free K s1 (c :: free) (delete c K)); try done.
        -- intros va _. apply eq_true_iff_eq. rewrite orb_true_iff, !in_range_iff. unfold PGSIZE.
           unfold page_up in *. zlia.
        -- intros va. rewrite !in_range_iff. unfold PGSIZE, page_up in *. zlia.
Qed.
End Space.
