(* ===== verification/UserMem.v ===== *)
(** Growing and copying user memory: [uvm_alloc], [copyuvm] and [copyout] of
    kern/vm.c, and the theorems about address spaces. *)

From S2P Require Import Prelude Memory CString Kalloc Vm PageTable AddrSpace.

Section User.
Context (kend : Z) (Hkend : KERNBASE < kend).
Implicit Types (m : mem) (K : gmap Z reg) (s : kst).

(** The address space [root] has gained, in the range [R], fresh pages with
    permissions [perm va] and contents [init va], byte by byte. *)
Record grown root (R : Z → bool) (perm : Z → Z) (init : Z → Z → Z) s free K s' free' K' : Prop := {
  gw_inv : vm_inv kend s' free' K';
  gw_sub : K ⊆ K';
  gw_free : ∃ used, free = used ++ free';
  gw_new p rg : K' !! p = Some rg → K !! p = None → p ∈ free;
  gw_user : user_same free K (k_mem s) (k_mem s');
  gw_in va : 0 ≤ va < 2 ^ 48 → R va = true →
    ∃ c, pte_val (k_mem s') root va = leaf_of c (perm va) ∧ c ∈ free ∧
      K' !! c = Some (Reg root 4 (path 4 va)) ∧
      ∀ o, 0 ≤ o < 4096 → k_mem s' (c + o) = init va o;
  gw_out root2 va : is_root K root2 → 0 ≤ va < 2 ^ 48 → ¬ (root2 = root ∧ R va = true) →
    pte_val (k_mem s') root2 va = pte_val (k_mem s) root2 va;
}.

Lemma grown_none root R perm init s free K :
  vm_inv kend s free K → (∀ va, 0 ≤ va < 2 ^ 48 → R va = false) →
  grown root R perm init s free K s free K.
Proof.
  intros Hi HR. split; try done; [by exists []|congruence|].
  intros va Hva Ht. by rewrite HR in Ht.
Qed.

Lemma grown_root root R perm init s free K s' free' K' r :
  grown root R perm init s free K s' free' K' → is_root K r → is_root K' r.
Proof. intros Hg Hr. eapply lookup_weaken; [exact Hr|apply Hg]. Qed.

Lemma grown_trans root R1 R2 R perm init s f K s1 f1 K1 s2 f2 K2 :
  is_root K root → (∀ va, 0 ≤ va < 2 ^ 48 → R va = R1 va || R2 va) →
  (∀ va, R1 va = true → R2 va = false) →
  grown root R1 perm init s f K s1 f1 K1 → grown root R2 perm init s1 f1 K1 s2 f2 K2 →
  grown root R perm init s f K s2 f2 K2.
Proof.
  intros Hr HR Hdis Hg1 Hg2. pose proof (λ r, grown_root _ _ _ _ _ _ _ _ _ _ r Hg1) as Hroots.
  destruct Hg1 as [I1 S1 [u1 F1] N1 U1 A1 O1], Hg2 as [I2 S2 [u2 F2] N2 U2 A2 O2].
  assert (∀ p, p ∈ f1 → p ∈ f) as Hff by (intros p Hp; rewrite F1; apply elem_of_app; by right).
  split.
  - done.
  - by transitivity K1.
  - exists (u1 ++ u2). by rewrite F1, F2, app_assoc.
  - intros p rg Hp Hn. destruct (K1 !! p) as [rg1|] eqn:H1; [by eapply N1|]. by eapply Hff, N2.
  - intros p x Hp Hf Hl Hx. rewrite (U2 p x Hp); [by apply (U1 p)|by intros ?%Hff| |done].
    intros rg H1. destruct (K !! p) as [rg0|] eqn:H0; [|by destruct Hf; eapply N1].
    pose proof (lookup_weaken _ _ _ _ H0 S1). apply Hl. congruence.
  - intros va Hva HRv. destruct (R2 va) eqn:H2.
    + destruct (A2 va Hva H2) as (c & Hc & Hcf & HK & Hz). exists c. by eauto using Hff.
    + rewrite HR, H2, orb_false_r in HRv by done.
      destruct (A1 va Hva HRv) as (c & Hc & Hcf & HK & Hz). exists c.
      assert (K2 !! c = Some (Reg root 4 (path 4 va))) as HK2 by by eapply lookup_weaken.
      split; [|split; [done|split; [done|]]].
      * rewrite O2; [done|by apply Hroots|done|]. intros [_ ?]. congruence.
      * intros o Ho. rewrite <-(Hz o Ho). apply (U2 c).
        -- by eapply pk_page; [apply (vi_pt _ _ _ _ I1)|].
        -- intros Hin. rewrite (vi_disj _ _ _ _ I1 c Hin) in HK. done.
        -- intros rg Hrg. rewrite HK in Hrg. by injection Hrg as <-.
        -- unfold in_page, PGSIZE. lia.
  - intros root2 va Hr2 Hva Hne. rewrite O2; [|by apply Hroots|done|].
    + apply O1; [done|done|]. intros [-> H1]. apply Hne. split; [done|]. by rewrite HR, H1 by done.
    + intros [-> H2]. apply Hne. split; [done|]. by rewrite HR, H2, orb_true_r by done.
Qed.

(** A page has been taken from the free list and filled. *)
Lemma after_alloc s c free K :
  vm_inv kend s (c :: free) K →
  ∃ s1, kalloc s = Ret c s1 ∧ page_ok kend c ∧ K !! c = None ∧ c ∉ free ∧
    ∀ m2, same_outside (k_mem s1) m2 c PGSIZE →
      vm_inv kend (mkKst m2 (k_free s1)) free K ∧
      (∀ p x, aligned p → p ≠ c → in_page p x → m2 x = k_mem s x) ∧
      (∀ root va, is_root K root → pte_val m2 root va = pte_val (k_mem s) root va).
Proof.
  intros [Hf Hok Hd]. destruct (kalloc_spec kend s _ Hf) as (s1 & H1 & Hf1 & _ & Hout1).
  assert (page_ok kend c) as Hc.
  { pose proof (ki_pages _ _ _ Hf) as Hp. by apply Forall_cons in Hp as []. }
  assert (K !! c = None) as Hcn by (apply Hd, elem_of_cons; by left).
  pose proof (ki_nodup _ _ _ Hf) as Hnd. apply NoDup_cons in Hnd as [Hcf _].
  exists s1. split; [done|]. split; [done|]. split; [done|]. split; [done|]. intros m2 Hm2.
  assert (same_outside (k_mem s) m2 c PGSIZE) as Hm.
  { intros x Hx. rewrite Hm2 by done. by apply Hout1. }
  destruct (page_write_ok kend (k_mem s) m2 K c PGSIZE Hok Hc) as [He Hother];
    [intros r Hr; congruence|unfold PGSIZE; lia|done|].
  destruct (pt_ok_ext kend _ m2 K Hok He) as [Hok2 Hpte].
  split; [split|split].
  - apply (kinv_ext kend s1); [done|]. intros p x Hp Hx. apply Hm2. intros Hx'. apply Hcf.
    pose proof (ki_pages _ _ _ Hf1) as Hfp. rewrite Forall_forall in Hfp.
    by rewrite (pages_disjoint kend c p x Hc (Hfp p Hp) Hx' Hx).
  - done.
  - intros p Hp. apply Hd, elem_of_cons. by right.
  - done.
  - intros root va Hr. by destruct (Hpte root va Hr).
Qed.

(** One step of the loops of [uvm_alloc] and [copyuvm], after the new page [c]
    has been filled with [init]. *)
Lemma grow_page s c free K s1 m2 root a perm init :
  vm_inv kend s (c :: free) K → kalloc s = Ret c s1 → same_outside (k_mem s1) m2 c PGSIZE →
  is_root K root → 0 ≤ a < 2 ^ 48 → a mod 4096 = 0 → 0 ≤ perm a < 4096 →
  (∀ o, 0 ≤ o < 4096 → m2 (c + o) = init a o) →
  (∀ va, same_page a va → perm va = perm a ∧ init va = init a) →
  ¬ present (pte_val (k_mem s) root a) →
  let s2 := mkKst m2 (k_free s1) in
  (∃ s3 free3 K3, map_region 1 root a PGSIZE (V2P c) (perm a) s2 = Ret (-1) s3 ∧
     (length free < 3)%nat ∧ c ∉ free3 ∧ K3 !! c = None ∧
     grown root (λ _, false) perm init s (c :: free) K s3 free3 K3) ∨
  (∃ s3 free3 K3, map_region 1 root a PGSIZE (V2P c) (perm a) s2 = Ret 0 s3 ∧
     (length free ≤ length free3 + 3)%nat ∧
     grown root (in_range a (a + 4096)) perm init s (c :: free) K s3 free3 K3).
Proof.
  intros Hi Hka Hm2 Hr Ha Hal Hperm Hinit Hsp Habs s2.
  destruct (after_alloc s c free K Hi) as (s1' & H1 & Hc & Hcn & Hcf & Hafter).
  rewrite Hka in H1. injection H1 as <-. destruct (Hafter m2 Hm2) as (Hi2 & Hother & Hpte2).
  fold s2 in Hi2.
  destruct (map_page kend s2 free K root a c (perm a) Hi2 Hr Ha Hal Hc Hcn Hcf Hperm)
    as (s3 & free3 & K3 & Hg & Hcn3 & Hlen & Hres).
  { cbn. by rewrite Hpte2. }
  assert (c ∉ free3) as Hcf3.
  { destruct (gr_free _ _ _ _ _ _ _ Hg) as [u Hu]. intros Hin. apply Hcf. rewrite Hu.
    apply elem_of_app. by right. }
  assert (∀ root2 va, is_root K root2 → pte_val (k_mem s3) root2 va = pte_val (k_mem s) root2 va) as Hp3.
  { intros root2 va Hr2. etransitivity; [apply (gr_maps _ _ _ _ _ _ _ Hg 0%nat root2 root2 va 3%nat Hr2 eq_refl)|].
    exact (Hpte2 root2 va Hr2). }
  assert (∀ p x, aligned p → p ∉ c :: free → (∀ r, K !! p = Some r → r_level r = 4%nat) →
    in_page p x → k_mem s3 x = k_mem s x) as Hu3.
  { intros p x Hp Hpf Hl Hx. apply not_elem_of_cons in Hpf as [Hpc Hpf].
    etransitivity; [by apply (gr_user _ _ _ _ _ _ _ Hg p x)|]. by apply (Hother p). }
  assert (∃ used, c :: free = used ++ free3) as Hused.
  { destruct (gr_free _ _ _ _ _ _ _ Hg) as [u Hu]. exists (c :: u). cbn. by rewrite Hu. }
  destruct Hres as [[Hrun Hlt]|(s' & Hrun & [Hi' Hus' Hpte'])].
  - left. exists s3, free3, K3. split; [done|]. split; [done|]. split; [done|]. split; [done|]. split.
    + apply Hg.
    + apply Hg.
    + done.
    + intros p rg Hp Hn. apply elem_of_cons. right. by eapply gr_new.
    + done.
    + done.
    + intros root2 va Hr2 _ _. by apply Hp3.
  - right. set (K' := <[c := Reg root 4 (path 4 a)]> K3) in *.
    assert (∀ r, is_root K r → is_root K3 r) as Hr3.
    { intros r Hr0. eapply lookup_weaken; [exact Hr0|apply Hg]. }
    exists s', free3, K'. split; [done|]. split; [done|]. split.
    + done.
    + transitivity K3; [apply Hg|]. by apply insert_subseteq.
    + done.
    + intros p rg [[<- _]|[_ Hp]]%lookup_insert_Some Hn; apply elem_of_cons; [by left|right].
      by eapply gr_new.
    + intros p x Hp Hpf Hl Hx. rewrite (Hus' p x Hp); [by apply (Hu3 p)|set_solver| |done].
      intros rg H3. destruct (K !! p) as [r0|] eqn:H0.
      * pose proof (lookup_weaken _ _ _ _ H0 (gr_sub _ _ _ _ _ _ _ Hg)). apply Hl. congruence.
      * destruct Hpf. apply elem_of_cons. right. by eapply gr_new.
    + intros va Hva HR. apply in_range_iff in HR.
      assert (same_page a va) as Hs by (unfold same_page; zlia).
      destruct (Hsp va Hs) as [Hpv Hiv]. exists c.
      rewrite (Hpte' root va (Hr3 _ Hr) Hva), decide_True by done. rewrite Hpv, Hiv.
      split; [done|]. split; [apply elem_of_cons; by left|].
      assert (path 4 va = path 4 a) as Hpath by by rewrite !path_page, Hs.
      split; [rewrite Hpath; apply lookup_insert_eq|]. intros o Ho. rewrite <-(Hinit o Ho).
      assert (in_page c (c + o)) as Hx by (unfold in_page, PGSIZE; lia).
      rewrite (Hus' c (c + o) (page_aligned _ _ Hc)); [|set_solver|intros r Hcr; congruence|done].
      apply (gr_user _ _ _ _ _ _ _ Hg c); [by eapply page_aligned|done|intros r Hcr; congruence|done].
    + intros root2 va Hr2 Hva Hne. rewrite (Hpte' root2 va (Hr3 _ Hr2) Hva).
      rewrite decide_False; [by apply Hp3|]. intros [-> Hs]. apply Hne. split; [done|].
      apply in_range_iff. unfold same_page in Hs. zlia.
Qed.

Lemma user_pte_present m K root va p :
  pt_ok kend m K → K !! p = Some (Reg root 4 (path 4 va)) →
  present (pte_val m root va) ∧ child (pte_val m root va) = p.
Proof.
  intros Hok Hp. destruct (pk_parent _ _ _ Hok _ _ _ _ Hp) as (q & Hq & Hpr & Hch).
  change (path 4 va) with (path 3 va * 512 + PTX 3 va) in Hq, Hpr, Hch.
  destruct (path_split (path 3 va) (PTX 3 va) (PTX_range _ _)) as [Hd Hm].
  rewrite Hd in Hq. rewrite Hm in Hpr, Hch. unfold pte_val, val_from.
  change (slot_from 3 m 0 root va) with (slot m root va).
  rewrite (walk_reaches kend m K root va 3 q 0) by done. cbn [slot_from].
  pose proof (page_pos kend q (pk_page _ _ _ Hok _ _ Hq)). pose proof (PTX_range 3 va).
  unfold pte_addr. destruct (Z.eqb_spec (q + 8 * PTX 3 va) 0); [lia|]. done.
Qed.

(** A failed operation: the range [R] is unmapped, everything else is as it
    was, and no user page has lost its contents. *)
Record failed root (R : Z → bool) s K s' free' K' : Prop := {
  fl_inv : vm_inv kend s' free' K';
  fl_root r : is_root K r → is_root K' r;
  fl_in va : 0 ≤ va < 2 ^ 48 → R va = true → ¬ present (pte_val (k_mem s') root va);
  fl_out root2 va : is_root K root2 → 0 ≤ va < 2 ^ 48 → ¬ (root2 = root ∧ R va = true) →
    pte_val (k_mem s') root2 va = pte_val (k_mem s) root2 va;
  fl_user p r pre x : K !! p = Some (Reg r 4 pre) → in_page p x →
    K' !! p = Some (Reg r 4 pre) ∧ k_mem s' x = k_mem s x;
}.

Lemma undo_growth root perm init s free K s1 f1 K1 a oldsz newsz fuel :
  vm_inv kend s free K → is_root K root → 0 ≤ oldsz < newsz → newsz < 2 ^ 47 →
  newsz + 4096 < 4096 * Z.of_nat fuel →
  (∀ va, page_up oldsz ≤ va < page_up newsz → ¬ present (pte_val (k_mem s) root va)) →
  (∀ va, 0 ≤ perm va < 4096) → a ≤ page_up newsz →
  grown root (in_range (page_up oldsz) a) perm init s free K s1 f1 K1 →
  ∃ s2 f2 K2, uvm_dealloc kend fuel root newsz oldsz s1 = Ret (s32 oldsz) s2 ∧
    failed root (in_range (page_up oldsz) (page_up newsz)) s K s2 f2 K2 ∧
    ∀ c, c ∉ f1 → K1 !! c = None → c ∉ f2 ∧ K2 !! c = None.
Proof.
  intros Hi Hr Ho Hn Hfuel Hunm Hperm Ha Hg.
  pose proof (gw_inv _ _ _ _ _ _ _ _ _ _ Hg) as Hi1.
  assert (is_root K1 root) as Hr1 by by eapply grown_root.
  assert (oldsz ≤ page_up oldsz < oldsz + 4096) as Hup by (unfold page_up; zlia).
  assert (newsz ≤ page_up newsz < newsz + 4096) as Hup2 by (unfold page_up; zlia).
  destruct (dealloc_loop_spec kend Hkend root newsz (fuel - 1) (page_up oldsz) s1 f1 K1 fuel)
    as (s2 & f2 & K2 & Hrun & Hsh); try done; try lia.
  { unfold page_up. zlia. }
  { intros a' va Ha' Hva Hsl Hpr. destruct (decide (va < a)) as [Hlt|Hge].
    - destruct (gw_in _ _ _ _ _ _ _ _ _ _ Hg a') as (c & Hc & Hcf & _ & _);
        [lia|apply in_range_iff; lia|].
      pose proof (vi_free _ _ _ _ Hi) as Hfr. pose proof (ki_pages _ _ _ Hfr) as Hfp.
      rewrite Forall_forall in Hfp.
      destruct (leaf_of_spec kend c (perm a') (Hfp c Hcf) (Hperm a')) as (_ & Hpr' & _).
      rewrite <-Hc in Hpr'.
      by destruct (pte_child kend _ K1 root a' (vi_pt _ _ _ _ Hi1) Hr1 Hpr') as [? _].
    - apply (Hunm va); [lia|]. rewrite <-(gw_out _ _ _ _ _ _ _ _ _ _ Hg root va Hr); [done|lia|].
      rewrite in_range_iff. lia. }
  exists s2, f2, K2. split; [|split; [split|]].
  - unfold uvm_dealloc. destruct (Z.leb_spec newsz oldsz); [lia|].
    rewrite roundup_spec by lia. by mstep Hrun.
  - apply Hsh.
  - intros r Hr0. eapply shrunk_root; [exact Hsh|]. by eapply grown_root.
  - apply Hsh.
  - intros root2 va Hr2 Hva Hne. rewrite (sh_out _ _ _ _ _ _ _ _ _ Hsh); try done.
    + apply (gw_out _ _ _ _ _ _ _ _ _ _ Hg); [done|done|]. intros [-> HR]. apply Hne.
      split; [done|]. rewrite in_range_iff in *. lia.
    + by eapply grown_root.
  - intros p r pre x Hp Hx.
    pose proof (lookup_weaken _ _ _ _ Hp (gw_sub _ _ _ _ _ _ _ _ _ _ Hg)) as Hp1.
    assert (K2 !! p = Some (Reg r 4 pre)) as Hp2.
    { destruct (K2 !! p) as [rg|] eqn:H2.
      - pose proof (lookup_weaken _ _ _ _ H2 (sh_sub _ _ _ _ _ _ _ _ _ Hsh)). congruence.
      - destruct (sh_lost _ _ _ _ _ _ _ _ _ Hsh p _ Hp1 H2) as (va & HR & [= -> ->]).
        apply in_range_iff in HR. exfalso. apply (Hunm va HR).
        by destruct (user_pte_present (k_mem s) K root va p (vi_pt _ _ _ _ Hi) Hp). }
    split; [done|]. assert (page_ok kend p) as Hpo by (eapply pk_page; [apply Hi|done]).
    rewrite (sh_user _ _ _ _ _ _ _ _ _ Hsh p x (page_aligned _ _ Hpo)); [| | |done].
    + apply (gw_user _ _ _ _ _ _ _ _ _ _ Hg p x (page_aligned _ _ Hpo)); [| |done].
      * intros Hin. rewrite (vi_disj _ _ _ _ Hi p Hin) in Hp. done.
      * intros rg Hrg. rewrite Hp in Hrg. by injection Hrg as <-.
    + intros Hin. rewrite (vi_disj _ _ _ _ (sh_inv _ _ _ _ _ _ _ _ _ Hsh) p Hin) in Hp2. done.
    + intros rg Hrg. rewrite Hp1 in Hrg. by injection Hrg as <-.
  - intros c Hc1 HK1. split.
    + intros Hc2. destruct (sh_freed _ _ _ _ _ _ _ _ _ Hsh c Hc2) as [?|[rg ?]]; [done|congruence].
    + eapply lookup_weaken_None; [exact HK1|apply Hsh].
Qed.

(** Free pages that are in no table may be freed again after a failure. *)
Lemma failed_kfree root R s K s2 f2 K2 c :
  failed root R s K s2 f2 K2 → is_root K root → page_ok kend c → c ∉ f2 → K2 !! c = None →
  ∃ s3, kfree kend c s2 = Ret () s3 ∧ failed root R s K s3 (c :: f2) K2.
Proof.
  intros [[Hf Hok Hd] Hroot Hin Hout Hus] Hr Hc Hcf HcK.
  destruct (kfree_spec kend s2 f2 c) as (s3 & H3 & Hf3 & Hm3); [unfold KERNBASE in *; lia|done..|].
  destruct (page_write_ok kend (k_mem s2) (k_mem s3) K2 c 8 Hok Hc) as [He Hother];
    [intros rg Hrg; congruence|unfold PGSIZE; lia|done|].
  destruct (pt_ok_ext kend _ (k_mem s3) K2 Hok He) as [Hok3 Hpte].
  exists s3. split; [done|]. split.
  - split; [done|done|]. intros p [->|Hp]%elem_of_cons; [done|by apply Hd].
  - done.
  - intros va Hva HR. destruct (Hpte root va (Hroot _ Hr)) as [_ ->]. by apply Hin.
  - intros root2 va Hr2 Hva Hne. destruct (Hpte root2 va (Hroot _ Hr2)) as [_ ->]. by apply Hout.
  - intros p r pre x Hp Hx. destruct (Hus p r pre x Hp Hx) as [HK2 Hx2]. split; [done|].
    rewrite (Hother p); [done|by eapply page_aligned, pk_page|congruence|done].
Qed.

Definition alloc_perm : Z := Z.lor PTE_RW PTE_USER.

Lemma alloc_loop_spec root s free K oldsz newsz dfuel n : ∀ a s1 f1 K1 fuel,
  vm_inv kend s free K → is_root K root → 0 ≤ oldsz → 0 ≤ newsz < UADDR_SZ →
  newsz + 4096 < 4096 * Z.of_nat dfuel →
  (∀ va, page_up oldsz ≤ va < page_up newsz → ¬ present (pte_val (k_mem s) root va)) →
  grown root (in_range (page_up oldsz) a) (λ _, alloc_perm) (λ _ _, 0) s free K s1 f1 K1 →
  page_up oldsz ≤ a ≤ page_up newsz → a mod 4096 = 0 →
  newsz - a ≤ 4096 * Z.of_nat n → (n < fuel)%nat →
  ∃ r s2 f2 K2, alloc_loop kend fuel dfuel root a oldsz newsz s1 = Ret r s2 ∧
    (r = newsz ∧ grown root (in_range (page_up oldsz) (page_up newsz)) (λ _, alloc_perm) (λ _ _, 0)
                   s free K s2 f2 K2 ∨
     r = 0 ∧ failed root (in_range (page_up oldsz) (page_up newsz)) s K s2 f2 K2 ∧
       (length f1 < 4 * n)%nat).
Proof.
  induction n as [|n IH]; intros a s1 f1 K1 fuel Hi Hr Ho Hn Hdf Hunm Hg Ha Hal Hna Hf;
    assert (UADDR_SZ = 2 ^ 28) as HU by done; rewrite HU in Hn;
    assert (newsz ≤ page_up newsz < newsz + 4096) as Hup by (unfold page_up; zlia);
    assert (oldsz ≤ page_up oldsz) as Hupo by (unfold page_up; zlia);
    (destruct fuel as [|fuel]; [lia|]); cbn [alloc_loop].
  - destruct (Z.ltb_spec a newsz); [lia|]. exists newsz, s1, f1, K1.
    rewrite s32_small by lia. split; [done|]. left. split; [done|].
    assert (a = page_up newsz) as <- by (unfold page_up in *; zlia). done.
  - destruct (Z.ltb_spec a newsz) as [Hlt|Hge].
    2:{ exists newsz, s1, f1, K1. rewrite s32_small by lia. split; [done|]. left. split; [done|].
        assert (a = page_up newsz) as <- by (unfold page_up in *; zlia). done. }
    pose proof (gw_inv _ _ _ _ _ _ _ _ _ _ Hg) as Hi1.
    assert (is_root K1 root) as Hr1 by by eapply grown_root.
    assert (0 ≤ alloc_perm < 4096) as Hperm by done.
    destruct f1 as [|c f1].
    + destruct (undo_growth root (λ _, alloc_perm) (λ _ _, 0) s free K s1 [] K1 a oldsz newsz dfuel)
        as (s2 & f2 & K2 & Hrun & Hfl & _);
        [exact Hi|exact Hr|lia|lia|exact Hdf|exact Hunm|by intros|lia|exact Hg|].
      exists 0, s2, f2, K2. split; [|right; split; [done|]; split; [done|cbn; lia]].
      pose proof (kalloc_spec kend s1 [] (vi_free _ _ _ _ Hi1)) as Hk. mstep Hk.
      rewrite Z.eqb_refl. by mstep Hrun.
    + destruct (after_alloc s1 c f1 K1 Hi1) as (s1' & Hk & Hc & Hcn & Hcf & _).
      pose proof (memset_spec (k_mem s1') c 0 PGSIZE ltac:(unfold PGSIZE; lia)) as [Hz Hm2].
      set (m2 := memset (k_mem s1') c 0 PGSIZE) in *.
      destruct (grow_page s1 c f1 K1 s1' m2 root a (λ _, alloc_perm) (λ _ _, 0)) as
        [(s3 & f3 & K3 & Hrun & Hlen & Hcf3 & Hcn3 & Hg3)|(s3 & f3 & K3 & Hrun & Hlen & Hg3)];
        [exact Hi1|exact Hk|exact Hm2|exact Hr1|lia|exact Hal|exact Hperm|exact Hz|by split| | |].
      { rewrite (gw_out _ _ _ _ _ _ _ _ _ _ Hg root a Hr); [apply Hunm; lia|lia|].
        rewrite in_range_iff. lia. }
      * assert (grown root (in_range (page_up oldsz) a) (λ _, alloc_perm) (λ _ _, 0) s free K s3 f3 K3) as Hg'.
        { eapply (grown_trans root _ (λ _, false)); [done| |done|exact Hg|exact Hg3].
          intros va _. by rewrite orb_false_r. }
        destruct (undo_growth root (λ _, alloc_perm) (λ _ _, 0) s free K s3 f3 K3 a oldsz newsz dfuel)
          as (s4 & f4 & K4 & Hrun4 & Hfl & Hfree);
          [exact Hi|exact Hr|lia|lia|exact Hdf|exact Hunm|by intros|lia|exact Hg'|].
        destruct (Hfree c Hcf3 Hcn3) as [Hcf4 Hcn4].
        destruct (failed_kfree root _ s K s4 f4 K4 c Hfl Hr Hc Hcf4 Hcn4) as (s5 & Hrun5 & Hfl5).
        exists 0, s5, (c :: f4), K4. split; [|right; split; [done|]; split; [done|cbn; lia]].
        mstep Hk. pose proof (page_pos kend c Hc). destruct (Z.eqb_spec c 0); [lia|].
        mstep (eq_refl (setmem c 0 PGSIZE s1')). mstep Hrun. cbn [Z.ltb Z.compare].
        mstep Hrun4. by mstep Hrun5.
      * assert (grown root (in_range (page_up oldsz) (a + PGSIZE)) (λ _, alloc_perm) (λ _ _, 0)
          s free K s3 f3 K3) as Hg'.
        { eapply (grown_trans root _ (in_range a (a + 4096))); [done| | |exact Hg|exact Hg3].
          - intros va _. unfold PGSIZE. rewrite (in_range_split _ a) by lia. f_equal.
            f_equal. lia.
          - intros va HR. apply in_range_iff in HR. destruct (in_range a (a + 4096) va) eqn:H2; [|done].
            apply in_range_iff in H2. lia. }
        destruct (IH (a + PGSIZE) s3 f3 K3 fuel) as (r & s4 & f4 & K4 & Hrun4 & Hres);
          [exact Hi|exact Hr|exact Ho|rewrite HU; exact Hn|exact Hdf|exact Hunm|exact Hg'
          |unfold PGSIZE, page_up in *; zlia|unfold PGSIZE; zlia|unfold PGSIZE; lia|lia|].
        exists r, s4, f4, K4. split.
        -- mstep Hk. pose proof (page_pos kend c Hc). destruct (Z.eqb_spec c 0); [lia|].
           mstep (eq_refl (setmem c 0 PGSIZE s1')). mstep Hrun. cbn [Z.ltb Z.compare].
           rewrite w64_small by (unfold PGSIZE; lia). exact Hrun4.
        -- destruct Hres as [?|(? & ? & ?)]; [by left|right]. split; [done|]. split; [done|].
           cbn. lia.
Qed.

(** An address space depends on its own tables only. *)
Lemma val_frame_root m m' K n : ∀ l p root va,
  pt_ok kend m K → K !! p = Some (Reg root l (path l va)) → (n + l = 3)%nat →
  (∀ q l' pre j, K !! q = Some (Reg root l' pre) → (l' < 4)%nat → 0 ≤ j < 512 →
     entry m' q j = entry m q j) →
  val_from n m' (Z.of_nat l) p va = val_from n m (Z.of_nat l) p va.
Proof.
  induction n as [|n IH]; intros l p root va Hok Hp Hn He; unfold val_from; cbn [slot_from].
  - destruct (_ =? 0); [done|]. apply (He p l (path l va)); [done|lia|apply PTX_range].
  - rewrite (He p l (path l va)) by (done || lia || apply PTX_range).
    destruct (Z.eqb_spec (Z.land (entry m p (PTX (Z.of_nat l) va)) PTE_P) 0); [done|].
    replace (Z.of_nat l + 1) with (Z.of_nat (S l)) by lia. apply (IH _ _ root); [done| |lia|done].
    apply (pk_child _ _ _ Hok _ _ _ _ _ Hp); [lia|apply PTX_range|done].
Qed.

(** A new, empty address space. *)
Lemma new_root s c free K :
  vm_inv kend s (c :: free) K →
  ∃ s1, pgdir_init s = Ret c s1 ∧ vm_inv kend s1 free (<[c := Reg c 0 0]> K) ∧ K !! c = None ∧
    page_ok kend c ∧
    (∀ p x, aligned p → p ≠ c → in_page p x → k_mem s1 x = k_mem s x) ∧
    (∀ root va, is_root K root → pte_val (k_mem s1) root va = pte_val (k_mem s) root va) ∧
    (∀ va, pte_val (k_mem s1) c va = 0).
Proof.
  intros Hi. destruct (after_alloc s c free K Hi) as (s1 & Hk & Hc & Hcn & Hcf & Hafter).
  pose proof (memset_spec (k_mem s1) c 0 PGSIZE ltac:(unfold PGSIZE; lia)) as [Hz Hm2].
  set (m2 := memset (k_mem s1) c 0 PGSIZE) in *. destruct (Hafter m2 Hm2) as (Hi2 & Hother & Hpte).
  assert (∀ x, in_page c x → m2 x = 0) as Hz'.
  { intros x Hx. unfold in_page in Hx. replace x with (c + (x - c)) by lia. by rewrite Hz by lia. }
  exists (mkKst m2 (k_free s1)). split; [|split; [|split; [done|split; [done|split; [done|split; [done|]]]]]].
  - unfold pgdir_init. mstep Hk. pose proof (page_pos kend c Hc). destruct (Z.eqb_spec c 0); [lia|].
    by mstep (eq_refl (setmem c 0 PGSIZE s1)).
  - destruct Hi2 as [Hf [P1 P2 P3 P4 P5] Hd]. split; [done| |].
    + split.
      * intros p r [[<- _]|[_ Hp]]%lookup_insert_Some; [done|by eapply P1].
      * intros p r [[_ <-]|[_ Hp]]%lookup_insert_Some; [cbn; lia|by eapply P2].
      * intros p r pre [[<- [= <- <-]]|[_ Hp]]%lookup_insert_Some; [done|by apply P3].
      * intros d r l pre [[_ [=]]|[Hne Hd']]%lookup_insert_Some.
        destruct (P4 _ _ _ _ Hd') as (q & Hq & Hpr & Hch). exists q.
        rewrite lookup_insert_ne by congruence. exact (conj Hq (conj Hpr Hch)).
      * intros p r l pre i [[<- [= <- <- <-]]|[Hne Hp]]%lookup_insert_Some Hl Hj Hpr.
        -- exfalso. apply Hpr. unfold entry. rewrite load64_zero; [done|]. intros k Hk0.
           by apply Hz', entry_in_page.
        -- rewrite lookup_insert_ne; [by eapply P5|]. intros Heq.
           pose proof (P5 _ _ _ _ _ Hp Hl Hj Hpr) as Hch. rewrite <-Heq in Hch. congruence.
    + intros p Hp. rewrite lookup_insert_ne; [by apply Hd|congruence].
  - intros va. by apply val_zero.
Qed.

(** What [copyuvm] gives to each page of the child. *)
Definition copy_perm (s : kst) (root va : Z) : Z :=
  Z.land (pte_val (k_mem s) root va) (Z.lor PTE_USER PTE_RO).
Definition copy_init (s : kst) (root va o : Z) : Z :=
  k_mem s (child (pte_val (k_mem s) root va) + o).

Lemma land_small a b : 0 ≤ b < 4096 → 0 ≤ Z.land a b < 4096.
Proof.
  intros [Hb Hb']. assert (0 ≤ Z.land a b) as H0 by (apply Z.land_nonneg; by right).
  split; [done|]. destruct (decide (Z.land a b = 0)) as [->|]; [lia|].
  change 4096 with (2 ^ 12). apply Z.log2_lt_pow2; [lia|].
  assert (b ≠ 0) by (intros ->; by rewrite Z.land_0_r in *).
  assert (Z.log2 b < 12) by (apply Z.log2_lt_pow2; lia).
  assert (Z.testbit (Z.land a b) (Z.log2 (Z.land a b)) = true) as Ht by (apply Z.bit_log2; lia).
  rewrite Z.land_spec, andb_true_iff in Ht. destruct Ht as [_ Ht].
  destruct (decide (Z.log2 (Z.land a b) ≤ Z.log2 b)); [lia|].
  rewrite Z.bits_above_log2 in Ht by lia. done.
Qed.

(** The child's address space so far: pages [[0, i)] of the parent, copied.
    The pages of the parent are untouched. *)
Lemma copy_page_read s0 K0 root new s1 f1 K1 s2 f2 K2 R perm init va o :
  vm_inv kend s0 (new :: f1) K0 → is_root K0 root → 0 ≤ va < 2 ^ 48 →
  present (pte_val (k_mem s0) root va) → K1 = <[new := Reg new 0 0]> K0 →
  (∀ p x, aligned p → p ≠ new → in_page p x → k_mem s1 x = k_mem s0 x) →
  (∀ root2 va2, is_root K0 root2 → pte_val (k_mem s1) root2 va2 = pte_val (k_mem s0) root2 va2) →
  vm_inv kend s1 f1 K1 → root ≠ new →
  grown new R perm init s1 f1 K1 s2 f2 K2 → 0 ≤ o < 4096 →
  pte_val (k_mem s2) root va = pte_val (k_mem s0) root va ∧
  k_mem s2 (child (pte_val (k_mem s0) root va) + o) = copy_init s0 root va o ∧
  is_root K2 root.
Proof.
  intros Hi0 Hr0 Hva Hpr -> Hoth Hpte Hi1 Hne Hg Ho.
  assert (is_root (<[new := Reg new 0 0]> K0) root) as Hr1.
  { unfold is_root. by rewrite lookup_insert_ne by congruence. }
  destruct (pte_child kend (k_mem s0) K0 root va (vi_pt _ _ _ _ Hi0) Hr0 Hpr) as (_ & _ & Hc).
  set (c := child (pte_val (k_mem s0) root va)) in *.
  assert (page_ok kend c) as Hco by (eapply pk_page; [apply Hi0|done]).
  assert (c ≠ new) as Hcnew.
  { intros ->. rewrite (vi_disj _ _ _ _ Hi0 new) in Hc; [done|]. apply elem_of_cons; by left. }
  assert ((<[new := Reg new 0 0]> K0) !! c = Some (Reg root 4 (path 4 va))) as Hc1
    by by rewrite lookup_insert_ne.
  assert (in_page c (c + o)) as Hx by (unfold in_page, PGSIZE; lia).
  split; [|split; [|by eapply grown_root]].
  - rewrite (gw_out _ _ _ _ _ _ _ _ _ _ Hg root va Hr1 Hva); [by apply Hpte|by intros [? _]].
  - unfold copy_init. fold c. rewrite (gw_user _ _ _ _ _ _ _ _ _ _ Hg c (c + o) (page_aligned _ _ Hco)).
    + by apply (Hoth c); [eapply page_aligned| |].
    + intros Hin. by rewrite (vi_disj _ _ _ _ Hi1 c Hin) in Hc1.
    + intros rg Hrg. rewrite Hc1 in Hrg. by injection Hrg as <-.
    + done.
Qed.

(** The old address spaces are as they were. *)
Definition others_same s0 K0 s' : Prop :=
  (∀ root2 va, is_root K0 root2 → 0 ≤ va < 2 ^ 48 →
     pte_val (k_mem s') root2 va = pte_val (k_mem s0) root2 va) ∧
  ∀ p r pre x, K0 !! p = Some (Reg r 4 pre) → in_page p x → k_mem s' x = k_mem s0 x.

Section Copy.
Context (s0 : kst) (K0 : gmap Z reg) (root new : Z) (f1 : list Z) (s1 : kst) (sz : Z).
Let K1 := <[new := Reg new 0 0]> K0.
Let perm := copy_perm s0 root.
Let init := copy_init s0 root.
Hypothesis (Hi0 : vm_inv kend s0 (new :: f1) K0) (Hr0 : is_root K0 root).
Hypothesis (Hi1 : vm_inv kend s1 f1 K1) (Hnew : K0 !! new = None) (Hno : page_ok kend new).
Hypothesis (Hoth : ∀ p x, aligned p → p ≠ new → in_page p x → k_mem s1 x = k_mem s0 x).
Hypothesis (Hpte : ∀ root2 va2, is_root K0 root2 →
  pte_val (k_mem s1) root2 va2 = pte_val (k_mem s0) root2 va2).
Hypothesis (Hpte0 : ∀ va, pte_val (k_mem s1) new va = 0).
Hypothesis (Hsz : 0 ≤ sz < 2 ^ 47).
Hypothesis (Hpres : ∀ va, 0 ≤ va < sz → present (pte_val (k_mem s0) root va)).

Lemma copy_root_ne r : is_root K0 r → r ≠ new ∧ is_root K1 r.
Proof.
  intros Hr. assert (r ≠ new) as Hne by (intros ->; unfold is_root in Hr; congruence).
  split; [done|]. unfold is_root, K1. by rewrite lookup_insert_ne.
Qed.

Lemma copy_others R s2 f2 K2 :
  grown new R perm init s1 f1 K1 s2 f2 K2 → others_same s0 K0 s2.
Proof.
  intros Hg. split.
  - intros root2 va Hr2 Hva. destruct (copy_root_ne _ Hr2) as [Hne Hr2'].
    rewrite (gw_out _ _ _ _ _ _ _ _ _ _ Hg root2 va Hr2' Hva) by by intros [? _]. by apply Hpte.
  - intros p r pre x Hp Hx. assert (p ≠ new) as Hne by congruence.
    assert (page_ok kend p) as Hpo by (eapply pk_page; [apply Hi0|done]).
    assert (K1 !! p = Some (Reg r 4 pre)) as Hp1 by (unfold K1; by rewrite lookup_insert_ne).
    rewrite (gw_user _ _ _ _ _ _ _ _ _ _ Hg p x (page_aligned _ _ Hpo)); [by apply (Hoth p); [eapply page_aligned| |]| | |done].
    + intros Hin. by rewrite (vi_disj _ _ _ _ Hi1 p Hin) in Hp1.
    + intros rg Hrg. rewrite Hp1 in Hrg. by injection Hrg as <-.
Qed.

(** Giving up: the root is freed, and it alone. *)
Lemma copy_fail R s2 f2 K2 :
  grown new R perm init s1 f1 K1 s2 f2 K2 →
  ∃ s3, kfree kend new s2 = Ret () s3 ∧ others_same s0 K0 s3 ∧ kinv kend s3 (new :: f2).
Proof.
  intros Hg. pose proof (copy_others _ _ _ _ Hg) as [Hm Hu].
  pose proof (gw_inv _ _ _ _ _ _ _ _ _ _ Hg) as Hi2.
  assert (K2 !! new = Some (Reg new 0 0)) as Hn2.
  { eapply lookup_weaken; [|apply Hg]. apply lookup_insert_eq. }
  destruct (kfree_spec kend s2 f2 new) as (s3 & H3 & Hf3 & Hm3); [unfold KERNBASE in *; lia|apply Hi2|done| |].
  { intros Hin. by rewrite (vi_disj _ _ _ _ Hi2 new Hin) in Hn2. }
  assert (∀ p x, aligned p → p ≠ new → in_page p x → k_mem s3 x = k_mem s2 x) as Hother.
  { intros p x Hp Hne Hx. apply Hm3. intros Hx'. apply Hne.
    apply (aligned_disjoint p new x); [done|by eapply page_aligned|done|]. unfold in_page, PGSIZE. lia. }
  exists s3. split; [done|]. split; [split|done].
  - intros root2 va Hr2 Hva. rewrite <-(Hm root2 va Hr2 Hva).
    destruct (copy_root_ne _ Hr2) as [Hne Hr2'].
    apply (val_frame_root (k_mem s2) (k_mem s3) K2 3 0 root2 root2 va); [apply Hi2| |done|].
    + by eapply grown_root.
    + intros q l' pre j Hq Hl Hj. apply entry_ext; [done|]. intros x Hx.
      apply (Hother q); [by eapply page_aligned, pk_page; [apply Hi2|]|congruence|done].
  - intros p r pre x Hp Hx. rewrite <-(Hu p r pre x Hp Hx).
    apply (Hother p); [by eapply page_aligned, pk_page; [apply Hi0|]|congruence|done].
Qed.

Lemma copyuvm_loop_spec n : ∀ i s2 f2 K2 fuel,
  grown new (in_range 0 i) perm init s1 f1 K1 s2 f2 K2 →
  0 ≤ i ≤ page_up sz → i mod 4096 = 0 → sz - i ≤ 4096 * Z.of_nat n → (n < fuel)%nat →
  ∃ r s3, copyuvm_loop kend fuel root new i sz s2 = Ret r s3 ∧ others_same s0 K0 s3 ∧
    (r = new ∧ (∃ f3 K3, grown new (in_range 0 (page_up sz)) perm init s1 f1 K1 s3 f3 K3) ∨
     r = 0 ∧ (length f2 < 4 * n)%nat ∧ ∃ f3, kinv kend s3 f3 ∧ (length f3 ≤ 3)%nat).
Proof.
  induction n as [|n IH]; intros i s2 f2 K2 fuel Hg Hi Hal Hn Hf;
    assert (sz ≤ page_up sz < sz + 4096) as Hup by (unfold page_up; zlia);
    (destruct fuel as [|fuel]; [lia|]); cbn [copyuvm_loop].
  - destruct (Z.ltb_spec i sz); [lia|]. exists new, s2. split; [done|].
    split; [by eapply copy_others|]. left. split; [done|]. exists f2, K2.
    assert (i = page_up sz) as <- by (unfold page_up in *; zlia). done.
  - destruct (Z.ltb_spec i sz) as [Hlt|Hge].
    2:{ exists new, s2. split; [done|]. split; [by eapply copy_others|]. left. split; [done|].
        exists f2, K2. assert (i = page_up sz) as <- by (unfold page_up in *; zlia). done. }
    destruct (copy_root_ne _ Hr0) as [Hrn Hr1].
    pose proof (Hpres i ltac:(lia)) as Hpr.
    destruct (copy_page_read s0 K0 root new s1 f1 K1 s2 f2 K2 (in_range 0 i) perm init i 0 Hi0 Hr0
      ltac:(lia) Hpr eq_refl Hoth Hpte Hi1 Hrn Hg ltac:(lia)) as (Hpv & _ & Hr2).
    pose proof (gw_inv _ _ _ _ _ _ _ _ _ _ Hg) as Hi2.
    destruct (pte_child kend (k_mem s2) K2 root i (vi_pt _ _ _ _ Hi2) Hr2) as (Hs0 & Hld & _);
      [by rewrite Hpv|].
    rewrite Hpv in Hld. set (v := pte_val (k_mem s0) root i) in *.
    assert (∀ k : Z → M kst Z, (pte ← pgdir_walk root i 0; k pte) s2 = k (slot (k_mem s2) root i) s2) as Hw.
    { intros k. apply mbind_ret. apply (walk_noalloc 3 0 root i s2). }
    rewrite Hw. clear Hw. destruct (Z.eqb_spec (slot (k_mem s2) root i) 0); [done|].
    mstep (eq_refl (ld (slot (k_mem s2) root i) s2)). rewrite <-Hld.
    destruct (Z.eqb_spec (Z.land v (Z.lor PTE_PAGE PTE_P)) 0) as [Hz|_].
    { exfalso. apply Hpr. rewrite Z.land_lor_distr_r in Hz. apply Z.lor_eq_0_iff in Hz as [_ Hz].
      exact Hz. }
    assert (is_root K2 new) as Hrnew.
    { eapply lookup_weaken; [|apply Hg]. apply lookup_insert_eq. }
    destruct f2 as [|c f2].
    + destruct (copy_fail _ _ _ _ Hg) as (s3 & Hrun & Hot & Hk3). exists 0, s3. split; [|split; [done|]].
      * pose proof (kalloc_spec kend s2 [] (vi_free _ _ _ _ Hi2)) as Hk. mstep Hk.
        rewrite Z.eqb_refl. by mstep Hrun.
      * right. split; [done|]. split; [cbn; lia|]. exists [new]. split; [done|cbn; lia].
    + destruct (after_alloc s2 c f2 K2 Hi2) as (s2' & Hk & Hc & Hcn & Hcf & Hafter).
      pose proof (memmove_spec (k_mem s2') c (P2V (PTE_ADDR v)) PGSIZE ltac:(unfold PGSIZE; lia)) as [Hcp Hm2].
      set (m2 := memmove (k_mem s2') c (P2V (PTE_ADDR v)) PGSIZE) in *.
      assert (∀ o, 0 ≤ o < 4096 → m2 (c + o) = init i o) as Hinit.
      { intros o Ho. rewrite Hcp by (unfold PGSIZE; lia).
        destruct (copy_page_read s0 K0 root new s1 f1 K1 s2 (c :: f2) K2 (in_range 0 i) perm init i o Hi0 Hr0
          ltac:(lia) Hpr eq_refl Hoth Hpte Hi1 Hrn Hg Ho) as (_ & Hrd & _).
        fold v in Hrd. etransitivity; [|exact Hrd].
        destruct (pte_child kend (k_mem s2) K2 root i (vi_pt _ _ _ _ Hi2) Hr2) as (_ & _ & HKc);
          [by rewrite Hpv|]. rewrite Hpv in HKc. fold v in HKc.
        destruct (kalloc_spec kend s2 _ (vi_free _ _ _ _ Hi2)) as (s2'' & Hk' & _ & _ & Hout).
        rewrite Hk in Hk'. injection Hk' as <-. apply Hout. intros Hx.
        assert (child v = c) as Heq.
        { eapply (pages_disjoint kend _ c (child v + o)); [by eapply pk_page; [apply Hi2|]|done| |done].
          unfold in_page, PGSIZE. lia. }
        rewrite Heq in HKc. congruence. }
      destruct (grow_page s2 c f2 K2 s2' m2 new i perm init) as
        [(s3 & f3 & K3 & Hrun & Hlen & Hcf3 & Hcn3 & Hg3)|(s3 & f3 & K3 & Hrun & Hlen & Hg3)];
        [exact Hi2|exact Hk|exact Hm2|exact Hrnew|lia|exact Hal|by apply land_small|exact Hinit| | | |].
      { intros va Hs. assert (0 ≤ va < 2 ^ 48) as Hva by (unfold same_page in Hs; zlia).
        unfold perm, init, copy_perm, copy_init.
        by rewrite (pte_same_page (k_mem s0) root i va ltac:(lia) Hva Hs). }
      { intros Hbad. apply Hbad.
        rewrite (gw_out _ _ _ _ _ _ _ _ _ _ Hg new i); [|apply lookup_insert_eq|lia|].
        - by rewrite Hpte0.
        - intros [_ HR%in_range_iff]. lia. }
      * assert (grown new (in_range 0 i) perm init s1 f1 K1 s3 f3 K3) as Hg'.
        { eapply (grown_trans new _ (λ _, false)); [apply lookup_insert_eq| |done|exact Hg|exact Hg3].
          intros va _. by rewrite orb_false_r. }
        destruct (copy_fail _ _ _ _ Hg') as (s4 & Hrun4 & Hot & Hk4).
        exists 0, s4. split; [|split; [done|]].
        -- mstep Hk. pose proof (page_pos kend c Hc). destruct (Z.eqb_spec c 0); [lia|].
           mstep (eq_refl (movemem c (P2V (PTE_ADDR v)) PGSIZE s2')). mstep Hrun. cbn [Z.ltb Z.compare].
           by mstep Hrun4.
        -- right. split; [done|]. split; [cbn; lia|]. exists (new :: f3). split; [done|].
           destruct (gw_free _ _ _ _ _ _ _ _ _ _ Hg3) as [u Hu].
           destruct u as [|x u]; [cbn in Hu; destruct Hcf3; rewrite <-Hu; apply elem_of_cons; by left|].
           injection Hu as _ Hu. apply (f_equal length) in Hu. rewrite length_app in Hu. cbn. lia.
      * assert (grown new (in_range 0 (i + PGSIZE)) perm init s1 f1 K1 s3 f3 K3) as Hg'.
        { eapply (grown_trans new _ (in_range i (i + 4096))); [apply lookup_insert_eq| | |exact Hg|exact Hg3].
          - intros va _. unfold PGSIZE. rewrite (in_range_split _ i) by lia. f_equal. f_equal. lia.
          - intros va HR. apply in_range_iff in HR. destruct (in_range i (i + 4096) va) eqn:H2; [|done].
            apply in_range_iff in H2. lia. }
        destruct (IH (i + PGSIZE) s3 f3 K3 fuel) as (r & s4 & Hrun4 & Hot & Hres);
          [exact Hg'|unfold PGSIZE, page_up in *; zlia|unfold PGSIZE; zlia|unfold PGSIZE; lia|lia|].
        exists r, s4. split; [|split; [done|]].
        -- mstep Hk. pose proof (page_pos kend c Hc). destruct (Z.eqb_spec c 0); [lia|].
           mstep (eq_refl (movemem c (P2V (PTE_ADDR v)) PGSIZE s2')). mstep Hrun. cbn [Z.ltb Z.compare].
           rewrite w64_small by (unfold PGSIZE; lia). exact Hrun4.
        -- destruct Hres as [?|(? & ? & ?)]; [by left|right]. split; [done|]. split; [cbn; lia|done].
Qed.
End Copy.

(** ** Copying to user memory *)

(** The address and the byte at the user address [va] of [root]. *)
Definition user_addr m root va : Z := child (pte_val m root va) + va mod 4096.
Definition user_byte m root va : Z := m (user_addr m root va).

Lemma user_addr_inj m K root va root2 va2 :
  pt_ok kend m K → is_root K root → is_root K root2 → 0 ≤ va < 2 ^ 48 → 0 ≤ va2 < 2 ^ 48 →
  present (pte_val m root va) → present (pte_val m root2 va2) →
  user_addr m root va = user_addr m root2 va2 → root = root2 ∧ va = va2.
Proof.
  intros Hok Hr Hr2 Hva Hva2 Hp Hp2 Heq.
  destruct (pte_child kend m K root va Hok Hr Hp) as (_ & _ & Hc).
  destruct (pte_child kend m K root2 va2 Hok Hr2 Hp2) as (_ & _ & Hc2).
  unfold user_addr in Heq. set (c := child (pte_val m root va)) in *.
  set (c2 := child (pte_val m root2 va2)) in *.
  assert (c = c2) as Hcc.
  { eapply (pages_disjoint kend c c2 (c + va mod 4096)); [by eapply pk_page..| |];
      [|rewrite Heq]; unfold in_page, PGSIZE; zlia. }
  rewrite <-Hcc, Hc in Hc2. apply (f_equal (λ o : option reg, match o with
    | Some rg => (r_root rg, r_path rg) | None => (0, 0) end)) in Hc2. cbn [r_root r_path] in Hc2.
  injection Hc2 as H1 H2. split; [done|].
  assert (va / 4096 = va2 / 4096) as Hd by (rewrite <-!path_page by done; exact H2).
  zlia.
Qed.

Definition user_ok m root va : Prop :=
  present (pte_val m root va) ∧ Z.land (pte_val m root va) PTE_USER ≠ 0.

Lemma uva2ka_spec s root va :
  0 ≤ va < 2 ^ 48 → slot (k_mem s) root va ≠ 0 →
  uva2ka root va s =
    Ret (if decide (user_ok (k_mem s) root va) then child (pte_val (k_mem s) root va) else 0) s.
Proof.
  intros Hva Hs. unfold uva2ka.
  assert (∀ k : Z → M kst Z, (pte ← pgdir_walk root va 0; k pte) s = k (slot (k_mem s) root va) s) as Hw.
  { intros k. apply mbind_ret. apply (walk_noalloc 3 0 root va s). }
  rewrite Hw. destruct (Z.eqb_spec (slot (k_mem s) root va) 0); [done|].
  mstep (eq_refl (ld (slot (k_mem s) root va) s)).
  assert (load64 (k_mem s) (slot (k_mem s) root va) = pte_val (k_mem s) root va) as ->.
  { unfold pte_val, val_from. change (slot_from 3 (k_mem s) 0 root va) with (slot (k_mem s) root va).
    by destruct (Z.eqb_spec (slot (k_mem s) root va) 0). }
  unfold user_ok, present. destruct (Z.eqb_spec (Z.land (pte_val (k_mem s) root va) PTE_P) 0).
  { rewrite decide_False; [done|]. by intros [? _]. }
  destruct (Z.eqb_spec (Z.land (pte_val (k_mem s) root va) PTE_USER) 0).
  { rewrite decide_False; [done|]. by intros [_ ?]. }
  by rewrite decide_True.
Qed.

(** What a write of [n] bytes to the page of [va] does to the user memories. *)
Lemma user_write s free K root va n m1 :
  vm_inv kend s free K → is_root K root → 0 ≤ va → va + n < 2 ^ 48 → 0 < n →
  va mod 4096 + n ≤ 4096 → present (pte_val (k_mem s) root va) →
  same_outside (k_mem s) m1 (user_addr (k_mem s) root va) n →
  vm_inv kend (mkKst m1 (k_free s)) free K ∧
  (∀ r2 v2, is_root K r2 → slot m1 r2 v2 = slot (k_mem s) r2 v2 ∧ pte_val m1 r2 v2 = pte_val (k_mem s) r2 v2) ∧
  (∀ x, (∀ c r, K !! c = Some r → r_level r = 4%nat → ¬ in_page c x) → m1 x = k_mem s x) ∧
  ∀ r2 v2, is_root K r2 → 0 ≤ v2 < 2 ^ 48 → present (pte_val (k_mem s) r2 v2) →
    user_byte m1 r2 v2 =
      if decide (r2 = root ∧ va ≤ v2 < va + n)
      then m1 (user_addr (k_mem s) root va + (v2 - va)) else user_byte (k_mem s) r2 v2.
Proof.
  intros [Hf Hok Hd] Hr Hva Hvn Hn Hfit Hp Hm1.
  destruct (pte_child kend (k_mem s) K root va Hok Hr Hp) as (_ & _ & Hc).
  set (c := child (pte_val (k_mem s) root va)) in *.
  assert (page_ok kend c) as Hco by by eapply pk_page.
  assert (same_outside (k_mem s) m1 c PGSIZE) as Hm.
  { intros x Hx. apply Hm1. unfold user_addr. fold c. unfold PGSIZE in Hx. zlia. }
  destruct (page_write_ok kend (k_mem s) m1 K c PGSIZE Hok Hco) as [He Hother];
    [intros r Hrg; rewrite Hc in Hrg; by injection Hrg as <-|unfold PGSIZE; lia|done|].
  destruct (pt_ok_ext kend (k_mem s) m1 K Hok He) as [Hok1 Hpte].
  split; [split|split; [done|split]].
  - apply kinv_ext; [done|]. intros p x Hp' Hx. apply Hm. intros Hx'.
    pose proof (ki_pages _ _ _ Hf) as Hfp. rewrite Forall_forall in Hfp.
    rewrite <-(pages_disjoint kend c p x Hco (Hfp p Hp') Hx' Hx) in Hp'.
    by rewrite (Hd _ Hp') in Hc.
  - done.
  - done.
  - intros x Hx. apply Hm. by apply (Hx c _ Hc).
  - intros r2 v2 Hr2 Hv2 Hp2. unfold user_byte.
    assert (user_addr m1 r2 v2 = user_addr (k_mem s) r2 v2) as ->.
    { unfold user_addr. by destruct (Hpte r2 v2 Hr2) as [_ ->]. }
    case_decide as Hcase.
    + destruct Hcase as [-> Hin]. f_equal. unfold user_addr.
      assert (same_page va v2) as Hs by (unfold same_page; zlia).
      rewrite (pte_same_page _ root va v2 ltac:(lia) Hv2 Hs). unfold same_page in Hs. zlia.
    + apply Hm1. intros Hx. apply Hcase.
      set (d := user_addr (k_mem s) r2 v2 - user_addr (k_mem s) root va) in *.
      assert (same_page va (va + d)) as Hs by (unfold same_page; zlia).
      assert (user_addr (k_mem s) root (va + d) = user_addr (k_mem s) r2 v2) as Ha.
      { unfold user_addr at 1. rewrite (pte_same_page _ root va (va + d) ltac:(lia) ltac:(lia) Hs).
        unfold d, user_addr in *. unfold same_page in Hs. zlia. }
      destruct (user_addr_inj (k_mem s) K root (va + d) r2 v2 Hok Hr Hr2) as [Hr' Hv']; [lia|done| |done|done|].
      * by rewrite (pte_same_page _ root va (va + d) ltac:(lia) ltac:(lia) Hs).
      * split; [done|lia].
Qed.

Lemma copyout_loop_spec free K root n : ∀ s va p len fuel,
  vm_inv kend s free K → is_root K root → 0 ≤ va → va + len < 2 ^ 47 → 0 ≤ len ≤ Z.of_nat n →
  (n < fuel)%nat → (∀ v, va ≤ v < va + len → user_ok (k_mem s) root v) →
  (∀ i c r, 0 ≤ i < len → K !! c = Some r → r_level r = 4%nat → ¬ in_page c (p + i)) →
  ∃ s', copyout_loop fuel root va p len s = Ret 0 s' ∧ vm_inv kend s' free K ∧
    (∀ r2 v2, is_root K r2 → slot (k_mem s') r2 v2 = slot (k_mem s) r2 v2 ∧
       pte_val (k_mem s') r2 v2 = pte_val (k_mem s) r2 v2) ∧
    ∀ r2 v2, is_root K r2 → 0 ≤ v2 < 2 ^ 48 → present (pte_val (k_mem s) r2 v2) →
      user_byte (k_mem s') r2 v2 =
        if decide (r2 = root ∧ va ≤ v2 < va + len)
        then k_mem s (p + (v2 - va)) else user_byte (k_mem s) r2 v2.
Proof.
  induction n as [|n IH]; intros s va p len fuel Hi Hr Hva Hvl Hlen Hf Hok Hsrc;
    (destruct fuel as [|fuel]; [lia|]); cbn [copyout_loop].
  { destruct (Z.ltb_spec 0 len); [lia|]. exists s. split; [done|]. split; [done|]. split; [done|].
    intros r2 v2 _ _ _. rewrite decide_False; [done|lia]. }
  destruct (Z.ltb_spec 0 len) as [Hpos|Hz].
  2:{ exists s. split; [done|]. split; [done|]. split; [done|].
      intros r2 v2 _ _ _. rewrite decide_False; [done|lia]. }
  rewrite rounddown_spec by lia. cbv zeta. set (va0 := 4096 * (va / 4096)).
  assert (same_page va va0) as Hsp by (unfold same_page, va0; zlia).
  assert (pte_val (k_mem s) root va0 = pte_val (k_mem s) root va) as Hpv.
  { apply pte_same_page; [lia|unfold va0; zlia|done]. }
  destruct (Hok va ltac:(lia)) as [Hpr Hus].
  destruct (pte_child kend (k_mem s) K root va (vi_pt _ _ _ _ Hi) Hr Hpr) as (Hsl & _ & Hc).
  assert (slot (k_mem s) root va0 = slot (k_mem s) root va) as Hsl0.
  { pose proof (slot_same_page (k_mem s) root va va0 3 0) as Hss. apply Hss; [lia|unfold va0; zlia|done|done]. }
  assert (uva2ka root va0 s = Ret (child (pte_val (k_mem s) root va)) s) as Hka.
  { rewrite uva2ka_spec; [|unfold va0; zlia|by rewrite Hsl0].
    rewrite decide_True; [by rewrite Hpv|]. unfold user_ok. by rewrite Hpv. }
  mstep Hka. set (c := child (pte_val (k_mem s) root va)) in *.
  assert (page_ok kend c) as Hco by (eapply pk_page; [apply Hi|done]).
  pose proof (page_pos kend c Hco). destruct (Z.eqb_spec c 0); [lia|].
  assert (va - va0 = va mod 4096) as Hoff by (unfold va0; zlia). rewrite Hoff.
  set (k := if len <? PGSIZE - va mod 4096 then len else PGSIZE - va mod 4096).
  assert (0 < k ≤ len ∧ va mod 4096 + k ≤ 4096 ∧ (k = len ∨ va + k = va0 + PGSIZE)) as (Hk & Hfit & Hkc).
  { unfold k, PGSIZE. destruct (Z.ltb_spec len (4096 - va mod 4096)); unfold va0; zlia. }
  mstep (eq_refl (movemem (c + va mod 4096) p k s)).
  change (c + va mod 4096) with (user_addr (k_mem s) root va).
  destruct (memmove_spec (k_mem s) (user_addr (k_mem s) root va) p k ltac:(lia)) as [Hin Hout].
  set (m1 := memmove (k_mem s) (user_addr (k_mem s) root va) p k) in *.
  destruct (user_write s free K root va k m1 Hi Hr Hva ltac:(lia) ltac:(lia) Hfit Hpr Hout)
    as (Hi1 & Hpte1 & Hkern & Hub).
  set (s1 := mkKst m1 (k_free s)) in *.
  assert (w64 (va0 + PGSIZE) = va0 + PGSIZE) as -> by (apply w64_small; unfold PGSIZE, va0; zlia).
  assert (∃ s', copyout_loop fuel root (va0 + PGSIZE) (p + k) (len - k) s1 = Ret 0 s' ∧ vm_inv kend s' free K ∧
    (∀ r2 v2, is_root K r2 → slot (k_mem s') r2 v2 = slot m1 r2 v2 ∧
       pte_val (k_mem s') r2 v2 = pte_val m1 r2 v2) ∧
    ∀ r2 v2, is_root K r2 → 0 ≤ v2 < 2 ^ 48 → present (pte_val m1 r2 v2) →
      user_byte (k_mem s') r2 v2 =
        if decide (r2 = root ∧ va + k ≤ v2 < va + len)
        then m1 (p + (v2 - va)) else user_byte m1 r2 v2) as (s' & Hrun & Hi' & Hpte' & Hub').
  { destruct (decide (k = len)) as [->|Hne].
    - rewrite Z.sub_diag. destruct fuel as [|fuel]; [lia|]. cbn [copyout_loop Z.ltb Z.compare].
      exists s1. split; [done|]. split; [done|]. split; [done|].
      intros r2 v2 _ _ _. rewrite decide_False; [done|lia].
    - destruct Hkc as [?|Hkc]; [lia|]. rewrite <-Hkc.
      destruct (IH s1 (va + k) (p + k) (len - k) fuel) as (s' & H1 & H2 & H3 & H4); try done; try lia.
      + intros v Hv. unfold user_ok. change (k_mem s1) with m1. destruct (Hpte1 root v Hr) as [_ ->]. apply Hok. lia.
      + intros i c' r Hi0. rewrite <-Z.add_assoc. apply Hsrc. lia.
      + exists s'. split; [done|]. split; [done|]. split; [done|].
        intros r2 v2 Hr2 Hv2 Hp2. rewrite H4 by done. replace (va + k + (len - k)) with (va + len) by lia.
        case_decide; [|done]. f_equal. lia. }
  exists s'. split; [exact Hrun|]. split; [done|]. split.
  { intros r2 v2 Hr2. destruct (Hpte' r2 v2 Hr2) as [-> ->]. by apply Hpte1. }
  intros r2 v2 Hr2 Hv2 Hp2. rewrite Hub' by (done || (destruct (Hpte1 r2 v2 Hr2) as [_ ->]; done)).
  destruct (decide (r2 = root ∧ va + k ≤ v2 < va + len)) as [[-> Hr3]|Hno].
  - rewrite decide_True by (split; [done|lia]). apply Hkern. intros c' r. apply Hsrc. lia.
  - rewrite Hub by done. destruct (decide (r2 = root ∧ va ≤ v2 < va + k)) as [[-> Hr3]|Hno2].
    + rewrite decide_True by (split; [done|lia]). apply Hin. lia.
    + rewrite decide_False; [done|]. intros [-> ?]. destruct (decide (v2 < va + k)).
      * apply Hno2. split; [done|lia].
      * apply Hno. split; [done|lia].
Qed.
End User.
