(* ===== verification/VmSpec.v ===== *)
(** What kern/vm.c promises: the theorems about user address spaces, each
    applied on a small machine at the end of the file. *)

From S2P Require Import Prelude Memory CString Kalloc Vm PageTable AddrSpace UserMem.

Section Theorems.
Context (kend : Z) (Hkend : KERNBASE < kend).
Implicit Types (m : mem) (K : gmap Z reg) (s : kst).

(** Pages of [[lo, hi)] after rounding both up, and how many. *)
Definition new_pages (oldsz newsz : Z) : Z → bool := in_range (page_up oldsz) (page_up newsz).
Definition page_count (oldsz newsz : Z) : nat := Z.to_nat ((page_up newsz - page_up oldsz) / 4096).

Lemma uvm_alloc_spec s free K root oldsz newsz fuel :
  vm_inv kend s free K → is_root K root → 0 ≤ oldsz ≤ newsz → newsz < UADDR_SZ →
  newsz + 4096 < 4096 * Z.of_nat fuel →
  (∀ va, new_pages oldsz newsz va = true → ¬ present (pte_val (k_mem s) root va)) →
  ∃ r s' free' K', uvm_alloc kend fuel root oldsz newsz s = Ret r s' ∧
    (r = newsz ∧ grown kend root (new_pages oldsz newsz) (λ _, alloc_perm) (λ _ _, 0) s free K s' free' K' ∨
     r = 0 ∧ failed kend root (new_pages oldsz newsz) s K s' free' K' ∧
       (length free < 4 * page_count oldsz newsz)%nat).
Proof.
  intros Hi Hr Ho Hn Hf Hunm. assert (UADDR_SZ = 2 ^ 28) as HU by done.
  unfold uvm_alloc. destruct (Z.leb_spec UADDR_SZ newsz); [lia|].
  destruct (Z.ltb_spec newsz oldsz); [lia|]. rewrite roundup_spec by lia.
  fold (page_up oldsz). set (lo := page_up oldsz).
  assert (oldsz ≤ lo < oldsz + 4096 ∧ lo mod 4096 = 0) as Hlo by (unfold lo, page_up; zlia).
  assert (lo ≤ page_up newsz) as Hle by (unfold lo, page_up; zlia).
  destruct (alloc_loop_spec kend Hkend root s free K oldsz newsz fuel (page_count oldsz newsz) lo s free K fuel)
    as (r & s' & free' & K' & Hrun & Hres).
  - exact Hi.
  - exact Hr.
  - lia.
  - lia.
  - exact Hf.
  - intros va Hva. apply Hunm. by apply in_range_iff.
  - apply grown_none; [exact Hi|]. intros va _. fold lo. destruct (in_range lo lo va) eqn:HR; [|done].
    apply in_range_iff in HR. lia.
  - lia.
  - lia.
  - unfold page_count. fold lo. assert (newsz ≤ page_up newsz) by (unfold page_up; zlia).
    rewrite Z2Nat.id by zlia. unfold lo, page_up in *. zlia.
  - unfold page_count. fold lo. assert (page_up newsz < newsz + 4096) by (unfold page_up; zlia).
    assert ((page_up newsz - lo) / 4096 < Z.of_nat fuel) by zlia. lia.
  - exists r, s', free', K'. split; [exact Hrun|]. exact Hres.
Qed.


(** [uvm_dealloc] unmaps the pages between the new and the old size and
    frees exactly them, when the mapped pages of the range are contiguous, and
    leaves every other mapping and user page alone. *)
Theorem uvm_dealloc_correct s free K root oldsz newsz fuel :
  vm_inv kend s free K → is_root K root → 0 ≤ newsz < oldsz → oldsz < 2 ^ 31 →
  oldsz + 4096 < 4096 * Z.of_nat fuel →
  contiguous (k_mem s) root (page_up newsz) (page_up oldsz) →
  ∃ s' free' K', uvm_dealloc kend fuel root oldsz newsz s = Ret newsz s' ∧
    vm_inv kend s' free' K' ∧ K' ⊆ K ∧
    (∀ va, 0 ≤ va < 2 ^ 48 → new_pages newsz oldsz va = true →
       ¬ present (pte_val (k_mem s') root va)) ∧
    (∀ root2 va, is_root K root2 → 0 ≤ va < 2 ^ 48 → ¬ (root2 = root ∧ new_pages newsz oldsz va = true) →
       pte_val (k_mem s') root2 va = pte_val (k_mem s) root2 va) ∧
    (∀ p r, K !! p = Some r →
       (K' !! p = None ↔ ∃ va, new_pages newsz oldsz va = true ∧ r = Reg root 4 (path 4 va))) ∧
    (∀ p r pre x, K' !! p = Some (Reg r 4 pre) → in_page p x → k_mem s' x = k_mem s x).
Proof.
  intros Hi Hr Ho Hn Hf Hcon. unfold uvm_dealloc. destruct (Z.leb_spec oldsz newsz); [lia|].
  rewrite roundup_spec by lia. fold (page_up newsz).
  destruct (dealloc_loop_spec kend Hkend root oldsz (fuel - 1) (page_up newsz) s free K fuel)
    as (s' & free' & K' & Hrun & Hs); try done.
  { unfold page_up. zlia. } { unfold page_up. zlia. } { lia. }
  { assert (newsz ≤ page_up newsz) by (unfold page_up; zlia). lia. } { lia. }
  exists s', free', K'. split; [mstep Hrun; by rewrite s32_small by lia|].
  split; [apply Hs|]. split; [apply Hs|]. split; [apply Hs|]. split; [apply Hs|]. split.
  - intros p r Hp. split; [by eapply sh_lost|]. intros (va & HR & ->).
    destruct (K' !! p) as [rg|] eqn:H'; [|done]. exfalso.
    pose proof (lookup_weaken _ _ _ _ H' (sh_sub _ _ _ _ _ _ _ _ _ Hs)) as Hw.
    rewrite Hp in Hw. injection Hw as <-.
    destruct (user_pte_present kend (k_mem s') K' root va p) as [Hpr _];
      [apply Hs|done|]. revert Hpr.
    apply (sh_in _ _ _ _ _ _ _ _ _ Hs); [|done]. apply in_range_iff in HR.
    unfold page_up in HR. zlia.
  - intros p r pre x Hp Hx. apply (sh_user _ _ _ _ _ _ _ _ _ Hs p x); [| | |done].
    + eapply page_aligned, pk_page; [apply Hs|done].
    + intros Hin. by rewrite (vi_disj _ _ _ _ (sh_inv _ _ _ _ _ _ _ _ _ Hs) p Hin) in Hp.
    + intros rg Hrg. pose proof (lookup_weaken _ _ _ _ Hp (sh_sub _ _ _ _ _ _ _ _ _ Hs)) as Hw.
      rewrite Hw in Hrg. by injection Hrg as <-.
Qed.

(** C29: [copyuvm] (fork) builds an address space whose first [sz] bytes, up to
    a page boundary, are private copies of the parent's pages, readable and
    writable by the user exactly where the parent's are, and which maps nothing
    else, while every existing address space keeps its mappings and its bytes.
    Out of memory it panics when not even the root can be had, and otherwise
    returns 0 having given back the root and no other page: at most three pages
    are then free, whatever was free before. *)
Theorem copyuvm_correct s free K root sz fuel :
  vm_inv kend s free K → is_root K root → 0 ≤ sz < 2 ^ 47 → sz + 4096 < 4096 * Z.of_nat fuel →
  (∀ va, 0 ≤ va < sz → present (pte_val (k_mem s) root va)) →
  match free with
  | [] => copyuvm kend fuel root sz s = Panic "pgdir_init: kalloc failed"
  | new :: rest => ∃ r s', copyuvm kend fuel root sz s = Ret r s' ∧ others_same s K s' ∧
      (r = new ∧ (∃ free' K', vm_inv kend s' free' K' ∧ is_root K' new ∧ K ⊆ K' ∧
         ∀ va, 0 ≤ va < 2 ^ 48 →
           let old := pte_val (k_mem s) root va in let e := pte_val (k_mem s') new va in
           if va <? page_up sz then
             present e ∧ child e ∈ rest ∧ user_byte (k_mem s') new va = user_byte (k_mem s) root va ∧
             Z.land e PTE_USER = Z.land old PTE_USER ∧ Z.land e PTE_RO = Z.land old PTE_RO
           else e = 0) ∨
       r = 0 ∧ (length rest < 4 * page_count 0 sz)%nat ∧
         ∃ left, kinv kend s' left ∧ (length left ≤ 3)%nat)
  end.
Proof.
  intros Hi Hr Hsz Hf Hpres. unfold copyuvm.
  assert (page_up 0 = 0) as Hz by done.
  destruct free as [|new rest].
  { pose proof (kalloc_spec kend s [] (vi_free _ _ _ _ Hi)) as Hk. unfold pgdir_init.
    unfold mbind, M_bind in *. by rewrite Hk. }
  destruct (new_root kend s new rest K Hi) as (s1 & Hrun1 & Hi1 & Hnew & Hno & Hoth & Hpte & Hpte0).
  pose proof (page_pos kend new Hno) as Hpos.
  destruct (copyuvm_loop_spec kend Hkend s K root new rest s1 sz Hi Hr Hi1 Hnew Hno Hoth Hpte Hpte0 Hsz Hpres
    (page_count 0 sz) 0 s1 rest (<[new := Reg new 0 0]> K) fuel) as (r & s' & Hrun & Ho & Hres).
  { apply grown_none; [exact Hi1|]. intros va _. destruct (in_range 0 0 va) eqn:E; [|done].
    apply in_range_iff in E. lia. }
  { unfold page_up. zlia. } { done. }
  { unfold page_count. rewrite Hz. unfold page_up. rewrite Z2Nat.id; zlia. }
  { unfold page_count. rewrite Hz. unfold page_up. zlia. }
  exists r, s'. split; [|split; [exact Ho|]].
  { mstep Hrun1. destruct (Z.eqb_spec new 0); [lia|]. exact Hrun. }
  destruct Hres as [[-> (f3 & K3 & Hg)]|(-> & Hlen & Hleft)]; [left|by right].
  assert (is_root (<[new := Reg new 0 0]> K) new) as Hrn by apply lookup_insert_eq.
  split; [done|]. exists f3, K3. split; [apply Hg|]. split; [by eapply grown_root|]. split.
  { etransitivity; [|apply Hg]. by apply insert_subseteq. }
  intros va Hva. set (old := pte_val (k_mem s) root va). set (e := pte_val (k_mem s') new va).
  destruct (Z.ltb_spec va (page_up sz)) as [Hlt|Hge].
  - destruct (gw_in _ _ _ _ _ _ _ _ _ _ _ Hg va Hva) as (c & Hc & Hcf & _ & Hinit).
    { apply in_range_iff. lia. }
    assert (page_ok kend c) as Hco.
    { pose proof (ki_pages _ _ _ (vi_free _ _ _ _ Hi1)) as Hfp. rewrite Forall_forall in Hfp. by apply Hfp. }
    assert (0 ≤ copy_perm s root va < 4096) as Hcp by (by apply land_small).
    destruct (leaf_of_spec kend c (copy_perm s root va) Hco Hcp) as (Hch & Hpr & _ & Hfl).
    unfold e, user_byte, user_addr. rewrite Hc, Hch. clear e. split; [done|]. split; [done|].
    split; [apply Hinit; by apply Z.mod_pos_bound|].
    split; rewrite Hfl by done; unfold copy_perm; fold old; rewrite Z.land_lor_distr_l;
      rewrite <-Z.land_assoc; apply Z.lor_0_r.
  - unfold e. rewrite (gw_out _ _ _ _ _ _ _ _ _ _ _ Hg new va Hrn Hva); [apply Hpte0|].
    intros [_ E%in_range_iff]. lia.
Qed.

End Theorems.

(** ** A small machine *)

Definition ex_kend : Z := KERNBASE + 4096.

(** [n] free pages above the kernel. *)
Fixpoint ex_pages (n : nat) : list Z :=
  match n with O => [] | S n => ex_kend + 4096 * Z.of_nat n :: ex_pages n end.
Fixpoint ex_state (n : nat) : kst :=
  match n with
  | O => mkKst (λ _, 0) 0
  | S n =>
    match kfree ex_kend (ex_kend + 4096 * Z.of_nat n) (ex_state n) with
    | Ret _ s => s
    | _ => ex_state n
    end
  end.

Lemma ex_kend_kern : KERNBASE < ex_kend.
Proof. unfold ex_kend. lia. Qed.

Lemma ex_state_inv n : (n ≤ 100)%nat → vm_inv ex_kend (ex_state n) (ex_pages n) ∅.
Proof.
  intros Hn. split; [|split; intros *; by rewrite lookup_empty|intros p _; apply lookup_empty].
  induction n as [|n IH]; [split; [done|apply NoDup_nil_2|done]|].
  specialize (IH ltac:(lia)). cbn [ex_state ex_pages].
  assert (∀ k x, x ∈ ex_pages k → x < ex_kend + 4096 * Z.of_nat k) as Hlt.
  { induction k as [|k IHk]; intros x; [by intros ?%elem_of_nil|].
    intros [->|Hx]%elem_of_cons; [lia|]. specialize (IHk x Hx). lia. }
  destruct (kfree_spec ex_kend _ _ (ex_kend + 4096 * Z.of_nat n) ltac:(unfold ex_kend, KERNBASE; lia) IH)
    as (s' & Hrun & Hi & _).
  - unfold page_ok, PGSIZE, ex_kend, KERNBASE, PHYSTOP. split; [zlia|lia].
  - intros Hx%Hlt. lia.
  - by rewrite Hrun.
Qed.

(** An empty address space and [n] free pages. *)
Lemma ex_space n : (n < 100)%nat →
  ∃ root s K, vm_inv ex_kend s (ex_pages n) K ∧ is_root K root ∧
    pgdir_init (ex_state (S n)) = Ret root s ∧ ∀ va, pte_val (k_mem s) root va = 0.
Proof.
  intros Hn. destruct (new_root ex_kend (ex_state (S n)) _ (ex_pages n) ∅ (ex_state_inv (S n) ltac:(lia)))
    as (s & H1 & H2 & _ & _ & _ & _ & H3).
  do 3 eexists. split; [exact H2|]. split; [apply lookup_insert_eq|]. by split.
Qed.

Lemma absent_0 : ¬ present 0.
Proof. unfold present. by intros []. Qed.

(** An address space with two user pages, all zero. *)
Definition ex_two (root : Z) (s : kst) : Prop :=
  ∀ va, 0 ≤ va < 8192 → user_ok (k_mem s) root va ∧ user_byte (k_mem s) root va = 0.

Lemma ex_user_rw :
  ∃ root s free K, vm_inv ex_kend s free K ∧ is_root K root ∧ ex_two root s ∧
    ∀ va, 0 ≤ va < 8192 → Z.land (pte_val (k_mem s) root va) PTE_RO = 0.
Proof.
  destruct (ex_space 20 ltac:(lia)) as (root & s0 & K0 & Hi & Hr & _ & Hp).
  assert (∀ va, new_pages 0 8192 va = true ↔ 0 ≤ va < 8192) as Hrange by (intros va; apply in_range_iff).
  destruct (uvm_alloc_spec ex_kend ex_kend_kern s0 _ K0 root 0 8192 4 Hi Hr ltac:(lia) ltac:(done) ltac:(lia))
    as (r & s & free & K & _ & [[_ Hg]|(_ & _ & Hl)]).
  { intros va _. rewrite Hp. apply absent_0. }
  2:{ exfalso. revert Hl. vm_compute. lia. }
  exists root, s, free, K. split; [apply Hg|]. split; [by eapply grown_root|].
  cut (∀ va, 0 ≤ va < 8192 → (user_ok (k_mem s) root va ∧ user_byte (k_mem s) root va = 0) ∧
         Z.land (pte_val (k_mem s) root va) PTE_RO = 0).
  { intros Hall. split; intros va Hva; by apply Hall. }
  intros va Hva.
  destruct (gw_in _ _ _ _ _ _ _ _ _ _ _ Hg va ltac:(lia) ltac:(by apply Hrange)) as (c & Hc & Hcf & _ & Hz).
  assert (page_ok ex_kend c) as Hco.
  { pose proof (ki_pages _ _ _ (vi_free _ _ _ _ Hi)) as Hfp. rewrite Forall_forall in Hfp. by apply Hfp. }
  destruct (leaf_of_spec ex_kend c alloc_perm Hco ltac:(done)) as (Hch & Hpr & _ & Hfl).
  unfold user_ok, user_byte, user_addr. rewrite Hc, Hch. split; [split; [split; [done|]|]|].
  - by rewrite Hfl by done.
  - apply Hz. apply Z.mod_pos_bound. lia.
  - by rewrite Hfl by done.
Qed.

Lemma ex_user :
  ∃ root s free K, vm_inv ex_kend s free K ∧ is_root K root ∧ ex_two root s.
Proof. destruct ex_user_rw as (root & s & free & K & H1 & H2 & H3 & _). by exists root, s, free, K. Qed.


Lemma uvm_dealloc_correct_witness :
  ∃ root s K s', is_root K root ∧ ex_two root s ∧
    uvm_dealloc ex_kend 4 root 8192 4096 s = Ret 4096 s' ∧
    ¬ present (pte_val (k_mem s') root 4096) ∧ present (pte_val (k_mem s') root 0).
Proof.
  destruct ex_user as (root & s & free & K & Hi & Hr & H2).
  destruct (uvm_dealloc_correct ex_kend ex_kend_kern s free K root 8192 4096 4 Hi Hr ltac:(lia) ltac:(lia)
    ltac:(lia)) as (s' & free' & K' & Hrun & _ & _ & Hgone & Hkept & _).
  { intros a va Ha Hva Hsl. destruct (H2 a) as [[Hpr _] _]; [change (4096 ≤ a) in Ha; change (a ≤ va < 8192) in Hva; lia|].
    destruct (pte_child ex_kend (k_mem s) K root a (vi_pt _ _ _ _ Hi) Hr Hpr) as (Hne & _).
    destruct (Hne Hsl). }
  exists root, s, K, s'. split; [exact Hr|]. split; [exact H2|]. split; [exact Hrun|]. split.
  - apply Hgone; [lia|reflexivity].
  - rewrite Hkept; [apply (H2 0); lia|exact Hr|lia|intros [_ [=]]].
Defined.

Lemma copyuvm_correct_witness :
  ∃ root s free K, is_root K root ∧ ex_two root s ∧
    match free with
    | [] => copyuvm ex_kend 4 root 8000 s = Panic "pgdir_init: kalloc failed"
    | new :: _ => ∃ r s', copyuvm ex_kend 4 root 8000 s = Ret r s' ∧ others_same s K s' ∧
        (r = new ∧ present (pte_val (k_mem s') new 5000) ∨ r = 0)
    end.
Proof.
  destruct ex_user as (root & s & free & K & Hi & Hr & H2).
  exists root, s, free, K. split; [exact Hr|]. split; [exact H2|].
  pose proof (copyuvm_correct ex_kend ex_kend_kern s free K root 8000 4 Hi Hr ltac:(lia) ltac:(lia)) as Hc.
  specialize (Hc ltac:(intros va Hva; apply (H2 va); lia)).
  destruct free as [|new rest]; [exact Hc|]. destruct Hc as (r & s' & Hrun & Ho & Hres).
  exists r, s'. split; [exact Hrun|]. split; [exact Ho|].
  destruct Hres as [(-> & free' & K' & _ & _ & _ & Hall)|(-> & _)]; [left|right; reflexivity].
  split; [reflexivity|]. apply (Hall 5000). lia.
Defined.

