(* ===== verification/NewSpace.v ===== *)
(** Building the memory of the first processes: what [pgdir_init] and
    [uvm_init] of kern/vm.c give to a new process, while everything that exists
    stays as it is, the pages that the kernel keeps for itself included. *)

From S2P Require Import Prelude Memory CString Kalloc Vm PageTable AddrSpace UserMem.

Section NewSpace.
Context (kend : Z) (Hkend : KERNBASE < kend).
Implicit Types (m : mem) (K : gmap Z reg) (s : kst) (free : list Z).

(** Free pages have been put to use, and nothing else has happened. *)
Record extends s free K s' free' K' : Prop := {
  ex_inv : vm_inv kend s' free' K';
  ex_sub : K ⊆ K';
  ex_free : ∃ used, free = used ++ free';
  ex_new p rg : K' !! p = Some rg → K !! p = None → p ∈ free;
  ex_same : user_same free K (k_mem s) (k_mem s');
  ex_pte root va : is_root K root → 0 ≤ va < 2 ^ 48 → pte_val (k_mem s') root va = pte_val (k_mem s) root va;
}.

Lemma extends_refl s free K : vm_inv kend s free K → extends s free K s free K.
Proof. intros Hi. split; try done; [by exists []|congruence]. Qed.

Lemma extends_trans s f K s1 f1 K1 s2 f2 K2 :
  extends s f K s1 f1 K1 → extends s1 f1 K1 s2 f2 K2 → extends s f K s2 f2 K2.
Proof.
  intros [_ B1 [u1 F1] N1 M1 P1] [I2 B2 [u2 F2] N2 M2 P2].
  assert (∀ p, p ∈ f1 → p ∈ f) as Hf by (intros p Hp; rewrite F1; apply elem_of_app; by right).
  split; [done|by transitivity K1|exists (u1 ++ u2); by rewrite F1, F2, app_assoc| | |].
  - intros p rg Hp Hn. destruct (K1 !! p) as [r1|] eqn:H1; [by eapply N1|]. by eapply Hf, N2.
  - intros p x Hp Hpf Hl Hx. rewrite (M2 p x Hp); [by apply (M1 p)| | |done]; [by intros ?%Hf|].
    intros r Hr. destruct (K !! p) as [r0|] eqn:H0; [|by destruct Hpf; eapply N1].
    apply Hl. pose proof (lookup_weaken _ _ _ _ H0 B1). congruence.
  - intros root va Hr Hva. rewrite P2 by (done || by eapply lookup_weaken). by apply P1.
Qed.

Lemma extends_root s f K s' f' K' root : extends s f K s' f' K' → is_root K root → is_root K' root.
Proof. intros He Hr. eapply lookup_weaken; [exact Hr|apply He]. Qed.

(** The page of an address. *)
Lemma page_of x : aligned (4096 * (x / 4096)) ∧ in_page (4096 * (x / 4096)) x.
Proof. unfold aligned, in_page, PGSIZE. split; zlia. Qed.

(** The kernel's own code and data. *)
Lemma same_below s f K m x :
  vm_inv kend s f K → user_same f K (k_mem s) m → x < kend → m x = k_mem s x.
Proof.
  intros [Hf Hok _] He Hx. destruct (page_of x) as [Ha Hp].
  assert (¬ page_ok kend (4096 * (x / 4096))) as Hno by (unfold page_ok, in_page, PGSIZE in *; lia).
  apply (He (4096 * (x / 4096))); [done| | |done].
  - intros Hin. apply Hno. pose proof (ki_pages _ _ _ Hf) as Hfp. rewrite Forall_forall in Hfp. by apply Hfp.
  - intros r Hr. destruct Hno. by eapply pk_page.
Qed.

Lemma extends_below s f K s' f' K' x :
  vm_inv kend s f K → extends s f K s' f' K' → x < kend → k_mem s' x = k_mem s x.
Proof. intros Hi Hx. eapply same_below; [done|apply Hx]. Qed.

(** ** Pages of the kernel *)

Definition owned free K (c : Z) : Prop := page_ok kend c ∧ c ∉ free ∧ K !! c = None.

Lemma extends_owned s f K s' f' K' c :
  extends s f K s' f' K' → owned f K c → owned f' K' c ∧ ∀ x, in_page c x → k_mem s' x = k_mem s x.
Proof.
  intros [_ _ [u F] N M _] (Hc & Hf & HK). split.
  - split; [done|]. split; [intros Hin; apply Hf; rewrite F; apply elem_of_app; by right|].
    destruct (K' !! c) eqn:H'; [|done]. by destruct Hf; eapply N.
  - intros x Hx. apply (M c x); [by eapply page_aligned|done|intros r Hr; congruence|done].
Qed.

(** A page is taken, and written to. *)
Lemma extends_alloc s c free K :
  vm_inv kend s (c :: free) K →
  ∃ s1, kalloc s = Ret c s1 ∧ owned free K c ∧ c ≠ 0 ∧
    ∀ m, same_outside (k_mem s1) m c PGSIZE → extends s (c :: free) K (mkKst m (k_free s1)) free K.
Proof.
  intros Hi. destruct (after_alloc kend s c free K Hi) as (s1 & H1 & Hc & Hcn & Hcf & Hafter).
  exists s1. split; [done|]. split; [done|]. split; [pose proof (page_pos kend c Hc); lia|].
  intros m Hm. destruct (Hafter m Hm) as (Hi' & Hother & Hpte). split.
  - done.
  - done.
  - by exists [c].
  - congruence.
  - intros p x Hp Hf _ Hx. apply (Hother p); [done| |done]. intros ->. apply Hf, elem_of_cons. by left.
  - intros root va Hr _. by apply Hpte.
Qed.

Lemma extends_write s0 f0 K0 s f K c m' :
  extends s0 f0 K0 s f K → c ∈ f0 → owned f K c → same_outside (k_mem s) m' c PGSIZE →
  extends s0 f0 K0 (mkKst m' (k_free s)) f K.
Proof.
  intros [[If Iok Id] B F N M P] Hin (Hc & Hcf & HK) Hm.
  destruct (page_write_ok kend (k_mem s) m' K c PGSIZE Iok Hc) as [He Hother];
    [intros r Hr; congruence|unfold PGSIZE; lia|done|].
  destruct (pt_ok_ext kend _ m' K Iok He) as [Hok Hpte]. split; [split| | | | |]; try done.
  - apply kinv_ext; [done|]. intros p x Hp Hx. apply (Hother p); [|by intros ->|done].
    pose proof (ki_pages _ _ _ If) as Hfp. rewrite Forall_forall in Hfp. by eapply page_aligned, Hfp.
  - intros p x Hp Hf Hl Hx. cbn. rewrite (Hother p) by (done || by intros ->). by apply (M p).
  - intros root va Hr Hva. cbn. destruct (Hpte root va) as [_ ->]; [by eapply lookup_weaken|]. by apply P.
Qed.

(** ** A process with one page *)

(** The address space [root] is one page, which the user may write, with the
    contents [code]. *)
Definition has_program m root (code : Z → Z) : Prop :=
  ∀ va, 0 ≤ va < 2 ^ 48 →
    if va <? PGSIZE then
      user_ok m root va ∧ Z.land (pte_val m root va) PTE_RO = 0 ∧ user_byte m root va = code va
    else pte_val m root va = 0.

Lemma program_ext m m' K root code :
  pt_ok kend m K → is_root K root → (∀ va, 0 ≤ va < 2 ^ 48 → pte_val m' root va = pte_val m root va) →
  (∀ p x r, K !! p = Some r → r_level r = 4%nat → in_page p x → m' x = m x) →
  has_program m root code → has_program m' root code.
Proof.
  intros Hok Hr E Hm Hp va Hva. specialize (Hp va Hva). unfold user_ok, user_byte, user_addr in *. rewrite E by done.
  destruct (va <? PGSIZE); [|done]. destruct Hp as (Hu & Hro & <-). split; [done|]. split; [done|].
  destruct (pte_child kend _ _ _ _ Hok Hr (proj1 Hu)) as (_ & _ & Hc). eapply (Hm _ _ _ Hc); [done|].
  unfold in_page, PGSIZE. pose proof (Z.mod_pos_bound va 4096). lia.
Qed.

Lemma extends_program s f K s' f' K' root code :
  vm_inv kend s f K → extends s f K s' f' K' → is_root K root →
  has_program (k_mem s) root code → has_program (k_mem s') root code.
Proof.
  intros [Hf Hok Hd] He Hr. apply (program_ext _ _ K); [done|done|intros va; by apply (ex_pte _ _ _ _ _ _ He)|].
  intros p x r Hp Hl Hx. apply (ex_same _ _ _ _ _ _ He p); [by eapply page_aligned, pk_page| | |done].
  - intros Hin. by rewrite Hd in Hp.
  - intros r' Hr'. congruence.
Qed.

Lemma write_program s f K c m' root code :
  vm_inv kend s f K → owned f K c → same_outside (k_mem s) m' c PGSIZE → is_root K root →
  has_program (k_mem s) root code → has_program m' root code.
Proof.
  intros [Hf Hok Hd] (Hc & Hcf & HK) Hm Hr.
  destruct (page_write_ok kend (k_mem s) m' K c PGSIZE Hok Hc) as [He Hother];
    [intros r' Hr'; congruence|unfold PGSIZE; lia|done|].
  apply (program_ext _ _ K); [done|done|intros va _; by apply (pt_ok_ext kend _ m' K Hok He)|].
  intros p x r Hp Hl Hx. apply (Hother p); [by eapply page_aligned, pk_page|congruence|done].
Qed.

Definition init_perm : Z := Z.lor (Z.lor PTE_USER PTE_RW) PTE_PAGE.

(** [map_region] of [uvm_init], with the page [c] already filled. *)
Lemma map_program s c free K root :
  vm_inv kend s free K → is_root K root → owned free K c → (3 ≤ length free)%nat →
  pte_val (k_mem s) root 0 = 0 →
  ∃ s' free' K', map_region 1 root 0 PGSIZE (V2P c) init_perm s = Ret 0 s' ∧
    vm_inv kend s' free' K' ∧ K ⊆ K' ∧ K' !! c = Some (Reg root 4 0) ∧ (∃ used, free = used ++ free') ∧
    (length free ≤ length free' + 3)%nat ∧
    (∀ p rg, K' !! p = Some rg → K !! p = None → p = c ∨ p ∈ free) ∧
    user_same free K (k_mem s) (k_mem s') ∧
    ∀ root2 va, is_root K root2 → 0 ≤ va < 2 ^ 48 →
      pte_val (k_mem s') root2 va =
        if decide (root2 = root ∧ va < PGSIZE) then leaf_of c init_perm else pte_val (k_mem s) root2 va.
Proof.
  intros Hi Hr (Hc & Hcf & HK) Hlen Hz.
  destruct (map_page kend s free K root 0 c init_perm Hi Hr) as (s1 & f1 & K1 & Hg & HK1 & Hl1 & Hres); try done.
  { intros Hb. apply Hb. by rewrite Hz. }
  destruct Hres as [[_ ?]|(s' & Hrun & [I' M' P'])]; [lia|].
  exists s', f1, (<[c:=Reg root 4 0]> K1). split; [done|]. split; [exact I'|].
  split; [transitivity K1; [apply Hg|by apply insert_subseteq]|]. split; [apply lookup_insert_eq|].
  split; [apply Hg|]. split; [done|]. split; [|split].
  - intros p rg [[<- _]|[_ Hp]]%lookup_insert_Some Hn; [by left|right]. by eapply gr_new.
  - intros p x Hp Hpf Hl Hx. rewrite (M' p x Hp); [by apply (gr_user _ _ _ _ _ _ _ Hg p)|set_solver| |done].
    intros r H1. destruct (K !! p) as [r0|] eqn:H0; [|by destruct Hpf; eapply gr_new].
    apply Hl. pose proof (lookup_weaken _ _ _ _ H0 (gr_sub _ _ _ _ _ _ _ Hg)). congruence.
  - intros root2 va Hr2 Hva. rewrite P' by (done || by eapply lookup_weaken; [|apply Hg]).
    assert (same_page 0 va ↔ va < PGSIZE) as Hs by (unfold same_page, PGSIZE; zlia).
    etransitivity; [apply (decide_ext _ (root2 = root ∧ va < PGSIZE)); by rewrite Hs|].
    case_decide; [done|].
    by apply (gr_maps _ _ _ _ _ _ _ Hg 0%nat root2 root2 va 3%nat).
Qed.

Lemma not_elem_of_cons_2 (p x y : Z) l : p ∉ x :: y :: l ↔ p ≠ x ∧ p ≠ y ∧ p ∉ l.
Proof. by rewrite !not_elem_of_cons. Qed.

(** The byte [va] of the program at [binary]. *)
Definition code_of m (binary sz va : Z) : Z := if va <? sz then m (binary + va) else 0.

Lemma init_leaf c : page_ok kend c →
  child (leaf_of c init_perm) = c ∧ present (leaf_of c init_perm) ∧
  Z.land (leaf_of c init_perm) PTE_USER ≠ 0 ∧ Z.land (leaf_of c init_perm) PTE_RO = 0.
Proof.
  intros Hc. destruct (leaf_of_spec kend c init_perm Hc ltac:(done)) as (H1 & H2 & _ & H4).
  by rewrite !H4.
Qed.

Lemma new_program s r c free K binary sz :
  vm_inv kend s (r :: c :: free) K → (3 ≤ length free)%nat → 0 ≤ sz ≤ 4096 → binary + sz ≤ kend →
  ∃ s1 s2 free' K', pgdir_init s = Ret r s1 ∧ uvm_init 1 r binary sz s1 = Ret () s2 ∧ r ≠ 0 ∧
    extends s (r :: c :: free) K s2 free' K' ∧ is_root K' r ∧
    has_program (k_mem s2) r (code_of (k_mem s) binary sz) ∧ (length free ≤ length free' + 3)%nat.
Proof.
  intros Hi Hlen Hsz Hbin.
  destruct (new_root kend s r (c :: free) K Hi) as (s1 & E1 & Hi1 & HKr & Hro & M1 & P1 & Z1).
  set (K1 := <[r:=_]> K) in *. assert (K ⊆ K1) as S1 by by apply insert_subseteq.
  assert (∀ p, p ≠ r → K1 !! p = K !! p) as Kne by (intros p Hp; by apply lookup_insert_ne).
  assert (is_root K1 r) as R1 by apply lookup_insert_eq.
  destruct (extends_alloc s1 c free K1 Hi1) as (s2 & E2 & Ho & Hc0 & X2).
  pose proof (memset_spec (k_mem s2) c 0 PGSIZE ltac:(unfold PGSIZE; lia)) as [Z2 O2].
  remember (memset (k_mem s2) c 0 PGSIZE) as m2 eqn:Em2. specialize (X2 m2 O2).
  assert (∀ va, 0 ≤ va < 2 ^ 48 → pte_val m2 r va = 0) as P2.
  { intros va Hva. etransitivity; [by apply (ex_pte _ _ _ _ _ _ X2)|]. apply Z1. }
  destruct (map_program (mkKst m2 (k_free s2)) c free K1 r (ex_inv _ _ _ _ _ _ X2) R1 Ho Hlen (P2 0 ltac:(lia)))
    as (s3 & f3 & K3 & E3 & Hi3 & S3 & Hc3 & [u3 F3] & L3 & N3 & M3 & P3).
  destruct (memmove_spec (k_mem s3) c binary sz ltac:(lia)) as [I4 O4].
  remember (memmove (k_mem s3) c binary sz) as m4 eqn:Em4.
  destruct Ho as (Hco & Hcf & HKc). assert (c ≠ r) as Hcr by (intros ->; unfold is_root in R1; congruence).
  destruct Hi3 as [If3 Iok3 Id3].
  destruct (page_write_ok kend (k_mem s3) m4 K3 c sz Iok3 Hco) as [He4 M4];
    [intros r' Hr'; rewrite Hc3 in Hr'; by injection Hr' as <-|unfold PGSIZE; lia|done|].
  destruct (pt_ok_ext kend _ m4 K3 Iok3 He4) as [Hok4 P4].
  assert (user_same (r :: c :: free) K (k_mem s) (k_mem s3)) as M03.
  { intros p x Hp (Hpr & Hpc & Hpf)%not_elem_of_cons_2 Hl Hx. rewrite <-(Kne p Hpr) in Hl.
    rewrite (M3 p x Hp Hpf Hl Hx).
    rewrite <-(M1 p x Hp Hpr Hx). 
    assert (p ∉ c :: free) as Hq by (apply not_elem_of_cons; split; assumption).
    exact (ex_same _ _ _ _ _ _ X2 p x Hp Hq Hl Hx). }
  exists s1, (mkKst m4 (k_free s3)), f3, K3.
  split; [exact E1|]. split; [|split; [pose proof (page_pos kend r Hro) as Hr0; clear -Hr0; lia|split; [split|split; [|split; [|exact L3]]]]].
  - unfold uvm_init. destruct (Z.ltb_spec PGSIZE sz); [unfold PGSIZE in *; lia|]. mstep E2.
    assert (setmem c 0 PGSIZE s2 = Ret () (mkKst m2 (k_free s2))) as E2' by (by rewrite Em2).
    mstep E2'. mstep E3. by rewrite Em4.
  - split; [|done|done]. apply kinv_ext; [done|]. intros p x Hp Hx.
    pose proof (ki_pages _ _ _ If3) as Hfp. rewrite Forall_forall in Hfp.
    apply (M4 p); [by eapply page_aligned, Hfp| |done]. intros ->. by rewrite (Id3 c Hp) in Hc3.
  - by transitivity K1.
  - exists (r :: c :: u3). by rewrite F3.
  - intros p rg Hp Hn. rewrite !elem_of_cons. destruct (decide (p = r)) as [->|Hpr]; [by left|].
    destruct (N3 p rg Hp) as [->|?]; [by rewrite Kne|by right; left|by right; right].
  - intros p x Hp Hf Hl Hx. cbn. pose proof Hf as (_ & Hpc & _)%not_elem_of_cons_2. rewrite (M4 p) by done. by apply (M03 p).
  - intros root va Hr Hva. cbn. assert (is_root K1 root) as Hr1 by (by eapply lookup_weaken).
    destruct (P4 root va) as [_ ->]; [by eapply lookup_weaken|]. rewrite P3 by done.
    rewrite decide_False by (intros [-> _]; unfold is_root in Hr; congruence).
    etransitivity; [by apply (ex_pte _ _ _ _ _ _ X2)|]. by apply P1.
  - by eapply lookup_weaken.
  - intros va Hva. cbn. unfold user_ok, user_byte, user_addr.
    destruct (P4 r va) as [_ ->]; [by eapply lookup_weaken|]. rewrite P3 by done.
    destruct (Z.ltb_spec va PGSIZE) as [Hlt|Hge]; [|rewrite decide_False by lia; by apply P2].
    rewrite decide_True by (split; [reflexivity|exact Hlt]). clear Em2 Em4 E2 E3. destruct (init_leaf c Hco) as (-> & Hpr & Hu & Hr). split; [done|]. split; [done|].
    unfold PGSIZE in Hlt. rewrite Z.mod_small by lia. unfold code_of. destruct (Z.ltb_spec va sz).
    + rewrite I4 by lia. apply (same_below s (r :: c :: free) K); [done|done|lia].
    + rewrite O4 by lia. rewrite (M3 c (c + va)); [|by eapply page_aligned|done|intros r' Hr'; congruence|].
      * cbn. rewrite Z2 by (unfold PGSIZE; lia). done.
      * unfold in_page, PGSIZE. lia.
Qed.
End NewSpace.
