(* ===== verification/Txn.v ===== *)
(** What the log and the buffer cache together promise to the file system.

    Inside a transaction (between [begin_op] and [end_op] of kern/log.c) the
    file system reads blocks with [bread], changes the data of a buffer it
    holds and passes it to [log_write], and gives buffers back with [brelse].
    [Txn] states what these do in terms of a [tx]: the contents of every block
    as the transaction sees them, the blocks logged so far and the buffers it
    holds.  File Fs is verified against these laws; Section Instance proves
    them of the log of file Log on any buffer cache. *)

From S2P Require Import Prelude BufferCache Superblock Log LogCrash LogOps LogSpec.

Record tx := Tx {
  t_home : Z → Prop;       (** blocks outside the log *)
  t_cap : Z;               (** how many blocks the log can take *)
  t_view : Z → block;
  t_log : list Z;
  t_held : gmap Z Z;       (** held block ↦ buffer *)
}.

Definition tx_hold (t : tx) (b i : Z) : tx :=
  Tx (t_home t) (t_cap t) (t_view t) (t_log t) (<[b := i]> (t_held t)).
Definition tx_put (t : tx) (b : Z) (d : block) : tx :=
  Tx (t_home t) (t_cap t) (upd (t_view t) b d) (logged (t_log t) b) (t_held t).
Definition tx_drop (t : tx) (b : Z) : tx :=
  Tx (t_home t) (t_cap t) (t_view t) (t_log t) (delete b (t_held t)).

(** There is a buffer for [n] more blocks, whatever they are. *)
Definition tx_room (t : tx) (n : nat) : Prop :=
  Z.of_nat (length (t_log t) + size (t_held t) + n) ≤ NBUF.

Class TxnOps (S : Type) := {
  t_bread : Z → Z → M S Z;
  t_data : Z → M S block;
  t_set_data : Z → block → M S ();
  t_log_write : Z → M S ();
  t_brelse : Z → M S ();
}.

Class OpOps (S : Type) := {
  t_begin_op : M S ();
  t_end_op : M S ();
}.

Class Txn (S : Type) `{!TxnOps S} := {
  tx_rel : S → tx → Prop;
  tx_view_ok s t b : tx_rel s t → t_home t b → block_ok (t_view t b);
  tx_bread s t b :
    tx_rel s t → t_home t b → t_held t !! b = None → tx_room t 1 →
    ∃ i s', t_bread ROOTDEV b s = Ret i s' ∧ tx_rel s' (tx_hold t b i);
  tx_data s t b i :
    tx_rel s t → t_held t !! b = Some i → t_data i s = Ret (t_view t b) s;
  tx_write s t b i d :
    tx_rel s t → t_held t !! b = Some i → block_ok d →
    Z.of_nat (length (t_log t)) < t_cap t →
    ∃ s', (t_set_data i d ;; t_log_write i) s = Ret () s' ∧ tx_rel s' (tx_put t b d);
  tx_brelse s t b i :
    tx_rel s t → t_held t !! b = Some i →
    ∃ s', t_brelse i s = Ret () s' ∧ tx_rel s' (tx_drop t b);
}.

(** Blocks are also read while no operation is running: a [tx] whose capacity
    is not positive cannot log. *)
Definition tx_read_only (t : tx) : tx := Tx (t_home t) (- t_cap t) (t_view t) [] ∅.

(** The ends of a transaction.  [op_idle s t]: no operation is running, and the
    view of [t] is on disk. *)
Class TxnOp (S : Type) `{!TxnOps S, !Txn S, !OpOps S} := {
  op_idle : S → tx → Prop;
  op_begin s t :
    op_idle s t → 0 < t_cap t → t_log t = [] ∧ t_held t = ∅ ∧ ∃ s', t_begin_op s = Ret () s' ∧ tx_rel s' t;
  op_end s t :
    tx_rel s t → t_held t = ∅ → tx_room t 1 → 0 < t_cap t →
    ∃ s', t_end_op s = Ret () s' ∧ op_idle s' (Tx (t_home t) (t_cap t) (t_view t) [] ∅);
  op_read s t : op_idle s t → 0 < t_cap t → tx_rel s (tx_read_only t);
  op_read_end s t : tx_rel s (tx_read_only t) → 0 < t_cap t → t_log t = [] → t_held t = ∅ → op_idle s t;
}.

(** ** Single accesses *)

Section Derived.
Context {S : Type} `{Txn S}.
Implicit Types (s : S) (t : tx).

Lemma tx_drop_hold t b i : t_held t !! b = None → tx_drop (tx_hold t b i) b = t.
Proof. intros Hb. unfold tx_drop, tx_hold. cbn. rewrite delete_insert_id by done. by destruct t. Qed.

Lemma tx_drop_put t b i d :
  t_held t !! b = None → tx_drop (tx_put (tx_hold t b i) b d) b = tx_put t b d.
Proof. intros Hb. unfold tx_drop, tx_put, tx_hold. cbn. by rewrite delete_insert_id. Qed.

(** Reading a block. *)
Lemma tx_read_block s t b {A} (k : block → M S A) :
  tx_rel s t → t_home t b → t_held t !! b = None → tx_room t 1 →
  ∃ i s1 s2, t_bread ROOTDEV b s = Ret i s1 ∧ t_data i s1 = Ret (t_view t b) s1 ∧
    t_brelse i s1 = Ret () s2 ∧ tx_rel s2 t.
Proof.
  intros Hr Hh Hn Hc. destruct (tx_bread s t b Hr Hh Hn Hc) as (i & s1 & H1 & Hr1).
  assert (t_held (tx_hold t b i) !! b = Some i) as Hi by apply lookup_insert_eq.
  destruct (tx_brelse s1 _ b i Hr1 Hi) as (s2 & H2 & Hr2). rewrite tx_drop_hold in Hr2 by done.
  exists i, s1, s2. split; [done|]. split; [exact (tx_data s1 _ b i Hr1 Hi)|]. by split.
Qed.

(** Changing a block and logging it. *)
Lemma tx_update_block s t b :
  tx_rel s t → t_home t b → t_held t !! b = None → tx_room t 1 →
  Z.of_nat (length (t_log t)) < t_cap t →
  ∃ i s1, t_bread ROOTDEV b s = Ret i s1 ∧ t_data i s1 = Ret (t_view t b) s1 ∧
    ∀ d, block_ok d → ∃ s2 s3, (t_set_data i d ;; t_log_write i) s1 = Ret () s2 ∧
      t_brelse i s2 = Ret () s3 ∧ tx_rel s3 (tx_put t b d).
Proof.
  intros Hr Hh Hn Hc Hl. destruct (tx_bread s t b Hr Hh Hn Hc) as (i & s1 & H1 & Hr1).
  assert (t_held (tx_hold t b i) !! b = Some i) as Hi by apply lookup_insert_eq.
  exists i, s1. split; [done|]. split; [exact (tx_data s1 _ b i Hr1 Hi)|]. intros d Hd.
  destruct (tx_write s1 _ b i d Hr1 Hi Hd Hl) as (s2 & H2 & Hr2).
  destruct (tx_brelse s2 _ b i Hr2 Hi) as (s3 & H3 & Hr3). rewrite tx_drop_put in Hr3 by done.
  by exists s2, s3.
Qed.
End Derived.

Lemma logged_length bs b : (length (logged bs b) ≤ S (length bs))%nat.
Proof. unfold logged. case_decide; [lia|]. rewrite length_app. cbn. lia. Qed.

Lemma logged_elem bs b c : c ∈ logged bs b ↔ c ∈ bs ∨ c = b.
Proof. unfold logged. case_decide; set_solver. Qed.

Lemma logged_in bs b : b ∈ bs → logged bs b = bs.
Proof. intros Hb. unfold logged. by rewrite decide_True. Qed.

(** ** The log as a transaction layer *)

Section Instance.
Context {B : Type} `{BufferCache B}.
Implicit Types (s : lst B) (t : tx) (a : abs).

#[export] Instance log_txn_ops : TxnOps (lst B) := {
  t_bread dev b := lift (bread dev b);
  t_data i := lift (buf_data i);
  t_set_data i d := lift (buf_set_data i d);
  t_log_write := log_write;
  t_brelse i := lift (brelse i);
}.

#[export] Instance log_op_ops : OpOps (lst B) := {
  t_begin_op := begin_op;
  t_end_op := end_op;
}.

(** This operation is the only one, and nothing is committed: the superblock
    says where the log is, and the header on disk lists no block. *)
Record op_only (lg : log) (d : Z → block) (out : Z) : Prop := {
  oo_out : lg_outstanding lg = out;
  oo_com : lg_committing lg = 0;
  oo_geom : geom d (lg_start lg) (lg_size lg);
  oo_hdr : get32 (d (lg_start lg)) 0 = 0;
}.

Lemma op_only_lh lg d out n bl : op_only lg d out → op_only (set_lh lg n bl) d out.
Proof. by intros []. Qed.

(** The entries of the cache are the blocks logged and the blocks held.  The
    superblock is not for a transaction to change.  No operation is running
    when the capacity is not positive. *)
Record log_tx (s : lst B) (t : tx) (a : abs) : Prop := {
  lt_inv : log_inv s a (t_log t);
  lt_only : op_only (ls_log s) (a_disk a) (if 0 <? t_cap t then 1 else 0);
  lt_home b : t_home t b ↔ home (ls_log s) b ∧ b ≠ 1;
  lt_log b : b ∈ t_log t → t_home t b;
  lt_cap : Z.abs (t_cap t) = Z.min LOGSIZE (lg_size (ls_log s) - 1);
  lt_view b : t_home t b → t_view t b = view a b;
  lt_ent b e : a_ent a !! b = Some e →
    e_held e = t_held t !! b ∧ (e_dirty e = false → e_data e = a_disk a b ∧ is_Some (t_held t !! b));
  lt_held b i : t_held t !! b = Some i → t_home t b ∧ is_Some (a_ent a !! b);
}.

Lemma log_tx_held s t a b i :
  log_tx s t a → t_held t !! b = Some i →
  (home (ls_log s) b ∧ b ≠ 1) ∧ ∃ e, a_ent a !! b = Some e ∧ e_held e = Some i ∧ e_data e = t_view t b.
Proof.
  intros Hl Hi. destruct (lt_held _ _ _ Hl b i Hi) as [Hh [e He]].
  split; [by apply (lt_home _ _ _ Hl)|]. exists e. split; [done|].
  destruct (lt_ent _ _ _ Hl b e He) as [-> _]. split; [done|].
  rewrite (lt_view _ _ _ Hl b Hh). unfold view. by rewrite He.
Qed.

(** Fewer entries than buffers. *)
Lemma log_tx_size s t a : log_tx s t a → (size (a_ent a) ≤ length (t_log t) + size (t_held t))%nat.
Proof.
  intros Hl. rewrite <-!size_dom.
  assert (dom (a_ent a) ⊆ list_to_set (t_log t) ∪ dom (t_held t)) as Hsub.
  { intros b [e He]%elem_of_dom. apply elem_of_union.
    destruct (e_dirty e) eqn:Hd.
    - left. apply elem_of_list_to_set, (li_dirty _ _ _ (lt_inv _ _ _ Hl)). eauto.
    - right. apply elem_of_dom. by apply (lt_ent _ _ _ Hl b e He). }
  apply subseteq_size in Hsub. etrans; [exact Hsub|]. rewrite size_union_alt.
  assert (size (list_to_set (C := gset Z) (t_log t)) ≤ length (t_log t))%nat.
  { rewrite size_list_to_set; [done|apply Hl]. }
  assert (size (dom (t_held t) ∖ list_to_set (t_log t)) ≤ size (dom (t_held t)))%nat
    by (apply subseteq_size; set_solver).
  lia.
Qed.

(** A change of one entry. *)
Lemma log_tx_set s t a b i e s' t' :
  log_tx s t a → home (ls_log s) b ∧ b ≠ 1 →
  log_inv s' (a_set a b e) (t_log t') → (∃ n bl, ls_log s' = set_lh (ls_log s) n bl) →
  (∀ c, c ∈ t_log t' → c ∈ t_log t ∨ c = b) →
  t_home t' = t_home t → t_cap t' = t_cap t → t_held t' = <[b := i]> (t_held t) →
  (∀ c, t_view t' c = upd (t_view t) b (e_data e) c) →
  e_held e = Some i → (e_dirty e = false → e_data e = a_disk a b) →
  log_tx s' t' (a_set a b e).
Proof.
  intros Hl Hb Hi (n & bl & Hlg) Hlog Hh Hc Hheld Hv He Hd. split; [done| | | | | | |].
  - rewrite Hlg, Hc. apply op_only_lh, Hl.
  - intros c. rewrite Hh, Hlg. apply Hl.
  - intros c [Hin| ->]%Hlog; rewrite Hh; [by apply (lt_log _ _ _ Hl)|by apply (lt_home _ _ _ Hl)].
  - by rewrite Hc, Hlg; apply Hl.
  - intros c Hhc. rewrite Hv, upd_case. unfold view, a_set. cbn. case_decide as Hbc.
    + subst. by rewrite lookup_insert_eq.
    + rewrite lookup_insert_ne by done. apply (lt_view _ _ _ Hl). by rewrite <-Hh.
  - intros c e' He'. rewrite Hheld. cbn in He'. destruct (decide (c = b)) as [->|Hne].
    + rewrite lookup_insert_eq in He'. injection He' as <-. rewrite lookup_insert_eq. split; [done|].
      intros Hd'. split; [by apply Hd|by eexists].
    + rewrite lookup_insert_ne in He' by done. rewrite lookup_insert_ne by done.
      by apply (lt_ent _ _ _ Hl).
  - intros c j. rewrite Hheld, Hh. cbn. destruct (decide (c = b)) as [->|Hne].
    + rewrite !lookup_insert_eq. intros _. split; [by apply (lt_home _ _ _ Hl)|by eexists].
    + rewrite !lookup_insert_ne by done. apply Hl.
Qed.

(** The cache changes the entry of a block outside the log; the log does not change. *)
Lemma log_inv_set s a bs b e b' :
  log_inv s a bs → home (ls_log s) b → bc_rel b' (a_set a b e) →
  e_dirty e = match a_ent a !! b with Some e0 => e_dirty e0 | None => false end →
  log_inv (mkLst (ls_log s) b') (a_set a b e) bs.
Proof.
  intros [] Hb Hr He. split; try done.
  - intros c Hc. cbn. destruct (decide (c = b)) as [->|]; [by destruct Hb|].
    rewrite lookup_insert_ne by done. by apply li_free.
  - intros c. rewrite li_dirty. cbn. destruct (decide (c = b)) as [->|].
    + rewrite lookup_insert_eq. split.
      * intros (e0 & H0 & Hd). rewrite H0 in He. exists e. split; [done|congruence].
      * intros (? & [= <-] & Hd). rewrite Hd in He. destruct (a_ent a !! b); [eauto|done].
    + by rewrite lookup_insert_ne.
Qed.

Lemma log_inv_del s a bs b b' :
  log_inv s a bs → bc_rel b' (a_del a b) →
  (∀ e, a_ent a !! b = Some e → e_dirty e = false) →
  log_inv (mkLst (ls_log s) b') (a_del a b) bs.
Proof.
  intros [] Hr He. split; try done.
  - intros c Hc. cbn. destruct (decide (c = b)) as [->|]; [by rewrite lookup_delete_eq|].
    rewrite lookup_delete_ne by done. by apply li_free.
  - intros c. rewrite li_dirty. cbn. destruct (decide (c = b)) as [->|].
    + rewrite lookup_delete_eq. split; [|by intros (? & ? & _)].
      intros (e0 & H0 & Hd). rewrite (He _ H0) in Hd. done.
    + by rewrite lookup_delete_ne.
Qed.

Definition log_tx_rel (s : lst B) (t : tx) : Prop := ∃ a, log_tx s t a.

Lemma log_tx_bread s t b :
  log_tx_rel s t → t_home t b → t_held t !! b = None → tx_room t 1 →
  ∃ i s', t_bread ROOTDEV b s = Ret i s' ∧ log_tx_rel s' (tx_hold t b i).
Proof.
  intros [a Hl] Hh Hn Hc. pose proof (log_tx_size s t a Hl). unfold tx_room in Hc.
  assert (home (ls_log s) b ∧ b ≠ 1) as Hb by by apply (lt_home _ _ _ Hl).
  destruct (bread_law (ls_buf s) a b) as (i & b' & Hr & Hrel).
  - apply Hl.
  - apply (proj1 Hb).
  - right. lia.
  - intros e He. destruct (lt_ent _ _ _ Hl b e He) as [-> _]. done.
  - exists i, (mkLst (ls_log s) b'). split; [exact (lift_buf _ _ _ _ Hr)|].
    exists (a_bread a b i).
    apply (log_tx_set s t a b i _ (mkLst (ls_log s) b') (tx_hold t b i)); try done.
    + apply log_inv_set; [apply Hl|apply Hb|done|done].
    + exists (lg_n (ls_log s)), (lg_block (ls_log s)). by destruct (ls_log s).
    + by left.
    + intros c. cbn. rewrite upd_case. case_decide; [subst|done].
      by rewrite (lt_view _ _ _ Hl b Hh).
    + cbn. unfold view. destruct (a_ent a !! b) as [e|] eqn:He; [|done].
      intros Hd. by destruct (lt_ent _ _ _ Hl b e He) as [_ [? _]].
Qed.

Lemma log_tx_data s t b i :
  log_tx_rel s t → t_held t !! b = Some i → t_data i s = Ret (t_view t b) s.
Proof.
  intros [a Hl] Hi. destruct (log_tx_held s t a b i Hl Hi) as (_ & e & He & Hh & <-).
  assert (buf_data i (ls_buf s) = Ret (e_data e) (ls_buf s)) as Hd
    by (eapply buf_data_law; [apply Hl|done|done]).
  cbn. rewrite (lift_buf _ s _ _ Hd). by destruct s.
Qed.

Lemma log_tx_write s t b i d :
  log_tx_rel s t → t_held t !! b = Some i → block_ok d →
  Z.of_nat (length (t_log t)) < t_cap t →
  ∃ s', (t_set_data i d ;; t_log_write i) s = Ret () s' ∧ log_tx_rel s' (tx_put t b d).
Proof.
  intros [a Hl] Hi Hd Hc. destruct (log_tx_held s t a b i Hl Hi) as (Hb & e & He & Hh & Hv).
  pose proof (lt_cap _ _ _ Hl) as Hcp.
  destruct (buf_set_data_law (ls_buf s) a b e i d) as (b1 & H1 & Hrel1); [apply Hl|done|done|done|].
  rewrite Hh in Hrel1. set (a1 := a_set a b (Ent d (e_dirty e) (Some i))) in *.
  assert (log_inv (mkLst (ls_log s) b1) a1 (t_log t)) as Hi1.
  { apply log_inv_set; [apply Hl|apply Hb|done|]. by rewrite He. }
  destruct (log_write_ok _ a1 (t_log t) b (Ent d (e_dirty e) (Some i)) i Hi1 (proj1 Hb)) as (s2 & H2 & Hi2);
    [apply lookup_insert_eq|done|cbn; lia|cbn; lia|].
  cbn [e_data] in Hi2. exists s2. split.
  { mstep (lift_buf _ s _ _ H1). exact H2. }
  assert (∃ n bl, ls_log s2 = set_lh (ls_log s) n bl) as (n & bl & Hlg).
  { apply log_write_log in H2. destruct H2 as (n & bl & ->). by exists n, bl. }
  assert (a_set a1 b (Ent d true (Some i)) = a_set a b (Ent d true (Some i))) as Heq.
  { unfold a_set, a1. cbn. by rewrite insert_insert_eq. }
  rewrite Heq in Hi2. exists (a_set a b (Ent d true (Some i))).
  apply (log_tx_set s t a b i _ s2 (tx_put t b d)); try done; [by exists n, bl| |].
  - intros c. apply logged_elem.
  - cbn. by rewrite insert_id.
Qed.

Lemma log_tx_brelse s t b i :
  log_tx_rel s t → t_held t !! b = Some i →
  ∃ s', t_brelse i s = Ret () s' ∧ log_tx_rel s' (tx_drop t b).
Proof.
  intros [a Hl] Hi. destruct (log_tx_held s t a b i Hl Hi) as (Hb & e & He & Hh & Hv).
  destruct (lt_ent _ _ _ Hl b e He) as [_ Hclean].
  destruct (brelse_law (ls_buf s) a b e i) as (b1 & H1 & Hrel1);
    [apply Hl|done|done|by intros Hd; apply Hclean|].
  exists (mkLst (ls_log s) b1). split; [exact (lift_buf _ s _ _ H1)|].
  assert (log_inv (mkLst (ls_log s) b1) (a_brelse a b e) (t_log t)) as Hinv.
  { unfold a_brelse in *. destruct (e_dirty e) eqn:Hde.
    - apply log_inv_set; [apply Hl|apply Hb|done|]. by rewrite He.
    - apply log_inv_del; [apply Hl|done|]. congruence. }
  exists (a_brelse a b e).
  assert (∀ c e', a_ent (a_brelse a b e) !! c = Some e' →
    c = b ∧ e' = Ent (e_data e) true None ∨ c ≠ b ∧ a_ent a !! c = Some e') as Hcase.
  { intros c e'. unfold a_brelse. destruct (e_dirty e); cbn; destruct (decide (c = b)) as [->|].
    - rewrite lookup_insert_eq. intros [= <-]. by left.
    - rewrite lookup_insert_ne by done. by right.
    - by rewrite lookup_delete_eq.
    - rewrite lookup_delete_ne by done. by right. }
  assert (a_disk (a_brelse a b e) = a_disk a) as Hdisk by (unfold a_brelse; by destruct (e_dirty e)).
  split; [exact Hinv|rewrite Hdisk; by apply Hl|by apply Hl|by apply Hl|by apply Hl| | |].
  - intros c Hc. cbn. rewrite (lt_view _ _ _ Hl c Hc). unfold view, a_brelse.
    destruct (e_dirty e) eqn:Hde; cbn; destruct (decide (c = b)) as [->|Hne].
    + by rewrite lookup_insert_eq, He.
    + by rewrite lookup_insert_ne.
    + rewrite lookup_delete_eq, He. by apply Hclean.
    + by rewrite lookup_delete_ne.
  - intros c e' [[-> ->]|[Hne He']]%Hcase; cbn.
    + by rewrite lookup_delete_eq.
    + rewrite lookup_delete_ne by done.
      rewrite Hdisk. by apply (lt_ent _ _ _ Hl).
  - intros c j. cbn. intros [Hne Hj]%lookup_delete_Some. split; [by eapply (lt_held _ _ _ Hl)|].
    unfold a_brelse. destruct (e_dirty e); cbn; [rewrite lookup_insert_ne by done|rewrite lookup_delete_ne by done];
      by eapply (lt_held _ _ _ Hl).
Qed.

Lemma log_tx_view_ok s t b : log_tx_rel s t → t_home t b → block_ok (t_view t b).
Proof.
  intros [a Hl] Hh. rewrite (lt_view _ _ _ Hl b Hh). eapply bc_view_ok; [apply Hl|].
  apply (lt_home _ _ _ Hl) in Hh. destruct Hh as [[[] _] _]; lia.
Qed.

#[export] Instance log_txn : Txn (lst B) := {
  tx_rel := log_tx_rel; tx_view_ok := log_tx_view_ok;
  tx_bread := log_tx_bread; tx_data := log_tx_data;
  tx_write := log_tx_write; tx_brelse := log_tx_brelse;
}.

(** No operation runs, the log is empty and nothing is cached for long. *)
Record log_idle (s : lst B) (t : tx) (a : abs) : Prop := {
  ld_inv : log_inv s a [];
  ld_only : op_only (ls_log s) (a_disk a) 0;
  ld_home b : t_home t b ↔ home (ls_log s) b ∧ b ≠ 1;
  ld_cap : Z.abs (t_cap t) = Z.min LOGSIZE (lg_size (ls_log s) - 1);
  ld_view b : t_home t b → t_view t b = a_disk a b;
  ld_ent : a_ent a = ∅;
  ld_log : t_log t = [];
  ld_held : t_held t = ∅;
}.

Lemma log_op_begin s t :
  (∃ a, log_idle s t a) → 0 < t_cap t → t_log t = [] ∧ t_held t = ∅ ∧ ∃ s', t_begin_op s = Ret () s' ∧ tx_rel s' t.
Proof.
  intros [a [Hi [Ho Hc Hg Hh] Hhome Hcap Hv He Hl Hn]] Hpos. split; [done|]. split; [done|].
  exists (mkLst (set_outstanding (ls_log s) 1) (ls_buf s)). split.
  - cbn. unfold begin_op. mstep (eq_refl (get_log s)). rewrite Hc, Ho.
    rewrite (lo_n _ _ (li_log _ _ _ Hi)). done.
  - exists a. split; rewrite ?Hl, ?Hn, ?He; try done.
    + destruct Hi as [[] ? ? ? ? ?]. by split.
    + destruct (Z.ltb_spec 0 (t_cap t)); [done|lia].
    + by intros b ?%not_elem_of_nil.
    + intros b Hb. unfold view. rewrite He, lookup_empty. by apply Hv.
Qed.

(** What a transaction leaves behind can be committed. *)
Lemma log_tx_ending s t a :
  log_tx s t a → t_held t = ∅ → tx_room t 1 → 0 < t_cap t → ending s a (t_log t).
Proof.
  intros Hl Hn Hroom Hpos. pose proof (log_tx_size s t a Hl) as Hsz. unfold tx_room in Hroom.
  destruct (lt_only _ _ _ Hl) as [Hout ? ? ?]. destruct (Z.ltb_spec 0 (t_cap t)) as [_|]; [|lia].
  split; try done; [by apply Hl| |lia|].
  - intros b e He. destruct (lt_ent _ _ _ Hl b e He) as [Hh Hd]. rewrite Hn, lookup_empty in Hh, Hd.
    split; [|done]. destruct (e_dirty e); [done|]. by destruct Hd as [_ []].
  - intros H1%(lt_log _ _ _ Hl)%(lt_home _ _ _ Hl). by destruct H1.
Qed.

Lemma log_op_end s t :
  tx_rel s t → t_held t = ∅ → tx_room t 1 → 0 < t_cap t →
  ∃ s', t_end_op s = Ret () s' ∧ ∃ a, log_idle s' (Tx (t_home t) (t_cap t) (t_view t) [] ∅) a.
Proof.
  intros [a Hl] Hn Hroom Hpos. pose proof (log_tx_ending s t a Hl Hn Hroom Hpos) as Hend.
  destruct (end_op_spec s a _ Hend) as (s' & Hrun & Hlg & _).
  destruct (end_op_done s a _ Hend) as (s2 & a' & Hrun2 & Hi & He & Hc & _ & Hg & Hh & Ho & Hm).
  rewrite Hrun in Hrun2. injection Hrun2 as <-. exists s'. split; [done|]. exists a'.
  assert (∀ c, home (ls_log s') c ↔ home (ls_log s) c) as Hhm by (intros c; by rewrite Hlg).
  split; try done.
  - split; try done; rewrite Hlg; try done. apply Hh.
  - intros b. rewrite Hhm. apply Hl.
  - cbn. rewrite Hlg. apply Hl.
  - intros b Hb. cbn in Hb |- *. rewrite (lt_view _ _ _ Hl b Hb). symmetry. apply Hc.
    by apply (lt_home _ _ _ Hl).
Qed.

Lemma log_op_read s t : (∃ a, log_idle s t a) → 0 < t_cap t → tx_rel s (tx_read_only t).
Proof.
  intros [a [Hi Ho Hhome Hcap Hv He Hl Hn]] Hpos. exists a. split; cbn; try done.
  - by destruct (Z.ltb_spec 0 (- t_cap t)); [lia|].
  - by intros b ?%not_elem_of_nil.
  - lia.
  - intros b Hb. unfold view. rewrite He, lookup_empty. by apply Hv.
  - intros b e. by rewrite He, lookup_empty.
Qed.

Lemma log_op_read_end s t :
  tx_rel s (tx_read_only t) → 0 < t_cap t → t_log t = [] → t_held t = ∅ → ∃ a, log_idle s t a.
Proof.
  intros [a Hl] Hpos Hlog Hheld. exists a. destruct Hl as [Hi Ho Hhome Hlg Hcap Hv He Hh]. cbn in *.
  destruct (Z.ltb_spec 0 (- t_cap t)); [lia|].
  assert (a_ent a = ∅) as Hent.
  { apply map_empty. intros b. destruct (a_ent a !! b) as [e|] eqn:Hb; [|done]. exfalso.
    destruct (He b e Hb) as [_ Hd]. destruct (e_dirty e) eqn:Hde.
    - assert (b ∈ ([] : list Z)) as Hin by (apply (li_dirty _ _ _ Hi); eauto). by apply not_elem_of_nil in Hin.
    - destruct (Hd eq_refl) as [_ [j Hj]]. by rewrite lookup_empty in Hj. }
  split; try done; [lia|]. intros b Hb. rewrite Hv by done. unfold view. by rewrite Hent, lookup_empty.
Qed.

#[export] Instance log_txn_op : TxnOp (lst B) := {
  op_idle s t := ∃ a, log_idle s t a;
  op_begin := log_op_begin; op_end := log_op_end;
  op_read := log_op_read; op_read_end := log_op_read_end;
}.
End Instance.

(** ** A transaction layer beside other state *)

Section Pair.
Context {S U : Type} `{!TxnOps S, !OpOps S}.

#[export] Instance fst_lens : Lens (S * U) S := {
  lget := fst; lset t s := (t, s.2);
  lget_lset t s := eq_refl; lset_lget s := match s with (_, _) => eq_refl end; lset_lset t t' s := eq_refl;
}.
#[export] Instance snd_lens : Lens (S * U) U := {
  lget := snd; lset t s := (s.1, t);
  lget_lset t s := eq_refl; lset_lget s := match s with (_, _) => eq_refl end; lset_lset t t' s := eq_refl;
}.

#[export] Instance pair_txn_ops : TxnOps (S * U) := {
  t_bread dev b := lift (t_bread dev b : M S Z);
  t_data i := lift (t_data i : M S block);
  t_set_data i d := lift (t_set_data i d : M S ());
  t_log_write i := lift (t_log_write i : M S ());
  t_brelse i := lift (t_brelse i : M S ());
}.
#[export] Instance pair_op_ops : OpOps (S * U) := {
  t_begin_op := lift (t_begin_op : M S ());
  t_end_op := lift (t_end_op : M S ());
}.

Lemma pair_lift {A} (m : M S A) (s : S * U) a s' : m s.1 = Ret a s' → lift m s = Ret a (s', s.2).
Proof. exact (lift_ret (S := S * U) m s a s'). Qed.

#[export] Program Instance pair_txn `{!Txn S} : Txn (S * U) := { tx_rel s t := tx_rel s.1 t }.
Next Obligation. intros H [s u] t b. apply (tx_view_ok s t b). Qed.
Next Obligation.
  intros H [s u] t b Hr Hh Hn Hc. destruct (tx_bread s t b Hr Hh Hn Hc) as (i & s' & Hrun & Hr').
  exists i, (s', u). split; [by apply pair_lift|done].
Qed.
Next Obligation.
  intros H [s u] t b i Hr Hi. exact (pair_lift (t_data i) (s, u) _ s (tx_data s t b i Hr Hi)).
Qed.
Next Obligation.
  intros H [s u] t b i d Hr Hi Hd Hc. destruct (tx_write s t b i d Hr Hi Hd Hc) as (s' & Hrun & Hr').
  exists (s', u). split; [|done]. apply mbind_inv in Hrun as ([] & s1 & H1 & H2).
  erewrite mbind_ret; [|exact (pair_lift (t_set_data i d) (s, u) _ _ H1)]. exact (pair_lift (t_log_write i) (s1, u) _ _ H2).
Qed.
Next Obligation.
  intros H [s u] t b i Hr Hi. destruct (tx_brelse s t b i Hr Hi) as (s' & Hrun & Hr').
  exists (s', u). split; [by apply pair_lift|done].
Qed.

#[export] Program Instance pair_txn_op `{!Txn S, !TxnOp S} : TxnOp (S * U) := { op_idle s t := op_idle s.1 t }.
Next Obligation.
  intros ? ? [s u] t Hi Hc. destruct (op_begin s t Hi Hc) as (Hl & Hh & s' & Hrun & Hr).
  split; [done|]. split; [done|]. exists (s', u). split; [by apply pair_lift|done].
Qed.
Next Obligation.
  intros ? ? [s u] t Hr Hh Hroom Hc. destruct (op_end s t Hr Hh Hroom Hc) as (s' & Hrun & Hi).
  exists (s', u). split; [by apply pair_lift|done].
Qed.
Next Obligation. intros ? ? [s u] t. apply (op_read s t). Qed.
Next Obligation. intros ? ? [s u] t. apply (op_read_end s t). Qed.
End Pair.
