(* ===== verification/Fs.v ===== *)
(** The file system: kern/fs.c and the on-disk format of inc/fs.h.

    State: the superblock [sb], the inode cache [icache.inode], indexed
    0..NINODE-1 (an [struct inode *] is an index), and the state of the layers
    below, used through the interface of file Txn.  A [char *] that walks a
    path is the list of the characters left; a destination buffer is returned
    as the list of the bytes stored to it; a source buffer is the function
    from offsets to its bytes.  [thiscpu->proc->cwd], [thisproc()->pid] and
    the device switch are parameters.  The spin lock [icache.lock] is held
    inside each operation only, as in file Bio. *)

From S2P Require Import Prelude Sleeplock BufferCache Superblock Log Txn.

Definition NDEV : Z := 10.
Definition NINODE : Z := 50.
Definition ROOTINO : Z := 1.
Definition NDIRECT : Z := 12.
Definition NINDIRECT : Z := BSIZE / 4.
Definition MAXFILE : Z := NDIRECT + NINDIRECT.
Definition IPB : Z := BSIZE / 64.
Definition IBLOCK (i : Z) (sb : superblock) : Z := w32 (i / IPB + sb_inodestart sb).
Definition BPB : Z := BSIZE * 8.
Definition BBLOCK (b : Z) (sb : superblock) : Z := w32 (b / BPB + sb_bmapstart sb).
Definition DIRSIZ : Z := 14.
Definition T_DIR : Z := 1.
Definition T_FILE : Z := 2.
Definition T_DEV : Z := 3.
(** The values of [st_mode] that are used; [S_NONE] is 0. *)
Inductive filemode := S_IFREG | S_IFDIR | S_NONE.

(** [struct inode]. *)
Record inode := Inode {
  i_dev : Z; i_inum : Z; i_ref : Z; i_lock : sleeplock; i_valid : Z;
  i_type : Z; i_major : Z; i_minor : Z; i_nlink : Z; i_size : Z;
  i_addrs : list Z;
}.

Definition with_ref (ip : inode) (r : Z) : inode :=
  Inode (i_dev ip) (i_inum ip) r (i_lock ip) (i_valid ip) (i_type ip) (i_major ip) (i_minor ip)
        (i_nlink ip) (i_size ip) (i_addrs ip).
Definition with_ilock (ip : inode) (l : sleeplock) : inode :=
  Inode (i_dev ip) (i_inum ip) (i_ref ip) l (i_valid ip) (i_type ip) (i_major ip) (i_minor ip)
        (i_nlink ip) (i_size ip) (i_addrs ip).
Definition with_valid (ip : inode) (v : Z) : inode :=
  Inode (i_dev ip) (i_inum ip) (i_ref ip) (i_lock ip) v (i_type ip) (i_major ip) (i_minor ip)
        (i_nlink ip) (i_size ip) (i_addrs ip).
Definition with_type (ip : inode) (t : Z) : inode :=
  Inode (i_dev ip) (i_inum ip) (i_ref ip) (i_lock ip) (i_valid ip) t (i_major ip) (i_minor ip)
        (i_nlink ip) (i_size ip) (i_addrs ip).
Definition with_size (ip : inode) (n : Z) : inode :=
  Inode (i_dev ip) (i_inum ip) (i_ref ip) (i_lock ip) (i_valid ip) (i_type ip) (i_major ip)
        (i_minor ip) (i_nlink ip) n (i_addrs ip).
Definition with_addrs (ip : inode) (l : list Z) : inode :=
  Inode (i_dev ip) (i_inum ip) (i_ref ip) (i_lock ip) (i_valid ip) (i_type ip) (i_major ip)
        (i_minor ip) (i_nlink ip) (i_size ip) l.

Definition inode0 : inode := Inode 0 0 0 initsleeplock 0 0 0 0 0 0 (replicate 13 0).

(** ** [struct dinode], 64 bytes at offset [o] of an inode block *)

Fixpoint get_u32s (d : block) (o k : nat) : list Z :=
  match k with
  | O => []
  | S k => get32 d o :: get_u32s d (o + 4) k
  end.

(** [dip = (struct dinode * )bp->data + inum % IPB]. *)
Definition dinode_off (inum : Z) : nat := Z.to_nat (64 * (inum mod IPB)).
Definition dinode_type (d : block) (inum : Z) : Z := get16 d (dinode_off inum).
(** The assignments of [ilock] from [dip] to [ip]. *)
Definition load_dinode (d : block) (ip : inode) : inode :=
  let o := dinode_off (i_inum ip) in
  Inode (i_dev ip) (i_inum ip) (i_ref ip) (i_lock ip) (i_valid ip)
        (get16 d o) (get16 d (o + 2)) (get16 d (o + 4)) (get16 d (o + 6)) (get32 d (o + 8))
        (get_u32s d (o + 12) 13).
(** The assignments of [iupdate] from [ip] to [dip]. *)
Definition store_dinode (ip : inode) (d : block) : block :=
  let o := dinode_off (i_inum ip) in
  let d := put16 d o (i_type ip) in
  let d := put16 d (o + 2) (i_major ip) in
  let d := put16 d (o + 4) (i_minor ip) in
  let d := put16 d (o + 6) (i_nlink ip) in
  let d := put32 d (o + 8) (i_size ip) in
  put_words d (o + 12) (i_addrs ip).
(** [memset(dip, 0, sizeof( *dip)); dip->type = type]. *)
Definition init_dinode (inum type : Z) (d : block) : block :=
  let o := dinode_off inum in put16 (splice d o (replicate 64 0)) o type.

(** ** The bitmap *)

Definition bit_mask (bi : Z) : Z := Z.shiftl 1 (bi mod 8).
Definition get_byte (d : block) (i : Z) : Z := nth (Z.to_nat i) d 0.
Definition set_byte (d : block) (i v : Z) : block := <[Z.to_nat i := w8 v]> d.
(** [(bp->data[bi/8] & m) != 0] and the two updates of this byte. *)
Definition bit_used (d : block) (bi : Z) : bool :=
  negb (Z.land (get_byte d (bi / 8)) (bit_mask bi) =? 0).
Definition set_bit (d : block) (bi : Z) : block :=
  set_byte d (bi / 8) (Z.lor (get_byte d (bi / 8)) (bit_mask bi)).
Definition clear_bit (d : block) (bi : Z) : block :=
  set_byte d (bi / 8) (Z.land (get_byte d (bi / 8)) (Z.lnot (bit_mask bi))).

(** The inner loop of [balloc]: the first free bit from [bi], among [n]. *)
Fixpoint find_free (n : nat) (d : block) (bi : Z) : option Z :=
  match n with
  | O => None
  | S n => if bit_used d bi then find_free n d (bi + 1) else Some bi
  end.

(** ** Path elements *)

Definition slash : Z := 47.

Fixpoint skip_slashes (path : list Z) : list Z :=
  match path with
  | c :: rest => if c =? slash then skip_slashes rest else path
  | [] => []
  end.
(** The longest prefix without a slash, and the rest. *)
Fixpoint span_elem (path : list Z) : list Z * list Z :=
  match path with
  | c :: rest => if c =? slash then ([], path) else let '(e, r) := span_elem rest in (c :: e, r)
  | [] => ([], [])
  end.
(** [name] is the buffer of DIRSIZ bytes; the result is the new path and the
    new contents of the buffer. *)
Definition skipelem (path name : list Z) : option (list Z * list Z) :=
  match skip_slashes path with
  | [] => None
  | path =>
    let '(s, path) := span_elem path in
    let len := Z.of_nat (length s) in
    let name :=
      if DIRSIZ <=? len then splice name 0 (take (Z.to_nat DIRSIZ) s)
      else splice (splice name 0 s) (length s) [0] in
    Some (skip_slashes path, name)
  end.

(** [strncmp] of string.h on two buffers, past whose end there are null bytes. *)
Fixpoint strncmp_bytes (n : nat) (p q : list Z) : Z :=
  match n with
  | O => 0
  | S n =>
    let a := List.hd 0 p in let b := List.hd 0 q in
    if negb (a =? 0) && (a =? b) then strncmp_bytes n (List.tl p) (List.tl q) else a - b
  end.
Definition namecmp (s t : list Z) : Z := strncmp_bytes (Z.to_nat DIRSIZ) s t.

(** [strncpy(de.name, name, DIRSIZ)]: the bytes of [de.name]. *)
Fixpoint strncpy_bytes (n : nat) (src : list Z) : list Z :=
  match n with
  | O => []
  | S n =>
    let c := List.hd 0 src in
    if c =? 0 then replicate (S n) 0 else c :: strncpy_bytes n (List.tl src)
  end.

(** ** The operations *)

Section Fs.
Context {T : Type} `{!TxnOps T}.

Record fs := Fs { f_sb : superblock; f_icache : Z → inode; f_tx : T }.

#[export] Instance fs_lens : Lens fs T := {
  lget := f_tx; lset t s := Fs (f_sb s) (f_icache s) t;
  lget_lset t s := eq_refl; lset_lget s := match s with Fs _ _ _ => eq_refl end;
  lset_lset t t' s := eq_refl;
}.

Definition get_sb : M fs superblock := gets f_sb.
Definition get_inode (i : Z) : M fs inode := gets (λ s, f_icache s i).
Definition put_inode (i : Z) (ip : inode) : M fs () :=
  modify (λ s, Fs (f_sb s) (upd (f_icache s) i ip) (f_tx s)).

(** [thisproc()->pid] and [thiscpu->proc->cwd]. *)
Context (pid cwd : Z).
(** [devsw[major].read(ip, dst, n)]: the value returned and the bytes stored
    at [dst]; [devsw[major].write(ip, src, n)]. *)
Context (devsw_read : Z → option (Z → Z → M fs (Z * list Z))).
Context (devsw_write : Z → option (Z → (Z → Z) → Z → M fs Z)).

Definition bread (dev b : Z) : M fs Z := lift (t_bread dev b).
Definition bdata (bp : Z) : M fs block := lift (t_data bp).
Definition set_bdata (bp : Z) (d : block) : M fs () := lift (t_set_data bp d).
Definition log_write (bp : Z) : M fs () := lift (t_log_write bp).
Definition brelse (bp : Z) : M fs () := lift (t_brelse bp).

Definition bzero (dev bno : Z) : M fs () :=
  bp ← bread dev bno;
  set_bdata bp (replicate (Z.to_nat BSIZE) 0) ;;
  log_write bp ;;
  brelse bp.

(** The outer loop; [fuel] is the number of bitmap blocks left. *)
Fixpoint balloc_loop (fuel : nat) (dev b : Z) : M fs Z :=
  match fuel with
  | O => no_fuel
  | S fuel =>
    sb ← get_sb;
    if b <? sb_size sb then
      bp ← bread dev (BBLOCK b sb);
      d ← bdata bp;
      match find_free (Z.to_nat (Z.min BPB (sb_size sb - b))) d 0 with
      | Some bi =>
        set_bdata bp (set_bit d bi) ;;
        log_write bp ;;
        brelse bp ;;
        bzero dev (b + bi) ;;
        mret (b + bi)
      | None => brelse bp ;; balloc_loop fuel dev (b + BPB)
      end
    else panic "balloc: out of blocks"
  end.
Definition balloc (dev : Z) : M fs Z :=
  sb ← get_sb; balloc_loop (Z.to_nat (sb_size sb / BPB + 2)) dev 0.

Definition bfree (dev b : Z) : M fs () :=
  sb ← get_sb;
  bp ← bread dev (BBLOCK b sb);
  let bi := b mod BPB in
  d ← bdata bp;
  if bit_used d bi then
    set_bdata bp (clear_bit d bi) ;;
    log_write bp ;;
    brelse bp
  else panic "bfree: freeing a free block".

Fixpoint init_locks (n : nat) (i : Z) (ic : Z → inode) : Z → inode :=
  match n with
  | O => ic
  | S n => init_locks n (i + 1) (upd ic i (with_ilock (ic i) initsleeplock))
  end.
(** With [readsb] of fs.c inlined; file Superblock models it on its own. *)
Definition iinit (dev : Z) : M fs () :=
  modify (λ s, Fs (f_sb s) (init_locks (Z.to_nat NINODE) 0 (f_icache s)) (f_tx s)) ;;
  bp ← bread dev 1;
  d ← bdata bp;
  brelse bp ;;
  modify (λ s, Fs (sb_of_block d) (f_icache s) (f_tx s)).

(** The loop of [iget], [n] entries from [i] left: the entry found, or else
    the first empty one. *)
Fixpoint iget_scan (n : nat) (i : Z) (empty : option Z) (ic : Z → inode) (dev inum : Z) :
    Z + option Z :=
  match n with
  | O => inr empty
  | S n =>
    let ip := ic i in
    if (0 <? i_ref ip) && (i_dev ip =? dev) && (i_inum ip =? inum) then inl i
    else
      let empty := match empty with
                   | None => if i_ref ip =? 0 then Some i else None
                   | Some e => Some e
                   end in
      iget_scan n (i + 1) empty ic dev inum
  end.
Definition iget (dev inum : Z) : M fs Z :=
  ic ← gets f_icache;
  match iget_scan (Z.to_nat NINODE) 0 None ic dev inum with
  | inl i =>
    ip ← get_inode i;
    put_inode i (with_ref ip (i_ref ip + 1)) ;;
    mret i
  | inr None => panic "iget: no inodes"
  | inr (Some i) =>
    ip ← get_inode i;
    put_inode i (Inode dev inum 1 (i_lock ip) 0 (i_type ip) (i_major ip) (i_minor ip)
                       (i_nlink ip) (i_size ip) (i_addrs ip)) ;;
    mret i
  end.

Fixpoint ialloc_loop (fuel : nat) (dev type inum : Z) : M fs Z :=
  match fuel with
  | O => no_fuel
  | S fuel =>
    sb ← get_sb;
    if inum <? sb_ninodes sb then
      bp ← bread dev (IBLOCK inum sb);
      d ← bdata bp;
      if dinode_type d inum =? 0 then
        set_bdata bp (init_dinode inum type d) ;;
        log_write bp ;;
        brelse bp ;;
        iget dev inum
      else
        brelse bp ;;
        ialloc_loop fuel dev type (inum + 1)
    else panic "ialloc: no inodes"
  end.
Definition ialloc (dev type : Z) : M fs Z :=
  sb ← get_sb; ialloc_loop (Z.to_nat (sb_ninodes sb) + 1) dev type 1.

Definition iupdate (i : Z) : M fs () :=
  ip ← get_inode i;
  sb ← get_sb;
  bp ← bread (i_dev ip) (IBLOCK (i_inum ip) sb);
  d ← bdata bp;
  set_bdata bp (store_dinode ip d) ;;
  log_write bp ;;
  brelse bp.

Definition idup (i : Z) : M fs Z :=
  ip ← get_inode i;
  put_inode i (with_ref ip (i_ref ip + 1)) ;;
  mret i.

(** The operations of sleeplock.c on the lock of inode [i]. *)
Definition with_inode_lock {A} (i : Z) (m : M sleeplock A) : M fs A := λ s,
  let ip := f_icache s i in
  match m (i_lock ip) with
  | Ret a l => Ret a (Fs (f_sb s) (upd (f_icache s) i (with_ilock ip l)) (f_tx s))
  | Panic msg => Panic msg
  | Sleep c => Sleep c
  | Undef w => Undef w
  | NoFuel => NoFuel
  end.

(** A null pointer is an index outside the cache; [ilock] prints its [ref]
    before it panics. *)
Definition null_inode (i : Z) : bool := negb ((0 <=? i) && (i <? NINODE)).

Definition ilock (i : Z) : M fs () :=
  ip ← get_inode i;
  if null_inode i then undef "ilock: ip->ref of a null pointer"
  else if i_ref ip <? 1 then panic "ilock: invalid inode"
  else
    with_inode_lock i (acquiresleep pid i) ;;
    ip ← get_inode i;
    when (i_valid ip =? 0) (
      sb ← get_sb;
      bp ← bread (i_dev ip) (IBLOCK (i_inum ip) sb);
      d ← bdata bp;
      put_inode i (load_dinode d ip) ;;
      brelse bp ;;
      ip ← get_inode i;
      put_inode i (with_valid ip 1) ;;
      when (i_type ip =? 0) (panic "ilock: no type")).

Definition iunlock (i : Z) : M fs () :=
  if null_inode i then panic "iunlock"
  else
    h ← with_inode_lock i (holdingsleep pid);
    ip ← get_inode i;
    if negb h || (i_ref ip <? 1) then panic "iunlock"
    else with_inode_lock i releasesleep.

(** ** Inode content *)

(** [addr] allocated by [balloc], and stored to [ip->addrs[n]], when 0. *)
Definition bmap_addr (i n : Z) : M fs Z :=
  ip ← get_inode i;
  addr ← array_get (i_addrs ip) n;
  if addr =? 0 then
    addr ← balloc (i_dev ip);
    ip ← get_inode i;
    put_inode i (with_addrs ip (<[Z.to_nat n := addr]> (i_addrs ip))) ;;
    mret addr
  else mret addr.

Definition bmap (i bn : Z) : M fs Z :=
  if bn <? NDIRECT then bmap_addr i bn
  else
    let bn := bn - NDIRECT in
    if bn <? NINDIRECT then
      addr ← bmap_addr i NDIRECT;
      ip ← get_inode i;
      bp ← bread (i_dev ip) addr;
      d ← bdata bp;
      let addr := get32 d (Z.to_nat (4 * bn)) in
      if addr =? 0 then
        addr ← balloc (i_dev ip);
        d ← bdata bp;
        set_bdata bp (put32 d (Z.to_nat (4 * bn)) addr) ;;
        log_write bp ;;
        brelse bp ;;
        mret addr
      else
        brelse bp ;;
        mret addr
    else panic "bmap: out of range".

Fixpoint itrunc_direct (n : nat) (i k : Z) : M fs () :=
  match n with
  | O => mret ()
  | S n =>
    ip ← get_inode i;
    addr ← array_get (i_addrs ip) k;
    when (negb (addr =? 0)) (
      bfree (i_dev ip) addr ;;
      ip ← get_inode i;
      put_inode i (with_addrs ip (<[Z.to_nat k := 0]> (i_addrs ip)))) ;;
    itrunc_direct n i (k + 1)
  end.
Fixpoint itrunc_indirect (n : nat) (dev : Z) (d : block) (j : Z) : M fs () :=
  match n with
  | O => mret ()
  | S n =>
    let a := get32 d (Z.to_nat (4 * j)) in
    when (negb (a =? 0)) (bfree dev a) ;;
    itrunc_indirect n dev d (j + 1)
  end.
Definition itrunc (i : Z) : M fs () :=
  itrunc_direct (Z.to_nat NDIRECT) i 0 ;;
  ip ← get_inode i;
  addr ← array_get (i_addrs ip) NDIRECT;
  when (negb (addr =? 0)) (
    bp ← bread (i_dev ip) addr;
    d ← bdata bp;
    itrunc_indirect (Z.to_nat NINDIRECT) (i_dev ip) d 0 ;;
    brelse bp ;;
    bfree (i_dev ip) addr ;;
    ip ← get_inode i;
    put_inode i (with_addrs ip (<[Z.to_nat NDIRECT := 0]> (i_addrs ip)))) ;;
  ip ← get_inode i;
  put_inode i (with_size ip 0) ;;
  iupdate i.

Definition iput (i : Z) : M fs () :=
  with_inode_lock i (acquiresleep pid i) ;;
  ip ← get_inode i;
  when (negb (i_valid ip =? 0) && (i_nlink ip =? 0) && (i_ref ip =? 1)) (
    itrunc i ;;
    ip ← get_inode i;
    put_inode i (with_type ip 0) ;;
    iupdate i ;;
    ip ← get_inode i;
    put_inode i (with_valid ip 0)) ;;
  with_inode_lock i releasesleep ;;
  ip ← get_inode i;
  put_inode i (with_ref ip (i_ref ip - 1)).

Definition iunlockput (i : Z) : M fs () := iunlock i ;; iput i.

(** The fields of [struct stat] that are set: st_dev, st_ino, st_nlink,
    st_size, st_mode. *)
Record stat := Stat { st_dev : Z; st_ino : Z; st_nlink : Z; st_size : Z; st_mode : filemode }.

Definition stati (i : Z) : M fs stat :=
  ip ← get_inode i;
  let st := Stat (i_dev ip) (i_inum ip) (i_nlink ip) (i_size ip) in
  if i_type ip =? T_FILE then mret (st S_IFREG)
  else if i_type ip =? T_DIR then mret (st S_IFDIR)
  else if i_type ip =? T_DEV then mret (st S_NONE)
  else panic "unexpected stat type".

(** The loop of [readi]: [n] bytes from offset [off], [fuel] blocks at most;
    [acc] is what has been stored at [dst]. *)
Fixpoint readi_loop (fuel : nat) (i off n : Z) (acc : list Z) : M fs (list Z) :=
  match fuel with
  | O => no_fuel
  | S fuel =>
    if 0 <? n then
      ip ← get_inode i;
      addr ← bmap i (w32 (off / BSIZE));
      bp ← bread (i_dev ip) addr;
      let m := Z.min n (BSIZE - off mod BSIZE) in
      d ← bdata bp;
      let acc := acc ++ slice d (Z.to_nat (off mod BSIZE)) (Z.to_nat m) in
      brelse bp ;;
      readi_loop fuel i (off + m) (n - m) acc
    else mret acc
  end.
Definition readi (i off n : Z) : M fs (Z * list Z) :=
  ip ← get_inode i;
  if i_type ip =? T_DEV then
    if NDEV <=? i_major ip then mret (-1, [])
    else match devsw_read (i_major ip) with None => mret (-1, []) | Some f => f i n end
  else if (i_size ip <? off) || (w64 (off + n) <? off) then mret (-1, [])
  else
    let n := if i_size ip <? w64 (off + n) then i_size ip - off else n in
    l ← readi_loop (Z.to_nat (n / BSIZE + 3)) i off n [];
    mret (n, l).

Fixpoint writei_loop (fuel : nat) (i : Z) (src : Z → Z) (tot off n : Z) : M fs Z :=
  match fuel with
  | O => no_fuel
  | S fuel =>
    if tot <? n then
      ip ← get_inode i;
      addr ← bmap i (w32 (off / BSIZE));
      bp ← bread (i_dev ip) addr;
      let m := Z.min (n - tot) (BSIZE - off mod BSIZE) in
      d ← bdata bp;
      set_bdata bp (splice d (Z.to_nat (off mod BSIZE)) (map src (seqZ tot m))) ;;
      log_write bp ;;
      brelse bp ;;
      writei_loop fuel i src (tot + m) (off + m) n
    else mret off
  end.
Definition writei (i : Z) (src : Z → Z) (off n : Z) : M fs Z :=
  ip ← get_inode i;
  if i_type ip =? T_DEV then
    if NDEV <=? i_major ip then mret (-1)
    else match devsw_write (i_major ip) with None => mret (-1) | Some f => f i src n end
  else if (i_size ip <? off) || (w64 (off + n) <? off) then mret (-1)
  else if MAXFILE * BSIZE <? w64 (off + n) then mret (-1)
  else
    off ← writei_loop (Z.to_nat (n / BSIZE + 3)) i src 0 off n;
    ip ← get_inode i;
    when ((0 <? n) && (i_size ip <? off)) (
      put_inode i (with_size ip (w32 off)) ;;
      iupdate i) ;;
    mret n.

(** ** Directories *)

(** [struct dirent]: the inode number and DIRSIZ bytes of name. *)
Definition de_inum (de : list Z) : Z := of_bytes (take 2 de).
Definition de_name (de : list Z) : list Z := drop 2 de.
Definition mk_dirent (inum : Z) (name : list Z) : list Z :=
  bytes_of 2 inum ++ strncpy_bytes (Z.to_nat DIRSIZ) name.

(** The loop of [dirlookup]: the offset and inode number of the entry. *)
Fixpoint dirlookup_loop (fuel : nat) (i : Z) (name : list Z) (off : Z) : M fs (option (Z * Z)) :=
  match fuel with
  | O => no_fuel
  | S fuel =>
    ip ← get_inode i;
    if off <? i_size ip then
      '(r, de) ← readi i off 16;
      if negb (r =? 16) then panic "dirlookup read"
      else if de_inum de =? 0 then dirlookup_loop fuel i name (off + 16)
      else if namecmp name (de_name de) =? 0 then mret (Some (off, de_inum de))
      else dirlookup_loop fuel i name (off + 16)
    else mret None
  end.
(** The inode found and its [*poff]. *)
Definition dirlookup (i : Z) (name : list Z) : M fs (option (Z * Z)) :=
  ip ← get_inode i;
  if negb (i_type ip =? T_DIR) then panic "dirlookup not DIR"
  else
    r ← dirlookup_loop (Z.to_nat (i_size ip / 16 + 2)) i name 0;
    match r with
    | None => mret None
    | Some (off, inum) =>
      ip ← get_inode i;
      j ← iget (i_dev ip) inum;
      mret (Some (j, off))
    end.

Fixpoint dirlink_scan (fuel : nat) (i off : Z) : M fs Z :=
  match fuel with
  | O => no_fuel
  | S fuel =>
    ip ← get_inode i;
    if off <? i_size ip then
      '(r, de) ← readi i off 16;
      if negb (r =? 16) then panic "dirlink read"
      else if de_inum de =? 0 then mret off
      else dirlink_scan fuel i (off + 16)
    else mret off
  end.
Definition dirlink (i : Z) (name : list Z) (inum : Z) : M fs Z :=
  r ← dirlookup i name;
  match r with
  | Some (j, _) => iput j ;; mret (-1)
  | None =>
    ip ← get_inode i;
    off ← dirlink_scan (Z.to_nat (i_size ip / 16 + 2)) i 0;
    let de := mk_dirent inum name in
    r ← writei i (λ k, nth (Z.to_nat k) de 0) off 16;
    if negb (r =? 16) then panic "dirlink" else mret 0
  end.

(** ** Paths *)

(** The loop of [namex]; the result is the inode and the buffer [name]. *)
Fixpoint namex_loop (fuel : nat) (i : Z) (path : list Z) (nameiparent : bool) (name : list Z) :
    M fs (option Z * list Z) :=
  match fuel with
  | O => no_fuel
  | S fuel =>
    match skipelem path name with
    | None =>
      if nameiparent then iput i ;; mret (None, name) else mret (Some i, name)
    | Some (path, name) =>
      ilock i ;;
      ip ← get_inode i;
      if negb (i_type ip =? T_DIR) then iunlockput i ;; mret (None, name)
      else if nameiparent && match path with [] => true | _ => false end then
        iunlock i ;; mret (Some i, name)
      else
        next ← dirlookup i name;
        match next with
        | None => iunlockput i ;; mret (None, name)
        | Some (next, _) => iunlockput i ;; namex_loop fuel next path nameiparent name
        end
    end
  end.
Definition namex (path : list Z) (nameiparent : bool) (name : list Z) : M fs (option Z * list Z) :=
  i ← (if List.hd 0 path =? slash then iget ROOTDEV ROOTINO else idup cwd);
  namex_loop (length path + 1) i path nameiparent name.

(** [name] is uninitialised. *)
Definition namei (path name : list Z) : M fs (option Z) :=
  '(r, _) ← namex path false name; mret r.
Definition nameiparent (path name : list Z) : M fs (option Z * list Z) := namex path true name.
End Fs.
Arguments fs T : clear implicits.
