(* ===== verification/FsAlloc.v ===== *)
(** The block allocator: [bzero], [balloc] and [bfree] of kern/fs.c. *)

From S2P Require Import Prelude BufferCache Superblock Log LogOps Txn Fs.

(** ** Bits of a bitmap block *)

Lemma land_bit x k : 0 ≤ k → negb (Z.land x (Z.shiftl 1 k) =? 0) = Z.testbit x k.
Proof.
  intros Hk. rewrite Z.shiftl_1_l. destruct (Z.testbit x k) eqn:Ht.
  - destruct (Z.eqb_spec (Z.land x (2 ^ k)) 0) as [H0|]; [|done].
    apply (f_equal (λ z, Z.testbit z k)) in H0.
    by rewrite Z.land_spec, Ht, Z.pow2_bits_true, Z.bits_0 in H0 by done.
  - destruct (Z.eqb_spec (Z.land x (2 ^ k)) 0) as [|Hne]; [done|]. destruct Hne.
    apply Z.bits_inj'. intros n Hn. rewrite Z.land_spec, Z.bits_0.
    destruct (decide (n = k)) as [->|]; [by rewrite Ht|]. by rewrite Z.pow2_bits_false, andb_false_r by lia.
Qed.

Lemma bit_used_testbit d bi : bit_used d bi = Z.testbit (get_byte d (bi / 8)) (bi mod 8).
Proof. apply land_bit. apply Z.mod_pos_bound. lia. Qed.

Lemma get_set_byte d i j v :
  0 ≤ i < BSIZE → 0 ≤ j → block_ok d →
  get_byte (set_byte d i v) j = if i =? j then w8 v else get_byte d j.
Proof.
  intros Hi Hj Hd. unfold get_byte, set_byte. rewrite !nth_lookup. destruct (Z.eqb_spec i j) as [<-|Hne].
  - rewrite list_lookup_insert_eq; [done|]. unfold block_ok in Hd. lia.
  - rewrite list_lookup_insert_ne by lia. done.
Qed.

Lemma w8_testbit v k : 0 ≤ k < 8 → Z.testbit (w8 v) k = Z.testbit v k.
Proof. intros Hk. unfold w8. by rewrite Z.mod_pow2_bits_low by lia. Qed.

Lemma bit_update d bi bj f :
  0 ≤ bi < BPB → 0 ≤ bj < BPB → block_ok d →
  (∀ x k, 0 ≤ k < 8 → k ≠ bi mod 8 → Z.testbit (f x) k = Z.testbit x k) →
  bit_used (set_byte d (bi / 8) (f (get_byte d (bi / 8)))) bj =
    if bi =? bj then Z.testbit (f (get_byte d (bi / 8))) (bi mod 8) else bit_used d bj.
Proof.
  unfold BPB, BSIZE. intros Hi Hj Hd Hf. rewrite !bit_used_testbit.
  rewrite get_set_byte by (done || (unfold BSIZE; zlia)).
  destruct (Z.eqb_spec bi bj) as [<-|Hne].
  - rewrite Z.eqb_refl. apply w8_testbit. zlia.
  - destruct (Z.eqb_spec (bi / 8) (bj / 8)) as [He|]; [|done].
    rewrite w8_testbit by zlia. rewrite Hf, He; [done|zlia|zlia].
Qed.

Lemma bit_set d bi bj :
  0 ≤ bi < BPB → 0 ≤ bj < BPB → block_ok d →
  bit_used (set_bit d bi) bj = (bi =? bj) || bit_used d bj.
Proof.
  intros Hi Hj Hd. etransitivity; [apply (bit_update d bi bj (λ x, Z.lor x (bit_mask bi)) Hi Hj Hd)|].
  - intros x k Hk Hne. unfold bit_mask. rewrite Z.shiftl_1_l, Z.lor_spec, Z.pow2_bits_false by lia.
    apply orb_false_r.
  - destruct (Z.eqb_spec bi bj) as [<-|]; [|done]. cbn [orb].
    unfold bit_mask. rewrite Z.shiftl_1_l, Z.lor_spec, Z.pow2_bits_true by zlia. apply orb_true_r.
Qed.

Lemma bit_clear d bi bj :
  0 ≤ bi < BPB → 0 ≤ bj < BPB → block_ok d →
  bit_used (clear_bit d bi) bj = negb (bi =? bj) && bit_used d bj.
Proof.
  intros Hi Hj Hd.
  etransitivity; [apply (bit_update d bi bj (λ x, Z.land x (Z.lnot (bit_mask bi))) Hi Hj Hd)|].
  - intros x k Hk Hne. unfold bit_mask. rewrite Z.shiftl_1_l, Z.land_spec, Z.lnot_spec by lia.
    rewrite Z.pow2_bits_false by lia. apply andb_true_r.
  - destruct (Z.eqb_spec bi bj) as [<-|]; [|done]. cbn [negb andb].
    unfold bit_mask. rewrite Z.shiftl_1_l, Z.land_spec, Z.lnot_spec, Z.pow2_bits_true by zlia. apply andb_false_r.
Qed.

Lemma length_set_byte d i v : length (set_byte d i v) = length d.
Proof. apply length_insert. Qed.

Lemma find_free_spec n : ∀ d bi,
  match find_free n d bi with
  | Some k => bi ≤ k < bi + Z.of_nat n ∧ bit_used d k = false ∧ ∀ j, bi ≤ j < k → bit_used d j = true
  | None => ∀ j, bi ≤ j < bi + Z.of_nat n → bit_used d j = true
  end.
Proof.
  induction n as [|n IH]; intros d bi; cbn [find_free]; [intros; lia|].
  destruct (bit_used d bi) eqn:Hb.
  - specialize (IH d (bi + 1)). destruct (find_free n d (bi + 1)) as [k|].
    + destruct IH as (Hk & Hu & Hall). split; [lia|]. split; [done|]. intros j Hj.
      destruct (decide (j = bi)) as [->|]; [done|]. apply Hall. lia.
    + intros j Hj. destruct (decide (j = bi)) as [->|]; [done|]. apply IH. lia.
  - split; [lia|]. split; [done|]. intros; lia.
Qed.

(** ** The bitmap as a whole *)

(** The disk layout of inc/fs.h, where the blocks from the inodes on are
    outside the log. *)
Record fs_geom (sb : superblock) (home : Z → Prop) : Prop := {
  g_ninodes : 0 ≤ sb_ninodes sb;
  g_inodes : 0 ≤ sb_inodestart sb ∧ sb_inodestart sb + sb_ninodes sb / IPB < sb_bmapstart sb;
  g_bmap : sb_bmapstart sb + sb_size sb / BPB < sb_size sb;
  g_size : sb_size sb < 2 ^ 31;
  g_home b : sb_inodestart sb ≤ b < sb_size sb → home b;
}.

(** Block [b] is marked in use. *)
Definition in_use (sb : superblock) (view : Z → block) (b : Z) : bool :=
  bit_used (view (BBLOCK b sb)) (b mod BPB).

(** The blocks before the data blocks are. *)
Definition data_start (sb : superblock) : Z := sb_bmapstart sb + sb_size sb / BPB + 1.
Definition meta_used (sb : superblock) (view : Z → block) : Prop :=
  ∀ b, 0 ≤ b < data_start sb → b < sb_size sb → in_use sb view b = true.

Lemma bblock sb home b : fs_geom sb home → 0 ≤ b < sb_size sb →
  BBLOCK b sb = sb_bmapstart sb + b / BPB ∧ home (BBLOCK b sb) ∧
  sb_inodestart sb < BBLOCK b sb < data_start sb.
Proof.
  intros [Hn [Hi1 Hi2] Hb Hs Hh] Hr. unfold BBLOCK, data_start, BPB, IPB, BSIZE in *.
  assert (0 ≤ sb_ninodes sb / (512 / 64)) by (change (512 / 64) with 8; zlia).
  assert (b / (512 * 8) ≤ sb_size sb / (512 * 8)) by (apply Z.div_le_mono; lia).
  assert (0 ≤ b / (512 * 8)) by (apply Z.div_pos; lia).
  rewrite w32_small by lia. split; [lia|]. split; [apply Hh; lia|lia].
Qed.

(** One bit of the bitmap changes. *)
Lemma in_use_upd sb home view b b' v :
  fs_geom sb home → 0 ≤ b < sb_size sb → 0 ≤ b' < sb_size sb →
  (∀ bi, 0 ≤ bi < BPB → bi ≠ b mod BPB → bit_used v bi = bit_used (view (BBLOCK b sb)) bi) →
  in_use sb (upd view (BBLOCK b sb) v) b' =
    if b' =? b then bit_used v (b mod BPB) else in_use sb view b'.
Proof.
  intros Hg Hb Hb' Hv. unfold in_use. rewrite upd_case.
  destruct (bblock sb home b Hg Hb) as [E _], (bblock sb home b' Hg Hb') as [E' _].
  assert (0 < BPB) by done.
  pose proof (Z.mod_pos_bound b' BPB). pose proof (Z.div_mod b BPB). pose proof (Z.div_mod b' BPB).
  destruct (Z.eqb_spec b' b) as [->|Hne]; case_decide as Hd; try done.
  rewrite Hd. apply Hv; [lia|]. intros Hm. apply Hne. rewrite Hm in *.
  assert (b' / BPB = b / BPB) by lia. lia.
Qed.

(** A change elsewhere. *)
Lemma in_use_other sb view c v b : c ≠ BBLOCK b sb → in_use sb (upd view c v) b = in_use sb view b.
Proof. intros Hc. unfold in_use. by rewrite upd_ne. Qed.

(** ** Steps of the file system on the transaction below it *)

Section Steps.
Context {T : Type} `{Txn T}.
Implicit Types (s : fs T) (t : tx).

Definition with_tx s (x : T) : fs T := Fs (f_sb s) (f_icache s) x.

Lemma with_tx_same s : with_tx s (f_tx s) = s.
Proof. by destruct s. Qed.

Lemma lift_tx {A} (m : M T A) s a x : m (f_tx s) = Ret a x → lift m s = Ret a (with_tx s x).
Proof. intros Hm. unfold lift. cbn. by rewrite Hm. Qed.

Lemma fs_bread s t b :
  tx_rel (f_tx s) t → t_home t b → t_held t !! b = None → tx_room t 1 →
  ∃ i x, Fs.bread ROOTDEV b s = Ret i (with_tx s x) ∧ tx_rel x (tx_hold t b i).
Proof.
  intros Hr Hh Hn Hc. destruct (tx_bread _ _ _ Hr Hh Hn Hc) as (i & x & H1 & H2).
  exists i, x. split; [by apply lift_tx|done].
Qed.

Lemma fs_data s t b i :
  tx_rel (f_tx s) t → t_held t !! b = Some i → bdata i s = Ret (t_view t b) s.
Proof.
  intros Hr Hi. unfold bdata. rewrite (lift_tx _ _ _ _ (tx_data _ _ _ _ Hr Hi)). by destruct s.
Qed.

Lemma fs_write s t b i d :
  tx_rel (f_tx s) t → t_held t !! b = Some i → block_ok d → Z.of_nat (length (t_log t)) < t_cap t →
  ∃ x x', set_bdata i d s = Ret () (with_tx s x) ∧
    Fs.log_write i (with_tx s x) = Ret () (with_tx s x') ∧ tx_rel x' (tx_put t b d).
Proof.
  intros Hr Hi Hd Hc. destruct (tx_write _ _ _ _ _ Hr Hi Hd Hc) as (x & H1 & H2).
  apply mbind_inv in H1 as ([] & x1 & H1 & H3). exists x1, x.
  split; [by apply lift_tx|]. split; [by apply (lift_tx _ (with_tx s x1))|done].
Qed.

Lemma fs_brelse s t b i :
  tx_rel (f_tx s) t → t_held t !! b = Some i →
  ∃ x, Fs.brelse i s = Ret () (with_tx s x) ∧ tx_rel x (tx_drop t b).
Proof.
  intros Hr Hi. destruct (tx_brelse _ _ _ _ Hr Hi) as (x & H1 & H2).
  exists x. split; [by apply lift_tx|done].
Qed.

(** [bread; ...; brelse] of a block that is not held. *)
Lemma fs_read s t b :
  tx_rel (f_tx s) t → t_home t b → t_held t !! b = None → tx_room t 1 →
  ∃ i x x', Fs.bread ROOTDEV b s = Ret i (with_tx s x) ∧
    bdata i (with_tx s x) = Ret (t_view t b) (with_tx s x) ∧
    (∀ s', f_tx s' = x → Fs.brelse i s' = Ret () (with_tx s' x')) ∧ tx_rel x' t.
Proof.
  intros Hr Hh Hn Hc. destruct (fs_bread s t b Hr Hh Hn Hc) as (i & x & H1 & Hr1).
  assert (t_held (tx_hold t b i) !! b = Some i) as Hi by apply lookup_insert_eq.
  destruct (tx_brelse _ _ _ _ Hr1 Hi) as (x' & H2 & Hr2). rewrite tx_drop_hold in Hr2 by done.
  exists i, x, x'. split; [done|]. split; [by apply (fs_data (with_tx s x) (tx_hold t b i))|].
  split; [|done]. intros s' <-. by apply lift_tx.
Qed.

(** [bread; ...; log_write; brelse] of a block that is not held. *)
Lemma fs_update s t b :
  tx_rel (f_tx s) t → t_home t b → t_held t !! b = None → tx_room t 1 →
  Z.of_nat (length (t_log t)) < t_cap t →
  ∃ i x, Fs.bread ROOTDEV b s = Ret i (with_tx s x) ∧
    bdata i (with_tx s x) = Ret (t_view t b) (with_tx s x) ∧
    ∀ d, block_ok d → ∃ x1 x2 x3, set_bdata i d (with_tx s x) = Ret () (with_tx s x1) ∧
      Fs.log_write i (with_tx s x1) = Ret () (with_tx s x2) ∧
      Fs.brelse i (with_tx s x2) = Ret () (with_tx s x3) ∧ tx_rel x3 (tx_put t b d).
Proof.
  intros Hr Hh Hn Hc Hl. destruct (fs_bread s t b Hr Hh Hn Hc) as (i & x & H1 & Hr1).
  assert (t_held (tx_hold t b i) !! b = Some i) as Hi by apply lookup_insert_eq.
  exists i, x. split; [done|]. split; [by apply (fs_data (with_tx s x) (tx_hold t b i))|]. intros d Hd.
  destruct (fs_write (with_tx s x) _ _ _ d Hr1 Hi Hd Hl) as (x1 & x2 & H2 & H3 & Hr2).
  destruct (fs_brelse (with_tx s x2) _ b i Hr2 Hi) as (x3 & H4 & Hr3). rewrite tx_drop_put in Hr3 by done.
  by exists x1, x2, x3.
Qed.
End Steps.

Section Alloc.
Context {T : Type} `{Txn T} (sb : superblock).
Implicit Types (s : fs T) (t : tx).

(** [n] more blocks can be logged and one more held. *)
Definition log_room t (n : nat) : Prop :=
  Z.of_nat (length (t_log t) + n) ≤ t_cap t ∧ tx_room t (n + 1).

Lemma log_room_1 t n : log_room t (S n) → Z.of_nat (length (t_log t)) < t_cap t ∧ tx_room t 1.
Proof. unfold log_room, tx_room. lia. Qed.

Lemma log_room_put t b d n : log_room t (S n) → log_room (tx_put t b d) n.
Proof.
  unfold log_room, tx_room. cbn. pose proof (logged_length (t_log t) b). lia.
Qed.

Lemma log_room_put_in t b d n : b ∈ t_log t → log_room t n → log_room (tx_put t b d) n.
Proof. unfold log_room, tx_room. cbn. intros Hb. by rewrite logged_in. Qed.

Lemma log_room_le t n k : (k ≤ n)%nat → log_room t n → log_room t k.
Proof. unfold log_room, tx_room. lia. Qed.

Lemma block_ok_zero : block_ok (replicate (Z.to_nat BSIZE) 0).
Proof. unfold block_ok. by rewrite length_replicate. Qed.

Lemma bzero_spec s t b :
  tx_rel (f_tx s) t → t_home t b → t_held t !! b = None → log_room t 1 →
  ∃ x, bzero ROOTDEV b s = Ret () (with_tx s x) ∧
    tx_rel x (tx_put t b (replicate (Z.to_nat BSIZE) 0)).
Proof.
  intros Hr Hh Hn Hc. destruct (log_room_1 _ _ Hc) as [Hlog Hrm].
  destruct (fs_update s t b) as (i & x & H1 & _ & H2); try done.
  destruct (H2 _ block_ok_zero) as (x1 & x2 & x3 & E1 & E2 & E3 & Hr3).
  exists x3. split; [|done]. unfold bzero. mstep H1. mstep E1. by mstep E2.
Qed.

(** The bitmap blocks are not held, and neither are free blocks. *)
Definition free_unheld t : Prop :=
  ∀ b, 0 ≤ b < sb_size sb → t_held t !! BBLOCK b sb = None ∧
    (in_use sb (t_view t) b = false → t_held t !! b = None).

Definition alloc_view (view : Z → block) (b : Z) : Z → block :=
  upd (upd view (BBLOCK b sb) (set_bit (view (BBLOCK b sb)) (b mod BPB))) b
      (replicate (Z.to_nat BSIZE) 0).
Definition tx_alloc t (b : Z) : tx :=
  tx_put (tx_put t (BBLOCK b sb) (set_bit (t_view t (BBLOCK b sb)) (b mod BPB)))
         b (replicate (Z.to_nat BSIZE) 0).

Lemma bbit b k : b mod BPB = 0 → 0 ≤ k < BPB → (b + k) mod BPB = k ∧ BBLOCK (b + k) sb = BBLOCK b sb.
Proof. unfold BBLOCK, BPB, BSIZE. intros Hb Hk. split; [zlia|]. f_equal. f_equal. zlia. Qed.

Lemma balloc_loop_spec s t n : ∀ b fuel,
  fs_geom sb (t_home t) → meta_used sb (t_view t) → free_unheld t → f_sb s = sb →
  tx_rel (f_tx s) t → log_room t 2 → 0 ≤ b → b mod BPB = 0 → sb_size sb - b ≤ Z.of_nat n * BPB →
  (n < fuel)%nat → (∀ c, 0 ≤ c < b → c < sb_size sb → in_use sb (t_view t) c = true) →
  ((∀ c, 0 ≤ c < sb_size sb → in_use sb (t_view t) c = true) ∧
   balloc_loop fuel ROOTDEV b s = Panic "balloc: out of blocks") ∨
  ∃ c x, balloc_loop fuel ROOTDEV b s = Ret c (with_tx s x) ∧ 0 ≤ c < sb_size sb ∧
    in_use sb (t_view t) c = false ∧ (∀ c', 0 ≤ c' < c → in_use sb (t_view t) c' = true) ∧
    tx_rel x (tx_alloc t c).
Proof.
  revert s. induction n as [|n IH]; intros s b fuel Hg Hm Hfu Hsb Hr Hroom Hb Hal Hn Hf Hlow;
    (destruct fuel as [|fuel]; [lia|]); cbn [balloc_loop]; mstep (eq_refl (get_sb s)); rewrite Hsb;
    (destruct (Z.ltb_spec b (sb_size sb)) as [Hlt|Hge];
     [|left; split; [|done]; intros c Hc; apply Hlow; lia]).
  { unfold BPB, BSIZE in *. lia. }
  assert (0 ≤ b < sb_size sb) as Hbr by lia.
  destruct (bblock sb _ b Hg Hbr) as (_ & Hhome & _). destruct (Hfu b Hbr) as [Hnh _].
  destruct (log_room_1 _ _ Hroom) as [Hl1 Hr1].
  pose proof (find_free_spec (Z.to_nat (Z.min BPB (sb_size sb - b))) (t_view t (BBLOCK b sb)) 0) as Hff.
  destruct (find_free _ _ 0) as [k|] eqn:Hk.
  - right. destruct Hff as (Hkr & Hku & Hkl).
    assert (0 ≤ k < BPB ∧ b + k < sb_size sb) as [Hk1 Hk2] by lia.
    destruct (bbit b k Hal Hk1) as [Hmod Hbb].
    destruct (fs_update s t (BBLOCK b sb)) as (i & x & H1 & H2 & H3); try done.
    destruct (H3 (set_bit (t_view t (BBLOCK b sb)) k)) as (x1 & x2 & x3 & E1 & E2 & E3 & Hr3).
    { unfold block_ok, set_bit. rewrite length_set_byte. by eapply tx_view_ok. }
    assert (in_use sb (t_view t) (b + k) = false) as Hfree by (unfold in_use; by rewrite Hmod, Hbb).
    destruct (bzero_spec (with_tx s x3) _ (b + k) Hr3) as (x4 & E4 & Hr4).
    + cbn. apply Hg. destruct (decide (b + k < data_start sb)) as [Hlo|Hhi].
      * rewrite Hm in Hfree by lia. done.
      * destruct (bblock sb _ (b + k) Hg ltac:(lia)) as (_ & _ & ?). lia.
    + cbn. apply (Hfu (b + k)); [lia|done].
    + by apply log_room_put.
    + exists (b + k), x4. split.
      { mstep H1. mstep H2. rewrite Hk. mstep E1. mstep E2. mstep E3. by mstep E4. }
      split; [lia|]. split; [done|]. split.
      * intros c Hc. destruct (decide (c < b)); [apply Hlow; lia|].
        specialize (Hkl (c - b) ltac:(lia)). destruct (bbit b (c - b) Hal ltac:(lia)) as [Hm' Hb'].
        replace (b + (c - b)) with c in * by lia. unfold in_use. by rewrite Hm', Hb'.
      * unfold tx_alloc. by rewrite Hmod, Hbb.
  - destruct (fs_read s t (BBLOCK b sb)) as (i & x & x' & H1 & H2 & H3 & Hr3); try done.
    destruct (IH (with_tx s x') (b + BPB) fuel) as [[Hall Hp]|(c & y & Hc)]; try done; try lia.
    + unfold BPB, BSIZE. lia.
    + unfold BPB, BSIZE in *. zlia.
    + intros c Hc Hcs. destruct (decide (c < b)); [apply Hlow; lia|].
      specialize (Hff (c - b) ltac:(lia)). destruct (bbit b (c - b) Hal ltac:(lia)) as [Hm' Hb'].
      replace (b + (c - b)) with c in * by lia. unfold in_use. by rewrite Hm', Hb'.
    + left. split; [done|]. mstep H1. mstep H2. rewrite Hk. by mstep (H3 (with_tx s x) eq_refl).
    + right. exists c, y. destruct Hc as (Hc & ?). split; [|done].
      mstep H1. mstep H2. rewrite Hk. by mstep (H3 (with_tx s x) eq_refl).
Qed.

Lemma balloc_spec s t :
  fs_geom sb (t_home t) → meta_used sb (t_view t) → free_unheld t → f_sb s = sb →
  tx_rel (f_tx s) t → log_room t 2 →
  ((∀ c, 0 ≤ c < sb_size sb → in_use sb (t_view t) c = true) ∧
   balloc ROOTDEV s = Panic "balloc: out of blocks") ∨
  ∃ c x, balloc ROOTDEV s = Ret c (with_tx s x) ∧ 0 ≤ c < sb_size sb ∧
    in_use sb (t_view t) c = false ∧ (∀ c', 0 ≤ c' < c → in_use sb (t_view t) c' = true) ∧
    tx_rel x (tx_alloc t c).
Proof.
  intros Hg Hm Hfu Hsb Hr Hroom.
  assert (0 ≤ sb_size sb) as Hpos.
  { destruct Hg as [Hn [Hi1 Hi2] Hb Hs _]. unfold IPB, BPB, BSIZE in *.
    destruct (Z.leb_spec 0 (sb_size sb)); [done|].
    assert (sb_bmapstart sb < 0) by zlia. change (512 / 64) with 8 in Hi2. zlia. }
  destruct (balloc_loop_spec s t (Z.to_nat (sb_size sb / BPB + 1)) 0 (Z.to_nat (sb_size sb / BPB + 2)))
    as [[Hall Hp]|Hc]; try done; try lia; try (unfold BPB, BSIZE in *; zlia).
  - left. split; [done|]. unfold balloc. mstep (eq_refl (get_sb s)). by rewrite Hsb.
  - right. unfold balloc. mstep (eq_refl (get_sb s)). by rewrite Hsb.
Qed.

Lemma in_use_meta view b home :
  fs_geom sb home → meta_used sb view → 0 ≤ b < sb_size sb → in_use sb view b = false → data_start sb ≤ b.
Proof. intros Hg Hm Hb Hf. destruct (decide (b < data_start sb)); [|lia]. rewrite Hm in Hf by lia. done. Qed.

Lemma in_use_alloc view home c b :
  fs_geom sb home → meta_used sb view → (∀ b, home b → block_ok (view b)) →
  0 ≤ c < sb_size sb → in_use sb view c = false → 0 ≤ b < sb_size sb →
  in_use sb (alloc_view view c) b = (b =? c) || in_use sb view b.
Proof.
  intros Hg Hm Hok Hc Hf Hb. pose proof (in_use_meta _ _ _ Hg Hm Hc Hf) as Hd.
  destruct (bblock sb home b Hg Hb) as (_ & _ & Hlt), (bblock sb home c Hg Hc) as (_ & Hhc & _).
  unfold alloc_view. rewrite in_use_other by lia.
  assert (∀ x, 0 ≤ x mod BPB < BPB) as Hmod by (intros x; apply Z.mod_pos_bound; done).
  rewrite (in_use_upd sb home view c b _ Hg Hc Hb).
  - destruct (Z.eqb_spec b c) as [->|]; [|done]. rewrite bit_set; [|done|done|by apply Hok].
    by rewrite Z.eqb_refl.
  - intros bi Hbi Hne. rewrite bit_set; [|done|done|by apply Hok]. by destruct (Z.eqb_spec (c mod BPB) bi).
Qed.

Definition free_view (view : Z → block) (b : Z) : Z → block :=
  upd view (BBLOCK b sb) (clear_bit (view (BBLOCK b sb)) (b mod BPB)).
Definition tx_free t (b : Z) : tx :=
  tx_put t (BBLOCK b sb) (clear_bit (t_view t (BBLOCK b sb)) (b mod BPB)).

Lemma in_use_free view home c b :
  fs_geom sb home → (∀ b, home b → block_ok (view b)) →
  0 ≤ c < sb_size sb → 0 ≤ b < sb_size sb →
  in_use sb (free_view view c) b = negb (b =? c) && in_use sb view b.
Proof.
  intros Hg Hok Hc Hb. destruct (bblock sb home c Hg Hc) as (_ & Hhc & _).
  assert (∀ x, 0 ≤ x mod BPB < BPB) as Hmod by (intros x; apply Z.mod_pos_bound; done).
  unfold free_view. rewrite (in_use_upd sb home view c b _ Hg Hc Hb).
  - destruct (Z.eqb_spec b c) as [->|]; [|done]. rewrite bit_clear; [|done|done|by apply Hok].
    by rewrite Z.eqb_refl.
  - intros bi Hbi Hne. rewrite bit_clear; [|done|done|by apply Hok]. by destruct (Z.eqb_spec (c mod BPB) bi).
Qed.

Lemma bfree_spec s t b :
  fs_geom sb (t_home t) → f_sb s = sb → 0 ≤ b < sb_size sb → t_held t !! BBLOCK b sb = None →
  tx_rel (f_tx s) t → log_room t 1 →
  (in_use sb (t_view t) b = true → ∃ x, bfree ROOTDEV b s = Ret () (with_tx s x) ∧ tx_rel x (tx_free t b)) ∧
  (in_use sb (t_view t) b = false → bfree ROOTDEV b s = Panic "bfree: freeing a free block").
Proof.
  intros Hg Hsb Hb Hnh Hr Hroom. destruct (bblock sb _ b Hg Hb) as (_ & Hhome & _).
  destruct (log_room_1 _ _ Hroom) as [Hl1 Hr1].
  destruct (fs_update s t (BBLOCK b sb)) as (i & x & H1 & H2 & H3); try done.
  unfold bfree. mstep (eq_refl (get_sb s)). rewrite Hsb. mstep H1. mstep H2.
  unfold in_use. split; intros ->; [|done].
  destruct (H3 (clear_bit (t_view t (BBLOCK b sb)) (b mod BPB))) as (x1 & x2 & x3 & E1 & E2 & E3 & Hr3).
  { unfold block_ok, clear_bit. rewrite length_set_byte. by eapply tx_view_ok. }
  exists x3. split; [|done]. mstep E1. by mstep E2.
Qed.
End Alloc.

Section Allocate.
Context {T : Type} `{Txn T} (sb : superblock).
Implicit Types (s : fs T) (t : tx).

(** The transaction can allocate: [sb] is the layout of the disk. *)
Record alloc_ok s t : Prop := {
  ao_sb : f_sb s = sb;
  ao_geom : fs_geom sb (t_home t);
  ao_meta : meta_used sb (t_view t);
  ao_unheld : free_unheld sb t;
  ao_rel : tx_rel (f_tx s) t;
}.

(** Block [c] has been allocated, and nothing else has changed. *)
Record allocated s t (c : Z) s' t' : Prop := {
  al_ok : alloc_ok s' t';
  al_icache : f_icache s' = f_icache s;
  al_held : t_held t' = t_held t;
  al_cap : t_cap t' = t_cap t;
  al_home : t_home t' = t_home t;
  al_log : (length (t_log t') ≤ length (t_log t) + 2)%nat;
  al_logged b : b ∈ t_log t ∨ b = c → b ∈ t_log t';
  al_range : data_start sb ≤ c < sb_size sb;
  al_free : in_use sb (t_view t) c = false;
  al_lowest b : 0 ≤ b < c → in_use sb (t_view t) b = true;
  al_zero : t_view t' c = replicate (Z.to_nat BSIZE) 0;
  al_use b : 0 ≤ b < sb_size sb → in_use sb (t_view t') b = (b =? c) || in_use sb (t_view t) b;
  al_view b : b ≠ c → b ≠ BBLOCK c sb → t_view t' b = t_view t b;
}.

Lemma balloc_ok s t :
  alloc_ok s t → log_room t 2 →
  ((∀ b, 0 ≤ b < sb_size sb → in_use sb (t_view t) b = true) ∧
   balloc ROOTDEV s = Panic "balloc: out of blocks") ∨
  ∃ b s' t', balloc ROOTDEV s = Ret b s' ∧ allocated s t b s' t'.
Proof.
  intros [Hsb Hg Hm Hfu Hr] Hroom.
  destruct (balloc_spec sb s t Hg Hm Hfu Hsb Hr Hroom) as [?|(b & x & Hrun & Hb & Hf & Hlow & Hx)]; [by left|right].
  assert (∀ c, 0 ≤ c < sb_size sb → in_use sb (alloc_view sb (t_view t) b) c = (c =? b) || in_use sb (t_view t) c)
    as Hiu by (intros c Hc; eapply in_use_alloc; eauto using tx_view_ok).
  pose proof (in_use_meta sb _ _ _ Hg Hm Hb Hf).
  exists b, (with_tx s x), (tx_alloc sb t b). split; [done|].
  split; [|done|done|done|done| | |lia|done|done|by cbn; rewrite upd_eq|exact Hiu|].
  - split; [done|done| | |done].
    + intros c Hc Hcs. change (in_use sb (alloc_view sb (t_view t) b) c = true). rewrite Hiu by lia.
      rewrite Hm by lia. apply orb_true_r.
    + intros c Hc. destruct (Hfu c Hc) as [Hf1 Hf2]. split; [exact Hf1|]. intros Hcf. apply Hf2.
      change (in_use sb (alloc_view sb (t_view t) b) c = false) in Hcf. rewrite Hiu in Hcf by done.
      by apply orb_false_iff in Hcf as [_ ?].
  - cbn. pose proof (logged_length (t_log t) (BBLOCK b sb)).
    pose proof (logged_length (logged (t_log t) (BBLOCK b sb)) b). lia.
  - intros c Hc. cbn. rewrite !logged_elem. destruct Hc as [?| ->]; auto.
  - intros c Hc1 Hc2. cbn. by rewrite !upd_ne.
Qed.
End Allocate.

Section Theorems.
Context {T : Type} `{Txn T} (sb : superblock).
Implicit Types (s : fs T) (t : tx).

(** C26: [balloc] returns the first block that the bitmap marks free, never a
    block of the log, of the inodes or of the bitmap; the block is now marked
    in use and zero, every other block of the disk is in the state it was and,
    but for the one bitmap block, has its contents; and at most two blocks are
    added to the log.  When every block is in use [balloc] panics. *)
Theorem balloc_correct s t :
  alloc_ok sb s t → log_room t 2 →
  ((∀ b, 0 ≤ b < sb_size sb → in_use sb (t_view t) b = true) ∧
   balloc ROOTDEV s = Panic "balloc: out of blocks") ∨
  ∃ b s' t', balloc ROOTDEV s = Ret b s' ∧ alloc_ok sb s' t' ∧ f_icache s' = f_icache s ∧
    t_held t' = t_held t ∧ (length (t_log t') ≤ length (t_log t) + 2)%nat ∧
    data_start sb ≤ b < sb_size sb ∧
    in_use sb (t_view t) b = false ∧ (∀ c, 0 ≤ c < b → in_use sb (t_view t) c = true) ∧
    t_view t' b = replicate (Z.to_nat BSIZE) 0 ∧
    (∀ c, 0 ≤ c < sb_size sb → in_use sb (t_view t') c = (c =? b) || in_use sb (t_view t) c) ∧
    ∀ c, c ≠ b → c ≠ BBLOCK b sb → t_view t' c = t_view t c.
Proof.
  intros Hok Hroom. destruct (balloc_ok sb s t Hok Hroom) as [?|(b & s' & t' & Hrun & Ha)]; [by left|right].
  exists b, s', t'. destruct Ha. split_and!; try (done || lia).
Qed.

(** [bfree] clears the mark of its block and nothing else, so that a
    [balloc] that follows finds it again; it panics on a free block. *)
Theorem bfree_correct s t b :
  alloc_ok sb s t → log_room t 1 → 0 ≤ b < sb_size sb →
  (in_use sb (t_view t) b = false → bfree ROOTDEV b s = Panic "bfree: freeing a free block") ∧
  (in_use sb (t_view t) b = true →
   ∃ s' t', bfree ROOTDEV b s = Ret () s' ∧ f_sb s' = sb ∧ f_icache s' = f_icache s ∧
     tx_rel (f_tx s') t' ∧ t_held t' = t_held t ∧ (length (t_log t') ≤ length (t_log t) + 1)%nat ∧
     (∀ c, 0 ≤ c < sb_size sb → in_use sb (t_view t') c = negb (c =? b) && in_use sb (t_view t) c) ∧
     (∀ c, c ≠ BBLOCK b sb → t_view t' c = t_view t c) ∧
     (data_start sb ≤ b → t_held t !! b = None → alloc_ok sb s' t')).
Proof.
  intros [Hsb Hg Hm Hfu Hr] Hroom Hb.
  destruct (bfree_spec sb s t b Hg Hsb Hb (proj1 (Hfu b Hb)) Hr Hroom) as [Hused Hfree].
  split; [done|]. intros Hu. destruct (Hused Hu) as (x & Hrun & Hx).
  assert (∀ c, 0 ≤ c < sb_size sb → in_use sb (free_view sb (t_view t) b) c = negb (c =? b) && in_use sb (t_view t) c)
    as Hiu by (intros c Hc; eapply in_use_free; eauto using tx_view_ok).
  exists (with_tx s x), (tx_free sb t b). split; [done|]. split; [done|]. split; [done|]. split; [done|].
  split; [done|]. split.
  { cbn. pose proof (logged_length (t_log t) (BBLOCK b sb)). lia. }
  split; [exact Hiu|]. split; [intros c Hc; cbn; by rewrite upd_ne|].
  intros Hd Hnh. split; [done|done| | |done].
  - intros c Hc Hcs. change (in_use sb (free_view sb (t_view t) b) c = true). rewrite Hiu by lia.
    destruct (Z.eqb_spec c b); [lia|]. by rewrite Hm by lia.
  - intros c Hc. destruct (Hfu c Hc) as [Hf1 Hf2]. split; [exact Hf1|]. intros Hcf.
    change (in_use sb (free_view sb (t_view t) b) c = false) in Hcf. rewrite Hiu in Hcf by done.
    destruct (Z.eqb_spec c b) as [->|]; [done|]. by apply Hf2.
Qed.
End Theorems.
