(* ===== verification/FsInode.v ===== *)
(** Inodes: the on-disk format, the inode cache and [iget], [ilock],
    [iupdate], [idup], [iunlock] of kern/fs.c. *)

From S2P Require Import Prelude Sleeplock BufferCache Superblock Log LogOps Txn Fs FsAlloc.

(** ** The on-disk inode *)

(** The fields fit their C types. *)
Record inode_fits (ip : inode) : Prop := {
  fit_type : 0 ≤ i_type ip < 2 ^ 16;
  fit_major : 0 ≤ i_major ip < 2 ^ 16;
  fit_minor : 0 ≤ i_minor ip < 2 ^ 16;
  fit_nlink : 0 ≤ i_nlink ip < 2 ^ 16;
  fit_size : 0 ≤ i_size ip < 2 ^ 32;
  fit_addrs : Forall (λ a, 0 ≤ a < 2 ^ 32) (i_addrs ip);
  fit_len : length (i_addrs ip) = 13%nat;
}.

Lemma get16_put16_ne d o o' v :
  (o + 2 ≤ length d)%nat → (o' + 2 ≤ o ∨ o + 2 ≤ o')%nat → get16 (put16 d o v) o' = get16 d o'.
Proof. intros. unfold get16, put16. by rewrite slice_splice_ne by (rewrite length_bytes_of; lia). Qed.

Lemma get16_put32_ne d o o' v :
  (o + 4 ≤ length d)%nat → (o' + 2 ≤ o ∨ o + 4 ≤ o')%nat → get16 (put32 d o v) o' = get16 d o'.
Proof. intros. unfold get16, put32. by rewrite slice_splice_ne by (rewrite length_bytes_of; lia). Qed.

Lemma get32_put16_ne d o o' v :
  (o + 2 ≤ length d)%nat → (o' + 4 ≤ o ∨ o + 2 ≤ o')%nat → get32 (put16 d o v) o' = get32 d o'.
Proof. intros. unfold get32, put16. by rewrite slice_splice_ne by (rewrite length_bytes_of; lia). Qed.

(** Lengths of edited blocks. *)
Ltac blen :=
  first [lia
        |(first [rewrite length_put_words|rewrite length_put32|rewrite length_put16|rewrite length_splice
                |rewrite length_bytes_of|rewrite length_replicate]); blen].

(** A range of the block outside the words written. *)
Lemma slice_put_words_ne l : ∀ d o o' k,
  (o + 4 * length l ≤ length d)%nat → (o' + k ≤ o ∨ o + 4 * length l ≤ o')%nat →
  slice (put_words d o l) o' k = slice d o' k.
Proof.
  induction l as [|v l IH]; intros d o o' k Hl Ho; cbn [put_words length] in *; [done|].
  rewrite IH by (rewrite ?length_put32; lia). unfold put32.
  by rewrite slice_splice_ne by (rewrite length_bytes_of; lia).
Qed.

Lemma get16_put_words_ne d o l o' :
  (o + 4 * length l ≤ length d)%nat → (o' + 2 ≤ o ∨ o + 4 * length l ≤ o')%nat →
  get16 (put_words d o l) o' = get16 d o'.
Proof. intros. unfold get16. by rewrite slice_put_words_ne. Qed.

Lemma get32_put_words_ne d o l o' :
  (o + 4 * length l ≤ length d)%nat → (o' + 4 ≤ o ∨ o + 4 * length l ≤ o')%nat →
  get32 (put_words d o l) o' = get32 d o'.
Proof. intros. unfold get32. by rewrite slice_put_words_ne. Qed.

(** Reading a field of an edited block. *)
Ltac bget :=
  repeat first [rewrite get16_put16 by blen|rewrite get32_put32 by blen
               |rewrite get16_put_words_ne by blen|rewrite get32_put_words_ne by blen
               |rewrite get16_put16_ne by blen|rewrite get16_put32_ne by blen
               |rewrite get32_put16_ne by blen|rewrite get32_put32_ne by blen].

Lemma get_u32s_ext d d' o k :
  (∀ j, (j < k)%nat → get32 d' (o + 4 * j) = get32 d (o + 4 * j)) → get_u32s d' o k = get_u32s d o k.
Proof.
  revert o. induction k as [|k IH]; intros o Hd; cbn [get_u32s]; [done|]. f_equal.
  - specialize (Hd 0%nat ltac:(lia)). by rewrite Nat.mul_0_r, Nat.add_0_r in Hd.
  - apply IH. intros j Hj. specialize (Hd (S j) ltac:(lia)).
    by replace (o + 4 * S j)%nat with (o + 4 + 4 * j)%nat in Hd by lia.
Qed.

Lemma get_u32s_put_words l : ∀ d o,
  (o + 4 * length l ≤ length d)%nat → Forall (λ a, 0 ≤ a < 2 ^ 32) l →
  get_u32s (put_words d o l) o (length l) = l.
Proof.
  induction l as [|v l IH]; intros d o Hl Hf; cbn [put_words length get_u32s] in *; [done|].
  apply Forall_cons in Hf as [Hv Hf]. f_equal.
  - unfold get32. rewrite slice_put_words_ne by (rewrite ?length_put32; lia).
    change (get32 (put32 d o v) o = v). rewrite get32_put32 by lia. by apply w32_small.
  - apply IH; [rewrite length_put32; lia|done].
Qed.

Lemma dinode_off_range inum : (dinode_off inum + 64 ≤ Z.to_nat BSIZE)%nat.
Proof. unfold dinode_off, IPB, BSIZE. change (512 / 64) with 8. zlia. Qed.

Lemma dinode_off_ne inum inum' :
  inum mod IPB ≠ inum' mod IPB →
  (dinode_off inum + 64 ≤ dinode_off inum' ∨ dinode_off inum' + 64 ≤ dinode_off inum)%nat.
Proof. unfold dinode_off, IPB, BSIZE. change (512 / 64) with 8. zlia. Qed.

Lemma length_store_dinode ip d :
  length d = Z.to_nat BSIZE → length (i_addrs ip) = 13%nat → length (store_dinode ip d) = Z.to_nat BSIZE.
Proof.
  intros Hd Ha. pose proof (dinode_off_range (i_inum ip)). unfold store_dinode. blen.
Qed.

(** Only the 64 bytes of the inode change. *)
Lemma slice_store_dinode ip d o k :
  length d = Z.to_nat BSIZE → length (i_addrs ip) = 13%nat →
  (o + k ≤ dinode_off (i_inum ip) ∨ dinode_off (i_inum ip) + 64 ≤ o)%nat →
  slice (store_dinode ip d) o k = slice d o k.
Proof.
  intros Hd Ha Ho. pose proof (dinode_off_range (i_inum ip)). unfold store_dinode, put16, put32.
  rewrite slice_put_words_ne by blen. by rewrite !slice_splice_ne by blen.
Qed.

(** Reading back what [iupdate] stored. *)
Lemma load_store_dinode ip jp d :
  block_ok d → inode_fits ip → i_inum jp = i_inum ip →
  load_dinode (store_dinode ip d) jp =
    Inode (i_dev jp) (i_inum jp) (i_ref jp) (i_lock jp) (i_valid jp) (i_type ip) (i_major ip)
          (i_minor ip) (i_nlink ip) (i_size ip) (i_addrs ip).
Proof.
  unfold block_ok. intros Hd [] He. pose proof (dinode_off_range (i_inum ip)).
  unfold load_dinode, store_dinode. rewrite He. set (o := dinode_off (i_inum ip)) in *.
  f_equal.
  - bget. by apply Z.mod_small.
  - bget. by apply Z.mod_small.
  - bget. by apply Z.mod_small.
  - bget. by apply Z.mod_small.
  - bget. by apply Z.mod_small.
  - rewrite <-fit_len0. apply get_u32s_put_words; [blen|done].
Qed.

(** Another inode of the block, or of another block, reads as before. *)
Lemma load_store_other ip jp d :
  block_ok d → length (i_addrs ip) = 13%nat → i_inum jp mod IPB ≠ i_inum ip mod IPB →
  load_dinode (store_dinode ip d) jp = load_dinode d jp ∧
  dinode_type (store_dinode ip d) (i_inum jp) = dinode_type d (i_inum jp).
Proof.
  intros Hd Ha Hne. pose proof (dinode_off_ne _ _ Hne).
  assert (∀ o k, (dinode_off (i_inum jp) ≤ o)%nat → (o + k ≤ dinode_off (i_inum jp) + 64)%nat →
    slice (store_dinode ip d) o k = slice d o k) as Hs.
  { intros o k Ho Hk. apply slice_store_dinode; [done|done|lia]. }
  unfold load_dinode, dinode_type, get16, get32. rewrite !Hs by lia. split; [|done]. f_equal.
  apply get_u32s_ext. intros j Hj. unfold get32. f_equal. apply Hs; lia.
Qed.

(** ** The inode cache *)

Definition holds (ip : inode) (dev inum : Z) : Prop :=
  0 < i_ref ip ∧ i_dev ip = dev ∧ i_inum ip = inum.

Lemma iget_scan_spec n : ∀ i empty ic dev inum,
  match iget_scan n i empty ic dev inum with
  | inl j => i ≤ j < i + Z.of_nat n ∧ holds (ic j) dev inum ∧
             ∀ k, i ≤ k < j → ¬ holds (ic k) dev inum
  | inr e => (∀ k, i ≤ k < i + Z.of_nat n → ¬ holds (ic k) dev inum) ∧
      match empty, e with
      | Some e0, _ => e = Some e0
      | None, Some j => i ≤ j < i + Z.of_nat n ∧ i_ref (ic j) = 0 ∧ ∀ k, i ≤ k < j → i_ref (ic k) ≠ 0
      | None, None => ∀ k, i ≤ k < i + Z.of_nat n → i_ref (ic k) ≠ 0
      end
  end.
Proof.
  induction n as [|n IH]; intros i empty ic dev inum; cbn [iget_scan].
  { split; [lia|]. destruct empty; [done|lia]. }
  assert ((0 <? i_ref (ic i)) && (i_dev (ic i) =? dev) && (i_inum (ic i) =? inum) = true ↔ holds (ic i) dev inum) as Hh
    by (unfold holds; rewrite !andb_true_iff, Z.ltb_lt, !Z.eqb_eq; tauto).
  destruct (_ && _) eqn:Hc.
  { split; [lia|]. split; [by apply Hh|lia]. }
  assert (¬ holds (ic i) dev inum) as Hno by (intros ?%Hh; done).
  specialize (IH (i + 1) (match empty with Some e => Some e | None => if i_ref (ic i) =? 0 then Some i else None end)
    ic dev inum). destruct (iget_scan n _ _ _ _ _) as [j|e].
  - destruct IH as (Hj & Hh' & Hk). split; [lia|]. split; [done|]. intros k Hk'.
    destruct (decide (k = i)) as [->|]; [done|]. apply Hk. lia.
  - destruct IH as (Hk & He). split.
    { intros k Hk'. destruct (decide (k = i)) as [->|]; [done|]. apply Hk. lia. }
    destruct empty as [e0|]; [done|]. destruct (Z.eqb_spec (i_ref (ic i)) 0) as [H0|H0].
    + rewrite He. split; [lia|]. split; [done|lia].
    + destruct e as [j|].
      * destruct He as (Hj & Hr & Hlt). split; [lia|]. split; [done|]. intros k Hk'.
        destruct (decide (k = i)) as [->|]; [done|]. apply Hlt. lia.
      * intros k Hk'. destruct (decide (k = i)) as [->|]; [done|]. apply He. lia.
Qed.

(** Each on-disk inode has one entry at most, and counts are not negative. *)
Record icache_ok (ic : Z → inode) : Prop := {
  ico_ref i : 0 ≤ i < NINODE → 0 ≤ i_ref (ic i);
  ico_uniq i j : 0 ≤ i < NINODE → 0 ≤ j < NINODE → 0 < i_ref (ic i) → 0 < i_ref (ic j) →
    i_dev (ic i) = i_dev (ic j) → i_inum (ic i) = i_inum (ic j) → i = j;
}.

Section Inode.
Context {T : Type} `{Txn T} (sb : superblock) (pid : Z).
Implicit Types (s : fs T) (t : tx).

Definition with_ic s (ic : Z → inode) : fs T := Fs (f_sb s) ic (f_tx s).

(** The entry [iget] gives to an inode that is not cached. *)
Definition fresh_entry (ip : inode) (dev inum : Z) : inode :=
  Inode dev inum 1 (i_lock ip) 0 (i_type ip) (i_major ip) (i_minor ip) (i_nlink ip) (i_size ip) (i_addrs ip).

Lemma iget_spec s dev inum :
  icache_ok (f_icache s) →
  (∃ i, 0 ≤ i < NINODE ∧ holds (f_icache s i) dev inum ∧
     iget dev inum s =
       Ret i (with_ic s (upd (f_icache s) i (with_ref (f_icache s i) (i_ref (f_icache s i) + 1))))) ∨
  (∀ k, 0 ≤ k < NINODE → ¬ holds (f_icache s k) dev inum) ∧
  ((∃ i, 0 ≤ i < NINODE ∧ i_ref (f_icache s i) = 0 ∧ (∀ k, 0 ≤ k < i → 0 < i_ref (f_icache s k)) ∧
     iget dev inum s = Ret i (with_ic s (upd (f_icache s) i (fresh_entry (f_icache s i) dev inum)))) ∨
   (∀ k, 0 ≤ k < NINODE → 0 < i_ref (f_icache s k)) ∧ iget dev inum s = Panic "iget: no inodes").
Proof.
  intros Hok. unfold iget. mstep (eq_refl (gets f_icache s)).
  pose proof (iget_scan_spec (Z.to_nat NINODE) 0 None (f_icache s) dev inum) as Hs.
  change (0 + Z.of_nat (Z.to_nat NINODE)) with NINODE in Hs.
  destruct (iget_scan _ _ _ _ _ _) as [j|[j|]].
  - left. exists j. destruct Hs as (Hj & Hh & _). by split.
  - right. destruct Hs as (Hk & Hj & Hr & Hlt). split; [done|]. left. exists j. split; [done|]. split; [done|].
    split; [|done]. intros k Hk'. pose proof (ico_ref _ Hok k ltac:(lia)). specialize (Hlt k Hk'). lia.
  - right. destruct Hs as (Hk & Hlt). split; [done|]. right. split; [|done]. intros k Hk'.
    pose proof (ico_ref _ Hok k Hk'). specialize (Hlt k Hk'). lia.
Qed.

(** Changes of one entry that keep the cache well formed. *)
Lemma icache_ok_upd ic i ip :
  icache_ok ic → 0 ≤ i < NINODE → 0 ≤ i_ref ip →
  (0 < i_ref ip → ∀ j, 0 ≤ j < NINODE → j ≠ i → 0 < i_ref (ic j) →
     ¬ (i_dev (ic j) = i_dev ip ∧ i_inum (ic j) = i_inum ip)) →
  icache_ok (upd ic i ip).
Proof.
  intros [Hr Hu] Hi Hp Hn. split.
  - intros j Hj. rewrite upd_case. case_decide; [done|]. by apply Hr.
  - intros j k Hj Hk. rewrite !upd_case. repeat case_decide; subst; [done| | |by apply Hu].
    + intros Hr1 Hr2 Hd1 Hd2. exfalso. by apply (Hn Hr1 k).
    + intros Hr1 Hr2 Hd1 Hd2. exfalso. by apply (Hn Hr2 j).
Qed.

Lemma icache_ok_same ic i ip :
  icache_ok ic → 0 ≤ i < NINODE → 0 < i_ref (ic i) → 0 ≤ i_ref ip →
  i_dev ip = i_dev (ic i) → i_inum ip = i_inum (ic i) → icache_ok (upd ic i ip).
Proof.
  intros Hok Hi Hr Hr' Hd Hn. apply icache_ok_upd; try done.
  intros _ j Hj Hne Hrj [H1 H2]. apply Hne. apply (ico_uniq _ Hok); congruence.
Qed.

Lemma iget_icache_ok s dev inum i s' :
  icache_ok (f_icache s) → iget dev inum s = Ret i s' →
  icache_ok (f_icache s') ∧ 0 ≤ i < NINODE ∧ holds (f_icache s' i) dev inum ∧
  f_sb s' = f_sb s ∧ f_tx s' = f_tx s ∧ (∀ j, j ≠ i → f_icache s' j = f_icache s j) ∧
  i_lock (f_icache s' i) = i_lock (f_icache s i).
Proof.
  intros Hok Hrun.
  destruct (iget_spec s dev inum Hok) as [(j & Hj & (Hr & <- & <-) & H1)|(Hno & [(j & Hj & Hr & _ & H1)|(_ & H1)])];
    rewrite H1 in Hrun; [injection Hrun as <- <-|injection Hrun as <- <-|done]; cbn.
  - split; [apply icache_ok_same; cbn; (done || lia)|]. split; [done|]. rewrite upd_eq.
    split; [split; cbn; [lia|done]|]. split; [done|]. split; [done|]. split; [|done].
    intros k Hk. by apply upd_ne.
  - split.
    { apply icache_ok_upd; cbn; [done|done|lia|]. intros _ k Hk Hne Hrk [Hd Hn]. by apply (Hno k Hk). }
    split; [done|]. rewrite upd_eq. split; [split; cbn; [lia|done]|]. split; [done|]. split; [done|].
    split; [|done]. intros k Hk. by apply upd_ne.
Qed.

(** ** Reading and writing back *)

Lemma iblock home inum :
  fs_geom sb home → 0 ≤ inum < sb_ninodes sb →
  IBLOCK inum sb = sb_inodestart sb + inum / IPB ∧ home (IBLOCK inum sb) ∧
  sb_inodestart sb ≤ IBLOCK inum sb < sb_bmapstart sb.
Proof.
  intros [Hn [Hi1 Hi2] Hb Hs Hh] Hr. unfold IBLOCK, IPB, BPB, BSIZE in *. change (512 / 64) with 8 in *.
  assert (inum / 8 ≤ sb_ninodes sb / 8) by (apply Z.div_le_mono; lia).
  assert (0 ≤ inum / 8) by (apply Z.div_pos; lia).
  assert (sb_bmapstart sb < sb_size sb).
  { assert (0 ≤ sb_size sb / (512 * 8) ∨ sb_size sb < 0) as [?|?] by (change (512 * 8) with 4096; zlia); [lia|].
    assert (sb_bmapstart sb + sb_size sb / (512 * 8) < sb_size sb) by done.
    change (512 * 8) with 4096 in *. zlia. }
  rewrite w32_small by lia. split; [lia|]. split; [apply Hh; lia|lia].
Qed.

(** Two inodes of the same block have different offsets in it. *)
Lemma iblock_offset home i j :
  fs_geom sb home → 0 ≤ i < sb_ninodes sb → 0 ≤ j < sb_ninodes sb → i ≠ j →
  IBLOCK i sb = IBLOCK j sb → i mod IPB ≠ j mod IPB.
Proof.
  intros Hg Hi Hj Hne He. destruct (iblock home i Hg Hi) as [Ei _], (iblock home j Hg Hj) as [Ej _].
  unfold IPB, BSIZE in *. change (512 / 64) with 8 in *. zlia.
Qed.

(** The inode cache entry [ip] is for an inode of the disk. *)
Definition on_disk (ip : inode) : Prop := i_dev ip = ROOTDEV ∧ 0 ≤ i_inum ip < sb_ninodes sb.

(** What the disk says about the inode of [ip]. *)
Definition disk_inode (view : Z → block) (ip : inode) : inode :=
  load_dinode (view (IBLOCK (i_inum ip) sb)) ip.

Definition tx_iupdate t (ip : inode) : tx :=
  let b := IBLOCK (i_inum ip) sb in tx_put t b (store_dinode ip (t_view t b)).

Lemma iupdate_spec s t i :
  let ip := f_icache s i in
  f_sb s = sb → fs_geom sb (t_home t) → tx_rel (f_tx s) t → on_disk ip → length (i_addrs ip) = 13%nat →
  t_held t !! IBLOCK (i_inum ip) sb = None → log_room t 1 →
  ∃ x, iupdate i s = Ret () (with_tx s x) ∧ tx_rel x (tx_iupdate t ip).
Proof.
  intros ip Hsb Hg Hr [Hd Hn] Ha Hnh Hroom. destruct (iblock _ _ Hg Hn) as (_ & Hhome & _).
  destruct (log_room_1 _ _ Hroom) as [Hl1 Hr1].
  destruct (fs_update s t (IBLOCK (i_inum ip) sb)) as (bp & x & E1 & E2 & E3); try done.
  destruct (E3 (store_dinode ip (t_view t (IBLOCK (i_inum ip) sb)))) as (x1 & x2 & x3 & E4 & E5 & E6 & Hr3).
  { apply length_store_dinode; [by eapply tx_view_ok|done]. }
  exists x3. split; [|done]. unfold iupdate. mstep (eq_refl (get_inode i s)). fold ip.
  mstep (eq_refl (get_sb s)). rewrite Hsb, Hd. mstep E1. mstep E2. mstep E4. by mstep E5.
Qed.

Lemma disk_inode_other view home ip jp :
  fs_geom sb home → on_disk ip → on_disk jp → i_inum jp ≠ i_inum ip → length (i_addrs ip) = 13%nat →
  block_ok (view (IBLOCK (i_inum ip) sb)) →
  let view' := upd view (IBLOCK (i_inum ip) sb) (store_dinode ip (view (IBLOCK (i_inum ip) sb))) in
  disk_inode view' jp = disk_inode view jp.
Proof.
  intros Hg [_ Hi] [_ Hj] Hne Ha Hok view'. unfold disk_inode, view'. rewrite upd_case. case_decide as Hb; [|done].
  rewrite Hb. apply load_store_other; [done|done|]. by eapply iblock_offset.
Qed.

(** [ilock] of an inode that nobody has locked. *)
Lemma ilock_spec s t i :
  let ip := f_icache s i in
  0 ≤ i < NINODE → 0 < i_ref ip → sl_locked (i_lock ip) = 0 →
  let locked := with_ilock ip (mkSleeplock 1 pid) in
  (i_valid ip ≠ 0 → ilock pid i s = Ret () (with_ic s (upd (f_icache s) i locked))) ∧
  (i_valid ip = 0 → f_sb s = sb → fs_geom sb (t_home t) → tx_rel (f_tx s) t → on_disk ip →
   t_held t !! IBLOCK (i_inum ip) sb = None → tx_room t 1 →
   let dip := disk_inode (t_view t) locked in
   if i_type dip =? 0 then ilock pid i s = Panic "ilock: no type"
   else ∃ ic x, ilock pid i s = Ret () (Fs (f_sb s) ic x) ∧ tx_rel x t ∧
          ic i = with_valid dip 1 ∧ ∀ j, j ≠ i → ic j = f_icache s j).
Proof.
  intros ip Hi Href Hfree locked.
  assert (null_inode i = false ∧ (i_ref ip <? 1) = false) as [Hn Hn1].
  { unfold null_inode. destruct (Z.leb_spec 0 i), (Z.ltb_spec i NINODE), (Z.ltb_spec (i_ref ip) 1); (done || lia). }
  assert (with_inode_lock i (acquiresleep pid i) s = Ret () (with_ic s (upd (f_icache s) i locked))) as Hl.
  { unfold with_inode_lock, acquiresleep. fold ip. by rewrite Hfree. }
  assert (ilock pid i s = when (i_valid ip =? 0) (sb ← get_sb;
      bp ← Fs.bread (i_dev ip) (IBLOCK (i_inum ip) sb);
      d ← bdata bp;
      put_inode i (load_dinode d locked) ;;
      Fs.brelse bp ;;
      ip ← get_inode i;
      put_inode i (with_valid ip 1) ;;
      when (i_type ip =? 0) (panic "ilock: no type")) (with_ic s (upd (f_icache s) i locked))) as Hrun.
  { unfold ilock. mstep (eq_refl (get_inode i s)). fold ip. rewrite Hn, Hn1. mstep Hl.
    mstep (eq_refl (get_inode i (with_ic s (upd (f_icache s) i locked)))). cbn [f_icache with_ic].
    by rewrite upd_eq. }
  rewrite Hrun. split; [intros Hv; by destruct (Z.eqb_spec (i_valid ip) 0)|].
  intros Hv Hsb Hg Hr [Hd Hnum] Hnh Hroom dip. rewrite Hv. cbn [when Z.eqb].
  set (s1 := with_ic s (upd (f_icache s) i locked)).
  destruct (iblock _ _ Hg Hnum) as (_ & Hhome & _).
  destruct (fs_read s1 t (IBLOCK (i_inum ip) sb)) as (bp & x & x' & E1 & E2 & E3 & Hr3); try done.
  change (load_dinode (t_view t (IBLOCK (i_inum ip) sb)) locked) with dip in *.
  set (s2 := Fs (f_sb s) (upd (upd (f_icache s) i locked) i dip) x).
  set (s3 := Fs (f_sb s) (upd (upd (f_icache s) i locked) i dip) x').
  assert (∀ A (k : () → M (fs T) A), (bp ← Fs.bread ROOTDEV (IBLOCK (i_inum ip) sb);
      d ← bdata bp;
      put_inode i (load_dinode d locked) ;;
      u ← Fs.brelse bp; k u) s1 = k () s3) as Hload.
  { intros A k. mstep E1. mstep E2. mstep (eq_refl (put_inode i dip (with_tx s1 x))).
    by mstep (E3 s2 eq_refl). }
  mstep (eq_refl (get_sb s1)). change (f_sb s1) with (f_sb s). rewrite Hsb, Hd, Hload.
  mstep (eq_refl (get_inode i s3)). cbn [f_icache s3]. rewrite upd_eq.
  mstep (eq_refl (put_inode i (with_valid dip 1) s3)).
  change (i_type (with_valid dip 1)) with (i_type dip).
  destruct (Z.eqb_spec (i_type dip) 0); [done|].
  exists (upd (f_icache s3) i (with_valid dip 1)), x'. split; [by rewrite <-Hsb|]. split; [done|].
  split; [apply upd_eq|]. intros j Hj. cbn. by rewrite !upd_ne.
Qed.
End Inode.

Section Theorems.
Context {T : Type} `{Txn T} (sb : superblock) (pid : Z).
Implicit Types (s : fs T) (t : tx).

(** C27: [iget] keeps at most one cache entry per on-disk inode.  It returns
    the entry that holds the inode, counting one more reference and keeping
    what was read from disk; or else an entry nobody referenced, now marked
    not read; and it panics exactly when neither exists. *)
Theorem iget_correct s dev inum :
  icache_ok (f_icache s) →
  match iget dev inum s with
  | Ret i s' =>
    let old := f_icache s i in let new := f_icache s' i in
    0 ≤ i < NINODE ∧ icache_ok (f_icache s') ∧ f_tx s' = f_tx s ∧ f_sb s' = f_sb s ∧
    holds new dev inum ∧ (∀ j, j ≠ i → f_icache s' j = f_icache s j) ∧
    (holds old dev inum ∧ new = with_ref old (i_ref old + 1) ∨
     (∀ j, 0 ≤ j < NINODE → ¬ holds (f_icache s j) dev inum) ∧
     i_ref old = 0 ∧ i_ref new = 1 ∧ i_valid new = 0 ∧ i_lock new = i_lock old)
  | Panic _ => ∀ j, 0 ≤ j < NINODE → 0 < i_ref (f_icache s j) ∧ ¬ holds (f_icache s j) dev inum
  | _ => False
  end.
Proof.
  intros Hok. pose proof (iget_icache_ok s dev inum) as Hk.
  destruct (iget_spec s dev inum Hok) as [(i & Hi & Hh & Hrun)|(Hno & [(i & Hi & Hr & _ & Hrun)|(Hall & Hrun)])];
    rewrite Hrun in Hk |- *.
  - destruct (Hk i _ Hok eq_refl) as (? & ? & ? & ? & ? & ? & _). cbn zeta. split_and!; try (done || lia).
    left. split; [done|]. cbn. by rewrite upd_eq.
  - destruct (Hk i _ Hok eq_refl) as (? & ? & ? & ? & ? & ? & _). cbn zeta. split_and!; try (done || lia).
    right. split; [done|]. cbn. by rewrite upd_eq.
  - intros j Hj. split; [by apply Hall|by apply Hno].
Qed.

(** write-through of inodes.  After [iupdate], [ilock] of a cache entry
    for the same inode whose contents are not valid reads back every field
    that [iupdate] wrote, and panics if the type is 0; what the disk says of
    any other inode, and every other block, is unchanged. *)
Theorem iupdate_ilock s t i :
  let ip := f_icache s i in
  f_sb s = sb → fs_geom sb (t_home t) → tx_rel (f_tx s) t → on_disk sb ip → inode_fits ip →
  t_held t !! IBLOCK (i_inum ip) sb = None → log_room t 1 →
  ∃ s1 t1, iupdate i s = Ret () s1 ∧ f_sb s1 = sb ∧ f_icache s1 = f_icache s ∧ tx_rel (f_tx s1) t1 ∧
    t_held t1 = t_held t ∧
    (∀ c, c ≠ IBLOCK (i_inum ip) sb → t_view t1 c = t_view t c) ∧
    (∀ jp, on_disk sb jp → i_inum jp ≠ i_inum ip → disk_inode sb (t_view t1) jp = disk_inode sb (t_view t) jp) ∧
    ∀ s2 j, f_tx s2 = f_tx s1 → f_sb s2 = sb → 0 ≤ j < NINODE →
      let jp := f_icache s2 j in
      0 < i_ref jp → sl_locked (i_lock jp) = 0 → i_valid jp = 0 → on_disk sb jp → i_inum jp = i_inum ip →
      if i_type ip =? 0 then ilock pid j s2 = Panic "ilock: no type"
      else ∃ s3, ilock pid j s2 = Ret () s3 ∧ tx_rel (f_tx s3) t1 ∧
        f_icache s3 j = Inode ROOTDEV (i_inum ip) (i_ref jp) (mkSleeplock 1 pid) 1 (i_type ip) (i_major ip)
                              (i_minor ip) (i_nlink ip) (i_size ip) (i_addrs ip).
Proof.
  intros ip Hsb Hg Hr Hd Hfit Hnh Hroom.
  destruct (iupdate_spec sb s t i) as (x & Hrun & Hx); try done; [by apply Hfit|]. fold ip in Hrun, Hx.
  destruct (iblock sb _ _ Hg (proj2 Hd)) as (_ & Hhome & _).
  assert (block_ok (t_view t (IBLOCK (i_inum ip) sb))) as Hok by by eapply tx_view_ok.
  exists (with_tx s x), (tx_iupdate sb t ip). split; [done|]. split; [done|]. split; [done|]. split; [done|].
  split; [done|]. split; [intros c Hc; by apply upd_ne|]. split.
  { intros jp Hjd Hne. apply (disk_inode_other sb _ (t_home t)); try done. apply Hfit. }
  assert (tx_room (tx_iupdate sb t ip) 1) as Hroom2.
  { pose proof (log_room_put t (IBLOCK (i_inum ip) sb) (store_dinode ip (t_view t (IBLOCK (i_inum ip) sb))) 0 Hroom) as [_ ?].
    done. }
  intros s2 j Htx Hsb2 Hj jp Href Hfree Hv Hjd Hnum.
  destruct (ilock_spec sb pid s2 (tx_iupdate sb t ip) j Hj Href Hfree) as [_ Hl].
  fold jp in Hl. specialize (Hl Hv Hsb2 Hg ltac:(by rewrite Htx) Hjd).
  rewrite Hnum in Hl. specialize (Hl Hnh Hroom2). cbv zeta in Hl.
  assert (disk_inode sb (t_view (tx_iupdate sb t ip)) (with_ilock jp (mkSleeplock 1 pid)) =
    Inode (i_dev jp) (i_inum jp) (i_ref jp) (mkSleeplock 1 pid) (i_valid jp) (i_type ip) (i_major ip)
          (i_minor ip) (i_nlink ip) (i_size ip) (i_addrs ip)) as Heq.
  { unfold disk_inode. cbn [i_inum with_ilock]. rewrite Hnum. unfold tx_iupdate. cbn [t_view tx_put].
    rewrite upd_eq, load_store_dinode by done. cbn. by rewrite Hnum. }
  rewrite Heq in Hl. cbn [i_type] in Hl. destruct (i_type ip =? 0); [done|].
  destruct Hl as (ic & y & Hrun2 & Hy & Hic & _). exists (Fs (f_sb s2) ic y). split; [done|]. split; [done|].
  cbn [f_icache]. rewrite Hic. unfold with_valid. cbn. destruct Hjd as [-> _]. by rewrite Hnum.
Qed.
End Theorems.
