(* ===== verification/FsFile.v ===== *)
(** File contents: [bmap], [readi] and [writei] of kern/fs.c. *)

From S2P Require Import Prelude Sleeplock BufferCache Superblock Log LogOps Txn Fs FsAlloc FsInode.

(** ** The blocks of a file *)

Definition indirect (addrs : list Z) : Z := nth (Z.to_nat NDIRECT) addrs 0.

(** The address of block [k] of the file, 0 if there is none; number MAXFILE
    stands for the indirect block itself. *)
Definition faddr (view : Z → block) (addrs : list Z) (k : Z) : Z :=
  if k <? NDIRECT then nth (Z.to_nat k) addrs 0
  else if k =? MAXFILE then indirect addrs
  else if indirect addrs =? 0 then 0
  else get32 (view (indirect addrs)) (Z.to_nat (4 * (k - NDIRECT))).

(** Byte [o] of the file. *)
Definition fbyte (view : Z → block) (addrs : list Z) (o : Z) : Z :=
  nth (Z.to_nat (o mod BSIZE)) (view (faddr view addrs (o / BSIZE))) 0.

Section Blocks.
Context (sb : superblock).

(** The blocks are distinct data blocks in use. *)
Record blocks_ok (view : Z → block) (fa : Z → Z) : Prop := {
  bo_range k : 0 ≤ k ≤ MAXFILE → fa k ≠ 0 →
    data_start sb ≤ fa k < sb_size sb ∧ in_use sb view (fa k) = true;
  bo_inj k k' : 0 ≤ k ≤ MAXFILE → 0 ≤ k' ≤ MAXFILE → fa k ≠ 0 → fa k = fa k' → k = k';
}.

Record file_ok (view : Z → block) (addrs : list Z) : Prop := {
  fo_len : length addrs = 13%nat;
  fo_blocks : blocks_ok view (faddr view addrs);
}.

Lemma blocks_add view view' fa fa' n c :
  blocks_ok view fa → 0 ≤ n ≤ MAXFILE → fa n = 0 → data_start sb ≤ c < sb_size sb → in_use sb view c = false →
  (∀ b, 0 ≤ b < sb_size sb → in_use sb view' b = (b =? c) || in_use sb view b) → 0 ≤ data_start sb →
  (∀ k, 0 ≤ k ≤ MAXFILE → fa' k = if k =? n then c else fa k) → blocks_ok view' fa'.
Proof.
  intros [Hr Hi] Hn H0 Hc Hf Hu Hd Hfa.
  assert (∀ k, 0 ≤ k ≤ MAXFILE → fa k ≠ 0 → fa k ≠ c) as Hne.
  { intros k Hk Hk0 He. destruct (Hr k Hk Hk0) as [_ Ht]. congruence. }
  split.
  - intros k Hk. rewrite Hfa by done. destruct (Z.eqb_spec k n) as [->|].
    + intros _. split; [done|]. rewrite Hu by lia. by rewrite Z.eqb_refl.
    + intros Hk0. destruct (Hr k Hk Hk0) as [Hk1 Hk2]. split; [done|]. rewrite Hu, Hk2 by lia. apply orb_true_r.
  - intros k k' Hk Hk'. rewrite !Hfa by done. destruct (Z.eqb_spec k n) as [->|], (Z.eqb_spec k' n) as [->|];
      [done| | |by apply Hi].
    + intros Hc0 He. destruct (Hne k' Hk'); congruence.
    + intros Hk0 He. destruct (Hne k Hk Hk0 He).
Qed.

Lemma blocks_mono view view' fa fa' :
  blocks_ok view fa → (∀ b, 0 ≤ b < sb_size sb → in_use sb view b = true → in_use sb view' b = true) →
  0 ≤ data_start sb → (∀ k, 0 ≤ k ≤ MAXFILE → fa' k = fa k) → blocks_ok view' fa'.
Proof.
  intros [Hr Hi] Hu Hd Hfa. split.
  - intros k Hk. rewrite Hfa by done. intros Hk0. destruct (Hr k Hk Hk0). split; [done|]. apply Hu; [lia|done].
  - intros k k' Hk Hk'. rewrite !Hfa by done. by apply Hi.
Qed.

(** ** Free blocks *)

Definition has_free (view : Z → block) (n : nat) : Prop :=
  ∃ l, NoDup l ∧ length l = n ∧ Forall (λ b, 0 ≤ b < sb_size sb ∧ in_use sb view b = false) l.

Lemma has_free_le view n m : (m ≤ n)%nat → has_free view n → has_free view m.
Proof.
  intros Hm (l & Hl & <- & Hf). exists (take m l).
  split; [rewrite <-(take_drop m l) in Hl; by apply NoDup_app in Hl as [? _]|].
  split; [rewrite length_take; lia|by apply Forall_take].
Qed.

Lemma has_free_alloc view view' c n :
  has_free view (S n) →
  (∀ b, 0 ≤ b < sb_size sb → in_use sb view' b = (b =? c) || in_use sb view b) → has_free view' n.
Proof.
  intros (l & Hnd & Hl & Hf) Hu. apply (has_free_le _ (length (filter (λ b, b ≠ c) l))).
  - assert (∀ k, NoDup k → length k ≤ S (length (filter (λ b, b ≠ c) k)))%nat as Hfl.
    { induction 1 as [|x k Hx Hk IH]; [cbn; lia|]. rewrite filter_cons. cbn [length].
      case_decide as Hxc; cbn [length]; [lia|]. subst x.
      assert (∀ k' : list Z, c ∉ k' → filter (λ b, b ≠ c) k' = k') as Hid; [|by rewrite Hid].
      clear. induction k' as [|y k' IH]; intros Hc; [done|]. apply not_elem_of_cons in Hc as [? ?].
      rewrite filter_cons_True by done. by rewrite IH. }
    specialize (Hfl l Hnd). lia.
  - exists (filter (λ b, b ≠ c) l). split; [by apply NoDup_filter|]. split; [done|].
    apply Forall_forall. intros b [Hb Hin]%list_elem_of_filter. rewrite Forall_forall in Hf.
    destruct (Hf b Hin) as [Hb1 Hb2]. split; [done|]. rewrite Hu, Hb2 by done. by destruct (Z.eqb_spec b c).
Qed.

Lemma has_free_ext view view' n :
  (∀ b, 0 ≤ b < sb_size sb → in_use sb view' b = in_use sb view b) → has_free view n → has_free view' n.
Proof.
  intros Hu (l & Hl & Hn & Hf). exists l. split; [done|]. split; [done|].
  eapply Forall_impl; [exact Hf|]. cbn. intros b [Hb Hbf]. by rewrite Hu.
Qed.

Lemma has_free_in_use view n :
  has_free view (S n) → ¬ ∀ b, 0 ≤ b < sb_size sb → in_use sb view b = true.
Proof.
  intros ([|b l] & _ & Hl & Hf) Hall; [done|]. apply Forall_cons in Hf as [[Hb Hfb] _].
  rewrite Hall in Hfb; done.
Qed.
End Blocks.

(** ** How [faddr] changes *)

Lemma faddr_view view view' addrs k :
  (indirect addrs ≠ 0 → view' (indirect addrs) = view (indirect addrs)) → faddr view' addrs k = faddr view addrs k.
Proof.
  intros Hv. unfold faddr. destruct (k <? NDIRECT), (k =? MAXFILE), (Z.eqb_spec (indirect addrs) 0); try done.
  by rewrite Hv.
Qed.

(** A direct block. *)
Lemma faddr_direct view view' addrs n c k :
  0 ≤ n < NDIRECT → length addrs = 13%nat → 0 ≤ k ≤ MAXFILE →
  (indirect addrs ≠ 0 → view' (indirect addrs) = view (indirect addrs)) →
  faddr view' (<[Z.to_nat n := c]> addrs) k = if k =? n then c else faddr view addrs k.
Proof.
  unfold NDIRECT. intros Hn Hl Hk Hv.
  assert (indirect (<[Z.to_nat n := c]> addrs) = indirect addrs) as Hi.
  { unfold indirect. rewrite !nth_lookup, list_lookup_insert_ne; [done|]. unfold NDIRECT. lia. }
  unfold faddr. rewrite Hi. unfold NDIRECT. destruct (Z.ltb_spec k 12).
  - rewrite !nth_lookup. destruct (Z.eqb_spec k n) as [->|].
    + by rewrite list_lookup_insert_eq by lia.
    + by rewrite list_lookup_insert_ne by lia.
  - destruct (Z.eqb_spec k n); [lia|]. destruct (k =? MAXFILE), (Z.eqb_spec (indirect addrs) 0); try done.
    by rewrite Hv.
Qed.

Lemma get32_zeros o : get32 (replicate (Z.to_nat BSIZE) 0) o = 0.
Proof.
  unfold get32. assert (∀ n m, of_bytes (take m (drop o (replicate n 0))) = 0) as H; [|apply H].
  intros n m. rewrite drop_replicate, take_replicate. generalize (m `min` (n - o))%nat. intros j.
  induction j as [|j IH]; [done|]. cbn [replicate of_bytes]. by rewrite IH.
Qed.

(** The indirect block, when there was none. *)
Lemma faddr_indirect view view' addrs c k :
  length addrs = 13%nat → 0 ≤ k ≤ MAXFILE → indirect addrs = 0 →
  view' c = replicate (Z.to_nat BSIZE) 0 →
  faddr view' (<[Z.to_nat NDIRECT := c]> addrs) k = if k =? MAXFILE then c else faddr view addrs k.
Proof.
  intros Hl Hk H0 Hz.
  assert (indirect (<[Z.to_nat NDIRECT := c]> addrs) = c) as Hi.
  { unfold indirect, NDIRECT. rewrite nth_lookup, list_lookup_insert_eq; [done|lia]. }
  unfold faddr. rewrite Hi, H0, Hz, get32_zeros. unfold MAXFILE, NINDIRECT, NDIRECT, BSIZE in *.
  change (12 + 512 / 4) with 140 in *.
  destruct (Z.ltb_spec k 12), (Z.eqb_spec k 140); try done; try lia.
  - rewrite !nth_lookup. by rewrite list_lookup_insert_ne by lia.
  - by destruct (c =? 0).
Qed.

(** An entry of the indirect block. *)
Lemma faddr_entry view addrs n c k :
  NDIRECT ≤ n < MAXFILE → 0 ≤ k ≤ MAXFILE → indirect addrs ≠ 0 → block_ok (view (indirect addrs)) →
  0 ≤ c < 2 ^ 32 →
  let view' := upd view (indirect addrs)
    (put32 (view (indirect addrs)) (Z.to_nat (4 * (n - NDIRECT))) c) in
  faddr view' addrs k = if k =? n then c else faddr view addrs k.
Proof.
  unfold block_ok, MAXFILE, NINDIRECT, NDIRECT, BSIZE. change (12 + 512 / 4) with 140.
  intros Hn Hk H0 Hok Hc. set (view' := upd _ _ _). unfold faddr, MAXFILE, NINDIRECT, NDIRECT, BSIZE.
  change (12 + 512 / 4) with 140. destruct (Z.ltb_spec k 12), (Z.eqb_spec k n), (Z.eqb_spec k 140); try lia; try done.
  - subst k. destruct (Z.eqb_spec (indirect addrs) 0); [done|]. unfold view'. rewrite upd_eq, get32_put32 by lia.
    by apply w32_small.
  - destruct (Z.eqb_spec (indirect addrs) 0); [done|]. unfold view'. rewrite upd_eq.
    by rewrite get32_put32_ne by lia.
Qed.

(** ** [bmap] *)

Section Bmap.
Context {T : Type} `{Txn T} (sb : superblock).
Implicit Types (s : fs T) (t : tx).

Definition set_inode s i ip : fs T := Fs (f_sb s) (upd (f_icache s) i ip) (f_tx s).

Lemma bmap_addr_run s i n :
  let ip := f_icache s i in
  length (i_addrs ip) = 13%nat → 0 ≤ n ≤ NDIRECT →
  let a := nth (Z.to_nat n) (i_addrs ip) 0 in
  bmap_addr i n s = (if a =? 0 then
    addr ← balloc (i_dev ip);
    ip ← get_inode i;
    put_inode i (with_addrs ip (<[Z.to_nat n := addr]> (i_addrs ip))) ;;
    mret addr
  else mret a) s.
Proof.
  intros ip Hl Hn a.
  assert (array_get (i_addrs ip) n s = Ret a s) as Hget.
  { apply array_get_some; [lia|]. unfold a. rewrite nth_lookup.
    destruct (lookup_lt_is_Some_2 (i_addrs ip) (Z.to_nat n)) as [x Hx]; [unfold NDIRECT in Hn; lia|].
    by rewrite Hx. }
  unfold bmap_addr. mstep (eq_refl (get_inode i s)). fold ip. by mstep Hget.
Qed.

Lemma bmap_addr_get s i n :
  length (i_addrs (f_icache s i)) = 13%nat → 0 ≤ n ≤ NDIRECT →
  nth (Z.to_nat n) (i_addrs (f_icache s i)) 0 ≠ 0 →
  bmap_addr i n s = Ret (nth (Z.to_nat n) (i_addrs (f_icache s i)) 0) s.
Proof. intros Hl Hn Ha. rewrite bmap_addr_run by done. by destruct (Z.eqb_spec (nth (Z.to_nat n) (i_addrs (f_icache s i)) 0) 0). Qed.

Lemma bmap_addr_alloc s t i n :
  let ip := f_icache s i in
  alloc_ok sb s t → log_room t 2 → has_free sb (t_view t) 1 →
  i_dev ip = ROOTDEV → length (i_addrs ip) = 13%nat → 0 ≤ n ≤ NDIRECT →
  nth (Z.to_nat n) (i_addrs ip) 0 = 0 →
  ∃ b s1 t1, allocated sb s t b s1 t1 ∧
    bmap_addr i n s = Ret b (set_inode s1 i (with_addrs ip (<[Z.to_nat n := b]> (i_addrs ip)))).
Proof.
  intros ip Hok Hroom Hfree Hd Hl Hn Ha. rewrite bmap_addr_run by done. fold ip. rewrite Ha, Hd. cbn [Z.eqb].
  destruct (balloc_ok sb s t Hok Hroom) as [[Hall _]|(b & s1 & t1 & Hb & Hal)];
    [by destruct (has_free_in_use sb _ 0 Hfree)|].
  exists b, s1, t1. split; [done|]. mstep Hb. mstep (eq_refl (get_inode i s1)).
  rewrite (al_icache _ _ _ _ _ _ Hal). done.
Qed.

(** What is left of the log budget that a file's indirect block may need. *)
Definition ibudget (t : tx) (addrs : list Z) : nat :=
  if decide (indirect addrs ≠ 0 ∧ indirect addrs ∈ t_log t) then 0%nat else 2%nat.
(** The free block that it may need. *)
Definition fbudget (addrs : list Z) : nat := if decide (indirect addrs = 0) then 1%nat else 0%nat.

(** The free block that a block of the file may need. *)
Definition bneed (view : Z → block) (addrs : list Z) (bn : Z) : nat :=
  if decide (faddr view addrs bn = 0) then 1%nat else 0%nat.

(** [bmap] has mapped block [bn] of the file in cache entry [i] to [b]. *)
Record mapped s t i bn b s' t' : Prop := {
  mp_ok : alloc_ok sb s' t';
  mp_held : t_held t' = t_held t;
  mp_cap : t_cap t' = t_cap t;
  mp_entry : f_icache s' i = with_addrs (f_icache s i) (i_addrs (f_icache s' i));
  mp_entries j : j ≠ i → f_icache s' j = f_icache s j;
  mp_file : file_ok sb (t_view t') (i_addrs (f_icache s' i));
  mp_addr : faddr (t_view t') (i_addrs (f_icache s' i)) bn = b ∧ b ≠ 0;
  mp_old k : 0 ≤ k < MAXFILE → k ≠ bn →
    faddr (t_view t') (i_addrs (f_icache s' i)) k = faddr (t_view t) (i_addrs (f_icache s i)) k;
  mp_same : faddr (t_view t) (i_addrs (f_icache s i)) bn ≠ 0 →
    t' = t ∧ f_icache s' i = f_icache s i;
  mp_fresh : faddr (t_view t) (i_addrs (f_icache s i)) bn = 0 →
    t_view t' b = replicate (Z.to_nat BSIZE) 0 ∧ in_use sb (t_view t) b = false ∧ b ∈ t_log t';
  mp_indirect : indirect (i_addrs (f_icache s' i)) = indirect (i_addrs (f_icache s i)) ∨
    in_use sb (t_view t) (indirect (i_addrs (f_icache s' i))) = false;
  mp_use c : 0 ≤ c < sb_size sb → in_use sb (t_view t) c = true → in_use sb (t_view t') c = true;
  mp_view c : data_start sb ≤ c < sb_size sb → in_use sb (t_view t) c = true →
    c ≠ indirect (i_addrs (f_icache s i)) → t_view t' c = t_view t c;
  mp_outside c : sb_size sb ≤ c ∨ c < sb_bmapstart sb → t_view t' c = t_view t c;
  mp_free n : has_free sb (t_view t) (n + fbudget (i_addrs (f_icache s i)) +
      bneed (t_view t) (i_addrs (f_icache s i)) bn)%nat →
    has_free sb (t_view t') (n + fbudget (i_addrs (f_icache s' i)));
  mp_log : (length (t_log t') + ibudget t' (i_addrs (f_icache s' i)) ≤
    length (t_log t) + ibudget t (i_addrs (f_icache s i)) +
    2 * bneed (t_view t) (i_addrs (f_icache s i)) bn)%nat;
  mp_logged c : c ∈ t_log t → c ∈ t_log t';
}.

Lemma data_start_pos home : fs_geom sb home → 0 < data_start sb ∧ 0 < sb_size sb.
Proof.
  intros [Hn [Hi1 Hi2] Hb Hs _]. unfold data_start, IPB, BPB, BSIZE in *.
  change (512 / 64) with 8 in *. change (512 * 8) with 4096 in *. zlia.
Qed.

(** Data blocks are not bitmap blocks. *)
Lemma bblock_data home b c :
  fs_geom sb home → 0 ≤ b < sb_size sb → data_start sb ≤ c → BBLOCK b sb ≠ c.
Proof. intros Hg Hb Hc. destruct (bblock sb home b Hg Hb) as (_ & _ & ?). lia. Qed.

Lemma allocated_use s t c s' t' b :
  allocated sb s t c s' t' → 0 ≤ b < sb_size sb → in_use sb (t_view t) b = true → in_use sb (t_view t') b = true.
Proof. intros Ha Hb Hu. rewrite (al_use _ _ _ _ _ _ Ha) by done. rewrite Hu. apply orb_true_r. Qed.

(** The contents of other data blocks in use. *)
Lemma allocated_view s t c s' t' b :
  allocated sb s t c s' t' → data_start sb ≤ b → in_use sb (t_view t) b = true → t_view t' b = t_view t b.
Proof.
  intros Ha Hb Hu. apply (al_view _ _ _ _ _ _ Ha).
  - intros ->. pose proof (al_free _ _ _ _ _ _ Ha). congruence.
  - pose proof (ao_geom _ _ _ (al_ok _ _ _ _ _ _ Ha)) as Hg.
    destruct (data_start_pos _ Hg). pose proof (al_range _ _ _ _ _ _ Ha).
    pose proof (bblock_data _ c b Hg ltac:(lia) Hb). congruence.
Qed.

Lemma allocated_outside s t c s' t' b :
  allocated sb s t c s' t' → sb_size sb ≤ b ∨ b < sb_bmapstart sb → t_view t' b = t_view t b.
Proof.
  intros Ha Hb. pose proof (al_range _ _ _ _ _ _ Ha). pose proof (ao_geom _ _ _ (al_ok _ _ _ _ _ _ Ha)) as Hg.
  destruct (data_start_pos _ Hg), (bblock sb _ c Hg ltac:(lia)) as (E & _ & Hr).
  assert (0 ≤ sb_size sb / BPB) by (apply Z.div_pos; [lia|done]).
  assert (0 ≤ c / BPB) by (apply Z.div_pos; [lia|done]).
  assert (data_start sb ≤ sb_size sb) by (destruct Hg; unfold data_start; lia).
  unfold data_start in *. apply (al_view _ _ _ _ _ _ Ha); lia.
Qed.

(** [n] more blocks can be logged and two more held. *)
Definition file_room t (n : nat) : Prop :=
  Z.of_nat (length (t_log t) + n) < t_cap t ∧ tx_room t (n + 2).

Lemma file_room_log t n : file_room t n → log_room t n.
Proof. unfold file_room, log_room, tx_room. lia. Qed.
Lemma file_room_le t n k : (k ≤ n)%nat → file_room t n → file_room t k.
Proof. unfold file_room, tx_room. lia. Qed.

Lemma bneed_1 view addrs bn : faddr view addrs bn = 0 → bneed view addrs bn = 1%nat.
Proof. intros Hf. unfold bneed. by rewrite decide_True. Qed.
Lemma bneed_0 view addrs bn : faddr view addrs bn ≠ 0 → bneed view addrs bn = 0%nat.
Proof. intros Hf. unfold bneed. by rewrite decide_False. Qed.

(** Nothing to do. *)
Lemma mapped_same s t i bn :
  alloc_ok sb s t → file_ok sb (t_view t) (i_addrs (f_icache s i)) →
  faddr (t_view t) (i_addrs (f_icache s i)) bn ≠ 0 →
  mapped s t i bn (faddr (t_view t) (i_addrs (f_icache s i)) bn) s t.
Proof.
  intros Hok Hf Hn. split; try done.
  - by destruct (f_icache s i).
  - by left.
  - intros n. by rewrite bneed_0, Nat.add_0_r by done.
  - lia.
Qed.

Lemma file_ok_len view addrs : file_ok sb view addrs → length addrs = 13%nat.
Proof. by intros []. Qed.

Lemma home_data home c : fs_geom sb home → data_start sb ≤ c < sb_size sb → home c.
Proof.
  intros Hg Hc. apply Hg. destruct (data_start_pos _ Hg) as [_ Hs]. destruct Hg. unfold data_start in *.
  pose proof (Z.div_pos (sb_size sb) BPB ltac:(lia) ltac:(done)).
  pose proof (Z.div_pos (sb_ninodes sb) IPB ltac:(lia) ltac:(done)). lia.
Qed.

Lemma file_indirect_range view addrs :
  file_ok sb view addrs → indirect addrs ≠ 0 →
  data_start sb ≤ indirect addrs < sb_size sb ∧ in_use sb view (indirect addrs) = true.
Proof.
  intros [_ Hb] H0. by apply (bo_range _ _ _ Hb MAXFILE).
Qed.

Lemma mapped_direct s t i bn :
  let ip := f_icache s i in let addrs := i_addrs ip in
  alloc_ok sb s t → file_ok sb (t_view t) addrs → i_dev ip = ROOTDEV → 0 ≤ bn < NDIRECT →
  file_room t (ibudget t addrs + 2 * bneed (t_view t) addrs bn) →
  has_free sb (t_view t) (fbudget addrs + bneed (t_view t) addrs bn) →
  ∃ b s' t', bmap_addr i bn s = Ret b s' ∧ mapped s t i bn b s' t'.
Proof.
  intros ip addrs Hok Hf Hd Hbn Hroom Hfree. pose proof Hf as [Hl Hb].
  assert (faddr (t_view t) addrs bn = nth (Z.to_nat bn) addrs 0) as Hfa.
  { unfold faddr. destruct (Z.ltb_spec bn NDIRECT); [done|lia]. }
  destruct (decide (faddr (t_view t) addrs bn = 0)) as [H0|H0].
  2:{ exists (faddr (t_view t) addrs bn), s, t. split; [|by apply mapped_same]. rewrite Hfa in *.
      apply bmap_addr_get; [done|unfold NDIRECT in *; lia|done]. }
  rewrite (bneed_1 _ _ _ H0) in *.
  destruct (bmap_addr_alloc s t i bn) as (b & s1 & t1 & Ha & Hrun); try done.
  { apply (log_room_le _ (ibudget t addrs + 2 * 1)); [lia|by apply file_room_log]. }
  { eapply has_free_le; [|exact Hfree]. lia. }
  { unfold NDIRECT in *. lia. } { exact (eq_trans (eq_sym Hfa) H0). }
  fold ip addrs in Hrun. pose proof (ao_geom _ _ _ (al_ok _ _ _ _ _ _ Ha)) as Hg.
  destruct (data_start_pos _ Hg) as [Hds Hsz]. pose proof (al_range _ _ _ _ _ _ Ha) as Hbr.
  set (s2 := set_inode s1 i (with_addrs ip (<[Z.to_nat bn := b]> addrs))) in *.
  assert (f_icache s2 i = with_addrs ip (<[Z.to_nat bn := b]> addrs)) as Hi2 by apply upd_eq.
  assert (i_addrs (f_icache s2 i) = <[Z.to_nat bn := b]> addrs) as Hia by by rewrite Hi2.
  assert (∀ k, 0 ≤ k ≤ MAXFILE → faddr (t_view t1) (<[Z.to_nat bn := b]> addrs) k =
    if k =? bn then b else faddr (t_view t) addrs k) as Hfd.
  { intros k Hk. apply faddr_direct; try done. intros Hi0.
    destruct (file_indirect_range _ _ Hf Hi0) as [? ?]. apply (allocated_view _ _ _ _ _ _ Ha); [lia|done]. }
  assert (indirect (<[Z.to_nat bn := b]> addrs) = indirect addrs) as Hind.
  { unfold indirect. rewrite !nth_lookup, list_lookup_insert_ne; [done|unfold NDIRECT in *; lia]. }
  assert (NDIRECT ≤ MAXFILE) by done.
  exists b, s2, t1. split; [done|]. split; rewrite ?Hia; fold ip addrs.
  - destruct (al_ok _ _ _ _ _ _ Ha). by split.
  - apply Ha.
  - apply Ha.
  - done.
  - intros j Hj. cbn. rewrite upd_ne by done. by rewrite (al_icache _ _ _ _ _ _ Ha).
  - split; [by rewrite length_insert|].
    apply (blocks_add sb (t_view t) _ (faddr (t_view t) addrs) _ bn b); try done; try lia;
      [by eapply al_free|by eapply al_use].
  - rewrite Hfd by lia. rewrite Z.eqb_refl. split; [done|lia].
  - intros k Hk Hne. rewrite Hfd by lia. by destruct (Z.eqb_spec k bn).
  - done.
  - intros _. split; [by eapply al_zero|]. split; [by eapply al_free|]. apply (al_logged _ _ _ _ _ _ Ha). by right.
  - by left.
  - intros c Hc. by eapply allocated_use.
  - intros c Hc Hu _. eapply allocated_view; [done|lia|done].
  - intros c Hc. by eapply allocated_outside.
  - intros n. rewrite (bneed_1 _ _ _ H0). unfold fbudget. rewrite Hind. rewrite Nat.add_1_r. intros Hn.
    eapply has_free_alloc; [exact Hn|]. by eapply al_use.
  - rewrite (bneed_1 _ _ _ H0). pose proof (al_log _ _ _ _ _ _ Ha).
    enough (ibudget t1 (<[Z.to_nat bn := b]> addrs) ≤ ibudget t addrs)%nat by lia.
    unfold ibudget. rewrite Hind.
    destruct (decide (indirect addrs ≠ 0 ∧ indirect addrs ∈ t_log t)) as [[Hi0 Hi1]|]; [|by case_decide; lia].
    rewrite decide_True; [done|]. split; [done|]. apply (al_logged _ _ _ _ _ _ Ha). by left.
  - intros c Hc. apply (al_logged _ _ _ _ _ _ Ha). by left.
Qed.

(** Holding, changing and releasing a data block in use. *)
Lemma hold_ok s t s' c bp :
  alloc_ok sb s t → f_sb s' = f_sb s → data_start sb ≤ c → in_use sb (t_view t) c = true →
  tx_rel (f_tx s') (tx_hold t c bp) → alloc_ok sb s' (tx_hold t c bp).
Proof.
  intros [Hsb Hg Hm Hfu Hr] Hs Hc Hu Hr'. split; [congruence|done|done| |done].
  intros b Hb. destruct (Hfu b Hb) as [H1 H2]. cbn [t_held tx_hold t_view].
  pose proof (bblock_data _ b c Hg Hb Hc). split; [by rewrite lookup_insert_ne by congruence|].
  intros Hf. rewrite lookup_insert_ne by congruence. by apply H2.
Qed.

Lemma put_ok s t s' c d :
  alloc_ok sb s t → f_sb s' = f_sb s → data_start sb ≤ c →
  tx_rel (f_tx s') (tx_put t c d) → alloc_ok sb s' (tx_put t c d) ∧
  ∀ b, 0 ≤ b < sb_size sb → in_use sb (t_view (tx_put t c d)) b = in_use sb (t_view t) b.
Proof.
  intros [Hsb Hg Hm Hfu Hr] Hs Hc Hr'.
  assert (∀ b, 0 ≤ b < sb_size sb → in_use sb (t_view (tx_put t c d)) b = in_use sb (t_view t) b) as Hu.
  { intros b Hb. apply in_use_other. pose proof (bblock_data _ b c Hg Hb Hc). congruence. }
  split; [|done]. split; [congruence|done| | |done].
  - intros b Hb Hbs. rewrite Hu by lia. by apply Hm.
  - intros b Hb. rewrite Hu by done. by apply Hfu.
Qed.

Lemma drop_ok s t s' c :
  alloc_ok sb s t → f_sb s' = f_sb s → tx_rel (f_tx s') (tx_drop t c) → alloc_ok sb s' (tx_drop t c).
Proof.
  intros [Hsb Hg Hm Hfu Hr] Hs Hr'. split; [congruence|done|done| |done].
  intros b Hb. destruct (Hfu b Hb) as [H1 H2]. cbn [t_held tx_drop t_view]. rewrite !lookup_delete_None.
  split; [by right|]. intros Hf. right. by apply H2.
Qed.

(** The rest of [bmap] for a block of the indirect block at [addr]. *)
Definition bmap_entry (i bn addr : Z) : M (fs T) Z :=
  ip ← get_inode i;
  bp ← Fs.bread (i_dev ip) addr;
  d ← bdata bp;
  let addr := get32 d (Z.to_nat (4 * bn)) in
  if addr =? 0 then
    addr ← balloc (i_dev ip);
    d ← bdata bp;
    set_bdata bp (put32 d (Z.to_nat (4 * bn)) addr) ;;
    Fs.log_write bp ;;
    Fs.brelse bp ;;
    mret addr
  else
    Fs.brelse bp ;;
    mret addr.

Lemma bmap_indirect i bn s :
  NDIRECT ≤ bn < MAXFILE → bmap i bn s = (addr ← bmap_addr i NDIRECT; bmap_entry i (bn - NDIRECT) addr) s.
Proof.
  intros Hbn. unfold bmap. destruct (Z.ltb_spec bn NDIRECT); [lia|]. cbv zeta.
  destruct (Z.ltb_spec (bn - NDIRECT) NINDIRECT); [done|]. unfold MAXFILE in Hbn. lia.
Qed.

Lemma faddr_in_entry view addrs bn :
  NDIRECT ≤ bn < MAXFILE → indirect addrs ≠ 0 →
  faddr view addrs bn = get32 (view (indirect addrs)) (Z.to_nat (4 * (bn - NDIRECT))).
Proof.
  intros Hbn H0. unfold faddr. destruct (Z.ltb_spec bn NDIRECT); [lia|].
  destruct (Z.eqb_spec bn MAXFILE); [lia|]. by destruct (Z.eqb_spec (indirect addrs) 0).
Qed.

(** The state after an entry of the indirect block [ib] has been allocated. *)
Lemma mapped_new_entry s t i bn bp b s1 s2 t2 s' :
  let addrs := i_addrs (f_icache s i) in let ib := indirect addrs in
  let t1 := tx_hold t ib bp in
  let d' := put32 (t_view t ib) (Z.to_nat (4 * (bn - NDIRECT))) b in
  let t' := tx_drop (tx_put t2 ib d') ib in
  alloc_ok sb s t → file_ok sb (t_view t) addrs → NDIRECT ≤ bn < MAXFILE → ib ≠ 0 →
  t_held t !! ib = None → faddr (t_view t) addrs bn = 0 →
  block_ok (t_view t ib) → allocated sb s1 t1 b s2 t2 → f_icache s' = f_icache s → f_sb s' = f_sb s2 →
  tx_rel (f_tx s') t' → mapped s t i bn b s' t'.
Proof.
  intros addrs ib t1 d' t' Hok Hf Hbn Hi0 Hnh H0 Hbok Ha Hic Hsb Hr'.
  pose proof Hf as [Hl Hb]. destruct (file_indirect_range _ _ Hf Hi0) as [Hir Hiu]. fold ib in Hir, Hiu.
  pose proof (ao_geom _ _ _ Hok) as Hg. destruct (data_start_pos _ Hg) as [Hds Hsz].
  pose proof (al_range _ _ _ _ _ _ Ha) as Hbr. pose proof (al_free _ _ _ _ _ _ Ha) as Hbf.
  change (t_view t1) with (t_view t) in Hbf. assert (b ≠ ib) as Hbib by (intros ->; congruence).
  assert (t_view t2 ib = t_view t ib) as Hv2 by (apply (allocated_view _ _ _ _ _ _ Ha); [lia|done]).
  assert (∀ c, 0 ≤ c < sb_size sb → in_use sb (t_view t') c = (c =? b) || in_use sb (t_view t) c) as Huse.
  { intros c Hc. change (t_view t') with (upd (t_view t2) ib d').
    rewrite in_use_other; [by apply (al_use _ _ _ _ _ _ Ha)|].
    pose proof (bblock_data _ c ib Hg Hc ltac:(lia)). congruence. }
  assert (∀ k, 0 ≤ k ≤ MAXFILE → faddr (t_view t') addrs k = if k =? bn then b else faddr (t_view t) addrs k) as Hfd.
  { intros k Hk. change (t_view t') with (upd (t_view t2) ib d').
    rewrite (faddr_view (upd (t_view t) ib d')).
    - apply (faddr_entry (t_view t) addrs bn b k Hbn Hk Hi0 Hbok). destruct Hg. lia.
    - intros _. by rewrite !upd_eq. }
  assert (∀ c, c ≠ ib → t_view t' c = t_view t2 c) as Hvo by (intros c Hc; by apply upd_ne).
  assert (∀ c, c ∈ t_log t' ↔ c ∈ t_log t2 ∨ c = ib) as Hlog' by (intros c; apply logged_elem).
  assert (alloc_ok sb s' (tx_drop (tx_put t2 ib d') ib)) as Hok'.
  { pose proof (al_ok _ _ _ _ _ _ Ha) as [Hsb2 Hg2 Hm2 Hfu2 Hr2]. split; [congruence|done| | |done].
    - intros c Hc Hcs. rewrite Huse by lia. rewrite (ao_meta _ _ _ Hok) by lia. apply orb_true_r.
    - intros c Hc. cbn [t_held tx_drop tx_put]. rewrite (al_held _ _ _ _ _ _ Ha). cbn [t_held t1 tx_hold].
      rewrite delete_insert_id by done. destruct (ao_unheld _ _ _ Hok c Hc) as [H1 H2]. split; [done|].
      intros Hcf. apply H2. change (in_use sb (t_view t') c = false) in Hcf. rewrite Huse in Hcf by done.
      by apply orb_false_iff in Hcf as [_ ?]. }
  split; rewrite ?Hic; fold addrs; fold ib.
  - exact Hok'.
  - cbn. rewrite (al_held _ _ _ _ _ _ Ha). cbn. by apply delete_insert_id.
  - cbn. by rewrite (al_cap _ _ _ _ _ _ Ha).
  - by destruct (f_icache s i).
  - done.
  - split; [done|]. apply (blocks_add sb (t_view t) _ (faddr (t_view t) addrs) _ bn b); try done; try lia.
    unfold NDIRECT in *. lia.
  - rewrite Hfd by (unfold NDIRECT in *; lia). rewrite Z.eqb_refl. split; [done|lia].
  - intros k Hk Hne. rewrite Hfd by lia. by destruct (Z.eqb_spec k bn).
  - done.
  - intros _. rewrite Hvo by done. split; [by eapply al_zero|]. split; [done|].
    apply Hlog'. left. apply (al_logged _ _ _ _ _ _ Ha). by right.
  - by left.
  - intros c Hc Hu. rewrite Huse, Hu by done. apply orb_true_r.
  - intros c Hc Hu Hne. rewrite Hvo by done. apply (allocated_view s1 t1 b s2 t2 c Ha); [lia|done].
  - intros c Hc. rewrite Hvo by (destruct Hg; unfold data_start in *;
      pose proof (Z.div_pos (sb_size sb) BPB ltac:(lia) ltac:(done)); lia).
    by apply (allocated_outside s1 t1 b s2 t2 c Ha).
  - intros n. rewrite (bneed_1 _ _ _ H0), Nat.add_1_r. intros Hn. by eapply has_free_alloc.
  - rewrite (bneed_1 _ _ _ H0). pose proof (al_log _ _ _ _ _ _ Ha) as Hl2. cbn [t_log t1 tx_hold] in Hl2.
    assert (ibudget t' addrs = 0%nat) as ->.
    { unfold ibudget. rewrite decide_True; [done|]. split; [done|]. apply Hlog'. by right. }
    unfold ibudget. fold ib. case_decide as Hc.
    + cbn [t' tx_drop tx_put t_log]. rewrite logged_in; [lia|].
      apply (al_logged _ _ _ _ _ _ Ha). left. by destruct Hc.
    + cbn [t' tx_drop tx_put t_log]. pose proof (logged_length (t_log t2) ib). lia.
  - intros c Hc. apply Hlog'. left. apply (al_logged _ _ _ _ _ _ Ha). by left.
Qed.

Lemma mapped_entry s t i bn :
  let ip := f_icache s i in let addrs := i_addrs ip in
  alloc_ok sb s t → file_ok sb (t_view t) addrs → i_dev ip = ROOTDEV → NDIRECT ≤ bn < MAXFILE →
  indirect addrs ≠ 0 → t_held t !! indirect addrs = None →
  file_room t (ibudget t addrs + 2 * bneed (t_view t) addrs bn) →
  has_free sb (t_view t) (bneed (t_view t) addrs bn) →
  ∃ b s' t', bmap_entry i (bn - NDIRECT) (indirect addrs) s = Ret b s' ∧ mapped s t i bn b s' t'.
Proof.
  intros ip addrs Hok Hf Hd Hbn Hi0 Hnh Hroom Hfree. set (ib := indirect addrs) in *.
  destruct (file_indirect_range _ _ Hf Hi0) as [Hir Hiu]. fold ib in Hir, Hiu.
  pose proof (ao_geom _ _ _ Hok) as Hg. destruct (data_start_pos _ Hg) as [Hds Hsz].
  pose proof (home_data _ _ Hg Hir) as Hhome.
  pose proof (faddr_in_entry (t_view t) addrs bn Hbn Hi0) as Hfa. fold ib in Hfa.
  destruct (decide (faddr (t_view t) addrs bn = 0)) as [H0|H0].
  2:{ destruct (fs_read s t ib) as (bp & x & x' & E1 & E2 & E3 & Hr3); [apply Hok|done|done|unfold file_room, tx_room in *; lia|].
      exists (faddr (t_view t) addrs bn), (with_tx s x'), t. split.
      - unfold bmap_entry. mstep (eq_refl (get_inode i s)). fold ip. rewrite Hd. mstep E1. mstep E2. rewrite <-Hfa.
        destruct (Z.eqb_spec (faddr (t_view t) addrs bn) 0); [done|]. by mstep (E3 (with_tx s x) eq_refl).
      - destruct (mapped_same s t i bn Hok Hf H0). split; try done.
        destruct Hok. by split. }
  rewrite (bneed_1 _ _ _ H0) in *.
  destruct (fs_bread s t ib) as (bp & x1 & E1 & Hr1); [apply Hok|done|done|unfold file_room, tx_room in *; lia|].
  set (t1 := tx_hold t ib bp) in *. set (s1 := with_tx s x1) in *.
  assert (alloc_ok sb s1 t1) as Hok1 by (apply (hold_ok s t s1 ib bp Hok); [done|lia|done|done]).
  assert (size (t_held t1) = S (size (t_held t))) as Hsz1 by (apply map_size_insert_None, Hnh).
  destruct (balloc_ok sb s1 t1 Hok1) as [[Hall _]|(b & s2 & t2 & E2 & Ha)].
  { unfold log_room, file_room, tx_room in *. rewrite Hsz1. cbn [t1 tx_hold t_log t_cap]. lia. }
  { by destruct (has_free_in_use sb _ 0 Hfree). }
  pose proof (al_range _ _ _ _ _ _ Ha) as Hbr. pose proof (al_held _ _ _ _ _ _ Ha) as Hh2.
  assert (t_held t2 !! ib = Some bp) as Hhib by (rewrite Hh2; apply lookup_insert_eq).
  assert (t_view t2 ib = t_view t ib) as Hv2.
  { apply (allocated_view _ _ _ _ _ _ Ha); [lia|done]. }
  pose proof (tx_view_ok _ _ ib (ao_rel _ _ _ (al_ok _ _ _ _ _ _ Ha))) as Hbok.
  rewrite (al_home _ _ _ _ _ _ Ha), Hv2 in Hbok. specialize (Hbok Hhome).
  set (d' := put32 (t_view t ib) (Z.to_nat (4 * (bn - NDIRECT))) b).
  assert (block_ok d') as Hd'.
  { unfold block_ok, d'. rewrite length_put32; [done|]. unfold block_ok in Hbok. rewrite Hbok.
    unfold MAXFILE, NINDIRECT, NDIRECT, BSIZE in *. change (12 + 512 / 4) with 140 in *. lia. }
  pose proof (al_log _ _ _ _ _ _ Ha) as Hlog2. cbn [t1 tx_hold t_log] in Hlog2.
  destruct (fs_write s2 t2 ib bp d') as (x3 & x4 & E3 & E4 & Hr4); [apply Ha|done|done| |].
  { rewrite (al_cap _ _ _ _ _ _ Ha). unfold file_room in Hroom. cbn [t1 tx_hold t_cap]. lia. }
  destruct (fs_brelse (with_tx s2 x4) (tx_put t2 ib d') ib bp Hr4 Hhib) as (x5 & E5 & Hr5).
  exists b, (with_tx s2 x5), (tx_drop (tx_put t2 ib d') ib). split.
  - unfold bmap_entry. mstep (eq_refl (get_inode i s)). fold ip. rewrite Hd. mstep E1.
    mstep (fs_data s1 t1 ib bp Hr1 (lookup_insert_eq _ _ _)).
    change (t_view t1 ib) with (t_view t ib). cbv zeta. rewrite <-Hfa, H0. cbn [Z.eqb].
    mstep E2. mstep (fs_data s2 t2 ib bp (ao_rel _ _ _ (al_ok _ _ _ _ _ _ Ha)) Hhib). rewrite Hv2.
    mstep E3. mstep E4. by mstep E5.
  - apply (mapped_new_entry s t i bn bp b s1 s2 t2 (with_tx s2 x5)); try done.
    exact (al_icache _ _ _ _ _ _ Ha).
Qed.

(** The state after the indirect block [c] has been allocated. *)
Section NewIndirect.
Context (s : fs T) (t : tx) (i c : Z) (s0 : fs T) (t1 : tx).
Let ip := f_icache s i.
Let addrs := i_addrs ip.
Let addrs1 := <[Z.to_nat NDIRECT := c]> addrs.
Let s1 := set_inode s0 i (with_addrs ip addrs1).
Hypothesis (Hf : file_ok sb (t_view t) addrs) (Hi0 : indirect addrs = 0) (Ha : allocated sb s t c s0 t1).

Lemma new_indirect_addrs : i_addrs (f_icache s1 i) = addrs1 ∧ indirect addrs1 = c ∧ c ≠ 0.
Proof.
  destruct Hf as [Hl _]. pose proof (al_range _ _ _ _ _ _ Ha).
  destruct (data_start_pos _ (ao_geom _ _ _ (al_ok _ _ _ _ _ _ Ha))). cbn. rewrite upd_eq. split; [done|].
  split; [|lia]. unfold indirect, addrs1, NDIRECT. rewrite nth_lookup, list_lookup_insert_eq; [done|lia].
Qed.

Lemma new_indirect_faddr k :
  0 ≤ k ≤ MAXFILE → faddr (t_view t1) addrs1 k = if k =? MAXFILE then c else faddr (t_view t) addrs k.
Proof. intros Hk. destruct Hf. apply faddr_indirect; try done. by eapply al_zero. Qed.

Lemma new_indirect_old k : 0 ≤ k < MAXFILE → faddr (t_view t1) addrs1 k = faddr (t_view t) addrs k.
Proof. intros Hk. rewrite new_indirect_faddr by lia. destruct (Z.eqb_spec k MAXFILE); [lia|done]. Qed.

Lemma new_indirect_file : file_ok sb (t_view t1) addrs1.
Proof.
  destruct Hf as [Hl Hb]. destruct (data_start_pos _ (ao_geom _ _ _ (al_ok _ _ _ _ _ _ Ha))).
  split; [unfold addrs1; by rewrite length_insert|].
  apply (blocks_add sb (t_view t) _ (faddr (t_view t) addrs) _ MAXFILE c); try done; try lia.
  - by eapply al_range.
  - by eapply al_free.
  - by eapply al_use.
  - exact new_indirect_faddr.
Qed.

Lemma mapped_new_indirect bn b s' t' :
  NDIRECT ≤ bn < MAXFILE → mapped s1 t1 i bn b s' t' → mapped s t i bn b s' t'.
Proof.
  intros Hbn Hm. destruct new_indirect_addrs as (Ha1 & Hc1 & Hc0).
  destruct (data_start_pos _ (ao_geom _ _ _ (al_ok _ _ _ _ _ _ Ha))) as [Hds Hsz].
  assert (faddr (t_view t) addrs bn = 0) as H0.
  { unfold faddr. destruct (Z.ltb_spec bn NDIRECT); [lia|]. destruct (Z.eqb_spec bn MAXFILE); [lia|].
    by rewrite Hi0. }
  assert (faddr (t_view t1) addrs1 bn = 0) as H1 by (rewrite new_indirect_old by (unfold NDIRECT in *; lia); done).
  destruct Hm as [M1 M2 M3 M4 M5 M6 M7 M8 M9 M10 MI M11 M12 M13 M14 M15 M16].
  rewrite Ha1 in M8, M9, M10, M12, M14, M15.
  assert (f_icache s1 i = with_addrs ip addrs1) as Hs1 by apply upd_eq.
  split; fold ip addrs; try done.
  - by rewrite M2, (al_held _ _ _ _ _ _ Ha).
  - by rewrite M3, (al_cap _ _ _ _ _ _ Ha).
  - rewrite M4 at 1. by rewrite Hs1.
  - intros j Hj. rewrite M5 by done. cbn. rewrite upd_ne by done. by rewrite (al_icache _ _ _ _ _ _ Ha).
  - intros k Hk Hne. rewrite M8 by done. by apply new_indirect_old.
  - intros _. destruct (M10 H1) as (Z1 & Z2 & Z3). split; [done|]. split; [|done].
    destruct M6 as [_ Hb'], M7 as [E Hb0].
    destruct (bo_range _ _ _ Hb' bn) as [Hr _]; [unfold NDIRECT in *; lia|by rewrite E|]. rewrite E in Hr.
    rewrite (al_use _ _ _ _ _ _ Ha) in Z2 by lia. by apply orb_false_iff in Z2 as [_ ?].
  - right. rewrite Ha1, Hc1 in MI. destruct MI as [->|MI]; [by eapply al_free|].
    destruct (decide (indirect (i_addrs (f_icache s' i)) = 0)) as [Hz|Hz].
    + rewrite Hz in *. rewrite (al_use _ _ _ _ _ _ Ha) in MI by lia. by apply orb_false_iff in MI as [_ ?].
    + destruct (file_indirect_range _ _ M6 Hz) as [Hr _].
      rewrite (al_use _ _ _ _ _ _ Ha) in MI by lia. by apply orb_false_iff in MI as [_ ?].
  - intros x Hx Hu. apply M11; [done|]. by eapply allocated_use.
  - intros x Hx Hu _. rewrite M12; [by eapply allocated_view; [|lia|]|done|by eapply allocated_use; [|lia|]|].
    rewrite Hc1. intros ->. pose proof (al_free _ _ _ _ _ _ Ha). congruence.
  - intros x Hx. rewrite M13 by done. by eapply allocated_outside.
  - intros n. rewrite (bneed_1 _ _ _ H0). unfold fbudget at 1. rewrite decide_True by done. intros Hn.
    apply M14. rewrite (bneed_1 _ _ _ H1). unfold fbudget. rewrite Hc1, decide_False by done.
    eapply has_free_alloc; [|by eapply al_use]. eapply has_free_le; [|exact Hn]. lia.
  - rewrite (bneed_1 _ _ _ H0). rewrite (bneed_1 _ _ _ H1) in M15. pose proof (al_log _ _ _ _ _ _ Ha).
    assert (ibudget t1 addrs1 = 0%nat) as Hb1.
    { unfold ibudget. rewrite Hc1, decide_True; [done|]. split; [done|]. apply (al_logged _ _ _ _ _ _ Ha). by right. }
    assert (ibudget t addrs = 2%nat) as Hb2 by (unfold ibudget; rewrite decide_False by naive_solver; done). lia.
  - intros x Hx. apply M16, (al_logged _ _ _ _ _ _ Ha). by left.
Qed.
End NewIndirect.

(** [bmap] always succeeds when there are enough free blocks. *)
Lemma bmap_ok s t i bn :
  let ip := f_icache s i in let addrs := i_addrs ip in
  alloc_ok sb s t → file_ok sb (t_view t) addrs → i_dev ip = ROOTDEV → 0 ≤ bn < MAXFILE →
  t_held t = ∅ → file_room t (ibudget t addrs + 2 * bneed (t_view t) addrs bn) →
  has_free sb (t_view t) (fbudget addrs + bneed (t_view t) addrs bn) →
  ∃ b s' t', bmap i bn s = Ret b s' ∧ mapped s t i bn b s' t'.
Proof.
  intros ip addrs Hok Hf Hd Hbn Hh Hroom Hfree. destruct (decide (bn < NDIRECT)) as [Hlt|Hge].
  { destruct (mapped_direct s t i bn) as (b & s' & t' & Hrun & Hm); try done; [lia|].
    exists b, s', t'. split; [|done]. unfold bmap. destruct (Z.ltb_spec bn NDIRECT); [done|lia]. }
  assert (NDIRECT ≤ bn < MAXFILE) as Hbn' by lia. rewrite (bmap_indirect _ _ _ Hbn').
  destruct (decide (indirect addrs = 0)) as [Hi0|Hi0].
  - assert (faddr (t_view t) addrs bn = 0) as H0.
    { unfold faddr. destruct (Z.ltb_spec bn NDIRECT); [lia|]. destruct (Z.eqb_spec bn MAXFILE); [lia|].
      by rewrite Hi0. }
    assert (ibudget t addrs = 2%nat) as Hb2 by (unfold ibudget; rewrite decide_False by naive_solver; done).
    rewrite (bneed_1 _ _ _ H0), Hb2 in Hroom. rewrite (bneed_1 _ _ _ H0) in Hfree.
    unfold fbudget in Hfree. rewrite decide_True in Hfree by done.
    destruct (bmap_addr_alloc s t i NDIRECT) as (c & s0 & t1 & Ha & Hrun); try done.
    { apply (log_room_le _ (2 + 2 * 1)); [lia|by apply file_room_log]. }
    { eapply has_free_le; [|exact Hfree]. lia. }
    { by destruct Hf. }
    destruct (new_indirect_addrs s t i c s0 t1 Hf Ha) as (Ha1 & Hc1 & Hc0).
    set (s1 := set_inode s0 i _) in *. fold ip addrs in Ha1, Hc1.
    assert (alloc_ok sb s1 t1) as Hok1 by (destruct (al_ok _ _ _ _ _ _ Ha); by split).
    assert (faddr (t_view t1) (i_addrs (f_icache s1 i)) bn = 0) as H1.
    { rewrite Ha1. by rewrite (new_indirect_old s t i c s0 t1 Hf Hi0 Ha) by lia. }
    destruct (mapped_entry s1 t1 i bn) as (b & s' & t' & Hrun' & Hm); try done.
    + rewrite Ha1. by eapply new_indirect_file.
    + cbn. by rewrite upd_eq.
    + by rewrite Ha1, Hc1.
    + by rewrite (al_held _ _ _ _ _ _ Ha), Hh.
    + rewrite (bneed_1 _ _ _ H1), Ha1. unfold ibudget.
      rewrite Hc1, decide_True by (split; [done|]; apply (al_logged _ _ _ _ _ _ Ha); by right).
      unfold file_room, tx_room in *. rewrite (al_held _ _ _ _ _ _ Ha), (al_cap _ _ _ _ _ _ Ha).
      pose proof (al_log _ _ _ _ _ _ Ha). lia.
    + rewrite (bneed_1 _ _ _ H1). eapply has_free_alloc; [|by eapply al_use].
      eapply has_free_le; [|exact Hfree]. lia.
    + exists b, s', t'. split.
      * mstep Hrun. rewrite Ha1, Hc1 in Hrun'. exact Hrun'.
      * by apply (mapped_new_indirect s t i c s0 t1).
  - destruct (mapped_entry s t i bn) as (b & s' & t' & Hrun & Hm); try done.
    + by rewrite Hh.
    + eapply has_free_le; [|exact Hfree]. fold ip addrs. lia.
    + exists b, s', t'. split; [|done].
      assert (bmap_addr i NDIRECT s = Ret (indirect addrs) s) as Hget.
      { apply bmap_addr_get; [by destruct Hf|done|done]. }
      by mstep Hget.
Qed.
End Bmap.
