(* ===== verification/FsRw.v ===== *)
(** Reading and writing files: [readi] and [writei] of kern/fs.c. *)

From S2P Require Import Prelude Sleeplock BufferCache Superblock Log LogOps Txn Fs FsAlloc FsInode FsFile.

Lemma slice_nth d o m :
  0 ≤ o → 0 ≤ m → o + m ≤ Z.of_nat (length d) →
  slice d (Z.to_nat o) (Z.to_nat m) = map (λ k, nth (Z.to_nat k) d 0) (seqZ o m).
Proof.
  intros Ho Hm Hl. apply list_eq. intros k. destruct (decide (k < Z.to_nat m)%nat) as [Hk|Hk].
  - rewrite lookup_slice by done. rewrite list_lookup_fmap, lookup_seqZ_lt by lia. cbn.
    rewrite nth_lookup. replace (Z.to_nat (o + Z.of_nat k)) with (Z.to_nat o + k)%nat by lia.
    destruct (lookup_lt_is_Some_2 d (Z.to_nat o + k)) as [x ->]; [lia|done].
  - rewrite !lookup_ge_None_2; [done|rewrite length_map, length_seqZ; lia|rewrite length_slice; lia].
Qed.

Lemma length_map_seqZ (f : Z → Z) o m : length (map f (seqZ o m)) = Z.to_nat m.
Proof. by rewrite length_map, length_seqZ. Qed.

Lemma seqZ_split o n m : 0 ≤ n → 0 ≤ m → seqZ o n ++ seqZ (o + n) m = seqZ o (n + m).
Proof. intros. symmetry. by apply seqZ_app. Qed.

(** A part of a block, read and written. *)
Lemma nth_splice d o l k :
  (o + length l ≤ length d)%nat → nth k (splice d o l) 0 =
    if decide (o ≤ k < o + length l)%nat then nth (k - o) l 0 else nth k d 0.
Proof.
  intros Hl. rewrite !nth_lookup. case_decide as Hk.
  - by rewrite lookup_splice_new.
  - rewrite lookup_splice_old; [done|done|lia].
Qed.

Section Read.
Context {T : Type} `{Txn T} (sb : superblock).
Context (devsw_read : Z → option (Z → Z → M (fs T) (Z * list Z))).
Implicit Types (s : fs T) (t : tx).

(** Every block before the size is there. *)
Definition full (view : Z → block) (addrs : list Z) (size : Z) : Prop :=
  ∀ bn, 0 ≤ bn → bn * BSIZE < size → faddr view addrs bn ≠ 0.

(** [bmap] of a block that is there changes nothing. *)
Lemma bmap_get s t i bn :
  let addrs := i_addrs (f_icache s i) in
  alloc_ok sb s t → file_ok sb (t_view t) addrs → i_dev (f_icache s i) = ROOTDEV → 0 ≤ bn < MAXFILE →
  t_held t = ∅ → tx_room t 1 → faddr (t_view t) addrs bn ≠ 0 →
  ∃ x, bmap i bn s = Ret (faddr (t_view t) addrs bn) (with_tx s x) ∧ tx_rel x t.
Proof.
  intros addrs Hok Hf Hd Hbn Hh Hroom Hn. pose proof (file_ok_len _ _ _ Hf) as Hl. unfold bmap.
  destruct (Z.ltb_spec bn NDIRECT).
  { exists (f_tx s). rewrite with_tx_same. split; [|apply Hok].
    assert (faddr (t_view t) addrs bn = nth (Z.to_nat bn) addrs 0) as Hfa.
    { unfold faddr. destruct (Z.ltb_spec bn NDIRECT); [done|lia]. }
    rewrite Hfa in *. apply bmap_addr_get; [done|lia|done]. }
  cbv zeta. destruct (Z.ltb_spec (bn - NDIRECT) NINDIRECT); [|unfold MAXFILE in Hbn; lia].
  assert (indirect addrs ≠ 0) as Hi0.
  { intros Hi. apply Hn. unfold faddr. destruct (Z.ltb_spec bn NDIRECT); [lia|].
    destruct (Z.eqb_spec bn MAXFILE); [lia|]. by rewrite Hi. }
  destruct (file_indirect_range _ _ _ Hf Hi0) as [Hir _].
  pose proof (faddr_in_entry (t_view t) addrs bn ltac:(lia) Hi0) as Hfa.
  destruct (fs_read s t (indirect addrs)) as (bp & x & x' & E1 & E2 & E3 & Hr3);
    [apply Hok|by eapply home_data; [apply Hok|]|by rewrite Hh|done|].
  exists x'. split; [|done].
  assert (bmap_addr i NDIRECT s = Ret (indirect addrs) s) as Hget by (apply bmap_addr_get; done).
  mstep Hget. mstep (eq_refl (get_inode i s)). rewrite Hd. mstep E1. mstep E2. rewrite <-Hfa.
  destruct (Z.eqb_spec (faddr (t_view t) addrs bn) 0); [done|]. by mstep (E3 (with_tx s x) eq_refl).
Qed.

Lemma block_div off m k : 0 ≤ off → 0 ≤ k < m → m ≤ BSIZE - off mod BSIZE →
  (off + k) / BSIZE = off / BSIZE ∧ (off + k) mod BSIZE = off mod BSIZE + k.
Proof. unfold BSIZE. intros. zlia. Qed.

Lemma readi_loop_ok s t i n : ∀ x off rem acc fuel,
  let addrs := i_addrs (f_icache s i) in let size := i_size (f_icache s i) in
  alloc_ok sb s t → file_ok sb (t_view t) addrs → i_dev (f_icache s i) = ROOTDEV →
  full (t_view t) addrs size → size ≤ MAXFILE * BSIZE → t_held t = ∅ → tx_room t 1 → tx_rel x t →
  0 ≤ off → 0 ≤ rem → off + rem ≤ size → rem = 0 ∨ rem + off mod BSIZE ≤ BSIZE * Z.of_nat n → (n < fuel)%nat →
  ∃ x', readi_loop fuel i off rem acc (with_tx s x) =
      Ret (acc ++ map (fbyte (t_view t) addrs) (seqZ off rem)) (with_tx s x') ∧ tx_rel x' t.
Proof.
  induction n as [|n IH]; intros x off rem acc fuel addrs size Hok Hf Hd Hfull Hmax Hh Hroom Hx Ho Hr Hor Hn Hfu;
    (destruct fuel as [|fuel]; [lia|]);
    (destruct (decide (rem = 0)) as [->|Hpos];
     [exists x; split; [|done]; cbn; by rewrite app_nil_r|]).
  { unfold BSIZE in *. zlia. }
  set (s1 := with_tx s x). set (bn := off / BSIZE).
  assert (alloc_ok sb s1 t) as Hok1 by (destruct Hok; by split).
  assert (0 ≤ bn ∧ bn * BSIZE ≤ off) as [Hbn0 Hbno] by (unfold bn, BSIZE; zlia).
  assert (bn < MAXFILE) as Hbnm by (unfold MAXFILE, NDIRECT, NINDIRECT, BSIZE in *; change (512 / 4) with 128 in *; lia).
  destruct (bmap_get s1 t i bn) as (x1 & E1 & Hx1); try done; [by apply Hfull; lia|].
  change (f_icache s1 i) with (f_icache s i) in E1. fold addrs in E1. set (b := faddr (t_view t) addrs bn) in *.
  destruct Hf as [Hl Hb]. destruct (bo_range _ _ _ Hb bn) as [Hbr _]; [lia|apply Hfull; lia|]. fold b in Hbr.
  pose proof (home_data sb _ _ (ao_geom _ _ _ Hok) Hbr) as Hhome.
  destruct (fs_read (with_tx s x1) t b) as (bp & y & y' & E2 & E3 & E4 & Hy); [done|done|by rewrite Hh|done|].
  set (m := Z.min rem (BSIZE - off mod BSIZE)).
  assert (0 < m ≤ rem) as Hm by (unfold m, BSIZE; zlia).
  assert (slice (t_view t b) (Z.to_nat (off mod BSIZE)) (Z.to_nat m) = map (fbyte (t_view t) addrs) (seqZ off m)) as Hsl.
  { rewrite slice_nth; [|unfold BSIZE; zlia|lia|].
    2:{ pose proof (tx_view_ok _ _ _ Hx Hhome) as Hlen. unfold block_ok in Hlen. rewrite Hlen. unfold m, BSIZE. zlia. }
    apply list_eq. intros k. rewrite !list_lookup_fmap. destruct (decide (Z.of_nat k < m)) as [Hk|Hk].
    - rewrite !lookup_seqZ_lt by lia. cbn. f_equal. unfold fbyte.
      destruct (block_div off m (Z.of_nat k) Ho) as [-> ->]; [lia|unfold m; lia|]. fold bn b. done.
    - by rewrite !lookup_ge_None_2 by (rewrite length_seqZ; lia). }
  destruct (IH y' (off + m) (rem - m) (acc ++ map (fbyte (t_view t) addrs) (seqZ off m)) fuel) as (x' & E5 & Hx');
    try done; try lia.
  { unfold m, BSIZE in *. zlia. }
  exists x'. split; [|done].
  assert (readi_loop (S fuel) i off rem acc s1 = readi_loop fuel i (off + m) (rem - m)
    (acc ++ map (fbyte (t_view t) addrs) (seqZ off m)) (with_tx s y')) as Hstep.
  { cbn [readi_loop]. destruct (Z.ltb_spec 0 rem); [|lia].
    mstep (eq_refl (get_inode i s1)). change (f_icache s1 i) with (f_icache s i). rewrite Hd.
    rewrite w32_small by (unfold MAXFILE, NDIRECT, NINDIRECT, BSIZE in *; change (512 / 4) with 128 in *; fold bn; lia).
    fold bn. mstep E1. mstep E2. mstep E3. fold m. rewrite Hsl. by mstep (E4 (with_tx s y) eq_refl). }
  fold s1. rewrite Hstep, E5. f_equal.
  rewrite <-app_assoc, <-map_app, seqZ_split by lia. repeat f_equal. lia.
Qed.

(** The inode in cache entry [i] is a file whose contents can be read. *)
Record readable s t i : Prop := {
  rd_ok : alloc_ok sb s t;
  rd_held : t_held t = ∅;
  rd_dev : i_dev (f_icache s i) = ROOTDEV;
  rd_type : i_type (f_icache s i) ≠ T_DEV;
  rd_size : 0 ≤ i_size (f_icache s i) ≤ MAXFILE * BSIZE;
  rd_file : file_ok sb (t_view t) (i_addrs (f_icache s i));
  rd_full : full (t_view t) (i_addrs (f_icache s i)) (i_size (f_icache s i));
}.

Lemma readi_ok s t i off n :
  readable s t i → tx_room t 1 → 0 ≤ off ≤ i_size (f_icache s i) → 0 ≤ n → off + n < 2 ^ 64 →
  let k := Z.min n (i_size (f_icache s i) - off) in
  ∃ x, readi devsw_read i off n s =
      Ret (k, map (fbyte (t_view t) (i_addrs (f_icache s i))) (seqZ off k)) (with_tx s x) ∧ tx_rel x t.
Proof.
  intros [Hok Hh Hd Ht Hs Hf Hfull] Hroom Ho Hn Hov k. set (ip := f_icache s i) in *.
  unfold readi. mstep (eq_refl (get_inode i s)). fold ip.
  destruct (Z.eqb_spec (i_type ip) T_DEV); [done|]. rewrite w64_small by lia.
  destruct (Z.ltb_spec (i_size ip) off); [lia|]. destruct (Z.ltb_spec (off + n) off); [lia|]. cbn [orb].
  assert ((if i_size ip <? off + n then i_size ip - off else n) = k) as ->.
  { unfold k. destruct (Z.ltb_spec (i_size ip) (off + n)); lia. }
  destruct (readi_loop_ok s t i (Z.to_nat (k / BSIZE + 2)) (f_tx s) off k [] (Z.to_nat (k / BSIZE + 3)))
    as (x & E & Hx); try done; try exact (proj2 Hs); try lia.
  { apply Hok. } { change (off + k ≤ i_size ip). unfold k. lia. }
  { right. unfold k, BSIZE. zlia. } { unfold k, BSIZE. zlia. }
  rewrite with_tx_same in E. exists x. split; [|done]. by mstep E.
Qed.
End Read.

Section Write.
Context {T : Type} `{Txn T} (sb : superblock).
Implicit Types (s : fs T) (t : tx).

(** Bytes [[lo, hi)] of the file in cache entry [i] have been set to [f]; the
    on-disk inode is not written back yet. *)
Record wrote s t i (lo hi : Z) (f : Z → Z) s' t' : Prop := {
  wr_ok : alloc_ok sb s' t';
  wr_held : t_held t' = t_held t;
  wr_cap : t_cap t' = t_cap t;
  wr_entry : f_icache s' i = with_addrs (f_icache s i) (i_addrs (f_icache s' i));
  wr_entries j : j ≠ i → f_icache s' j = f_icache s j;
  wr_file : file_ok sb (t_view t') (i_addrs (f_icache s' i));
  wr_old k : 0 ≤ k < MAXFILE → faddr (t_view t) (i_addrs (f_icache s i)) k ≠ 0 →
    faddr (t_view t') (i_addrs (f_icache s' i)) k = faddr (t_view t) (i_addrs (f_icache s i)) k;
  wr_later k : 0 ≤ k < MAXFILE → hi ≤ k * BSIZE →
    faddr (t_view t') (i_addrs (f_icache s' i)) k = faddr (t_view t) (i_addrs (f_icache s i)) k;
  wr_fresh k : 0 ≤ k ≤ MAXFILE → faddr (t_view t') (i_addrs (f_icache s' i)) k ≠ 0 →
    faddr (t_view t') (i_addrs (f_icache s' i)) k = faddr (t_view t) (i_addrs (f_icache s i)) k ∨
    in_use sb (t_view t) (faddr (t_view t') (i_addrs (f_icache s' i)) k) = false;
  wr_new o : lo ≤ o < hi → faddr (t_view t') (i_addrs (f_icache s' i)) (o / BSIZE) ≠ 0 ∧
    fbyte (t_view t') (i_addrs (f_icache s' i)) o = f o;
  wr_keep o : 0 ≤ o → o / BSIZE < MAXFILE → ¬ (lo ≤ o < hi) →
    faddr (t_view t) (i_addrs (f_icache s i)) (o / BSIZE) ≠ 0 →
    fbyte (t_view t') (i_addrs (f_icache s' i)) o = fbyte (t_view t) (i_addrs (f_icache s i)) o;
  wr_same : (∀ o, lo ≤ o < hi → faddr (t_view t) (i_addrs (f_icache s i)) (o / BSIZE) ≠ 0) →
    f_icache s' i = f_icache s i;
  wr_use c : 0 ≤ c < sb_size sb → in_use sb (t_view t) c = true → in_use sb (t_view t') c = true;
  wr_view c : data_start sb ≤ c < sb_size sb → in_use sb (t_view t) c = true →
    (∀ k, 0 ≤ k ≤ MAXFILE → faddr (t_view t) (i_addrs (f_icache s i)) k ≠ c) → t_view t' c = t_view t c;
  wr_outside c : sb_size sb ≤ c ∨ c < sb_bmapstart sb → t_view t' c = t_view t c;
}.

Lemma wrote_nothing s t i lo hi f :
  alloc_ok sb s t → file_ok sb (t_view t) (i_addrs (f_icache s i)) → hi ≤ lo → wrote s t i lo hi f s t.
Proof. intros Hok Hf Hlo. split; try done; [by destruct (f_icache s i)|by left|lia]. Qed.

Lemma wrote_trans s t i lo mid hi f s1 t1 s' t' :
  0 ≤ lo ≤ mid → mid ≤ hi → hi ≤ MAXFILE * BSIZE →
  wrote s t i lo mid f s1 t1 → wrote s1 t1 i mid hi f s' t' → wrote s t i lo hi f s' t'.
Proof.
  intros Hlo Hmid Hmax [A1 A2 A3 A4 A5 A6 A7 A8 A9 A10 A11 AS A12 A13 A14]
    [B1 B2 B3 B4 B5 B6 B7 B8 B9 B10 B11 BS B12 B13 B14].
  assert (0 < sb_size sb ∧ 0 < data_start sb) as [Hsz Hds]
    by (destruct (data_start_pos _ _ (ao_geom _ _ _ A1)); lia).
  assert (∀ o, 0 ≤ o < MAXFILE * BSIZE → 0 ≤ o / BSIZE < MAXFILE) as Hdiv.
  { intros o Ho. unfold BSIZE in *. zlia. }
  assert (∀ k, 0 ≤ k ≤ MAXFILE → in_use sb (t_view t1) (faddr (t_view t') (i_addrs (f_icache s' i)) k) = false →
    faddr (t_view t') (i_addrs (f_icache s' i)) k ≠ 0 →
    in_use sb (t_view t) (faddr (t_view t') (i_addrs (f_icache s' i)) k) = false) as Hback.
  { intros k Hk Hf H0. destruct B6 as [_ [Hr _]]. destruct (Hr k Hk H0) as [Hkr _].
    destruct (in_use sb (t_view t) _) eqn:Hu; [|done]. apply A12 in Hu; [congruence|lia]. }
  split; try done.
  - congruence.
  - congruence.
  - rewrite B4 at 1. by rewrite A4.
  - intros j Hj. rewrite B5 by done. by apply A5.
  - intros k Hk H0. rewrite B7; [by apply A7|done|by rewrite A7].
  - intros k Hk Hh. rewrite B8 by done. apply A8; [done|lia].
  - intros k Hk H0. destruct (B9 k Hk H0) as [He|Hf]; [|right; by apply Hback].
    rewrite He in *. destruct (decide (faddr (t_view t1) (i_addrs (f_icache s1 i)) k = 0)); [done|].
    by apply A9.
  - intros o Ho. destruct (decide (o < mid)).
    + destruct (A10 o ltac:(lia)) as [N1 N2]. assert (0 ≤ o / BSIZE < MAXFILE) as Hd by (apply Hdiv; lia).
      split; [by rewrite B7|]. rewrite B11 by (done || lia). done.
    + apply B10. lia.
  - intros o Ho Hd Hno H0. assert (0 ≤ o / BSIZE) by (apply Z.div_pos; [lia|done]).
    rewrite B11; [apply A11; (done || lia)|done|done|lia|by rewrite A7].
  - intros Hall. rewrite BS; [apply AS; intros o Ho; apply Hall; lia|]. intros o Ho.
    rewrite A7; [apply Hall; lia|apply Hdiv; lia|apply Hall; lia].
  - intros c Hc Hu. by apply B12, A12.
  - intros c Hc Hu Hno. rewrite B13; [by apply A13|done|apply A12; [lia|done]|].
    intros k Hk He. destruct (decide (faddr (t_view t1) (i_addrs (f_icache s1 i)) k = 0)) as [Hz|Hz]; [lia|].
    destruct (A9 k Hk Hz) as [He'|Hf]; [by apply (Hno k Hk); congruence|]. rewrite He in Hf. congruence.
  - intros c Hc. rewrite B14 by done. by apply A14.
Qed.

Lemma wrote_block s t i lo m f b s1 t1 s2 :
  let d := splice (t_view t1 b) (Z.to_nat (lo mod BSIZE)) (map f (seqZ lo m)) in
  file_ok sb (t_view t) (i_addrs (f_icache s i)) → mapped sb s t i (lo / BSIZE) b s1 t1 →
  block_ok (t_view t1 b) → 0 ≤ lo → lo / BSIZE < MAXFILE → 0 < m ≤ BSIZE - lo mod BSIZE →
  f_sb s2 = f_sb s1 → f_icache s2 = f_icache s1 → tx_rel (f_tx s2) (tx_put t1 b d) →
  wrote s t i lo (lo + m) f s2 (tx_put t1 b d).
Proof.
  intros d Hf Hm Hbok Hlo Hbn Hmr Hsb Hic Hx. set (bn := lo / BSIZE) in *.
  assert (0 ≤ bn) as Hbn0 by (apply Z.div_pos; [lia|done]).
  set (addrs := i_addrs (f_icache s i)) in *. set (addrs1 := i_addrs (f_icache s1 i)).
  pose proof Hf as [_ Hb]. pose proof (mp_file _ _ _ _ _ _ _ _ Hm) as [Hl1 Hb1]. fold addrs1 in Hl1, Hb1.
  destruct (mp_addr _ _ _ _ _ _ _ _ Hm) as [Hba Hb0]. fold addrs1 in Hba.
  destruct (bo_range _ _ _ Hb1 bn) as [Hbr _]; [lia|by rewrite Hba|]. rewrite Hba in Hbr.
  destruct (data_start_pos _ _ (ao_geom _ _ _ (mp_ok _ _ _ _ _ _ _ _ Hm))) as [Hds Hsz].
  assert (∀ k, 0 ≤ k ≤ MAXFILE → k ≠ bn → faddr (t_view t1) addrs1 k ≠ b) as Hnb.
  { intros k Hk Hne He. apply Hne. apply (bo_inj _ _ _ Hb1); [done|lia|congruence|congruence]. }
  assert (∀ c, c ≠ b → t_view (tx_put t1 b d) c = t_view t1 c) as Hvo by (intros c Hc; by apply upd_ne).
  assert (∀ k, faddr (t_view (tx_put t1 b d)) addrs1 k = faddr (t_view t1) addrs1 k) as Hfd.
  { intros k. apply faddr_view. intros _. apply Hvo. apply (Hnb MAXFILE); lia. }
  destruct (put_ok sb s1 t1 s2 b d (mp_ok _ _ _ _ _ _ _ _ Hm) Hsb ltac:(lia) Hx) as [Hok2 Hu2].
  assert (∀ k, 0 ≤ k < MAXFILE → faddr (t_view t) addrs k ≠ 0 → faddr (t_view t1) addrs1 k = faddr (t_view t) addrs k) as Hold.
  { intros k Hk H0. destruct (decide (k = bn)) as [->|Hne]; [|by apply (mp_old _ _ _ _ _ _ _ _ Hm)].
    destruct (mp_same _ _ _ _ _ _ _ _ Hm H0) as [-> He]. unfold addrs1. by rewrite He. }
  assert (length d = length (t_view t1 b)) as Hld.
  { apply length_splice. rewrite length_map_seqZ. unfold block_ok in Hbok. rewrite Hbok. unfold BSIZE in *. zlia. }
  assert (∀ o, 0 ≤ o → o / BSIZE = bn → nth (Z.to_nat (o mod BSIZE)) d 0 =
    if decide (lo ≤ o < lo + m) then f o else nth (Z.to_nat (o mod BSIZE)) (t_view t1 b) 0) as Hbyte.
  { intros o Ho He. assert (o mod BSIZE - lo mod BSIZE = o - lo) as Hd by (unfold bn, BSIZE in *; zlia).
    assert (0 ≤ lo mod BSIZE ∧ 0 ≤ o mod BSIZE) as [Hd1 Hd2] by (unfold BSIZE; zlia).
    unfold d. rewrite nth_splice; rewrite length_map_seqZ.
    - case_decide as H1; case_decide as H2; [| lia | lia |done]. rewrite nth_lookup, list_lookup_fmap.
      rewrite lookup_seqZ_lt by lia. cbn. f_equal. lia.
    - unfold block_ok in Hbok. rewrite Hbok. unfold BSIZE in *. zlia. }
  split; rewrite ?Hic; fold addrs1 addrs; try done.
  - by rewrite <-(mp_held _ _ _ _ _ _ _ _ Hm).
  - by rewrite <-(mp_cap _ _ _ _ _ _ _ _ Hm).
  - apply Hm.
  - intros j Hj. by apply (mp_entries _ _ _ _ _ _ _ _ Hm).
  - split; [done|]. apply (blocks_mono sb (t_view t1) _ (faddr (t_view t1) addrs1)); [done| |lia|done].
    intros c Hc. by rewrite Hu2.
  - intros k Hk H0. rewrite Hfd. by apply Hold.
  - intros k Hk Hh. rewrite Hfd. apply (mp_old _ _ _ _ _ _ _ _ Hm); [done|]. unfold bn, BSIZE in *. zlia.
  - intros k Hk. rewrite Hfd. intros H0. destruct (decide (k = MAXFILE)) as [->|Hkm]; [apply Hm|].
    destruct (decide (k = bn)) as [->|Hne]; [|left; apply (mp_old _ _ _ _ _ _ _ _ Hm); lia].
    destruct (decide (faddr (t_view t) addrs bn = 0)) as [Hz|Hz]; [right|left; by apply Hold].
    rewrite Hba. by apply (mp_fresh _ _ _ _ _ _ _ _ Hm).
  - intros o Ho. assert (o / BSIZE = bn) as He by (unfold bn, BSIZE in *; zlia). unfold fbyte. rewrite Hfd, He, Hba.
    split; [done|]. cbn [t_view tx_put]. rewrite upd_eq, Hbyte by (done || lia). by rewrite decide_True.
  - intros o Ho Hd Hno H0. assert (0 ≤ o / BSIZE) by (apply Z.div_pos; [lia|done]).
    unfold fbyte. rewrite Hfd, Hold by done. destruct (decide (o / BSIZE = bn)) as [He|He].
    + rewrite He in *. destruct (mp_same _ _ _ _ _ _ _ _ Hm H0) as [-> Hs1].
      assert (b = faddr (t_view t) addrs bn) as <- by (rewrite <-Hba; unfold addrs1; by rewrite Hs1).
      cbn [t_view tx_put]. rewrite upd_eq, Hbyte by done. by rewrite decide_False.
    + assert (faddr (t_view t) addrs (o / BSIZE) ≠ b) as Hne
        by (rewrite <-Hold by done; by apply Hnb; [lia|]).
      rewrite Hvo by done. destruct (bo_range _ _ _ Hb (o / BSIZE)) as [Hr Hu]; [lia|done|].
      rewrite (mp_view _ _ _ _ _ _ _ _ Hm); [done|done|done|]. intros Hi.
      assert (o / BSIZE = MAXFILE); [|lia]. apply (bo_inj _ _ _ Hb); [lia|lia|done|exact Hi].
  - intros Hall. apply (mp_same _ _ _ _ _ _ _ _ Hm). apply (Hall lo). lia.
  - intros c Hc Hu. rewrite Hu2 by done. by apply (mp_use _ _ _ _ _ _ _ _ Hm).
  - intros c Hc Hu Hno. rewrite Hvo; [apply (mp_view _ _ _ _ _ _ _ _ Hm); [done|done|]|].
    + intros ->. by apply (Hno MAXFILE).
    + intros ->. destruct (decide (faddr (t_view t) addrs bn = 0)) as [Hz|Hz].
      * destruct (mp_fresh _ _ _ _ _ _ _ _ Hm Hz) as (_ & Hf0 & _). congruence.
      * apply (Hno bn); [lia|]. rewrite <-Hold by (done || lia). done.
  - intros c Hc. rewrite Hvo; [by apply (mp_outside _ _ _ _ _ _ _ _ Hm)|]. unfold data_start in *.
    pose proof (Z.div_pos (sb_size sb) BPB ltac:(lia) ltac:(done)). lia.
Qed.

(** The blocks that writing to [n] blocks from [bn] adds to the log (but for
    the indirect block) and takes from the free blocks. *)
Fixpoint wcost (n : nat) (view : Z → block) (addrs : list Z) (bn : Z) : nat :=
  match n with
  | O => 0
  | S n => 1 + bneed view addrs bn + wcost n view addrs (bn + 1)
  end.
Fixpoint fcost (n : nat) (view : Z → block) (addrs : list Z) (bn : Z) : nat :=
  match n with
  | O => 0
  | S n => bneed view addrs bn + fcost n view addrs (bn + 1)
  end.

Lemma cost_ext view view' addrs addrs' n : ∀ bn,
  (∀ k, bn ≤ k < bn + Z.of_nat n → faddr view' addrs' k = faddr view addrs k) →
  wcost n view' addrs' bn = wcost n view addrs bn ∧ fcost n view' addrs' bn = fcost n view addrs bn.
Proof.
  induction n as [|n IH]; intros bn Hf; cbn [wcost fcost]; [done|].
  destruct (IH (bn + 1)) as [-> ->]; [intros k Hk; apply Hf; lia|]. unfold bneed. by rewrite Hf by lia.
Qed.

Lemma bneed_le_1 view addrs bn : (bneed view addrs bn ≤ 1)%nat.
Proof. unfold bneed. case_decide; lia. Qed.

(** One iteration of the loop of [writei]. *)
Lemma writei_step s t i src tot off N fuel r :
  let addrs := i_addrs (f_icache s i) in let bn := off / BSIZE in
  let m := Z.min (N - tot) (BSIZE - off mod BSIZE) in
  alloc_ok sb s t → file_ok sb (t_view t) addrs → i_dev (f_icache s i) = ROOTDEV → t_held t = ∅ →
  0 ≤ off → bn < MAXFILE → tot < N →
  file_room t (ibudget t addrs + 1 + bneed (t_view t) addrs bn + r) →
  has_free sb (t_view t) (fbudget addrs + bneed (t_view t) addrs bn) →
  ∃ s2 t2, writei_loop (S fuel) i src tot off N s = writei_loop fuel i src (tot + m) (off + m) N s2 ∧
    wrote s t i off (off + m) (λ o, src (o - (off - tot))) s2 t2 ∧
    (length (t_log t2) + ibudget t2 (i_addrs (f_icache s2 i)) ≤
     length (t_log t) + ibudget t addrs + 1 + bneed (t_view t) addrs bn)%nat ∧
    ∀ n, has_free sb (t_view t) (n + fbudget addrs + bneed (t_view t) addrs bn) →
      has_free sb (t_view t2) (n + fbudget (i_addrs (f_icache s2 i))).
Proof.
  intros addrs bn m Hok Hf Hd Hh Ho Hbn Htot Hroom Hfree.
  assert (0 ≤ bn) as Hbn0 by (apply Z.div_pos; [lia|done]).
  pose proof (bneed_le_1 (t_view t) addrs bn) as Hle1.
  destruct (bmap_ok sb s t i bn) as (b & s1 & t1 & E1 & Hm); try done.
  { eapply file_room_le; [|exact Hroom]. fold addrs. lia. }
  pose proof (mp_ok _ _ _ _ _ _ _ _ Hm) as Hok1. pose proof (mp_held _ _ _ _ _ _ _ _ Hm) as Hh1.
  pose proof (mp_log _ _ _ _ _ _ _ _ Hm) as Hl1. pose proof (mp_cap _ _ _ _ _ _ _ _ Hm) as Hc1. fold addrs in Hl1.
  destruct (mp_addr _ _ _ _ _ _ _ _ Hm) as [Hba Hb0]. destruct (mp_file _ _ _ _ _ _ _ _ Hm) as [Hla1 Hb1].
  destruct (bo_range _ _ _ Hb1 bn) as [Hbr _]; [lia|by rewrite Hba|]. rewrite Hba in Hbr.
  pose proof (home_data sb _ _ (ao_geom _ _ _ Hok1) Hbr) as Hhome.
  assert (block_ok (t_view t1 b)) as Hbok by (eapply tx_view_ok; [apply Hok1|done]).
  assert (0 < m ≤ BSIZE - off mod BSIZE ∧ m ≤ N - tot) as [Hmr Hmn] by (unfold m, BSIZE; zlia).
  destruct (fs_update s1 t1 b) as (bp & x1 & E2 & E3 & E4); [apply Hok1|done|by rewrite Hh1, Hh| | |].
  { unfold file_room, tx_room in *. rewrite Hh1, Hh in *. lia. }
  { rewrite Hc1. unfold file_room in Hroom. lia. }
  set (d := splice (t_view t1 b) (Z.to_nat (off mod BSIZE)) (map src (seqZ tot m))).
  assert (d = splice (t_view t1 b) (Z.to_nat (off mod BSIZE)) (map (λ o, src (o - (off - tot))) (seqZ off m))) as Hdd.
  { unfold d. f_equal. apply list_eq. intros k. rewrite !list_lookup_fmap.
    destruct (decide (Z.of_nat k < m)) as [Hk|Hk].
    - rewrite !lookup_seqZ_lt by lia. cbn. f_equal. f_equal. lia.
    - by rewrite !lookup_ge_None_2 by (rewrite length_seqZ; lia). }
  destruct (E4 d) as (x2 & x3 & x4 & E5 & E6 & E7 & Hx4).
  { unfold block_ok, d. rewrite length_splice; [done|]. rewrite length_map_seqZ. unfold block_ok in Hbok.
    rewrite Hbok. unfold BSIZE in *. zlia. }
  exists (with_tx s1 x4), (tx_put t1 b d). split; [|split; [|split]].
  - cbn [writei_loop]. destruct (Z.ltb_spec tot N); [|lia].
    mstep (eq_refl (get_inode i s)). fold bn.
    rewrite w32_small by (unfold MAXFILE, NDIRECT, NINDIRECT, BSIZE in *; change (512 / 4) with 128 in *; lia).
    mstep E1. rewrite Hd. mstep E2. mstep E3. fold m. fold d. mstep E5. mstep E6. by mstep E7.
  - rewrite Hdd. apply (wrote_block s t i off m _ b s1 t1 (with_tx s1 x4)); try done. by rewrite <-Hdd.
  - cbn [f_icache with_tx t_log tx_put].
    assert (length (logged (t_log t1) b) + ibudget (tx_put t1 b d) (i_addrs (f_icache s1 i)) ≤
      length (logged (t_log t1) b) + ibudget t1 (i_addrs (f_icache s1 i)))%nat.
    { unfold ibudget. cbn [t_log tx_put].
      destruct (decide (indirect (i_addrs (f_icache s1 i)) ≠ 0 ∧ indirect (i_addrs (f_icache s1 i)) ∈ t_log t1)) as [[Hi0 Hi1]|];
        [|case_decide; lia]. rewrite decide_True; [lia|]. split; [done|]. apply logged_elem. by left. }
    destruct (decide (faddr (t_view t) addrs bn = 0)) as [Hz|Hz].
    + rewrite (bneed_1 _ _ _ Hz) in *. destruct (mp_fresh _ _ _ _ _ _ _ _ Hm Hz) as (_ & _ & Hbl).
      rewrite (logged_in _ _ Hbl) in *. lia.
    + rewrite (bneed_0 _ _ _ Hz) in *. pose proof (logged_length (t_log t1) b). lia.
  - intros n Hn. apply (mp_free _ _ _ _ _ _ _ _ Hm) in Hn. destruct Hn as (l & Hl & Hll & Hfl).
    exists l. split; [done|]. split; [done|]. eapply Forall_impl; [exact Hfl|]. cbn beta. intros c [Hc Hcf].
    split; [done|]. cbn [t_view tx_put]. rewrite in_use_other; [done|].
    pose proof (bblock_data sb _ c b (ao_geom _ _ _ Hok1) Hc ltac:(lia)). congruence.
Qed.

Lemma writei_loop_ok i src N n : ∀ s t tot off fuel,
  let addrs := i_addrs (f_icache s i) in let bn := off / BSIZE in
  alloc_ok sb s t → file_ok sb (t_view t) addrs → i_dev (f_icache s i) = ROOTDEV → t_held t = ∅ →
  0 ≤ off → 0 ≤ tot ≤ N → off + (N - tot) ≤ MAXFILE * BSIZE →
  tot = N ∨ (off mod BSIZE + (N - tot) ≤ BSIZE * Z.of_nat n ∧ bn + Z.of_nat n ≤ MAXFILE) → (n < fuel)%nat →
  file_room t (ibudget t addrs + wcost n (t_view t) addrs bn) →
  has_free sb (t_view t) (fbudget addrs + fcost n (t_view t) addrs bn) →
  ∃ s' t', writei_loop fuel i src tot off N s = Ret (off + (N - tot)) s' ∧
    wrote s t i off (off + (N - tot)) (λ o, src (o - (off - tot))) s' t' ∧
    (length (t_log t') + ibudget t' (i_addrs (f_icache s' i)) ≤
     length (t_log t) + ibudget t addrs + wcost n (t_view t) addrs bn)%nat ∧
    ∀ k, has_free sb (t_view t) (k + fbudget addrs + fcost n (t_view t) addrs bn) →
      has_free sb (t_view t') (k + fbudget (i_addrs (f_icache s' i))).
Proof.
  induction n as [|n IH]; intros s t tot off fuel addrs bn Hok Hf Hd Hh Ho Htot Hmax Hn Hfu Hroom Hfree;
    (destruct fuel as [|fuel]; [lia|]); (destruct (decide (tot = N)) as [->|Hne];
    [exists s, t; cbn [writei_loop]; rewrite Z.ltb_irrefl, Z.sub_diag, Z.add_0_r; split; [done|];
     split; [by apply wrote_nothing|]; split; [unfold addrs; lia|];
     intros k; apply has_free_le; fold addrs; lia|]).
  { unfold BSIZE in *. zlia. }
  destruct Hn as [?|[Hn Hbnn]]; [done|]. cbn [wcost fcost] in *. fold bn in Hroom, Hfree.
  destruct (writei_step s t i src tot off N fuel (wcost n (t_view t) addrs (bn + 1)))
    as (s2 & t2 & Hrun & Hw & Hlog & Hfr); try done; try lia.
  { fold addrs bn. eapply file_room_le; [|exact Hroom]. lia. }
  { fold addrs bn. eapply has_free_le; [|exact Hfree]. lia. }
  fold addrs bn in Hrun, Hw, Hlog, Hfr. set (m := Z.min (N - tot) (BSIZE - off mod BSIZE)) in *.
  assert (0 < m ≤ N - tot) as Hm0 by (unfold m, BSIZE; zlia).
  pose proof Hw as [W1 W2 W3 W4 _ W6 _ W8 _ _ _ _ _ _ _].
  destruct (decide (tot + m = N)) as [Hdone|Hmore].
  - exists s2, t2. rewrite Hrun, Hdone. destruct fuel as [|fuel]; [lia|]. cbn [writei_loop]. rewrite Z.ltb_irrefl.
    replace (off + (N - tot)) with (off + m) by lia. split; [done|]. split; [done|]. split; [lia|].
    intros k Hk. apply Hfr. eapply has_free_le; [|exact Hk]. cbn [fcost]. fold bn. lia.
  - assert (m = BSIZE - off mod BSIZE) as Hm by (unfold m in *; lia).
    assert ((off + m) / BSIZE = bn + 1 ∧ (off + m) mod BSIZE = 0) as [Hd1 Hd2] by (unfold bn, BSIZE in *; zlia).
    assert (∀ k, bn + 1 ≤ k < bn + 1 + Z.of_nat n →
      faddr (t_view t2) (i_addrs (f_icache s2 i)) k = faddr (t_view t) addrs k) as Hsame.
    { intros k Hk. apply W8; [unfold bn, BSIZE in *; zlia|]. unfold bn, BSIZE in *. zlia. }
    destruct (cost_ext _ _ _ _ n (bn + 1) Hsame) as [Hwc Hfc].
    destruct (IH s2 t2 (tot + m) (off + m) fuel) as (s' & t' & Hrun' & Hw2 & Hlog' & Hfr'); try done; try lia.
    + by rewrite W4.
    + by rewrite W2.
    + rewrite Hd1, Hwc. unfold file_room, tx_room in *. rewrite W2, W3. lia.
    + rewrite Hd1, Hfc. rewrite Nat.add_comm. apply Hfr. eapply has_free_le; [|exact Hfree]. lia.
    + exists s', t'. rewrite Hrun, Hrun'. replace (off + m + (N - (tot + m))) with (off + (N - tot)) in * by lia.
      split; [done|]. split.
      * apply (wrote_trans s t i off (off + m) _ _ s2 t2); [unfold m, BSIZE; zlia|lia|done|done|].
        replace (off + m - (tot + m)) with (off - tot) in Hw2 by lia. done.
      * split; [rewrite Hd1, Hwc in Hlog'; lia|]. intros k Hk. apply Hfr'. rewrite Hd1, Hfc.
        eapply has_free_le; [|apply (Hfr (k + fcost n (t_view t) addrs (bn + 1))%nat); eapply has_free_le; [|exact Hk]];
          cbn [fcost]; fold bn; lia.
Qed.

(** A block outside the bitmap and the data changes. *)
Lemma put_inode_block s t s' c d :
  alloc_ok sb s t → f_sb s' = f_sb s → c < sb_bmapstart sb → tx_rel (f_tx s') (tx_put t c d) →
  alloc_ok sb s' (tx_put t c d) ∧
  (∀ b, 0 ≤ b < sb_size sb → in_use sb (t_view (tx_put t c d)) b = in_use sb (t_view t) b) ∧
  (∀ b, data_start sb ≤ b → t_view (tx_put t c d) b = t_view t b).
Proof.
  intros [Hsb Hg Hm Hfu Hr] Hs Hc Hr'. destruct (data_start_pos _ _ Hg) as [Hds Hsz].
  assert (sb_bmapstart sb ≤ data_start sb) as Hbd.
  { unfold data_start. pose proof (Z.div_pos (sb_size sb) BPB ltac:(lia) ltac:(done)). lia. }
  assert (∀ b, 0 ≤ b < sb_size sb → in_use sb (t_view (tx_put t c d)) b = in_use sb (t_view t) b) as Hu.
  { intros b Hb. apply in_use_other. destruct (bblock sb _ b Hg Hb) as [-> _].
    pose proof (Z.div_pos b BPB ltac:(lia) ltac:(done)). lia. }
  split; [|split; [done|intros b Hb; apply upd_ne; lia]]. split; [congruence|done| | |done].
  - intros b Hb Hbs. rewrite Hu by lia. by apply Hm.
  - intros b Hb. rewrite Hu by done. by apply Hfu.
Qed.

Lemma file_ok_ext view view' addrs :
  file_ok sb view addrs → 0 ≤ data_start sb →
  (∀ b, 0 ≤ b < sb_size sb → in_use sb view' b = in_use sb view b) →
  (∀ b, data_start sb ≤ b → view' b = view b) →
  file_ok sb view' addrs ∧
  (∀ k, 0 ≤ k ≤ MAXFILE → faddr view' addrs k = faddr view addrs k) ∧
  ∀ o, 0 ≤ o → o / BSIZE < MAXFILE → faddr view addrs (o / BSIZE) ≠ 0 → fbyte view' addrs o = fbyte view addrs o.
Proof.
  intros Hf Hds Hu Hv. pose proof Hf as [Hl Hb].
  assert (∀ k, 0 ≤ k ≤ MAXFILE → faddr view' addrs k = faddr view addrs k) as Hfd.
  { intros k Hk. apply faddr_view. intros H0. apply Hv. by apply (file_indirect_range sb view addrs Hf). }
  split; [split; [done|]; apply (blocks_mono sb view _ (faddr view addrs)); try done; intros b Hbr; by rewrite Hu|].
  split; [done|]. intros o Ho Hd H0. assert (0 ≤ o / BSIZE) by (apply Z.div_pos; [lia|done]).
  unfold fbyte. rewrite Hfd by lia. rewrite Hv; [done|]. apply (bo_range _ _ _ Hb); [lia|done].
Qed.

(** The number of blocks that [[off, off + n)] touches. *)
Definition nblocks (off n : Z) : nat :=
  if decide (n = 0) then 0%nat else Z.to_nat ((off + n - 1) / BSIZE - off / BSIZE + 1).

(** The on-disk inode of cache entry [i] agrees with the entry. *)
Definition in_sync s t i : Prop :=
  inode_fits (f_icache s i) ∧ disk_inode sb (t_view t) (f_icache s i) = f_icache s i.

Context (devsw_write : Z → option (Z → (Z → Z) → Z → M (fs T) Z)).

Lemma writei_run s t i src off n s1 t1 :
  let ip := f_icache s i in
  readable sb s t i → 0 ≤ off ≤ i_size ip → 0 ≤ n → off + n ≤ MAXFILE * BSIZE →
  writei_loop (Z.to_nat (n / BSIZE + 3)) i src 0 off n s = Ret (off + n) s1 → alloc_ok sb s1 t1 →
  f_icache s1 i = with_addrs ip (i_addrs (f_icache s1 i)) →
  writei devsw_write i src off n s =
    (when ((0 <? n) && (i_size ip <? off + n)) (
       put_inode i (with_size (f_icache s1 i) (off + n)) ;; iupdate i) ;; mret n) s1.
Proof.
  intros ip [Hok Hh Hd Ht Hs Hf Hfull] Ho Hn Hmax Hrun _ He. unfold writei.
  assert (MAXFILE * BSIZE = 71680) as HM by done.
  mstep (eq_refl (get_inode i s)). fold ip. destruct (Z.eqb_spec (i_type ip) T_DEV); [done|].
  rewrite w64_small by lia. destruct (Z.ltb_spec (i_size ip) off); [lia|].
  destruct (Z.ltb_spec (off + n) off); [lia|]. cbn [orb]. destruct (Z.ltb_spec (MAXFILE * BSIZE) (off + n)); [lia|].
  mstep Hrun. mstep (eq_refl (get_inode i s1)). rewrite w32_small by lia. rewrite He at 1. done.
Qed.

(** What a successful write of [n] bytes at [off] leaves. *)
Record write_done s t i src off n s' t' : Prop := {
  wd_readable : readable sb s' t' i;
  wd_sync : in_sync s' t' i;
  wd_size : i_size (f_icache s' i) = Z.max (i_size (f_icache s i)) (off + n);
  wd_entry : f_icache s' i =
    with_size (with_addrs (f_icache s i) (i_addrs (f_icache s' i))) (i_size (f_icache s' i));
  wd_bytes o : 0 ≤ o < i_size (f_icache s' i) →
    fbyte (t_view t') (i_addrs (f_icache s' i)) o =
      if decide (off ≤ o < off + n) then src (o - off) else fbyte (t_view t) (i_addrs (f_icache s i)) o;
  wd_entries j : j ≠ i → f_icache s' j = f_icache s j;
  wd_inodes jp : on_disk sb jp → i_inum jp ≠ i_inum (f_icache s i) →
    disk_inode sb (t_view t') jp = disk_inode sb (t_view t) jp;
  wd_view c : data_start sb ≤ c < sb_size sb → in_use sb (t_view t) c = true →
    (∀ k, 0 ≤ k ≤ MAXFILE → faddr (t_view t) (i_addrs (f_icache s i)) k ≠ c) → t_view t' c = t_view t c;
  wd_log : (length (t_log t') ≤ length (t_log t) + ibudget t (i_addrs (f_icache s i)) +
    wcost (nblocks off n) (t_view t) (i_addrs (f_icache s i)) (off / BSIZE) + 1)%nat;
  wd_cap : t_cap t' = t_cap t;
}.

Lemma nblocks_spec off n :
  0 ≤ off → 0 ≤ n → off + n ≤ MAXFILE * BSIZE →
  (0 = n ∨ off mod BSIZE + (n - 0) ≤ BSIZE * Z.of_nat (nblocks off n) ∧
           off / BSIZE + Z.of_nat (nblocks off n) ≤ MAXFILE) ∧
  (nblocks off n < Z.to_nat (n / BSIZE + 3))%nat.
Proof.
  assert (MAXFILE * BSIZE = 71680 ∧ MAXFILE = 140) as [HM HM'] by done. rewrite HM, HM'. intros Ho Hn Hmax.
  unfold nblocks. case_decide as H0; [subst; split; [by left|unfold BSIZE; zlia]|].
  unfold BSIZE. split; [right|zlia]. rewrite Z2Nat.id by zlia. zlia.
Qed.

(** Without growth: the blocks were all there. *)
Lemma write_done_same s t i src off n s1 t1 :
  readable sb s t i → in_sync s t i → on_disk sb (f_icache s i) → 0 ≤ off → 0 ≤ n →
  off + n ≤ i_size (f_icache s i) → wrote s t i off (off + n) (λ o, src (o - off)) s1 t1 →
  (length (t_log t1) ≤ length (t_log t) + ibudget t (i_addrs (f_icache s i)) +
    wcost (nblocks off n) (t_view t) (i_addrs (f_icache s i)) (off / BSIZE))%nat →
  write_done s t i src off n s1 t1.
Proof.
  intros [Hok Hh Hd Ht Hs Hf Hfull] Hsync Hdisk Ho Hn Hsz [W1 W2 W3 W4 W5 W6 W7 W8 W9 W10 W11 WS W12 W13 W14] Hlog.
  assert (MAXFILE * BSIZE = 71680) as HM by done.
  assert (f_icache s1 i = f_icache s i) as He.
  { apply WS. intros o Hor. apply Hfull; unfold BSIZE; zlia. }
  assert (∀ o, 0 ≤ o < i_size (f_icache s i) → o / BSIZE < MAXFILE ∧
    faddr (t_view t) (i_addrs (f_icache s i)) (o / BSIZE) ≠ 0) as Hin.
  { intros o Hor. assert (MAXFILE = 140) by done. split; [unfold BSIZE in *; zlia|].
    apply Hfull; unfold BSIZE; zlia. }
  destruct (iblock sb _ _ (ao_geom _ _ _ Hok) (proj2 Hdisk)) as (_ & _ & Hib).
  rewrite He in *. split; rewrite ?He; try done.
  - split; rewrite ?He; try done; [congruence|]. intros bn Hbn Hlt.
    assert (bn < MAXFILE) by (assert (MAXFILE = 140) by done; unfold BSIZE in *; lia).
    rewrite W7; [by apply Hfull|lia|by apply Hfull].
  - unfold in_sync, disk_inode. rewrite He, W14 by lia. exact Hsync.
  - lia.
  - intros o Hor. destruct (Hin o Hor). case_decide as Hc; [by apply W10|]. by apply W11; [lia| | |].
  - intros jp [_ Hjp] Hne. unfold disk_inode. destruct (iblock sb _ _ (ao_geom _ _ _ Hok) Hjp) as (_ & _ & Hjb).
    by rewrite W14 by lia.
  - lia.
Qed.

Lemma file_addrs_fit view addrs :
  file_ok sb view addrs → 0 ≤ data_start sb → sb_size sb < 2 ^ 31 → Forall (λ a, 0 ≤ a < 2 ^ 32) addrs.
Proof.
  intros [Hl Hb] Hds Hsz. apply Forall_lookup. intros k a Hk. pose proof (lookup_lt_Some _ _ _ Hk) as Hlt.
  destruct (decide (a = 0)) as [->|H0]; [lia|].
  assert (∃ j, 0 ≤ j ≤ MAXFILE ∧ faddr view addrs j = a) as (j & Hj & Hja).
  { assert (MAXFILE = 140) as HM by done. destruct (decide (k = 12%nat)) as [->|Hne].
    - exists MAXFILE. split; [lia|]. change (indirect addrs = a). unfold indirect.
      change (Z.to_nat NDIRECT) with 12%nat. by rewrite nth_lookup, Hk.
    - exists (Z.of_nat k). split; [lia|]. unfold faddr, NDIRECT. destruct (Z.ltb_spec (Z.of_nat k) 12); [|lia].
      by rewrite Nat2Z.id, nth_lookup, Hk. }
  destruct (bo_range _ _ _ Hb j) as [Hr _]; [done|by rewrite Hja|]. lia.
Qed.

Lemma write_done_grown s t i src off n s1 t1 :
  readable sb s t i → in_sync s t i → on_disk sb (f_icache s i) → 0 ≤ off ≤ i_size (f_icache s i) →
  off + n ≤ MAXFILE * BSIZE → i_size (f_icache s i) < off + n →
  wrote s t i off (off + n) (λ o, src (o - off)) s1 t1 →
  (length (t_log t1) ≤ length (t_log t) + ibudget t (i_addrs (f_icache s i)) +
    wcost (nblocks off n) (t_view t) (i_addrs (f_icache s i)) (off / BSIZE))%nat →
  log_room t1 1 →
  ∃ s' t', (put_inode i (with_size (f_icache s1 i) (off + n)) ;; iupdate i) s1 = Ret () s' ∧
    write_done s t i src off n s' t' ∧ i_addrs (f_icache s' i) = i_addrs (f_icache s1 i) ∧
    ∀ b, 0 ≤ b < sb_size sb → in_use sb (t_view t') b = in_use sb (t_view t1) b.
Proof.
  intros [Hok Hh Hd Ht Hs Hf Hfull] [Hfit Hsync] Hdisk Ho Hmax Hgrow
    [W1 W2 W3 W4 W5 W6 W7 W8 W9 W10 W11 WS W12 W13 W14] Hlog Hroom.
  assert (MAXFILE * BSIZE = 71680 ∧ MAXFILE = 140) as [HM HM'] by done.
  set (ip := f_icache s i) in *. set (ip2 := with_size (f_icache s1 i) (off + n)).
  assert (ip2 = with_size (with_addrs ip (i_addrs (f_icache s1 i))) (off + n)) as Hip2
    by (unfold ip2; by rewrite W4 at 1).
  assert (i_addrs ip2 = i_addrs (f_icache s1 i) ∧ i_dev ip2 = i_dev ip ∧ i_inum ip2 = i_inum ip ∧
    i_type ip2 = i_type ip ∧ i_size ip2 = off + n) as (Ea & Ed & En & Et & Ez).
  { split; [done|]. rewrite Hip2. done. }
  set (s2 := set_inode s1 i ip2). assert (f_icache s2 i = ip2) as Hi2 by apply upd_eq.
  assert (alloc_ok sb s2 t1) as Hok2 by (destruct W1; by split).
  destruct (data_start_pos _ _ (ao_geom _ _ _ W1)) as [Hds Hsz].
  destruct (iblock sb _ _ (ao_geom _ _ _ W1) (proj2 Hdisk)) as (_ & Hibh & Hib). fold ip in Hibh, Hib.
  destruct (iupdate_spec sb s2 t1 i) as (x & Hrun & Hx); rewrite ?Hi2.
  { apply W1. } { apply W1. } { apply W1. } { unfold on_disk. rewrite Ed, En. exact Hdisk. }
  { rewrite Ea. by apply (file_ok_len sb) in W6. } { rewrite En, W2, Hh. done. } { exact Hroom. }
  rewrite Hi2 in Hx. set (s3 := with_tx s2 x). set (t3 := tx_iupdate sb t1 ip2) in *.
  assert (f_icache s3 i = ip2) as Hi3 by exact Hi2.
  destruct (put_inode_block s2 t1 s3 (IBLOCK (i_inum ip2) sb) (store_dinode ip2 (t_view t1 (IBLOCK (i_inum ip2) sb))) Hok2)
    as (Hok3 & Hu3 & Hv3); [done|rewrite En; lia|exact Hx|]. fold (tx_iupdate sb t1 ip2) in Hok3, Hu3, Hv3. fold t3 in Hok3, Hu3, Hv3.
  destruct (file_ok_ext (t_view t1) (t_view t3) (i_addrs (f_icache s1 i)) W6 ltac:(lia) Hu3 Hv3) as (Hf3 & Hfd3 & Hb3).
  assert (∀ o, 0 ≤ o < off + n → 0 ≤ o / BSIZE < MAXFILE ∧
    faddr (t_view t1) (i_addrs (f_icache s1 i)) (o / BSIZE) ≠ 0) as Hin.
  { intros o Hor. assert (0 ≤ o / BSIZE < MAXFILE) as Hr by (unfold BSIZE in *; zlia). split; [done|].
    destruct (decide (off ≤ o)); [apply (W10 o); lia|]. rewrite W7; [|done|]; apply Hfull; unfold BSIZE in *; zlia. }
  assert (inode_fits ip2) as Hfit2.
  { destruct Hfit. rewrite Hip2. split; cbn; try done; [lia| |by apply (file_ok_len sb) in W6].
    apply (file_addrs_fit (t_view t1)); [done|lia|apply W1]. }
  assert (disk_inode sb (t_view t3) ip2 = ip2) as Hsync3.
  { unfold disk_inode, t3. cbn [t_view tx_iupdate tx_put]. unfold tx_iupdate. cbn [t_view tx_put]. rewrite upd_eq.
    rewrite load_store_dinode; [by destruct ip2| |done|done].
    eapply tx_view_ok; [apply W1|]. by rewrite En. }
  exists s3, t3. split; [mstep (eq_refl (put_inode i ip2 s1)); exact Hrun|].
  split; [|split; [by rewrite Hi3|exact Hu3]]. split; rewrite ?Hi3.
  - split; rewrite ?Hi3, ?Ea, ?Ed, ?Et, ?Ez; try done; [exact (eq_trans W2 Hh)|lia|]. intros bn Hbn Hlt.
    rewrite Hfd3 by (unfold BSIZE in *; lia). destruct (Hin (bn * BSIZE)) as [_ Hn]; [unfold BSIZE in *; lia|].
    by rewrite Z.div_mul in Hn by done.
  - split; by rewrite Hi3.
  - rewrite Ez. change (off + n = Z.max (i_size ip) (off + n)). lia.
  - rewrite Ea, Ez. exact Hip2.
  - rewrite Ea, Ez. intros o Hor. destruct (Hin o Hor) as [Hr H0]. rewrite Hb3 by (done || lia).
    case_decide as Hc; [by apply W10|]. apply W11; [lia|lia|done|]. apply Hfull; unfold BSIZE in *; zlia.
  - intros j Hj. cbn. rewrite upd_ne by done. by apply W5.
  - intros jp Hjp Hne. unfold t3. transitivity (disk_inode sb (t_view t1) jp).
    + apply (disk_inode_other sb _ (t_home t1)); [apply W1|unfold on_disk; rewrite Ed, En; exact Hdisk|done|by rewrite En| |].
      * rewrite Ea. by apply (file_ok_len sb) in W6.
      * eapply tx_view_ok; [apply W1|]. by rewrite En.
    + unfold disk_inode. destruct Hjp as [_ Hjp].
      destruct (iblock sb _ _ (ao_geom _ _ _ Hok) Hjp) as (_ & _ & Hjb). by rewrite W14 by lia.
  - intros c Hc Hu Hno. rewrite Hv3 by lia. by apply W13.
  - change (t_log t3) with (logged (t_log t1) (IBLOCK (i_inum ip2) sb)). etransitivity; [apply logged_length|].
    change (f_icache s i) with ip. lia.
  - done.
Qed.

(** What [writei] of [n] bytes at [off] may need: blocks in the log, and free
    blocks. *)
Definition write_log_need s t i off n : nat :=
  ibudget t (i_addrs (f_icache s i)) +
  wcost (nblocks off n) (t_view t) (i_addrs (f_icache s i)) (off / BSIZE) + 1.
Definition write_free_need s t i off n : nat :=
  fbudget (i_addrs (f_icache s i)) +
  fcost (nblocks off n) (t_view t) (i_addrs (f_icache s i)) (off / BSIZE).

Lemma writei_ok s t i src off n :
  readable sb s t i → in_sync s t i → on_disk sb (f_icache s i) →
  0 ≤ off ≤ i_size (f_icache s i) → 0 ≤ n → off + n ≤ MAXFILE * BSIZE →
  file_room t (write_log_need s t i off n) → has_free sb (t_view t) (write_free_need s t i off n) →
  ∃ s' t', writei devsw_write i src off n s = Ret n s' ∧ write_done s t i src off n s' t' ∧
    ∀ k, has_free sb (t_view t) (k + write_free_need s t i off n) →
      has_free sb (t_view t') (k + fbudget (i_addrs (f_icache s' i))).
Proof.
  intros Hrd Hsync Hdisk Ho Hn Hmax Hroom Hfree. pose proof Hrd as [Hok Hh Hd Ht Hs Hf Hfull].
  unfold write_log_need, write_free_need in *.
  destruct (nblocks_spec off n ltac:(lia) Hn Hmax) as [Hnb Hfu].
  destruct (writei_loop_ok i src n (nblocks off n) s t 0 off (Z.to_nat (n / BSIZE + 3)))
    as (s1 & t1 & Hrun & Hw & Hlog & Hfr); rewrite ?Z.sub_0_r; try done; try lia.
  { eapply file_room_le; [|exact Hroom]. lia. }
  rewrite Z.sub_0_r in Hrun, Hw.
  assert (∀ o, o - (off - 0) = o - off) as Hz by (intros; lia).
  assert (wrote s t i off (off + n) (λ o, src (o - off)) s1 t1) as Hw'.
  { destruct Hw as [W1 W2 W3 W4 W5 W6 W7 W8 W9 W10 W11 WS W12 W13 W14]. split; try done.
    intros o Ho'. specialize (W10 o Ho'). by rewrite Hz in W10. }
  pose proof (writei_run s t i src off n s1 t1 Hrd Ho Hn Hmax Hrun (wr_ok _ _ _ _ _ _ _ _ Hw')
    (wr_entry _ _ _ _ _ _ _ _ Hw')) as Hrun'.
  assert (length (t_log t1) ≤ length (t_log t) + ibudget t (i_addrs (f_icache s i)) +
    wcost (nblocks off n) (t_view t) (i_addrs (f_icache s i)) (off / BSIZE))%nat as Hlog' by lia.
  destruct (decide (i_size (f_icache s i) < off + n)) as [Hg|Hg].
  - destruct (write_done_grown s t i src off n s1 t1) as (s2 & t2 & Hrun2 & Hdone & Ha & Hu); try done.
    { unfold file_room, log_room, tx_room in *. rewrite (wr_held _ _ _ _ _ _ _ _ Hw'), (wr_cap _ _ _ _ _ _ _ _ Hw').
      lia. }
    exists s2, t2. split; [|split; [done|]];
      [|intros k Hk; rewrite Ha; eapply has_free_ext; [exact Hu|]; apply Hfr; eapply has_free_le; [|exact Hk]; lia].
    rewrite Hrun'.
    destruct (Z.ltb_spec 0 n); [|lia]. destruct (Z.ltb_spec (i_size (f_icache s i)) (off + n)); [|lia].
    cbn [andb when]. by mstep Hrun2.
  - exists s1, t1. split; [|split; [apply write_done_same; (done || lia)|]];
      [|intros k Hk; apply Hfr; eapply has_free_le; [|exact Hk]; lia]. rewrite Hrun'.
    destruct (Z.ltb_spec (i_size (f_icache s i)) (off + n)); [lia|]. by rewrite andb_false_r.
Qed.
End Write.

Section Theorems.
Context {T : Type} `{Txn T} (sb : superblock).
Context (devsw_read : Z → option (Z → Z → M (fs T) (Z * list Z))).
Context (devsw_write : Z → option (Z → (Z → Z) → Z → M (fs T) Z)).
Implicit Types (s : fs T) (t : tx).

(** C21: [writei] of [n] bytes at an offset within the file, direct and
    indirect blocks alike: with enough log space and free blocks it returns
    [n]; the file then reads as the source in [[off, off + n)] and as before
    elsewhere; it is as long as the write requires, and its on-disk inode says
    so; no other cache entry, no other on-disk inode, and no block in use
    outside the file has changed; and it logs no more blocks than the write
    needs. *)
Theorem writei_correct s t i src off n :
  let ip := f_icache s i in
  readable sb s t i → in_sync sb s t i → on_disk sb ip →
  0 ≤ off ≤ i_size ip → 0 ≤ n → off + n ≤ MAXFILE * BSIZE →
  file_room t (write_log_need s t i off n) → has_free sb (t_view t) (write_free_need s t i off n) →
  ∃ s' t', writei devsw_write i src off n s = Ret n s' ∧
    let ip' := f_icache s' i in
    readable sb s' t' i ∧ in_sync sb s' t' i ∧
    i_size ip' = Z.max (i_size ip) (off + n) ∧ i_type ip' = i_type ip ∧ i_nlink ip' = i_nlink ip ∧
    (∀ o, 0 ≤ o < i_size ip' →
       fbyte (t_view t') (i_addrs ip') o =
         if decide (off ≤ o < off + n) then src (o - off) else fbyte (t_view t) (i_addrs ip) o) ∧
    (∀ j, j ≠ i → f_icache s' j = f_icache s j) ∧
    (∀ jp, on_disk sb jp → i_inum jp ≠ i_inum ip →
       disk_inode sb (t_view t') jp = disk_inode sb (t_view t) jp) ∧
    (∀ c, data_start sb ≤ c < sb_size sb → in_use sb (t_view t) c = true →
       (∀ k, 0 ≤ k ≤ MAXFILE → faddr (t_view t) (i_addrs ip) k ≠ c) → t_view t' c = t_view t c) ∧
    (length (t_log t') ≤ length (t_log t) + write_log_need s t i off n)%nat.
Proof.
  intros ip Hrd Hsync Hdisk Ho Hn Hmax Hroom Hfree.
  destruct (writei_ok sb devsw_write s t i src off n Hrd Hsync Hdisk Ho Hn Hmax Hroom Hfree) as (s' & t' & Hrun & Hd & _).
  destruct Hd as [D1 D2 D3 D4 D5 D6 D7 D8 D9 D10].
  assert (i_type (f_icache s' i) = i_type ip ∧ i_nlink (f_icache s' i) = i_nlink ip) as [D11 D12].
  { by rewrite D4. }
  exists s', t'. cbn zeta. split_and!; try done. unfold write_log_need. subst ip. lia.
Qed.

(** C22: [readi] returns the bytes of the file from the offset on, as many as
    asked for or as there are, and changes nothing; a read that starts after
    the end or wraps around is refused. *)
Theorem readi_correct s t i off n :
  let ip := f_icache s i in
  readable sb s t i → tx_room t 1 → 0 ≤ off < 2 ^ 64 → 0 ≤ n < 2 ^ 64 →
  if (i_size ip <? off) || (2 ^ 64 <=? off + n)
  then readi devsw_read i off n s = Ret (-1, []) s
  else
    let k := Z.min n (i_size ip - off) in
    ∃ s', readi devsw_read i off n s = Ret (k, map (fbyte (t_view t) (i_addrs ip)) (seqZ off k)) s' ∧
      f_icache s' = f_icache s ∧ f_sb s' = f_sb s ∧ tx_rel (f_tx s') t.
Proof.
  intros ip Hrd Hroom Ho Hn. pose proof Hrd as [_ _ _ Ht Hs _ _]. fold ip in Ht, Hs.
  assert (MAXFILE * BSIZE = 71680) as HM by done.
  destruct (Z.ltb_spec (i_size ip) off) as [Hso|Hso]; cbn [orb].
  { unfold readi. mstep (eq_refl (get_inode i s)). fold ip. destruct (Z.eqb_spec (i_type ip) T_DEV); [done|].
    by destruct (Z.ltb_spec (i_size ip) off); [|lia]. }
  destruct (Z.leb_spec (2 ^ 64) (off + n)) as [Hov|Hov].
  { unfold readi. mstep (eq_refl (get_inode i s)). fold ip. destruct (Z.eqb_spec (i_type ip) T_DEV); [done|].
    assert (w64 (off + n) = off + n - 2 ^ 64) as ->.
    { unfold w64. rewrite <-(Z.mod_add _ (-1)) by lia. apply Z.mod_small. lia. }
    destruct (Z.ltb_spec (i_size ip) off); [lia|]. destruct (Z.ltb_spec (off + n - 2 ^ 64) off); [done|lia]. }
  destruct (readi_ok sb devsw_read s t i off n Hrd Hroom) as (x & Hrun & Hx); try done; [fold ip; lia|lia|].
  exists (with_tx s x). by split.
Qed.
End Theorems.
