(* ===== verification/FsDir.v ===== *)
(** Directories: [dirlookup] and [dirlink] of kern/fs.c on the contents of a
    directory's file.

    A directory is the array of entries [dent] that its file holds;
    [find_entry] is what a name stands for in it. *)

From S2P Require Import Prelude BufferCache Superblock Txn Fs FsAlloc FsInode FsFile FsRw.

(** Entry [j] of the directory whose file has the addresses [addrs]. *)
Definition dent (view : Z → block) (addrs : list Z) (j : Z) : list Z := map (fbyte view addrs) (seqZ (16 * j) 16).
(** The entry is in use and has the name. *)
Definition matches (name de : list Z) : bool := negb (de_inum de =? 0) && (namecmp name (de_name de) =? 0).

(** The offset and inode number of the first entry with the name, among [n]
    from [j]. *)
Fixpoint find_entry (n : nat) (j : Z) (d : Z → list Z) (name : list Z) : option (Z * Z) :=
  match n with
  | O => None
  | S n => if matches name (d j) then Some (16 * j, de_inum (d j)) else find_entry n (j + 1) d name
  end.
(** The first free slot, or the end. *)
Fixpoint free_slot (n : nat) (j : Z) (d : Z → list Z) : Z :=
  match n with
  | O => j
  | S n => if de_inum (d j) =? 0 then j else free_slot n (j + 1) d
  end.

Lemma free_slot_spec d n : ∀ j, let k := free_slot n j d in
  j ≤ k ≤ j + Z.of_nat n ∧ (k < j + Z.of_nat n → de_inum (d k) = 0).
Proof.
  induction n as [|n IH]; intros j; cbn [free_slot]; [cbv zeta; lia|].
  destruct (Z.eqb_spec (de_inum (d j)) 0); [cbv zeta; split; [lia|done]|]. specialize (IH (j + 1)). cbv zeta in *.
  replace (j + Z.of_nat (S n)) with (j + 1 + Z.of_nat n) by lia. lia.
Qed.

(** ** Names *)

Lemma strncmp_self n : ∀ p, strncmp_bytes n p p = 0.
Proof.
  induction n as [|n IH]; intros p; cbn [strncmp_bytes]; [done|]. rewrite Z.eqb_refl, andb_true_r.
  destruct (negb _); [apply IH|lia].
Qed.
(** Padding with null bytes does not matter. *)
Lemma strncmp_strncpy n : ∀ p q, strncmp_bytes n p (strncpy_bytes n q) = strncmp_bytes n p q.
Proof.
  induction n as [|n IH]; intros p q; cbn [strncmp_bytes strncpy_bytes]; [done|].
  destruct (Z.eqb_spec (List.hd 0 q) 0) as [->|Hq]; cbn [replicate List.hd List.tl]; [|by rewrite IH].
  by destruct (Z.eqb_spec (List.hd 0 p) 0) as [->|].
Qed.
Lemma length_strncpy n : ∀ q, length (strncpy_bytes n q) = n.
Proof.
  induction n as [|n IH]; intros q; cbn [strncpy_bytes]; [done|].
  destruct (_ =? 0); [apply length_replicate|]. cbn. by rewrite IH.
Qed.
Lemma length_mk_dirent inum name : length (mk_dirent inum name) = 16%nat.
Proof. unfold mk_dirent. rewrite length_app, length_bytes_of, length_strncpy. done. Qed.
Lemma matches_new name' name inum :
  0 < inum < 2 ^ 16 → matches name' (mk_dirent inum name) = (namecmp name' name =? 0).
Proof.
  intros Hi. unfold matches, mk_dirent, de_inum, de_name.
  rewrite take_app_length', drop_app_length' by (by rewrite length_bytes_of).
  rewrite of_bytes_bytes_of. change (8 * Z.of_nat 2) with 16. rewrite Z.mod_small by lia.
  destruct (Z.eqb_spec inum 0); [lia|]. cbn [negb andb]. unfold namecmp. by rewrite strncmp_strncpy.
Qed.

(** ** An entry is added *)

Lemma find_entry_ext d d' name n : ∀ j,
  (∀ k, j ≤ k < j + Z.of_nat n → d' k = d k) → find_entry n j d' name = find_entry n j d name.
Proof.
  induction n as [|n IH]; intros j Hd; cbn [find_entry]; [done|]. rewrite Hd by lia.
  rewrite IH; [done|]. intros k Hk. apply Hd. lia.
Qed.
Lemma find_entry_app d name a b : ∀ j,
  find_entry (a + b) j d name =
    match find_entry a j d name with Some r => Some r | None => find_entry b (j + Z.of_nat a) d name end.
Proof.
  induction a as [|a IH]; intros j; cbn [find_entry plus]; [by rewrite Z.add_0_r|].
  destruct (matches _ _); [done|]. rewrite IH. replace (j + 1 + Z.of_nat a) with (j + Z.of_nat (S a)) by lia. done.
Qed.

(** Slot [k], free or at the end of the [n] entries, gets the entry [e]. *)
Lemma find_entry_add d d' name e k n :
  0 ≤ k ≤ Z.of_nat n → (k < Z.of_nat n → de_inum (d k) = 0) →
  (∀ j, 0 ≤ j → d' j = if decide (j = k) then e else d j) →
  let n' := Z.to_nat (Z.max (Z.of_nat n) (k + 1)) in
  (matches name e = false → find_entry n' 0 d' name = find_entry n 0 d name) ∧
  (matches name e = true → find_entry n 0 d name = None → find_entry n' 0 d' name = Some (16 * k, de_inum e)).
Proof.
  intros Hk Hfree Hd n'. set (a := Z.to_nat k).
  assert (∀ b, find_entry (a + S b) 0 d' name =
    match find_entry a 0 d name with
    | Some r => Some r
    | None => if matches name e then Some (16 * k, de_inum e) else find_entry b (k + 1) d name
    end) as Hnew.
  { intros b. rewrite find_entry_app. rewrite (find_entry_ext d) by (intros j Hj; rewrite Hd, decide_False by lia; done).
    destruct (find_entry a 0 d name); [done|]. cbn [find_entry]. replace (0 + Z.of_nat a) with k by lia.
    rewrite Hd, decide_True by lia. destruct (matches name e); [done|].
    apply find_entry_ext. intros j Hj. by rewrite Hd, decide_False by lia. }
  assert (find_entry n 0 d name = match find_entry a 0 d name with
    | Some r => Some r | None => find_entry (n - S a) (k + 1) d name end) as Hold.
  { destruct (decide (k < Z.of_nat n)) as [Hlt|Hge].
    - replace n with (a + S (n - S a))%nat at 1 by lia. rewrite find_entry_app.
      destruct (find_entry a 0 d name); [done|]. cbn [find_entry]. replace (0 + Z.of_nat a) with k by lia.
      unfold matches at 1. rewrite Hfree by done. done.
    - assert (n = a) as -> by lia. replace (a - S a)%nat with 0%nat by lia. by destruct (find_entry a 0 d name). }
  assert (n' = a + S (n - S a))%nat as -> by lia. rewrite Hnew, Hold. split.
  - by intros ->.
  - intros ->. by destruct (find_entry a 0 d name).
Qed.

(** Names with the same first bytes are the same name. *)
Lemma strncmp_same n : ∀ p q r, strncmp_bytes n p q = 0 → strncmp_bytes n p r = strncmp_bytes n q r.
Proof.
  induction n as [|n IH]; intros p q r; cbn [strncmp_bytes]; [done|].
  destruct (Z.eqb_spec (List.hd 0 p) 0) as [Hp|Hp]; cbn [negb andb].
  - intros Hq. assert (List.hd 0 q = 0) as -> by lia. by rewrite Hp.
  - destruct (Z.eqb_spec (List.hd 0 p) (List.hd 0 q)) as [Heq|]; [|lia]. intros Hs. rewrite <-Heq.
    destruct (Z.eqb_spec (List.hd 0 p) 0); [done|]. cbn [negb andb]. by rewrite (IH _ _ (List.tl r) Hs).
Qed.
Lemma find_entry_same d name name' n : ∀ j,
  namecmp name' name = 0 → find_entry n j d name' = find_entry n j d name.
Proof.
  intros j Hn. revert j. induction n as [|n IH]; intros j; cbn [find_entry]; [done|].
  rewrite IH. unfold matches, namecmp in *. by rewrite (strncmp_same _ _ _ _ Hn).
Qed.

Section Dir.
Context {T : Type} `{Txn T} (sb : superblock).
Context (devsw_read : Z → option (Z → Z → M (fs T) (Z * list Z))).
Context (devsw_write : Z → option (Z → (Z → Z) → Z → M (fs T) Z)).
Context (pid : Z).
Implicit Types (s : fs T) (t : tx).

(** Cache entry [i] is a directory. *)
Record directory s t i : Prop := {
  dr_read : readable sb s t i;
  dr_type : i_type (f_icache s i) = T_DIR;
  dr_size : i_size (f_icache s i) mod 16 = 0;
}.
(** Its entries, and how many. *)
Definition dents s t i : Z → list Z := dent (t_view t) (i_addrs (f_icache s i)).
Definition ndents s i : nat := Z.to_nat (i_size (f_icache s i) / 16).

Lemma directory_tx s t i x : directory s t i → tx_rel x t → directory (with_tx s x) t i.
Proof. intros [[Hok Hh Hd Ht Hs Hf Hfull] Hty Hsz] Hx. split; [|done..]. split; [|done..]. by destruct Hok. Qed.

Lemma ndents_size s t i : directory s t i → i_size (f_icache s i) = 16 * Z.of_nat (ndents s i).
Proof. intros [Hrd _ Hsz]. pose proof (rd_size _ _ _ _ Hrd). unfold ndents. zlia. Qed.

(** An entry is read. *)
Lemma readi_dent s t i j :
  directory s t i → tx_room t 1 → 0 ≤ j < Z.of_nat (ndents s i) →
  ∃ x, readi devsw_read i (16 * j) 16 s = Ret (16, dents s t i j) (with_tx s x) ∧ tx_rel x t.
Proof.
  intros Hd Hroom Hj. pose proof (ndents_size _ _ _ Hd) as Hsz. pose proof (rd_size _ _ _ _ (dr_read _ _ _ Hd)) as Hmax.
  assert (MAXFILE * BSIZE = 71680) as HM by done.
  destruct (readi_ok sb devsw_read s t i (16 * j) 16 (dr_read _ _ _ Hd) Hroom ltac:(lia) ltac:(lia) ltac:(lia))
    as (x & E & Hx).
  rewrite Z.min_l in E by lia. by exists x.
Qed.

Lemma dirlookup_loop_ok s t i name n : ∀ j fuel x,
  directory s t i → tx_room t 1 → tx_rel x t → 0 ≤ j → Z.of_nat n = Z.of_nat (ndents s i) - j → (n < fuel)%nat →
  ∃ x', dirlookup_loop devsw_read fuel i name (16 * j) (with_tx s x) =
      Ret (find_entry n j (dents s t i) name) (with_tx s x') ∧ tx_rel x' t.
Proof.
  induction n as [|n IH]; intros j fuel x Hd Hroom Hx Hj Hn Hfu; (destruct fuel as [|fuel]; [lia|]);
    pose proof (ndents_size _ _ _ Hd) as Hsz; cbn [dirlookup_loop find_entry]; mstep (eq_refl (get_inode i (with_tx s x)));
    change (f_icache (with_tx s x) i) with (f_icache s i).
  { destruct (Z.ltb_spec (16 * j) (i_size (f_icache s i))); [lia|]. by exists x. }
  destruct (Z.ltb_spec (16 * j) (i_size (f_icache s i))); [|lia].
  destruct (readi_dent (with_tx s x) t i j (directory_tx _ _ _ _ Hd Hx) Hroom) as (x1 & E1 & Hx1);
    [change (ndents (with_tx s x) i) with (ndents s i); lia|].
  change (dents (with_tx s x) t i j) with (dents s t i j) in E1. mstep E1.
  destruct (IH (j + 1) fuel x1 Hd Hroom Hx1 ltac:(lia) ltac:(lia) ltac:(lia)) as (x' & E & Hx').
  replace (16 * (j + 1)) with (16 * j + 16) in E by lia. unfold matches.
  destruct (de_inum (dents s t i j) =? 0); cbn [negb andb]; [by exists x'|].
  destruct (namecmp name _ =? 0); [by exists x1|by exists x'].
Qed.

Lemma dirlink_scan_ok s t i n : ∀ j fuel x,
  directory s t i → tx_room t 1 → tx_rel x t → 0 ≤ j → Z.of_nat n = Z.of_nat (ndents s i) - j → (n < fuel)%nat →
  ∃ x', dirlink_scan devsw_read fuel i (16 * j) (with_tx s x) =
      Ret (16 * free_slot n j (dents s t i)) (with_tx s x') ∧ tx_rel x' t.
Proof.
  induction n as [|n IH]; intros j fuel x Hd Hroom Hx Hj Hn Hfu; (destruct fuel as [|fuel]; [lia|]);
    pose proof (ndents_size _ _ _ Hd) as Hsz; cbn [dirlink_scan free_slot]; mstep (eq_refl (get_inode i (with_tx s x)));
    change (f_icache (with_tx s x) i) with (f_icache s i).
  { destruct (Z.ltb_spec (16 * j) (i_size (f_icache s i))); [lia|]. by exists x. }
  destruct (Z.ltb_spec (16 * j) (i_size (f_icache s i))); [|lia].
  destruct (readi_dent (with_tx s x) t i j (directory_tx _ _ _ _ Hd Hx) Hroom) as (x1 & E1 & Hx1);
    [change (ndents (with_tx s x) i) with (ndents s i); lia|].
  change (dents (with_tx s x) t i j) with (dents s t i j) in E1. mstep E1.
  change (16 =? 16) with true. cbn [negb].
  destruct (de_inum (dents s t i j) =? 0); [exists x1; split; [reflexivity|exact Hx1]|].
  destruct (IH (j + 1) fuel x1 Hd Hroom Hx1 ltac:(lia) ltac:(lia) ltac:(lia)) as (x' & E & Hx').
  replace (16 * (j + 1)) with (16 * j + 16) in E by lia. by exists x'.
Qed.

(** Both loops have enough fuel. *)
Lemma dir_fuel s t i : directory s t i → (ndents s i < Z.to_nat (i_size (f_icache s i) / 16 + 2))%nat.
Proof.
  intros Hd. pose proof (ndents_size _ _ _ Hd). pose proof (rd_size _ _ _ _ (dr_read _ _ _ Hd)). unfold ndents in *. zlia.
Qed.

Lemma dirlookup_ok s t i name :
  directory s t i → tx_room t 1 →
  ∃ x, tx_rel x t ∧ dirlookup devsw_read i name s =
    match find_entry (ndents s i) 0 (dents s t i) name with
    | None => Ret None (with_tx s x)
    | Some (off, inum) => (j ← iget ROOTDEV inum; mret (Some (j, off))) (with_tx s x)
    end.
Proof.
  intros Hd Hroom. unfold dirlookup. mstep (eq_refl (get_inode i s)). rewrite (dr_type _ _ _ Hd). change (negb (T_DIR =? T_DIR)) with false. cbn iota.
  destruct (dirlookup_loop_ok s t i name (ndents s i) 0 (Z.to_nat (i_size (f_icache s i) / 16 + 2)) (f_tx s))
    as (x & E & Hx); try done; [apply (dr_read _ _ _ Hd)|lia|exact (dir_fuel _ _ _ Hd)|].
  rewrite with_tx_same in E. change (16 * 0) with 0 in E. exists x. split; [done|]. mstep E.
  destruct (find_entry _ _ _ _) as [[off inum]|]; [|done].
  mstep (eq_refl (get_inode i (with_tx s x))). change (f_icache (with_tx s x) i) with (f_icache s i).
  by rewrite (rd_dev _ _ _ _ (dr_read _ _ _ Hd)).
Qed.

(** The bytes of an entry after a write of one entry. *)
Lemma dent_written s t i inum name k s' t' :
  let e := mk_dirent inum name in
  write_done sb s t i (λ o, nth (Z.to_nat o) e 0) (16 * k) 16 s' t' →
  ∀ j, 0 ≤ j < Z.of_nat (ndents s' i) → directory s' t' i →
  dents s' t' i j = if decide (j = k) then e else dents s t i j.
Proof.
  intros e Hw j Hj Hd'. pose proof (ndents_size _ _ _ Hd') as Hsz.
  assert (dents s' t' i j = map (λ o, if decide (16 * k ≤ o < 16 * k + 16) then nth (Z.to_nat (o - 16 * k)) e 0
    else fbyte (t_view t) (i_addrs (f_icache s i)) o) (seqZ (16 * j) 16)) as ->.
  { unfold dents, dent. apply map_ext_in. intros o Ho%list_elem_of_In%elem_of_seqZ.
    apply (wd_bytes _ _ _ _ _ _ _ _ _ Hw). lia. }
  destruct (decide (j = k)) as [->|Hne].
  - apply list_eq. intros o. rewrite list_lookup_fmap. pose proof (length_mk_dirent inum name) as Hle. fold e in Hle.
    destruct (decide (o < 16)%nat) as [Ho|Ho].
    + rewrite lookup_seqZ_lt by lia. cbn [fmap option_fmap option_map]. rewrite decide_True by lia.
      rewrite nth_lookup. replace (Z.to_nat (16 * k + Z.of_nat o - 16 * k)) with o by lia.
      destruct (lookup_lt_is_Some_2 e o) as [b ->]; [lia|done].
    + rewrite !lookup_ge_None_2 by (rewrite ?length_seqZ; lia). done.
  - apply map_ext_in. intros o Ho%list_elem_of_In%elem_of_seqZ. by rewrite decide_False by lia.
Qed.

(** What a name stands for after the entry [(inum, name)] has been written to
    slot [k], the first free one. *)
Lemma find_entry_written s t i inum name s' t' :
  let n := ndents s i in let k := free_slot n 0 (dents s t i) in
  0 < inum < 2 ^ 16 → find_entry n 0 (dents s t i) name = None → directory s t i → directory s' t' i →
  write_done sb s t i (λ o, nth (Z.to_nat o) (mk_dirent inum name) 0) (16 * k) 16 s' t' →
  ∀ name', find_entry (ndents s' i) 0 (dents s' t' i) name' =
    if namecmp name' name =? 0 then Some (16 * k, inum) else find_entry n 0 (dents s t i) name'.
Proof.
  intros n k Hi Hno Hd Hd' Hw name'. destruct (free_slot_spec (dents s t i) n 0) as [Hk Hfree]. fold k in Hk, Hfree.
  pose proof (ndents_size _ _ _ Hd). pose proof (ndents_size _ _ _ Hd') as Hsz'. fold n in H0.
  rewrite (wd_size _ _ _ _ _ _ _ _ _ Hw) in Hsz'.
  set (e := mk_dirent inum name).
  set (d' := λ j, if decide (j = k) then e else dents s t i j).
  assert (ndents s' i = Z.to_nat (Z.max (Z.of_nat n) (k + 1))) as Hn' by lia.
  rewrite (find_entry_ext d') by (intros j Hj; exact (dent_written _ _ _ _ _ _ _ _ Hw j Hj Hd')).
  destruct (find_entry_add (dents s t i) d' name' e k n) as [Hold Hnew]; [lia|intros; apply Hfree; lia|done|].
  rewrite Hn'. pose proof (matches_new name' name inum Hi) as Hm. fold e in Hm.
  destruct (Z.eqb_spec (namecmp name' name) 0) as [Hz|Hz]; [|by apply Hold].
  rewrite Hnew; [|done|by rewrite (find_entry_same _ name)].
  unfold e, de_inum, mk_dirent. rewrite take_app_length' by (by rewrite length_bytes_of).
  rewrite of_bytes_bytes_of. change (8 * Z.of_nat 2) with 16. by rewrite Z.mod_small by lia.
Qed.

Lemma dirlink_ok s t i name inum :
  let off := 16 * free_slot (ndents s i) 0 (dents s t i) in
  directory s t i → in_sync sb s t i → on_disk sb (f_icache s i) →
  find_entry (ndents s i) 0 (dents s t i) name = None → off + 16 ≤ MAXFILE * BSIZE →
  file_room t (write_log_need s t i off 16) → has_free sb (t_view t) (write_free_need s t i off 16) →
  ∃ s' t', dirlink pid devsw_read devsw_write i name inum s = Ret 0 s' ∧ directory s' t' i ∧
    write_done sb s t i (λ o, nth (Z.to_nat o) (mk_dirent inum name) 0) off 16 s' t' ∧
    tx_room t' 1 ∧ tx_room t 1.
Proof.
  intros off Hd Hsync Hdisk Hno Hmax Hfr Hfree. unfold dirlink.
  assert (tx_room t 1) as Hroom by (unfold file_room, tx_room in *; lia).
  destruct (dirlookup_ok s t i name Hd Hroom) as (x & Hx & E). rewrite Hno in E. mstep E. cbv beta iota.
  mstep (eq_refl (get_inode i (with_tx s x))). change (f_icache (with_tx s x) i) with (f_icache s i).
  destruct (dirlink_scan_ok s t i (ndents s i) 0 (Z.to_nat (i_size (f_icache s i) / 16 + 2)) x)
    as (x1 & E1 & Hx1); try done; [lia|exact (dir_fuel _ _ _ Hd)|].
  change (16 * 0) with 0 in E1. fold off in E1. mstep E1.
  pose proof (ndents_size _ _ _ Hd) as Hsz. destruct (free_slot_spec (dents s t i) (ndents s i) 0) as [Hk _].
  pose proof (directory_tx _ _ _ _ Hd Hx1) as Hd1.
  destruct (writei_ok sb devsw_write (with_tx s x1) t i (λ o, nth (Z.to_nat o) (mk_dirent inum name) 0) off 16)
    as (s' & t' & E2 & Hw & _); try done; [apply Hd1|change (0 ≤ off ≤ i_size (f_icache s i)); lia|].
  mstep E2. change (negb (16 =? 16)) with false. exists s', t'. split; [done|].
  destruct Hw as [W1 W2 W3 W4 W5 W6 W7 W8 W9 W10]. split; [|split; [by split|split; [|done]]].
  2:{ unfold file_room, write_log_need, tx_room in *. rewrite (rd_held _ _ _ _ W1).
    rewrite (rd_held _ _ _ _ (dr_read _ _ _ Hd)) in Hfr. change (f_icache (with_tx s x1) i) with (f_icache s i) in W9.
    lia. }
  split; [exact W1| |].
  - rewrite W4. exact (dr_type _ _ _ Hd).
  - rewrite W3. change (f_icache (with_tx s x1) i) with (f_icache s i). rewrite Hsz.
    destruct (Z.max_spec (16 * Z.of_nat (ndents s i)) (off + 16)) as [[_ ->]|[_ ->]]; zlia.
Qed.
End Dir.

Section Theorems.
Context {T : Type} `{Txn T} (sb : superblock).
Context (devsw_read : Z → option (Z → Z → M (fs T) (Z * list Z))).
Context (devsw_write : Z → option (Z → (Z → Z) → Z → M (fs T) Z)).
Context (pid : Z).
Implicit Types (s : fs T) (t : tx).

(** C23: [dirlink] of a name that the directory does not have returns 0, with
    room in the log and enough free blocks; afterwards [dirlookup] of that
    name, and of any name with the same first DIRSIZ bytes, gives the inode
    number and the offset of the first slot that was free, and [dirlookup] of
    every other name gives what it gave before. *)
Theorem dirlink_dirlookup s t i name inum :
  let d := dents s t i in let n := ndents s i in let off := 16 * free_slot n 0 d in
  directory sb s t i → in_sync sb s t i → on_disk sb (f_icache s i) →
  0 < inum < 2 ^ 16 → find_entry n 0 d name = None → off + 16 ≤ MAXFILE * BSIZE →
  file_room t (write_log_need s t i off 16) → has_free sb (t_view t) (write_free_need s t i off 16) →
  ∃ s' t', dirlink pid devsw_read devsw_write i name inum s = Ret 0 s' ∧ directory sb s' t' i ∧
    (∀ name', ∃ x, tx_rel x t' ∧
      dirlookup devsw_read i name' s' =
        match (if namecmp name' name =? 0 then Some (off, inum) else find_entry n 0 d name') with
        | None => Ret None (with_tx s' x)
        | Some (off', inum') => (j ← iget ROOTDEV inum'; mret (Some (j, off'))) (with_tx s' x)
        end) ∧
    (∀ name', ∃ x, tx_rel x t ∧
      dirlookup devsw_read i name' s =
        match find_entry n 0 d name' with
        | None => Ret None (with_tx s x)
        | Some (off', inum') => (j ← iget ROOTDEV inum'; mret (Some (j, off'))) (with_tx s x)
        end).
Proof.
  intros d n off Hd Hsync Hdisk Hi Hno Hmax Hfr Hfree.
  destruct (dirlink_ok sb devsw_read devsw_write pid s t i name inum) as (s' & t' & E & Hd' & Hw & Hroom' & Hroom); try done.
  exists s', t'. split; [exact E|]. split; [exact Hd'|]. split.
  - intros name'. rewrite <-(find_entry_written sb devsw_read devsw_write s t i inum name s' t'); try done.
    by apply (dirlookup_ok sb).
  - intros name'. by apply (dirlookup_ok sb).
Qed.
End Theorems.
