(* ===== verification/FsExample.v ===== *)
(** A small file system on the disk in memory of file Ramdisk: a root
    directory with one regular file.  The theorems about kern/fs.c are
    evaluated on it, through the log and the buffer cache that the kernel
    really runs them on. *)

From S2P Require Import Prelude BufferCache Sleeplock Bio Superblock Log LogOps Ramdisk Txn.
From S2P Require Import Fs FsAlloc FsInode FsFile FsRw FsDir.

(** 60 blocks: the log in 2..31, inodes in 32..34, the bitmap in 35. *)
Definition ex_sb : superblock := mkSb 60 24 16 30 2 32 35.

Definition zero_block : block := replicate (Z.to_nat BSIZE) 0.

Definition ex_root : inode :=
  Inode ROOTDEV 1 1 (mkSleeplock 1 1) 1 T_DIR 0 0 1 48 (36 :: replicate 12 0).
Definition ex_file : inode :=
  Inode ROOTDEV 2 1 (mkSleeplock 1 1) 1 T_FILE 0 0 1 600 (37 :: 38 :: replicate 11 0).

(** The entries ".", ".." and "f" of the root directory. *)
Definition ex_dir : block :=
  splice (splice (splice zero_block 0 (mk_dirent 1 [46])) 16 (mk_dirent 1 [46; 46])) 32 (mk_dirent 2 [102]).

Definition ex_fs_disk (b : Z) : block :=
  if b =? 1 then put_words zero_block 0 [60; 24; 16; 30; 2; 32; 35]
  else if b =? 32 then store_dinode ex_file (store_dinode ex_root zero_block)
  else if b =? 35 then splice zero_block 0 (replicate 5 255)
  else if b =? 36 then ex_dir
  else if b =? 37 then map (λ k, k mod 256) (seqZ 0 BSIZE)
  else zero_block.

(** Inode 2 is entry 0 of the inode cache, locked by process 1. *)
Definition ex_icache (i : Z) : inode :=
  if i =? 0 then ex_file else if i =? 1 then ex_root else inode0.

(** One operation is running. *)
Definition ex_log : log := mkLog 2 30 1 0 ROOTDEV 0 (replicate 30 0) 0.

Definition ex_fs : fs (lst (bst ramdisk)) := Fs ex_sb ex_icache (mkLst ex_log (rd_boot ex_fs_disk)).
Definition ex_tx : tx := Tx (λ b, home ex_log b ∧ b ≠ 1) 29 ex_fs_disk [] ∅.

Lemma ex_block_ok b : block_ok (ex_fs_disk b).
Proof.
  unfold ex_fs_disk. repeat case_match; by vm_compute.
Qed.

Lemma ex_only : op_only ex_log ex_fs_disk 1.
Proof. split; [done|done|split; [by vm_compute..|cbn; lia]|by vm_compute]. Qed.

Lemma ex_rel : tx_rel (f_tx ex_fs) ex_tx.
Proof.
  exists (Abs ex_fs_disk [] ∅). split; [|exact ex_only|done|by intros b ?%not_elem_of_nil|done|done| |].
  - split; [by split|apply NoDup_nil_2|done| |intros b _; apply lookup_empty|].
    + apply bc_boot_rel, rd_boot_ok. intros b _. apply ex_block_ok.
    + intros b. split; [by intros ?%not_elem_of_nil|]. cbn. by intros (e & ?%lookup_empty_Some & _).
  - intros b e. cbn. by intros ?%lookup_empty_Some.
  - intros b i. cbn. by intros ?%lookup_empty_Some.
Qed.

(** A property of the numbers of a range, by evaluation. *)
Lemma range_check (p : Z → bool) lo hi :
  forallb p (seqZ lo (hi - lo)) = true → ∀ b, lo ≤ b < hi → p b = true.
Proof.
  intros Hp b Hb. rewrite forallb_forall in Hp. apply Hp, list_elem_of_In, elem_of_seqZ. lia.
Qed.

Lemma ex_alloc_ok : alloc_ok ex_sb ex_fs ex_tx.
Proof.
  split; [done| | | |apply ex_rel].
  - split; [done|done|done|done|]. intros b Hb. change (32 ≤ b < 60) in Hb.
    split; [|lia]. split; [unfold blk_ok, MBR_BASE; lia|]. unfold in_log. cbn. lia.
  - intros b Hb _. revert b Hb. apply (range_check (in_use ex_sb ex_fs_disk) 0 36). by vm_compute.
  - intros b _. split; [apply lookup_empty|]. intros _. apply lookup_empty.
Qed.

Lemma ex_log_room n : (n < 28)%nat → log_room ex_tx n.
Proof. unfold log_room, tx_room. cbn. rewrite map_size_empty. unfold NBUF, MAXOPBLOCKS. lia. Qed.

(** Blocks 40..59 are free. *)
Lemma ex_free n : (n ≤ 20)%nat → has_free ex_sb (t_view ex_tx) n.
Proof.
  intros Hn. apply (has_free_le _ _ 20); [done|]. exists (seqZ 40 20).
  split; [apply NoDup_seqZ|]. split; [by rewrite length_seqZ|]. apply Forall_forall. intros b Hb%elem_of_seqZ.
  split; [cbn; lia|].
  assert (negb (in_use ex_sb ex_fs_disk b) = true) as ?%negb_true_iff; [|done].
  apply (range_check (λ b, negb (in_use ex_sb ex_fs_disk b)) 40 60); [by vm_compute|lia].
Qed.

Lemma balloc_correct_witness :
  ∃ s', balloc ROOTDEV ex_fs = Ret 40 s'.
Proof.
  destruct (balloc_correct ex_sb ex_fs ex_tx ex_alloc_ok (ex_log_room 2 ltac:(lia)))
    as [[Hall _]|(b & s' & t' & Hrun & _ & _ & _ & _ & Hb & Hfree & Hlow & _)].
  - specialize (Hall 40 ltac:(cbn; lia)). by vm_compute in Hall.
  - exists s'. assert (b = 40) as ->; [|exact Hrun].
    change (36 ≤ b < 60) in Hb. destruct (Z.lt_trichotomy b 40) as [H|[H|H]]; [|done|].
    + assert (in_use ex_sb ex_fs_disk b = true); [|cbn in Hfree; congruence].
      apply (range_check (in_use ex_sb ex_fs_disk) 0 40); [by vm_compute|lia].
    + specialize (Hlow 40 ltac:(lia)). by vm_compute in Hlow.
Defined.

Lemma bfree_correct_witness :
  (∃ s' t', bfree ROOTDEV 38 ex_fs = Ret () s' ∧ in_use ex_sb (t_view t') 38 = false) ∧
  bfree ROOTDEV 41 ex_fs = Panic "bfree: freeing a free block".
Proof.
  split.
  - destruct (bfree_correct ex_sb ex_fs ex_tx 38 ex_alloc_ok (ex_log_room 1 ltac:(lia)) ltac:(cbn; lia)) as [_ Hu].
    destruct (Hu ltac:(by vm_compute)) as (s' & t' & Hrun & _ & _ & _ & _ & _ & Hb & _).
    exists s', t'. split; [exact Hrun|]. by rewrite Hb by (cbn; lia).
  - destruct (bfree_correct ex_sb ex_fs ex_tx 41 ex_alloc_ok (ex_log_room 1 ltac:(lia)) ltac:(cbn; lia)) as [Hf _].
    apply Hf. by vm_compute.
Defined.

Lemma ex_icache_ok : icache_ok ex_icache.
Proof.
  split; intros i; unfold ex_icache.
  - intros _. by repeat case_match.
  - intros j _ _. destruct (Z.eqb_spec i 0), (Z.eqb_spec i 1), (Z.eqb_spec j 0), (Z.eqb_spec j 1); cbn; lia.
Qed.

Lemma iget_correct_witness :
  ∃ s', iget ROOTDEV 1 ex_fs = Ret 1 s' ∧ i_ref (f_icache s' 1) = 2 ∧ icache_ok (f_icache s').
Proof.
  pose proof (iget_correct ex_fs ROOTDEV 1 ex_icache_ok) as Hg.
  assert (holds (ex_icache 1) ROOTDEV 1) as H1 by (by vm_compute).
  destruct (iget ROOTDEV 1 ex_fs) as [i s'| | | |] eqn:Hrun; try done.
  - destruct Hg as (Hi & Hok & _ & _ & _ & _ & [[Hh Hnew]|[Hno _]]); [|by destruct (Hno 1 ltac:(by vm_compute))].
    assert (i = 1) as ->.
    { apply (ico_uniq ex_icache ex_icache_ok); [exact Hi|by vm_compute|apply Hh|apply H1| |];
        destruct Hh as (_ & Hd & Hn); [exact Hd|exact Hn]. }
    exists s'. split; [reflexivity|]. rewrite Hnew. split; [reflexivity|exact Hok].
Defined.

Lemma ex_fits : inode_fits ex_file.
Proof. split; [by vm_compute..| |done]. cbn [i_addrs ex_file replicate].
  repeat first [apply Forall_nil_2|apply Forall_cons_2; [lia|]]. Qed.

(** An entry of the cache for inode 2 that has not been read. *)
Definition ex_unread : inode := Inode ROOTDEV 2 1 initsleeplock 0 0 0 0 0 0 [].

Lemma ex_unread_on_disk : on_disk ex_sb ex_unread.
Proof. by vm_compute. Qed.

Lemma iupdate_ilock_witness :
  ∃ s1 t1 s3, iupdate 0 ex_fs = Ret () s1 ∧ tx_rel (f_tx s1) t1 ∧
    let s2 := Fs ex_sb (upd ex_icache 0 ex_unread) (f_tx s1) in
    ilock 1 0 s2 = Ret () s3 ∧ i_size (f_icache s3 0) = 600.
Proof.
  pose proof (ao_geom _ _ _ ex_alloc_ok) as Hg.
  destruct (iupdate_ilock ex_sb 1 ex_fs ex_tx 0 eq_refl Hg ex_rel) as (s1 & t1 & Hrun & _ & _ & Hr & Hh & _ & _ & Hl);
    [by vm_compute|exact ex_fits|apply lookup_empty|apply (ex_log_room 1); lia|].
  set (s2 := Fs ex_sb (upd ex_icache 0 ex_unread) (f_tx s1)).
  specialize (Hl s2 0 eq_refl eq_refl ltac:(split; [lia|done])). cbv zeta in Hl.
  change (f_icache s2 0) with ex_unread in Hl.
  assert (0 < 1) as H01 by lia.
  specialize (Hl H01 eq_refl eq_refl ex_unread_on_disk eq_refl).
  change (i_type (f_icache ex_fs 0) =? 0) with false in Hl. destruct Hl as (s3 & Hrun3 & _ & He).
  exists s1, t1, s3. split; [exact Hrun|]. split; [exact Hr|]. split; [exact Hrun3|]. by rewrite He.
Defined.

(** ** Reading and writing the file *)

Definition no_dev_read (m : Z) : option (Z → Z → M (fs (lst (bst ramdisk))) (Z * list Z)) := None.
Definition no_dev_write (m : Z) : option (Z → (Z → Z) → Z → M (fs (lst (bst ramdisk))) Z) := None.

Lemma ex_faddr k : 0 ≤ k ≤ MAXFILE →
  faddr ex_fs_disk (i_addrs ex_file) k = if k =? 0 then 37 else if k =? 1 then 38 else 0.
Proof.
  intros Hk. apply Z.eqb_eq.
  apply (range_check (λ k, faddr ex_fs_disk (i_addrs ex_file) k =? (if k =? 0 then 37 else if k =? 1 then 38 else 0))
    0 141); [by vm_compute|]. change MAXFILE with 140 in Hk. lia.
Qed.

Lemma ex_readable : readable ex_sb ex_fs ex_tx 0.
Proof.
  split; [exact ex_alloc_ok|done|done|done|by vm_compute| |].
  - split; [done|]. change (t_view ex_tx) with ex_fs_disk. change (f_icache ex_fs 0) with ex_file. split.
    + intros k Hk. rewrite ex_faddr by done. repeat case_match; intros Hk0; try done; by vm_compute.
    + intros k k' Hk Hk'. rewrite !ex_faddr by done. repeat case_match; rewrite ?Z.eqb_eq in *; intros; lia.
  - intros bn H0 Hn. change (t_view ex_tx) with ex_fs_disk. change (f_icache ex_fs 0) with ex_file in *.
    cbn in Hn. unfold BSIZE in Hn. rewrite ex_faddr by (change MAXFILE with 140; lia).
    assert (bn = 0 ∨ bn = 1) as [-> | ->] by lia; done.
Qed.

Lemma ex_in_sync : in_sync ex_sb ex_fs ex_tx 0.
Proof. split; [exact ex_fits|]. by vm_compute. Qed.

(** Reading across the end of the file. *)
Lemma readi_correct_witness :
  ∃ s', readi no_dev_read 0 510 200 ex_fs = Ret (90, [254; 255] ++ replicate 88 0) s'.
Proof.
  pose proof (readi_correct ex_sb no_dev_read ex_fs ex_tx 0 510 200 ex_readable
    (proj2 (ex_log_room 0 ltac:(lia))) ltac:(lia) ltac:(lia)) as Hr.
  cbv zeta in Hr. change ((i_size (f_icache ex_fs 0) <? 510) || (2 ^ 64 <=? 510 + 200)) with false in Hr.
  cbn iota in Hr. destruct Hr as (s' & Hrun & _).
  exists s'. etransitivity; [exact Hrun|]. reflexivity.
Defined.

(** Appending 500 bytes takes one free block. *)
Lemma writei_correct_witness :
  ∃ s' t', writei no_dev_write 0 (λ k, 5) 600 500 ex_fs = Ret 500 s' ∧
    i_size (f_icache s' 0) = 1100 ∧ fbyte (t_view t') (i_addrs (f_icache s' 0)) 1099 = 5 ∧
    fbyte (t_view t') (i_addrs (f_icache s' 0)) 255 = 255.
Proof.
  destruct (writei_correct ex_sb no_dev_write ex_fs ex_tx 0 (λ k, 5) 600 500 ex_readable ex_in_sync)
    as (s' & t' & Hrun & _ & _ & Hsz & _ & _ & Hb & _).
  - by vm_compute.
  - by vm_compute.
  - lia.
  - by vm_compute.
  - by vm_compute.
  - apply ex_free. vm_compute. lia.
  - change (i_size (f_icache s' 0) = 1100) in Hsz.
    exists s', t'. split; [exact Hrun|]. split; [exact Hsz|].
    split; rewrite Hb by (rewrite Hsz; lia); by vm_compute.
Defined.

(** ** The root directory *)

Lemma ex_root_faddr k : 0 ≤ k ≤ MAXFILE → faddr ex_fs_disk (i_addrs ex_root) k = if k =? 0 then 36 else 0.
Proof.
  intros Hk. apply Z.eqb_eq.
  apply (range_check (λ k, faddr ex_fs_disk (i_addrs ex_root) k =? (if k =? 0 then 36 else 0)) 0 141);
    [by vm_compute|]. change MAXFILE with 140 in Hk. lia.
Qed.

Lemma ex_directory : directory ex_sb ex_fs ex_tx 1.
Proof.
  split; [|done|by vm_compute]. split; [exact ex_alloc_ok|done|done|done|by vm_compute| |].
  - split; [done|]. change (t_view ex_tx) with ex_fs_disk. change (f_icache ex_fs 1) with ex_root. split.
    + intros k Hk. rewrite ex_root_faddr by done. case_match; intros Hk0; try done; by vm_compute.
    + intros k k' Hk Hk'. rewrite !ex_root_faddr by done. repeat case_match; rewrite ?Z.eqb_eq in *; intros; lia.
  - intros bn H0 Hn. change (t_view ex_tx) with ex_fs_disk. change (f_icache ex_fs 1) with ex_root in *.
    cbn in Hn. unfold BSIZE in Hn. rewrite ex_root_faddr by (change MAXFILE with 140; lia).
    assert (bn = 0) as -> by lia; done.
Qed.

(** "g" is linked to inode 2, after "f". *)
Lemma dirlink_dirlookup_witness :
  ∃ s', dirlink 1 no_dev_read no_dev_write 1 [103] 2 ex_fs = Ret 0 s' ∧
    (∃ x, dirlookup no_dev_read 1 [103] s' = (j ← iget ROOTDEV 2; mret (Some (j, 48))) (with_tx s' x)) ∧
    (∃ x, dirlookup no_dev_read 1 [102] s' = (j ← iget ROOTDEV 2; mret (Some (j, 32))) (with_tx s' x)) ∧
    ∃ x, dirlookup no_dev_read 1 [104] s' = Ret None (with_tx s' x).
Proof.
  destruct (dirlink_dirlookup ex_sb no_dev_read no_dev_write 1 ex_fs ex_tx 1 [103] 2 ex_directory)
    as (s' & t' & Hrun & _ & Hl & _).
  - split; [split; [by vm_compute..| |done]|by vm_compute]. cbn [i_addrs ex_root ex_fs f_icache ex_icache].
    change (Forall (λ a, 0 ≤ a < 2 ^ 32) (36 :: replicate 12 0)).
    repeat first [apply Forall_nil_2|apply Forall_cons_2; [lia|]].
  - by vm_compute.
  - lia.
  - by vm_compute.
  - by vm_compute.
  - by vm_compute.
  - apply ex_free. vm_compute. lia.
  - exists s'. split; [exact Hrun|].
    destruct (Hl [103]) as (x1 & _ & E1). destruct (Hl [102]) as (x2 & _ & E2). destruct (Hl [104]) as (x3 & _ & E3).
    split; [|split]; [exists x1|exists x2|exists x3]; etransitivity; [exact E1| |exact E2| |exact E3|]; reflexivity.
Defined.
