(* ===== verification/File.v ===== *)
(** Open files: kern/file.c.

    State: the table [ftable.file], indexed 0..NFILE-1 (a [struct file *] is an
    index), and the state of the file system.  A destination buffer is returned
    as the list of the bytes stored to it, a source buffer is the function
    from offsets to its bytes, as in file Fs.  [begin_op] and [end_op] are used
    through class [OpOps]. *)

From S2P Require Import Prelude BufferCache Superblock Txn Fs.

Definition NFILE : Z := 100.

Inductive filetype := FD_NONE | FD_PIPE | FD_INODE.

(** [struct file]; its [pipe] is never used. *)
Record file := mkFile {
  fl_type : filetype; fl_ref : Z; fl_readable : bool; fl_writable : bool; fl_ip : Z; fl_off : Z;
}.

Definition file0 : file := mkFile FD_NONE 0 false false 0 0.

Definition with_fref (f : file) (r : Z) : file :=
  mkFile (fl_type f) r (fl_readable f) (fl_writable f) (fl_ip f) (fl_off f).
Definition with_off (f : file) (o : Z) : file :=
  mkFile (fl_type f) (fl_ref f) (fl_readable f) (fl_writable f) (fl_ip f) o.

(** The largest part of a write that [filewrite] puts into one transaction. *)
Definition write_max : Z := (MAXOPBLOCKS - 1 - 1 - 2) / 2 * 512.

Section File.
Context {T : Type} `{!TxnOps T, !OpOps T}.

Record files := Files { ft_file : Z → file; ft_fs : fs T }.

#[export] Instance files_lens : Lens files (fs T) := {
  lget := ft_fs; lset t s := Files (ft_file s) t;
  lget_lset t s := eq_refl; lset_lget s := match s with Files _ _ => eq_refl end;
  lset_lset t t' s := eq_refl;
}.

Context (pid : Z).
Context (devsw_read : Z → option (Z → Z → M (fs T) (Z * list Z))).
Context (devsw_write : Z → option (Z → (Z → Z) → Z → M (fs T) Z)).

Definition begin_op : M files () := lift (lift t_begin_op : M (fs T) ()).
Definition end_op : M files () := lift (lift t_end_op : M (fs T) ()).
Definition get_file (f : Z) : M files file := gets (λ s, ft_file s f).
Definition put_file (f : Z) (v : file) : M files () :=
  modify (λ s, Files (upd (ft_file s) f v) (ft_fs s)).

(** The first entry that nobody references, among [n] from [f]. *)
Fixpoint file_scan (n : nat) (f : Z) (tbl : Z → file) : option Z :=
  match n with
  | O => None
  | S n => if fl_ref (tbl f) =? 0 then Some f else file_scan n (f + 1) tbl
  end.
Definition filealloc : M files (option Z) :=
  tbl ← gets ft_file;
  match file_scan (Z.to_nat NFILE) 0 tbl with
  | Some f => v ← get_file f; put_file f (with_fref v 1) ;; mret (Some f)
  | None => mret None
  end.

Definition filedup (f : Z) : M files Z :=
  v ← get_file f;
  if fl_ref v <? 1 then panic "filedup"
  else put_file f (with_fref v (fl_ref v + 1)) ;; mret f.

Definition fileclose (f : Z) : M files () :=
  v ← get_file f;
  if fl_ref v <? 1 then panic "fileclose: invalid ref"
  else if 0 <? fl_ref v - 1 then put_file f (with_fref v (fl_ref v - 1))
  else
    put_file f (mkFile FD_NONE 0 (fl_readable v) (fl_writable v) (fl_ip v) (fl_off v)) ;;
    match fl_type v with
    | FD_PIPE => panic "fileclose: pipe"
    | FD_INODE => begin_op ;; lift (iput pid (fl_ip v)) ;; end_op
    | FD_NONE => mret ()
    end.

(** The result and what is stored to [*st]. *)
Definition filestat (f : Z) : M files (Z * option stat) :=
  v ← get_file f;
  match fl_type v with
  | FD_INODE =>
    lift (ilock pid (fl_ip v)) ;;
    st ← lift (stati (fl_ip v));
    lift (iunlock pid (fl_ip v)) ;;
    mret (0, Some st)
  | _ => mret (-1, None)
  end.

Definition fileread (f n : Z) : M files (Z * list Z) :=
  v ← get_file f;
  if negb (fl_readable v) then mret (-1, [])
  else match fl_type v with
  | FD_PIPE => panic "fileread: pipe"
  | FD_INODE =>
    lift (ilock pid (fl_ip v)) ;;
    '(r, l) ← lift (readi devsw_read (fl_ip v) (fl_off v) (w64 n));
    let r := s32 r in
    when (0 <? r) (v ← get_file f; put_file f (with_off v (w64 (fl_off v + r)))) ;;
    lift (iunlock pid (fl_ip v)) ;;
    mret (r, l)
  | FD_NONE => panic "fileread"
  end.

(** The loop of [filewrite] from [i]; [fuel] chunks at most. *)
Fixpoint filewrite_loop (fuel : nat) (f : Z) (addr : Z → Z) (i n : Z) : M files Z :=
  match fuel with
  | O => no_fuel
  | S fuel =>
    if i <? n then
      let n1 := s32 (n - i) in
      let n1 := if write_max <? n1 then write_max else n1 in
      begin_op ;;
      v ← get_file f;
      lift (ilock pid (fl_ip v)) ;;
      r ← lift (writei devsw_write (fl_ip v) (λ k, addr (i + k)) (fl_off v) (w64 n1));
      let r := s32 r in
      when (0 <? r) (v ← get_file f; put_file f (with_off v (w64 (fl_off v + r)))) ;;
      lift (iunlock pid (fl_ip v)) ;;
      end_op ;;
      if r <? 0 then mret i
      else if negb (r =? n1) then panic "filewrite: short filewrite"
      else filewrite_loop fuel f addr (s32 (i + r)) n
    else mret i
  end.
Definition filewrite (fuel : nat) (f : Z) (addr : Z → Z) (n : Z) : M files Z :=
  v ← get_file f;
  if negb (fl_writable v) then mret (-1)
  else match fl_type v with
  | FD_PIPE => panic "filewrite: pipe"
  | FD_INODE =>
    i ← filewrite_loop fuel f addr 0 n;
    mret (if i =? n then n else -1)
  | FD_NONE => panic "filewrite"
  end.
End File.
Arguments files T : clear implicits.
