(* ===== verification/FileSpec.v ===== *)
(** What kern/file.c promises: [filewrite] writes all of its source, cut into
    transactions that fit into the log, through kern/fs.c and kern/log.c.

    [at_rest] describes a file between two system calls: no transaction runs,
    nobody has locked its inode, and the inode cache, the bitmap and the disk
    agree about it.  Every chunk of a [filewrite] starts and ends at rest. *)

From S2P Require Import Prelude Sleeplock BufferCache Superblock Txn Fs FsAlloc FsInode FsFile FsRw File.

Section Bound.
Context {T : Type} `{!TxnOps T, !Txn T} (sb : superblock).
Implicit Types (s : fs T) (t : tx).

Lemma wcost_le n view addrs bn : (wcost n view addrs bn ≤ 2 * n)%nat.
Proof.
  revert bn. induction n as [|n IH]; intros bn; cbn [wcost]; [lia|].
  specialize (IH (bn + 1)). pose proof (bneed_le_1 view addrs bn). lia.
Qed.
Lemma fcost_le n view addrs bn : (fcost n view addrs bn ≤ n)%nat.
Proof.
  revert bn. induction n as [|n IH]; intros bn; cbn [fcost]; [lia|].
  specialize (IH (bn + 1)). pose proof (bneed_le_1 view addrs bn). lia.
Qed.

(** A part of at most [write_max] bytes touches at most four blocks, and the
    first of four is already there. *)
Lemma chunk_need s t i off n :
  readable sb s t i → 0 ≤ off ≤ i_size (f_icache s i) → 0 ≤ n ≤ write_max →
  (write_log_need s t i off n ≤ Z.to_nat MAXOPBLOCKS)%nat ∧
  (write_free_need s t i off n ≤ fbudget (i_addrs (f_icache s i)) + 4)%nat.
Proof.
  intros [_ _ _ _ _ _ Hfull] Ho Hn. change write_max with 1536 in Hn.
  unfold write_log_need, write_free_need. change (Z.to_nat MAXOPBLOCKS) with 10%nat.
  set (addrs := i_addrs _) in *.
  assert (ibudget t addrs ≤ 2)%nat by (unfold ibudget; case_decide; lia).
  pose proof (wcost_le (nblocks off n) (t_view t) addrs (off / BSIZE)).
  pose proof (fcost_le (nblocks off n) (t_view t) addrs (off / BSIZE)).
  assert ((nblocks off n ≤ 3)%nat ∨ nblocks off n = 4%nat ∧ off mod BSIZE ≠ 0) as [Hb|[Hb Hm]].
  { unfold nblocks. case_decide; [left; lia|]. unfold BSIZE. zlia. }
  { lia. }
  rewrite Hb in *. cbn [wcost] in *. rewrite bneed_0.
  - pose proof (wcost_le 3 (t_view t) addrs (off / BSIZE + 1)). cbn [wcost] in *. lia.
  - apply Hfull; unfold BSIZE in *; zlia.
Qed.

Context (devsw_write : Z → option (Z → (Z → Z) → Z → M (fs T) Z)).

(** C32: the transactions of [filewrite] keep within their reservation.  From
    the start of a transaction, [writei] of a part that [filewrite] makes, at
    most [write_max] bytes at an offset within the file, logs no more than the
    MAXOPBLOCKS blocks that [begin_op] reserved, indirect block, bitmap blocks
    and inode included. *)
Theorem write_chunk_fits s t i src off n :
  let ip := f_icache s i in
  readable sb s t i → in_sync sb s t i → on_disk sb ip → t_log t = [] →
  0 ≤ off ≤ i_size ip → 0 ≤ n ≤ write_max → off + n ≤ MAXFILE * BSIZE → MAXOPBLOCKS < t_cap t →
  has_free sb (t_view t) 5 →
  ∃ s' t', writei devsw_write i src off n s = Ret n s' ∧ readable sb s' t' i ∧
    Z.of_nat (length (t_log t')) ≤ MAXOPBLOCKS.
Proof.
  intros ip Hrd Hsync Hdisk Hlog Ho Hn Hmax Hcap Hfree.
  destruct (chunk_need s t i off n Hrd Ho Hn) as [Hl Hf]. change (Z.to_nat MAXOPBLOCKS) with 10%nat in Hl.
  assert (fbudget (i_addrs (f_icache s i)) ≤ 1)%nat by (unfold fbudget; case_decide; lia).
  destruct (writei_ok sb devsw_write s t i src off n) as (s' & t' & Hrun & Hd & _); try done; [lia| | |].
  - unfold file_room, tx_room. rewrite Hlog, (rd_held _ _ _ _ Hrd), map_size_empty.
    unfold NBUF, MAXOPBLOCKS in *. cbn [length]. lia.
  - eapply has_free_le; [|exact Hfree]. lia.
  - exists s', t'. split; [done|]. split; [apply Hd|]. pose proof (wd_log _ _ _ _ _ _ _ _ _ Hd) as Hwl.
    unfold write_log_need in Hl. rewrite Hlog in Hwl. cbn [length] in Hwl. unfold MAXOPBLOCKS. lia.
Qed.
End Bound.

Section Rest.
Context {T : Type} `{!TxnOps T, !Txn T, !OpOps T, !TxnOp T} (sb : superblock) (pid : Z).
Implicit Types (s : fs T) (t : tx).

Record at_rest s t i : Prop := {
  ar_sb : f_sb s = sb;
  ar_geom : fs_geom sb (t_home t);
  ar_meta : meta_used sb (t_view t);
  ar_idle : op_idle (f_tx s) t;
  ar_index : 0 ≤ i < NINODE;
  ar_ref : 0 < i_ref (f_icache s i);
  ar_free : sl_locked (i_lock (f_icache s i)) = 0;
  ar_valid : i_valid (f_icache s i) ≠ 0;
  ar_disk : on_disk sb (f_icache s i);
  ar_type : i_type (f_icache s i) ≠ T_DEV;
  ar_size : 0 ≤ i_size (f_icache s i) ≤ MAXFILE * BSIZE;
  ar_file : file_ok sb (t_view t) (i_addrs (f_icache s i));
  ar_full : full (t_view t) (i_addrs (f_icache s i)) (i_size (f_icache s i));
  ar_sync : in_sync sb s t i;
  ar_cap : 0 < t_cap t;
}.

Definition fs_begin : M (fs T) () := lift t_begin_op.
Definition fs_end : M (fs T) () := lift t_end_op.
Definition locked s i : Z → inode :=
  upd (f_icache s) i (with_ilock (f_icache s i) (mkSleeplock 1 pid)).

Lemma in_sync_lock s s' t i l :
  f_icache s' i = with_ilock (f_icache s i) l → in_sync sb s t i → in_sync sb s' t i.
Proof.
  intros He [Hfit Hs]. unfold in_sync. rewrite He. split; [by destruct Hfit|].
  transitivity (with_ilock (disk_inode sb (t_view t) (f_icache s i)) l); [done|]. by rewrite Hs.
Qed.

(** [ilock] of a file at rest, in a transaction or outside of one. *)
Lemma rest_lock s t i x t0 :
  at_rest s t i → tx_rel x t0 → t_home t0 = t_home t → t_view t0 = t_view t → t_held t0 = ∅ →
  let s1 := with_ic (with_tx s x) (locked s i) in
  ilock pid i (with_tx s x) = Ret () s1 ∧ readable sb s1 t0 i ∧ in_sync sb s1 t0 i.
Proof.
  intros [A1 A2 A3 A4 A5 A6 A7 A8 A9 A10 A11 A12 A13 A14 A15] Hr Hhm Hv Hh. cbv zeta.
  split; [by apply (ilock_spec sb pid (with_tx s x) t0 i)|].
  assert (f_icache (with_ic (with_tx s x) (locked s i)) i = with_ilock (f_icache s i) (mkSleeplock 1 pid)) as He
    by apply upd_eq.
  split.
  - split; rewrite ?He, ?Hv; try done; [|by apply A9]. split; rewrite ?Hhm, ?Hv; try done.
    intros b _. by rewrite Hh, !lookup_empty.
  - eapply in_sync_lock; [exact He|]. unfold in_sync. by rewrite Hv.
Qed.

(** [begin_op] and [ilock]. *)
Lemma rest_begin s t i :
  at_rest s t i →
  ∃ x, fs_begin s = Ret () (with_tx s x) ∧
    let s1 := with_ic (with_tx s x) (locked s i) in
    ilock pid i (with_tx s x) = Ret () s1 ∧ readable sb s1 t i ∧ in_sync sb s1 t i ∧
    t_log t = [].
Proof.
  intros Hrest. destruct (op_begin _ _ (ar_idle _ _ _ Hrest) (ar_cap _ _ _ Hrest)) as (Hl & Hh & x & Hrun & Hr).
  exists x. split; [by apply lift_tx|]. cbv zeta.
  destruct (rest_lock s t i x t Hrest Hr eq_refl eq_refl Hh) as (? & ? & ?). by split_and!.
Qed.

Lemma iunlock_held s i :
  0 ≤ i < NINODE → 0 < i_ref (f_icache s i) → i_lock (f_icache s i) = mkSleeplock 1 pid →
  ∃ ic, iunlock pid i s = Ret () (with_ic s ic) ∧
    ∀ j, ic j = upd (f_icache s) i (with_ilock (f_icache s i) (mkSleeplock 0 0)) j.
Proof.
  intros Hi Href Hlk.
  assert (null_inode i = false) as Hnull.
  { unfold null_inode. destruct (Z.leb_spec 0 i); [|lia]. by destruct (Z.ltb_spec i NINODE); [|lia]. }
  set (ip := f_icache s i) in *. set (ic1 := upd (f_icache s) i (with_ilock ip (i_lock ip))).
  assert (with_inode_lock i (holdingsleep pid) s = Ret true (with_ic s ic1)) as Hold.
  { assert (holdingsleep pid (i_lock ip) = Ret true (i_lock ip)) as Hh1.
    { unfold holdingsleep. rewrite Hlk. cbn. by rewrite Z.eqb_refl. }
    unfold with_inode_lock. fold ip. by rewrite Hh1. }
  assert (f_icache (with_ic s ic1) i = with_ilock ip (i_lock ip)) as Hc1 by apply upd_eq.
  exists (upd ic1 i (with_ilock (with_ilock ip (i_lock ip)) (mkSleeplock 0 0))). split.
  - unfold iunlock. rewrite Hnull. mstep Hold. mstep (eq_refl (get_inode i (with_ic s ic1))).
    rewrite Hc1. cbn [i_ref with_ilock].
    destruct (Z.ltb_spec (i_ref ip) 1); [lia|]. cbn [negb orb]. unfold with_inode_lock. rewrite Hc1. reflexivity.
  - intros j. unfold ic1. rewrite !upd_case. by case_decide.
Qed.

(** A locked file is at rest once it is unlocked and nothing runs. *)
Lemma rest_unlocked s t i ic x t' :
  readable sb s t i → in_sync sb s t i → on_disk sb (f_icache s i) →
  0 ≤ i < NINODE → 0 < i_ref (f_icache s i) → i_valid (f_icache s i) ≠ 0 →
  (∀ j, ic j = upd (f_icache s) i (with_ilock (f_icache s i) (mkSleeplock 0 0)) j) →
  op_idle x t' → 0 < t_cap t' → t_home t' = t_home t → t_view t' = t_view t →
  at_rest (with_tx (with_ic s ic) x) t' i.
Proof.
  intros [[B1 B2 B3 B4 B5] Hh Hd Ht Hsz Hf Hfull] Hsync Hdisk Hi Href Hv Hic Hidle Hpos Hhm Hvw.
  assert (f_icache (with_tx (with_ic s ic) x) i = with_ilock (f_icache s i) (mkSleeplock 0 0)) as He.
  { cbn. rewrite Hic. apply upd_eq. }
  split; rewrite ?He, ?Hhm, ?Hvw; try done. eapply in_sync_lock; [exact He|]. unfold in_sync. by rewrite Hvw.
Qed.

(** [iunlock] and [end_op]. *)
Lemma rest_end s t i :
  readable sb s t i → in_sync sb s t i → on_disk sb (f_icache s i) →
  0 ≤ i < NINODE → 0 < i_ref (f_icache s i) → i_valid (f_icache s i) ≠ 0 →
  i_lock (f_icache s i) = mkSleeplock 1 pid → tx_room t 1 → 0 < t_cap t →
  ∃ ic x, let s1 := with_ic s ic in
    iunlock pid i s = Ret () s1 ∧ fs_end s1 = Ret () (with_tx s1 x) ∧
    (∀ j, ic j = upd (f_icache s) i (with_ilock (f_icache s i) (mkSleeplock 0 0)) j) ∧
    at_rest (with_tx s1 x) (Tx (t_home t) (t_cap t) (t_view t) [] ∅) i.
Proof.
  intros Hrd Hsync Hdisk Hi Href Hv Hlk Hroom Hpos.
  destruct (iunlock_held s i Hi Href Hlk) as (ic & Hun & Hic).
  destruct (op_end (f_tx s) t (ao_rel _ _ _ (rd_ok _ _ _ _ Hrd)) (rd_held _ _ _ _ Hrd) Hroom Hpos) as (x & Hrun & Hidle).
  exists ic, x. cbv zeta. split; [done|]. split; [by apply lift_tx|]. split; [done|]. by eapply rest_unlocked.
Qed.

(** ** Reading *)

Context (devsw_read : Z → option (Z → Z → M (fs T) (Z * list Z))).

(** [fileread] of a file at rest. *)
Lemma fileread_ok (s : files T) t f n :
  let v := ft_file s f in let ip := f_icache (ft_fs s) (fl_ip v) in
  let k := Z.min n (i_size ip - fl_off v) in
  at_rest (ft_fs s) t (fl_ip v) → fl_type v = FD_INODE → fl_readable v = true →
  0 ≤ fl_off v ≤ i_size ip → 0 ≤ n < 2 ^ 63 →
  ∃ s' : files T, fileread pid devsw_read f n s =
      Ret (k, map (fbyte (t_view t) (i_addrs ip)) (seqZ (fl_off v) k)) s' ∧
    at_rest (ft_fs s') t (fl_ip v) ∧ i_addrs (f_icache (ft_fs s') (fl_ip v)) = i_addrs ip ∧
    i_size (f_icache (ft_fs s') (fl_ip v)) = i_size ip ∧
    (∀ h, fl_off (ft_file s' h) = if decide (h = f) then fl_off v + k else fl_off (ft_file s h)) ∧
    (∀ h, ft_file s' h = with_off (ft_file s h) (fl_off (ft_file s' h))).
Proof.
  intros v ip k Hrest Hty Hrdb Ho Hn. set (i := fl_ip v) in *.
  pose proof (ar_size _ _ _ Hrest) as Hsz. fold i ip in Hsz. assert (MAXFILE * BSIZE = 71680) as HM by done.
  assert (op_idle (f_tx (ft_fs s)) t) as Hidle by apply Hrest.
  destruct (op_begin _ _ Hidle (ar_cap _ _ _ Hrest)) as (Hlog & Hheld & _).
  destruct (rest_lock (ft_fs s) t i (f_tx (ft_fs s)) (tx_read_only t) Hrest
    (op_read _ _ Hidle (ar_cap _ _ _ Hrest)) eq_refl eq_refl eq_refl) as (Hlock & Hrd & Hsync).
  rewrite with_tx_same in *. set (s1 := with_ic (ft_fs s) (locked (ft_fs s) i)) in *.
  assert (f_icache s1 i = with_ilock ip (mkSleeplock 1 pid)) as He1 by apply upd_eq. clearbody s1.
  assert (tx_room (tx_read_only t) 1) as Hroom by (unfold tx_room; cbn; rewrite map_size_empty; unfold NBUF, MAXOPBLOCKS; lia).
  destruct (readi_ok sb devsw_read s1 (tx_read_only t) i (fl_off v) n Hrd Hroom) as (x & Hread & Hx);
    [rewrite He1; exact Ho|lia|lia|]. rewrite He1 in Hread. cbn [i_size i_addrs with_ilock] in Hread.
  change (i_addrs ip) with (i_addrs ip) in Hread. fold k in Hread. cbn [t_view tx_read_only] in Hread.
  assert (readable sb (with_tx s1 x) (tx_read_only t) i) as Hrd2.
  { destruct Hrd as [[] ? ? ? ? ? ?]. by split. }
  destruct (iunlock_held (with_tx s1 x) i) as (ic & Hun & Hic); [apply Hrest|cbn; rewrite He1; apply Hrest|cbn; by rewrite He1|].
  assert (op_idle x t) as Hidle2 by (apply (op_read_end x t); [done|apply Hrest|done|done]).
  assert (at_rest (with_tx (with_ic (with_tx s1 x) ic) x) t i) as Hrest2.
  { eapply (rest_unlocked (with_tx s1 x) (tx_read_only t)); try done; cbn; rewrite ?He1; by apply Hrest. }
  assert (0 ≤ k ≤ n ∧ k ≤ 71680) as Hk by (unfold k; lia).
  set (v' := if 0 <? k then with_off v (w64 (fl_off v + k)) else v).
  set (tbl := if 0 <? k then upd (ft_file s) f v' else ft_file s).
  assert (f_icache (with_ic (with_tx s1 x) ic) i = with_ilock (f_icache s1 i) (mkSleeplock 0 0)) as Hci
    by (cbn; rewrite Hic; apply upd_eq).
  assert (∀ h, tbl h = with_off (ft_file s h) (if decide (h = f) then fl_off v + k else fl_off (ft_file s h))) as Htbl.
  { intros h. unfold tbl, v'. destruct (Z.ltb_spec 0 k).
    - rewrite upd_case, w64_small by lia. case_decide; [by subst|by destruct (ft_file s h)].
    - case_decide as Hh; [|by destruct (ft_file s h)]. subst h. fold v. replace (fl_off v + k) with (fl_off v) by lia. by destruct v. }
  exists (Files tbl (with_ic (with_tx s1 x) ic)). split; [|split; [exact Hrest2|]].
  - unfold fileread. mstep (eq_refl (get_file f s)). fold v. rewrite Hrdb, Hty. cbn [negb]. fold i.
    mstep (lift_ret (ilock pid i) s () s1 Hlock). set (sB := lset _ s).
    rewrite (w64_small n) by lia. mstep (lift_ret (readi devsw_read i (fl_off v) n) sB _ _ Hread). set (sC := lset _ sB).
    cbv beta iota. rewrite s32_small by lia.
    assert (when (0 <? k) (v0 ← get_file f; put_file f (with_off v0 (w64 (fl_off v0 + k)))) sC =
      Ret () (Files tbl (with_tx s1 x))) as Hoff.
    { unfold tbl, v'. by destruct (0 <? k). }
    mstep Hoff. set (sD := Files _ _). mstep (lift_ret (iunlock pid i) sD () _ Hun). done.
  - change (ft_fs _) with (with_ic (with_tx s1 x) ic). rewrite Hci, He1. split; [done|]. split; [done|]. cbn [ft_file].
    split; intros h; rewrite Htbl; done.
Qed.
End Rest.

Section Write.
Context {T : Type} `{!TxnOps T, !Txn T, !OpOps T, !TxnOp T} (sb : superblock) (pid : Z).
Context (devsw_write : Z → option (Z → (Z → Z) → Z → M (fs T) Z)).
Implicit Types (s : files T) (t : tx).

Definition ip_of s f : inode := f_icache (ft_fs s) (fl_ip (ft_file s f)).

(** [m] bytes of file [f] have been written at its offset, which has moved on:
    byte [o] of the inode is now [g o]; the file is at rest again. *)
Record written s t f (m : Z) (g : Z → Z) s' t' : Prop := {
  wn_rest : at_rest sb (ft_fs s') t' (fl_ip (ft_file s f));
  wn_cap : t_cap t' = t_cap t;
  wn_file h : ft_file s' h = if decide (h = f) then with_off (ft_file s f) (fl_off (ft_file s f) + m)
                             else ft_file s h;
  wn_size : i_size (f_icache (ft_fs s') (fl_ip (ft_file s f))) = Z.max (i_size (ip_of s f)) (fl_off (ft_file s f) + m);
  wn_bytes o : 0 ≤ o < i_size (f_icache (ft_fs s') (fl_ip (ft_file s f))) →
    fbyte (t_view t') (i_addrs (f_icache (ft_fs s') (fl_ip (ft_file s f)))) o =
      if decide (fl_off (ft_file s f) ≤ o < fl_off (ft_file s f) + m) then g o
      else fbyte (t_view t) (i_addrs (ip_of s f)) o;
  wn_entries j : j ≠ fl_ip (ft_file s f) → f_icache (ft_fs s') j = f_icache (ft_fs s) j;
}.

Lemma written_nothing s t f g :
  at_rest sb (ft_fs s) t (fl_ip (ft_file s f)) → fl_off (ft_file s f) ≤ i_size (ip_of s f) →
  written s t f 0 g s t.
Proof.
  intros Hr Ho. split; try done.
  - intros h. case_decide as Hh; [|done]. subst. rewrite Z.add_0_r. by destruct (ft_file s f).
  - unfold ip_of in *. lia.
  - intros o _. rewrite decide_False by lia. done.
Qed.

Lemma written_trans s t f m1 m2 g s1 t1 s2 t2 :
  0 ≤ m1 → 0 ≤ m2 → 0 ≤ fl_off (ft_file s f) →
  written s t f m1 g s1 t1 → written s1 t1 f m2 g s2 t2 → written s t f (m1 + m2) g s2 t2.
Proof.
  intros Hm1 Hm2 Ho [A1 A2 A3 A4 A5 A6] [B1 B2 B3 B4 B5 B6].
  assert (ft_file s1 f = with_off (ft_file s f) (fl_off (ft_file s f) + m1)) as Hf
    by (rewrite A3; by rewrite decide_True).
  unfold ip_of in *. rewrite Hf in *. cbn [fl_ip fl_off with_off] in *.
  split; unfold ip_of; try done; [congruence| | | |].
  - intros h. rewrite B3, A3. case_decide; [|done]. subst. cbn. unfold with_off. cbn. by rewrite Z.add_assoc.
  - rewrite B4, A4. lia.
  - intros o Hor. rewrite B5 by done. destruct (decide (fl_off (ft_file s f) + m1 ≤ o < _)) as [Hc|Hc].
    { by rewrite decide_True by lia. }
    rewrite A5 by lia. destruct (decide (_ ≤ o < fl_off (ft_file s f) + m1)); by rewrite ?decide_True, ?decide_False by lia.
  - intros j Hj. by rewrite B6, A6.
Qed.

(** One iteration of the loop of [filewrite]. *)
Lemma write_chunk s t f addr i n fuel k :
  let v := ft_file s f in let n1 := Z.min (n - i) write_max in
  at_rest sb (ft_fs s) t (fl_ip v) → 0 ≤ fl_off v ≤ i_size (ip_of s f) → 0 ≤ i < n → n < 2 ^ 31 →
  fl_off v + n1 ≤ MAXFILE * BSIZE → MAXOPBLOCKS < t_cap t →
  has_free sb (t_view t) (k + (fbudget (i_addrs (ip_of s f)) + 4)) →
  ∃ s' t', filewrite_loop pid devsw_write (S fuel) f addr i n s =
      filewrite_loop pid devsw_write fuel f addr (i + n1) n s' ∧
    written s t f n1 (λ o, addr (i + (o - fl_off v))) s' t' ∧
    has_free sb (t_view t') (k + fbudget (i_addrs (f_icache (ft_fs s') (fl_ip v)))).
Proof.
  intros v n1 Hrest Ho Hi Hn Hmax Hcap Hfree. set (ip := fl_ip v) in *. unfold ip_of in *. fold v ip in Ho, Hfree |- *.
  assert (0 < n1 ≤ write_max ∧ write_max = 1536 ∧ n1 ≤ n - i) as (Hn1 & Hwm & Hn1') by (unfold n1; change write_max with 1536; lia).
  destruct (rest_begin sb pid (ft_fs s) t ip Hrest) as (x & Hbeg & Hlock & Hrd & Hsync & Hlog).
  set (s1 := with_ic _ _) in *. pose proof Hrest as [R1 R2 R3 R4 R5 R6 R7 R8 R9 R10 R11 R12 R13 R14 R15].
  assert (f_icache s1 ip = with_ilock (f_icache (ft_fs s) ip) (mkSleeplock 1 pid)) as He1 by apply upd_eq.
  destruct (chunk_need sb s1 t ip (fl_off v) n1) as [Hnl Hnf]; [done|rewrite He1; done|lia|].
  change (Z.to_nat MAXOPBLOCKS) with 10%nat in Hnl.
  destruct (writei_ok sb devsw_write s1 t ip (λ k, addr (i + k)) (fl_off v) n1) as (s2 & t2 & Hw & Hd & Hfr); try done.
  { rewrite He1. exact R9. } { rewrite He1. exact Ho. } { lia. }
  { unfold file_room, tx_room. rewrite Hlog, (rd_held _ _ _ _ Hrd), map_size_empty.
    unfold NBUF, MAXOPBLOCKS in *. cbn [length]. lia. }
  { eapply has_free_le; [|exact Hfree]. rewrite He1 in Hnf. cbn [i_addrs with_ilock] in Hnf. lia. }
  pose proof Hd as [D1 D2 D3 D4 D5 D6 D7 D8 D9 D10]. rewrite He1 in *. cbn [i_addrs with_ilock i_size] in *.
  unfold write_log_need in Hnl. rewrite He1 in Hnl. cbn [i_addrs with_ilock i_size] in Hnl. rewrite Hlog in D9. cbn [length] in D9.
  destruct (rest_end sb pid s2 t2 ip) as (ic & y & Hun & Hend & Hic & Hrest2); try done.
  { rewrite D4. exact R9. } { by rewrite D4. } { by rewrite D4. } { by rewrite D4. }
  { unfold tx_room. rewrite (rd_held _ _ _ _ D1), map_size_empty. unfold NBUF, MAXOPBLOCKS. lia. }
  { by rewrite D10. }
  set (v' := with_off v (fl_off v + n1)). set (s4 := with_tx (with_ic s2 ic) y) in *.
  assert (0 ≤ fl_off v + n1 < 2 ^ 64 ∧ MAXFILE * BSIZE = 71680) as [Hoff HM] by (assert (MAXFILE * BSIZE = 71680) by done; lia).
  assert (f_icache s4 ip = with_ilock (f_icache s2 ip) (mkSleeplock 0 0)) as He4 by (cbn; rewrite Hic; apply upd_eq).
  exists (Files (upd (ft_file s) f v') s4), (Tx (t_home t2) (t_cap t2) (t_view t2) [] ∅).
  split; [|split].
  - cbn [filewrite_loop]. destruct (Z.ltb_spec i n); [|lia]. rewrite (s32_small (n - i)) by lia. rewrite Hwm.
    assert ((if 1536 <? n - i then 1536 else n - i) = n1) as ->.
    { unfold n1. rewrite Hwm. destruct (Z.ltb_spec 1536 (n - i)); lia. }
    assert (w64 n1 = n1 ∧ s32 n1 = n1) as [Hw64 Hs32] by (rewrite w64_small, s32_small by lia; done).
    mstep (lift_ret (lift t_begin_op : M (fs T) ()) s () (with_tx (ft_fs s) x) Hbeg).
    set (sA := lset _ s). mstep (eq_refl (get_file f sA)). change (ft_file sA f) with v. fold ip.
    mstep (lift_ret (ilock pid ip) sA () s1 Hlock). set (sB := lset _ sA).
    rewrite Hw64. mstep (lift_ret (writei devsw_write ip (λ k, addr (i + k)) (fl_off v) n1) sB n1 s2 Hw).
    set (sC := lset _ sB). rewrite Hs32. destruct (Z.ltb_spec 0 n1); [|lia]. cbn [when].
    mstep (mbind_ret (get_file f) (λ v, put_file f (with_off v (w64 (fl_off v + n1)))) sC v sC eq_refl).
    cbn [put_file modify]. rewrite (w64_small (fl_off v + n1)) by lia.
    set (sD := Files _ _). mstep (lift_ret (iunlock pid ip) sD () (with_ic s2 ic) Hun). set (sE := lset _ sD).
    mstep (lift_ret (lift t_end_op : M (fs T) ()) sE () s4 Hend).
    destruct (Z.ltb_spec n1 0); [lia|]. rewrite Z.eqb_refl. cbn [negb]. rewrite (s32_small (i + n1)) by lia. done.
  - assert (written s t f n1 (λ o, addr (i + (o - fl_off v))) (Files (upd (ft_file s) f v') s4)
      (Tx (t_home t2) (t_cap t2) (t_view t2) [] ∅)); [|done].
    split; unfold ip_of; fold v ip; cbn [ft_fs ft_file t_cap t_view]; rewrite ?He4; try done.
    + intros h. apply upd_case.
    + intros j Hj. cbn. rewrite Hic, upd_ne by done. rewrite D6 by done. by apply upd_ne.
  - cbn [ft_fs t_view]. rewrite He4. apply Hfr. eapply has_free_le; [|exact Hfree]. lia.
Qed.

Lemma filewrite_loop_ok c : ∀ s t f addr i n fuel,
  let v := ft_file s f in
  at_rest sb (ft_fs s) t (fl_ip v) → 0 ≤ fl_off v ≤ i_size (ip_of s f) → 0 ≤ i ≤ n → n < 2 ^ 31 →
  fl_off v + (n - i) ≤ MAXFILE * BSIZE → MAXOPBLOCKS < t_cap t →
  n - i ≤ Z.of_nat c * write_max → (c < fuel)%nat →
  has_free sb (t_view t) (4 * c + fbudget (i_addrs (ip_of s f))) →
  ∃ s' t', filewrite_loop pid devsw_write fuel f addr i n s = Ret n s' ∧
    written s t f (n - i) (λ o, addr (i + (o - fl_off v))) s' t'.
Proof.
  induction c as [|c IH]; intros s t f addr i n fuel v Hrest Ho Hi Hn Hmax Hcap Hc Hfu Hfree;
    (destruct fuel as [|fuel]; [lia|]);
    (destruct (decide (i = n)) as [->|Hne]; [exists s, t; cbn [filewrite_loop]; rewrite Z.ltb_irrefl, Z.sub_diag;
       split; [done|apply written_nothing; [done|apply Ho]]|]).
  { lia. }
  set (n1 := Z.min (n - i) write_max). assert (write_max = 1536) as Hwm by done.
  destruct (write_chunk s t f addr i n fuel (4 * c)%nat) as (s1 & t1 & Hrun & Hw & Hfr); try done;
    fold v n1; try lia.
  { eapply has_free_le; [|exact Hfree]. lia. }
  fold v n1 in Hrun, Hw, Hfr. pose proof Hw as [W1 W2 W3 W4 W5 W6].
  assert (ft_file s1 f = with_off v (fl_off v + n1)) as Hv1 by (rewrite W3; by rewrite decide_True).
  assert (fl_ip (ft_file s1 f) = fl_ip v ∧ fl_off (ft_file s1 f) = fl_off v + n1) as [Hip1 Hoff1] by (by rewrite Hv1).
  assert (ip_of s1 f = f_icache (ft_fs s1) (fl_ip v)) as Hipe by (unfold ip_of; by rewrite Hip1).
  destruct (IH s1 t1 f addr (i + n1) n fuel) as (s' & t' & Hrun' & Hw'); rewrite ?Hip1, ?Hoff1, ?Hipe; try done; try lia.
  { fold v in W4. rewrite W4. lia. }
  exists s', t'. rewrite Hrun. split; [done|].
  replace (n - i) with (n1 + (n - (i + n1))) by lia. apply (written_trans _ _ _ _ _ _ s1 t1); [lia|lia|apply Ho|done|].
  rewrite Hoff1 in Hw'. destruct Hw' as [A1 A2 A3 A4 A5 A6]. split; try done.
  intros o Hor. rewrite A5 by done. case_decide; [|done]. f_equal. lia.
Qed.

(** C31: [filewrite] to a file at rest, of any length that the file can hold,
    writes all of it: it returns [n], the offset has moved on by [n], the inode
    now reads as the source there and as before elsewhere, nothing of the inode
    cache but the entry of the file has changed, and the file is at rest again,
    with everything on disk.  [fuel] is the number of transactions. *)
Theorem filewrite_correct s t f addr n fuel :
  let v := ft_file s f in let ip := ip_of s f in
  at_rest sb (ft_fs s) t (fl_ip v) → fl_type v = FD_INODE → fl_writable v = true →
  0 ≤ fl_off v ≤ i_size ip → 0 ≤ n → fl_off v + n ≤ MAXFILE * BSIZE → MAXOPBLOCKS < t_cap t →
  has_free sb (t_view t) (4 * Z.to_nat (n / write_max + 1) + 1) → (Z.to_nat (n / write_max + 1) < fuel)%nat →
  ∃ s' t', filewrite pid devsw_write fuel f addr n s = Ret n s' ∧
    at_rest sb (ft_fs s') t' (fl_ip v) ∧
    (∀ h, ft_file s' h = if decide (h = f) then with_off v (fl_off v + n) else ft_file s h) ∧
    let ip' := f_icache (ft_fs s') (fl_ip v) in
    i_size ip' = Z.max (i_size ip) (fl_off v + n) ∧
    (∀ o, 0 ≤ o < i_size ip' → fbyte (t_view t') (i_addrs ip') o =
       if decide (fl_off v ≤ o < fl_off v + n) then addr (o - fl_off v)
       else fbyte (t_view t) (i_addrs ip) o) ∧
    ∀ j, j ≠ fl_ip v → f_icache (ft_fs s') j = f_icache (ft_fs s) j.
Proof.
  intros v ip Hrest Hty Hwr Ho Hn Hmax Hcap Hfree Hfu.
  assert (MAXFILE * BSIZE = 71680 ∧ write_max = 1536) as [HM Hwm] by done.
  assert (fbudget (i_addrs (ip_of s f)) ≤ 1)%nat by (unfold fbudget; case_decide; lia).
  destruct (filewrite_loop_ok (Z.to_nat (n / write_max + 1)) s t f addr 0 n fuel) as (s' & t' & Hrun & Hw); try done.
  { lia. } { fold v. lia. } { rewrite Hwm. zlia. } { eapply has_free_le; [|exact Hfree]. lia. }
  rewrite Z.sub_0_r in Hw. destruct Hw as [A1 A2 A3 A4 A5 A6]. exists s', t'. split.
  { unfold filewrite. mstep (eq_refl (get_file f s)). fold v. rewrite Hwr, Hty. cbn [negb]. mstep Hrun.
    by rewrite Z.eqb_refl. }
  split; [done|]. split; [done|]. split; [done|]. split; [|done].
  intros o Hor. rewrite A5 by done. by rewrite Z.add_0_l.
Qed.
End Write.
