(* ===== verification/FileExample.v ===== *)
(** The theorems of file FileSpec on the machine of file FsExample. *)

From S2P Require Import Prelude BufferCache Sleeplock Bio Superblock Log LogCrash LogOps Ramdisk Txn.
From S2P Require Import Fs FsAlloc FsInode FsFile FsRw FsExample File FileSpec.

Lemma write_chunk_fits_witness :
  ∃ s' t', writei no_dev_write 0 (λ k, 5) 600 1536 ex_fs = Ret 1536 s' ∧ readable ex_sb s' t' 0 ∧
    Z.of_nat (length (t_log t')) ≤ 10.
Proof.
  assert (0 ≤ 600 ≤ i_size (f_icache ex_fs 0)) as Ho by by vm_compute.
  assert (0 ≤ 1536 ≤ write_max) as Hn by by vm_compute.
  assert (600 + 1536 ≤ MAXFILE * BSIZE) as Hm by by vm_compute.
  assert (MAXOPBLOCKS < t_cap ex_tx) as Hc by by vm_compute.
  assert (on_disk ex_sb ex_file) as Hd by by vm_compute.
  exact (write_chunk_fits ex_sb no_dev_write ex_fs ex_tx 0 (λ k, 5) 600 1536
    ex_readable ex_in_sync Hd eq_refl Ho Hn Hm Hc (ex_free 5 ltac:(lia))).
Defined.

(** The machine between two system calls: file 3 is open on inode 2. *)
Definition rest_log : log := mkLog 2 30 0 0 ROOTDEV 0 (replicate 30 0) 0.
Definition rest_icache : Z → inode := upd ex_icache 0 (with_ilock ex_file initsleeplock).
Definition rest_fs : fs (lst (bst ramdisk)) := Fs ex_sb rest_icache (mkLst rest_log (rd_boot ex_fs_disk)).
Definition rest_file : file := mkFile FD_INODE 1 true true 0 600.
Definition rest_files : files (lst (bst ramdisk)) := Files (upd (λ _, file0) 3 rest_file) rest_fs.

Lemma rest_idle : op_idle (f_tx rest_fs) ex_tx.
Proof.
  exists (Abs ex_fs_disk [] ∅). split; [| |done|done|done|done|done|done].
  - split; [by split|apply NoDup_nil_2|done| |intros b _; apply lookup_empty|].
    + apply bc_boot_rel, rd_boot_ok. intros b _. apply ex_block_ok.
    + intros b. split; [by intros ?%not_elem_of_nil|]. cbn. by intros (e & ?%lookup_empty_Some & _).
  - destruct ex_only as [_ ? ? ?]. by split.
Qed.

Lemma rest_at_rest : at_rest ex_sb rest_fs ex_tx 0.
Proof.
  destruct ex_readable as [[_ Hg Hm _ _] _ _ Ht Hs Hf Hfull].
  assert (in_sync ex_sb rest_fs ex_tx 0) as Hsync by (by eapply (in_sync_lock ex_sb ex_fs rest_fs), ex_in_sync).
  assert (0 < t_cap ex_tx) as Hcap by by vm_compute.
  split; [done|exact Hg|exact Hm|exact rest_idle|by vm_compute|by vm_compute|by vm_compute|by vm_compute|by vm_compute
    |exact Ht|exact Hs|exact Hf|exact Hfull|exact Hsync|exact Hcap].
Qed.

(** A write that takes two transactions. *)
Lemma filewrite_correct_witness :
  ∃ s' t', filewrite 1 no_dev_write 3 3 (λ k, k mod 256) 2000 rest_files = Ret 2000 s' ∧
    at_rest ex_sb (ft_fs s') t' 0 ∧ fl_off (ft_file s' 3) = 2600 ∧
    fbyte (t_view t') (i_addrs (f_icache (ft_fs s') 0)) 2599 = 1999 mod 256.
Proof.
  assert (0 ≤ fl_off (ft_file rest_files 3) ≤ i_size (ip_of rest_files 3)) as Ho by by vm_compute.
  assert (fl_off (ft_file rest_files 3) + 2000 ≤ MAXFILE * BSIZE) as Hm by by vm_compute.
  assert (MAXOPBLOCKS < t_cap ex_tx) as Hc by by vm_compute.
  assert (has_free ex_sb (t_view ex_tx) (4 * Z.to_nat (2000 / write_max + 1) + 1)) as Hk.
  { apply ex_free. vm_compute. lia. }
  destruct (filewrite_correct ex_sb 1 no_dev_write rest_files ex_tx 3 (λ k, k mod 256) 2000 3
    rest_at_rest eq_refl eq_refl Ho ltac:(lia) Hm Hc Hk ltac:(vm_compute; lia))
    as (s' & t' & Hrun & Hrest & Hf & Hsz & Hb & _).
  exists s', t'. split; [exact Hrun|]. split; [exact Hrest|]. split; [by rewrite Hf|].
  change (fl_ip (ft_file rest_files 3)) with 0 in Hsz, Hb.
  change (i_size (f_icache (ft_fs s') 0) = 2600) in Hsz.
  rewrite Hb by (rewrite Hsz; lia). reflexivity.
Defined.
