(* ===== verification/Console.v ===== *)
(** The console: kern/console.c, with [uart_putchar] of kern/uart.c.

    State: the input buffer of console.c, and the bytes sent to the UART, which
    accepts every byte.  [conslock] is held inside each function only.  A
    [wakeup(&input.r)] is counted in [c_wakes].  [va_arg] arguments are a list
    of [va]; a format is the list of its characters. *)

From S2P Require Import Prelude Sleeplock BufferCache Superblock Txn Fs.

Definition INPUT_BUF : Z := 128.
Definition CONSOLE : Z := 1.
(** [C(x)] for D, H, P and U, and the other characters by name. *)
Definition ctrl_D : Z := 4.
Definition ctrl_H : Z := 8.
Definition newline : Z := 10.
Definition carriage : Z := 13.
Definition ctrl_P : Z := 16.
Definition ctrl_U : Z := 21.
Definition del : Z := 127.
Definition BACKSPACE : Z := 0x100.

Record con := Con {
  c_buf : list Z; c_r : Z; c_w : Z; c_e : Z; c_panicked : Z; c_out : list Z; c_wakes : nat;
}.

Definition con0 : con := Con (replicate (Z.to_nat INPUT_BUF) 0) 0 0 0 (-1) [] 0.

Definition uart_putchar (c : Z) : M con () :=
  modify (λ s, Con (c_buf s) (c_r s) (c_w s) (c_e s) (c_panicked s) (c_out s ++ [Z.land c 255]) (c_wakes s)).
Definition set_r (r : Z) : M con () :=
  modify (λ s, Con (c_buf s) r (c_w s) (c_e s) (c_panicked s) (c_out s) (c_wakes s)).
Definition set_e (e : Z) : M con () :=
  modify (λ s, Con (c_buf s) (c_r s) (c_w s) e (c_panicked s) (c_out s) (c_wakes s)).
(** [input.w = input.e; wakeup(&input.r)]. *)
Definition commit_line : M con () :=
  modify (λ s, Con (c_buf s) (c_r s) (c_e s) (c_e s) (c_panicked s) (c_out s) (c_wakes s + 1)).
(** [input.buf[input.e++ % INPUT_BUF] = c]. *)
Definition put_input (c : Z) : M con () :=
  modify (λ s, Con (<[Z.to_nat (c_e s mod INPUT_BUF) := w8 c]> (c_buf s)) (c_r s) (c_w s) (w64 (c_e s + 1))
                   (c_panicked s) (c_out s) (c_wakes s)).

Definition consputc (c : Z) : M con () :=
  if c =? BACKSPACE then uart_putchar 8 ;; uart_putchar 32 ;; uart_putchar 8
  else uart_putchar c.

(** ** Input *)

(** [input.e--; consputc(BACKSPACE)]. *)
Definition erase : M con () :=
  s ← gets id; set_e (w64 (c_e s - 1)) ;; consputc BACKSPACE.

(** The loop of ^U. *)
Fixpoint kill_line (fuel : nat) : M con () :=
  match fuel with
  | O => no_fuel
  | S fuel =>
    s ← gets id;
    if c_e s =? c_w s then mret ()
    else
      c ← array_get (c_buf s) (w64 (c_e s - 1) mod INPUT_BUF);
      if c =? newline then mret () else erase ;; kill_line fuel
  end.

(** The switch of [console_intr] for one character; the result is the new
    [doprocdump]. *)
Definition intr_char (c : Z) (dump : bool) : M con bool :=
  s ← gets id;
  if c =? ctrl_P then mret true
  else if c =? ctrl_U then kill_line (Z.to_nat (w64 (c_e s - c_w s)) + 1) ;; mret dump
  else if (c =? ctrl_H) || (c =? del) then
    when (negb (c_e s =? c_w s)) erase ;; mret dump
  else if negb (c =? 0) && (w64 (c_e s - c_r s) <? INPUT_BUF) then
    let c := if c =? carriage then newline else c in
    put_input c ;;
    consputc c ;;
    s ← gets id;
    when ((c =? newline) || (c =? ctrl_D) || (c_e s =? w64 (c_r s + INPUT_BUF))) commit_line ;;
    mret dump
  else mret dump.

(** [getc] returns the elements of [cs], then a negative number. *)
Fixpoint intr_loop (cs : list Z) (dump : bool) : M con bool :=
  match cs with
  | [] => mret dump
  | c :: cs => if c <? 0 then mret dump else dump ← intr_char c dump; intr_loop cs dump
  end.
Definition console_intr (cs : list Z) : M con () :=
  s ← gets id;
  if 0 <=? c_panicked s then no_fuel (* spins for ever *)
  else
    dump ← intr_loop cs false;
    when dump (panic "unimplemented" (* procdump *)).

(** The loop of [console_read]: [n] bytes to go, [acc] stored so far; the
    result is the final [n] and the bytes.  [None]: interrupted by [kill]. *)
Fixpoint read_loop (fuel : nat) (chan : Z) (killed : bool) (n target : Z) (acc : list Z) :
    M con (option (Z * list Z)) :=
  match fuel with
  | O => no_fuel
  | S fuel =>
    if 0 <? n then
      s ← gets id;
      if c_r s =? c_w s then (if killed then mret None else sleep_on chan)
      else
        c ← array_get (c_buf s) (c_r s mod INPUT_BUF);
        set_r (w64 (c_r s + 1)) ;;
        if c =? ctrl_D then
          when (w64 n <? target) (set_r (c_r s)) ;; mret (Some (n, acc))
        else if c =? newline then mret (Some (n - 1, acc ++ [c]))
        else read_loop fuel chan killed (n - 1) target (acc ++ [c])
    else mret (Some (n, acc))
  end.

(** ** Output *)

Definition digit_char (d : Z) : Z := if d <? 10 then 48 + d else 87 + d.

(** The digits of [t], the last one first, stored to a buffer of 64. *)
Fixpoint digits_loop (fuel : nat) (t base i : Z) : M con (list Z) :=
  match fuel with
  | O => no_fuel
  | S fuel =>
    if 64 <=? i then undef "buf"
    else
      let d := digit_char (t mod base) in
      let t := t / base in
      if t =? 0 then mret [d]
      else l ← digits_loop fuel t base (i + 1); mret (d :: l)
  end.
Fixpoint put_chars (l : list Z) : M con () :=
  match l with
  | [] => mret ()
  | c :: l => uart_putchar c ;; put_chars l
  end.
(** [x] is an [int64_t]; negating the least one overflows. *)
Definition printint (x base : Z) (sign : bool) : M con () :=
  let neg := sign && (x <? 0) in
  if neg && (x =? - 2 ^ 63) then undef "negation of the least int64_t"
  else
    let x := if neg then - x else x in
    when neg (uart_putchar 45) ;;
    l ← digits_loop 65 (w64 x) base 0;
    put_chars (rev l).

(** The next argument: a word, or a [char *]. *)
Inductive va := VInt (x : Z) | VStr (s : option (list Z)).

(** [va_arg] of an integer type that keeps what [f] keeps of the word. *)
Definition int_arg (f : Z → Z) (args : list va) (base : Z) (sign : bool) : M con (list va) :=
  match args with
  | VInt x :: args => printint (f x) base sign ;; mret args
  | _ => undef "va_arg"
  end.
(** An [l] that is skipped. *)
Fixpoint skip_l (fmt : list Z) (l : nat) : list Z * nat :=
  match fmt with
  | c :: rest => if c =? 108 then skip_l rest (S l) else (fmt, l)
  | [] => ([], l)
  end.
(** One conversion; the result is the arguments left. *)
Definition conversion (c : Z) (l : nat) (args : list va) : M con (list va) :=
  if c =? 117 (* u *) then if (l =? 2)%nat then int_arg s64 args 10 false else int_arg w32 args 10 false
  else if c =? 100 (* d *) then if (l =? 2)%nat then int_arg s64 args 10 true else int_arg s32 args 10 true
  else if c =? 120 (* x *) then if (l =? 2)%nat then int_arg s64 args 16 false else int_arg w32 args 16 false
  else if c =? 112 (* p *) then int_arg s64 args 16 false
  else if c =? 99 (* c *) then
    match args with
    | VInt x :: args => uart_putchar (s32 x) ;; mret args
    | _ => undef "va_arg"
    end
  else if c =? 115 (* s *) then
    match args with
    | VStr s :: args => put_chars (default [40; 110; 117; 108; 108; 41] s) ;; mret args
    | _ => undef "va_arg"
    end
  else if c =? 37 (* % *) then uart_putchar 37 ;; mret args
  else uart_putchar 37 ;; uart_putchar c ;; mret args.
(** [vprintfmt] with [putch = uart_putchar]; [fuel] bounds the length of the
    format. *)
Fixpoint vprintfmt (fuel : nat) (fmt : list Z) (args : list va) : M con () :=
  match fuel with
  | O => no_fuel
  | S fuel =>
    match fmt with
    | [] => mret ()
    | c :: fmt =>
      if negb (c =? 37) then uart_putchar c ;; vprintfmt fuel fmt args
      else
        let '(fmt, l) := skip_l fmt 0 in
        match fmt with
        | [] => mret ()
        | c :: fmt => args ← conversion c l args; vprintfmt fuel fmt args
        end
    end
  end.

Definition cprintf (cpuid : Z) (fmt : list Z) (args : list va) : M con () :=
  s ← gets id;
  if (0 <=? c_panicked s) && negb (c_panicked s =? cpuid) then no_fuel (* spins for ever *)
  else vprintfmt (length fmt + 1) fmt args.

(** ** The device *)

Section Device.
Context {T : Type} `{!TxnOps T, !Lens T con}.
Context (pid : Z).
(** The address of [input.r], and [thisproc()->killed]. *)
Context (chan : Z) (killed : bool).

Definition on_con {A} (m : M con A) : M (fs T) A := lift (lift m : M T A).

Definition console_write (ip : Z) (buf : Z → Z) (n : Z) : M (fs T) Z :=
  iunlock pid ip ;;
  (if n <? 0 then undef "buf" else on_con (put_chars (map buf (seqZ 0 n)))) ;;
  ilock pid ip ;;
  mret n.

Definition console_read (ip n : Z) : M (fs T) (Z * list Z) :=
  iunlock pid ip ;;
  r ← on_con (read_loop (Z.to_nat n + 1) chan killed n (w64 n) []);
  ilock pid ip ;;
  match r with
  | None => mret (-1, [])
  | Some (n', acc) => mret (s64 (w64 n - n'), acc)
  end.

(** [devsw] after [console_init]. *)
Definition devsw_read (major : Z) : option (Z → Z → M (fs T) (Z * list Z)) :=
  if major =? CONSOLE then Some (λ ip n, console_read ip (s64 n)) else None.
Definition devsw_write (major : Z) : option (Z → (Z → Z) → Z → M (fs T) Z) :=
  if major =? CONSOLE then Some (λ ip buf n, console_write ip buf (s64 n)) else None.
End Device.
