(* ===== verification/ConsoleSpec.v ===== *)
(** What the console promises: line editing and reading, and printed numbers.

    The abstract console has the bytes that are ready to be read and the line
    that is being edited; [con_rel] says where they are in the circular buffer,
    whose indices run modulo 2^64. *)

From S2P Require Import Prelude Memory CString Console.

Lemma w64_mod (x : Z) : w64 x mod INPUT_BUF = x mod INPUT_BUF.
Proof. unfold w64. apply Z.mod_mod_divide. by exists (2 ^ 57). Qed.

Lemma w64_add_l x y : w64 (w64 x + y) = w64 (x + y).
Proof. unfold w64. apply Zplus_mod_idemp_l. Qed.
Lemma w64_sub_l x y : w64 (w64 x - y) = w64 (x - y).
Proof. unfold w64. apply Zminus_mod_idemp_l. Qed.
Lemma w64_idem x : w64 (w64 x) = w64 x.
Proof. unfold w64. by rewrite Z.mod_mod. Qed.
Lemma w64_sub_eq a x y : 0 ≤ y - x < 2 ^ 64 → w64 (w64 (a + y) - w64 (a + x)) = y - x.
Proof.
  intros H. unfold w64. rewrite Zminus_mod_idemp_l, Zminus_mod_idemp_r.
  replace (a + y - (a + x)) with (y - x) by lia. by apply Z.mod_small.
Qed.
Lemma w64_inj a x y : - 2 ^ 64 < x - y < 2 ^ 64 → w64 (a + x) = w64 (a + y) → x = y.
Proof. unfold w64. intros H He. zlia. Qed.

(** ** The input buffer *)

Definition zlen (l : list Z) : Z := Z.of_nat (length l).

Lemma zlen_app l l' : zlen (l ++ l') = zlen l + zlen l'.
Proof. unfold zlen. rewrite length_app. lia. Qed.

Lemma zlen_snoc l l' c : zlen (l ++ l' ++ [c]) = zlen (l ++ l') + 1.
Proof. rewrite app_assoc, zlen_app. done. Qed.

Record con_rel (s : con) (ready line : list Z) : Prop := {
  cr_len : length (c_buf s) = Z.to_nat INPUT_BUF;
  cr_r : w64 (c_r s) = c_r s;
  cr_w : c_w s = w64 (c_r s + zlen ready);
  cr_e : c_e s = w64 (c_r s + zlen (ready ++ line));
  cr_cap : zlen (ready ++ line) ≤ INPUT_BUF;
  cr_buf k c : (ready ++ line) !! k = Some c →
    c_buf s !! Z.to_nat ((c_r s + Z.of_nat k) mod INPUT_BUF) = Some c;
  cr_line : newline ∉ line ∧ ctrl_D ∉ line;
  cr_full : line = [] ∨ zlen (ready ++ line) < INPUT_BUF;
}.

(** One typed character. *)
Definition type_char (st : list Z * list Z) (c : Z) : list Z * list Z :=
  let '(ready, line) := st in
  if c =? ctrl_P then st
  else if c =? ctrl_U then (ready, [])
  else if (c =? ctrl_H) || (c =? del) then (ready, removelast line)
  else if negb (c =? 0) && (zlen (ready ++ line) <? INPUT_BUF) then
    let c := if c =? carriage then newline else c in
    let line := line ++ [c] in
    if (c =? newline) || (c =? ctrl_D) || (zlen (ready ++ line) =? INPUT_BUF) then (ready ++ line, [])
    else (ready, line)
  else st.

Lemma zlen_nonneg l : 0 ≤ zlen l.
Proof. unfold zlen. lia. Qed.

Lemma con_rel_drop_last s s' ready line c :
  con_rel s ready (line ++ [c]) →
  c_buf s' = c_buf s → c_r s' = c_r s → c_w s' = c_w s → c_e s' = w64 (c_e s - 1) →
  con_rel s' ready line.
Proof.
  intros [C1 C2 C3 C4 C5 C6 [C7 C7'] C8] Hb Hr Hw He.
  assert (zlen (ready ++ line ++ [c]) = zlen (ready ++ line) + 1) as Hl by apply zlen_snoc.
  rewrite Hl in *. split; rewrite ?Hb, ?Hr; try done.
  - by rewrite Hw.
  - rewrite He, C4, w64_sub_l. f_equal. lia.
  - lia.
  - intros k x Hk. apply C6. rewrite app_assoc. by apply lookup_app_l_Some.
  - set_solver.
  - right. destruct C8 as [?%app_eq_nil|]; [naive_solver|lia].
Qed.

Lemma erase_spec s ready line c :
  con_rel s ready (line ++ [c]) →
  ∃ s', erase s = Ret () s' ∧ con_rel s' ready line ∧ c_wakes s' = c_wakes s ∧ c_panicked s' = c_panicked s.
Proof. intros Hc. eexists. split; [reflexivity|]. split; [by eapply con_rel_drop_last|done]. Qed.

Lemma con_rel_edit s ready line : con_rel s ready line → (c_e s =? c_w s) = bool_decide (line = []).
Proof.
  intros [C1 C2 C3 C4 C5 C6 C7 C8]. rewrite C3, C4. pose proof (zlen_nonneg line). rewrite zlen_app in *.
  pose proof (zlen_nonneg ready). unfold INPUT_BUF in *.
  destruct line as [|c line].
  - rewrite bool_decide_true by done. change (zlen []) with 0. by rewrite Z.add_0_r, Z.eqb_refl.
  - rewrite bool_decide_false by done. apply Z.eqb_neq. intros He%w64_inj; [|lia].
    change (zlen (c :: line)) with (Z.of_nat (S (length line))) in *. lia.
Qed.

(** The last character of the line that is being edited. *)
Lemma con_rel_last s ready line c :
  con_rel s ready (line ++ [c]) →
  array_get (c_buf s) (w64 (c_e s - 1) mod INPUT_BUF) s = Ret c s.
Proof.
  intros [C1 C2 C3 C4 C5 C6 C7 C8]. rewrite w64_mod.
  assert (zlen (ready ++ line ++ [c]) = zlen (ready ++ line) + 1) as Hl by apply zlen_snoc.
  assert ((c_e s - 1) mod INPUT_BUF = (c_r s + zlen (ready ++ line)) mod INPUT_BUF) as ->.
  { rewrite C4, Hl, <-w64_mod, w64_sub_l, w64_mod. f_equal. lia. }
  apply array_get_some; [by apply Z.mod_pos_bound|]. apply C6.
  rewrite app_assoc, lookup_app_r by done. by rewrite Nat.sub_diag.
Qed.

Lemma kill_line_spec ready line : ∀ s fuel,
  con_rel s ready line → (length line < fuel)%nat →
  ∃ s', kill_line fuel s = Ret () s' ∧ con_rel s' ready [] ∧ c_wakes s' = c_wakes s ∧ c_panicked s' = c_panicked s.
Proof.
  induction line as [|c line IH] using rev_ind; intros s fuel Hc Hf; (destruct fuel as [|fuel]; [lia|]); cbn [kill_line].
  - exists s. mstep (eq_refl (gets id s)). cbn [id]. by rewrite (con_rel_edit s ready [] Hc).
  - rewrite length_app in Hf. cbn [length] in Hf. mstep (eq_refl (gets id s)). cbn [id].
    rewrite (con_rel_edit s ready _ Hc), bool_decide_false by (by intros ?%app_eq_nil; naive_solver).
    mstep (con_rel_last s ready line c Hc).
    assert (c =? newline = false) as ->.
    { apply Z.eqb_neq. intros ->. destruct (cr_line _ _ _ Hc). set_solver. }
    destruct (erase_spec s ready line c Hc) as (s1 & H1 & Hc1 & Hw1 & Hp1). mstep H1.
    destruct (IH s1 fuel Hc1) as (s' & H2 & Hc2 & Hw2 & Hp2); [lia|]. exists s'. split_and!; congruence.
Qed.

(** A character appended to the line, before the line is looked at. *)
Lemma put_input_spec s ready line c :
  con_rel s ready line → zlen (ready ++ line) < INPUT_BUF → 0 ≤ c < 256 →
  ∃ s', put_input c s = Ret () s' ∧
    (c ≠ newline → c ≠ ctrl_D → zlen (ready ++ line) + 1 < INPUT_BUF → con_rel s' ready (line ++ [c])) ∧
    con_rel (Con (c_buf s') (c_r s') (c_e s') (c_e s') (c_panicked s') (c_out s') (c_wakes s')) (ready ++ line ++ [c]) [] ∧
    c_r s' = c_r s ∧ c_e s' = w64 (c_r s + (zlen (ready ++ line) + 1)) ∧
    c_wakes s' = c_wakes s ∧ c_panicked s' = c_panicked s.
Proof.
  intros [C1 C2 C3 C4 C5 C6 [C7 C7'] C8] Hlt Hc. eexists. split; [reflexivity|]. cbn [c_buf c_r c_w c_e c_panicked c_out c_wakes].
  pose proof (zlen_nonneg (ready ++ line)) as H0. assert (w8 c = c) as -> by (unfold w8; by apply Z.mod_small).
  assert (w64 (c_e s + 1) = w64 (c_r s + (zlen (ready ++ line) + 1))) as He.
  { rewrite C4, w64_add_l. f_equal. lia. }
  assert (c_e s mod INPUT_BUF = (c_r s + zlen (ready ++ line)) mod INPUT_BUF) as Hi by (by rewrite C4, w64_mod).
  assert (∀ k x, (ready ++ line ++ [c]) !! k = Some x →
    <[Z.to_nat (c_e s mod INPUT_BUF):=c]> (c_buf s) !! Z.to_nat ((c_r s + Z.of_nat k) mod INPUT_BUF) = Some x) as Hb.
  { intros k x. rewrite app_assoc. intros Hk. rewrite Hi.
    pose proof (Z.mod_pos_bound (c_r s + zlen (ready ++ line)) INPUT_BUF ltac:(done)).
    pose proof (Z.mod_pos_bound (c_r s + Z.of_nat k) INPUT_BUF ltac:(done)).
    apply lookup_app_Some in Hk as [Hk|[Hk Hx]].
    - rewrite list_lookup_insert_ne; [by apply C6|]. apply lookup_lt_Some in Hk.
      intros Heq%Z2Nat.inj; [|lia|lia]. unfold zlen, INPUT_BUF in *. zlia.
    - apply list_lookup_singleton_Some in Hx as [Hx ->].
      assert (Z.of_nat k = zlen (ready ++ line)) as -> by (unfold zlen; lia).
      apply list_lookup_insert_eq. rewrite C1. unfold INPUT_BUF in *. lia. }
  split; [|split; [|done]].
  - intros Hnl Hd Hf. split; cbn [c_buf c_r c_w c_e c_panicked]; rewrite ?length_insert, ?zlen_snoc; try done; [lia|set_solver|by right].
  - split; cbn [c_buf c_r c_w c_e c_panicked]; rewrite ?length_insert, ?app_nil_r, ?zlen_snoc; try done; [lia|set_solver|by left].
Qed.

Lemma consputc_con c s : ∃ o, consputc c s = Ret () (Con (c_buf s) (c_r s) (c_w s) (c_e s) (c_panicked s) o (c_wakes s)).
Proof. unfold consputc. destruct (c =? BACKSPACE); eexists; reflexivity. Qed.

Lemma con_rel_out s ready line o :
  con_rel s ready line → con_rel (Con (c_buf s) (c_r s) (c_w s) (c_e s) (c_panicked s) o (c_wakes s)) ready line.
Proof. intros []. by split. Qed.

(** The buffer has room exactly when fewer than INPUT_BUF bytes are in it. *)
Lemma con_rel_room s ready line : con_rel s ready line → w64 (c_e s - c_r s) = zlen (ready ++ line).
Proof.
  intros [C1 C2 C3 C4 C5 C6 C7 C8]. pose proof (zlen_nonneg (ready ++ line)). unfold INPUT_BUF in *.
  rewrite C4, w64_sub_l. replace (c_r s + _ - c_r s) with (zlen (ready ++ line)) by lia. apply w64_small. lia.
Qed.

Lemma intr_char_spec s ready line c dump :
  con_rel s ready line → 0 ≤ c < 256 →
  ∃ s', intr_char c dump s = Ret (dump || (c =? ctrl_P)) s' ∧
    con_rel s' (type_char (ready, line) c).1 (type_char (ready, line) c).2 ∧
    c_panicked s' = c_panicked s ∧ (c_wakes s ≤ c_wakes s')%nat ∧
    ((type_char (ready, line) c).1 ≠ ready → (c_wakes s < c_wakes s')%nat).
Proof.
  intros Hc Hr. unfold intr_char, type_char. mstep (eq_refl (gets id s)). cbn [id].
  destruct (Z.eqb_spec c ctrl_P) as [->|HP].
  { exists s. rewrite orb_true_r. by split_and!. }
  rewrite orb_false_r. destruct (Z.eqb_spec c ctrl_U) as [->|HU].
  { destruct (kill_line_spec ready line s (Z.to_nat (w64 (c_e s - c_w s)) + 1) Hc) as (s' & H1 & Hc1 & Hw & Hp).
    - assert (w64 (c_e s - c_w s) = zlen line) as ->; [|unfold zlen; lia].
      destruct Hc as [C1 C2 C3 C4 C5 C6 C7 C8]. pose proof (zlen_nonneg line). pose proof (zlen_nonneg ready).
      rewrite C3, C4. rewrite zlen_app in *. unfold INPUT_BUF in *. rewrite w64_sub_eq; lia.
    - exists s'. mstep H1. split; [done|]. split; [done|]. split; [done|]. split; [lia|done]. }
  destruct ((c =? ctrl_H) || (c =? del)) eqn:HB.
  { rewrite (con_rel_edit s ready line Hc). destruct line as [|x l _] using rev_ind.
    - rewrite bool_decide_true by done. exists s. by split_and!.
    - rewrite bool_decide_false by (by intros ?%app_eq_nil; naive_solver). cbn [negb when].
      destruct (erase_spec s ready l x Hc) as (s' & H1 & Hc1 & Hw & Hp). exists s'. mstep H1. rewrite removelast_last.
      split; [done|]. split; [done|]. split; [done|]. split; [lia|done]. }
  rewrite (con_rel_room s ready line Hc).
  destruct (negb (c =? 0) && (zlen (ready ++ line) <? INPUT_BUF)) eqn:HR; [|exists s; by split_and!].
  apply andb_true_iff in HR as [_ Hlt%Z.ltb_lt].
  set (c' := if c =? carriage then newline else c).
  assert (0 ≤ c' < 256) as Hr' by (unfold c'; case_match; [done|lia]).
  destruct (put_input_spec s ready line c' Hc Hlt Hr') as (s1 & H1 & Hline & Hcommit & Hrr & Hee & Hw & Hp).
  destruct (consputc_con c' s1) as [o Ho]. set (s2 := Con _ _ _ _ _ o _) in Ho.
  mstep H1. mstep Ho. mstep (eq_refl (gets id s2)). cbn [id]. change (c_e s2) with (c_e s1). change (c_r s2) with (c_r s1).
  rewrite Hee, Hrr, zlen_snoc.
  assert ((w64 (c_r s + (zlen (ready ++ line) + 1)) =? w64 (c_r s + INPUT_BUF)) = (zlen (ready ++ line) + 1 =? INPUT_BUF)) as ->.
  { pose proof (zlen_nonneg (ready ++ line)). destruct (Z.eqb_spec (zlen (ready ++ line) + 1) INPUT_BUF) as [->|Hne]; [apply Z.eqb_refl|].
    apply Z.eqb_neq. intros He%w64_inj; [done|]. unfold INPUT_BUF in *. lia. }
  destruct ((c' =? newline) || (c' =? ctrl_D) || (zlen (ready ++ line) + 1 =? INPUT_BUF)) eqn:HC; cbn [when fst snd].
  - eexists. mstep (eq_refl (commit_line s2)). split; [reflexivity|]. split; [|split; [exact Hp|split; [cbn; lia|intros _; cbn; lia]]].
    apply (con_rel_out _ _ _ o) in Hcommit. destruct Hcommit. by split.
  - apply orb_false_iff in HC as [[H2%Z.eqb_neq H3%Z.eqb_neq]%orb_false_iff H4%Z.eqb_neq].
    exists s2. split; [reflexivity|]. split; [|split; [exact Hp|split; [cbn; lia|done]]].
    apply con_rel_out, Hline; [done|done|lia].
Qed.

Lemma intr_loop_spec cs : ∀ s ready line dump,
  con_rel s ready line → Forall (λ c, 0 ≤ c < 256) cs →
  let st := fold_left type_char cs (ready, line) in
  ∃ s', intr_loop cs dump s = Ret (dump || existsb (Z.eqb ctrl_P) cs) s' ∧ con_rel s' st.1 st.2 ∧
    (c_wakes s ≤ c_wakes s')%nat ∧ (st.1 ≠ ready → (c_wakes s < c_wakes s')%nat).
Proof.
  induction cs as [|c cs IH]; intros s ready line dump Hc Hcs; cbn [intr_loop existsb fold_left].
  - exists s. rewrite orb_false_r. by split_and!.
  - apply Forall_cons in Hcs as [Hc0 Hcs]. destruct (Z.ltb_spec c 0); [lia|].
    destruct (intr_char_spec s ready line c dump Hc Hc0) as (s1 & H1 & Hc1 & _ & Hw1 & Hw1').
    destruct (type_char (ready, line) c) as [ready1 line1] eqn:Ht. cbn [fst snd] in *.
    destruct (IH s1 ready1 line1 (dump || (c =? ctrl_P)) Hc1 Hcs) as (s2 & H2 & Hc2 & Hw2 & Hw2').
    exists s2. mstep H1. rewrite H2. split; [f_equal; rewrite Z.eqb_sym, orb_assoc; done|]. split; [done|].
    split; [lia|]. intros Hne. destruct (decide (ready1 = ready)) as [->|Hr]; [|specialize (Hw1' Hr); lia].
    specialize (Hw2' Hne). lia.
Qed.

(** C38: the console edits lines as an abstract console does.  For any typed
    bytes, [console_intr] returns with the circular buffer holding what the
    abstract console holds after these bytes, its indices modulo 2^64
    notwithstanding: ^U and backspace take back only bytes of the unfinished
    line, a newline, a ^D or a full buffer make the line ready, and then
    readers are woken.  A ^P ends in the panic of [procdump]. *)
Theorem console_intr_refines s ready line cs :
  con_rel s ready line → c_panicked s < 0 → Forall (λ c, 0 ≤ c < 256) cs →
  let st := fold_left type_char cs (ready, line) in
  if existsb (Z.eqb ctrl_P) cs then console_intr cs s = Panic "unimplemented"
  else ∃ s', console_intr cs s = Ret () s' ∧ con_rel s' st.1 st.2 ∧
    (st.1 ≠ ready → (c_wakes s < c_wakes s')%nat).
Proof.
  intros Hc Hp Hcs. unfold console_intr. mstep (eq_refl (gets id s)). cbn [id].
  destruct (Z.leb_spec 0 (c_panicked s)); [lia|].
  destruct (intr_loop_spec cs s ready line false Hc Hcs) as (s' & H1 & Hc1 & _ & Hw). mstep H1.
  cbn [orb]. destruct (existsb _ _); [done|]. exists s'. by split_and!.
Qed.

(** ** Reading *)

(** What a read of [n] bytes takes from the ready bytes: it stops after a
    newline and at ^D, which is left for the next read if something was read,
    and blocks, [None], when it runs out. *)
Fixpoint read_line (n : nat) (got : bool) (ready : list Z) : option (list Z * list Z) :=
  match n with
  | O => Some ([], ready)
  | S n =>
    match ready with
    | [] => None
    | c :: rest =>
      if c =? ctrl_D then Some ([], if got then ready else rest)
      else if c =? newline then Some ([c], rest)
      else '(l, rest) ← read_line n true rest; Some (c :: l, rest)
    end
  end.

Lemma con_rel_pop s c ready line :
  con_rel s (c :: ready) line →
  con_rel (Con (c_buf s) (w64 (c_r s + 1)) (c_w s) (c_e s) (c_panicked s) (c_out s) (c_wakes s)) ready line.
Proof.
  intros [C1 C2 C3 C4 C5 C6 C7 C8].
  assert (∀ l, zlen (c :: l) = zlen l + 1) as Hl by (intros l; unfold zlen; cbn [length]; lia).
  cbn [app] in *. rewrite Hl in *. split; cbn [c_buf c_r c_w c_e]; rewrite ?w64_idem, ?w64_add_l; try done.
  - rewrite C3. f_equal. lia.
  - rewrite C4. f_equal. lia.
  - lia.
  - intros k x Hk. rewrite <-(C6 (S k) x Hk). f_equal. f_equal.
    rewrite <-(Zplus_mod_idemp_l (w64 _)), w64_mod, Zplus_mod_idemp_l. f_equal. lia.
  - destruct C8; [by left|right; lia].
Qed.

Lemma read_loop_spec chan target ready : ∀ s line n acc fuel,
  con_rel s ready line → 0 ≤ n ≤ target → target < 2 ^ 63 → (Z.to_nat n < fuel)%nat →
  match read_line (Z.to_nat n) (n <? target) ready with
  | Some (l, rest) => ∃ s', read_loop fuel chan false n target acc s = Ret (Some (n - zlen l, acc ++ l)) s' ∧
                            con_rel s' rest line
  | None => read_loop fuel chan false n target acc s = Sleep chan
  end.
Proof.
  induction ready as [|c ready IH]; intros s line n acc fuel Hc Hn Ht Hf; (destruct fuel as [|fuel]; [lia|]);
    cbn [read_loop]; (destruct (Z.ltb_spec 0 n) as [Hpos|Hpos];
    [|replace (Z.to_nat n) with 0%nat by lia; cbn [read_line]; exists s; rewrite app_nil_r;
      change (zlen []) with 0; rewrite Z.sub_0_r; by split]);
    (replace (Z.to_nat n) with (S (Z.to_nat (n - 1))) by lia); cbn [read_line];
    mstep (eq_refl (gets id s)); cbn [id].
  - rewrite (cr_w _ _ _ Hc). change (zlen []) with 0. by rewrite Z.add_0_r, (cr_r _ _ _ Hc), Z.eqb_refl.
  - assert (c_r s =? c_w s = false) as ->.
    { apply Z.eqb_neq. pose proof (cr_cap _ _ _ Hc) as Hcap. rewrite zlen_app in Hcap.
      pose proof (zlen_nonneg line). assert (0 < zlen (c :: ready)) by (unfold zlen; cbn; lia).
      rewrite (cr_w _ _ _ Hc), <-(cr_r _ _ _ Hc) at 1. rewrite <-(Z.add_0_r (c_r s)) at 1.
      intros He%w64_inj; unfold INPUT_BUF in *; lia. }
    assert (array_get (c_buf s) (c_r s mod INPUT_BUF) s = Ret c s) as Hget.
    { apply array_get_some; [by apply Z.mod_pos_bound|]. rewrite <-(cr_buf _ _ _ Hc 0 c eq_refl).
      by rewrite Z.add_0_r. }
    mstep Hget. set (s1 := Con (c_buf s) (w64 (c_r s + 1)) (c_w s) (c_e s) (c_panicked s) (c_out s) (c_wakes s)).
    mstep (eq_refl (set_r (w64 (c_r s + 1)) s)). fold s1. pose proof (con_rel_pop s c ready line Hc) as Hc1. fold s1 in Hc1.
    destruct (Z.eqb_spec c ctrl_D) as [->|HD].
    { rewrite (w64_small n) by lia. change (zlen []) with 0. rewrite Z.sub_0_r, app_nil_r. destruct (n <? target); cbn [when].
      - eexists. mstep (eq_refl (set_r (c_r s) s1)). split; [reflexivity|]. destruct Hc. by split.
      - exists s1. by split. }
    destruct (Z.eqb_spec c newline) as [->|HN].
    { exists s1. by split. }
    specialize (IH s1 line (n - 1) (acc ++ [c]) fuel Hc1 ltac:(lia) Ht ltac:(lia)).
    assert (n - 1 <? target = true) as Hlt by (apply Z.ltb_lt; lia). rewrite Hlt in IH.
    destruct (read_line (Z.to_nat (n - 1)) true ready) as [[l rest]|]; cbn; [|done].
    destruct IH as (s' & Hrun & Hrel). exists s'. rewrite Hrun. split; [|done].
    rewrite <-app_assoc. f_equal. f_equal. f_equal. unfold zlen. cbn [length]. lia.
Qed.

(** [console_read] of [n] bytes takes what [read_line] says from the ready
    bytes and nothing else; it blocks exactly when the ready bytes run out
    before a newline, a ^D or the [n]-th byte. *)
Theorem console_read_line s ready line chan n :
  con_rel s ready line → 0 ≤ n < 2 ^ 63 →
  match read_line (Z.to_nat n) false ready with
  | Some (l, rest) =>
    ∃ s', read_loop (Z.to_nat n + 1) chan false n (w64 n) [] s = Ret (Some (n - zlen l, l)) s' ∧
      con_rel s' rest line ∧ zlen l ≤ n
  | None => read_loop (Z.to_nat n + 1) chan false n (w64 n) [] s = Sleep chan ∧ zlen ready < n
  end.
Proof.
  intros Hc Hn. rewrite w64_small by lia.
  pose proof (read_loop_spec chan n ready s line n [] (Z.to_nat n + 1) Hc ltac:(lia) ltac:(lia) ltac:(lia)) as Hl.
  rewrite Z.ltb_irrefl in Hl.
  assert (∀ m got l, match read_line m got l with Some (l', _) => (length l' ≤ m)%nat | None => (length l < m)%nat end) as Hlen.
  { clear. induction m as [|m IH]; intros got l; cbn [read_line]; [cbn; lia|]. destruct l as [|c l]; [cbn; lia|].
    destruct (c =? ctrl_D); [cbn; lia|]. destruct (c =? newline); [cbn; lia|]. specialize (IH true l).
    destruct (read_line m true l) as [[l' r]|]; cbn in *; lia. }
  specialize (Hlen (Z.to_nat n) false ready). destruct (read_line (Z.to_nat n) false ready) as [[l rest]|].
  - destruct Hl as (s' & Hrun & Hrel). exists s'. split; [done|]. split; [done|]. unfold zlen. lia.
  - split; [done|]. unfold zlen. lia.
Qed.

(** ** Numbers *)

Lemma put_chars_out l : ∀ s,
  put_chars l s = Ret () (Con (c_buf s) (c_r s) (c_w s) (c_e s) (c_panicked s) (c_out s ++ map (λ c, Z.land c 255) l) (c_wakes s)).
Proof.
  induction l as [|c l IH]; intros s; cbn [put_chars map].
  - rewrite app_nil_r. by destruct s.
  - mstep (eq_refl (uart_putchar c s)). rewrite IH. cbn. by rewrite <-app_assoc.
Qed.

(** The digits of [t], last digit first. *)
Fixpoint digits (fuel : nat) (t base : Z) : list Z :=
  match fuel with
  | O => []
  | S fuel => t mod base :: if t / base =? 0 then [] else digits fuel (t / base) base
  end.

Lemma digits_loop_spec base : 2 ≤ base → ∀ fuel t i s,
  0 ≤ t < 2 ^ Z.of_nat fuel → 0 ≤ i → (0 < fuel)%nat → i + Z.of_nat fuel ≤ 64 →
  digits_loop (S fuel) t base i s = Ret (map digit_char (digits fuel t base)) s.
Proof.
  intros Hb. induction fuel as [|fuel IH]; intros t i s Ht Hi Hf Hcap; [lia|].
  rewrite Nat2Z.inj_succ, Z.pow_succ_r in Ht by lia. unfold digits_loop; fold digits_loop.
  destruct (Z.leb_spec 64 i); [lia|]. cbn [digits]. destruct (Z.eqb_spec (t / base) 0) as [H0|H0]; [done|].
  assert (0 < t / base ≤ t / 2) as Hq.
  { split; [pose proof (Z.div_pos t base); lia|]. apply Z.div_le_compat_l; lia. }
  assert (t / 2 < 2 ^ Z.of_nat fuel) by (apply Z.div_lt_upper_bound; lia).
  assert (0 < fuel)%nat.
  { destruct fuel; [|lia]. cbn in *. lia. }
  rewrite (mbind_ret _ _ _ _ _ (IH (t / base) (i + 1) s ltac:(lia) ltac:(lia) ltac:(lia) ltac:(lia))). done.
Qed.

(** The number that a list of digits, last first, denotes. *)
Definition undigits (base : Z) (l : list Z) : Z := foldr (λ d v, d + base * v) 0 l.

Lemma undigits_digits base : 2 ≤ base → ∀ fuel t,
  0 ≤ t < 2 ^ Z.of_nat fuel → undigits base (digits fuel t base) = t.
Proof.
  intros Hb. induction fuel as [|fuel IH]; intros t Ht; [cbn in *; lia|].
  rewrite Nat2Z.inj_succ, Z.pow_succ_r in Ht by lia. unfold undigits. cbn [digits foldr]. fold (undigits base).
  destruct (Z.eqb_spec (t / base) 0) as [H0|H0].
  - cbn. pose proof (Z.div_mod t base ltac:(lia)). lia.
  - change (foldr _ 0 ?l) with (undigits base l). rewrite IH; [pose proof (Z.div_mod t base ltac:(lia)); lia|].
    split; [apply Z.div_pos; lia|]. apply Z.div_lt_upper_bound; [lia|]. nia.
Qed.

(** The bytes of [l] are in memory at [a]. *)
Definition bytes_at (m : mem) (a : Z) (l : list Z) : Prop := ∀ i c, l !! i = Some c → m (a + Z.of_nat i) = c.

Lemma bytes_at_cons m a c l : bytes_at m a (c :: l) ↔ m a = c ∧ bytes_at m (a + 1) l.
Proof.
  split.
  - intros H. split; [rewrite <-(H 0%nat c eq_refl); f_equal; lia|]. intros i x Hx. rewrite <-(H (S i) x Hx). f_equal. lia.
  - intros [H0 H] [|i] x; cbn; [intros [= <-]; by rewrite Z.add_0_r|]. intros Hx. rewrite <-(H i x Hx). f_equal. lia.
Qed.

Lemma digit_digit_char d : 0 ≤ d < 16 → digit (digit_char d) = Some d.
Proof.
  intros Hd. unfold digit, digit_char. destruct (Z.ltb_spec d 10).
  - destruct (Z.leb_spec 48 (48 + d)); [|lia]. destruct (Z.leb_spec (48 + d) 57); [|lia]. cbn. f_equal. lia.
  - destruct (Z.leb_spec 48 (87 + d)); [|lia]. destruct (Z.leb_spec (87 + d) 57); [lia|]. cbn [andb].
    destruct (Z.leb_spec 97 (87 + d)); [|lia]. destruct (Z.leb_spec (87 + d) 122); [|lia]. cbn. f_equal. lia.
Qed.

Lemma digits_range base fuel : 2 ≤ base → ∀ t, Forall (λ d, 0 ≤ d < base) (digits fuel t base).
Proof.
  intros Hb. induction fuel as [|fuel IH]; intros t; cbn [digits]; [done|]. constructor; [apply Z.mod_pos_bound; lia|].
  destruct (_ =? 0); [done|apply IH].
Qed.

(** What [strtol] makes of digits, most significant first. *)
Definition horner (base v : Z) (ds : list Z) : Z := fold_left (λ v d, v * base + d) ds v.

Lemma horner_ge base ds : 1 ≤ base → ∀ v, 0 ≤ v → Forall (λ d, 0 ≤ d < base) ds → v ≤ horner base v ds.
Proof.
  intros Hb. induction ds as [|d ds IH]; intros v Hv Hf; [done|]. apply Forall_cons in Hf as [Hd Hf].
  unfold horner. cbn [fold_left]. fold (horner base (v * base + d) ds).
  specialize (IH (v * base + d) ltac:(nia) Hf). nia.
Qed.

Lemma strtol_digits_spec m base ds : 2 ≤ base ≤ 16 → ∀ a v fuel,
  bytes_at m a (map digit_char ds) → Forall (λ d, 0 ≤ d < base) ds →
  match digit (m (a + zlen ds)) with Some d => base ≤ d | None => True end →
  0 ≤ v → horner base v ds < 2 ^ 63 → (length ds < fuel)%nat →
  strtol_digits fuel m a v base = Some (a + zlen ds, horner base v ds).
Proof.
  intros Hb. induction ds as [|d ds IH]; intros a v fuel Hm Hf Hend Hv Hlt Hfu; (destruct fuel as [|fuel]; [lia|]);
    cbn [strtol_digits].
  - change (zlen []) with 0 in *. rewrite Z.add_0_r in *. destruct (digit (m a)) as [x|]; [|done].
    by destruct (Z.leb_spec base x); [|lia].
  - apply Forall_cons in Hf as [Hd Hf]. cbn [map] in Hm. apply bytes_at_cons in Hm as [Hma Hm].
    rewrite Hma, digit_digit_char by lia. destruct (Z.leb_spec base d); [lia|].
    unfold horner in Hlt. cbn [fold_left] in Hlt. fold (horner base (v * base + d) ds) in Hlt.
    pose proof (horner_ge base ds ltac:(lia) (v * base + d) ltac:(nia) Hf).
    rewrite s64_small by nia. assert (zlen (d :: ds) = 1 + zlen ds) as Hl by (unfold zlen; cbn [length]; lia).
    rewrite Hl, Z.add_assoc in *. rewrite IH; [done|done|done|done|nia|done|cbn in Hfu; lia].
Qed.

Lemma horner_undigits base ds : horner base 0 (rev ds) = undigits base ds.
Proof.
  unfold horner, undigits. rewrite <-fold_left_rev_right, rev_involutive.
  induction ds as [|d ds IH]; cbn; [done|]. rewrite IH. lia.
Qed.

(** What [printint] sends. *)
Definition int_chars (x base : Z) (sign : bool) : list Z :=
  let neg := sign && (x <? 0) in
  (if neg then [45] else []) ++ map digit_char (rev (digits 64 (w64 (if neg then - x else x)) base)).

Lemma digit_char_byte base d : 0 ≤ d < base → base ≤ 16 → Z.land (digit_char d) 255 = digit_char d.
Proof.
  intros Hd Hb. change 255 with (Z.ones 8). rewrite Z.land_ones by lia. apply Z.mod_small.
  unfold digit_char. destruct (Z.ltb_spec d 10); lia.
Qed.

Lemma printint_spec s x base sign :
  2 ≤ base ≤ 16 → - 2 ^ 63 < x < 2 ^ 63 →
  ∃ s', printint x base sign s = Ret () s' ∧ c_out s' = c_out s ++ int_chars x base sign.
Proof.
  intros Hb Hx. unfold printint, int_chars. set (neg := sign && (x <? 0)).
  destruct (Z.eqb_spec x (- 2 ^ 63)); [lia|]. rewrite andb_false_r. set (y := if neg then - x else x).
  set (s1 := if neg then Con (c_buf s) (c_r s) (c_w s) (c_e s) (c_panicked s) (c_out s ++ [45]) (c_wakes s) else s).
  assert (when neg (uart_putchar 45) s = Ret () s1) as H1 by (unfold s1; by destruct neg).
  mstep H1. mstep (digits_loop_spec base (proj1 Hb) 64 (w64 y) 0 s1 (w64_range y) ltac:(lia) ltac:(lia) ltac:(lia)).
  rewrite put_chars_out. eexists. split; [reflexivity|]. cbn [c_out].
  assert (map (λ c, Z.land c 255) (rev (map digit_char (digits 64 (w64 y) base))) =
    map digit_char (rev (digits 64 (w64 y) base))) as ->.
  { rewrite <-map_rev, map_map. apply map_ext_in. intros d Hd%in_rev%list_elem_of_In.
    pose proof (digits_range base 64 (proj1 Hb) (w64 y)) as Hf. rewrite Forall_forall in Hf.
    eapply digit_char_byte; [by apply Hf|lia]. }
  unfold s1. destruct neg; [by rewrite app_assoc|done].
Qed.

Lemma length_digits base t : 2 ≤ base → ∀ fuel, (length (digits fuel t base) ≤ fuel)%nat.
Proof.
  intros Hb fuel. revert t. induction fuel as [|fuel IH]; intros t; cbn; [lia|]. destruct (_ =? 0); cbn; [lia|].
  specialize (IH (t / base)). lia.
Qed.

(** What [printint] prints in base 10, [strtol] of inc/string.h reads
    back.  For every [int64_t] but the least, whose negation overflows,
    [printint] stays within its buffer of 64 digits, and [strtol] on the
    characters printed, wherever they are in memory and whatever non-digit
    follows, returns the number and the address after them. *)
Theorem printint_strtol s x m a fuel :
  - 2 ^ 63 < x < 2 ^ 63 → (66 < fuel)%nat →
  ∃ s' chars, printint x 10 true s = Ret () s' ∧ c_out s' = c_out s ++ chars ∧
    (bytes_at m a chars → match digit (m (a + zlen chars)) with Some d => 10 ≤ d | None => True end →
     strtol fuel m a 10 = Some (x, a + zlen chars)).
Proof.
  intros Hx Hfu. destruct (printint_spec s x 10 true ltac:(lia) Hx) as (s' & Hrun & Hout).
  exists s', (int_chars x 10 true). split; [done|]. split; [done|]. intros Hm Hend.
  set (neg := x <? 0). set (y := if neg then - x else x).
  assert (0 ≤ y < 2 ^ 63) as Hy by (unfold y, neg; destruct (Z.ltb_spec x 0); lia).
  set (ds := rev (digits 64 y 10)).
  assert (int_chars x 10 true = (if neg then [45] else []) ++ map digit_char ds) as Hc.
  { unfold int_chars. cbn [andb]. fold neg. fold y. by rewrite w64_small by lia. }
  rewrite Hc in *. clearbody neg.
  assert (Forall (λ d, 0 ≤ d < 10) ds) as Hds by (apply Forall_rev, digits_range; lia).
  assert (horner 10 0 ds = y) as Hh.
  { unfold ds. rewrite horner_undigits. apply undigits_digits; [lia|]. change (2 ^ Z.of_nat 64) with (2 ^ 64). lia. }
  assert (length ds ≤ 64)%nat as Hlen by (unfold ds; rewrite length_rev; by apply length_digits).
  assert (∃ d0 dr, ds = d0 :: dr) as (d0 & dr & Hd0).
  { destruct ds as [|d0 dr] eqn:He; [|eauto]. unfold ds in He. apply (f_equal length) in He. rewrite length_rev in He.
    cbn in He. destruct (_ =? 0); done. }
  assert (bytes_at m (if neg then a + 1 else a) (map digit_char ds)) as Hm'.
  { destruct neg; [|done]. by apply bytes_at_cons in Hm as [_ Hm]. }
  assert (m (if neg then a + 1 else a) = digit_char d0) as H0.
  { rewrite Hd0 in Hm'. by apply bytes_at_cons in Hm' as [? _]. }
  assert (48 ≤ digit_char d0 ≤ 57) as Hr.
  { rewrite Hd0 in Hds. apply Forall_cons in Hds as [? _]. unfold digit_char. destruct (Z.ltb_spec d0 10); lia. }
  assert (skip_blanks fuel m a = Some a) as Hsk.
  { destruct fuel as [|fuel]; [lia|]. cbn [skip_blanks]. destruct neg.
    - apply bytes_at_cons in Hm as [-> _]. done.
    - rewrite H0. destruct (Z.eqb_spec (digit_char d0) 32), (Z.eqb_spec (digit_char d0) 9); (done || lia). }
  unfold strtol. rewrite Hsk. cbn [mbind option_bind].
  assert ((if m a =? 43 then (a + 1, false) else if m a =? 45 then (a + 1, true) else (a, false)) =
    (if neg then a + 1 else a, neg)) as ->.
  { destruct neg; [apply bytes_at_cons in Hm as [-> _]; done|]. rewrite H0.
    destruct (Z.eqb_spec (digit_char d0) 43), (Z.eqb_spec (digit_char d0) 45); (done || lia). }
  change ((10 =? 0) || (10 =? 16)) with false. change (10 =? 0) with false. cbn [andb].
  assert (zlen ((if neg then [45] else []) ++ map digit_char ds) = (if neg then 1 else 0) + zlen ds) as Hz.
  { rewrite zlen_app. unfold zlen. rewrite length_map. by destruct neg. }
  rewrite Hz in *. rewrite (strtol_digits_spec m 10 ds); try done; try lia.
  - rewrite Hh. cbn [mbind option_bind]. unfold y. f_equal. destruct neg; f_equal; try lia. rewrite s64_small; [lia|]. unfold y in Hy. lia.
  - replace ((if neg then a + 1 else a) + zlen ds) with (a + ((if neg then 1 else 0) + zlen ds)) by (destruct neg; lia). done.
Qed.

(** ** The theorems on the console after booting *)

Lemma con0_rel : con_rel con0 [] [].
Proof. split; try done; [split; apply not_elem_of_nil|by left]. Qed.

(** Typing "lx", backspace, "s" and return, then "q". *)
Lemma console_intr_refines_witness :
  ∃ s', console_intr [108; 120; 8; 115; 13; 113] con0 = Ret () s' ∧ con_rel s' [108; 115; 10] [113] ∧
    (c_wakes con0 < c_wakes s')%nat.
Proof.
  assert (Forall (λ c, 0 ≤ c < 256) [108; 120; 8; 115; 13; 113]) as Hf by (repeat constructor; lia).
  destruct (console_intr_refines con0 [] [] _ con0_rel ltac:(done) Hf) as (s' & H1 & H2 & H3).
  exists s'. split; [exact H1|]. split; [exact H2|]. by apply H3.
Defined.

Lemma console_read_line_witness :
  ∃ s' s2, console_intr [108; 115; 13; 113] con0 = Ret () s' ∧
    read_loop 101 7 false 100 100 [] s' = Ret (Some (97, [108; 115; 10])) s2 ∧ con_rel s2 [] [113].
Proof.
  assert (∃ s', console_intr [108; 115; 13; 113] con0 = Ret () s' ∧ con_rel s' [108; 115; 10] [113]) as (s' & H1 & H2).
  { destruct (intr_loop_spec [108; 115; 13; 113] con0 [] [] false con0_rel ltac:(repeat constructor; lia))
      as (s' & H1 & H2 & _). exists s'. split; [|exact H2]. 
    change ((dump ← intr_loop [108; 115; 13; 113] false; when dump (panic "unimplemented")) con0 = Ret () s').
    by mstep H1. }
  destruct (console_read_line s' [108; 115; 10] [113] 7 100 H2 ltac:(lia)) as (s2 & Hrun & Hrel & _).
  exists s', s2. split; [exact H1|]. split; [exact Hrun|exact Hrel].
Defined.

Lemma printint_strtol_witness :
  ∃ s' chars, printint (-407) 10 true con0 = Ret () s' ∧ c_out s' = chars ∧
    strtol 67 (λ k, nth (Z.to_nat (k - 1000)) chars 0) 1000 10 = Some (-407, 1000 + zlen chars).
Proof.
  destruct (printint_spec con0 (-407) 10 true ltac:(lia) ltac:(lia)) as (s0 & H0 & Ho0).
  set (chars := int_chars (-407) 10 true) in *. set (m := λ k, nth (Z.to_nat (k - 1000)) chars 0).
  destruct (printint_strtol con0 (-407) m 1000 67 ltac:(lia) ltac:(lia)) as (s' & cs & H1 & H2 & H3).
  rewrite H1 in H0. injection H0 as <-. rewrite Ho0 in H2. apply app_inv_head in H2 as <-.
  exists s', chars. split; [exact H1|]. split; [exact Ho0|]. apply H3.
  - intros i c Hi. unfold m. replace (1000 + Z.of_nat i - 1000) with (Z.of_nat i) by lia.
    rewrite Nat2Z.id. by apply nth_lookup_Some.
  - unfold m. by vm_compute.
Defined.
