(* ===== verification/Proc.v ===== *)
(** Processes: kern/proc.c.

    State: the process table [ptable.proc] (a [struct proc *] is an index
    0..NPROC-1), [nextpid], [initproc], the [proc] field of every [struct cpu],
    and the state of the memory and file systems below.  What a function does
    while it holds [ptable.lock] is one function on the table, [ptable]; [swtch]
    to the scheduler, which then clears [cpu->proc], is the last step of
    [yield], [sleep] and [exit].  [uvm_switch], a write to a system register,
    has no counterpart.  File ProcSpec runs these steps on all CPUs. *)

From S2P Require Import Prelude Memory CString Kalloc Vm BufferCache Superblock Txn Fs File.

Definition NCPU : Z := 4.
Definition NPROC : Z := 64.
Definition NOFILE : Z := 16.
Definition KSTACKSIZE : Z := 4096.

Inductive procstate := UNUSED | EMBRYO | SLEEPING | RUNNABLE | RUNNING | ZOMBIE.
#[export] Instance procstate_eq_dec : EqDecision procstate.
Proof. solve_decision. Defined.

(** [struct proc] without [name]; a null pointer is [None], and 0 for the
    pointers into memory. *)
Record proc := mkProc {
  p_sz : Z; p_pgdir : Z; p_kstack : Z; p_state : procstate; p_pid : Z; p_parent : option Z;
  p_tf : Z; p_context : Z; p_chan : Z; p_killed : Z; p_ofile : list (option Z); p_cwd : option Z;
  p_priority : Z; p_cpus_allowed : Z;
}.

Definition proc0 : proc :=
  mkProc 0 0 0 UNUSED 0 None 0 0 0 0 (replicate (Z.to_nat NOFILE) None) None 0 0.

Definition with_state (p : proc) (st : procstate) : proc :=
  mkProc (p_sz p) (p_pgdir p) (p_kstack p) st (p_pid p) (p_parent p) (p_tf p) (p_context p) (p_chan p)
         (p_killed p) (p_ofile p) (p_cwd p) (p_priority p) (p_cpus_allowed p).
Definition with_parent (p : proc) (q : option Z) : proc :=
  mkProc (p_sz p) (p_pgdir p) (p_kstack p) (p_state p) (p_pid p) q (p_tf p) (p_context p) (p_chan p)
         (p_killed p) (p_ofile p) (p_cwd p) (p_priority p) (p_cpus_allowed p).
Definition with_chan (p : proc) (c : Z) : proc :=
  mkProc (p_sz p) (p_pgdir p) (p_kstack p) (p_state p) (p_pid p) (p_parent p) (p_tf p) (p_context p) c
         (p_killed p) (p_ofile p) (p_cwd p) (p_priority p) (p_cpus_allowed p).
Definition with_priority (p : proc) (n : Z) : proc :=
  mkProc (p_sz p) (p_pgdir p) (p_kstack p) (p_state p) (p_pid p) (p_parent p) (p_tf p) (p_context p) (p_chan p)
         (p_killed p) (p_ofile p) (p_cwd p) n (p_cpus_allowed p).
Definition with_cpus (p : proc) (m : Z) : proc :=
  mkProc (p_sz p) (p_pgdir p) (p_kstack p) (p_state p) (p_pid p) (p_parent p) (p_tf p) (p_context p) (p_chan p)
         (p_killed p) (p_ofile p) (p_cwd p) (p_priority p) m.
Definition with_ofile (p : proc) (l : list (option Z)) : proc :=
  mkProc (p_sz p) (p_pgdir p) (p_kstack p) (p_state p) (p_pid p) (p_parent p) (p_tf p) (p_context p) (p_chan p)
         (p_killed p) l (p_cwd p) (p_priority p) (p_cpus_allowed p).
Definition with_cwd (p : proc) (d : option Z) : proc :=
  mkProc (p_sz p) (p_pgdir p) (p_kstack p) (p_state p) (p_pid p) (p_parent p) (p_tf p) (p_context p) (p_chan p)
         (p_killed p) (p_ofile p) d (p_priority p) (p_cpus_allowed p).
Definition with_vm (p : proc) (sz pgdir : Z) : proc :=
  mkProc sz pgdir (p_kstack p) (p_state p) (p_pid p) (p_parent p) (p_tf p) (p_context p) (p_chan p)
         (p_killed p) (p_ofile p) (p_cwd p) (p_priority p) (p_cpus_allowed p).
Definition with_kstack (p : proc) (k : Z) : proc :=
  mkProc (p_sz p) (p_pgdir p) k (p_state p) (p_pid p) (p_parent p) (p_tf p) (p_context p) (p_chan p)
         (p_killed p) (p_ofile p) (p_cwd p) (p_priority p) (p_cpus_allowed p).

(** ** The process table *)

Record ptable := mkPtable {
  pt_proc : Z → proc; pt_nextpid : Z; pt_init : option Z; pt_cpu : Z → option Z;
}.

Definition set_proc (t : ptable) (i : Z) (p : proc) : ptable :=
  mkPtable (upd (pt_proc t) i p) (pt_nextpid t) (pt_init t) (pt_cpu t).
Definition set_state (t : ptable) (i : Z) (st : procstate) : ptable :=
  set_proc t i (with_state (pt_proc t i) st).
Definition set_cpu (t : ptable) (c : Z) (p : option Z) : ptable :=
  mkPtable (pt_proc t) (pt_nextpid t) (pt_init t) (upd (pt_cpu t) c p).

(** The first index with [f], among [n] from [i]. *)
Fixpoint scan (n : nat) (i : Z) (f : Z → bool) : option Z :=
  match n with
  | O => None
  | S n => if f i then Some i else scan n (i + 1) f
  end.

Section Table.
(** The address of [ptable.proc], whose elements have 232 bytes. *)
Context (base : Z).
Definition paddr (i : Z) : Z := base + 232 * i.

(** The loop of [wakeup1], [n] entries from [i] left. *)
Fixpoint wakeup_loop (n : nat) (i : Z) (chan : Z) (t : ptable) : ptable :=
  match n with
  | O => t
  | S n =>
    let p := pt_proc t i in
    wakeup_loop n (i + 1) chan
      (if bool_decide (p_state p = SLEEPING) && (p_chan p =? chan) then set_state t i RUNNABLE else t)
  end.
Definition wakeup1 (chan : Z) (t : ptable) : ptable := wakeup_loop (Z.to_nat NPROC) 0 chan t.

(** [scheduler] on CPU [c]: the process chosen, if any. *)
Definition eligible (t : ptable) (c pri i : Z) : bool :=
  let p := pt_proc t i in
  bool_decide (p_state p = RUNNABLE) && (p_priority p =? pri) && (Z.land (Z.shiftr (p_cpus_allowed p) c) 1 =? 1).
Definition pick (c : Z) (t : ptable) : option Z :=
  match scan (Z.to_nat NPROC) 0 (eligible t c 1) with
  | Some i => Some i
  | None => scan (Z.to_nat NPROC) 0 (eligible t c 0)
  end.
Definition run_proc (c i : Z) (t : ptable) : ptable := set_state (set_cpu t c (Some i)) i RUNNING.

(** Each of the next three ends with [sched], whose [swtch] lets the scheduler
    of the CPU clear [c->proc]. *)
Definition yield_switch (c i : Z) (t : ptable) : ptable := set_cpu (set_state t i RUNNABLE) c None.
Definition sleep_switch (c i chan : Z) (t : ptable) : ptable :=
  set_cpu (set_proc t i (with_state (with_chan (pt_proc t i) chan) SLEEPING)) c None.
(** After waking up. *)
Definition sleep_return (i : Z) (t : ptable) : ptable := set_proc t i (with_chan (pt_proc t i) 0).

(** The loop of [exit] that passes the children of [i] to [initproc]. *)
Fixpoint orphan_loop (n : nat) (j i : Z) (t : ptable) : ptable :=
  match n with
  | O => t
  | S n =>
    let p := pt_proc t j in
    let t :=
      if bool_decide (p_parent p = Some i) then
        let t := set_proc t j (with_parent p (pt_init t)) in
        if bool_decide (p_state p = ZOMBIE) then wakeup1 (from_option paddr 0 (pt_init t)) t else t
      else t in
    orphan_loop n (j + 1) i t
  end.
(** [exit] from [acquire(&ptable.lock)] on: wakes the parent, gives the
    children away, and then becomes a zombie. *)
Definition exit_table (i : Z) (t : ptable) : ptable :=
  orphan_loop (Z.to_nat NPROC) 0 i (wakeup1 (from_option paddr 0 (p_parent (pt_proc t i))) t).
Definition exit_switch (c i : Z) (t : ptable) : ptable :=
  set_cpu (set_state (exit_table i t) i ZOMBIE) c None.

(** The loop of [wait] for process [i]. *)
Inductive wait_result := Reap (j : Z) | NoChild | MustSleep.
Definition child (t : ptable) (i j : Z) : bool := bool_decide (p_parent (pt_proc t j) = Some i).
Definition zombie_child (t : ptable) (i j : Z) : bool :=
  child t i j && bool_decide (p_state (pt_proc t j) = ZOMBIE).
Definition wait_scan (i : Z) (t : ptable) : wait_result :=
  match scan (Z.to_nat NPROC) 0 (zombie_child t i) with
  | Some j => Reap j
  | None =>
    match scan (Z.to_nat NPROC) 0 (child t i) with
    | None => NoChild
    | Some _ => if negb (p_killed (pt_proc t i) =? 0) then NoChild else MustSleep
    end
  end.
(** What [wait] does to the entry it reaps. *)
Definition reap (j : Z) (t : ptable) : ptable :=
  let p := pt_proc t j in
  set_proc t j (mkProc (p_sz p) (p_pgdir p) (p_kstack p) UNUSED 0 None (p_tf p) (p_context p) (p_chan p) 0
                       (p_ofile p) (p_cwd p) (p_priority p) (p_cpus_allowed p)).

(** [proc_alloc], given the stack page: the first unused entry. *)
Definition unused (t : ptable) (i : Z) : bool := bool_decide (p_state (pt_proc t i) = UNUSED).
Definition find_unused (t : ptable) : option Z := scan (Z.to_nat NPROC) 0 (unused t).
Definition TF_SIZE : Z := 304.
Definition CONTEXT_SIZE : Z := 96.
Definition embryo (i kstack : Z) (t : ptable) : ptable :=
  let p := pt_proc t i in
  let tf := kstack + KSTACKSIZE - TF_SIZE in
  mkPtable (upd (pt_proc t) i
    (mkProc PGSIZE (p_pgdir p) kstack EMBRYO (pt_nextpid t) (p_parent p) tf (tf - 16 - CONTEXT_SIZE)
            (p_chan p) (p_killed p) (p_ofile p) (p_cwd p) 0 (-1)))
    (s32 (pt_nextpid t + 1)) (pt_init t) (pt_cpu t).
End Table.

(** ** The functions of proc.c *)

Section Proc.
Context {T : Type} `{!TxnOps T, !OpOps T}.

Record kern := Kern { k_files : files T; k_kmem : kst; k_ptable : ptable }.

#[export] Instance kern_files : Lens kern (files T) := {
  lget := k_files; lset t s := Kern t (k_kmem s) (k_ptable s);
  lget_lset t s := eq_refl; lset_lget s := match s with Kern _ _ _ => eq_refl end; lset_lset t t' s := eq_refl;
}.
#[export] Instance kern_mem : Lens kern kst := {
  lget := k_kmem; lset t s := Kern (k_files s) t (k_ptable s);
  lget_lset t s := eq_refl; lset_lget s := match s with Kern _ _ _ => eq_refl end; lset_lset t t' s := eq_refl;
}.
#[export] Instance kern_ptable : Lens kern ptable := {
  lget := k_ptable; lset t s := Kern (k_files s) (k_kmem s) t;
  lget_lset t s := eq_refl; lset_lget s := match s with Kern _ _ _ => eq_refl end; lset_lset t t' s := eq_refl;
}.

(** The end of the kernel, the addresses of the process table, of [trapret]
    and of [forkret]; this CPU. *)
Context (kend base trapret forkret_addr cpu : Z).
Context (devsw_read : Z → option (Z → Z → M (fs T) (Z * list Z))).

Definition on_fs {A} (m : M (fs T) A) : M kern A := lift (lift m : M (files T) A).
Definition get_proc (i : Z) : M kern proc := gets (λ s, pt_proc (k_ptable s) i).
Definition put_proc (i : Z) (p : proc) : M kern () := lift (modify (λ t, set_proc t i p)).
Definition table (f : ptable → ptable) : M kern () := lift (modify f).
Definition thisproc : M kern Z :=
  r ← gets (λ s, pt_cpu (k_ptable s) cpu);
  match r with Some i => mret i | None => undef "thisproc: null pointer" end.
(** A null [struct proc *] is dereferenced. *)
Definition not_null {A} (r : option A) : M kern A :=
  match r with Some i => mret i | None => undef "null pointer" end.

Definition proc_alloc : M kern (option Z) :=
  t ← gets k_ptable;
  match find_unused t with
  | None => mret None
  | Some i =>
    kstack ← lift (kalloc : M kst Z);
    if kstack =? 0 then panic "proc_alloc: cannot alloc kstack."
    else
      table (embryo i kstack) ;;
      p ← get_proc i;
      lift (st (p_tf p - 8) trapret) ;;
      lift (st (p_tf p - 16) (kstack + KSTACKSIZE)) ;;
      lift (st (p_context p + 88) (forkret_addr + 8)) ;;
      mret (Some i)
  end.

(** Offsets of [struct trapframe]. *)
Definition tf_elr : Z := 32.
Definition tf_spsr : Z := 40.
Definition tf_sp : Z := 48.
Definition tf_r (n : Z) : Z := 56 + 8 * n.

(** [binary] and [size] are the linker's symbols for user/initcode.S. *)
Definition user_init (fuel : nat) (pid cwd binary size : Z) : M kern () :=
  r ← proc_alloc;
  i ← not_null r;
  pgdir ← lift (pgdir_init : M kst Z);
  p ← get_proc i;
  put_proc i (with_vm p (p_sz p) pgdir) ;;
  if pgdir =? 0 then panic "user_init: kalloc failed"
  else
    table (λ t, mkPtable (pt_proc t) (pt_nextpid t) (Some i) (pt_cpu t)) ;;
    lift (uvm_init fuel pgdir binary (s32 size)) ;;
    p ← get_proc i;
    lift (st (p_tf p + tf_spsr) 0) ;;
    lift (st (p_tf p + tf_sp) PGSIZE) ;;
    lift (st (p_tf p + tf_elr) 0) ;;
    table (λ t, set_state t i RUNNABLE) ;;
    d ← on_fs (namei pid cwd devsw_read [slash] []);
    p ← get_proc i;
    put_proc i (with_vm (with_cwd p d) PGSIZE (p_pgdir p)).

Definition user_idle_init (fuel : nat) (binary size : Z) : M kern () :=
  r ← proc_alloc;
  i ← not_null r;
  pgdir ← lift (pgdir_init : M kst Z);
  p ← get_proc i;
  put_proc i (with_vm p (p_sz p) pgdir) ;;
  if pgdir =? 0 then panic "user_idle_init: kalloc failed"
  else
    table (λ t, mkPtable (pt_proc t) (pt_nextpid t) (Some i) (pt_cpu t)) ;;
    lift (uvm_init fuel pgdir (binary + 0x1c) (s32 (size - 0x1c))) ;;
    p ← get_proc i;
    lift (setmem (p_tf p) 0 TF_SIZE) ;;
    lift (st (p_tf p + tf_spsr) 0) ;;
    lift (st (p_tf p + tf_sp) PGSIZE) ;;
    lift (st (p_tf p + tf_r 30) 0) ;;
    lift (st (p_tf p + tf_elr) 0) ;;
    table (λ t, set_state t i RUNNABLE) ;;
    p ← get_proc i;
    put_proc i (with_vm p PGSIZE (p_pgdir p)).

(** One round of [scheduler] up to the [swtch] to the process chosen. *)
Definition scheduler_round : M kern () :=
  t ← gets k_ptable;
  match pick cpu t with
  | Some i => table (run_proc cpu i)
  | None => mret ()
  end.

(** [sched]: the lock is held; the state is that of the current process. *)
Definition sched : M kern () :=
  i ← thisproc;
  p ← get_proc i;
  if bool_decide (p_state p = RUNNING) then panic "sched: process running"
  else table (λ t, set_cpu t cpu None).

Definition yield : M kern () :=
  i ← thisproc; table (λ t, set_state t i RUNNABLE) ;; sched.

(** Up to the [swtch]; [sleep_return] is the rest. *)
Definition sleep (chan : Z) : M kern () :=
  i ← thisproc;
  table (λ t, set_proc t i (with_state (with_chan (pt_proc t i) chan) SLEEPING)) ;; sched.

Definition wakeup (chan : Z) : M kern () := table (wakeup1 chan).

Definition drop_priority : M kern () :=
  i ← thisproc; p ← get_proc i;
  when (0 <? p_priority p) (put_proc i (with_priority p (p_priority p - 1))).
Definition raise_priority : M kern () :=
  i ← thisproc; p ← get_proc i;
  when (p_priority p <? 1) (put_proc i (with_priority p (p_priority p + 1))).
Definition set_cpus_allowed (mask : Z) : M kern () :=
  i ← thisproc; p ← get_proc i; put_proc i (with_cpus p mask).

(** The loops over the files of [exit] and [fork], [n] descriptors from [fd] left. *)
Fixpoint close_all (n : nat) (fd : Z) (i : Z) : M kern () :=
  match n with
  | O => mret ()
  | S n =>
    p ← get_proc i;
    f ← array_get (p_ofile p) fd;
    match f with
    | None => mret ()
    | Some f =>
      lift (fileclose (p_pid p) f : M (files T) ()) ;;
      p ← get_proc i; put_proc i (with_ofile p (<[Z.to_nat fd := None]> (p_ofile p)))
    end ;;
    close_all n (fd + 1) i
  end.
Fixpoint dup_all (n : nat) (fd : Z) (i child : Z) : M kern () :=
  match n with
  | O => mret ()
  | S n =>
    p ← get_proc i;
    f ← array_get (p_ofile p) fd;
    match f with
    | None => mret ()
    | Some f =>
      f ← lift (filedup f : M (files T) Z);
      q ← get_proc child; put_proc child (with_ofile q (<[Z.to_nat fd := Some f]> (p_ofile q)))
    end ;;
    dup_all n (fd + 1) i child
  end.

Definition exit : M kern () :=
  i ← thisproc;
  t ← gets k_ptable;
  if bool_decide (pt_init t = Some i) then panic "init exiting"
  else
    close_all (Z.to_nat NOFILE) 0 i ;;
    lift (File.begin_op : M (files T) ()) ;;
    p ← get_proc i;
    d ← not_null (p_cwd p);
    on_fs (iput (p_pid p) d) ;;
    lift (File.end_op : M (files T) ()) ;;
    p ← get_proc i;
    put_proc i (with_cwd p None) ;;
    table (exit_switch base cpu i).

(** [sizeof( *p->tf)] bytes. *)
Definition copy_tf (dst src : Z) : M kern () := lift (movemem dst src TF_SIZE).

Definition fork (fuel : nat) : M kern Z :=
  r ← proc_alloc;
  match r with
  | None => mret (-1)
  | Some j =>
    i ← thisproc;
    p ← get_proc i;
    pgdir ← lift (copyuvm kend fuel (p_pgdir p) (p_sz p));
    q ← get_proc j;
    put_proc j (with_vm q (p_sz q) pgdir) ;;
    if pgdir =? 0 then
      q ← get_proc j;
      lift (kfree kend (p_kstack q)) ;;
      put_proc j (with_state (with_kstack q 0) UNUSED) ;;
      mret (-1)
    else
      q ← get_proc j;
      put_proc j (with_vm q (p_sz p) (p_pgdir q)) ;;
      copy_tf (p_tf q) (p_tf p) ;;
      lift (st (p_tf q + tf_r 0) 0) ;;
      q ← get_proc j;
      put_proc j (with_parent q (Some i)) ;;
      dup_all (Z.to_nat NOFILE) 0 i j ;;
      p ← get_proc i;
      cwd ← not_null (p_cwd p);
      d ← on_fs (idup cwd);
      q ← get_proc j;
      put_proc j (with_state (with_cwd q (Some d)) RUNNABLE) ;;
      mret (p_pid q)
  end.

Definition wait : M kern Z :=
  i ← thisproc;
  t ← gets k_ptable;
  match wait_scan i t with
  | Reap j =>
    p ← get_proc j;
    table (reap j) ;;
    lift (vm_free kend (p_pgdir p) 1) ;;
    lift (kfree kend (p_kstack p)) ;;
    mret (p_pid p)
  | NoChild => mret (-1)
  | MustSleep => sleep_on (paddr base i)
  end.

Definition growproc (fuel : nat) (n : Z) : M kern Z :=
  i ← thisproc;
  p ← get_proc i;
  let sz := p_sz p in
  sz' ← (if 0 <? n then lift (uvm_alloc kend fuel (p_pgdir p) sz (w64 (sz + n)))
         else if n <? 0 then lift (uvm_dealloc kend fuel (p_pgdir p) sz (w64 (sz + n)))
         else mret sz);
  if negb (n =? 0) && (sz' =? 0) then mret (-1)
  else
    p ← get_proc i;
    put_proc i (with_vm p (w64 sz') (p_pgdir p)) ;;
    mret 0.
End Proc.
Arguments kern T : clear implicits.
