(* ===== verification/ProcSpec.v ===== *)
(** The process table under all interleavings.

    [pstep] is one critical section of [ptable.lock], by any CPU or interrupt
    handler: the scheduler, [yield], [sleep], [wakeup], [exit], [wait], [fork]
    and the boot code, each the function of file Proc.  Between them, code that
    does not hold the lock writes the other fields of an entry ([ps_fields]): a
    process its own, [fork] those of the embryo it fills, [user_init] those of
    the first process, which may run by then.  [pt_ok] is the invariant of the
    table. *)

From S2P Require Import Prelude Proc.

Lemma scan_spec n f : ∀ i,
  match scan n i f with
  | Some j => i ≤ j < i + Z.of_nat n ∧ f j = true ∧ ∀ k, i ≤ k < j → f k = false
  | None => ∀ k, i ≤ k < i + Z.of_nat n → f k = false
  end.
Proof.
  induction n as [|n IH]; intros i; cbn [scan]; [lia|].
  destruct (f i) eqn:Hi; [split; [lia|]; split; [done|lia]|].
  specialize (IH (i + 1)). destruct (scan n (i + 1) f) as [j|].
  - destruct IH as (Hj & Hf & Hlt). split; [lia|]. split; [done|].
    intros k Hk. destruct (decide (k = i)) as [->|]; [done|]. apply Hlt. lia.
  - intros k Hk. destruct (decide (k = i)) as [->|]; [done|]. apply IH. lia.
Qed.

(** A process that exists and can have children. *)
Definition live (st : procstate) : Prop := st = SLEEPING ∨ st = RUNNABLE ∨ st = RUNNING.

Lemma not_live st : st = UNUSED ∨ st = EMBRYO ∨ st = ZOMBIE → ¬ live st ∧ st ≠ RUNNING.
Proof. intros [->|[->| ->]]; (split; [intros [?|[?|?]]; done|done]). Qed.

Section Steps.
Context (base : Z).
Abbreviation paddr := (paddr base).
Implicit Types (t : ptable) (c i j q : Z).

Definition in_table i : Prop := 0 ≤ i < NPROC.
Definition is_cpu c : Prop := 0 ≤ c < NCPU.
Abbreviation state t i := (p_state (pt_proc t i)).
Abbreviation parent t i := (p_parent (pt_proc t i)).
Abbreviation chan t i := (p_chan (pt_proc t i)).
Abbreviation pid t i := (p_pid (pt_proc t i)).

Inductive pstep : ptable → ptable → Prop :=
| ps_run c i t : is_cpu c → pt_cpu t c = None → pick c t = Some i → pstep t (run_proc c i t)
| ps_yield c i t : is_cpu c → pt_cpu t c = Some i → pstep t (yield_switch c i t)
| ps_sleep c i ch t :
    is_cpu c → pt_cpu t c = Some i → (∀ j, in_table j → ch ≠ paddr j) → pstep t (sleep_switch c i ch t)
| ps_resume c i t : is_cpu c → pt_cpu t c = Some i → pstep t (sleep_return i t)
| ps_wake ch t : pstep t (wakeup1 ch t)
| ps_exit c i t : is_cpu c → pt_cpu t c = Some i → pt_init t ≠ Some i → pstep t (exit_switch base c i t)
| ps_wait c i t :
    is_cpu c → pt_cpu t c = Some i → wait_scan i t = MustSleep → pstep t (sleep_switch c i (paddr i) t)
| ps_reap c i j t : is_cpu c → pt_cpu t c = Some i → wait_scan i t = Reap j → pstep t (reap j t)
| ps_alloc i kstack t : find_unused t = Some i → pt_nextpid t < 2 ^ 31 - 1 → pstep t (embryo i kstack t)
| ps_adopt c i j t :
    is_cpu c → pt_cpu t c = Some i → in_table j → state t j = EMBRYO → parent t j = None →
    pstep t (set_proc t j (with_parent (pt_proc t j) (Some i)))
| ps_ready j t : in_table j → state t j = EMBRYO → pstep t (set_state t j RUNNABLE)
| ps_fail j t : in_table j → state t j = EMBRYO → parent t j = None → pstep t (set_state t j UNUSED)
| ps_boot j t :
    in_table j → state t j = EMBRYO → parent t j = None →
    pstep t (set_state (mkPtable (pt_proc t) (pt_nextpid t) (Some j) (pt_cpu t)) j RUNNABLE)
| ps_fields i p t :
    in_table i → p_state p = state t i → p_parent p = parent t i → p_chan p = chan t i → p_pid p = pid t i →
    pstep t (set_proc t i p).

Record pt_ok t : Prop := {
  ok_cpu c i : is_cpu c → pt_cpu t c = Some i → in_table i ∧ state t i = RUNNING;
  ok_cpu_inj c c' i : is_cpu c → is_cpu c' → pt_cpu t c = Some i → pt_cpu t c' = Some i → c = c';
  ok_running i : in_table i → state t i = RUNNING → ∃ c, is_cpu c ∧ pt_cpu t c = Some i;
  ok_parent i q : in_table i → parent t i = Some q → in_table q ∧ live (state t q);
  ok_unused i : in_table i → state t i = UNUSED → parent t i = None;
  ok_init i : pt_init t = Some i → in_table i ∧ live (state t i);
  ok_pid i : in_table i → state t i ≠ UNUSED → 0 < pid t i < pt_nextpid t;
  ok_pid_inj i j : in_table i → in_table j → state t i ≠ UNUSED → state t j ≠ UNUSED → pid t i = pid t j → i = j;
  ok_next : 0 < pt_nextpid t < 2 ^ 31;
}.

(** No wakeup is lost: who sleeps in [wait] has children, and none to reap. *)
Definition wait_ok t : Prop :=
  ∀ i, in_table i → state t i = SLEEPING → chan t i = paddr i →
    (∃ j, in_table j ∧ parent t j = Some i) ∧ ∀ j, in_table j → parent t j = Some i → state t j ≠ ZOMBIE.

(** Nobody is its own parent, and [initproc] has none. *)
Definition tree_ok t : Prop :=
  (∀ i, in_table i → parent t i ≠ Some i) ∧ ∀ i, pt_init t = Some i → parent t i = None.

(** ** Wakeups *)

(** Processes sleeping on [ch] have become runnable. *)
Definition woken (ch : Z) t t' : Prop :=
  pt_nextpid t' = pt_nextpid t ∧ pt_init t' = pt_init t ∧ pt_cpu t' = pt_cpu t ∧
  ∀ i, in_table i → pt_proc t' i =
    if bool_decide (state t i = SLEEPING) && (chan t i =? ch) then with_state (pt_proc t i) RUNNABLE else pt_proc t i.

Lemma wakeup_loop_spec ch n : ∀ i t,
  let t' := wakeup_loop n i ch t in
  pt_nextpid t' = pt_nextpid t ∧ pt_init t' = pt_init t ∧ pt_cpu t' = pt_cpu t ∧
  (∀ j, i ≤ j < i + Z.of_nat n → pt_proc t' j =
    if bool_decide (state t j = SLEEPING) && (chan t j =? ch) then with_state (pt_proc t j) RUNNABLE else pt_proc t j) ∧
  ∀ j, ¬ (i ≤ j < i + Z.of_nat n) → pt_proc t' j = pt_proc t j.
Proof.
  induction n as [|n IH]; intros i t; cbn [wakeup_loop].
  { do 3 (split; [done|]). split; [lia|done]. }
  set (b := bool_decide (state t i = SLEEPING) && (chan t i =? ch)).
  set (t1 := if b then set_state t i RUNNABLE else t).
  assert (∀ j, pt_proc t1 j = if decide (j = i) then (if b then with_state (pt_proc t i) RUNNABLE else pt_proc t i)
                              else pt_proc t j) as H1.
  { intros j. unfold t1, set_state, set_proc. destruct b; cbn; [apply upd_case|]. case_decide; [by subst|done]. }
  assert (pt_nextpid t1 = pt_nextpid t ∧ pt_init t1 = pt_init t ∧ pt_cpu t1 = pt_cpu t) as (E1 & E2 & E3)
    by (unfold t1; by destruct b).
  destruct (IH (i + 1) t1) as (A1 & A2 & A3 & A4 & A5). cbv zeta in *.
  split; [congruence|]. split; [congruence|]. split; [congruence|]. split; intros j Hj.
  - destruct (decide (j = i)) as [->|Hne].
    + rewrite A5 by lia. rewrite H1, decide_True by done. done.
    + rewrite A4 by lia. by rewrite H1, decide_False.
  - rewrite A5 by lia. rewrite H1, decide_False; [done|lia].
Qed.

Lemma wakeup1_woken ch t : woken ch t (wakeup1 ch t).
Proof.
  destruct (wakeup_loop_spec ch (Z.to_nat NPROC) 0 t) as (A1 & A2 & A3 & A4 & _).
  split; [done|]. split; [done|]. split; [done|]. intros i Hi. apply A4. unfold in_table, NPROC in *. lia.
Qed.

(** Nothing but sleepers that have become runnable, and parents, differ. *)
Definition softer t t' : Prop :=
  pt_nextpid t' = pt_nextpid t ∧ pt_init t' = pt_init t ∧ pt_cpu t' = pt_cpu t ∧
  ∀ i, in_table i → pid t' i = pid t i ∧ chan t' i = chan t i ∧
    (state t' i = state t i ∨ state t i = SLEEPING ∧ state t' i = RUNNABLE).

Lemma softer_refl t : softer t t.
Proof. split_and!; try done. intros i _. split_and!; try done. by left. Qed.

Lemma softer_trans t t1 t2 : softer t t1 → softer t1 t2 → softer t t2.
Proof.
  intros (A1 & A2 & A3 & A4) (B1 & B2 & B3 & B4). split_and!; try congruence. intros i Hi.
  destruct (A4 i Hi) as (P1 & P2 & P3), (B4 i Hi) as (Q1 & Q2 & Q3). split_and!; try congruence.
  destruct P3 as [P3|[P3 P3']], Q3 as [Q3|[Q3 Q3']]; rewrite ?P3, ?P3', ?Q3, ?Q3' in *; auto.
Qed.

Lemma woken_softer ch t t' :
  woken ch t t' → softer t t' ∧ (∀ i, in_table i → parent t' i = parent t i) ∧
  ∀ i, in_table i → state t' i = SLEEPING → chan t' i ≠ ch.
Proof.
  intros (A1 & A2 & A3 & A4). split; [split; [done|]; split; [done|]; split; [done|]|split]; intros i Hi; rewrite A4 by done.
  - destruct (bool_decide (state t i = SLEEPING)) eqn:Hs; cbn [andb].
    + apply bool_decide_eq_true in Hs. destruct (chan t i =? ch); cbn; split_and!; auto.
    + split_and!; auto.
  - by destruct (_ && _).
  - destruct (bool_decide (state t i = SLEEPING)) eqn:Hs; cbn [andb].
    + destruct (Z.eqb_spec (chan t i) ch); [done|]. by intros _.
    + apply bool_decide_eq_false in Hs. done.
Qed.

Lemma softer_live t t' i : softer t t' → in_table i → live (state t i) → live (state t' i).
Proof.
  intros (_ & _ & _ & Hs) Hi. destruct (Hs i Hi) as (_ & _ & [->|[-> ->]]); unfold live; naive_solver.
Qed.
Lemma softer_sleeping t t' i : softer t t' → in_table i → state t' i = SLEEPING → state t i = SLEEPING.
Proof. intros (_ & _ & _ & Hs) Hi. destruct (Hs i Hi) as (_ & _ & [->|[-> ->]]); done. Qed.
Lemma softer_same t t' i st :
  softer t t' → in_table i → st ≠ SLEEPING → st ≠ RUNNABLE → state t' i = st ↔ state t i = st.
Proof. intros (_ & _ & _ & Hs) Hi. destruct (Hs i Hi) as (_ & _ & [->|[-> ->]]); naive_solver. Qed.

(** The invariant, but for the parents, does not depend on who sleeps. *)
Lemma softer_ok t t' :
  softer t t' →
  (∀ i q, in_table i → parent t' i = Some q → in_table q ∧ live (state t' q)) →
  (∀ i, in_table i → state t i = UNUSED → parent t' i = None) →
  pt_ok t → pt_ok t'.
Proof.
  intros Hs Hp Hu [O1 O2 O3 O4 O5 O6 O7 O8 O9]. pose proof Hs as (A1 & A2 & A3 & A4). split; rewrite ?A1, ?A2, ?A3; try done.
  - intros c i Hc Hi. destruct (O1 c i Hc Hi) as [Hit Hr]. split; [done|]. by apply (softer_same t).
  - intros i Hi Hr. apply O3; [done|]. by apply (softer_same t t').
  - intros i Hi Hr. apply Hu; [done|]. by apply (softer_same t t').
  - intros i Hi. destruct (O6 i Hi). split; [done|]. by apply (softer_live t).
  - intros i Hi Hn. destruct (A4 i Hi) as (-> & _). apply O7; [done|]. intros He. by apply Hn, (softer_same t).
  - intros i j Hi Hj Hn Hm. destruct (A4 i Hi) as (-> & _), (A4 j Hj) as (-> & _).
    apply O8; try done; intros He; [apply Hn|apply Hm]; by apply (softer_same t).
Qed.

(** ** Exit *)

Definition waker t : Z := from_option paddr 0 (pt_init t).

Lemma orphan_loop_spec x n : ∀ j t,
  0 ≤ j → j + Z.of_nat n ≤ NPROC →
  let t' := orphan_loop base n j x t in
  softer t t' ∧
  (∀ i, in_table i → parent t' i =
     if bool_decide (j ≤ i < j + Z.of_nat n) && bool_decide (parent t i = Some x) then pt_init t else parent t i) ∧
  ((∃ i, j ≤ i < j + Z.of_nat n ∧ parent t i = Some x ∧ state t i = ZOMBIE) →
   ∀ i, in_table i → state t' i = SLEEPING → chan t' i ≠ waker t).
Proof.
  induction n as [|n IH]; intros j t Hj Hn; cbn [orphan_loop].
  { split; [apply softer_refl|]. split; [intros i _; by rewrite bool_decide_false by lia|]. intros (i & ? & _); lia. }
  set (p := pt_proc t j). set (t1 := set_proc t j (with_parent p (pt_init t))).
  set (t2 := if bool_decide (p_parent p = Some x)
             then if bool_decide (p_state p = ZOMBIE) then wakeup1 (waker t) t1 else t1 else t).
  assert (softer t t1) as Hs1.
  { split_and!; try done. intros i Hi. unfold t1, set_proc. cbn. rewrite upd_case. case_decide; [subst|]; auto. }
  assert (softer t t2 ∧
    (∀ i, in_table i → parent t2 i = if bool_decide (i = j) && bool_decide (parent t i = Some x) then pt_init t else parent t i) ∧
    (parent t j = Some x → state t j = ZOMBIE → ∀ i, in_table i → state t2 i = SLEEPING → chan t2 i ≠ waker t))
    as (Hs2 & Hp2 & Hw2).
  { pose proof (woken_softer _ _ _ (wakeup1_woken (waker t) t1)) as (B1 & B2 & B3).
    unfold t2. destruct (bool_decide (p_parent p = Some x)) eqn:Hpx.
    - apply bool_decide_eq_true in Hpx.
      assert (∀ i, in_table i → parent t1 i = if bool_decide (i = j) && bool_decide (parent t i = Some x) then pt_init t else parent t i) as Hp1.
      { intros i _. unfold t1, set_proc. cbn. rewrite upd_case. destruct (decide (i = j)) as [->|Hne].
        - rewrite bool_decide_true by done. fold p. by rewrite bool_decide_true.
        - by rewrite bool_decide_false. }
      destruct (bool_decide (p_state p = ZOMBIE)) eqn:Hz.
      + split; [by eapply softer_trans|]. split; [intros i Hi; rewrite B2 by done; by apply Hp1|]. intros _ _. exact B3.
      + apply bool_decide_eq_false in Hz. split; [done|]. split; [done|]. intros _ Hz'. by destruct Hz.
    - apply bool_decide_eq_false in Hpx. split; [apply softer_refl|]. split.
      + intros i _. destruct (decide (i = j)) as [->|]; [|by rewrite bool_decide_false].
        by rewrite (bool_decide_false (parent t j = Some x)), andb_false_r by done.
      + intros Hx. by destruct Hpx. }
  change (if bool_decide (p_parent p = Some x) then _ else t) with t2.
  destruct (IH (j + 1) t2 ltac:(lia) ltac:(lia)) as (Hs & Hp & Hw). cbv zeta in *.
  assert (pt_init t2 = pt_init t) as Hi2 by apply Hs2. assert (waker t2 = waker t) as Hwk by (unfold waker; by rewrite Hi2).
  rewrite Hi2, Hwk in *.
  split; [by eapply softer_trans|]. split.
  - intros i Hi. rewrite Hp, Hp2 by done. destruct (decide (i = j)) as [->|Hne].
    + rewrite (bool_decide_false (j + 1 ≤ j < _)), (bool_decide_true (j = j)), (bool_decide_true (j ≤ j < _)) by lia. done.
    + rewrite (bool_decide_false (i = j)) by done. cbn [andb].
      destruct (decide (j + 1 ≤ i < j + 1 + Z.of_nat n)).
      * rewrite (bool_decide_true (j + 1 ≤ i < _)), (bool_decide_true (j ≤ i < _)) by lia. done.
      * rewrite (bool_decide_false (j + 1 ≤ i < _)), (bool_decide_false (j ≤ i < _)) by lia. done.
  - intros (k & Hk & Hkx & Hkz) i Hi Hsl. destruct (decide (k = j)) as [->|Hne].
    + pose proof (softer_sleeping _ _ _ Hs Hi Hsl) as Hsl2. destruct Hs as (_ & _ & _ & Hs).
      destruct (Hs i Hi) as (_ & -> & _). by apply Hw2.
    + apply Hw; [|done|done]. exists k. split; [lia|].
      assert (in_table k) as Hkt by (unfold in_table; lia). split.
      * rewrite Hp2 by done. by rewrite bool_decide_false.
      * by apply (softer_same t t2).
Qed.

Abbreviation exit_table := (exit_table base).

Lemma paddr_inj i j : paddr i = paddr j → i = j.
Proof. unfold Proc.paddr. lia. Qed.

Lemma exit_table_spec i t :
  pt_ok t →
  softer t (exit_table i t) ∧
  (∀ j, in_table j → parent (exit_table i t) j = if bool_decide (parent t j = Some i) then pt_init t else parent t j) ∧
  (∀ q, parent t i = Some q → in_table q → state (exit_table i t) q = SLEEPING → chan (exit_table i t) q ≠ paddr q) ∧
  (∀ q j, in_table j → parent t j = Some i → state t j = ZOMBIE → pt_init t = Some q → in_table q →
     state (exit_table i t) q = SLEEPING → chan (exit_table i t) q ≠ paddr q).
Proof.
  intros Hok. set (t1 := wakeup1 (from_option paddr 0 (parent t i)) t).
  destruct (woken_softer _ _ _ (wakeup1_woken (from_option paddr 0 (parent t i)) t)) as (S1 & P1 & W1). fold t1 in S1, P1, W1.
  destruct (orphan_loop_spec i (Z.to_nat NPROC) 0 t1 ltac:(lia) ltac:(done)) as (S2 & P2 & W2). cbv zeta in *.
  rewrite Z2Nat.id, Z.add_0_l in * by done.
  unfold Proc.exit_table. fold t1. set (t2 := orphan_loop base (Z.to_nat NPROC) 0 i t1) in *.
  assert (pt_init t1 = pt_init t) as Hi1 by apply S1.
  split; [by eapply softer_trans|]. split; [|split].
  - intros j Hj. rewrite P2, P1, Hi1 by done. by rewrite (bool_decide_true (0 ≤ j < _)) by done.
  - intros q Hq Hqt Hsl. pose proof (softer_sleeping _ _ _ S2 Hqt Hsl) as Hsl1. rewrite Hq in W1. cbn [from_option] in W1.
    destruct S2 as (_ & _ & _ & S2). destruct (S2 q Hqt) as (_ & -> & _). by apply W1.
  - intros q j Hj Hp Hz Hin Hqt Hsl. assert (waker t1 = paddr q) as Hwk by (unfold waker; by rewrite Hi1, Hin).
    rewrite Hwk in W2. apply W2; [|done|done]. exists j. split; [done|].
    split; [by rewrite P1|]. by apply (softer_same t t1).
Qed.

#[local] Opaque wakeup1 Proc.exit_table.

Lemma exit_switch_eq c i t : exit_switch base c i t = set_cpu (set_state (exit_table i t) i ZOMBIE) c None.
Proof. reflexivity. Qed.

(** [i] exits on [c], its children having been given away. *)
Lemma zombie_ok c i t t2 :
  is_cpu c → pt_cpu t c = Some i → pt_init t ≠ Some i → pt_ok t → softer t t2 →
  (∀ j, in_table j → parent t2 j = if bool_decide (parent t j = Some i) then pt_init t else parent t j) →
  pt_ok (set_cpu (set_state t2 i ZOMBIE) c None).
Proof.
  intros Hc Hi Hn Hok Hs Hp. pose proof Hok as [O1 O2 O3 O4 O5 O6 O7 O8 O9].
  destruct (O1 c i Hc Hi) as [Hit Hir].
  assert (∀ j q, in_table j → parent t2 j = Some q → in_table q ∧ live (state t2 q) ∧ q ≠ i) as Hpar.
  { intros j q Hj. rewrite Hp by done. case_bool_decide as Hb.
    - intros Hq. destruct (O6 q Hq) as [Hqt Hl]. split; [done|]. split; [by apply (softer_live t)|]. congruence.
    - intros Hq. destruct (O4 j q Hj Hq) as [Hqt Hl]. split; [done|]. split; [by apply (softer_live t)|]. congruence. }
  assert (pt_ok t2) as Hok2.
  { apply (softer_ok t); try done.
    - intros j q Hj Hq. by destruct (Hpar j q Hj Hq) as (? & ? & _).
    - intros j Hj Hu. rewrite Hp by done. rewrite (O5 j Hj Hu). by rewrite bool_decide_false. }
  destruct Hok2 as [P1 P2 P3 P4 P5 P6 P7 P8 P9]. pose proof Hs as (A1 & A2 & A3 & A4). rewrite A3 in *.
  assert (state t2 i = RUNNING) as Hir2 by by apply (P1 c).
  unfold set_cpu, set_state, set_proc. split; cbn [pt_proc pt_nextpid pt_init pt_cpu]; try done.
  - intros c' j Hc'. rewrite !upd_case. case_decide; [done|]. rewrite A3. intros Hj. destruct (P1 c' j Hc' Hj).
    case_decide; [|done]. subst. by destruct (P2 c' c i).
  - intros c' c2 j Hc' Hc2. rewrite !upd_case. repeat case_decide; try done. rewrite A3. by apply P2.
  - intros j Hj. rewrite upd_case. case_decide; [done|]. intros Hr. destruct (P3 j Hj Hr) as (c' & Hc' & Hj').
    exists c'. split; [done|]. rewrite upd_ne, A3; [done|]. intros ->. congruence.
  - intros j q Hj. rewrite !upd_case. intros Hq.
    assert (parent t2 j = Some q) as Hq' by (revert Hq; case_decide; [by subst|done]).
    destruct (Hpar j q Hj Hq') as (? & ? & Hqi). split; [done|]. by rewrite decide_False.
  - intros j Hj. rewrite upd_case. case_decide; [done|]. by apply P5.
  - intros j Hj. destruct (P6 j Hj). split; [done|]. rewrite upd_ne; [done|]. rewrite A2 in Hj. congruence.
  - intros j Hj. rewrite upd_case. case_decide; [|by apply P7]. subst. intros _. apply P7; [done|]. by rewrite Hir2.
  - intros j k Hj Hk. rewrite !upd_case.
    repeat case_decide; subst; cbn [with_state p_state p_pid]; try done; intros; apply P8; try done; by rewrite Hir2.
Qed.

(** ** The other steps *)

(** The entry of [i] becomes [p], and the CPUs run [cpus]. *)
Lemma entry_ok i p cpus ini t :
  pt_ok t → in_table i →
  p_pid p = pid t i → state t i ≠ UNUSED → p_state p ≠ UNUSED →
  (∀ q, p_parent p = Some q → in_table q ∧ live (state t q)) →
  (live (state t i) → live (p_state p)) →
  (ini = pt_init t ∨ ini = Some i ∧ live (p_state p)) →
  (∀ c j, is_cpu c → cpus c = Some j → if decide (j = i) then p_state p = RUNNING else pt_cpu t c = Some j) →
  (∀ c c', is_cpu c → is_cpu c' → cpus c = Some i → cpus c' = Some i → c = c') →
  (p_state p = RUNNING → ∃ c, is_cpu c ∧ cpus c = Some i) →
  (∀ c j, is_cpu c → j ≠ i → pt_cpu t c = Some j → cpus c = Some j) →
  pt_ok (mkPtable (upd (pt_proc t) i p) (pt_nextpid t) ini cpus).
Proof.
  intros [O1 O2 O3 O4 O5 O6 O7 O8 O9] Hi Hpid Hu Hu' Hpar Hlive Hini Hc Hinj Hrun Hkeep.
  assert (∀ q, live (state t q) → live (p_state (upd (pt_proc t) i p q))) as Hl.
  { intros q Hq. rewrite upd_case. case_decide; [subst; by apply Hlive|done]. }
  split; cbn [pt_proc pt_nextpid pt_init pt_cpu]; try done.
  - intros c j Hcc Hj. specialize (Hc c j Hcc Hj). rewrite upd_case. case_decide; [by subst|]. by apply (O1 c).
  - intros c c' j Hcc Hcc' Hj Hj'. destruct (decide (j = i)) as [->|Hne]; [by apply Hinj|].
    pose proof (Hc c j Hcc Hj) as H1. pose proof (Hc c' j Hcc' Hj') as H2. rewrite decide_False in H1, H2 by done.
    by apply (O2 c c' j).
  - intros j Hj. rewrite upd_case. case_decide; [by subst|]. intros Hr. destruct (O3 j Hj Hr) as (c & Hcc & Hcj).
    exists c. split; [done|]. by apply Hkeep.
  - intros j q Hj. rewrite upd_case. case_decide; intros Hq; [destruct (Hpar q Hq)|destruct (O4 j q Hj Hq)]; auto.
  - intros j Hj. rewrite upd_case. case_decide; [done|]. by apply O5.
  - intros j Hj. destruct Hini as [->|[-> Hlp]]; [destruct (O6 j Hj); auto|]. injection Hj as <-. split; [done|].
    by rewrite upd_eq.
  - intros j Hj. rewrite upd_case. case_decide; [|by apply O7]. subst. rewrite Hpid. intros _. by apply O7.
  - intros j k Hj Hk. rewrite !upd_case. repeat case_decide; subst; try done; rewrite ?Hpid; intros; by apply O8.
Qed.

(** The entry of [i] becomes unused, or is taken into use. *)
Lemma unused_ok i p t :
  pt_ok t → in_table i → p_state p = UNUSED → p_parent p = None → state t i = EMBRYO ∨ state t i = ZOMBIE →
  pt_ok (set_proc t i p).
Proof.
  intros [O1 O2 O3 O4 O5 O6 O7 O8 O9] Hi Hs Hp Hst.
  destruct (not_live (state t i)) as [Hnl Hnr]; [destruct Hst; auto|].
  unfold set_proc. split; cbn [pt_proc pt_nextpid pt_init pt_cpu]; try done.
  - intros c j Hc Hj. destruct (O1 c j Hc Hj). rewrite upd_ne; [done|congruence].
  - intros j Hj. rewrite upd_case. case_decide; [congruence|]. by apply O3.
  - intros j q Hj. rewrite upd_case. case_decide; [congruence|]. intros Hq. destruct (O4 j q Hj Hq).
    rewrite upd_ne; [done|]. by intros ->.
  - intros j Hj. rewrite upd_case. case_decide; [done|]. by apply O5.
  - intros j Hj. destruct (O6 j Hj). rewrite upd_ne; [done|]. by intros ->.
  - intros j Hj. rewrite upd_case. case_decide; [done|]. by apply O7.
  - intros j k Hj Hk. rewrite !upd_case. repeat case_decide; try done. by apply O8.
Qed.

Lemma embryo_ok i kstack t :
  pt_ok t → in_table i → state t i = UNUSED → pt_nextpid t < 2 ^ 31 - 1 → pt_ok (embryo i kstack t).
Proof.
  intros [O1 O2 O3 O4 O5 O6 O7 O8 O9] Hi Hs Hn. unfold embryo. cbv zeta. rewrite s32_small by lia.
  destruct (not_live (state t i)) as [Hnl Hnr]; [auto|].
  split; cbn [pt_proc pt_nextpid pt_init pt_cpu].
  - intros c j Hc Hj. destruct (O1 c j Hc Hj). rewrite upd_ne; [done|congruence].
  - exact O2.
  - intros j Hj. rewrite upd_case. case_decide; [done|]. by apply O3.
  - intros j q Hj. rewrite upd_case. case_decide; [subst; cbn; by rewrite (O5 i Hi Hs)|]. intros Hq.
    destruct (O4 j q Hj Hq). rewrite upd_ne; [done|]. by intros ->.
  - intros j Hj. rewrite upd_case. case_decide; [done|]. by apply O5.
  - intros j Hj. destruct (O6 j Hj). rewrite upd_ne; [done|]. by intros ->.
  - intros j Hj. rewrite upd_case. case_decide; [cbn; lia|]. intros Hu. specialize (O7 j Hj Hu). lia.
  - intros j k Hj Hk. rewrite !upd_case. repeat case_decide; subst; try done; cbn [p_state p_pid]; intros Hu Hu' He.
    + specialize (O7 k Hk Hu'). lia.
    + specialize (O7 j Hj Hu). lia.
    + by apply O8.
  - lia.
Qed.

(** *** The scheduler's choice *)

Lemma pick_spec c t i :
  pick c t = Some i →
  in_table i ∧ state t i = RUNNABLE ∧ ∃ pri, (pri = 1 ∨ pri = 0) ∧ eligible t c pri i = true ∧
    (∀ j, 0 ≤ j < i → eligible t c pri j = false) ∧
    (pri = 0 → ∀ j, in_table j → eligible t c 1 j = false).
Proof.
  unfold pick. pose proof (scan_spec (Z.to_nat NPROC) (eligible t c 1) 0) as H1.
  rewrite Z2Nat.id, Z.add_0_l in H1 by done.
  assert (∀ pri k, eligible t c pri k = true → state t k = RUNNABLE) as He.
  { intros pri k. unfold eligible. intros [[H%bool_decide_eq_true _]%andb_true_iff _]%andb_true_iff. done. }
  destruct (scan (Z.to_nat NPROC) 0 (eligible t c 1)) as [k|].
  - intros [= ->]. destruct H1 as (Hk & Hf & Hlt). split; [done|]. split; [by eapply He|]. exists 1. split_and!; auto. done.
  - pose proof (scan_spec (Z.to_nat NPROC) (eligible t c 0) 0) as H0. rewrite Z2Nat.id, Z.add_0_l in H0 by done.
    intros Hs. rewrite Hs in H0. destruct H0 as (Hk & Hf & Hlt). split; [done|]. split; [by eapply He|].
    exists 0. split_and!; auto.
Qed.

Lemma wait_scan_spec i t :
  match wait_scan i t with
  | Reap j => in_table j ∧ parent t j = Some i ∧ state t j = ZOMBIE
  | MustSleep => (∃ j, in_table j ∧ parent t j = Some i) ∧ ∀ j, in_table j → parent t j = Some i → state t j ≠ ZOMBIE
  | NoChild => True
  end.
Proof.
  unfold wait_scan. pose proof (scan_spec (Z.to_nat NPROC) (zombie_child t i) 0) as H1.
  pose proof (scan_spec (Z.to_nat NPROC) (child t i) 0) as H0. rewrite Z2Nat.id, Z.add_0_l in H0, H1 by done.
  destruct (scan _ 0 (zombie_child t i)) as [j|].
  - destruct H1 as (Hj & Hf & _). split; [done|]. unfold zombie_child, child in Hf.
    apply andb_true_iff in Hf as [?%bool_decide_eq_true ?%bool_decide_eq_true]. done.
  - destruct (scan _ 0 (child t i)) as [j|]; [|done]. destruct (negb _); [done|]. destruct H0 as (Hj & Hf & _).
    apply bool_decide_eq_true in Hf. split; [by exists j|]. intros k Hk Hp Hz. specialize (H1 k Hk).
    unfold zombie_child, child in H1. by rewrite !bool_decide_true in H1.
Qed.

Lemma find_unused_spec t i : find_unused t = Some i → in_table i ∧ state t i = UNUSED.
Proof.
  unfold find_unused. pose proof (scan_spec (Z.to_nat NPROC) (unused t) 0) as H1. rewrite Z2Nat.id, Z.add_0_l in H1 by done.
  intros Hs. rewrite Hs in H1. destruct H1 as (Hi & Hf%bool_decide_eq_true & _). done.
Qed.

(** A process that runs leaves its CPU. *)
Lemma leave_ok c i p t :
  pt_ok t → is_cpu c → pt_cpu t c = Some i → p_pid p = pid t i → p_parent p = parent t i →
  live (p_state p) → p_state p ≠ RUNNING →
  pt_ok (mkPtable (upd (pt_proc t) i p) (pt_nextpid t) (pt_init t) (upd (pt_cpu t) c None)).
Proof.
  intros Hok Hc Hi Hpid Hpar Hl Hr. pose proof Hok as [O1 O2 _ O4 _ _ _ _ _]. destruct (O1 c i Hc Hi) as [Hit Hir].
  apply entry_ok; try done.
  - by rewrite Hir.
  - intros Hu. rewrite Hu in Hl. by destruct Hl as [?|[?|?]].
  - intros q. rewrite Hpar. by apply O4.
  - by left.
  - intros c' j Hc'. rewrite upd_case. case_decide; [done|]. intros Hj. destruct (decide (j = i)) as [->|]; [|done].
    by destruct (O2 c' c i).
  - intros c1 c2 Hc1 Hc2. rewrite !upd_case. repeat case_decide; try done. by apply O2.
  - intros c' j Hc' Hne Hj. rewrite upd_ne; [done|]. intros ->. congruence.
Qed.

(** A process that runs goes on. *)
Lemma stay_ok c i p t :
  pt_ok t → is_cpu c → pt_cpu t c = Some i → p_pid p = pid t i → p_parent p = parent t i → p_state p = RUNNING →
  pt_ok (set_proc t i p).
Proof.
  intros Hok Hc Hi Hpid Hpar Hr. pose proof Hok as [O1 O2 O3 O4 _ _ _ _ _]. destruct (O1 c i Hc Hi) as [Hit Hir].
  apply entry_ok; try done; rewrite ?Hr, ?Hir; try done.
  - intros q. rewrite Hpar. by apply O4.
  - by left.
  - intros c' j Hc' Hj. by case_decide.
  - intros c1 c2 Hc1 Hc2. by apply O2.
  - intros _. by exists c.
Qed.

(** A process that is not yet, or not, running changes. *)
Lemma wait_entry_ok j p ini t :
  pt_ok t → in_table j → p_pid p = pid t j → state t j = EMBRYO → p_state p = EMBRYO ∨ p_state p = RUNNABLE →
  (∀ q, p_parent p = Some q → in_table q ∧ live (state t q)) →
  ini = pt_init t ∨ ini = Some j ∧ p_state p = RUNNABLE →
  pt_ok (mkPtable (upd (pt_proc t) j p) (pt_nextpid t) ini (pt_cpu t)).
Proof.
  intros Hok Hj Hpid Hst Hp Hpar Hini. pose proof Hok as [O1 O2 _ _ _ _ _ _ _].
  assert (∀ c, is_cpu c → pt_cpu t c ≠ Some j) as Hno.
  { intros c Hc Hcj. destruct (O1 c j Hc Hcj). congruence. }
  apply entry_ok; try done.
  - by rewrite Hst.
  - destruct Hp as [-> | ->]; done.
  - rewrite Hst. by intros [?|[?|?]].
  - destruct Hini as [|[-> ->]]; [by left|]. right. split; [done|]. right. by left.
  - intros c k Hc Hk. case_decide; [subst; by destruct (Hno c Hc)|done].
  - intros c1 c2 Hc1 _ Hk. by destruct (Hno c1 Hc1).
  - intros Hr. destruct Hp; congruence.
Qed.

(** What the invariants are about is the same in [t] and [t']. *)
Definition same_fields t t' : Prop :=
  pt_nextpid t' = pt_nextpid t ∧ pt_init t' = pt_init t ∧ pt_cpu t' = pt_cpu t ∧
  ∀ i, state t' i = state t i ∧ parent t' i = parent t i ∧ chan t' i = chan t i ∧ pid t' i = pid t i.

Lemma fields_same i p t :
  p_state p = state t i → p_parent p = parent t i → p_chan p = chan t i → p_pid p = pid t i →
  same_fields t (set_proc t i p).
Proof.
  intros Hs Hp Hc Hd. do 3 (split; [done|]). intros j. cbn [set_proc pt_proc]. rewrite upd_case.
  case_decide; [by subst|done].
Qed.

Lemma same_ok t t' : same_fields t t' → pt_ok t → pt_ok t'.
Proof.
  intros (En & Ei & Ec & E) [O1 O2 O3 O4 O5 O6 O7 O8 O9].
  assert (∀ i, state t' i = state t i) as Es by (intros i; by destruct (E i)).
  assert (∀ i, parent t' i = parent t i) as Ep by (intros i; by destruct (E i) as (_ & ? & _)).
  assert (∀ i, pid t' i = pid t i) as Ed by (intros i; by destruct (E i) as (_ & _ & _ & ?)).
  split; rewrite ?Ec, ?En; try done.
  - intros c i. rewrite Es. apply O1.
  - intros i. rewrite Es. apply O3.
  - intros i q. rewrite Ep, Es. apply O4.
  - intros i. rewrite Es, Ep. apply O5.
  - intros i. rewrite Ei, Es. apply O6.
  - intros i. rewrite Es, Ed. apply O7.
  - intros i j. rewrite !Es, !Ed. apply O8.
Qed.

Lemma fields_ok i p t :
  pt_ok t → p_state p = state t i → p_parent p = parent t i → p_chan p = chan t i → p_pid p = pid t i →
  pt_ok (set_proc t i p).
Proof. intros Hok Hs Hp Hc Hd. apply (same_ok t); [by apply fields_same|done]. Qed.

Lemma same_wait_ok t t' : same_fields t t' → wait_ok t → wait_ok t'.
Proof.
  intros (_ & _ & _ & E) Hw q Hq Hs Hc. destruct (E q) as (Es & _ & Ec & _). rewrite Es in Hs. rewrite Ec in Hc.
  destruct (Hw q Hq Hs Hc) as [(j & Hj & Hjq) Hno]. split.
  - exists j. split; [done|]. by destruct (E j) as (_ & -> & _).
  - intros k Hk. destruct (E k) as (-> & -> & _). by apply Hno.
Qed.

Lemma pstep_ok t t' : pstep t t' → pt_ok t → pt_ok t'.
Proof.
  intros Hst Hok. destruct Hst as [c i t Hc Hn Hp|c i t Hc Hi|c i ch t Hc Hi Hch|c i t Hc Hi|ch t|c i t Hc Hi Hini|
    c i t Hc Hi Hw|c i j t Hc Hi Hw|i ks t Hf Hn|c i j t Hc Hi Hj He Hpa|j t Hj He|j t Hj He Hpa|j t Hj He Hpa|
    i p t Hi Hs Hpa Hch Hpid].
  - apply pick_spec in Hp as (Hit & Hir & _). pose proof Hok as [O1 O2 _ O4 _ _ _ _ _].
    assert (∀ c', is_cpu c' → pt_cpu t c' ≠ Some i) as Hno.
    { intros c' Hc' Hcj. destruct (O1 c' i Hc' Hcj). congruence. }
    apply (entry_ok i (with_state (pt_proc t i) RUNNING) (upd (pt_cpu t) c (Some i)) (pt_init t) t); try done.
    + by rewrite Hir.
    + intros q. by apply O4.
    + intros _. right. by right.
    + by left.
    + intros c' j Hc'. rewrite upd_case. case_decide; [intros [= <-]; by rewrite decide_True|]. intros Hj. case_decide; [done|done].
    + intros c1 c2 Hc1 Hc2. rewrite !upd_case. repeat case_decide; subst; try done; intros H1 H2; first [by destruct (Hno c2 Hc2)|by destruct (Hno c1 Hc1)].
    + intros _. exists c. by rewrite upd_eq.
    + intros c' j Hc' Hne Hj. rewrite upd_ne; [done|]. intros ->. congruence.
  - apply (leave_ok c i (with_state (pt_proc t i) RUNNABLE) t); try done. right. by left.
  - apply (leave_ok c i (with_state (with_chan (pt_proc t i) ch) SLEEPING) t); try done. by left.
  - apply (stay_ok c i (with_chan (pt_proc t i) 0) t); try done. by apply (ok_cpu t Hok c).
  - destruct (woken_softer _ _ _ (wakeup1_woken ch t)) as (S1 & P1 & _).
    apply (softer_ok t _ S1); [intros j q Hj; rewrite (P1 j Hj)|intros j Hj; rewrite (P1 j Hj)|exact Hok].
    + intros Hq. destruct (ok_parent t Hok j q Hj Hq). split; [done|]. by apply (softer_live t).
    + by apply ok_unused.
  - rewrite exit_switch_eq. destruct (exit_table_spec i t Hok) as (Hs & Hp & _ & _). by apply (zombie_ok c i t).
  - apply (leave_ok c i (with_state (with_chan (pt_proc t i) (paddr i)) SLEEPING) t); try done. by left.
  - pose proof (wait_scan_spec i t) as Hj. rewrite Hw in Hj. destruct Hj as (Hj & _ & Hz).
    apply unused_ok; try done. by right.
  - apply find_unused_spec in Hf as [Hi Hu]. by apply embryo_ok.
  - destruct (ok_cpu t Hok c i Hc Hi) as [Hit Hir].
    apply (wait_entry_ok j (with_parent (pt_proc t j) (Some i)) (pt_init t) t); try done; [by left| |by left].
    cbn. intros q [= <-]. split; [done|]. rewrite Hir. right. by right.
  - apply (wait_entry_ok j (with_state (pt_proc t j) RUNNABLE) (pt_init t) t); try done; [by right| |by left].
    intros q. by apply ok_parent.
  - apply unused_ok; try done. by left.
  - apply (wait_entry_ok j (with_state (pt_proc t j) RUNNABLE) (Some j) t); try done; [by right| |by right].
    intros q. by apply ok_parent.
  - by apply fields_ok.
Qed.

(** Entry [i] changes, but does not fall asleep in [wait], or become a zombie
    or lose its parent. *)
Lemma wait_entry i p nx ini cpus t :
  wait_ok t → in_table i →
  (p_state p = SLEEPING → p_chan p = paddr i →
     (∃ j, in_table j ∧ parent t j = Some i) ∧ ∀ j, in_table j → parent t j = Some i → state t j ≠ ZOMBIE) →
  (parent t i = None ∨ p_parent p = parent t i) → p_state p ≠ ZOMBIE →
  wait_ok (mkPtable (upd (pt_proc t) i p) nx ini cpus).
Proof.
  intros Hok Hi Hnew Hpar Hz q Hq. cbn [pt_proc]. intros Hs Hc.
  assert ((∃ j, in_table j ∧ parent t j = Some q) ∧ ∀ j, in_table j → parent t j = Some q → state t j ≠ ZOMBIE)
    as [(j & Hj & Hjq) Hno].
  { rewrite upd_case in Hs, Hc. case_decide; [subst; by apply Hnew|by apply Hok]. }
  split.
  - exists j. split; [done|]. rewrite upd_case. case_decide; [|done]. subst. destruct Hpar as [Hn| ->]; [congruence|done].
  - intros k Hk. rewrite upd_case. case_decide; [done|]. by apply Hno.
Qed.

Lemma wakeup_wait_ok ch t : wait_ok t → wait_ok (wakeup1 ch t).
Proof.
  destruct (woken_softer _ _ _ (wakeup1_woken ch t)) as (S1 & P1 & _). generalize dependent (wakeup1 ch t).
  intros t' S1 P1 Hw q Hq Hs Hc. pose proof (softer_sleeping _ _ _ S1 Hq Hs) as Hs0.
  pose proof S1 as (_ & _ & _ & S2). destruct (S2 q Hq) as (_ & Hc0 & _). rewrite Hc0 in Hc.
  destruct (Hw q Hq Hs0 Hc) as [(j & Hj & Hjq) Hno]. split; [exists j; by rewrite P1|].
  intros k Hk Hkq Hz. rewrite P1 in Hkq by done. apply (Hno k Hk Hkq). by apply (softer_same t t').
Qed.

(** Entry [i] keeps its parent, or loses it, or gets one that runs. *)
Lemma tree_entry i p nx cpus t :
  tree_ok t → p_parent p = parent t i ∨ p_parent p = None →
  tree_ok (mkPtable (upd (pt_proc t) i p) nx (pt_init t) cpus).
Proof.
  intros [Hs Hi] Hp. split; cbn [pt_proc pt_init]; intros j Hj; rewrite upd_case; case_decide; subst; auto.
  - specialize (Hs i Hj). destruct Hp; congruence.
  - specialize (Hi i Hj). destruct Hp; congruence.
Qed.

Lemma pstep_tree_ok t t' : pstep t t' → pt_ok t → tree_ok t → tree_ok t'.
Proof.
  intros Hst Hok Htr. destruct Hst as [c i t Hc Hn Hp|c i t Hc Hi|c i ch t Hc Hi Hch|c i t Hc Hi|ch t|c i t Hc Hi Hini|
    c i t Hc Hi Hw|c i j t Hc Hi Hw|i ks t Hf Hn|c i j t Hc Hi Hj He Hpa|j t Hj He|j t Hj He Hpa|j t Hj He Hpa|
    i p t Hi Hs Hpa Hch Hpid].
  - apply (tree_entry i _ _ _ t); [exact Htr|by left].
  - apply (tree_entry i _ _ _ t); [exact Htr|by left].
  - apply (tree_entry i _ _ _ t); [exact Htr|by left].
  - apply (tree_entry i _ _ _ t); [exact Htr|by left].
  - destruct (woken_softer _ _ _ (wakeup1_woken ch t)) as ((_ & Hi & _) & P1 & _).
    generalize dependent (wakeup1 ch t). intros t' Hi P1. destruct Htr as [T1 T2]. split.
    + intros i Hit. rewrite P1 by done. by apply T1.
    + intros i Hit. rewrite Hi in Hit. destruct (ok_init t Hok i Hit). rewrite P1 by done. by apply T2.
  - rewrite exit_switch_eq. destruct (exit_table_spec i t Hok) as ((_ & Hin & _) & Hp & _).
    generalize dependent (exit_table i t). intros t2 Hin Hp. destruct Htr as [T1 T2].
    apply (tree_entry i (with_state (pt_proc t2 i) ZOMBIE) (pt_nextpid t2) (upd (pt_cpu t2) c None) t2); [|by left]. split.
    + intros j Hj. rewrite Hp by done. case_bool_decide as Hb; [|by apply T1]. intros He. by rewrite (T2 j He) in Hb.
    + intros j Hj. rewrite Hin in Hj. destruct (ok_init t Hok j Hj). rewrite Hp by done. rewrite (T2 j Hj). by rewrite bool_decide_false.
  - apply (tree_entry i _ _ _ t); [exact Htr|by left].
  - apply (tree_entry j _ _ _ t); [exact Htr|by right].
  - apply (tree_entry i _ _ _ t); [exact Htr|by left].
  - destruct Htr as [T1 T2]. destruct (ok_cpu t Hok c i Hc Hi) as [Hit Hir].
    split; cbn [set_proc pt_proc pt_init]; intros k Hk; rewrite upd_case; case_decide; subst; auto.
    + cbn. intros [= ->]. congruence.
    + destruct (ok_init t Hok j Hk) as [_ Hl]. rewrite He in Hl. by destruct Hl as [?|[?|?]].
  - apply (tree_entry j _ _ _ t); [exact Htr|by left].
  - apply (tree_entry j _ _ _ t); [exact Htr|by left].
  - destruct Htr as [T1 T2]. split; cbn [set_state set_proc pt_proc pt_init]; intros k Hk; rewrite upd_case.
    + case_decide; [subst; cbn; by rewrite Hpa|by apply T1].
    + injection Hk as <-. by rewrite decide_True.
  - apply (tree_entry i _ _ _ t); [exact Htr|by left].
Qed.

Lemma exit_wait_ok c i t :
  is_cpu c → pt_cpu t c = Some i → pt_init t ≠ Some i → pt_ok t → tree_ok t → wait_ok t →
  wait_ok (exit_switch base c i t).
Proof.
  intros Hc Hi Hn Hok [Hself _] Hw. rewrite exit_switch_eq. destruct (exit_table_spec i t Hok) as (Hs & Hp & Hpw & Hiw).
  generalize dependent (exit_table i t). intros t2 Hs Hp Hpw Hiw q Hq. destruct (ok_cpu t Hok c i Hc Hi) as [Hit Hir].
  cbn [set_cpu set_state set_proc pt_proc]. rewrite upd_case. case_decide as Hqi; [done|]. intros Hsl Hch.
  pose proof (softer_sleeping _ _ _ Hs Hq Hsl) as Hsl0. pose proof Hs as (_ & _ & _ & S2).
  destruct (S2 q Hq) as (_ & Hc0 & _). rewrite Hc0 in Hch. destruct (Hw q Hq Hsl0 Hch) as [(j & Hj & Hjq) Hno].
  rewrite <-Hc0 in Hch. split.
  - exists j. split; [done|].
    assert (parent t2 j = Some q) as Hj2 by (rewrite Hp by done; rewrite bool_decide_false; [done|congruence]).
    rewrite upd_case. case_decide; [by subst|done].
  - intros k Hk Hkq Hz.
    assert (parent t2 k = Some q) as Hk2 by (revert Hkq; rewrite upd_case; case_decide; [by subst|done]). clear Hkq.
    rewrite Hp in Hk2 by done. rewrite upd_case in Hz. case_decide as Hki.
    + subst. revert Hk2. case_bool_decide; intros Hk2.
      * by destruct (Hself i Hk).
      * by apply (Hpw q Hk2 Hq Hsl).
    + assert (state t k = ZOMBIE) as Hz0 by by apply (softer_same t t2).
      revert Hk2. case_bool_decide; intros Hk2; [by apply (Hiw q k Hk)|by apply (Hno k Hk Hk2)].
Qed.

Lemma reap_wait_ok c i j t :
  is_cpu c → pt_cpu t c = Some i → wait_scan i t = Reap j → pt_ok t → wait_ok t → wait_ok (reap j t).
Proof.
  intros Hc Hi Hr Hok Hw q Hq. pose proof (wait_scan_spec i t) as Hj. rewrite Hr in Hj. destruct Hj as (Hj & Hji & Hjz).
  destruct (ok_cpu t Hok c i Hc Hi) as [Hit Hir]. cbn [reap set_proc pt_proc]. rewrite upd_case.
  case_decide; [done|]. intros Hs Hch. destruct (Hw q Hq Hs Hch) as [(k & Hk & Hkq) Hno]. split.
  - exists k. split; [done|]. rewrite upd_ne; [done|]. intros ->. congruence.
  - intros l Hl. rewrite upd_case. case_decide; [done|]. by apply Hno.
Qed.

Lemma pstep_wait_ok t t' : pstep t t' → pt_ok t → tree_ok t → wait_ok t → wait_ok t'.
Proof.
  intros Hst Hok Htr Hwt. destruct Hst as [c i t Hc Hn Hp|c i t Hc Hi|c i ch t Hc Hi Hch|c i t Hc Hi|ch t|c i t Hc Hi Hini|
    c i t Hc Hi Hw|c i j t Hc Hi Hw|i ks t Hf Hn|c i j t Hc Hi Hj He Hpa|j t Hj He|j t Hj He Hpa|j t Hj He Hpa|
    i p t Hi Hs Hpa Hch Hpid].
  - apply pick_spec in Hp as (Hit & _). apply wait_entry; try done. by right.
  - destruct (ok_cpu t Hok c i Hc Hi). apply wait_entry; try done. by right.
  - destruct (ok_cpu t Hok c i Hc Hi). apply wait_entry; try done; [|by right]. cbn. intros _ He. by destruct (Hch i).
  - destruct (ok_cpu t Hok c i Hc Hi) as [Hit Hir]. apply wait_entry; try done; [|by right|]; cbn; by rewrite Hir.
  - by apply wakeup_wait_ok.
  - by apply exit_wait_ok.
  - destruct (ok_cpu t Hok c i Hc Hi). apply wait_entry; try done; [|by right].
    pose proof (wait_scan_spec i t) as Hsc. by rewrite Hw in Hsc.
  - by eapply reap_wait_ok.
  - apply find_unused_spec in Hf as [Hi Hu]. apply wait_entry; try done. left. by apply ok_unused.
  - apply wait_entry; try done; cbn; [by rewrite He|by left|by rewrite He].
  - apply wait_entry; try done. by right.
  - apply wait_entry; try done. by right.
  - apply wait_entry; try done. by right.
  - apply (same_wait_ok t); [|done]. by apply fields_same.
Qed.

(** ** What holds of every run *)

(** The table that the BSS section is cleared to. *)
Definition booted t : Prop :=
  (∀ i, state t i = UNUSED ∧ parent t i = None) ∧ pt_nextpid t = 1 ∧ pt_init t = None ∧ ∀ c, pt_cpu t c = None.

Lemma booted_ok t : booted t → pt_ok t ∧ tree_ok t ∧ wait_ok t.
Proof.
  intros (Hp & Hn & Hi & Hc). assert (∀ i, state t i = UNUSED) as Hu by apply Hp.
  assert (∀ i, parent t i = None) as Hpar by apply Hp. split; [|split].
  - split.
    + intros c i _. by rewrite Hc.
    + intros c c' i _ _. by rewrite Hc.
    + intros i _. by rewrite Hu.
    + intros i q _. by rewrite Hpar.
    + intros i _ _. apply Hpar.
    + intros i. by rewrite Hi.
    + intros i _. by rewrite Hu.
    + intros i j _ _. by rewrite Hu.
    + by rewrite Hn.
  - split; [intros i _; by rewrite Hpar|intros i; by rewrite Hi].
  - intros i _. by rewrite Hu.
Qed.

Lemma run_ok t t' : rtc pstep t t' → pt_ok t ∧ tree_ok t ∧ wait_ok t → pt_ok t' ∧ tree_ok t' ∧ wait_ok t'.
Proof.
  induction 1 as [t|t t1 t' Hs _ IH]; [done|]. intros (H1 & H2 & H3). apply IH.
  split; [by eapply pstep_ok|]. split; [by eapply pstep_tree_ok|by eapply pstep_wait_ok].
Qed.

(** C33: whatever the CPUs do, in whatever order, the process table stays well
    formed.  A process runs on at most one CPU, and exactly the running ones
    are on a CPU; the parent of a process exists, is no zombie and is not the
    process itself; unused entries have no parent; [initproc] is alive; and
    the pids of the processes in use are positive and distinct, as long as
    fewer than 2^31 - 1 have been given out. *)
Theorem process_table_ok t t' : booted t → rtc pstep t t' → pt_ok t' ∧ tree_ok t'.
Proof. intros Hb Hr. by destruct (run_ok t t' Hr (booted_ok t Hb)) as (? & ? & _). Qed.

(** C34: [exit] and [wait] lose no wakeup.  In every run of the system, a
    process asleep in [wait] has children, and none of them is a zombie that
    it could reap: a child that exits, or that is passed to the sleeper as an
    orphan, wakes it up first. *)
Theorem wait_no_lost_wakeup t t' i :
  booted t → rtc pstep t t' → in_table i → state t' i = SLEEPING → chan t' i = paddr i →
  (∃ j, in_table j ∧ parent t' j = Some i) ∧ wait_scan i t' = MustSleep ∨ p_killed (pt_proc t' i) ≠ 0.
Proof.
  intros Hb Hr Hi Hs Hc. destruct (run_ok t t' Hr (booted_ok t Hb)) as (_ & _ & Hw).
  destruct (Hw i Hi Hs Hc) as [(j & Hj & Hp) Hno].
  destruct (decide (p_killed (pt_proc t' i) = 0)) as [Hk|Hk]; [left|by right]. split; [by exists j|].
  unfold wait_scan. pose proof (scan_spec (Z.to_nat NPROC) (zombie_child t' i) 0) as H1.
  pose proof (scan_spec (Z.to_nat NPROC) (child t' i) 0) as H0. rewrite Z2Nat.id, Z.add_0_l in H0, H1 by done.
  destruct (scan _ 0 (zombie_child t' i)) as [k|].
  - destruct H1 as (Hk1 & Hf & _). unfold zombie_child, child in Hf.
    apply andb_true_iff in Hf as [Hkp%bool_decide_eq_true Hkz%bool_decide_eq_true]. by destruct (Hno k Hk1 Hkp).
  - destruct (scan _ 0 (child t' i)) as [k|]; [by rewrite Hk|]. specialize (H0 j Hj).
    unfold child in H0. by rewrite bool_decide_true in H0.
Qed.

(** The scheduler of CPU [c] chooses a runnable process that may run on
    [c], one of priority 1 if there is any, and the first of its priority in
    the table; it chooses none exactly when no process that may run on [c] is
    runnable with priority 0 or 1. *)
Theorem pick_correct c t :
  match pick c t with
  | Some i => in_table i ∧ state t i = RUNNABLE ∧ ∃ pri, (pri = 1 ∨ pri = 0) ∧ eligible t c pri i = true ∧
      (∀ j, 0 ≤ j < i → eligible t c pri j = false) ∧ (pri = 0 → ∀ j, in_table j → eligible t c 1 j = false)
  | None => ∀ j, in_table j → eligible t c 1 j = false ∧ eligible t c 0 j = false
  end.
Proof.
  destruct (pick c t) as [i|] eqn:Hp; [by apply pick_spec|]. unfold pick in Hp.
  pose proof (scan_spec (Z.to_nat NPROC) (eligible t c 1) 0) as H1.
  pose proof (scan_spec (Z.to_nat NPROC) (eligible t c 0) 0) as H0. rewrite Z2Nat.id, Z.add_0_l in H0, H1 by done.
  destruct (scan _ 0 (eligible t c 1)); [done|]. rewrite Hp in H0. intros j Hj. split; [by apply H1|by apply H0].
Qed.
End Steps.

(** ** A run *)

Definition boot_table : ptable := mkPtable (λ _, proc0) 1 None (λ _, None).

(** Process 0 is started, runs on CPU 2, forks process 1, sleeps in [wait];
    process 1 runs there; [exited] is the table when it has exited. *)
Definition forked : ptable :=
  set_state (set_proc (embryo 1 8192 (run_proc 2 0 (set_state (mkPtable (pt_proc (embryo 0 4096 boot_table)) 2 (Some 0) (λ _, None)) 0 RUNNABLE)))
    1 (with_parent (pt_proc (embryo 1 8192 (run_proc 2 0 (set_state (mkPtable (pt_proc (embryo 0 4096 boot_table)) 2 (Some 0) (λ _, None)) 0 RUNNABLE))) 1) (Some 0)))
    1 RUNNABLE.
Definition waiting : ptable := sleep_switch 2 0 (paddr 1000 0) forked.

Lemma boot_booted : booted boot_table.
Proof. by split. Qed.

Lemma waiting_reachable : rtc (pstep 1000) boot_table waiting.
Proof.
  eapply rtc_l; [apply (ps_alloc 1000 0 4096); by vm_compute|].
  eapply rtc_l; [apply (ps_boot 1000 0); by vm_compute|].
  eapply rtc_l; [apply (ps_run 1000 2 0); by vm_compute|].
  eapply rtc_l; [apply (ps_alloc 1000 1 8192); by vm_compute|].
  eapply rtc_l; [apply (ps_adopt 1000 2 0 1); by vm_compute|].
  eapply rtc_l; [apply (ps_ready 1000 1); by vm_compute|].
  apply rtc_once. apply (ps_wait 1000 2 0); by vm_compute.
Qed.

Lemma process_table_ok_witness : pt_ok waiting ∧ tree_ok waiting.
Proof. exact (process_table_ok 1000 boot_table waiting boot_booted waiting_reachable). Defined.

Lemma wait_no_lost_wakeup_witness : wait_scan 0 waiting = MustSleep.
Proof.
  destruct (wait_no_lost_wakeup 1000 boot_table waiting 0 boot_booted waiting_reachable) as [[_ H]|H];
    [by vm_compute|by vm_compute|by vm_compute|exact H|]. by destruct H.
Defined.
