(* ===== verification/Syscall.v ===== *)
(** Arguments of system calls: kern/syscall.c up to [argstr], and the accesses
    of the kernel to the memory of the current process.

    The address space of the current process is installed, so that the kernel
    dereferences user pointers directly.  [vbyte] and [vstore] are such
    accesses: addresses from KERNBASE on are kernel memory, the others go
    through the page table of the current process as the processor translates
    them; a translation fault is undefined behaviour.  Messages that the system
    calls print about wrong arguments are left out. *)

From S2P Require Import Prelude Memory Kalloc Vm BufferCache Superblock Txn Fs File Console Proc.

(** Addresses fixed by the linker (the end of the kernel, [ptable.proc],
    [trapret], [forkret], [input.r]), the number of this CPU, and the fuel for
    loops over memory. *)
Class Kernel := {
  k_end : Z; k_ptable_addr : Z; k_trapret : Z; k_forkret : Z; k_input_r : Z; k_cpu : Z; k_fuel : nat;
}.

Section Syscall.
Context `{!Kernel} {T : Type}.
Abbreviation K := (M (kern T)).

Definition this : K proc := i ← thisproc k_cpu; get_proc i.

(** ** User memory *)

Definition translate (write : bool) (va : Z) : K Z :=
  if KERNBASE <=? va then mret va
  else if (va <? 0) || (2 ^ 48 <=? va) then undef "translation fault"
  else
    p ← this;
    pte ← lift (pgdir_walk (p_pgdir p) va 0 : M kst Z);
    if pte =? 0 then undef "translation fault"
    else
      v ← lift (ld pte);
      if (Z.land v PTE_P =? 0) || write && negb (Z.land v PTE_RO =? 0) then undef "translation fault"
      else mret (P2V (PTE_ADDR v) + va mod PGSIZE).

Definition vbyte (va : Z) : K Z :=
  a ← translate false va; lift (gets (λ s : kst, k_mem s a)).
Definition vstore (va b : Z) : K () :=
  a ← translate true va; lift (modify (λ s : kst, mkKst (upd (k_mem s) a b) (k_free s))).

(** [n] bytes from [va] on. *)
Fixpoint vread (n : nat) (va : Z) : K (list Z) :=
  match n with
  | O => mret []
  | S n => b ← vbyte va; l ← vread n (w64 (va + 1)); mret (b :: l)
  end.
Fixpoint vwrite (va : Z) (l : list Z) : K () :=
  match l with
  | [] => mret ()
  | b :: l => vstore va b ;; vwrite (w64 (va + 1)) l
  end.
Definition vload64 (va : Z) : K Z := l ← vread 8 va; mret (of_bytes l).

(** ** Fetching *)

(** The value stored to [*ip], or [None] for the result -1; likewise below. *)
Definition fetchint (addr : Z) : K (option Z) :=
  p ← this;
  if (p_sz p <=? addr) || (p_sz p <? w64 (addr + 8)) then mret None
  else v ← vload64 addr; mret (Some v).

(** The loop of [fetchstr]: [n] bytes left from [s]. *)
Fixpoint fetchstr_loop (n : nat) (s len : Z) : K (option Z) :=
  match n with
  | O => mret None
  | S n =>
    c ← vbyte s;
    if c =? 0 then mret (Some len) else fetchstr_loop n (s + 1) (len + 1)
  end.
(** The length of the string at [addr]. *)
Definition fetchstr (addr : Z) : K (option Z) :=
  p ← this;
  if p_sz p <=? addr then mret None
  else fetchstr_loop (Z.to_nat (p_sz p - addr)) addr 0.

(** The word itself; the result is always 0. *)
Definition argint (n : Z) : K Z :=
  if 3 <? n then panic "argint: too many system call parameters"
  else p ← this; lift (ld (p_tf p + tf_r n)).

(** [size] is converted to [int]. *)
Definition argptr (n size : Z) : K (option Z) :=
  i ← argint n;
  p ← this;
  if (p_sz p <=? i) || (p_sz p <? w64 (i + w64 (s32 size))) then mret None else mret (Some i).

(** The string's address and length. *)
Definition argstr (n : Z) : K (option (Z * Z)) :=
  addr ← argint n;
  r ← fetchstr addr;
  mret (match r with Some len => Some (addr, len) | None => None end).

(** The characters of a string that [argstr] or [fetchstr] has found. *)
Definition string_at (a : Z * Z) : K (list Z) := vread (Z.to_nat a.2) a.1.

End Syscall.
