(* ===== verification/Sysfile.v ===== *)
(** The system calls on files: kern/sysfile.c, without [sys_exec], which is in
    file Exec.

    Arguments come from the trapframe and the memory of the current process
    (file Syscall).  What is stored to a user buffer by [readi] is stored when
    the call below returns; a user buffer is the source of [writei] as the
    function from offsets to bytes.  The constants of <fcntl.h> and the layout
    of [struct stat], which belong to the C library, are parameters. *)

From S2P Require Import Prelude Memory Kalloc Vm BufferCache Superblock Txn Fs File Console Proc Syscall.

Class Libc := {
  AT_FDCWD : Z; O_RDONLY : Z; O_WRONLY : Z; O_RDWR : Z; O_CREAT : Z; O_LARGEFILE : Z;
  stat_size : Z;                             (** [sizeof(struct stat)] *)
  store_stat : stat → list Z → list Z;       (** the bytes after the assignments of [stati] *)
}.

Definition with_node (ip : inode) (major minor nlink : Z) : inode :=
  Inode (i_dev ip) (i_inum ip) (i_ref ip) (i_lock ip) (i_valid ip) (i_type ip)
        (w16 major) (w16 minor) (w16 nlink) (i_size ip) (i_addrs ip).
Definition with_nlink (ip : inode) (nlink : Z) : inode :=
  Inode (i_dev ip) (i_inum ip) (i_ref ip) (i_lock ip) (i_valid ip) (i_type ip)
        (i_major ip) (i_minor ip) (w16 nlink) (i_size ip) (i_addrs ip).

(** ** [create] *)

Section Create.
Context {T : Type} `{!TxnOps T}.
Context (pid cwd : Z).
Context (devsw_read : Z → option (Z → Z → M (fs T) (Z * list Z))).
Context (devsw_write : Z → option (Z → (Z → Z) → Z → M (fs T) Z)).

Abbreviation dirlink := (dirlink pid devsw_read devsw_write).

(** [.] and [..]. *)
Definition dot : list Z := [46; 0].
Definition dotdot : list Z := [46; 46; 0].

(** The inode created or found, locked.  [name] is the buffer of DIRSIZ bytes. *)
Definition create (path : list Z) (type major minor : Z) (name : list Z) : M (fs T) (option Z) :=
  '(r, name) ← nameiparent pid cwd devsw_read path name;
  match r with
  | None => mret None
  | Some dp =>
    ilock pid dp ;;
    r ← dirlookup devsw_read dp name;
    match r with
    | Some (i, _) =>
      iunlockput pid dp ;;
      ilock pid i ;;
      ip ← get_inode i;
      if (type =? T_FILE) && (i_type ip =? T_FILE) then mret (Some i)
      else iunlockput pid i ;; mret None
    | None =>
      d ← get_inode dp;
      i ← ialloc (i_dev d) type;
      ilock pid i ;;
      ip ← get_inode i;
      put_inode i (with_node ip major minor 1) ;;
      iupdate i ;;
      when (type =? T_DIR) (
        d ← get_inode dp;
        put_inode dp (with_nlink d (i_nlink d + 1)) ;;
        iupdate dp ;;
        ip ← get_inode i;
        r ← dirlink i dot (i_inum ip);
        if r <? 0 then panic "create: dots"
        else
          d ← get_inode dp;
          r ← dirlink i dotdot (i_inum d);
          if r <? 0 then panic "create: dots" else mret ()) ;;
      ip ← get_inode i;
      r ← dirlink dp name (i_inum ip);
      if r <? 0 then panic "create: dirlink"
      else iunlockput pid dp ;; mret (Some i)
    end
  end.
End Create.

Section Sysfile.
Context `{!Kernel, !Libc} {T : Type} `{!TxnOps T, !OpOps T, !Lens T con}.
Abbreviation K := (M (kern T)).
Abbreviation files := (files T).

(** [devsw], for the current process. *)
Definition dev_read (p : proc) : Z → option (Z → Z → M (fs T) (Z * list Z)) :=
  devsw_read (p_pid p) k_input_r (negb (p_killed p =? 0)).
Definition dev_write (p : proc) : Z → option (Z → (Z → Z) → Z → M (fs T) Z) := devsw_write (p_pid p).

Definition begin_op : K () := lift (File.begin_op : M files ()).
Definition end_op : K () := lift (File.end_op : M files ()).

(** [thisproc()->cwd] where [namex] uses it. *)
Definition cwd_for (p : proc) (path : list Z) : K Z :=
  match p_cwd p with
  | Some d => mret d
  | None => if List.hd 0 path =? slash then mret 0 else undef "null pointer"
  end.
Definition namei (path : list Z) : K (option Z) :=
  p ← this; d ← cwd_for p path;
  on_fs (Fs.namei (p_pid p) d (dev_read p) path []).

(** ** Descriptors *)

(** The descriptor and the file. *)
Definition argfd (n : Z) : K (option (Z * Z)) :=
  w ← argint n;
  let fd := s64 w in
  if (fd <? 0) || (NOFILE <=? fd) then mret None
  else
    p ← this;
    f ← array_get (p_ofile p) fd;
    mret (match f with Some f => Some (fd, f) | None => None end).

Definition set_ofile (fd : Z) (f : option Z) : K () :=
  i ← thisproc k_cpu; p ← get_proc i;
  put_proc i (with_ofile p (<[Z.to_nat fd := f]> (p_ofile p))).

Definition fdalloc (f : Z) : K Z :=
  p ← this;
  match scan (Z.to_nat NOFILE) 0 (λ i, bool_decide (p_ofile p !! Z.to_nat i = Some None)) with
  | Some i => set_ofile i (Some f) ;; mret i
  | None => mret (-1)
  end.

Definition sys_dup : K Z :=
  r ← argfd 0;
  match r with
  | None => mret (-1)
  | Some (_, f) =>
    fd ← fdalloc f;
    if fd <? 0 then mret (-1) else lift (filedup f : M files Z) ;; mret fd
  end.

(** [fileread] to the user address [addr]. *)
Definition read_user (f addr n : Z) : K Z :=
  p ← this;
  '(r, l) ← lift (fileread (p_pid p) (dev_read p) f n : M files (Z * list Z));
  vwrite addr l ;;
  mret r.

(** [filewrite] from the user address [addr].  As many bytes are read as the
    offset of the file advances. *)
Definition write_user (f addr n : Z) : K Z :=
  p ← this;
  s ← gets id;
  let peek k := match vbyte (w64 (addr + k)) s with Ret b _ => b | _ => 0 end in
  r ← lift (filewrite (p_pid p) (dev_write p) k_fuel f peek n : M files Z);
  s' ← gets id;
  let off s := fl_off (ft_file (k_files s) f) in
  vread (Z.to_nat (w64 (off s' - off s))) addr ;;
  mret r.

Definition sys_read : K Z :=
  r ← argfd 0;
  match r with
  | None => mret (-1)
  | Some (_, f) =>
    w ← argint 2;
    let n := s64 w in
    a ← argptr 1 n;
    match a with None => mret (-1) | Some addr => read_user f addr n end
  end.

Definition sys_write : K Z :=
  r ← argfd 0;
  match r with
  | None => mret (-1)
  | Some (_, f) =>
    w ← argint 2;
    let n := s64 w in
    a ← argptr 1 n;
    match a with None => mret (-1) | Some addr => write_user f addr n end
  end.

(** The loop of [sys_writev]: [p] goes through the vector up to [last]. *)
Fixpoint writev_loop (fuel : nat) (f p last tot : Z) : K Z :=
  match fuel with
  | O => no_fuel
  | S fuel =>
    if p <? last then
      base ← vload64 p;
      len ← vload64 (p + 8);
      r ← write_user f base (s64 len);
      writev_loop fuel f (p + 16) last (w64 (tot + r))
    else mret (s64 tot)
  end.
Definition sys_writev : K Z :=
  ret1 ← argfd 0;
  w ← argint 2;
  let iovcnt := s64 w in
  ret3 ← argptr 1 (iovcnt * 16);
  match ret1, ret3 with
  | Some (_, f), Some iov => writev_loop k_fuel f iov (w64 (iov + 16 * iovcnt)) 0
  | _, _ => mret (-1)
  end.

(** [argfd] stores 8 bytes to the [int fd], whose value they have. *)
Definition sys_close : K Z :=
  r ← argfd 0;
  match r with
  | None => mret (-1)
  | Some (fd, f) =>
    set_ofile fd None ;;
    p ← this;
    lift (fileclose (p_pid p) f : M files ()) ;;
    mret 0
  end.

(** [*st] at the user address [addr]. *)
Definition put_stat (addr : Z) (st : stat) : K () :=
  l ← vread (Z.to_nat stat_size) addr;
  vwrite addr (store_stat st l).

Definition sys_fstat : K Z :=
  r ← argfd 0;
  match r with
  | None => mret (-1)
  | Some (_, f) =>
    a ← argptr 1 stat_size;
    match a with
    | None => mret (-1)
    | Some addr =>
      p ← this;
      '(r, st) ← lift (filestat (p_pid p) f : M files (Z * option stat));
      match st with Some st => put_stat addr st | None => mret () end ;;
      mret r
    end
  end.

(** ** Paths *)

(** The checks of the calls that take a directory descriptor. *)
Definition sys_fstatat : K Z :=
  w ← argint 0;
  a ← argstr 1;
  match a with
  | None => mret (-1)
  | Some a =>
    st ← argptr 2 stat_size;
    match st with
    | None => mret (-1)
    | Some addr =>
      flags ← argint 3;
      if negb (s64 w =? AT_FDCWD) then mret (-1)
      else if negb (s64 flags =? 0) then mret (-1)
      else
        begin_op ;;
        path ← string_at a;
        r ← namei path;
        match r with
        | None => end_op ;; mret (-1)
        | Some i =>
          p ← this;
          on_fs (ilock (p_pid p) i) ;;
          st ← on_fs (stati i);
          put_stat addr st ;;
          on_fs (iunlockput (p_pid p) i) ;;
          end_op ;;
          mret 0
        end
    end
  end.

Definition create_at (a : Z * Z) (type major minor : Z) : K (option Z) :=
  path ← string_at a;
  p ← this; d ← cwd_for p path;
  on_fs (create (p_pid p) d (dev_read p) (dev_write p) path type major minor (replicate 14 0)).

(** The rest of [sys_openat] with the inode [i] locked. *)
Definition open_inode (i omode : Z) : K Z :=
  p ← this;
  let fail : K Z := on_fs (iunlockput (p_pid p) i) ;; end_op ;; mret (-1) in
  r ← lift (filealloc : M files (option Z));
  match r with
  | None => fail
  | Some f =>
    fd ← fdalloc f;
    if fd <? 0 then lift (fileclose (p_pid p) f : M files ()) ;; fail
    else
      on_fs (iunlock (p_pid p) i) ;;
      end_op ;;
      let wronly := negb (Z.land omode O_WRONLY =? 0) in
      v ← lift (get_file f : M files file);
      lift (put_file f (mkFile FD_INODE (fl_ref v) (negb wronly)
                               (wronly || negb (Z.land omode O_RDWR =? 0)) i 0) : M files ()) ;;
      mret fd
  end.
Definition sys_openat : K Z :=
  w ← argint 0;
  a ← argstr 1;
  match a with
  | None => mret (-1)
  | Some a =>
    m ← argint 2;
    let omode := s64 m in
    if negb (s64 w =? AT_FDCWD) then mret (-1)
    else if Z.land omode O_LARGEFILE =? 0 then mret (-1)
    else
      begin_op ;;
      if negb (Z.land omode O_CREAT =? 0) then
        r ← create_at a T_FILE 0 0;
        match r with
        | None => end_op ;; mret (-1)
        | Some i => open_inode i omode
        end
      else
        path ← string_at a;
        r ← namei path;
        match r with
        | None => end_op ;; mret (-1)
        | Some i =>
          p ← this;
          on_fs (ilock (p_pid p) i) ;;
          ip ← on_fs (get_inode i);
          if (i_type ip =? T_DIR) && negb (omode =? Z.lor O_RDONLY O_LARGEFILE) then
            on_fs (iunlockput (p_pid p) i) ;; end_op ;; mret (-1)
          else open_inode i omode
        end
  end.

(** The common end of [sys_mkdirat] and [sys_mknodat]. *)
Definition make_node (a : Z * Z) (type major minor : Z) : K Z :=
  begin_op ;;
  r ← create_at a type major minor;
  match r with
  | None => end_op ;; mret (-1)
  | Some i => p ← this; on_fs (iunlockput (p_pid p) i) ;; end_op ;; mret 0
  end.
Definition sys_mkdirat : K Z :=
  w ← argint 0;
  a ← argstr 1;
  match a with
  | None => mret (-1)
  | Some a =>
    mode ← argint 2;
    if negb (s64 w =? AT_FDCWD) then mret (-1)
    else if negb (s64 mode =? 0) then mret (-1)
    else make_node a T_DIR 0 0
  end.
Definition sys_mknodat : K Z :=
  w ← argint 0;
  a ← argstr 1;
  match a with
  | None => mret (-1)
  | Some a =>
    major ← argint 2;
    minor ← argint 3;
    if negb (s64 w =? AT_FDCWD) then mret (-1)
    else make_node a T_DEV major minor
  end.

Definition sys_chdir : K Z :=
  begin_op ;;
  a ← argstr 0;
  r ← match a with
      | None => mret None
      | Some a => path ← string_at a; namei path
      end;
  match r with
  | None => end_op ;; mret (-1)
  | Some i =>
    p ← this;
    on_fs (ilock (p_pid p) i) ;;
    ip ← on_fs (get_inode i);
    if negb (i_type ip =? T_DIR) then on_fs (iunlockput (p_pid p) i) ;; end_op ;; mret (-1)
    else
      on_fs (iunlock (p_pid p) i) ;;
      d ← not_null (p_cwd p);
      on_fs (iput (p_pid p) d) ;;
      end_op ;;
      j ← thisproc k_cpu; p ← get_proc j;
      put_proc j (with_cwd p (Some i)) ;;
      mret 0
  end.
End Sysfile.
