(* ===== verification/SyscallSpec.v ===== *)
(** What a system call promises: [sys_read] from the trapframe down to the
    disk.

    The kernel writes to user memory through the page table of the current
    process (file UserMem says what such a write changes), the file is at rest
    (file FileSpec), and the arguments are in the trapframe. *)

From S2P Require Import Prelude Memory Kalloc Vm PageTable AddrSpace UserMem BufferCache Superblock Txn.
From S2P Require Import Fs FsAlloc FsInode FsFile FsRw File FileSpec Console Proc Syscall Sysfile.

(** A store to user address [va] does not fault. *)
Definition writable (m : mem) (root va : Z) : Prop :=
  present (pte_val m root va) ∧ Z.land (pte_val m root va) PTE_RO = 0.

Section Process.
Context `{!Kernel} {T : Type}.
Implicit Types (s : kern T) (p : proc).

(** [p] is the current process. *)
Definition current s p : Prop := ∃ i, pt_cpu (k_ptable s) k_cpu = Some i ∧ pt_proc (k_ptable s) i = p.
(** Argument [n] in its trapframe. *)
Definition arg s p n : Z := load64 (k_mem (k_kmem s)) (p_tf p + tf_r n).

Lemma this_ok s p : current s p → this s = Ret p s.
Proof.
  intros (i & Hi & Hp). unfold this, thisproc. rewrite (mbind_ret _ _ s i s).
  - unfold get_proc, gets. by rewrite Hp.
  - erewrite mbind_ret by reflexivity. cbv beta. by rewrite Hi.
Qed.

Lemma argint_ok s p n : current s p → n ≤ 3 → argint n s = Ret (arg s p n) s.
Proof.
  intros Hc Hn. unfold argint. destruct (Z.ltb_spec 3 n); [lia|]. mstep (this_ok s p Hc).
  unfold lift, ld, gets. by rewrite lset_lget.
Qed.

Definition with_mem s (m : mem) : kern T := lset (mkKst m (k_free (k_kmem s))) s.

Lemma with_mem_same s : with_mem s (k_mem (k_kmem s)) = s.
Proof. unfold with_mem. destruct s as [? [] ?]. done. Qed.
Lemma current_mem s p m : current s p → current (with_mem s m) p.
Proof. done. Qed.

Lemma translate_ok s p w va K :
  current s p → pt_ok k_end (k_mem (k_kmem s)) K → is_root K (p_pgdir p) → 0 ≤ va < 2 ^ 48 →
  present (pte_val (k_mem (k_kmem s)) (p_pgdir p) va) →
  (w = true → Z.land (pte_val (k_mem (k_kmem s)) (p_pgdir p) va) PTE_RO = 0) →
  translate w va s = Ret (user_addr (k_mem (k_kmem s)) (p_pgdir p) va) s.
Proof.
  intros Hc Hok Hr Hva Hp Hw. unfold translate.
  destruct (Z.leb_spec KERNBASE va); [unfold KERNBASE in *; lia|].
  destruct (Z.ltb_spec va 0); [lia|]. destruct (Z.leb_spec (2 ^ 48) va); [lia|]. cbn [orb].
  mstep (this_ok s p Hc). set (m := k_mem (k_kmem s)) in *. set (root := p_pgdir p) in *.
  destruct (pte_child k_end m K root va Hok Hr Hp) as (Hsl & _).
  assert (lift (pgdir_walk root va 0 : M kst Z) s = Ret (slot m root va) s) as Hwalk.
  { unfold lift. rewrite (walk_noalloc 3 0 root va (lget s)). by rewrite lset_lget. }
  mstep Hwalk. destruct (Z.eqb_spec (slot m root va) 0); [done|].
  assert (lift (ld (slot m root va)) s = Ret (pte_val m root va) s) as Hld.
  { unfold lift, ld, gets. rewrite lset_lget. f_equal. unfold pte_val, val_from.
    change (slot_from 3 m 0 root va) with (slot m root va). by destruct (Z.eqb_spec (slot m root va) 0). }
  mstep Hld. unfold present in Hp. destruct (Z.eqb_spec (Z.land (pte_val m root va) PTE_P) 0); [done|]. cbn [orb].
  destruct w; cbn [andb]; [rewrite Hw by done; cbn [Z.eqb negb]|]; done.
Qed.

(** ** Stores to user memory *)

(** The user bytes from [va] on are [l]; nothing else has changed. *)
Record stored (K : gmap Z reg) (root va : Z) (l : list Z) (m m' : mem) : Prop := {
  sd_pte r2 v2 : is_root K r2 → slot m' r2 v2 = slot m r2 v2 ∧ pte_val m' r2 v2 = pte_val m r2 v2;
  sd_kernel x : (∀ c r, K !! c = Some r → r_level r = 4%nat → ¬ in_page c x) → m' x = m x;
  sd_user r2 v2 : is_root K r2 → 0 ≤ v2 < 2 ^ 48 → present (pte_val m r2 v2) →
    user_byte m' r2 v2 =
      if decide (r2 = root ∧ va ≤ v2 < va + Z.of_nat (length l))
      then nth (Z.to_nat (v2 - va)) l 0 else user_byte m r2 v2;
}.

Lemma vstore_ok s p va b free K :
  current s p → vm_inv k_end (k_kmem s) free K → is_root K (p_pgdir p) → 0 ≤ va < 2 ^ 47 →
  writable (k_mem (k_kmem s)) (p_pgdir p) va →
  ∃ m', vstore va b s = Ret () (with_mem s m') ∧ vm_inv k_end (k_kmem (with_mem s m')) free K ∧
    stored K (p_pgdir p) va [b] (k_mem (k_kmem s)) m'.
Proof.
  intros Hc Hi Hr Hva [Hp Hro]. set (root := p_pgdir p) in *. set (a := user_addr (k_mem (k_kmem s)) root va).
  assert (same_outside (k_mem (k_kmem s)) (upd (k_mem (k_kmem s)) a b) a 1) as Hout by (intros x Hx; apply upd_ne; lia).
  destruct (user_write k_end (k_kmem s) free K root va 1 _ Hi Hr ltac:(lia) ltac:(lia) ltac:(lia) ltac:(zlia) Hp Hout)
    as (Hi' & Hpte & Hk & Hub).
  exists (upd (k_mem (k_kmem s)) a b). split; [|split; [exact Hi'|split; [done|done|]]].
  - unfold vstore. by mstep (translate_ok s p true va K Hc (vi_pt _ _ _ _ Hi) Hr ltac:(lia) Hp (λ _, Hro)).
  - intros r2 v2 Hr2 Hv2 Hp2. rewrite Hub by done. cbn [length]. change (Z.of_nat 1) with 1. case_decide as Hd; [|done].
    assert (v2 = va) as -> by lia. fold a. rewrite Z.sub_diag, Z.add_0_r. cbn. apply upd_eq.
Qed.

Lemma stored_writable K root va l m m' r2 v2 :
  stored K root va l m m' → is_root K r2 → writable m r2 v2 → writable m' r2 v2.
Proof. intros Hs Hr. unfold writable. by destruct (sd_pte _ _ _ _ _ _ Hs r2 v2 Hr) as [_ ->]. Qed.

Lemma stored_cons K root va b l m m1 m' :
  stored K root va [b] m m1 → stored K root (va + 1) l m1 m' → stored K root va (b :: l) m m'.
Proof.
  intros [A1 A2 A3] [B1 B2 B3]. split.
  - intros r2 v2 Hr. destruct (B1 r2 v2 Hr) as [-> ->]. by apply A1.
  - intros x Hx. rewrite B2 by done. by apply A2.
  - intros r2 v2 Hr Hv Hp. rewrite B3 by (done || (destruct (A1 r2 v2 Hr) as [_ ->]; done)).
    rewrite A3 by done. cbn [length].
    destruct (decide (r2 = root ∧ va + 1 ≤ v2 < va + 1 + Z.of_nat (length l))) as [[-> Hin]|Hno].
    + rewrite decide_True by (split; [done|lia]). replace (Z.to_nat (v2 - va)) with (S (Z.to_nat (v2 - (va + 1)))) by lia. done.
    + destruct (decide (r2 = root ∧ va ≤ v2 < va + Z.of_nat 1)) as [[-> Hin]|Hno2].
      * rewrite decide_True by (split; [done|lia]). replace (Z.to_nat (v2 - va)) with 0%nat by lia. done.
      * rewrite decide_False; [done|]. intros [-> Hin]. destruct (decide (v2 = va)); [apply Hno2|apply Hno]; (split; [done|lia]).
Qed.

Lemma vwrite_ok l : ∀ s p va free K,
  current s p → vm_inv k_end (k_kmem s) free K → is_root K (p_pgdir p) →
  0 ≤ va → va + Z.of_nat (length l) < 2 ^ 47 →
  (∀ v, va ≤ v < va + Z.of_nat (length l) → writable (k_mem (k_kmem s)) (p_pgdir p) v) →
  ∃ m', vwrite va l s = Ret () (with_mem s m') ∧ vm_inv k_end (k_kmem (with_mem s m')) free K ∧
    stored K (p_pgdir p) va l (k_mem (k_kmem s)) m'.
Proof.
  induction l as [|b l IH]; intros s p va free K Hc Hi Hr Hva Hmax Hw; cbn [length] in *; cbn [vwrite].
  - exists (k_mem (k_kmem s)). rewrite with_mem_same. split; [done|]. split; [done|].
    split; [done|done|]. intros r2 v2 _ _ _. rewrite decide_False; [done|]. cbn. lia.
  - destruct (vstore_ok s p va b free K Hc Hi Hr ltac:(lia) (Hw va ltac:(lia))) as (m1 & Hrun & Hi1 & Hst1).
    mstep Hrun. rewrite w64_small by lia.
    destruct (IH (with_mem s m1) p (va + 1) free K) as (m' & Hrun' & Hi' & Hst'); [done|done|done|lia|lia| |].
    { intros v Hv. eapply stored_writable; [exact Hst1|done|]. apply Hw. lia. }
    exists m'. split; [exact Hrun'|]. split; [exact Hi'|]. by eapply stored_cons.
Qed.
End Process.

(** ** [sys_read] *)

Section Read.
Context `{!Kernel, !Libc} {T : Type} `{!TxnOps T, !Txn T, !OpOps T, !TxnOp T, !Lens T con}.
Context (sb : superblock).
Implicit Types (s : kern T) (p : proc) (t : tx).

Lemma argfd_ok s p fd f :
  current s p → fd = s64 (arg s p 0) → 0 ≤ fd < NOFILE → p_ofile p !! Z.to_nat fd = Some (Some f) →
  argfd 0 s = Ret (Some (fd, f)) s.
Proof.
  intros Hc -> Hfd Hf. unfold argfd. mstep (argint_ok s p 0 Hc ltac:(lia)).
  destruct (Z.ltb_spec (s64 (arg s p 0)) 0); [lia|]. destruct (Z.leb_spec NOFILE (s64 (arg s p 0))); [lia|]. cbn [orb].
  mstep (this_ok s p Hc). mstep (array_get_some (p_ofile p) _ (Some f) s (proj1 Hfd) Hf). done.
Qed.

(** The range is checked without wrapping around. *)
Lemma argptr_ok s p n size :
  current s p → n ≤ 3 → 0 ≤ size < 2 ^ 31 → p_sz p < 2 ^ 63 → 0 ≤ arg s p n →
  argptr n size s = Ret (if decide (arg s p n < p_sz p ∧ arg s p n + size ≤ p_sz p) then Some (arg s p n) else None) s.
Proof.
  intros Hc Hn Hs Hsz Ha. unfold argptr. mstep (argint_ok s p n Hc Hn). mstep (this_ok s p Hc).
  set (a := arg s p n) in *. rewrite (s32_small size) by lia. rewrite (w64_small size) by lia.
  destruct (Z.leb_spec (p_sz p) a) as [Hge|Hlt]; cbn [orb]; [by rewrite decide_False by lia|].
  rewrite w64_small by lia. destruct (Z.ltb_spec (p_sz p) (a + size)).
  - by rewrite decide_False by lia.
  - by rewrite decide_True by lia.
Qed.

(** C4: read(2) from the trapframe to the disk.  Process [p] has file [f] open
    for reading on descriptor [r0], and asks for [r2] bytes at the user address
    [r1].  If the buffer is within the process and mapped, [sys_read] returns
    the number of bytes from the file's offset to its end, or [r2] if that is
    less, and exactly that many user bytes from [r1] on are now the bytes of the
    file that the transaction layer shows; every other user byte of every
    process, the mappings and the memory of the kernel are unchanged, and so is
    the process table; the offset has moved on by the result, other files have
    not changed, and the file is at rest again.  If the buffer is not within
    the process, the result is -1 and nothing has changed. *)
Theorem sys_read_correct s p t f free K :
  let a := arg s p 1 in let n := s64 (arg s p 2) in
  let v := ft_file (k_files s) f in let i := fl_ip v in
  let inode x := f_icache (ft_fs (k_files x)) i in
  current s p → 0 ≤ s64 (arg s p 0) < NOFILE → p_ofile p !! Z.to_nat (s64 (arg s p 0)) = Some (Some f) →
  0 ≤ a → 0 ≤ n < 2 ^ 31 → p_sz p < 2 ^ 47 →
  if decide (a < p_sz p ∧ a + n ≤ p_sz p) then
    vm_inv k_end (k_kmem s) free K → is_root K (p_pgdir p) →
    (∀ va, a ≤ va < a + n → writable (k_mem (k_kmem s)) (p_pgdir p) va) →
    at_rest sb (ft_fs (k_files s)) t i → fl_type v = FD_INODE → fl_readable v = true →
    0 ≤ fl_off v ≤ i_size (inode s) →
    let k := Z.min n (i_size (inode s) - fl_off v) in
    ∃ s', sys_read s = Ret k s' ∧
      stored K (p_pgdir p) a (map (fbyte (t_view t) (i_addrs (inode s))) (seqZ (fl_off v) k))
             (k_mem (k_kmem s)) (k_mem (k_kmem s')) ∧
      vm_inv k_end (k_kmem s') free K ∧ k_ptable s' = k_ptable s ∧
      at_rest sb (ft_fs (k_files s')) t i ∧ i_size (inode s') = i_size (inode s) ∧
      ∀ h, ft_file (k_files s') h =
        if decide (h = f) then with_off v (fl_off v + k) else ft_file (k_files s) h
  else sys_read s = Ret (-1) s.
Proof.
  intros a n v i inode Hc Hfd Hof Ha Hn Hsz.
  assert (sys_read s = (match (if decide (a < p_sz p ∧ a + n ≤ p_sz p) then Some a else None) with
                        | None => mret (-1) | Some addr => read_user f addr n end) s) as Hrun.
  { unfold sys_read. mstep (argfd_ok s p _ f Hc eq_refl Hfd Hof). cbv beta iota.
    mstep (argint_ok s p 2 Hc ltac:(lia)). cbv zeta. fold n.
    by mstep (argptr_ok s p 1 n Hc ltac:(lia) Hn ltac:(lia) Ha). }
  rewrite Hrun. destruct (decide (a < p_sz p ∧ a + n ≤ p_sz p)) as [Hin|]; [|done].
  intros Hi Hr Hw Hrest Hty Hrd Hoff k.
  destruct (fileread_ok sb (p_pid p) (dev_read p) (k_files s) t f n Hrest Hty Hrd Hoff ltac:(lia))
    as (fs' & Hread & Hrest' & _ & Hsize & Ho & Hfl).
  fold v i in Hread, Hrest', Hsize, Ho. fold (inode s) in Hread, Hsize, Ho. fold k in Hread, Ho.
  set (s1 := lset (Lens := kern_files) fs' s).
  assert (lift (fileread (p_pid p) (dev_read p) f n : M (files T) (Z * list Z)) s =
    Ret (k, map (fbyte (t_view t) (i_addrs (inode s))) (seqZ (fl_off v) k)) s1) as Hlift by by apply lift_ret.
  set (l := map _ _) in *. assert (Z.of_nat (length l) = k ∧ k ≤ n) as [Hl Hkn].
  { unfold l. rewrite length_map, length_seqZ. unfold k. lia. }
  destruct (vwrite_ok l s1 p a free K) as (m' & Hvw & Hi' & Hst); [done|done|done|done|lia|intros va Hva; apply Hw; lia|].
  exists (with_mem s1 m'). split.
  - unfold read_user. mstep (this_ok s p Hc). mstep Hlift. cbv beta iota. by mstep Hvw.
  - split; [exact Hst|]. split; [exact Hi'|]. split; [done|]. split; [exact Hrest'|]. split; [exact Hsize|].
    intros h. cbn. rewrite Hfl, Ho. case_decide as Hh; [by subst|]. by destruct (ft_file (k_files s) h).
Qed.
End Read.
