(* ===== verification/SyscallExample.v ===== *)
(** The theorem of file SyscallSpec on the machines of files FileExample and
    VmSpec, with a console beside the log. *)

From S2P Require Import Prelude Memory Kalloc Vm PageTable AddrSpace UserMem VmSpec BufferCache Sleeplock Bio Superblock.
From S2P Require Import Log LogCrash LogOps Ramdisk Txn Fs FsAlloc FsInode FsFile FsRw FsExample File FileSpec FileExample.
From S2P Require Import Console Proc Syscall Sysfile SyscallSpec.

#[local] Instance ex_kernel : Kernel := {
  k_end := ex_kend; k_ptable_addr := ex_kend - 20000; k_trapret := ex_kend - 3000; k_forkret := ex_kend - 2000;
  k_input_r := ex_kend - 1000; k_cpu := 0; k_fuel := 1000;
}.
#[local] Instance ex_libc : Libc := {
  AT_FDCWD := -100; O_RDONLY := 0; O_WRONLY := 1; O_RDWR := 2; O_CREAT := 64; O_LARGEFILE := 32768;
  stat_size := 128; store_stat _ l := l;
}.

Definition ex_store : Type := lst (bst ramdisk) * con.
Definition ex_rest : fs ex_store := Fs ex_sb rest_icache (mkLst rest_log (rd_boot ex_fs_disk), con0).
(** The file of file FileExample, at offset 10. *)
Definition ex_files : files ex_store := Files (upd (λ _, file0) 3 (with_off rest_file 10)) ex_rest.

Lemma ex_at_rest : at_rest ex_sb ex_rest ex_tx 0.
Proof. destruct rest_at_rest as [H1 H2 H3 H4 H5 H6 H7 H8 H9 H10 H11 H12 H13 H14 H15]. by split. Qed.

(** The trapframe at an address below the kernel: read 100 bytes of
    descriptor 0 to the user address 4090, across a page boundary. *)
Definition tf_addr : Z := 65536.
Definition with_tf (m : mem) : mem :=
  store64 (store64 (store64 m (tf_addr + tf_r 0) 0) (tf_addr + tf_r 1) 4090) (tf_addr + tf_r 2) 100.

Lemma with_tf_arg m n : 0 ≤ n ≤ 2 → load64 (with_tf m) (tf_addr + tf_r n) = nth (Z.to_nat n) [0; 4090; 100] 0.
Proof.
  intros Hn. unfold with_tf.
  set (m1 := store64 m _ _). set (m2 := store64 m1 _ _).
  assert (n = 0 ∨ n = 1 ∨ n = 2) as [-> | [-> | ->]] by lia.
  - rewrite (load64_outside m2 _ _ _ 8 (store64_outside _ _ _)) by (unfold tf_r; lia).
    unfold m2. rewrite (load64_outside m1 _ _ _ 8 (store64_outside _ _ _)) by (unfold tf_r; lia). by apply load64_store64.
  - rewrite (load64_outside m2 _ _ _ 8 (store64_outside _ _ _)) by (unfold tf_r; lia). by apply load64_store64.
  - by apply load64_store64.
Qed.
Lemma with_tf_high m x : KERNBASE ≤ x → with_tf m x = m x.
Proof.
  intros Hx. unfold with_tf, tf_r, tf_addr, KERNBASE in *.
  do 3 (rewrite (store64_outside _ _ _ x) by lia). done.
Qed.

Definition ex_proc (root : Z) : proc :=
  mkProc 8192 root 0 RUNNING 1 None tf_addr 0 0 0 (Some 3 :: replicate 15 None) None 0 (-1).
Definition ex_kern (root : Z) (k : kst) : kern ex_store :=
  Kern ex_files (mkKst (with_tf (k_mem k)) (k_free k)) (mkPtable (λ _, ex_proc root) 2 None (λ _, Some 0)).

Lemma sys_read_correct_witness :
  ∃ root k s', ex_two root k ∧ sys_read (ex_kern root k) = Ret 100 s' ∧
    user_byte (k_mem (k_kmem s')) root 4095 = fbyte (t_view ex_tx) (i_addrs (f_icache ex_rest 0)) 15 ∧
    user_byte (k_mem (k_kmem s')) root 4089 = user_byte (k_mem (k_kmem (ex_kern root k))) root 4089 ∧
    fl_off (ft_file (k_files s') 3) = 110.
Proof.
  destruct ex_user_rw as (root & k & free & K & Hi & Hr & H2 & Hro).
  set (s := ex_kern root k).
  assert (arg s (ex_proc root) 0 = 0) as A0 by (apply (with_tf_arg (k_mem k) 0); lia).
  assert (arg s (ex_proc root) 1 = 4090) as A1 by (apply (with_tf_arg (k_mem k) 1); lia).
  assert (arg s (ex_proc root) 2 = 100) as A2 by (apply (with_tf_arg (k_mem k) 2); lia).
  destruct (pt_ok_ext ex_kend (k_mem k) (k_mem (k_kmem s)) K (vi_pt _ _ _ _ Hi)) as [Hok Hpte].
  { intros q r j Hq _ Hj. apply entry_ext; [exact Hj|]. intros x Hx. apply with_tf_high.
    destruct (pk_page _ _ _ (vi_pt _ _ _ _ Hi) q r Hq) as (_ & _ & ?). unfold in_page in Hx. lia. }
  assert (vm_inv ex_kend (k_kmem s) free K) as Hinv.
  { split; [|exact Hok|apply Hi]. apply kinv_ext; [apply Hi|]. intros q x Hq Hx. apply with_tf_high.
    pose proof (ki_pages _ _ _ (vi_free _ _ _ _ Hi)) as Hfp. rewrite Forall_forall in Hfp.
    destruct (Hfp q Hq) as (_ & _ & ?). unfold in_page in Hx. lia. }
  assert (current s (ex_proc root)) as Hc by (exists 0; split; reflexivity).
  pose proof (sys_read_correct ex_sb s (ex_proc root) ex_tx 3 free K Hc) as Hspec. cbv zeta in Hspec.
  rewrite A0, A1, A2 in Hspec. change (s64 0) with 0 in Hspec. change (s64 100) with 100 in Hspec.
  specialize (Hspec ltac:(unfold NOFILE; lia) eq_refl ltac:(lia) ltac:(lia) ltac:(cbn; lia)).
  rewrite decide_True in Hspec by (cbn; lia).
  assert (∀ va, 4090 ≤ va < 4090 + 100 → writable (k_mem (k_kmem s)) root va) as Hw.
  { intros va Hva. unfold writable. destruct (Hpte root va Hr) as [_ ->]. split; [apply (H2 va); lia|apply Hro; lia]. }
  assert (0 ≤ fl_off (with_off rest_file 10) ≤ i_size (f_icache ex_rest 0)) as Hoff by (split; vm_compute; discriminate).
  assert (Z.min 100 (i_size (f_icache ex_rest 0) - 10) = 100) as Hk by (vm_compute; reflexivity).
  destruct (Hspec Hinv Hr Hw ex_at_rest eq_refl eq_refl Hoff) as (s' & Hrun & Hst & _ & _ & _ & _ & Hfl).
  change (fl_ip (ft_file (k_files s) 3)) with 0 in *. change (fl_off (ft_file (k_files s) 3)) with 10 in *.
  change (ft_fs (k_files s)) with ex_rest in *. rewrite Hk in *.
  exists root, k, s'. split; [exact H2|]. split; [exact Hrun|].
  assert (∀ va, 0 ≤ va < 8192 → present (pte_val (k_mem (k_kmem s)) root va)) as Hp.
  { intros va Hva. destruct (Hpte root va Hr) as [_ ->]. apply (H2 va Hva). }
  split; [|split].
  - rewrite (sd_user _ _ _ _ _ _ Hst root 4095 Hr ltac:(lia) (Hp 4095 ltac:(lia))).
    rewrite decide_True by (rewrite length_map, length_seqZ; split; [reflexivity|lia]).
    reflexivity.
  - rewrite (sd_user _ _ _ _ _ _ Hst root 4089 Hr ltac:(lia) (Hp 4089 ltac:(lia))).
    rewrite decide_False by lia. reflexivity.
  - rewrite Hfl. reflexivity.
Defined.
