(* ===== verification/Exec.v ===== *)
(** Program loading: kern/exec.c, [uvm_load] of kern/vm.c and [sys_exec] of
    kern/sysfile.c.

    The layout of ELF files and the constants of <elf.h>, which belong to the C
    library, are the parameter [Elf]; a header is the list of its bytes.  The
    strings of [argv] are in the memory of the current process, and [ustack],
    [auxv] and [temp] on its kernel stack, while the destination of [copyout]
    is the new address space, whose pages are fresh: [copyout_bytes] is
    [copyout] with the source given by its bytes. *)

From S2P Require Import Prelude Memory CString Kalloc Vm BufferCache Superblock Txn Fs File Console Proc.
From S2P Require Import Syscall Sysfile.

Class Elf := {
  ELFMAG : list Z; PT_LOAD : Z; AT_PAGESZ : Z; AT_NULL : Z;
  ehdr_size : Z; phdr_size : Z;
  e_ident : list Z → list Z; e_phoff : list Z → Z; e_phnum : list Z → Z; e_entry : list Z → Z;
  p_type : list Z → Z; p_offset : list Z → Z; p_vaddr : list Z → Z; p_filesz : list Z → Z; p_memsz : list Z → Z;
}.

Definition MAXARG : Z := 32.

Section Exec.
Context `{!Kernel, !Libc, !Elf} {T : Type} `{!TxnOps T, !OpOps T, !Lens T con}.
Abbreviation K := (M (kern T)).

(** [readi] into a local variable. *)
Definition readi_bytes (i off n : Z) : K (Z * list Z) :=
  p ← this; on_fs (readi (dev_read p) i off n).
(** [readi] to kernel memory; true if [n] bytes were read. *)
Definition readi_mem (i dst off n : Z) : K bool :=
  '(r, l) ← readi_bytes i off n;
  lift (modify (λ s : kst, mkKst (mwrite (k_mem s) dst l) (k_free s))) ;;
  mret (w64 r =? n).

(** ** [uvm_load] *)

(** The second loop, from [i]. *)
Fixpoint load_loop (fuel : nat) (pgdir addr ip offset sz i : Z) : K Z :=
  match fuel with
  | O => no_fuel
  | S fuel =>
    if i <? sz then
      pte ← lift (pgdir_walk pgdir (w64 (addr + i)) 0 : M kst Z);
      if pte =? 0 then panic "uvm_load: address should exist"
      else
        v ← lift (ld pte);
        let n := if sz - i <? PGSIZE then sz - i else PGSIZE in
        ok ← readi_mem ip (P2V (PTE_ADDR v)) (w64 (offset + i)) n;
        if negb ok then mret (-1) else load_loop fuel pgdir addr ip offset sz (w64 (i + PGSIZE))
    else mret 0
  end.
Definition uvm_load (pgdir addr ip offset sz : Z) : K Z :=
  if negb (w64 (addr - offset) mod PGSIZE =? 0) then panic "uvm_load: addr must be page aligned"
  else
    let va := ROUNDDOWN addr PGSIZE in
    pte ← lift (pgdir_walk pgdir va 0 : M kst Z);
    if pte =? 0 then panic "loaduvm: addr should exist"
    else
      v ← lift (ld pte);
      let start := addr mod PGSIZE in
      let n := Z.min sz (PGSIZE - start) in
      ok ← readi_mem ip (P2V (w64 (PTE_ADDR v + start))) offset n;
      if negb ok then mret (-1)
      else load_loop k_fuel pgdir (w64 (addr + n)) ip (w64 (offset + n)) (sz - n) 0.

(** ** [execve] *)

Fixpoint copyout_bytes_loop (fuel : nat) (pgdir va : Z) (l : list Z) : M kst Z :=
  match fuel with
  | O => no_fuel
  | S fuel =>
    if 0 <? Z.of_nat (length l) then
      let va0 := ROUNDDOWN va PGSIZE in
      pa0 ← uva2ka pgdir va0;
      if pa0 =? 0 then mret (-1)
      else
        let n := Z.to_nat (PGSIZE - (va - va0)) in
        modify (λ s, mkKst (mwrite (k_mem s) (pa0 + (va - va0)) (take n l)) (k_free s)) ;;
        copyout_bytes_loop fuel pgdir (w64 (va0 + PGSIZE)) (drop n l)
    else mret 0
  end.
Definition copyout_bytes (pgdir va : Z) (l : list Z) : K Z :=
  lift (copyout_bytes_loop (S (length l)) pgdir va l).

(** [goto bad]. *)
Definition bad (pgdir : Z) (ip : option Z) : K Z :=
  when (negb (pgdir =? 0)) (lift (vm_free k_end pgdir 1)) ;;
  match ip with
  | Some i => p ← this; on_fs (iunlockput (p_pid p) i) ;; end_op
  | None => mret ()
  end ;;
  mret (-1).

(** The loop over the [n] program headers left; [None] for [goto bad]. *)
Fixpoint segments (n : nat) (pgdir ip off sz : Z) : K (option Z) :=
  match n with
  | O => mret (Some sz)
  | S n =>
    '(r, ph) ← readi_bytes ip (w64 off) phdr_size;
    if negb (w64 r =? phdr_size) then mret None
    else
      let next := s32 (off + phdr_size) in
      if negb (p_type ph =? PT_LOAD) then segments n pgdir ip next sz
      else if p_memsz ph <? p_filesz ph then mret None
      else
        let last := w64 (p_vaddr ph + p_memsz ph) in
        if last <? p_vaddr ph then mret None
        else
          sz ← lift (uvm_alloc k_end k_fuel pgdir sz last);
          if sz =? 0 then mret None
          else
            r ← uvm_load pgdir (p_vaddr ph) ip (p_offset ph) (p_filesz ph);
            if r <? 0 then mret None else segments n pgdir ip next (w64 sz)
  end.

(** The bytes of the string at a user address, without the null byte. *)
Fixpoint user_string (fuel : nat) (va : Z) : K (list Z) :=
  match fuel with
  | O => no_fuel
  | S fuel =>
    c ← vbyte va;
    if c =? 0 then mret [] else l ← user_string fuel (w64 (va + 1)); mret (c :: l)
  end.

(** The loop that pushes the argument strings, [argc] of which are pushed;
    the result is [sp] and [ustack]. *)
Fixpoint push_args (argv : list Z) (argc pgdir sp : Z) (ustack : list Z) : K (option (Z * list Z)) :=
  match argv with
  | [] => mret (Some (sp, ustack))
  | a :: argv =>
    if MAXARG <=? argc then mret None
    else
      s ← user_string k_fuel a;
      let sp := Z.land (w64 (sp - (Z.of_nat (length s) + 1))) (w64 (-3)) in
      r ← copyout_bytes pgdir sp (s ++ [0]);
      if r <? 0 then mret None else push_args argv (argc + 1) pgdir sp (ustack ++ [sp])
  end.

Definition words (l : list Z) : list Z := l ≫= bytes_of 8.

Definition set_tf (off v : Z) : K () := p ← this; lift (st (p_tf p + off) v).

(** From "Allocate user stack" on, with the program loaded up to [sz]. *)
Definition finish_exec (pgdir sz entry : Z) (argv : list Z) : K Z :=
  let sz := ROUNDUP sz PGSIZE in
  sz ← lift (uvm_alloc k_end k_fuel pgdir sz (w64 (sz + 2 * PGSIZE)));
  if sz =? 0 then bad pgdir None
  else
    let sz := w64 sz in
    lift (clearpteu pgdir (w64 (sz - 2 * PGSIZE))) ;;
    r ← push_args argv 0 pgdir sz [];
    match r with
    | None => bad pgdir None
    | Some (sp, ustack) =>
      let argc := Z.of_nat (length ustack) in
      set_tf (tf_r 0) argc ;;
      let sp := if Z.land argc 1 =? 0 then w64 (sp - 8) else sp in
      let sp := w64 (sp - 32) in
      r ← copyout_bytes pgdir sp (words [0; AT_PAGESZ; PGSIZE; AT_NULL]);
      if r <? 0 then bad pgdir None
      else
        let sp := w64 (sp - 8) in
        r ← copyout_bytes pgdir sp (words [0]);
        if r <? 0 then bad pgdir None
        else
          let sp := w64 (sp - (argc + 1) * 8) in
          set_tf (tf_r 1) sp ;;
          r ← copyout_bytes pgdir sp (words (ustack ++ [0]));
          if r <? 0 then bad pgdir None
          else
            let sp := w64 (sp - 8) in
            r ← copyout_bytes pgdir sp (words [argc]);
            if r <? 0 then bad pgdir None
            else
              i ← thisproc k_cpu; p ← get_proc i;
              put_proc i (with_vm p sz pgdir) ;;
              set_tf tf_sp sp ;;
              set_tf tf_elr entry ;;
              lift (vm_free k_end (p_pgdir p) 1) ;;
              p ← this; r0 ← lift (ld (p_tf p + tf_r 0));
              mret (s32 r0)
    end.

(** [argv] without its null pointer. *)
Definition execve (path argv : list Z) : K Z :=
  begin_op ;;
  r ← namei path;
  match r with
  | None => end_op ;; mret (-1)
  | Some i =>
    p ← this;
    on_fs (ilock (p_pid p) i) ;;
    '(r, elf) ← readi_bytes i 0 ehdr_size;
    if negb (w64 r =? ehdr_size) then bad 0 (Some i)
    else if negb (strncmp_bytes (length ELFMAG) (e_ident elf) ELFMAG =? 0) then bad 0 (Some i)
    else
      pgdir ← lift (pgdir_init : M kst Z);
      if pgdir =? 0 then bad 0 (Some i)
      else
        r ← segments (Z.to_nat (e_phnum elf)) pgdir i (s32 (e_phoff elf)) 0;
        match r with
        | None => bad pgdir (Some i)
        | Some sz =>
          p ← this;
          on_fs (iunlockput (p_pid p) i) ;;
          end_op ;;
          finish_exec pgdir sz (e_entry elf) argv
        end
  end.

(** ** [sys_exec] *)

(** The loop over [argv], at index [i] with [n] entries left; [None] for -1. *)
Fixpoint fetch_args (n : nat) (uargv i : Z) : K (option (list Z)) :=
  match n with
  | O => mret None
  | S n =>
    r ← fetchint (w64 (uargv + Z.shiftl i 3));
    match r with
    | None => mret None
    | Some uarg =>
      if uarg =? 0 then mret (Some [])
      else
        r ← fetchstr uarg;
        match r with
        | None => mret None
        | Some _ =>
          l ← fetch_args n uargv (i + 1);
          mret (match l with Some l => Some (uarg :: l) | None => None end)
        end
    end
  end.
Definition sys_exec : K Z :=
  a ← argstr 0;
  match a with
  | None => mret (-1)
  | Some a =>
    uargv ← argint 1;
    r ← fetch_args (Z.to_nat (Z.shiftl 1 6)) uargv 0;
    match r with
    | None => mret (-1)
    | Some argv => path ← string_at a; execve path argv
    end
  end.
End Exec.
