(* ===== verification/Dispatch.v ===== *)
(** The system-call table: [syscall1] of kern/syscall.c and the calls of
    kern/sysproc.c.

    The call numbers are those of <syscall.h>, a header of the C library: the
    parameter [call_of] gives the name that a number has there, if it has one
    of the names that [syscall1] uses. *)

From S2P Require Import Prelude Memory Kalloc Vm BufferCache Superblock Txn Fs File Console Proc.
From S2P Require Import Syscall Sysfile Exec.

Inductive call :=
| SYS_set_tid_address | SYS_gettid | SYS_ioctl | SYS_rt_sigprocmask | SYS_brk | SYS_execve
| SYS_sched_yield | SYS_clone | SYS_wait4 | SYS_exit_group | SYS_exit | SYS_dup | SYS_chdir
| SYS_fstat | SYS_newfstatat | SYS_mkdirat | SYS_mknodat | SYS_openat | SYS_writev | SYS_read
| SYS_write | SYS_close.

Section Dispatch.
Context `{!Kernel, !Libc, !Elf} {T : Type} `{!TxnOps T, !OpOps T, !Lens T con}.
Context (call_of : Z → option call).
Abbreviation K := (M (kern T)).

(** ** kern/sysproc.c *)

Definition sys_exit : K Z := exit k_ptable_addr k_cpu ;; mret 0.
Definition sys_yield : K Z := yield k_cpu ;; mret 0.

(** The result is a [size_t], the argument of [growproc] an [int]. *)
Definition sys_brk : K Z :=
  n ← argint 0;
  p ← this;
  let sz := p_sz p in
  r ← growproc k_end k_cpu k_fuel (s32 n);
  if r <? 0 then mret (w64 (-1)) else mret sz.

Definition sys_clone : K Z :=
  flag ← argint 0;
  argint 1 ;;
  if negb (flag =? 17) then mret (-1)
  else fork k_end k_trapret k_forkret k_cpu k_fuel.

Definition sys_wait4 : K Z :=
  pid ← argint 0;
  wstatus ← argint 1;
  opt ← argint 2;
  rusage ← argint 3;
  if negb (s64 pid =? -1) || negb (wstatus =? 0) || negb (opt =? 0) || negb (rusage =? 0) then mret (-1)
  else wait k_end k_ptable_addr k_cpu.

(** ** [syscall1] *)

(** [return tf->r0 = tret], [tret] an [int], as is what an undeclared function
    such as [sys_write] returns. *)
Definition return_int (tf : Z) (m : K Z) : K Z :=
  r ← m;
  let tret := s32 r in
  lift (st (tf + tf_r 0) (w64 tret)) ;; mret tret.

Definition syscall1 (tf : Z) : K Z :=
  i ← thisproc k_cpu; p ← get_proc i;
  put_proc i (mkProc (p_sz p) (p_pgdir p) (p_kstack p) (p_state p) (p_pid p) (p_parent p) tf (p_context p)
                     (p_chan p) (p_killed p) (p_ofile p) (p_cwd p) (p_priority p) (p_cpus_allowed p)) ;;
  sysno ← lift (ld (tf + tf_r 8));
  match call_of (s32 sysno) with
  | Some SYS_set_tid_address | Some SYS_gettid => return_int tf (p ← this; mret (p_pid p))
  | Some SYS_ioctl =>
    r1 ← lift (ld (tf + tf_r 1));
    if r1 =? 0x5413 then mret 0 else panic "ioctl unimplemented. "
  | Some SYS_rt_sigprocmask => return_int tf (mret 0)
  | Some SYS_brk => return_int tf sys_brk
  | Some SYS_execve => return_int tf sys_exec
  | Some SYS_sched_yield => return_int tf sys_yield
  | Some SYS_clone => return_int tf sys_clone
  | Some SYS_wait4 => return_int tf sys_wait4
  | Some SYS_exit_group | Some SYS_exit => sys_exit (* does not return *)
  | Some SYS_dup => return_int tf sys_dup
  | Some SYS_chdir => return_int tf sys_chdir
  | Some SYS_fstat => return_int tf sys_fstat
  | Some SYS_newfstatat => return_int tf sys_fstatat
  | Some SYS_mkdirat => return_int tf sys_mkdirat
  | Some SYS_mknodat => return_int tf sys_mknodat
  | Some SYS_openat => return_int tf sys_openat
  | Some SYS_writev => return_int tf sys_writev
  | Some SYS_read => return_int tf sys_read
  | Some SYS_write => return_int tf sys_write
  | Some SYS_close => return_int tf sys_close
  | None => panic "Unexpected syscall"
  end.
End Dispatch.
