(* ===== verification/Sh.v ===== *)
(** The shell: user/src/sh/main.c.

    The line is a byte string in memory; a [char *] is an address, and 0 the
    null pointer.  A [struct cmd *] is the address that [malloc1] returned, and
    the store [sh_heap] maps it to the structure there, so that a command that
    is changed after it was linked is changed for all who point to it.
    [panic] and [exit(1)] of the parser are the outcome [Panic],
    without what is printed before.  The calls of
    the C library that [runcmd] and [main] make are values of [call]; [prog] is
    a program that makes them one after the other. *)

From S2P Require Import Prelude Memory CString.

Definition MAXARGS : Z := 10.
Definition MAXN : Z := 10000.

(** [struct execcmd] and so on. *)
Inductive node :=
| NExec (argv eargv : list Z)
| NRedir (cmd file efile : Z) (mode : list string) (fd : Z)
| NPipe (left right : Z)
| NList (left right : Z)
| NBack (cmd : Z).

Definition sizeof (n : node) : Z :=
  match n with
  | NExec _ _ => 8 + 8 * MAXARGS + 8 * MAXARGS
  | NRedir _ _ _ _ _ => 40
  | NPipe _ _ => 24
  | NList _ _ => 24
  | NBack _ => 16
  end.

Record sh := Sh { sh_mem : mem; sh_heap : Z → option node; sh_used : Z }.

Section Sh.
(** The address of the array [mem] of [malloc1]. *)
Context (arena : Z).

Definition malloc1 (sz : Z) : M sh Z :=
  i ← gets sh_used;
  modify (λ s, Sh (sh_mem s) (sh_heap s) (i + sz)) ;;
  if MAXN <? i + sz then panic "malloc1: memory used out" else mret (arena + i).

Definition get_node (p : Z) : M sh node :=
  r ← gets (λ s, sh_heap s p);
  match r with Some n => mret n | None => undef "cmd" end.
Definition put_node (p : Z) (n : node) : M sh () :=
  modify (λ s, Sh (sh_mem s) (upd (sh_heap s) p (Some n)) (sh_used s)).
Definition get_exec (p : Z) : M sh (list Z * list Z) :=
  n ← get_node p;
  match n with NExec argv eargv => mret (argv, eargv) | _ => undef "execcmd" end.

(** ** Constructors *)

Definition new_node (n : node) : M sh Z := p ← malloc1 (sizeof n); put_node p n ;; mret p.
Definition execcmd : M sh Z :=
  new_node (NExec (replicate (Z.to_nat MAXARGS) 0) (replicate (Z.to_nat MAXARGS) 0)).
Definition redircmd (subcmd file efile : Z) (mode : list string) (fd : Z) : M sh Z :=
  new_node (NRedir subcmd file efile mode fd).
Definition pipecmd (left right : Z) : M sh Z := new_node (NPipe left right).
Definition listcmd (left right : Z) : M sh Z := new_node (NList left right).
Definition backcmd (subcmd : Z) : M sh Z := new_node (NBack subcmd).

(** ** Tokens *)

(** space, tab, CR, LF, VT; and [<|>&;()]. *)
Definition whitespace : list Z := [32; 9; 13; 10; 11].
Definition symbols : list Z := [60; 124; 62; 38; 59; 40; 41].
(** [strchr(l, c) != 0]: the null byte that ends [l] is found as well. *)
Definition strchr (l : list Z) (c : Z) : bool := existsb (Z.eqb c) l || (c =? 0).

(** The loops over white space and over the characters of a word, [n] bytes
    left before [es]. *)
Fixpoint skip_space (n : nat) (m : mem) (s : Z) : Z :=
  match n with
  | O => s
  | S n => if strchr whitespace (m s) then skip_space n m (s + 1) else s
  end.
Fixpoint word_end (n : nat) (m : mem) (s : Z) : Z :=
  match n with
  | O => s
  | S n => if negb (strchr whitespace (m s)) && negb (strchr symbols (m s)) then word_end n m (s + 1) else s
  end.

Record token := Token { tk_ret : Z; tk_q : Z; tk_eq : Z; tk_s : Z }.

(** The result, [*q], [*eq] and the new [*ps]. *)
Definition gettoken (m : mem) (s es : Z) : token :=
  let s := skip_space (Z.to_nat (es - s)) m s in
  let q := s in
  let c := m s in
  let '(ret, s) :=
    if c =? 0 then (0, s)
    else if existsb (Z.eqb c) [124; 40; 41; 59; 38; 60] then (c, s + 1)
    else if c =? 62 then if m (s + 1) =? 62 then (43, s + 1 + 1) else (c, s + 1)
    else (97, word_end (Z.to_nat (es - s)) m s) in
  Token ret q s (skip_space (Z.to_nat (es - s)) m s).

Definition peek (m : mem) (s es : Z) (toks : list Z) : bool * Z :=
  let s := skip_space (Z.to_nat (es - s)) m s in
  (negb (m s =? 0) && strchr toks (m s), s).

Definition memory : M sh mem := gets sh_mem.

(** ** The parser

    Every function returns its command and the new value of [*ps]. *)

(** The loop of [parseredirs]. *)
Fixpoint parseredirs_loop (fuel : nat) (cmd s es : Z) : M sh (Z * Z) :=
  match fuel with
  | O => no_fuel
  | S fuel =>
    m ← memory;
    let '(more, s) := peek m s es [60; 62] in
    if more then
      let t := gettoken m s es in
      let f := gettoken m (tk_s t) es in
      if negb (tk_ret f =? 97) then panic "missing file for redirection"
      else
        cmd ← (if tk_ret t =? 60 then redircmd cmd (tk_q f) (tk_eq f) ["O_RDONLY"] 0
               else if tk_ret t =? 62 then redircmd cmd (tk_q f) (tk_eq f) ["O_WRONLY"; "O_CREAT"] 1
               else if tk_ret t =? 43 then redircmd cmd (tk_q f) (tk_eq f) ["O_WRONLY"; "O_CREAT"] 1
               else mret cmd);
        parseredirs_loop fuel cmd (tk_s f) es
    else mret (cmd, s)
  end.
Definition parseredirs (cmd s es : Z) : M sh (Z * Z) :=
  parseredirs_loop (Z.to_nat (es - s) + 1) cmd s es.

(** The loop of [parseexec]: [cmd] is the [struct execcmd], [ret] what is
    returned. *)
Fixpoint args_loop (fuel : nat) (cmd ret argc s es : Z) : M sh (Z * Z * Z) :=
  match fuel with
  | O => no_fuel
  | S fuel =>
    m ← memory;
    let '(stop, s) := peek m s es [124; 41; 38; 59] in
    if stop then mret (ret, argc, s)
    else
      let t := gettoken m s es in
      if tk_ret t =? 0 then mret (ret, argc, tk_s t)
      else if negb (tk_ret t =? 97) then panic "syntax"
      else
        '(argv, eargv) ← get_exec cmd;
        put_node cmd (NExec (<[Z.to_nat argc := tk_q t]> argv) (<[Z.to_nat argc := tk_eq t]> eargv)) ;;
        if MAXARGS <=? argc + 1 then panic "too many args"
        else
          '(ret, s) ← parseredirs ret (tk_s t) es;
          args_loop fuel cmd ret (argc + 1) s es
  end.

(** The loop of [parseline]. *)
Fixpoint back_loop (fuel : nat) (cmd s es : Z) : M sh (Z * Z) :=
  match fuel with
  | O => no_fuel
  | S fuel =>
    m ← memory;
    let '(more, s) := peek m s es [38] in
    if more then
      cmd ← backcmd cmd;
      back_loop fuel cmd (tk_s (gettoken m s es)) es
    else mret (cmd, s)
  end.

Fixpoint parseline (fuel : nat) (s es : Z) : M sh (Z * Z) :=
  match fuel with
  | O => no_fuel
  | S fuel =>
    '(cmd, s) ← parsepipe fuel s es;
    '(cmd, s) ← back_loop (Z.to_nat (es - s) + 1) cmd s es;
    m ← memory;
    let '(more, s) := peek m s es [59] in
    if more then
      '(rest, s) ← parseline fuel (tk_s (gettoken m s es)) es;
      cmd ← listcmd cmd rest;
      mret (cmd, s)
    else mret (cmd, s)
  end
with parsepipe (fuel : nat) (s es : Z) : M sh (Z * Z) :=
  match fuel with
  | O => no_fuel
  | S fuel =>
    '(cmd, s) ← parseexec fuel s es;
    m ← memory;
    let '(more, s) := peek m s es [124] in
    if more then
      '(rest, s) ← parsepipe fuel (tk_s (gettoken m s es)) es;
      cmd ← pipecmd cmd rest;
      mret (cmd, s)
    else mret (cmd, s)
  end
with parseexec (fuel : nat) (s es : Z) : M sh (Z * Z) :=
  match fuel with
  | O => no_fuel
  | S fuel =>
    m ← memory;
    let '(block, s) := peek m s es [40] in
    if block then parseblock fuel s es
    else
      cmd ← execcmd;
      '(ret, s) ← parseredirs cmd s es;
      '(ret, argc, s) ← args_loop (Z.to_nat (es - s) + 1) cmd ret 0 s es;
      '(argv, eargv) ← get_exec cmd;
      put_node cmd (NExec (<[Z.to_nat argc := 0]> argv) (<[Z.to_nat argc := 0]> eargv)) ;;
      mret (ret, s)
  end
with parseblock (fuel : nat) (s es : Z) : M sh (Z * Z) :=
  match fuel with
  | O => no_fuel
  | S fuel =>
    m ← memory;
    let '(open, s) := peek m s es [40] in
    if negb open then panic "parseblock"
    else
      '(cmd, s) ← parseline fuel (tk_s (gettoken m s es)) es;
      let '(close, s) := peek m s es [41] in
      if negb close then panic "syntax - missing )"
      else parseredirs cmd (tk_s (gettoken m s es)) es
  end.

(** ** Termination of the strings *)

Definition put_null (a : Z) : M sh () :=
  modify (λ s, Sh (upd (sh_mem s) a 0) (sh_heap s) (sh_used s)).

(** The loop over the arguments. *)
Fixpoint null_args (argv eargv : list Z) : M sh () :=
  match argv, eargv with
  | a :: argv, e :: eargv => if a =? 0 then mret () else put_null e ;; null_args argv eargv
  | _, _ => undef "argv"
  end.
Fixpoint nulterminate (fuel : nat) (cmd : Z) : M sh () :=
  match fuel with
  | O => no_fuel
  | S fuel =>
    if cmd =? 0 then mret ()
    else
      n ← get_node cmd;
      match n with
      | NExec argv eargv => null_args argv eargv
      | NRedir cmd _ efile _ _ => nulterminate fuel cmd ;; put_null efile
      | NPipe l r => nulterminate fuel l ;; nulterminate fuel r
      | NList l r => nulterminate fuel l ;; nulterminate fuel r
      | NBack cmd => nulterminate fuel cmd
      end
  end.

(** [nbuf] bounds the length of the string.  Each function of the parser takes
    at most four calls to get past a character, and a command has at most MAXN
    bytes of structures. *)
Definition parsecmd (nbuf : nat) (s : Z) : M sh Z :=
  m ← memory;
  match strlen nbuf m s with
  | None => no_fuel
  | Some n =>
    let es := s + n in
    '(cmd, s) ← parseline (4 * Z.to_nat n + 4) s es;
    let '(_, s) := peek m s es [] in
    if negb (s =? es) then panic "syntax"
    else nulterminate (Z.to_nat MAXN) cmd ;; mret cmd
  end.

(** ** Running commands *)

(** The functions of the C library that are called, with the strings that
    their arguments point to; [Fgets] gives the bytes stored, or [None] at the
    end of the input, and [Pipe] the result and the two descriptors. *)
Inductive call : Type → Type :=
| Execv (path : list Z) (argv : list (list Z)) : call Z
| Open (file : list Z) (mode : list string) : call Z
| Close (fd : Z) : call Z
| Dup (fd : Z) : call Z
| PipeFd : call (Z * Z * Z)
| Fork : call Z
| Wait : call Z
| Chdir (path : list Z) : call Z
| Fgets (n : Z) : call (option (list Z))
| Print (format : string) (arg : list Z) : call unit.

(** [Stuck]: a bad pointer is followed. *)
Inductive prog : Type :=
| Exit (status : Z)
| Do {A : Type} (c : call A) (k : A → prog)
| Stuck
| Out_of_fuel.

Definition sh_panic (s : string) : prog := Do (Print s []) (λ _, Exit 1).

(** [if (fork1() == 0) child], and then [parent]. *)
Definition fork1 (child parent : prog) : prog :=
  Do Fork (λ pid, if pid =? -1 then sh_panic "fork" else if pid =? 0 then child else parent).

Section Run.
Context (m : mem) (h : Z → option node).

(** The string at [a], of at most [n] characters. *)
Fixpoint get_str (n : nat) (a : Z) : list Z :=
  match n with
  | O => []
  | S n => if m a =? 0 then [] else m a :: get_str n (a + 1)
  end.
Context (nbuf : nat).
Fixpoint get_argv (argv : list Z) : list (list Z) :=
  match argv with
  | [] => []
  | a :: argv => if a =? 0 then [] else get_str nbuf a :: get_argv argv
  end.

Fixpoint runcmd (fuel : nat) (cmd : Z) : prog :=
  match fuel with
  | O => Out_of_fuel
  | S fuel =>
    if cmd =? 0 then Exit 0
    else match h cmd with
    | None => Stuck
    | Some (NExec argv _) =>
      match argv with
      | [] => Stuck
      | a :: _ =>
        if a =? 0 then Exit 0
        else Do (Execv (get_str nbuf a) (get_argv argv)) (λ _,
             Do (Print "exec %s failed" (get_str nbuf a)) (λ _, Exit 0))
      end
    | Some (NRedir c file _ mode fd) =>
      Do (Close fd) (λ _,
      Do (Open (get_str nbuf file) mode) (λ r,
      if r <? 0 then Do (Print "open %s failed" (get_str nbuf file)) (λ _, Exit 1)
      else runcmd fuel c))
    | Some (NList l r) => fork1 (runcmd fuel l) (Do Wait (λ _, runcmd fuel r))
    | Some (NPipe l r) =>
      Do PipeFd (λ '(r0, p0, p1),
      if r0 <? 0 then sh_panic "pipe"
      else
        fork1 (Do (Close 1) (λ _, Do (Dup p1) (λ _, Do (Close p0) (λ _, Do (Close p1) (λ _, runcmd fuel l)))))
       (fork1 (Do (Close 0) (λ _, Do (Dup p0) (λ _, Do (Close p0) (λ _, Do (Close p1) (λ _, runcmd fuel r)))))
       (Do (Close p0) (λ _, Do (Close p1) (λ _, Do Wait (λ _, Do Wait (λ _, Exit 0)))))))
    | Some (NBack c) => fork1 (runcmd fuel c) (Exit 0)
    end
  end.
End Run.

(** ** The main loop *)

Definition BUFSIZE : Z := 100.

(** The first loop of [main], [n] times at most. *)
Fixpoint open_console (n : nat) (next : prog) : prog :=
  match n with
  | O => Out_of_fuel
  | S n =>
    Do (Open [99; 111; 110; 115; 111; 108; 101] ["O_RDWR"]) (λ fd,
    if fd <? 0 then next
    else if 3 <=? fd then Do (Close fd) (λ _, next)
    else open_console n next)
  end.

(** What the child does with the line in the buffer. *)
Definition child (buf : Z) (s : sh) : prog :=
  match parsecmd (Z.to_nat BUFSIZE) buf s with
  | Ret cmd s => runcmd (sh_mem s) (sh_heap s) (Z.to_nat BUFSIZE) (Z.to_nat MAXN) cmd
  | Panic msg => sh_panic msg
  | NoFuel => Out_of_fuel
  | _ => Stuck
  end.

(** The second loop: [n] lines at most. *)
Fixpoint command_loop (n : nat) (buf : Z) (s : sh) : prog :=
  match n with
  | O => Out_of_fuel
  | S n =>
    Do (Print "$ " []) (λ _,
    Do (Fgets BUFSIZE) (λ r,
    let m := memset (sh_mem s) buf 0 BUFSIZE in
    let m := match r with None => m | Some l => mwrite m buf l end in
    let s := Sh m (sh_heap s) (sh_used s) in
    if m buf =? 0 then Exit 0
    else if (m buf =? 99) && (m (buf + 1) =? 100) && (m (buf + 2) =? 32) then
      match strlen (Z.to_nat BUFSIZE) m buf with
      | None => Stuck
      | Some len =>
        let m := upd m (buf + len - 1) 0 in
        let dir := get_str m (Z.to_nat BUFSIZE) (buf + 3) in
        let s := Sh m (sh_heap s) (sh_used s) in
        Do (Chdir dir) (λ r,
        if r <? 0 then Do (Print "cannot cd %s" dir) (λ _, command_loop n buf s)
        else command_loop n buf s)
      end
    else fork1 (child buf s) (Do Wait (λ _, command_loop n buf s))))
  end.
Definition main (n lines : nat) (buf : Z) (s : sh) : prog := open_console n (command_loop lines buf s).
End Sh.
