(* ===== verification/ShSpec.v ===== *)
(** The parser of the shell against its grammar.

    [lexes] says which tokens a line consists of, [g_line] which command a
    list of tokens stands for, and [rep] that the structures built in memory
    are this command.  [parsecmd_sound]: whatever the line, [parsecmd] either
    exits with a message or returns the command that the grammar gives to the
    whole line, with its strings null-terminated in place. *)

From S2P Require Import Prelude Memory CString Sh.

(** ** Lines and tokens *)

Inductive tok := TWord (w : list Z) | TSym (c : Z) | TAppend.

Definition word_char (c : Z) : Prop := c ≠ 0 ∧ c ∉ whitespace ∧ c ∉ symbols.
#[export] Instance word_char_dec c : Decision (word_char c) := _.

(** A word ends where the characters of words end. *)
Inductive lexes : list Z → list tok → Prop :=
| lx_end : lexes [] []
| lx_space c l ts : c ∈ whitespace → lexes l ts → lexes (c :: l) ts
| lx_sym c l ts : c ∈ symbols → c ≠ 62 → lexes l ts → lexes (c :: l) (TSym c :: ts)
| lx_output l ts : head l ≠ Some 62 → lexes l ts → lexes (62 :: l) (TSym 62 :: ts)
| lx_append l ts : lexes l ts → lexes (62 :: 62 :: l) (TAppend :: ts)
| lx_word w l ts :
    w ≠ [] → Forall word_char w → (∀ c, head l = Some c → ¬ word_char c) →
    lexes l ts → lexes (w ++ l) (TWord w :: ts).

Lemma lexes_nil ts : lexes [] ts → ts = [].
Proof.
  remember [] as l eqn:Hl. intros H. destruct H as [| | | | |w l us Hw]; try done.
  apply app_nil in Hl as [-> _]. done.
Qed.

(** ** Commands *)

Inductive dir := Input | Output | Append.

Inductive com :=
| Simple (args : list (list Z))
| Redir (c : com) (d : dir) (file : list Z)
| Pipe (l r : com)
| List (l r : com)
| Back (c : com).

Definition dir_tok (d : dir) : tok :=
  match d with Input => TSym 60 | Output => TSym 62 | Append => TAppend end.
Definition wrap (rs : list (dir * list Z)) (c : com) : com := foldl (λ c r, Redir c r.1 r.2) c rs.
Definition redir_toks (r : dir * list Z) : list tok := [dir_tok r.1; TWord r.2].

(** Words and redirections of a simple command come in any order. *)
Inductive item := IWord (w : list Z) | IRedir (r : dir * list Z).
Definition item_toks (i : item) : list tok :=
  match i with IWord w => [TWord w] | IRedir r => redir_toks r end.
Definition item_args (l : list item) : list (list Z) :=
  omap (λ i, match i with IWord w => Some w | _ => None end) l.
Definition item_redirs (l : list item) : list (dir * list Z) :=
  omap (λ i, match i with IRedir r => Some r | _ => None end) l.

Lemma redir_items_toks rs l :
  (map IRedir rs ++ l) ≫= item_toks = (rs ≫= redir_toks) ++ (l ≫= item_toks).
Proof. rewrite bind_app. f_equal. induction rs as [|r rs IH]; cbn; [done|]. by rewrite <-IH. Qed.
Lemma redir_items_args rs l : item_args (map IRedir rs ++ l) = item_args l.
Proof. unfold item_args. rewrite omap_app. by induction rs. Qed.
Lemma redir_items_redirs rs l : item_redirs (map IRedir rs ++ l) = rs ++ item_redirs l.
Proof. unfold item_redirs. rewrite omap_app. f_equal. induction rs as [|r rs IH]; cbn; [done|]. by f_equal. Qed.

Inductive g_line : list tok → com → Prop :=
| gl_pipe ts c n : g_pipe ts c → g_line (ts ++ replicate n (TSym 38)) (Nat.iter n Back c)
| gl_list ts c n ts' c' :
    g_pipe ts c → g_line ts' c' →
    g_line (ts ++ replicate n (TSym 38) ++ TSym 59 :: ts') (List (Nat.iter n Back c) c')
with g_pipe : list tok → com → Prop :=
| gp_exec ts c : g_exec ts c → g_pipe ts c
| gp_pipe ts c ts' c' : g_exec ts c → g_pipe ts' c' → g_pipe (ts ++ TSym 124 :: ts') (Pipe c c')
with g_exec : list tok → com → Prop :=
| ge_simple l :
    Z.of_nat (length (item_args l)) < MAXARGS →
    g_exec (l ≫= item_toks) (wrap (item_redirs l) (Simple (item_args l)))
| ge_block ts c rs : g_line ts c → g_exec (TSym 40 :: ts ++ TSym 41 :: (rs ≫= redir_toks)) (wrap rs c).

(** The memory that the structures of a command take. *)
Fixpoint cost (c : com) : Z :=
  match c with
  | Simple _ => 168
  | Redir c _ _ => cost c + 40
  | Pipe l r | List l r => cost l + cost r + 24
  | Back c => cost c + 16
  end.
Fixpoint depth (c : com) : nat :=
  match c with
  | Simple _ => 1
  | Redir c _ _ | Back c => S (depth c)
  | Pipe l r | List l r => S (depth l `max` depth r)
  end.

Lemma depth_cost c : Z.of_nat (depth c) ≤ cost c.
Proof. induction c; cbn [depth cost]; lia. Qed.

(** ** Commands in memory *)

Definition dir_mode (d : dir) : list string * Z :=
  match d with Input => (["O_RDONLY"], 0) | _ => (["O_WRONLY"; "O_CREAT"], 1) end.

(** [P q e w]: the word [w] is at [q], up to [e]. *)
Section Rep.
Context (P : Z → Z → list Z → Prop).

Record args_rep (argv eargv : list Z) (args : list (list Z)) : Prop := {
  ar_argv : length argv = Z.to_nat MAXARGS;
  ar_eargv : length eargv = Z.to_nat MAXARGS;
  ar_words i w : args !! i = Some w →
    ∃ q e, argv !! i = Some q ∧ eargv !! i = Some e ∧ q ≠ 0 ∧ P q e w;
}.

Inductive rep (h : Z → option node) : Z → com → Prop :=
| rep_exec p argv eargv args :
    h p = Some (NExec argv eargv) → args_rep argv eargv args →
    argv !! length args = Some 0 → rep h p (Simple args)
| rep_redir p p' q e d w c :
    h p = Some (NRedir p' q e (dir_mode d).1 (dir_mode d).2) → P q e w → rep h p' c → rep h p (Redir c d w)
| rep_pipe p l r c c' : h p = Some (NPipe l r) → rep h l c → rep h r c' → rep h p (Pipe c c')
| rep_list p l r c c' : h p = Some (NList l r) → rep h l c → rep h r c' → rep h p (List c c')
| rep_back p p' c : h p = Some (NBack p') → rep h p' c → rep h p (Back c).

(** The redirections [rs] around the command at [p']. *)
Inductive chain (h : Z → option node) : Z → Z → list (dir * list Z) → Prop :=
| ch_nil p : chain h p p []
| ch_snoc p p1 p' q e d w rs :
    h p = Some (NRedir p1 q e (dir_mode d).1 (dir_mode d).2) → P q e w →
    chain h p1 p' rs → chain h p p' (rs ++ [(d, w)]).

Lemma chain_rep h p p' rs c : chain h p p' rs → rep h p' c → rep h p (wrap rs c).
Proof.
  intros Hc Hr. induction Hc as [|p p1 p' q e d w rs Hp Hw _ IH]; [done|].
  unfold wrap. rewrite foldl_app. cbn. eapply rep_redir; eauto.
Qed.
End Rep.

(** A string of the finished command, and a command whose strings are so. *)
Definition string_at (m : mem) (n : nat) (q e : Z) (w : list Z) : Prop :=
  cstr m q w ∧ e = q + Z.of_nat (length w) ∧ (length w ≤ n)%nat ∧ w ≠ [].
Definition represents (n : nat) (σ : sh) (p : Z) (c : com) : Prop :=
  rep (string_at (sh_mem σ) n) (sh_heap σ) p c.

Create HintDb sh.
#[export] Hint Constructors rep chain lexes : sh.

(** ** The lexer *)

Lemma existsb_elem l c : existsb (Z.eqb c) l = true ↔ c ∈ l.
Proof.
  rewrite existsb_exists. setoid_rewrite Z.eqb_eq. split.
  - intros (x & Hx & ->). by apply list_elem_of_In.
  - intros Hc. exists c. by rewrite <-list_elem_of_In.
Qed.
Lemma strchr_elem l c : strchr l c = true ↔ c ∈ l ∨ c = 0.
Proof. unfold strchr. by rewrite orb_true_iff, existsb_elem, Z.eqb_eq. Qed.
Lemma word_char_strchr c : word_char c ↔ strchr whitespace c = false ∧ strchr symbols c = false.
Proof.
  rewrite <-!not_true_iff_false, !strchr_elem. unfold word_char. tauto.
Qed.
Lemma space_not_word c : c ∈ whitespace → ¬ word_char c.
Proof. intros ? (_ & ? & _). done. Qed.
Lemma symbol_not_word c : c ∈ symbols → ¬ word_char c.
Proof. intros ? (_ & _ & ?). done. Qed.
Lemma space_not_symbol c : c ∈ whitespace → c ∉ symbols.
Proof. unfold whitespace, symbols. set_solver by lia. Qed.
Ltac sym := unfold symbols; set_solver.
#[export] Hint Resolve space_not_word symbol_not_word : sh.

Section Lexer.
Context (m : mem) (es : Z).

Definition str (s : Z) : list Z := mbytes m s (Z.to_nat (es - s)).

Lemma str_end : str es = [].
Proof. unfold str. by rewrite Z.sub_diag. Qed.
Lemma str_cons s : s < es → str s = m s :: str (s + 1).
Proof.
  intros Hs. unfold str. replace (Z.to_nat (es - s)) with (S (Z.to_nat (es - (s + 1)))) by lia. done.
Qed.
Lemma str_app s n : 0 ≤ n → s + n ≤ es → str s = mbytes m s (Z.to_nat n) ++ str (s + n).
Proof.
  intros Hn. revert s. pattern n. apply natlike_ind; [| |done].
  - intros s _. cbn. by rewrite Z.add_0_r.
  - intros k Hk IH s Hs. rewrite str_cons, (IH (s + 1)) by lia.
    rewrite Z2Nat.inj_succ by done. cbn. do 2 f_equal. f_equal. lia.
Qed.

Context (s0 : Z) (Hline : ∀ x, s0 ≤ x < es → m x ≠ 0) (Hes : m es = 0).

Lemma skip_space_spec s :
  s0 ≤ s ≤ es → let s' := skip_space (Z.to_nat (es - s)) m s in
  s ≤ s' ≤ es ∧ m s' ∉ whitespace ∧ (∀ ts, lexes (str s') ts → lexes (str s) ts) ∧
  skip_space (Z.to_nat (es - s')) m s' = s'.
Proof.
  cbv zeta. remember (Z.to_nat (es - s)) as n eqn:Hn. revert s Hn. induction n as [|n IH]; intros s Hn Hs; cbn [skip_space].
  - assert (s = es) as -> by lia. split; [lia|]. split; [|split; [done|by rewrite Z.sub_diag]].
    rewrite Hes. unfold whitespace. set_solver by lia.
  - destruct (strchr whitespace (m s)) eqn:Hw.
    + destruct (IH (s + 1) ltac:(lia) ltac:(lia)) as (H1 & H2 & H3 & H4). split; [lia|]. split; [done|]. split; [|done].
      intros ts Hts. rewrite (str_cons s) by lia. apply strchr_elem in Hw as [Hw|Hw]; [|by destruct (Hline s ltac:(lia))].
      apply lx_space; [done|]. by apply H3.
    + split; [lia|]. split; [|split; [done|]].
      * intros ?. apply not_true_iff_false in Hw. rewrite strchr_elem in Hw. tauto.
      * rewrite <-Hn. cbn [skip_space]. by rewrite Hw.
Qed.

Lemma word_end_spec s :
  s0 ≤ s ≤ es → let e := word_end (Z.to_nat (es - s)) m s in
  s ≤ e ≤ es ∧ ¬ word_char (m e) ∧ Forall word_char (mbytes m s (Z.to_nat (e - s))) ∧ (word_char (m s) → s < e).
Proof.
  cbv zeta. remember (Z.to_nat (es - s)) as n eqn:Hn. revert s Hn. induction n as [|n IH]; intros s Hn Hs; cbn [word_end].
  - assert (s = es) as -> by lia. split; [lia|]. rewrite Hes, Z.sub_diag. split; [by intros [? _]|]. split; [constructor|by intros [? _]].
  - destruct (decide (word_char (m s))) as [Hw|Hw].
    + pose proof Hw as [-> ->]%word_char_strchr. cbn [negb andb].
      destruct (IH (s + 1) ltac:(lia) ltac:(lia)) as (H1 & H2 & H3 & _). split; [lia|]. split; [done|]. split; [|lia].
      replace (Z.to_nat (_ - s)) with (S (Z.to_nat (word_end n m (s + 1) - (s + 1)))) by lia. cbn. by constructor.
    + assert (negb (strchr whitespace (m s)) && negb (strchr symbols (m s)) = false) as ->.
      { rewrite word_char_strchr in Hw. destruct (strchr whitespace (m s)), (strchr symbols (m s)); try done. by destruct Hw. }
      split; [lia|]. split; [done|]. rewrite Z.sub_diag. split; [constructor|done].
Qed.

Definition word_at (q e : Z) (w : list Z) : Prop :=
  mbytes m q (length w) = w ∧ e = q + Z.of_nat (length w) ∧ Forall word_char w ∧ ¬ word_char (m e) ∧ s0 ≤ q ∧ e ≤ es ∧ w ≠ [].

(** What [gettoken] returns for a token, and for none. *)
Definition ret_of (k : option tok) : Z :=
  match k with None => 0 | Some (TWord _) => 97 | Some (TSym c) => c | Some TAppend => 43 end.
Definition tok_at (t : token) (k : tok) : Prop :=
  match k with TWord w => word_at (tk_q t) (tk_eq t) w | TSym c => c ∈ symbols | TAppend => True end.

Lemma gettoken_spec s :
  s0 ≤ s ≤ es → let t := gettoken m s es in
  ∃ k, tk_ret t = ret_of k ∧ s ≤ tk_s t ≤ es ∧
    match k with
    | None => tk_s t = es ∧ lexes (str s) []
    | Some k => s < tk_s t ∧ tok_at t k ∧ ∀ ts, lexes (str (tk_s t)) ts → lexes (str s) (k :: ts)
    end.
Proof.
  intros Hs. destruct (skip_space_spec s Hs) as (H1 & H2 & H3 & H4). cbv zeta in *. unfold gettoken.
  set (q := skip_space (Z.to_nat (es - s)) m s) in *.
  assert (∀ x, s0 ≤ x ≤ es → let s' := skip_space (Z.to_nat (es - x)) m x in
            x ≤ s' ≤ es ∧ ∀ ts, lexes (str s') ts → lexes (str x) ts) as Hskip.
  { intros x Hx. destruct (skip_space_spec x Hx) as (? & _ & ? & _). by split. }
  destruct (Z.eqb_spec (m q) 0) as [Hz|Hz].
  { assert (q = es) as Hq by (destruct (decide (q = es)); [done|]; by destruct (Hline q ltac:(lia))).
    exists None. cbn [tk_ret tk_s ret_of]. rewrite H4, Hq. split; [done|]. split; [lia|]. split; [done|].
    apply H3. rewrite Hq, str_end. constructor. }
  assert (q < es) as Hq by (destruct (decide (q = es)) as [->|]; [done|lia]).
  destruct (existsb _ _) eqn:Hsym.
  { apply existsb_elem in Hsym. destruct (Hskip (q + 1) ltac:(lia)) as [H5 H6].
    assert (m q ∈ symbols) as Hmq by (revert Hsym; unfold symbols; set_solver).
    exists (Some (TSym (m q))). cbn [tk_ret tk_s ret_of tok_at]. split; [done|]. split; [lia|]. split; [lia|]. split; [done|].
    intros ts Hts. apply H3. rewrite str_cons by lia. apply lx_sym; [done| |by apply H6].
    intros Hm. rewrite Hm in Hsym. revert Hsym. set_solver by lia. }
  destruct (Z.eqb_spec (m q) 62) as [Hgt|Hgt].
  { destruct (Z.eqb_spec (m (q + 1)) 62) as [Hgt'|Hgt'].
    - assert (q + 1 < es) by (destruct (decide (q + 1 = es)) as [He|]; [rewrite He in Hgt'; congruence|lia]).
      destruct (Hskip (q + 1 + 1) ltac:(lia)) as [H5 H6].
      exists (Some TAppend). cbn [tk_ret tk_s ret_of tok_at]. split; [done|]. split; [lia|]. split; [lia|]. split; [done|].
      intros ts Hts. apply H3. rewrite str_cons, Hgt, (str_cons (q + 1)), Hgt' by lia. apply lx_append. by apply H6.
    - destruct (Hskip (q + 1) ltac:(lia)) as [H5 H6]. exists (Some (TSym (m q))). rewrite Hgt.
      cbn [tk_ret tk_s ret_of tok_at]. split; [done|]. split; [lia|]. split; [lia|].
      split; [unfold symbols; set_solver|].
      intros ts Hts. apply H3. rewrite str_cons, Hgt by lia. apply lx_output; [|by apply H6].
      destruct (decide (q + 1 = es)) as [->|]; [by rewrite str_end|]. rewrite str_cons by lia. cbn. congruence. }
  destruct (word_end_spec q ltac:(lia)) as (H5 & H6 & H7 & H8). cbv zeta in *.
  set (e := word_end (Z.to_nat (es - q)) m q) in *.
  assert (word_char (m q)) as Hw.
  { split; [done|]. split; [done|]. intros Hin. apply not_true_iff_false in Hsym. rewrite existsb_elem in Hsym.
    revert Hin Hsym Hgt. unfold symbols. set_solver. }
  specialize (H8 Hw). destruct (Hskip e ltac:(lia)) as [H9 H10].
  exists (Some (TWord (mbytes m q (Z.to_nat (e - q))))). cbn [tk_ret tk_s ret_of tok_at tk_q tk_eq].
  split; [done|]. split; [lia|]. split; [lia|]. split.
  - assert (mbytes m q (Z.to_nat (e - q)) ≠ []).
    { intros Hn. apply (f_equal length) in Hn. rewrite length_mbytes in Hn. cbn in Hn. lia. }
    unfold word_at. rewrite !length_mbytes. split_and!; try done; lia.
  - intros ts Hts. apply H3. rewrite (str_app q (e - q)) by lia. replace (q + (e - q)) with e by lia. apply lx_word; [|done| |by apply H10].
    + intros Hn. apply (f_equal length) in Hn. rewrite length_mbytes in Hn. cbn in Hn. lia.
    + intros c Hc. destruct (decide (e = es)) as [He|]; [by rewrite He, str_end in Hc|].
      rewrite str_cons in Hc by lia. by injection Hc as <-.
Qed.

(** [peek] looks at the token that [gettoken] returns next. *)
Definition starts (toks : list Z) (r : Z) : bool := existsb (Z.eqb (if r =? 43 then 62 else r)) toks.

Lemma peek_spec s toks :
  s0 ≤ s ≤ es → Forall (λ c, c ∈ symbols) toks →
  ∃ s1, peek m s es toks = (starts toks (tk_ret (gettoken m s es)), s1) ∧ s ≤ s1 ≤ es ∧
    gettoken m s1 es = gettoken m s es ∧ (∀ ts, lexes (str s1) ts → lexes (str s) ts).
Proof.
  intros Hs Ht. destruct (skip_space_spec s Hs) as (H1 & H2 & H3 & H4). cbv zeta in *. unfold peek.
  exists (skip_space (Z.to_nat (es - s)) m s). split; [|split; [done|split; [|done]]].
  - f_equal. unfold gettoken. set (q := skip_space (Z.to_nat (es - s)) m s) in *.
    assert (∀ c, c ∉ symbols → existsb (Z.eqb c) toks = false) as Hno.
    { intros c Hc. apply not_true_iff_false. rewrite existsb_elem. intros Hin. rewrite Forall_forall in Ht. auto. }
    assert (0 ∉ symbols ∧ 97 ∉ symbols ∧ 43 ∉ symbols) as (N0 & N97 & N43) by (unfold symbols; set_solver by lia).
    unfold starts, strchr. destruct (Z.eqb_spec (m q) 0) as [->|Hz]; cbn [tk_ret negb andb].
    { by rewrite Hno. }
    rewrite orb_false_r. destruct (existsb _ [124; 40; 41; 59; 38; 60]) eqn:Hsym; cbn [tk_ret].
    { destruct (Z.eqb_spec (m q) 43) as [Hm|]; [|done]. rewrite Hm in Hsym. done. }
    destruct (Z.eqb_spec (m q) 62) as [->|Hgt].
    { by destruct (m (q + 1) =? 62). }
    cbn [tk_ret]. change (97 =? 43) with false. cbv iota. rewrite !Hno; [done|done|].
    intros Hin. apply not_true_iff_false in Hsym. rewrite existsb_elem in Hsym.
    revert Hin Hsym Hgt. unfold symbols. set_solver.
  - unfold gettoken. by rewrite H4.
Qed.
End Lexer.

(** ** Soundness of the parser *)

(** [r] returns with [Q], or exits with a message. *)
Definition safe {S A} (r : outcome S A) (Q : A → S → Prop) : Prop :=
  match r with Ret a s => Q a s | Panic _ => True | _ => False end.

Lemma safe_bind {S A B} (f : M S A) (k : A → M S B) s (Q : A → S → Prop) R :
  safe (f s) Q → (∀ a s', Q a s' → safe (k a s') R) → safe (mbind k f s) R.
Proof. unfold mbind, M_bind. destruct (f s); cbn; auto. Qed.
Lemma safe_mono {S A} (r : outcome S A) (Q R : A → S → Prop) :
  safe r Q → (∀ a s, Q a s → R a s) → safe r R.
Proof. destruct r; cbn; auto. Qed.

Section Parser.
Context (arena : Z) (Harena : 0 < arena).
Context (m : mem) (es s0 : Z) (Hs0 : 0 < s0) (Hline : ∀ x, s0 ≤ x < es → m x ≠ 0) (Hes : m es = 0).

Abbreviation str := (str m es).
Abbreviation word_at := (word_at m es s0).
Abbreviation tok_at := (tok_at m es s0).
Abbreviation rep := (rep word_at).
Abbreviation chain := (chain word_at).
Abbreviation args_rep := (args_rep word_at).
Implicit Types σ : sh.

Record wf σ : Prop := {
  wf_mem : sh_mem σ = m;
  wf_used : 0 ≤ sh_used σ ≤ MAXN;
  wf_heap a : is_Some (sh_heap σ a) → arena ≤ a < arena + sh_used σ;
}.

(** From [σ] to [σ'] the node at [q] may have changed, and [n] bytes of nodes
    are new. *)
Record ext_but (q : Z) (n : Z) σ σ' : Prop := {
  ext_used : sh_used σ' = sh_used σ + n;
  ext_heap a : a ≠ q → is_Some (sh_heap σ a) → sh_heap σ' a = sh_heap σ a;
}.
Abbreviation ext := (ext_but 0).

Lemma wf_not_null σ a : wf σ → is_Some (sh_heap σ a) → a ≠ 0.
Proof. intros Hw Ha. pose proof (wf_heap σ Hw a Ha). lia. Qed.
Lemma node_not_null σ a x : wf σ → sh_heap σ a = Some x → a ≠ 0.
Proof. intros Hw Ha. eapply wf_not_null; [done|]. by rewrite Ha. Qed.
Lemma ext_some q n σ σ' a x : ext_but q n σ σ' → a ≠ q → sh_heap σ a = Some x → sh_heap σ' a = Some x.
Proof. intros He Ha Hx. rewrite (ext_heap _ _ _ _ He); [done|done|]. by rewrite Hx. Qed.
Lemma ext_node n σ σ' a x : wf σ → ext n σ σ' → sh_heap σ a = Some x → sh_heap σ' a = Some x.
Proof. intros Hw He Ha. eapply ext_some; [done|by eapply node_not_null|done]. Qed.
Lemma ext_refl q σ : ext_but q 0 σ σ.
Proof. split; [lia|done]. Qed.
Lemma ext_trans q n n' σ σ1 σ2 : ext_but q n σ σ1 → ext_but q n' σ1 σ2 → ext_but q (n + n') σ σ2.
Proof.
  intros [H1 H2] [H3 H4]. split; [lia|]. intros a Ha Hs. rewrite H4, H2; try done. by rewrite H2.
Qed.
Lemma ext_weaken q n σ σ' : wf σ → ext n σ σ' → ext_but q n σ σ'.
Proof. intros Hw [H1 H2]. split; [done|]. intros a _ Ha. apply H2; [|done]. by eapply wf_not_null. Qed.
(** Changes to a node that is new do not matter. *)
Lemma ext_fresh q n n' σ σ1 σ2 :
  wf σ → ext n σ σ1 → sh_heap σ q = None → ext_but q n' σ1 σ2 → ext (n + n') σ σ2.
Proof.
  intros Hw [H1 H2] Hq [H3 H4]. split; [lia|]. intros a Ha Hs.
  assert (a ≠ q) by (intros ->; rewrite Hq in Hs; by destruct Hs). rewrite H4, H2; try done. by rewrite H2.
Qed.

Lemma rep_ext n σ σ' p c : wf σ → ext n σ σ' → rep (sh_heap σ) p c → rep (sh_heap σ') p c.
Proof.
  intros Hw He Hr.
  pose proof (λ a x, ext_node n σ σ' a x Hw He) as Hx. induction Hr; eauto with sh.
Qed.
(** A chain of redirections does not pass through a simple command. *)
Lemma chain_ext q n σ σ' p p' rs argv eargv :
  ext_but q n σ σ' → sh_heap σ q = Some (NExec argv eargv) → chain (sh_heap σ) p p' rs → chain (sh_heap σ') p p' rs.
Proof.
  intros He Hq Hc. induction Hc as [|p p1 p' f e d w rs Hp Hw _ IH]; [constructor|].
  assert (p ≠ q) as Hpq by congruence. pose proof (ext_some _ _ _ _ _ _ He Hpq Hp). by eapply ch_snoc.
Qed.
Lemma chain_app h p p1 p2 rs rs' : chain h p p1 rs' → chain h p1 p2 rs → chain h p p2 (rs ++ rs').
Proof.
  intros Hc Hc2. induction Hc as [|p p1 p' f e d w rs' Hp Hw _ IH]; [by rewrite app_nil_r|].
  rewrite app_assoc. eapply ch_snoc; [done|done|by apply IH].
Qed.
Lemma chain_ext_null n σ σ' p p' rs : wf σ → ext n σ σ' → chain (sh_heap σ) p p' rs → chain (sh_heap σ') p p' rs.
Proof.
  intros Hw He Hc. induction Hc as [|p p1 p' f e d w rs Hp Hq _ IH]; [constructor|].
  pose proof (ext_node _ _ _ _ _ Hw He Hp). by eapply ch_snoc.
Qed.

Lemma sizeof_pos n : 0 < sizeof n.
Proof. by destruct n. Qed.

Lemma new_node_safe n σ :
  wf σ → safe (new_node arena n σ) (λ p σ', wf σ' ∧ sh_heap σ p = None ∧ p ≠ 0 ∧
    sh_heap σ' p = Some n ∧ ext (sizeof n) σ σ').
Proof.
  intros [H1 H2 H3]. unfold new_node, malloc1, put_node, gets, modify, mbind, M_bind. cbn.
  destruct (Z.ltb_spec MAXN (sh_used σ + sizeof n)); [done|]. cbn. pose proof (sizeof_pos n) as Hn.
  assert (sh_heap σ (arena + sh_used σ) = None) as Hf.
  { destruct (sh_heap σ (arena + sh_used σ)) eqn:Hh; [|done].
    pose proof (H3 (arena + sh_used σ) ltac:(by eexists)). lia. }
  split; [split; cbn|split; [done|split; [lia|split; [by rewrite upd_eq|split; cbn]]]]; [done|lia| |lia|].
  - intros a. rewrite upd_case. destruct (decide (a = arena + sh_used σ)); [lia|]. intros Ha%H3. lia.
  - intros a _ Ha. rewrite upd_ne; [done|]. intros ->. rewrite Hf in Ha. by destruct Ha.
Qed.

(** The tokens between two positions. *)
Definition lexed (s s' : Z) (ts : list tok) : Prop := ∀ us, lexes (str s') us → lexes (str s) (ts ++ us).

Lemma lexed_app s s1 s2 ts ts' : lexed s s1 ts → lexed s1 s2 ts' → lexed s s2 (ts ++ ts').
Proof. intros H1 H2 us Hu. rewrite <-app_assoc. apply H1, H2, Hu. Qed.
Lemma lexed_refl s : lexed s s [].
Proof. by intros us. Qed.

Lemma peek_tok s toks :
  s0 ≤ s ≤ es → Forall (λ c, c ∈ symbols) toks →
  ∃ b s1, peek m s es toks = (b, s1) ∧ s ≤ s1 ≤ es ∧ lexed s s1 [] ∧
    (b = true → ∃ k, (k = TAppend ∧ 62 ∈ toks ∨ ∃ c, k = TSym c ∧ c ∈ toks) ∧
       let t := gettoken m s1 es in tk_ret t = ret_of (Some k) ∧ s < tk_s t ≤ es ∧ lexed s (tk_s t) [k]).
Proof.
  intros Hs Ht. destruct (peek_spec m es s0 Hline Hes s toks Hs Ht) as (s1 & Hp & Hs1 & Hg & Hl).
  exists (starts toks (tk_ret (gettoken m s es))), s1. rewrite Hg. split; [done|]. split; [done|]. split; [done|].
  intros Hb. destruct (gettoken_spec m es s0 Hline Hes s Hs) as (k & Hr & Hle & Hk). cbv zeta in *.
  rewrite Hr in Hb. unfold starts in Hb. apply existsb_elem in Hb.
  assert (∀ c, c ∉ symbols → c ∉ toks) as Hno by (intros c Hc Hin; rewrite Forall_forall in Ht; auto).
  destruct k as [k|]; [|destruct (Hno 0); [unfold symbols; set_solver by lia|done]].
  destruct Hk as (Hlt & Hat & Hlex). exists k. split; [|split; [done|split; [lia|done]]].
  destruct k as [w|c|]; cbn [ret_of] in Hb.
  - destruct (Hno 97); [unfold symbols; set_solver by lia|done].
  - right. exists c. split; [done|]. destruct (Z.eqb_spec c 43) as [Hc|]; [|done].
    cbn in Hat. rewrite Hc in Hat. unfold symbols in Hat. set_solver by lia.
  - by left.
Qed.

Lemma peek_sym s c :
  s0 ≤ s ≤ es → c ∈ symbols → c ≠ 62 →
  ∃ b s1, peek m s es [c] = (b, s1) ∧ s ≤ s1 ≤ es ∧ lexed s s1 [] ∧
    (b = true → s < tk_s (gettoken m s1 es) ≤ es ∧ lexed s (tk_s (gettoken m s1 es)) [TSym c]).
Proof.
  intros Hs Hc Hne. destruct (peek_tok s [c] Hs) as (b & s1 & -> & Hs1 & Hl1 & Hb); [by apply Forall_singleton|].
  exists b, s1. split; [done|]. split; [done|]. split; [done|]. intros Hbt.
  destruct (Hb Hbt) as (k & Hk & _ & Hlt & Hlex). cbv zeta in *.
  assert (k = TSym c) as ->; [|done].
  destruct Hk as [[_ Hk]|(c' & -> & ->%list_elem_of_singleton)]; [|done].
  apply list_elem_of_singleton in Hk. congruence.
Qed.

(** [gettoken] where a word is needed. *)
Lemma gettoken_word s :
  s0 ≤ s ≤ es → let t := gettoken m s es in tk_ret t = 97 →
  ∃ w, s < tk_s t ≤ es ∧ word_at (tk_q t) (tk_eq t) w ∧ lexed s (tk_s t) [TWord w].
Proof.
  intros Hs t Hr. destruct (gettoken_spec m es s0 Hline Hes s Hs) as (k & Hr' & Hle & Hk). cbv zeta in *. fold t in Hr', Hle, Hk.
  destruct k as [[w|c|]|]; cbn [ret_of] in Hr'.
  - destruct Hk as (? & ? & ?). exists w. split; [lia|]. by split.
  - destruct Hk as (_ & Hat & _). cbn in Hat. rewrite <-Hr', Hr in Hat. unfold symbols in Hat. set_solver by lia.
  - lia.
  - lia.
Qed.

Definition redir_size (rs : list (dir * list Z)) : Z := 40 * Z.of_nat (length rs).

Lemma parseredirs_loop_safe fuel : ∀ cmd s σ,
  wf σ → s0 ≤ s ≤ es → es - s < Z.of_nat fuel →
  safe (parseredirs_loop arena fuel cmd s es σ) (λ r σ',
    wf σ' ∧ s ≤ r.2 ≤ es ∧
    ∃ rs, lexed s r.2 (rs ≫= redir_toks) ∧ chain (sh_heap σ') r.1 cmd rs ∧ ext (redir_size rs) σ σ').
Proof.
  induction fuel as [|fuel IH]; intros cmd s σ Hw Hs Hf; [lia|]. cbn [parseredirs_loop].
  unfold memory. erewrite mbind_ret by reflexivity. rewrite (wf_mem σ Hw).
  destruct (peek_tok s [60; 62] Hs) as (b & s1 & -> & Hs1 & Hl1 & Hb).
  { unfold symbols. repeat constructor; set_solver. }
  destruct b; [|split; [done|split; [done|exists []; split; [done|split; [constructor|apply ext_refl]]]]].
  destruct (Hb eq_refl) as (k & Hk & Hr & Hlt & Hlex). cbv zeta in *. set (t := gettoken m s1 es) in *.
  destruct (negb _) eqn:Hword; [done|]. apply negb_false_iff, Z.eqb_eq in Hword.
  destruct (gettoken_word (tk_s t) ltac:(lia) Hword) as (w & Hlt2 & Hat & Hlex2). cbv zeta in *.
  set (f := gettoken m (tk_s t) es) in *.
  assert (∃ d, k = dir_tok d) as [d Hd].
  { destruct Hk as [[-> _]|(c & -> & Hc)]; [by exists Append|].
    apply elem_of_cons in Hc as [->|Hc]; [by exists Input|]. apply list_elem_of_singleton in Hc as ->. by exists Output. }
  eapply (safe_bind _ _ _ (λ p σ1, wf σ1 ∧ chain (sh_heap σ1) p cmd [(d, w)] ∧ ext 40 σ σ1)).
  { assert (∀ md, md = dir_mode d →
      safe (redircmd arena cmd (tk_q f) (tk_eq f) md.1 md.2 σ) (λ p σ1, wf σ1 ∧ chain (sh_heap σ1) p cmd [(d, w)] ∧ ext 40 σ σ1)) as Hnew.
    { intros md ->. eapply safe_mono; [by apply new_node_safe|]. intros p σ1 (H1 & _ & _ & H2 & H3).
      split; [done|]. split; [|done]. apply (ch_snoc _ _ _ cmd _ (tk_q f) (tk_eq f) d w []); [done|done|constructor]. }
    rewrite Hr, Hd. destruct d; cbn [dir_tok ret_of].
    - apply (Hnew (["O_RDONLY"], 0) eq_refl).
    - apply (Hnew (["O_WRONLY"; "O_CREAT"], 1) eq_refl).
    - apply (Hnew (["O_WRONLY"; "O_CREAT"], 1) eq_refl). }
  intros p σ1 (Hw1 & Hc1 & He1). eapply safe_mono; [apply IH; [done|lia|lia]|].
  intros [ret s'] σ' (Hw' & Hs' & rs & Hlex' & Hc' & He'). cbn [fst snd] in *. split; [done|]. split; [lia|].
  exists ((d, w) :: rs). split; [|split].
  - rewrite Hd in Hlex. exact (lexed_app _ _ _ [_] _ Hlex (lexed_app _ _ _ [_] _ Hlex2 Hlex')).
  - apply (chain_app _ _ p cmd [(d, w)]); [done|]. exact (chain_ext_null _ _ _ _ _ _ Hw1 He' Hc1).
  - replace (redir_size _) with (40 + redir_size rs) by (unfold redir_size; cbn [length]; lia). exact (ext_trans _ _ _ _ _ _ He1 He').
Qed.

Lemma redir_size_app rs rs' : redir_size (rs ++ rs') = redir_size rs + redir_size rs'.
Proof. unfold redir_size. rewrite length_app. lia. Qed.

Lemma put_node_wf σ q n :
  wf σ → is_Some (sh_heap σ q) → let σ' := Sh (sh_mem σ) (upd (sh_heap σ) q (Some n)) (sh_used σ) in
  wf σ' ∧ ext_but q 0 σ σ'.
Proof.
  intros [H1 H2 H3] Hq. split; split; cbn; try done.
  - intros a. rewrite upd_case. destruct (decide (a = q)) as [->|]; auto.
  - lia.
  - intros a Ha _. by rewrite upd_ne.
Qed.

Lemma args_rep_snoc argv eargv args q e w :
  args_rep argv eargv args → (length args < Z.to_nat MAXARGS)%nat → word_at q e w →
  args_rep (<[length args := q]> argv) (<[length args := e]> eargv) (args ++ [w]).
Proof.
  intros [H1 H2 H3] Hn Hw. split; [by rewrite length_insert|by rewrite length_insert|].
  intros i w' Hi. destruct (decide (i = length args)) as [->|Hne].
  - rewrite lookup_app_r, Nat.sub_diag in Hi by lia. injection Hi as <-. exists q, e.
    rewrite !list_lookup_insert_eq by (rewrite ?H1, ?H2; done). split_and!; try done. destruct Hw as (_ & _ & _ & _ & ? & _). lia.
  - assert (i < length args)%nat.
    { apply lookup_lt_Some in Hi. rewrite length_app in Hi. cbn in Hi. lia. }
    rewrite lookup_app_l in Hi by lia. rewrite !list_lookup_insert_ne by done. by apply H3.
Qed.

Lemma args_loop_safe fuel : ∀ cmd ret argc s σ argv eargv args rs,
  wf σ → s0 ≤ s ≤ es → es - s < Z.of_nat fuel →
  sh_heap σ cmd = Some (NExec argv eargv) → args_rep argv eargv args → argc = Z.of_nat (length args) → argc < MAXARGS →
  chain (sh_heap σ) ret cmd rs →
  safe (args_loop arena fuel cmd ret argc s es σ) (λ r σ',
    wf σ' ∧ s ≤ r.2 ≤ es ∧
    ∃ l argv' eargv', lexed s r.2 (l ≫= item_toks) ∧
      let args' := args ++ item_args l in
      sh_heap σ' cmd = Some (NExec argv' eargv') ∧ args_rep argv' eargv' args' ∧
      r.1.2 = Z.of_nat (length args') ∧ r.1.2 < MAXARGS ∧
      chain (sh_heap σ') r.1.1 cmd (rs ++ item_redirs l) ∧
      ext_but cmd (redir_size (item_redirs l)) σ σ').
Proof.
  induction fuel as [|fuel IH]; intros cmd ret argc s σ argv eargv args rs Hw Hs Hf Hcmd Hargs Hc Hmax Hch; [lia|].
  cbn [args_loop]. unfold memory. erewrite mbind_ret by reflexivity. rewrite (wf_mem σ Hw).
  destruct (peek_tok s [124; 41; 38; 59] Hs) as (b & s1 & -> & Hs1 & Hl1 & _).
  { unfold symbols. repeat constructor; set_solver. }
  assert (∀ s', s ≤ s' ≤ es → lexed s s' [] → wf σ ∧ s ≤ s' ≤ es ∧
    ∃ l argv' eargv', lexed s s' (l ≫= item_toks) ∧
      sh_heap σ cmd = Some (NExec argv' eargv') ∧ args_rep argv' eargv' (args ++ item_args l) ∧
      argc = Z.of_nat (length (args ++ item_args l)) ∧ argc < MAXARGS ∧
      chain (sh_heap σ) ret cmd (rs ++ item_redirs l) ∧ ext_but cmd (redir_size (item_redirs l)) σ σ) as Hstop.
  { intros s' Hs' Hl. split; [done|]. split; [done|]. exists [], argv, eargv. cbn. rewrite !app_nil_r. split_and!; try done. apply ext_refl. }
  destruct b; [by apply (Hstop s1)|].
  destruct (gettoken_spec m es s0 Hline Hes s1 ltac:(lia)) as (k & Hr & Hle & Hk). cbv zeta in *. set (t := gettoken m s1 es) in *.
  destruct (Z.eqb_spec (tk_ret t) 0) as [Hz|_].
  { destruct k as [[w|c|]|]; cbn [ret_of] in Hr; [lia| |lia|].
    - destruct Hk as (_ & Hat & _). cbn in Hat. rewrite <-Hr, Hz in Hat. unfold symbols in Hat. set_solver by lia.
    - destruct Hk as [Ht Hk]. rewrite Ht. apply (Hstop es); [lia|]. intros us Hus. cbn. apply Hl1. cbn. rewrite str_end in Hus. by rewrite (lexes_nil us Hus). }
  destruct (negb _) eqn:Hword; [done|]. apply negb_false_iff, Z.eqb_eq in Hword. clear Hr Hle Hk.
  destruct (gettoken_word s1 ltac:(lia) Hword) as (w & Hlt & Hat & Hlex). cbv zeta in *. fold t in Hlt, Hat, Hlex.
  unfold get_exec, get_node, put_node.
  erewrite mbind_ret; [|erewrite mbind_ret; [|unfold gets; erewrite mbind_ret; [|reflexivity]; cbv beta; rewrite Hcmd; reflexivity]; reflexivity].
  unfold modify. erewrite mbind_ret by reflexivity. cbv beta.
  destruct (Z.leb_spec MAXARGS (argc + 1)) as [|Hmax1]; [done|].
  replace (Z.to_nat argc) with (length args) by lia.
  set (argv1 := <[length args := tk_q t]> argv). set (eargv1 := <[length args := tk_eq t]> eargv).
  destruct (put_node_wf σ cmd (NExec argv1 eargv1) Hw ltac:(by rewrite Hcmd)) as [Hw1 He1]. cbv zeta in *.
  set (σ1 := Sh _ _ _) in *.
  assert (sh_heap σ1 cmd = Some (NExec argv1 eargv1)) as Hcmd1 by (cbn; apply upd_eq).
  assert (args_rep argv1 eargv1 (args ++ [w])) as Hargs1 by (apply args_rep_snoc; [done|unfold MAXARGS in *; lia|done]).
  assert (chain (sh_heap σ1) ret cmd rs) as Hch1 by by eapply chain_ext.
  eapply safe_bind; [apply parseredirs_loop_safe; [done|lia|lia]|]. clearbody σ1.
  intros [ret2 s2] σ2 (Hw2 & Hs2 & rs2 & Hlex2 & Hch2 & He2). cbn [fst snd] in *.
  assert (sh_heap σ2 cmd = Some (NExec argv1 eargv1)) as Hcmd2 by by eapply (ext_node _ σ1).
  assert (chain (sh_heap σ2) ret2 cmd (rs ++ rs2)) as Hch2'.
  { apply (chain_app _ _ ret); [done|]. by apply (chain_ext_null _ σ1 σ2 _ _ _ Hw1 He2). }
  eapply safe_mono; [eapply (IH cmd ret2 (argc + 1) s2 σ2 argv1 eargv1 (args ++ [w]) (rs ++ rs2)); try done|].
  - lia.
  - lia.
  - rewrite length_app. cbn. lia.
  - intros [[ret' argc'] s'] σ' (Hw' & Hs' & l & argv' & eargv' & Hlex' & Hcmd' & Hargs' & Hc' & Hm' & Hch' & He'). cbn [fst snd] in *.
    split; [done|]. split; [lia|]. exists (IWord w :: map IRedir rs2 ++ l), argv', eargv'.
    assert (item_args (IWord w :: map IRedir rs2 ++ l) = w :: item_args l) as -> by (cbn; f_equal; apply redir_items_args).
    assert (item_redirs (IWord w :: map IRedir rs2 ++ l) = rs2 ++ item_redirs l) as -> by apply redir_items_redirs.
    rewrite <-!app_assoc in *. split_and!; try done.
    + cbn [mbind list_bind]. rewrite redir_items_toks.
      exact (lexed_app _ _ _ [] _ Hl1 (lexed_app _ _ _ [_] _ Hlex (lexed_app _ _ _ _ _ Hlex2 Hlex'))).
    + rewrite redir_size_app. apply (ext_trans _ 0 _ _ σ1); [done|].
      apply (ext_trans _ _ _ _ σ2); [|done]. by apply ext_weaken.
Qed.

Lemma cost_iter n c : cost (Nat.iter n Back c) = cost c + 16 * Z.of_nat n.
Proof. induction n as [|n IH]; [cbn; lia|]. cbn [Nat.iter nat_rect cost] in *. unfold Nat.iter in IH. rewrite IH. lia. Qed.
Lemma cost_wrap rs c : cost (wrap rs c) = cost c + redir_size rs.
Proof.
  induction rs as [|r rs IH] using rev_ind; [unfold redir_size; cbn; lia|].
  unfold wrap in *. rewrite foldl_app, redir_size_app. cbn [foldl cost]. rewrite IH. unfold redir_size. cbn. lia.
Qed.

Lemma back_loop_safe fuel : ∀ cmd s σ c,
  wf σ → s0 ≤ s ≤ es → es - s < Z.of_nat fuel → rep (sh_heap σ) cmd c →
  safe (back_loop arena fuel cmd s es σ) (λ r σ',
    wf σ' ∧ s ≤ r.2 ≤ es ∧
    ∃ n, lexed s r.2 (replicate n (TSym 38)) ∧ rep (sh_heap σ') r.1 (Nat.iter n Back c) ∧ ext (16 * Z.of_nat n) σ σ').
Proof.
  induction fuel as [|fuel IH]; intros cmd s σ c Hw Hs Hf Hc; [lia|].
  cbn [back_loop]. unfold memory. erewrite mbind_ret by reflexivity. rewrite (wf_mem σ Hw).
  destruct (peek_sym s 38 Hs ltac:(sym) ltac:(done)) as (b & s1 & -> & Hs1 & Hl1 & Hb).
  destruct b; [|split; [done|split; [done|exists 0%nat; split; [done|split; [done|apply ext_refl]]]]].
  destruct (Hb eq_refl) as (Hlt & Hlex).
  eapply safe_bind; [by apply new_node_safe|]. intros p σ1 (Hw1 & _ & _ & Hp & He1).
  assert (rep (sh_heap σ1) p (Back c)) as Hr1 by (eapply rep_back; [exact Hp|exact (rep_ext _ _ _ _ _ Hw He1 Hc)]).
  eapply safe_mono; [apply (IH _ _ _ (Back c)); [done|lia|lia|done]|].
  intros [ret s'] σ' (Hw' & Hs' & n & Hlex' & Hr' & He'). cbn [fst snd] in *. split; [done|]. split; [lia|].
  exists (S n). split; [|split].
  - exact (lexed_app _ _ _ [_] _ Hlex Hlex').
  - by rewrite Nat.iter_succ_r.
  - replace (16 * Z.of_nat (S n)) with (sizeof (NBack cmd) + 16 * Z.of_nat n) by (cbn; lia). exact (ext_trans _ _ _ _ _ _ He1 He').
Qed.

Definition parsed (G : list tok → com → Prop) (s : Z) σ (r : Z * Z) σ' : Prop :=
  wf σ' ∧ s ≤ r.2 ≤ es ∧ ∃ ts c, lexed s r.2 ts ∧ G ts c ∧ rep (sh_heap σ') r.1 c ∧ ext (cost c) σ σ'.

Lemma parsed_from G s s1 σ r σ' : lexed s s1 [] → s ≤ s1 → parsed G s1 σ r σ' → parsed G s σ r σ'.
Proof.
  intros Hl Hs (Hw & Hr & ts & c & Hlex & HG & Hrep & He). split; [done|]. split; [lia|]. exists ts, c.
  split; [|done]. exact (lexed_app _ _ _ [] _ Hl Hlex).
Qed.

(** Each of the four functions for one more unit of fuel. *)
Definition fuel_ok (fuel : nat) (s k : Z) : Prop := 4 * (es - s) + k ≤ Z.of_nat fuel.
Abbreviation good f k G fuel :=
  (∀ s σ, wf σ → s0 ≤ s ≤ es → fuel_ok fuel s k → safe (f fuel s es σ) (parsed G s σ)).

Lemma parsepipe_step fuel :
  good (parseexec arena) 2 g_exec fuel → good (parsepipe arena) 3 g_pipe fuel → good (parsepipe arena) 3 g_pipe (S fuel).
Proof.
  intros IHe IHp s σ Hw Hs Hf. unfold fuel_ok in *. cbn [parsepipe].
  eapply safe_bind; [apply IHe; [done|done|lia]|].
  intros [cmd s1] σ1 (Hw1 & Hs1 & ts & c & Hlex & HG & Hrep & He). cbn [fst snd] in *.
  unfold memory. erewrite mbind_ret by reflexivity. rewrite (wf_mem σ1 Hw1).
  destruct (peek_sym s1 124 ltac:(lia) ltac:(sym) ltac:(done)) as (b & s2 & -> & Hs2 & Hl2 & Hb).
  destruct b.
  - destruct (Hb eq_refl) as (Hlt & Hlexk).
    eapply safe_bind; [apply IHp; [done|lia|lia]|].
    intros [rest s3] σ2 (Hw2 & Hs3 & ts' & c' & Hlex' & HG' & Hrep' & He'). cbn [fst snd] in *.
    eapply safe_bind; [by apply new_node_safe|]. intros p σ3 (Hw3 & _ & _ & Hp & He3).
    split; [done|]. cbn [fst snd]. split; [lia|]. exists (ts ++ TSym 124 :: ts'), (Pipe c c'). split; [|split; [|split]].
    + exact (lexed_app _ _ _ _ _ Hlex (lexed_app _ _ _ [_] _ Hlexk Hlex')).
    + by apply gp_pipe.
    + eapply rep_pipe; [exact Hp| |exact (rep_ext _ _ _ _ _ Hw2 He3 Hrep')].
      exact (rep_ext _ _ _ _ _ Hw2 He3 (rep_ext _ _ _ _ _ Hw1 He' Hrep)).
    + exact (ext_trans _ _ _ _ _ _ (ext_trans _ _ _ _ _ _ He He') He3).
  - split; [done|]. cbn [fst snd]. split; [lia|]. exists ts, c. split; [|split; [by apply gp_exec|done]].
    pose proof (lexed_app _ _ _ _ _ Hlex Hl2) as Hl. by rewrite app_nil_r in Hl.
Qed.

Lemma parseline_step fuel :
  good (parsepipe arena) 3 g_pipe fuel → good (parseline arena) 4 g_line fuel → good (parseline arena) 4 g_line (S fuel).
Proof.
  intros IHp IHl s σ Hw Hs Hf. unfold fuel_ok in *. cbn [parseline].
  eapply safe_bind; [apply IHp; [done|done|lia]|].
  intros [cmd s1] σ1 (Hw1 & Hs1 & ts & c & Hlex1 & HG & Hrep & He). cbn [fst snd] in *.
  eapply safe_bind; [apply (back_loop_safe _ _ _ _ c); [done|lia|lia|done]|].
  intros [cmd2 s2] σ2 (Hw2 & Hs2 & n & Hlex2 & Hrep2 & He2). cbn [fst snd] in *.
  pose proof (lexed_app _ _ _ _ _ Hlex1 Hlex2) as Hlex. pose proof (ext_trans _ _ _ _ _ _ He He2) as He12.
  assert (cost c + 16 * Z.of_nat n = cost (Nat.iter n Back c)) as Hcost by by rewrite cost_iter. rewrite Hcost in He12.
  unfold memory. erewrite mbind_ret by reflexivity. rewrite (wf_mem σ2 Hw2).
  destruct (peek_sym s2 59 ltac:(lia) ltac:(sym) ltac:(done)) as (b & s3 & -> & Hs3 & Hl3 & Hb).
  destruct b.
  - destruct (Hb eq_refl) as (Hlt & Hlexk).
    eapply safe_bind; [apply IHl; [done|lia|lia]|].
    intros [rest s4] σ3 (Hw3 & Hs4 & ts' & c' & Hlex' & HG' & Hrep' & He'). cbn [fst snd] in *.
    eapply safe_bind; [by apply new_node_safe|]. intros p σ4 (Hw4 & _ & _ & Hp & He4).
    split; [done|]. cbn [fst snd]. split; [lia|]. exists (ts ++ replicate n (TSym 38) ++ TSym 59 :: ts'), (List (Nat.iter n Back c) c').
    split; [|split; [|split]].
    + rewrite app_assoc. exact (lexed_app _ _ _ _ _ Hlex (lexed_app _ _ _ [_] _ Hlexk Hlex')).
    + by apply gl_list.
    + eapply rep_list; [exact Hp| |exact (rep_ext _ _ _ _ _ Hw3 He4 Hrep')].
      exact (rep_ext _ _ _ _ _ Hw3 He4 (rep_ext _ _ _ _ _ Hw2 He' Hrep2)).
    + exact (ext_trans _ _ _ _ _ _ (ext_trans _ _ _ _ _ _ He12 He') He4).
  - split; [done|]. cbn [fst snd]. split; [lia|]. exists (ts ++ replicate n (TSym 38)), (Nat.iter n Back c).
    split; [|split; [by apply gl_pipe|done]].
    pose proof (lexed_app _ _ _ _ _ Hlex Hl3) as Hl. by rewrite app_nil_r in Hl.
Qed.

Lemma parseblock_step fuel :
  good (parseline arena) 4 g_line fuel → good (parseblock arena) 1 g_exec (S fuel).
Proof.
  intros IHl s σ Hw Hs Hf. unfold fuel_ok in *. cbn [parseblock].
  unfold memory. erewrite mbind_ret by reflexivity. rewrite (wf_mem σ Hw).
  destruct (peek_sym s 40 Hs ltac:(sym) ltac:(done)) as (b & s1 & -> & Hs1 & Hl1 & Hb).
  destruct b; [|done]. cbn [negb]. destruct (Hb eq_refl) as (Hlt & Hlexo).
  eapply safe_bind; [apply IHl; [done|lia|lia]|].
  intros [cmd s2] σ1 (Hw1 & Hs2 & ts & c & Hlex1 & HG & Hrep & He). cbn [fst snd] in *.
  destruct (peek_sym s2 41 ltac:(lia) ltac:(sym) ltac:(done)) as (b & s3 & -> & Hs3 & Hl3 & Hb3).
  destruct b; [|done]. cbn [negb]. destruct (Hb3 eq_refl) as (Hlt3 & Hlexc).
  eapply safe_mono; [apply parseredirs_loop_safe; [done|lia|lia]|].
  intros [ret s4] σ2 (Hw2 & Hs4 & rs & Hlex2 & Hch & He2). cbn [fst snd] in *.
  split; [done|]. cbn [fst snd]. split; [lia|].
  exists (TSym 40 :: ts ++ TSym 41 :: (rs ≫= redir_toks)), (wrap rs c). split; [|split; [by apply ge_block|split]].
  - exact (lexed_app _ _ _ [_] _ Hlexo (lexed_app _ _ _ _ _ Hlex1 (lexed_app _ _ _ [_] _ Hlexc Hlex2))).
  - eapply chain_rep; [exact Hch|exact (rep_ext _ _ _ _ _ Hw1 He2 Hrep)].
  - rewrite cost_wrap. exact (ext_trans _ _ _ _ _ _ He He2).
Qed.

Lemma args_rep_nil : args_rep (replicate (Z.to_nat MAXARGS) 0) (replicate (Z.to_nat MAXARGS) 0) [].
Proof. by split. Qed.

Lemma parseexec_step fuel :
  good (parseblock arena) 1 g_exec fuel → good (parseexec arena) 2 g_exec (S fuel).
Proof.
  intros IHb s σ Hw Hs Hf. unfold fuel_ok in *. cbn [parseexec].
  unfold memory. erewrite mbind_ret by reflexivity. rewrite (wf_mem σ Hw).
  destruct (peek_sym s 40 Hs ltac:(sym) ltac:(done)) as (b & s1 & -> & Hs1 & Hl1 & Hb).
  destruct b.
  { eapply safe_mono; [apply IHb; [done|lia|lia]|]. intros r σ'. apply parsed_from; [done|lia]. }
  eapply safe_bind; [by apply new_node_safe|]. intros cmd σ1 (Hw1 & Hfresh & Hnull & Hp & He1).
  eapply safe_bind; [apply parseredirs_loop_safe; [done|lia|lia]|].
  intros [ret s2] σ2 (Hw2 & Hs2 & rs & Hlex2 & Hch2 & He2). cbn [fst snd] in *.
  pose proof (ext_node _ _ _ _ _ Hw1 He2 Hp) as Hp2.
  eapply safe_bind; [eapply (args_loop_safe _ cmd ret 0 s2 σ2 _ _ [] rs); [done|lia|lia|exact Hp2|exact args_rep_nil|done|done|done]|].
  intros [[ret' argc] s3] σ3 (Hw3 & Hs3 & l & argv & eargv & Hlex3 & Hp3 & Hargs & Hargc & Hmax & Hch3 & He3). cbn [fst snd app] in *.
  unfold get_exec, get_node, put_node.
  erewrite mbind_ret; [|erewrite mbind_ret; [|unfold gets; erewrite mbind_ret; [|reflexivity]; cbv beta; rewrite Hp3; reflexivity]; reflexivity].
  unfold modify. erewrite mbind_ret by reflexivity. cbv beta.
  set (argv1 := <[Z.to_nat argc := 0]> argv). set (eargv1 := <[Z.to_nat argc := 0]> eargv).
  destruct (put_node_wf σ3 cmd (NExec argv1 eargv1) Hw3 ltac:(by rewrite Hp3)) as [Hw4 He4]. cbv zeta in *.
  set (σ4 := Sh _ _ _) in *.
  assert (Z.to_nat argc = length (item_args l)) as Hn by lia.
  assert (args_rep argv1 eargv1 (item_args l) ∧ argv1 !! length (item_args l) = Some 0) as [Hargs1 Hnull1].
  { unfold argv1, eargv1. rewrite Hn. destruct Hargs as [A1 A2 A3]. split; [split|].
    - by rewrite length_insert.
    - by rewrite length_insert.
    - intros i w Hi. pose proof (lookup_lt_Some _ _ _ Hi). rewrite !list_lookup_insert_ne by lia. by apply A3.
    - apply list_lookup_insert_eq. rewrite A1. unfold MAXARGS in *. lia. }
  assert (sh_heap σ4 cmd = Some (NExec argv1 eargv1)) as Hp4 by (cbn; apply upd_eq).
  assert (chain (sh_heap σ4) ret' cmd (rs ++ item_redirs l)) as Hch4 by exact (chain_ext _ _ _ _ _ _ _ _ _ He4 Hp3 Hch3).
  clearbody σ4. split; [done|]. cbn [fst snd]. split; [lia|].
  exists ((map IRedir rs ++ l) ≫= item_toks), (wrap (item_redirs (map IRedir rs ++ l)) (Simple (item_args (map IRedir rs ++ l)))).
  split; [|split; [|split]].
  - rewrite redir_items_toks. exact (lexed_app _ _ _ [] _ Hl1 (lexed_app _ _ _ _ _ Hlex2 Hlex3)).
  - apply ge_simple. rewrite redir_items_args. lia.
  - rewrite redir_items_args, redir_items_redirs. eapply chain_rep; [exact Hch4|]. by eapply rep_exec.
  - rewrite cost_wrap, redir_items_redirs, redir_size_app.
    assert (ext (sizeof (NExec (replicate (Z.to_nat MAXARGS) 0) (replicate (Z.to_nat MAXARGS) 0)) + redir_size rs) σ σ2) as He12
      by exact (ext_trans _ _ _ _ _ _ He1 He2).
    pose proof (ext_fresh cmd _ _ _ _ _ Hw He12 Hfresh (ext_trans _ _ _ _ _ _ He3 He4)) as He.
    replace (cost _ + _) with (168 + redir_size rs + (redir_size (item_redirs l) + 0)) by (cbn [cost]; lia). exact He.
Qed.

Lemma parse_good fuel :
  good (parseline arena) 4 g_line fuel ∧ good (parsepipe arena) 3 g_pipe fuel ∧
  good (parseexec arena) 2 g_exec fuel ∧ good (parseblock arena) 1 g_exec fuel.
Proof.
  induction fuel as [|fuel (IHl & IHp & IHe & IHb)].
  - split_and!; intros s σ _ Hs Hf; unfold fuel_ok in Hf; lia.
  - split; [by apply parseline_step|]. split; [by apply parsepipe_step|]. split; [by apply parseexec_step|by apply parseblock_step].
Qed.

(** ** Null-terminated strings *)

(** [m1] is [m] with null bytes in places that belong to no word. *)
Definition cut (m1 : mem) : Prop := ∀ x, m1 x = m x ∨ m1 x = 0 ∧ ¬ word_char (m x).
(** A command in [m] whose strings end in [m1]. *)
Definition word_cut (m1 : mem) (q e : Z) (w : list Z) : Prop := word_at q e w ∧ m1 e = 0.

Lemma cut_null m1 q e w : cut m1 → word_at q e w → cut (upd m1 e 0).
Proof.
  intros Hc (_ & _ & _ & He & _) x. rewrite upd_case. destruct (decide (x = e)) as [->|]; [by right|apply Hc].
Qed.
Lemma word_cut_string m1 q e w :
  cut m1 → word_cut m1 q e w → string_at m1 (Z.to_nat (es - s0)) q e w.
Proof.
  intros Hc [(Hw & He & Hf & _ & Hq & Hle & Hne) Hz]. split_and!; [|done|lia|done].
  split; [|by rewrite <-He]. intros i c Hi. pose proof (lookup_lt_Some _ _ _ Hi) as Hlt.
  assert (word_char c) as Hwc by (rewrite Forall_lookup in Hf; eauto).
  assert (m (q + Z.of_nat i) = c) as Hm.
  { rewrite <-Hw, lookup_mbytes in Hi by done. by injection Hi. }
  split; [|by destruct Hwc]. destruct (Hc (q + Z.of_nat i)) as [->|[_ Hn]]; [done|]. by rewrite Hm in Hn.
Qed.

(** What [nulterminate] changes. *)
Record nulled σ σ' : Prop := {
  nd_heap : sh_heap σ' = sh_heap σ;
  nd_cut : cut (sh_mem σ) → cut (sh_mem σ');
  nd_keep x : sh_mem σ x = 0 → sh_mem σ' x = 0;
}.
Lemma nulled_refl σ : nulled σ σ.
Proof. by split. Qed.
Lemma nulled_trans σ σ1 σ2 : nulled σ σ1 → nulled σ1 σ2 → nulled σ σ2.
Proof. intros [H1 H2 H3] [H4 H5 H6]. split; [congruence|auto|auto]. Qed.
Lemma nulled_put σ q e w : word_at q e w → nulled σ (Sh (upd (sh_mem σ) e 0) (sh_heap σ) (sh_used σ)).
Proof.
  intros Hw. split; cbn; [done| |].
  - intros Hc. by eapply cut_null.
  - intros x Hx. rewrite upd_case. by case_decide.
Qed.

Lemma null_args_spec args : ∀ argv eargv σ,
  length argv = length eargv → argv !! length args = Some 0 →
  (∀ i w, args !! i = Some w → ∃ q e, argv !! i = Some q ∧ eargv !! i = Some e ∧ q ≠ 0 ∧ word_at q e w) →
  ∃ σ', null_args argv eargv σ = Ret () σ' ∧ nulled σ σ' ∧
    ∀ i e, (i < length args)%nat → eargv !! i = Some e → sh_mem σ' e = 0.
Proof.
  induction args as [|w args IH]; intros [|a argv] [|e eargv] σ Hl Hz Hw; try done; cbn [null_args].
  - injection Hz as ->. cbn. exists σ. split; [done|]. split; [apply nulled_refl|]. cbn. lia.
  - destruct (Hw 0%nat w eq_refl) as (q & e' & [= <-] & [= <-] & Hq & Hat).
    rewrite (proj2 (Z.eqb_neq _ _) Hq). unfold put_null, modify. erewrite mbind_ret by reflexivity. cbv beta.
    destruct (IH argv eargv (Sh (upd (sh_mem σ) e 0) (sh_heap σ) (sh_used σ))) as (σ' & -> & Hn & Hc).
    { by injection Hl. } { done. } { intros i w' Hi. by apply (Hw (S i)). }
    exists σ'. split; [done|]. split; [eapply nulled_trans; [by eapply nulled_put|done]|].
    intros [|i] e' Hi He; cbn in Hi, He.
    + injection He as <-. apply (nd_keep _ _ Hn). cbn. apply upd_eq.
    + apply (Hc i); [lia|done].
Qed.

Lemma word_cut_mono m1 m2 h p c :
  (∀ x, m1 x = 0 → m2 x = 0) → ShSpec.rep (word_cut m1) h p c → ShSpec.rep (word_cut m2) h p c.
Proof.
  intros Hm Hr. assert (∀ q e w, word_cut m1 q e w → word_cut m2 q e w) as Hw by (intros q e w [? ?]; split; auto).
  induction Hr as [p argv eargv args Hp [A1 A2 A3] Hz| | | |]; eauto with sh.
  eapply rep_exec; [done| |done]. split; [done|done|]. intros i w Hi. destruct (A3 i w Hi) as (q & e & ? & ? & ? & ?). exists q, e. auto.
Qed.

Lemma nulterminate_node fuel p σ n :
  sh_heap σ p = Some n → p ≠ 0 →
  nulterminate (S fuel) p σ = match n with
    | NExec argv eargv => null_args argv eargv
    | NRedir cmd _ efile _ _ => nulterminate fuel cmd ;; put_null efile
    | NPipe l r => nulterminate fuel l ;; nulterminate fuel r
    | NList l r => nulterminate fuel l ;; nulterminate fuel r
    | NBack cmd => nulterminate fuel cmd
    end σ.
Proof.
  intros Hn Hp. cbn [nulterminate]. rewrite (proj2 (Z.eqb_neq _ _) Hp). erewrite mbind_ret; [reflexivity|].
  unfold get_node, gets. erewrite mbind_ret by reflexivity. cbv beta. by rewrite Hn.
Qed.

Lemma nulterminate_spec fuel : ∀ p c σ,
  rep (sh_heap σ) p c → (∀ a n, sh_heap σ a = Some n → a ≠ 0) → (depth c ≤ fuel)%nat →
  ∃ σ', nulterminate fuel p σ = Ret () σ' ∧ nulled σ σ' ∧ ShSpec.rep (word_cut (sh_mem σ')) (sh_heap σ) p c.
Proof.
  induction fuel as [|fuel IH]; intros p c σ Hr Hnn Hd; [destruct c; cbn in Hd; lia|].
  (* two commands one after the other *)
  assert (∀ l r c1 c2, rep (sh_heap σ) l c1 → rep (sh_heap σ) r c2 → (depth c1 ≤ fuel)%nat → (depth c2 ≤ fuel)%nat →
    ∃ σ', (nulterminate fuel l ;; nulterminate fuel r) σ = Ret () σ' ∧ nulled σ σ' ∧
      ShSpec.rep (word_cut (sh_mem σ')) (sh_heap σ) l c1 ∧ ShSpec.rep (word_cut (sh_mem σ')) (sh_heap σ) r c2) as Htwo.
  { intros l r c1 c2 H1 H2 D1 D2. destruct (IH l c1 σ H1 Hnn D1) as (σ1 & E1 & N1 & R1).
    destruct (IH r c2 σ1) as (σ2 & E2 & N2 & R2); [by rewrite (nd_heap _ _ N1)|by rewrite (nd_heap _ _ N1)|done|].
    rewrite (nd_heap _ _ N1) in R2. exists σ2. split; [by rewrite (mbind_ret _ _ _ _ _ E1)|]. split; [by eapply nulled_trans|].
    split; [|done]. eapply word_cut_mono; [apply N2|done]. }
  destruct Hr as [p argv eargv args Hp [A1 A2 A3] Hz|p p' q e d w c Hp Hw Hr|p l r c c' Hp Hl Hr|p l r c c' Hp Hl Hr|p p' c Hp Hr];
    cbn [depth] in Hd; rewrite (nulterminate_node _ _ _ _ Hp (Hnn _ _ Hp)).
  - destruct (null_args_spec args argv eargv σ) as (σ' & E & N & Hc); [congruence|done|done|].
    exists σ'. split; [done|]. split; [done|]. eapply rep_exec; [done| |done]. split; [done|done|].
    intros i w Hi. destruct (A3 i w Hi) as (q & e & Hq & He & Hq0 & Hw). exists q, e. split; [done|]. split; [done|]. split; [done|].
    split; [done|]. eapply (Hc i); [by eapply lookup_lt_Some|done].
  - destruct (IH p' c σ Hr Hnn ltac:(lia)) as (σ1 & E1 & N1 & R1). rewrite (mbind_ret _ _ _ _ _ E1).
    pose proof (nulled_put σ1 q e w Hw) as N2. eexists. split; [reflexivity|]. split; [by eapply nulled_trans|].
    eapply rep_redir; [done| |eapply word_cut_mono; [apply N2|done]]. split; [done|]. cbn. apply upd_eq.
  - destruct (Htwo l r c c' Hl Hr ltac:(lia) ltac:(lia)) as (σ' & -> & N & R1 & R2). exists σ'. eauto with sh.
  - destruct (Htwo l r c c' Hl Hr ltac:(lia) ltac:(lia)) as (σ' & -> & N & R1 & R2). exists σ'. eauto with sh.
  - destruct (IH p' c σ Hr Hnn ltac:(lia)) as (σ' & -> & N & R). exists σ'. eauto with sh.
Qed.
End Parser.

Lemma rep_mono (P Q : Z → Z → list Z → Prop) h p c :
  (∀ q e w, P q e w → Q q e w) → rep P h p c → rep Q h p c.
Proof.
  intros HPQ Hr. induction Hr as [p argv eargv args Hp [A1 A2 A3] Hz| | | |]; eauto with sh.
  eapply rep_exec; [done| |done]. split; [done|done|]. intros i w Hi.
  destruct (A3 i w Hi) as (q & e & ? & ? & ? & ?). exists q, e. auto.
Qed.

Lemma cstr_line m s line : cstr m s line →
  let es := s + Z.of_nat (length line) in (∀ x, s ≤ x < es → m x ≠ 0) ∧ m es = 0 ∧ str m es s = line.
Proof.
  intros [Hl Hz]. cbv zeta. assert (∀ i, (i < length line)%nat → ∃ c, line !! i = Some c ∧ m (s + Z.of_nat i) = c ∧ c ≠ 0) as Hi.
  { intros i Hi. apply lookup_lt_is_Some in Hi as [c Hc]. exists c. split; [done|by apply Hl]. }
  split; [|split; [done|]].
  - intros x Hx. destruct (Hi (Z.to_nat (x - s)) ltac:(lia)) as (c & _ & Hc & Hn).
    replace (s + Z.of_nat (Z.to_nat (x - s))) with x in Hc by lia. congruence.
  - unfold str. replace (Z.to_nat _) with (length line) by lia. apply list_eq. intros i.
    destruct (decide (i < length line)%nat) as [Hlt|].
    + rewrite lookup_mbytes by done. destruct (Hi i Hlt) as (c & -> & -> & _). done.
    + by rewrite !lookup_ge_None_2 by (rewrite ?length_mbytes; lia).
Qed.

(** For any line in the buffer, [parsecmd] returns or exits with a message: its
    recursion ends, and it follows no bad pointer.  When it returns, the line
    consists of tokens that the grammar derives, all of them, to a command, and
    the structures at the returned pointer are this command, with its strings
    null-terminated in the buffer. *)
Lemma parsecmd_sound arena σ s line nbuf :
  0 < arena → 0 < s → cstr (sh_mem σ) s line → (length line < nbuf)%nat →
  0 ≤ sh_used σ ≤ MAXN → (∀ a, is_Some (sh_heap σ a) → arena ≤ a < arena + sh_used σ) →
  safe (parsecmd arena nbuf s σ) (λ p σ',
    p ≠ 0 ∧ ∃ ts c, lexes line ts ∧ g_line ts c ∧ represents (length line) σ' p c ∧
      (∀ a n, sh_heap σ' a = Some n → a ≠ 0) ∧ (depth c ≤ Z.to_nat MAXN)%nat).
Proof.
  intros Ha Hs Hl Hn Hu Hh. destruct (cstr_line _ _ _ Hl) as (Hline & Hes & Hstr). cbv zeta in *.
  set (es := s + Z.of_nat (length line)) in *. set (m := sh_mem σ) in *.
  assert (wf arena m σ) as Hw by by split.
  unfold parsecmd, memory. erewrite mbind_ret by reflexivity. cbv beta. fold m.
  unfold strlen. rewrite (strlen_loop_spec nbuf m s line 0 Hl Hn), Z.add_0_l. fold es.
  eapply safe_bind.
  { apply (parse_good arena Ha m es s Hs Hline Hes); [exact Hw|lia|unfold fuel_ok; lia]. }
  intros [cmd s1] σ1 (Hw1 & Hs1 & ts & c & Hlex & HG & Hrep & He). cbn [fst snd] in *.
  unfold peek. destruct (skip_space_spec m es s Hline Hes s1 ltac:(lia)) as (_ & _ & Hskip & _).
  destruct (Z.eqb_spec (skip_space (Z.to_nat (es - s1)) m s1) es) as [Heq|]; [|done]. cbn [negb].
  assert (depth c ≤ Z.to_nat MAXN)%nat as Hd.
  { pose proof (depth_cost c). pose proof (ext_used _ _ _ _ He). pose proof (wf_used _ _ _ Hw1). lia. }
  destruct (nulterminate_spec m es s (Z.to_nat MAXN) cmd c σ1 Hrep) as (σ2 & Hrun & [Hheap Hcut _] & Hrep2).
  { intros a n Hn'. exact (node_not_null arena Ha m σ1 a n Hw1 Hn'). } { exact Hd. }
  erewrite mbind_ret; [|exact Hrun].
  assert (∀ a n, sh_heap σ2 a = Some n → a ≠ 0) as Hnn.
  { rewrite Hheap. intros a n Hn'. exact (node_not_null arena Ha m σ1 a n Hw1 Hn'). }
  split; [destruct Hrep; rewrite <-Hheap in *; eauto|].
  exists ts, c. split; [|split; [done|split; [|done]]].
  - rewrite <-Hstr, <-(app_nil_r ts). apply Hlex. apply Hskip. rewrite Heq, str_end. constructor.
  - unfold represents. rewrite Hheap. eapply rep_mono; [|exact Hrep2]. intros q e w Hqw.
    replace (length line) with (Z.to_nat (es - s)) by lia. apply (word_cut_string m es s); [|done].
    apply Hcut. rewrite (wf_mem _ _ _ Hw1). intros x. by left.
Qed.

(** ** Running *)

(** What the shell is to do for a command. *)
Fixpoint meaning (c : com) : prog :=
  match c with
  | Simple [] => Exit 0
  | Simple (w :: ws) => Do (Execv w (w :: ws)) (λ _, Do (Print "exec %s failed" w) (λ _, Exit 0))
  | Redir c d w =>
    Do (Close (dir_mode d).2) (λ _,
    Do (Open w (dir_mode d).1) (λ fd,
    if fd <? 0 then Do (Print "open %s failed" w) (λ _, Exit 1) else meaning c))
  | List l r => fork1 (meaning l) (Do Wait (λ _, meaning r))
  | Pipe l r =>
    Do PipeFd (λ '(r0, p0, p1),
    if r0 <? 0 then sh_panic "pipe"
    else
      fork1 (Do (Close 1) (λ _, Do (Dup p1) (λ _, Do (Close p0) (λ _, Do (Close p1) (λ _, meaning l)))))
     (fork1 (Do (Close 0) (λ _, Do (Dup p0) (λ _, Do (Close p0) (λ _, Do (Close p1) (λ _, meaning r)))))
     (Do (Close p0) (λ _, Do (Close p1) (λ _, Do Wait (λ _, Do Wait (λ _, Exit 0)))))))
  | Back c => fork1 (meaning c) (Exit 0)
  end.

(** The same calls with the same answers. *)
Inductive prog_eq : prog → prog → Prop :=
| pe_exit n : prog_eq (Exit n) (Exit n)
| pe_do A (c : call A) k k' : (∀ a, prog_eq (k a) (k' a)) → prog_eq (Do c k) (Do c k').
#[export] Hint Constructors prog_eq : sh.

Lemma prog_eq_panic s : prog_eq (sh_panic s) (sh_panic s).
Proof. unfold sh_panic. eauto with sh. Qed.
Lemma prog_eq_fork1 c c' p p' : prog_eq c c' → prog_eq p p' → prog_eq (fork1 c p) (fork1 c' p').
Proof.
  intros Hc Hp. constructor. intros pid. destruct (pid =? -1); [apply prog_eq_panic|]. by destruct (pid =? 0).
Qed.

Lemma get_str_cstr m n a w : cstr m a w → (length w < n)%nat → get_str m n a = w.
Proof.
  revert a w. induction n as [|n IH]; intros a w Hw Hn; [lia|]. cbn [get_str]. destruct w as [|c w].
  - apply cstr_nil in Hw as ->. done.
  - destruct Hw as [Hl Hz]. destruct (Hl 0%nat c eq_refl) as [Hc Hc0]. rewrite Z.add_0_r in Hc. rewrite Hc.
    rewrite (proj2 (Z.eqb_neq _ _) Hc0). f_equal. apply IH; [|cbn in Hn; lia]. split.
    + intros i c' Hi. destruct (Hl (S i) c' Hi) as [<- ?]. split; [f_equal; lia|done].
    + rewrite <-Hz. f_equal. cbn. lia.
Qed.

Lemma runcmd_meaning m h n nbuf fuel : ∀ p c,
  rep (string_at m n) h p c → (∀ a x, h a = Some x → a ≠ 0) → (n < nbuf)%nat → (depth c ≤ fuel)%nat →
  prog_eq (runcmd m h nbuf fuel p) (meaning c).
Proof.
  induction fuel as [|fuel IH]; intros p c Hr Hnn Hn Hd; [destruct c; cbn in Hd; lia|]. cbn [runcmd].
  assert (∀ q e w, string_at m n q e w → get_str m nbuf q = w) as Hstr.
  { intros q e w (Hw & _ & Hl & _). apply get_str_cstr; [done|lia]. }
  destruct Hr as [p argv eargv args Hp [A1 A2 A3] Hz|p p' q e d w c Hp Hw Hr|p l r c c' Hp Hl Hr|p l r c c' Hp Hl Hr|p p' c Hp Hr];
    cbn [depth] in Hd; rewrite (proj2 (Z.eqb_neq _ _) (Hnn _ _ Hp)), Hp; cbn [meaning].
  - assert (∀ i, get_argv m nbuf (drop i argv) = drop i args ∨ (length args < i)%nat) as Hargv.
    { intros i. destruct (decide (i ≤ length args)%nat) as [Hi|]; [left|right; lia].
      remember (length args - i)%nat as k eqn:Hk. revert i Hi Hk. induction k as [|k IHk]; intros i Hi Hk.
      - assert (i = length args) as -> by lia. rewrite (drop_S argv 0) by done. cbn. by rewrite drop_all.
      - destruct (lookup_lt_is_Some_2 args i ltac:(lia)) as [w Hw]. destruct (A3 i w Hw) as (q & e & Hq & _ & Hq0 & Hqw).
        rewrite (drop_S argv q i Hq), (drop_S args w i Hw). cbn [get_argv]. rewrite (proj2 (Z.eqb_neq _ _) Hq0).
        f_equal; [by eapply Hstr|]. apply IHk; lia. }
    destruct (Hargv 0%nat) as [Hall|]; [|lia]. rewrite !drop_0 in Hall.
    destruct args as [|w args]; cbn in Hz.
    + destruct argv as [|a argv]; [done|]. injection Hz as ->. constructor.
    + destruct (A3 0%nat w eq_refl) as (q & e & Hq & _ & Hq0 & Hqw). destruct argv as [|a argv]; [done|]. injection Hq as ->.
      rewrite (proj2 (Z.eqb_neq _ _) Hq0), Hall, (Hstr _ _ _ Hqw). eauto with sh.
  - rewrite (Hstr _ _ _ Hw). constructor. intros _. constructor. intros fd. destruct (fd <? 0); [eauto with sh|]. apply IH; [done|done|done|lia].
  - constructor. intros [[r0 p0] p1]. destruct (r0 <? 0); [apply prog_eq_panic|].
    apply prog_eq_fork1; [do 4 (constructor; intros _); apply IH; [done..|lia]|].
    apply prog_eq_fork1; [do 4 (constructor; intros _); apply IH; [done..|lia]|]. eauto 10 with sh.
  - apply prog_eq_fork1; [apply IH; [done..|lia]|]. constructor. intros _. apply IH; [done..|lia].
  - apply prog_eq_fork1; [apply IH; [done..|lia]|]. constructor.
Qed.

(** C39: the child that the shell forks for a line does what the line means.
    For any line in the buffer, the child either prints an error message and
    exits with status 1, or the line consists of tokens that the grammar
    derives, all of them, to a command, and the child makes exactly the calls
    of this command's [meaning], whatever they answer: it runs the programs,
    opens the files and connects the pipes that the command says.  It follows
    no bad pointer and its recursion ends, although the parser cuts the strings
    out of the line in place and runs on structures in a fixed arena. *)
Theorem child_sound arena buf σ line :
  0 < arena → 0 < buf → cstr (sh_mem σ) buf line → Z.of_nat (length line) < BUFSIZE →
  0 ≤ sh_used σ ≤ MAXN → (∀ a, is_Some (sh_heap σ a) → arena ≤ a < arena + sh_used σ) →
  (∃ msg, child arena buf σ = sh_panic msg) ∨
  (∃ ts c, lexes line ts ∧ g_line ts c ∧ prog_eq (child arena buf σ) (meaning c)).
Proof.
  intros Ha Hb Hl Hn Hu Hh. unfold child.
  assert (length line < Z.to_nat BUFSIZE)%nat as Hn' by lia.
  pose proof (parsecmd_sound arena σ buf line (Z.to_nat BUFSIZE) Ha Hb Hl Hn' Hu Hh) as Hs.
  destruct (parsecmd _ _ _ _) as [p σ'|msg| | |]; try done; [|left; by exists msg]. right.
  destruct Hs as (_ & ts & c & Hlex & HG & Hrep & Hnn & Hd). exists ts, c. split; [done|]. split; [done|].
  by eapply runcmd_meaning.
Qed.

(** [ls -l >out & ; (a;b|c) >>x]. *)
Definition ex_line : list Z :=
  [108; 115; 32; 45; 108; 32; 62; 111; 117; 116; 32; 38; 32; 59; 32; 40; 97; 59; 98; 124; 99; 41; 32; 62; 62; 120; 10].
Definition ex_sh : sh := Sh (mwrite (λ _, 0) 100 ex_line) (λ _, None) 0.

Lemma child_sound_witness :
  ∃ ts c, lexes ex_line ts ∧ g_line ts c ∧ prog_eq (child 5000 100 ex_sh) (meaning c).
Proof.
  assert (cstr (sh_mem ex_sh) 100 ex_line) as Hl.
  { split; [|by vm_compute]. intros i c Hi. pose proof (lookup_lt_Some _ _ _ Hi) as Hlt. cbn in Hlt.
    do 27 (destruct i as [|i]; [injection Hi as <-; by vm_compute|]). lia. }
  assert (Z.of_nat (length ex_line) < BUFSIZE) as Hn by by vm_compute.
  assert (0 ≤ sh_used ex_sh ≤ MAXN) as Hu by (split; by vm_compute).
  destruct (child_sound 5000 100 ex_sh ex_line eq_refl eq_refl Hl Hn Hu
                (λ a H, match is_Some_None H with end)) as [[msg Hmsg]|H]; [exfalso|exact H].
  assert (match child 5000 100 ex_sh with Do Fork _ => true | _ => false end = true) as Hrun by (vm_compute; reflexivity).
  rewrite Hmsg in Hrun. discriminate Hrun.
Defined.
