(* ===== verification/ShComplete.v ===== *)
(** The parser of the shell accepts its grammar.

    The converse of file ShSpec: a line has one list of tokens, a list of
    tokens one command, and [parsecmd] succeeds on every line that the grammar
    derives, as long as the command fits into the arena. *)

From S2P Require Import Prelude Memory CString Sh ShSpec.

(** ** One list of tokens *)

Lemma word_split w l w' l' :
  Forall word_char w → (∀ c, head l = Some c → ¬ word_char c) →
  Forall word_char w' → (∀ c, head l' = Some c → ¬ word_char c) →
  w ++ l = w' ++ l' → w = w' ∧ l = l'.
Proof.
  intros Hw Hl Hw' Hl'. revert w' Hw'. induction Hw as [|c w Hc _ IH]; intros [|c' w'] Hw' He; cbn in He.
  - done.
  - exfalso. apply (Hl c'); [by rewrite He|by apply Forall_cons in Hw' as [? _]].
  - exfalso. apply (Hl' c); [by rewrite <-He|done].
  - injection He as -> He. apply Forall_cons in Hw' as [_ Hw']. by destruct (IH _ Hw' He) as [-> ->].
Qed.

(** The first character decides which rule applies. *)
Lemma word_cons w l : w ≠ [] → Forall word_char w → ∃ c l', w ++ l = c :: l' ∧ word_char c.
Proof. intros Hw Hf. destruct w as [|c w]; [done|]. apply Forall_cons in Hf as [Hc _]. by exists c, (w ++ l). Qed.

Lemma lexes_cons_inv c l ts :
  lexes (c :: l) ts →
  (c ∈ whitespace ∧ lexes l ts) ∨
  (c ∈ symbols ∧ c ≠ 62 ∧ ∃ us, ts = TSym c :: us ∧ lexes l us) ∨
  (c = 62 ∧ head l ≠ Some 62 ∧ ∃ us, ts = TSym 62 :: us ∧ lexes l us) ∨
  (c = 62 ∧ ∃ l' us, l = 62 :: l' ∧ ts = TAppend :: us ∧ lexes l' us) ∨
  (word_char c ∧ ∃ w l' us, c :: l = w ++ l' ∧ w ≠ [] ∧ Forall word_char w ∧
     (∀ c', head l' = Some c' → ¬ word_char c') ∧ ts = TWord w :: us ∧ lexes l' us).
Proof.
  intros H. remember (c :: l) as l0 eqn:He.
  destruct H as [|c' k us Hc H|c' k us Hc Hne H|k us Hn H|k us H|w k us Hw Hf Hm H]; simplify_eq.
  - by left.
  - right; left. split; [done|]. split; [done|]. by exists us.
  - right; right; left. split; [done|]. split; [done|]. by exists us.
  - do 3 right; left. split; [done|]. by exists k, us.
  - do 4 right. destruct (word_cons w k Hw Hf) as (c' & l' & E & Hc). rewrite He in E. injection E as -> ->.
    split; [done|]. by exists w, k, us.
Qed.

Lemma lexes_det l ts : lexes l ts → ∀ ts', lexes l ts' → ts = ts'.
Proof.
  assert (∀ c, c ∈ whitespace → c ∈ symbols → False) as Hws by (intros c H1; by apply space_not_symbol).
  assert (∀ c, word_char c → c ∈ whitespace → False) as Hww by (intros c ? H; by apply (space_not_word c)).
  assert (∀ c, word_char c → c ∈ symbols → False) as Hwy by (intros c ? H; by apply (symbol_not_word c)).
  assert (62 ∈ symbols) as H62 by sym.
  induction 1 as [|c l ts Hc _ IH|c l ts Hc Hne _ IH|l ts Hh _ IH|l ts _ IH|w l ts Hw Hf Hm _ IH]; intros ts' H'.
  - by rewrite (lexes_nil ts' H').
  - apply lexes_cons_inv in H' as [[_ H']|[(? & _)|[(-> & _)|[(-> & _)|(? & _)]]]]; [by apply IH|exfalso; eauto..].
  - apply lexes_cons_inv in H' as [[? _]|[(_ & _ & us & -> & H')|[(? & _)|[(? & _)|(? & _)]]]]; try done; try (exfalso; by eauto).
    f_equal. by apply IH.
  - apply lexes_cons_inv in H' as [[? _]|[(_ & ? & _)|[(_ & _ & us & -> & H')|[(_ & k & us & -> & _)|(? & _)]]]];
      try done; try (exfalso; by eauto). f_equal. by apply IH.
  - apply lexes_cons_inv in H' as [[? _]|[(_ & ? & _)|[(_ & ? & _)|[(_ & k & us & [= <-] & -> & H')|(? & _)]]]];
      try done; try (exfalso; by eauto). f_equal. by apply IH.
  - destruct (word_cons w l Hw Hf) as (c' & l'' & E & Hwc). rewrite E in H'.
    apply lexes_cons_inv in H' as [[? _]|[(? & _)|[(-> & _)|[(-> & _)|(_ & w' & k & us & E' & ? & ? & ? & -> & H')]]]];
      try (exfalso; by eauto).
    rewrite <-E in E'. destruct (word_split w l w' k) as [-> ->]; try done. f_equal. by apply IH.
Qed.

(** ** One command *)

(** The tokens are at an end, or go on with one of the symbols. *)
Definition stops (cs : list Z) (ts : list tok) : Prop := ts = [] ∨ ∃ c us, ts = TSym c :: us ∧ c ∈ cs.

Lemma stops_le cs cs' ts : (∀ c, c ∈ cs → c ∈ cs') → stops cs ts → stops cs' ts.
Proof. intros Hc [->|(c & us & -> & Hin)]; [by left|right; exists c, us; auto]. Qed.
Lemma stops_cons cs c us : c ∈ cs → stops cs (TSym c :: us).
Proof. right. by exists c, us. Qed.

Lemma dir_tok_inj d d' : dir_tok d = dir_tok d' → d = d'.
Proof. by destruct d, d'. Qed.

Abbreviation after_exec := [124; 41; 38; 59].
Abbreviation after_pipe := [41; 38; 59].
Abbreviation after_line := [41].

Lemma items_det l : ∀ l' r r',
  (l ≫= item_toks) ++ r = (l' ≫= item_toks) ++ r' → stops after_exec r → stops after_exec r' → l = l' ∧ r = r'.
Proof.
  assert (∀ i l r r', r = ((i :: l) ≫= item_toks) ++ r' → stops after_exec r → False) as Hno.
  { intros i l0 r r' -> [Hr|(c & us & Hr & Hc)]; destruct i as [w|[[] w]]; try done; cbn in Hr; injection Hr as <- _;
      set_solver by lia. }
  induction l as [|i l IH]; intros [|i' l'] r r' He Hr Hr'.
  - done.
  - by destruct (Hno i' l' r r').
  - by destruct (Hno i l r' r).
  - cbn [mbind list_bind] in He. rewrite <-!app_assoc in He.
    assert (i = i' ∧ (l ≫= item_toks) ++ r = (l' ≫= item_toks) ++ r') as [-> He'].
    { destruct i as [w|[d w]], i' as [w'|[d' w']]; cbn in He.
      - by injection He as -> He.
      - by destruct d'.
      - by destruct d.
      - injection He as Hd -> He. by apply dir_tok_inj in Hd as ->. }
    by destruct (IH l' r r' He' Hr Hr') as [-> ->].
Qed.
Lemma redirs_det rs rs' r r' :
  (rs ≫= redir_toks) ++ r = (rs' ≫= redir_toks) ++ r' → stops after_exec r → stops after_exec r' → rs = rs' ∧ r = r'.
Proof.
  intros He Hr Hr'. assert (∀ l, (map IRedir l ≫= item_toks) = (l ≫= redir_toks)) as Hm.
  { intros l. pose proof (redir_items_toks l []) as Hl. cbn in Hl. by rewrite !app_nil_r in Hl. }
  rewrite <-!Hm in He. destruct (items_det _ _ _ _ He Hr Hr') as [Hi ->]. split; [|done].
  clear -Hi. revert rs' Hi. induction rs as [|a rs IH]; intros [|a' rs'] Hi; try done. cbn in Hi. injection Hi as -> Hi.
  f_equal. by apply IH.
Qed.

Lemma amps_det n : ∀ n' r r',
  replicate n (TSym 38) ++ r = replicate n' (TSym 38) ++ r' → stops [41; 59] r → stops [41; 59] r' → n = n' ∧ r = r'.
Proof.
  assert (∀ n r r', r = replicate (S n) (TSym 38) ++ r' → stops [41; 59] r → False) as Hno.
  { intros k r r' -> [?|(c & us & [= <- _] & Hc)]; [done|]. set_solver by lia. }
  induction n as [|n IH]; intros [|n'] r r' He Hr Hr'.
  - done.
  - by destruct (Hno n' r r').
  - by destruct (Hno n r' r).
  - injection He as He. by destruct (IH n' r r' He Hr Hr') as [-> ->].
Qed.
Lemma stops_amps cs n r : 38 ∈ cs → stops cs r → stops cs (replicate n (TSym 38) ++ r).
Proof. intros Hc Hr. destruct n as [|n]; [done|]. by apply stops_cons. Qed.

Scheme g_line_mut := Minimality for g_line Sort Prop
  with g_pipe_mut := Minimality for g_pipe Sort Prop
  with g_exec_mut := Minimality for g_exec Sort Prop.
Combined Scheme g_mut from g_line_mut, g_pipe_mut, g_exec_mut.

(** Two derivations whose tokens start the same list, up to tokens that cannot
    go on. *)
Definition unique (cs : list Z) (G : list tok → com → Prop) (ts : list tok) (c : com) : Prop :=
  ∀ ts' c' r r', G ts' c' → ts ++ r = ts' ++ r' → stops cs r → stops cs r' → ts = ts' ∧ c = c' ∧ r = r'.

Lemma unique_exec_simple l :
  unique after_exec g_exec (l ≫= item_toks) (wrap (item_redirs l) (Simple (item_args l))).
Proof.
  intros ts' c' r r' H' He Hr Hr'. destruct H' as [l' _|ts' c' rs _].
  - by destruct (items_det _ _ _ _ He Hr Hr') as [-> ->].
  - exfalso. destruct l as [|[w|[[] w]] l]; try done. destruct Hr as [->|(c & us & -> & Hc)]; [done|].
    injection He as -> _. set_solver by lia.
Qed.
Lemma unique_exec_block ts c rs :
  unique after_line g_line ts c → unique after_exec g_exec (TSym 40 :: ts ++ TSym 41 :: (rs ≫= redir_toks)) (wrap rs c).
Proof.
  intros IH ts' c' r r' H' He Hr Hr'. destruct H' as [l' _|ts' c' rs' H'].
  - exfalso. destruct l' as [|[w|[[] w]] l']; try done. destruct Hr' as [->|(c' & us & -> & Hc)]; [done|].
    injection He as <- _. set_solver by lia.
  - injection He as He. rewrite <-!app_assoc in He.
    destruct (IH ts' c' _ _ H' He) as (-> & -> & Hr2); [apply stops_cons; set_solver..|].
    injection Hr2 as Hr2. by destruct (redirs_det _ _ _ _ Hr2 Hr Hr') as [-> ->].
Qed.
Lemma unique_pipe_exec ts c : unique after_exec g_exec ts c → unique after_pipe g_pipe ts c.
Proof.
  intros IH ts' c' r r' H' He Hr Hr'. assert (∀ x, x ∈ after_pipe → x ∈ after_exec) as Hle by set_solver.
  destruct H' as [ts' c' H'|ts1 c1 ts2 c2 H1 H2].
  - apply (IH ts' c'); [done|done|by eapply stops_le..].
  - rewrite <-app_assoc in He. destruct (IH ts1 c1 _ _ H1 He) as (_ & _ & ->);
      [by eapply stops_le|apply stops_cons; set_solver|].
    destruct Hr as [?|(c' & us & [= <- _] & Hc)]; [done|]. set_solver by lia.
Qed.
Lemma unique_pipe_pipe ts c ts2 c2 :
  unique after_exec g_exec ts c → unique after_pipe g_pipe ts2 c2 →
  unique after_pipe g_pipe (ts ++ TSym 124 :: ts2) (Pipe c c2).
Proof.
  intros IH IH2 ts' c' r r' H' He Hr Hr'. assert (∀ x, x ∈ after_pipe → x ∈ after_exec) as Hle by set_solver.
  rewrite <-app_assoc in He. destruct H' as [ts' c' H'|ts1 c1 ts3 c3 H1 H3].
  - destruct (IH ts' c' _ _ H' He) as (_ & _ & <-); [apply stops_cons; set_solver|by eapply stops_le|].
    destruct Hr' as [?|(c'' & us & [= <- _] & Hc)]; [done|]. set_solver by lia.
  - rewrite <-app_assoc in He. destruct (IH ts1 c1 _ _ H1 He) as (-> & -> & Hr2); [apply stops_cons; set_solver..|].
    injection Hr2 as Hr2. by destruct (IH2 ts3 c3 r r' H3 Hr2 Hr Hr') as (-> & -> & ->).
Qed.
Lemma unique_line_pipe ts c n :
  unique after_pipe g_pipe ts c → unique after_line g_line (ts ++ replicate n (TSym 38)) (Nat.iter n Back c).
Proof.
  intros IH ts' c' r r' H' He Hr Hr'.
  assert (∀ us, stops after_line us → stops [41; 59] us) as Hle by (intros us; apply stops_le; set_solver).
  assert (∀ k us, stops [41; 59] us → stops after_pipe (replicate k (TSym 38) ++ us)) as Hst.
  { intros k us Hu. apply stops_amps; [set_solver|]. eapply stops_le; [|exact Hu]. set_solver. }
  rewrite <-app_assoc in He. destruct H' as [ts' c' n' H'|ts1 c1 n1 ts2 c2 H1 H2].
  - rewrite <-app_assoc in He. destruct (IH ts' c' _ _ H' He) as (-> & -> & Hr2); [by auto..|].
    by destruct (amps_det _ _ _ _ Hr2 (Hle _ Hr) (Hle _ Hr')) as [-> ->].
  - rewrite <-app_assoc in He. destruct (IH ts1 c1 _ _ H1 He) as (_ & _ & Hr2);
      [by auto|rewrite <-app_assoc; apply Hst, stops_cons; set_solver|].
    rewrite <-app_assoc in Hr2. destruct (amps_det _ _ _ _ Hr2 (Hle _ Hr)) as [_ ->]; [apply stops_cons; set_solver|].
    destruct Hr as [?|(c'' & us & [= <- _] & Hc)]; [done|]. set_solver by lia.
Qed.
Lemma unique_line_list ts c n ts2 c2 :
  unique after_pipe g_pipe ts c → unique after_line g_line ts2 c2 →
  unique after_line g_line (ts ++ replicate n (TSym 38) ++ TSym 59 :: ts2) (List (Nat.iter n Back c) c2).
Proof.
  intros IH IH2 ts' c' r r' H' He Hr Hr'.
  assert (∀ us, stops after_line us → stops [41; 59] us) as Hle by (intros us; apply stops_le; set_solver).
  assert (∀ k us, stops [41; 59] us → stops after_pipe (replicate k (TSym 38) ++ us)) as Hst.
  { intros k us Hu. apply stops_amps; [set_solver|]. eapply stops_le; [|exact Hu]. set_solver. }
  assert (∀ us, stops [41; 59] (TSym 59 :: us)) as Hsemi by (intros us; apply stops_cons; set_solver).
  rewrite <-!app_assoc in He. destruct H' as [ts' c' n' H'|ts1 c1 n1 ts3 c3 H1 H3].
  - rewrite <-app_assoc in He. destruct (IH ts' c' _ _ H' He) as (_ & _ & Hr2); [by apply Hst, Hsemi|by auto|].
    destruct (amps_det _ _ _ _ Hr2 (Hsemi _) (Hle _ Hr')) as [_ <-].
    destruct Hr' as [?|(c'' & us & [= <- _] & Hc)]; [done|]. set_solver by lia.
  - rewrite <-!app_assoc in He. destruct (IH ts1 c1 _ _ H1 He) as (-> & -> & Hr2); [by apply Hst, Hsemi..|].
    destruct (amps_det _ _ _ _ Hr2 (Hsemi _) (Hsemi _)) as [-> Hr3]. injection Hr3 as Hr3.
    by destruct (IH2 ts3 c3 r r' H3 Hr3 Hr Hr') as (-> & -> & ->).
Qed.

Lemma grammar_unique :
  (∀ ts c, g_line ts c → unique after_line g_line ts c) ∧
  (∀ ts c, g_pipe ts c → unique after_pipe g_pipe ts c) ∧
  (∀ ts c, g_exec ts c → unique after_exec g_exec ts c).
Proof.
  apply g_mut.
  - intros. by apply unique_line_pipe.
  - intros. by apply unique_line_list.
  - intros. by apply unique_pipe_exec.
  - intros. by apply unique_pipe_pipe.
  - intros. apply unique_exec_simple.
  - intros. by apply unique_exec_block.
Qed.
Lemma g_line_unique ts c c' : g_line ts c → g_line ts c' → c = c'.
Proof.
  intros H H'. destruct grammar_unique as [U _].
  by destruct (U ts c H ts c' [] [] H' eq_refl) as (_ & -> & _); [left..|].
Qed.

(** ** The lexer and the tokens that are left *)

Section Complete.
Context (arena : Z) (Harena : 0 < arena).
Context (m : mem) (es s0 : Z) (Hs0 : 0 < s0) (Hline : ∀ x, s0 ≤ x < es → m x ≠ 0) (Hes : m es = 0).

Abbreviation str := (str m es).
Abbreviation wf := (wf arena m).
Implicit Types σ : sh.

Lemma lexes_total s : s0 ≤ s ≤ es → ∃ ts, lexes (str s) ts.
Proof.
  remember (Z.to_nat (es - s)) as n eqn:Hn. revert s Hn.
  induction (lt_wf n) as [n _ IH]. intros s -> Hs.
  destruct (gettoken_spec m es s0 Hline Hes s Hs) as (k & _ & Hle & Hk). cbv zeta in *.
  destruct k as [k|]; [|by exists []; apply Hk]. destruct Hk as (Hlt & _ & Hlex).
  destruct (IH (Z.to_nat (es - tk_s (gettoken m s es)))) with (s := tk_s (gettoken m s es)) as [ts Hts]; [lia|done|lia|].
  exists (k :: ts). by apply Hlex.
Qed.

(** Skipping leaves the tokens. *)
Lemma lexed_skip s s1 ts : s0 ≤ s1 ≤ es → (∀ us, lexes (str s1) us → lexes (str s) us) → lexes (str s) ts → lexes (str s1) ts.
Proof.
  intros Hs Hl Ht. destruct (lexes_total s1 Hs) as [us Hu]. by rewrite (lexes_det _ _ Ht us (Hl us Hu)).
Qed.

Lemma gettoken_next s ts :
  s0 ≤ s ≤ es → lexes (str s) ts → let t := gettoken m s es in
  tk_ret t = ret_of (head ts) ∧ s ≤ tk_s t ≤ es ∧ lexes (str (tk_s t)) (tail ts) ∧ (ts ≠ [] → s < tk_s t).
Proof.
  intros Hs Ht. destruct (gettoken_spec m es s0 Hline Hes s Hs) as (k & Hr & Hle & Hk). cbv zeta in *.
  set (t := gettoken m s es) in *. destruct k as [k|].
  - destruct Hk as (Hlt & _ & Hlex). destruct (lexes_total (tk_s t) ltac:(lia)) as [us Hu].
    rewrite (lexes_det _ _ Ht (k :: us) (Hlex us Hu)). done.
  - destruct Hk as [He Hk]. rewrite (lexes_det _ _ Ht [] Hk), He, str_end. split; [done|]. split; [lia|]. split; [constructor|done].
Qed.

Lemma peek_next s ts toks :
  s0 ≤ s ≤ es → Forall (λ c, c ∈ symbols) toks → lexes (str s) ts →
  ∃ s1, peek m s es toks = (starts toks (ret_of (head ts)), s1) ∧ s ≤ s1 ≤ es ∧
    gettoken m s1 es = gettoken m s es ∧ lexes (str s1) ts.
Proof.
  intros Hs Htoks Ht. destruct (peek_spec m es s0 Hline Hes s toks Hs Htoks) as (s1 & Hp & Hs1 & Hg & Hl).
  destruct (gettoken_next s ts Hs Ht) as (Hr & _). cbv zeta in *. rewrite Hr in Hp.
  exists s1. split; [done|]. split; [done|]. split; [done|]. apply (lexed_skip s); [lia|exact Hl|exact Ht].
Qed.

(** What [peek] says where the parser may stop. *)
Lemma starts_stop cs toks ts :
  stops cs ts → (∀ c, c ∈ cs → c ∉ toks ∧ c ≠ 43) → 0 ∉ toks → starts toks (ret_of (head ts)) = false.
Proof.
  intros Hs Hc H0. unfold starts. apply not_true_iff_false. rewrite existsb_elem.
  destruct Hs as [->|(c & us & -> & Hin)]; cbn; [done|]. destruct (Hc c Hin) as [H1 H2].
  by rewrite (proj2 (Z.eqb_neq _ _) H2).
Qed.

(** [f] succeeds, taking [n] bytes and leaving the tokens [rest]. *)
Definition takes (n : Z) (rest : list tok) (s : Z) σ (f : M sh (Z * Z)) : Prop :=
  ∃ p s' σ', f σ = Ret (p, s') σ' ∧ wf σ' ∧ sh_used σ' = sh_used σ + n ∧ s ≤ s' ≤ es ∧ lexes (str s') rest.

Lemma new_node_takes n σ :
  wf σ → sh_used σ + sizeof n ≤ MAXN →
  ∃ p σ', new_node arena n σ = Ret p σ' ∧ wf σ' ∧ sh_used σ' = sh_used σ + sizeof n ∧
    sh_heap σ' p = Some n.
Proof.
  intros Hw Hu. pose proof (new_node_safe arena Harena m n σ Hw) as Hs.
  assert (∃ p σ', new_node arena n σ = Ret p σ') as (p & σ' & E).
  { unfold new_node, malloc1, put_node, gets, modify, mbind, M_bind. cbn.
    destruct (Z.ltb_spec MAXN (sh_used σ + sizeof n)); [lia|]. by do 2 eexists. }
  rewrite E in Hs. destruct Hs as (Hw' & _ & _ & Hp & He). exists p, σ'. split; [done|]. split; [done|]. split; [apply He|done].
Qed.

Lemma parseredirs_takes rs : ∀ fuel cmd s σ rest,
  wf σ → s0 ≤ s ≤ es → es - s < Z.of_nat fuel → sh_used σ + redir_size rs ≤ MAXN →
  lexes (str s) ((rs ≫= redir_toks) ++ rest) → starts [60; 62] (ret_of (head rest)) = false →
  takes (redir_size rs) rest s σ (parseredirs_loop arena fuel cmd s es).
Proof.
  assert (Forall (λ c, c ∈ symbols) [60; 62]) as Hsym by (unfold symbols; repeat constructor; set_solver).
  induction rs as [|[d w] rs IH]; intros [|fuel] cmd s σ rest Hw Hs Hf Hu Hl Hstop; try lia; cbn [parseredirs_loop];
    unfold memory; unfold takes; (erewrite mbind_ret by reflexivity); rewrite (wf_mem _ _ _ Hw).
  - destruct (peek_next s _ [60; 62] Hs Hsym Hl) as (s1 & -> & Hs1 & _ & Hl1). cbn [app] in *. cbn [mbind list_bind app] in *.
    rewrite Hstop. exists cmd, s1, σ. split; [done|]. split; [done|]. split; [unfold redir_size; cbn; lia|done].
  - destruct (peek_next s _ [60; 62] Hs Hsym Hl) as (s1 & -> & Hs1 & _ & Hl1).
    cbn [mbind list_bind redir_toks fst snd app head] in *.
    assert (starts [60; 62] (ret_of (Some (dir_tok d))) = true) as -> by by destruct d.
    destruct (gettoken_next s1 _ ltac:(lia) Hl1) as (Hr & Hlt & Hl2 & Hpos). cbv zeta in *. cbn [head tail] in *.
    set (t := gettoken m s1 es) in *.
    destruct (gettoken_next (tk_s t) _ ltac:(lia) Hl2) as (Hr2 & Hlt2 & Hl3 & _). cbv zeta in *. cbn [head tail ret_of] in *.
    rewrite Hr2. cbn [Z.eqb Pos.eqb negb]. set (f := gettoken m (tk_s t) es) in *.
    assert (sh_used σ + 40 ≤ MAXN) as Hu1 by (unfold redir_size in Hu; cbn [length] in Hu; lia).
    destruct (new_node_takes (NRedir cmd (tk_q f) (tk_eq f) (dir_mode d).1 (dir_mode d).2) σ Hw Hu1)
      as (p & σ1 & E1 & Hw1 & Hu2 & _).
    assert ((if tk_ret t =? 60 then redircmd arena cmd (tk_q f) (tk_eq f) ["O_RDONLY"] 0
             else if tk_ret t =? 62 then redircmd arena cmd (tk_q f) (tk_eq f) ["O_WRONLY"; "O_CREAT"] 1
             else if tk_ret t =? 43 then redircmd arena cmd (tk_q f) (tk_eq f) ["O_WRONLY"; "O_CREAT"] 1
             else mret cmd) σ = Ret p σ1) as E by (rewrite Hr; destruct d; exact E1).
    mstep E. cbn [sizeof] in Hu2.
    assert (s1 < tk_s t) by (by apply Hpos).
    destruct (IH fuel p (tk_s f) σ1 rest Hw1) as (p' & s' & σ' & E' & Hw' & Hu' & Hs' & Hl'); try done; try lia.
    { unfold redir_size in *. cbn [length] in *. lia. }
    exists p', s', σ'. split; [done|]. split; [done|]. split; [unfold redir_size in *; cbn [length] in *; lia|]. split; [lia|done].
Qed.

(** ** Simple commands *)

Definition no_redir (l : list item) : Prop := match l with IRedir _ :: _ => False | _ => True end.
Lemma split_items l : ∃ rs l', l = map IRedir rs ++ l' ∧ no_redir l'.
Proof.
  induction l as [|[w|r] l (rs & l' & -> & Hn)]; [by exists [], []|by exists [], (IWord w :: map IRedir rs ++ l')|].
  by exists (r :: rs), l'.
Qed.
Lemma stop_redir rest : stops after_exec rest → starts [60; 62] (ret_of (head rest)) = false.
Proof. intros Hr. apply (starts_stop after_exec); [done| |]; set_solver by lia. Qed.
Lemma no_redir_stop l rest :
  no_redir l → stops after_exec rest → starts [60; 62] (ret_of (head ((l ≫= item_toks) ++ rest))) = false.
Proof. intros Hl Hr. destruct l as [|[w|r] l]; [by apply stop_redir|done|done]. Qed.
Lemma stop_after_exec rest : stops after_exec rest →
  starts after_exec (ret_of (head rest)) = true ∨ starts after_exec (ret_of (head rest)) = false ∧ rest = [].
Proof.
  intros [->|(c & us & -> & Hc)]; [by right|left]. unfold starts. apply existsb_elem. cbn.
  destruct (Z.eqb_spec c 43) as [->|]; [|done]. set_solver by lia.
Qed.

Lemma args_loop_takes fuel : ∀ l cmd ret argc s σ rest argv eargv,
  wf σ → s0 ≤ s ≤ es → es - s < Z.of_nat fuel → sh_heap σ cmd = Some (NExec argv eargv) →
  argc + Z.of_nat (length (item_args l)) < MAXARGS →
  sh_used σ + redir_size (item_redirs l) ≤ MAXN → no_redir l → stops after_exec rest →
  lexes (str s) ((l ≫= item_toks) ++ rest) →
  ∃ ret' argc' s' σ', args_loop arena fuel cmd ret argc s es σ = Ret (ret', argc', s') σ' ∧ wf σ' ∧
    sh_used σ' = sh_used σ + redir_size (item_redirs l) ∧ s ≤ s' ≤ es ∧ lexes (str s') rest ∧
    ∃ argv' eargv', sh_heap σ' cmd = Some (NExec argv' eargv').
Proof.
  assert (Forall (λ c, c ∈ symbols) after_exec) as Hsym by (unfold symbols; repeat constructor; set_solver).
  induction fuel as [|fuel IH]; intros l cmd ret argc s σ rest argv eargv Hw Hs Hf Hcmd Hmax Hu Hl Hrest Hlex; [lia|].
  cbn [args_loop]. unfold memory. erewrite mbind_ret by reflexivity. rewrite (wf_mem _ _ _ Hw).
  destruct (peek_next s _ after_exec Hs Hsym Hlex) as (s1 & -> & Hs1 & _ & Hl1).
  destruct (gettoken_next s1 _ ltac:(lia) Hl1) as (Hr & Hlt & Hl2 & Hpos). cbv zeta in *. set (t := gettoken m s1 es) in *.
  destruct l as [|[w|r] l]; [| |done].
  { cbn [mbind list_bind app] in *.
    assert (∀ s', s ≤ s' ≤ es → lexes (str s') rest →
      ∃ ret' argc' s'' σ', Ret (ret, argc, s') σ = Ret (ret', argc', s'') σ' ∧ wf σ' ∧
        sh_used σ' = sh_used σ + redir_size (item_redirs []) ∧ s ≤ s'' ≤ es ∧ lexes (str s'') rest ∧
        ∃ argv' eargv', sh_heap σ' cmd = Some (NExec argv' eargv')) as Hstop.
    { intros s' Hs' Hl'. exists ret, argc, s', σ. split; [done|]. split; [done|]. split; [unfold redir_size; cbn; lia|].
      split; [done|]. split; [done|]. by exists argv, eargv. }
    destruct (stop_after_exec rest Hrest) as [->|[-> Hnil]]; [apply Hstop; [lia|done]|].
    rewrite Hr, Hnil in *. cbn [head ret_of tail] in *. apply Hstop; [lia|done]. }
  cbn [mbind list_bind item_toks app head tail item_args item_redirs omap list_omap length] in *.
  assert (starts after_exec (ret_of (Some (TWord w))) = false) as -> by done. rewrite Hr. cbn [ret_of Z.eqb Pos.eqb negb].
  unfold get_exec, get_node, put_node.
  erewrite mbind_ret; [|erewrite mbind_ret; [|unfold gets; erewrite mbind_ret; [|reflexivity]; cbv beta; rewrite Hcmd; reflexivity]; reflexivity].
  unfold modify. erewrite mbind_ret by reflexivity. cbv beta.
  destruct (Z.leb_spec MAXARGS (argc + 1)) as [|_]; [lia|].
  set (n1 := NExec _ _). destruct (put_node_wf arena m σ cmd n1 Hw ltac:(by rewrite Hcmd)) as [Hw1 _]. cbv zeta in *.
  set (σ1 := Sh _ _ _) in *. assert (sh_heap σ1 cmd = Some n1) as Hcmd1 by (cbn; apply upd_eq).
  assert (sh_used σ1 = sh_used σ) as Hu1 by done. clearbody σ1.
  assert (s < tk_s t) as Hst by (specialize (Hpos ltac:(done)); lia).
  destruct (split_items l) as (rs & l' & -> & Hn').
  change (omap _ (map IRedir rs ++ l')) with (item_redirs (map IRedir rs ++ l')) in Hu |- *.
  change (omap _ (map IRedir rs ++ l')) with (item_args (map IRedir rs ++ l')) in Hmax.
  rewrite redir_items_args in Hmax. rewrite redir_items_redirs, redir_size_app in *.
  rewrite redir_items_toks, <-app_assoc in Hl2.
  assert (0 ≤ redir_size (item_redirs l')) as Hpos' by (unfold redir_size; lia).
  destruct (parseredirs_takes rs (Z.to_nat (es - tk_s t) + 1) ret (tk_s t) σ1 _ Hw1 ltac:(lia) ltac:(lia) ltac:(lia) Hl2
              (no_redir_stop l' rest Hn' Hrest)) as (ret2 & s2 & σ2 & E2 & Hw2 & Hu2 & Hs2 & Hl3).
  pose proof (parseredirs_loop_safe arena Harena m es s0 Hs0 Hline Hes (Z.to_nat (es - tk_s t) + 1) ret (tk_s t) σ1 Hw1
                ltac:(lia) ltac:(lia)) as Hsafe. rewrite E2 in Hsafe. destruct Hsafe as (_ & _ & rs' & _ & _ & He2).
  pose proof (ext_node arena Harena m _ _ _ _ _ Hw1 He2 Hcmd1) as Hcmd2.
  unfold parseredirs. mstep E2.
  destruct (IH l' cmd ret2 (argc + 1) s2 σ2 rest _ _ Hw2 ltac:(lia) ltac:(lia) Hcmd2) as
    (ret' & argc' & s' & σ' & E' & Hw' & Hu' & Hs' & Hl' & Hcmd'); try done; try lia.
  exists ret', argc', s', σ'. split; [exact E'|]. split; [done|]. split; [lia|]. split; [lia|]. by split.
Qed.

(** ** The four functions *)

Definition accepts (f : nat → Z → Z → M sh (Z * Z)) (k : Z) (cs : list Z) (ts : list tok) (c : com) : Prop :=
  ∀ fuel s σ rest, wf σ → s0 ≤ s ≤ es → fuel_ok es fuel s k → lexes (str s) (ts ++ rest) → stops cs rest →
    sh_used σ + cost c ≤ MAXN → takes (cost c) rest s σ (f fuel s es).

(** [peek] for one symbol, which is next or not. *)
Lemma peek_one s ts c :
  s0 ≤ s ≤ es → c ∈ symbols → c ≠ 62 → lexes (str s) ts →
  ∃ s1, s ≤ s1 ≤ es ∧ lexes (str s1) ts ∧
    match ts with
    | TSym c' :: us => c' = c →
        peek m s es [c] = (true, s1) ∧ s < tk_s (gettoken m s1 es) ≤ es ∧ lexes (str (tk_s (gettoken m s1 es))) us
    | _ => True
    end ∧ (head ts ≠ Some (TSym c) → peek m s es [c] = (false, s1)).
Proof.
  intros Hs Hc Hne Hl. destruct (peek_next s ts [c] Hs) as (s1 & Hp & Hs1 & _ & Hl1); [by apply Forall_singleton|done|].
  exists s1. split; [done|]. split; [done|]. rewrite Hp.
  assert (c ≠ 43 ∧ c ≠ 0 ∧ c ≠ 97) as (H43 & H0 & H97) by (revert Hc; unfold symbols; set_solver by lia).
  split.
  - destruct ts as [|[w|c'|] us]; try done. intros ->. cbn [head ret_of]. unfold starts.
    rewrite (proj2 (Z.eqb_neq _ _) H43). cbn [existsb]. rewrite Z.eqb_refl. cbn [orb]. split; [done|].
    destruct (gettoken_next s1 _ ltac:(lia) Hl1) as (_ & Hlt & Hl2 & Hpos). cbv zeta in *. specialize (Hpos ltac:(done)).
    split; [lia|done].
  - intros Hh. f_equal. unfold starts. cbn [existsb]. rewrite orb_false_r. apply Z.eqb_neq.
    destruct ts as [|[w|c'|] us]; cbn [head ret_of] in *.
    + done.
    + done.
    + destruct (c' =? 43) eqn:Hc'; [by apply not_eq_sym|]. congruence.
    + done.
Qed.
Lemma stops_head cs ts c : stops cs ts → c ∉ cs → head ts ≠ Some (TSym c).
Proof. intros [->|(c' & us & -> & Hin)] Hc; [done|]. by intros [= ->]. Qed.

Ltac start := unfold takes; unfold memory; (erewrite mbind_ret by reflexivity); erewrite wf_mem by eassumption.

Lemma back_loop_takes n : ∀ fuel cmd s σ rest,
  wf σ → s0 ≤ s ≤ es → es - s < Z.of_nat fuel → sh_used σ + 16 * Z.of_nat n ≤ MAXN →
  lexes (str s) (replicate n (TSym 38) ++ rest) → stops [41; 59] rest →
  takes (16 * Z.of_nat n) rest s σ (back_loop arena fuel cmd s es).
Proof.
  induction n as [|n IH]; intros [|fuel] cmd s σ rest Hw Hs Hf Hu Hl Hrest; try lia; cbn [back_loop replicate app] in *; start;
    destruct (peek_one s _ 38 Hs ltac:(sym) ltac:(done) Hl) as (s1 & Hs1 & Hl1 & Hyes & Hno).
  - rewrite Hno by (eapply stops_head; [done|set_solver by lia]). exists cmd, s1, σ. split_and!; (done || lia).
  - destruct (Hyes eq_refl) as (-> & Hlt & Hl2). clear Hno Hyes.
    destruct (new_node_takes (NBack cmd) σ Hw) as (p & σ1 & E1 & Hw1 & Hu1 & _); [cbn [sizeof]; lia|].
    unfold backcmd. mstep E1. cbn [sizeof] in Hu1.
    destruct (IH fuel p (tk_s (gettoken m s1 es)) σ1 rest) as (p' & s' & σ' & E & ? & ? & ? & ?); try done; try lia.
    exists p', s', σ'. split_and!; (done || lia).
Qed.

Lemma accepts_block ts c rs fuel s σ rest :
  accepts (parseline arena) 4 after_line ts c →
  wf σ → s0 ≤ s ≤ es → fuel_ok es fuel s 1 → lexes (str s) ((TSym 40 :: ts ++ TSym 41 :: (rs ≫= redir_toks)) ++ rest) →
  stops after_exec rest → sh_used σ + cost (wrap rs c) ≤ MAXN →
  takes (cost (wrap rs c)) rest s σ (parseblock arena fuel s es).
Proof.
  intros IH Hw Hs Hf Hl Hrest Hu. unfold fuel_ok in Hf. destruct fuel as [|fuel]; [lia|]. cbn [parseblock]. start.
  cbn [app] in Hl. rewrite <-app_assoc in Hl. cbn [app] in Hl. rewrite cost_wrap in *.
  assert (0 ≤ redir_size rs) by (unfold redir_size; lia).
  destruct (peek_one s _ 40 Hs ltac:(sym) ltac:(done) Hl) as (s1 & Hs1 & _ & Hyes & _).
  destruct (Hyes eq_refl) as (-> & Hlt & Hl2). cbn [negb].
  destruct (IH fuel (tk_s (gettoken m s1 es)) σ _ Hw ltac:(lia) ltac:(unfold fuel_ok; lia) Hl2) as
    (p & s2 & σ2 & E2 & Hw2 & Hu2 & Hs2 & Hl3); [apply stops_cons; set_solver|lia|].
  mstep E2.
  destruct (peek_one s2 _ 41 ltac:(lia) ltac:(sym) ltac:(done) Hl3) as (s3 & Hs3 & _ & Hyes3 & _).
  destruct (Hyes3 eq_refl) as (-> & Hlt3 & Hl4). cbn [negb].
  destruct (parseredirs_takes rs (Z.to_nat (es - tk_s (gettoken m s3 es)) + 1) p (tk_s (gettoken m s3 es)) σ2 rest) as
    (p' & s' & σ' & E & ? & ? & ? & ?); try done; try lia; [by apply stop_redir|].
  exists p', s', σ'. split; [exact E|]. split_and!; (done || lia).
Qed.

Lemma accepts_exec_block ts c rs :
  accepts (parseline arena) 4 after_line ts c →
  accepts (parseexec arena) 2 after_exec (TSym 40 :: ts ++ TSym 41 :: (rs ≫= redir_toks)) (wrap rs c).
Proof.
  intros IH fuel s σ rest Hw Hs Hf Hl Hrest Hu. unfold fuel_ok in Hf. destruct fuel as [|fuel]; [lia|]. cbn [parseexec]. start.
  destruct (peek_one s _ 40 Hs ltac:(sym) ltac:(done) Hl) as (s1 & Hs1 & Hl1 & Hyes & _).
  destruct (Hyes eq_refl) as (-> & _).
  destruct (accepts_block ts c rs fuel s1 σ rest) as (p & s' & σ' & E & ? & ? & ? & ?); try done; [lia|unfold fuel_ok; lia|].
  exists p, s', σ'. split_and!; (done || lia).
Qed.

Lemma accepts_exec_simple l :
  Z.of_nat (length (item_args l)) < MAXARGS →
  accepts (parseexec arena) 2 after_exec (l ≫= item_toks) (wrap (item_redirs l) (Simple (item_args l))).
Proof.
  intros Hmax fuel s σ rest Hw Hs Hf Hl Hrest Hu. unfold fuel_ok in Hf. destruct fuel as [|fuel]; [lia|].
  cbn [parseexec]. start. rewrite cost_wrap in *. cbn [cost] in *.
  destruct (peek_one s _ 40 Hs ltac:(sym) ltac:(done) Hl) as (s1 & Hs1 & Hl1 & _ & Hno).
  rewrite Hno.
  2:{ destruct l as [|[w|[[] w]] l]; cbn; try done. eapply stops_head; [done|set_solver by lia]. }
  destruct (split_items l) as (rs & l' & -> & Hn').
  rewrite redir_items_args in Hmax. rewrite redir_items_redirs, redir_size_app in *.
  rewrite redir_items_toks, <-app_assoc in Hl1.
  assert (0 ≤ redir_size (item_redirs l') ∧ 0 ≤ redir_size rs) as [? ?] by (unfold redir_size; lia).
  set (n := NExec (replicate (Z.to_nat MAXARGS) 0) (replicate (Z.to_nat MAXARGS) 0)).
  assert (sizeof n = 168) as Hsz by done.
  destruct (new_node_takes n σ Hw ltac:(lia)) as (cmd & σ1 & E1 & Hw1 & Hu1 & Hcmd). unfold execcmd. fold n. mstep E1.
  destruct (parseredirs_takes rs (Z.to_nat (es - s1) + 1) cmd s1 σ1 _ Hw1 ltac:(lia) ltac:(lia) ltac:(lia) Hl1
              (no_redir_stop l' rest Hn' Hrest)) as (ret2 & s2 & σ2 & E2 & Hw2 & Hu2 & Hs2 & Hl3).
  pose proof (parseredirs_loop_safe arena Harena m es s0 Hs0 Hline Hes (Z.to_nat (es - s1) + 1) cmd s1 σ1 Hw1
                ltac:(lia) ltac:(lia)) as Hsafe. rewrite E2 in Hsafe. destruct Hsafe as (_ & _ & rs' & _ & _ & He2).
  pose proof (ext_node arena Harena m _ _ _ _ _ Hw1 He2 Hcmd) as Hcmd2.
  unfold parseredirs. mstep E2.
  destruct (args_loop_takes (Z.to_nat (es - s2) + 1) l' cmd ret2 0 s2 σ2 rest _ _ Hw2 ltac:(lia) ltac:(lia) Hcmd2) as
    (ret' & argc' & s' & σ' & E' & Hw' & Hu' & Hs' & Hl' & argv' & eargv' & Hcmd'); try done; try lia.
  mstep E'. unfold get_exec, get_node, put_node.
  erewrite mbind_ret; [|erewrite mbind_ret; [|unfold gets; erewrite mbind_ret; [|reflexivity]; cbv beta; rewrite Hcmd'; reflexivity]; reflexivity].
  unfold modify. erewrite mbind_ret by reflexivity. cbv beta.
  set (n2 := NExec _ _). destruct (put_node_wf arena m σ' cmd n2 Hw' ltac:(by rewrite Hcmd')) as [Hw3 _]. cbv zeta in *.
  eexists ret', s', _. split; [reflexivity|]. split; [exact Hw3|]. cbn [sh_used]. split; [lia|]. split; [lia|done].
Qed.

Lemma accepts_pipe_exec ts c :
  accepts (parseexec arena) 2 after_exec ts c → accepts (parsepipe arena) 3 after_pipe ts c.
Proof.
  intros IH fuel s σ rest Hw Hs Hf Hl Hrest Hu. unfold fuel_ok in Hf. destruct fuel as [|fuel]; [lia|]. cbn [parsepipe].
  destruct (IH fuel s σ rest) as (p & s1 & σ1 & E1 & Hw1 & Hu1 & Hs1 & Hl1); try done;
    [unfold fuel_ok; lia|eapply stops_le; [|done]; set_solver|].
  unfold takes. mstep E1. start.
  destruct (peek_one s1 _ 124 ltac:(lia) ltac:(sym) ltac:(done) Hl1) as (s2 & Hs2 & Hl2 & _ & Hno).
  rewrite Hno by (eapply stops_head; [done|set_solver by lia]).
  exists p, s2, σ1. split_and!; (done || lia).
Qed.
Lemma accepts_pipe_pipe ts c ts2 c2 :
  accepts (parseexec arena) 2 after_exec ts c → accepts (parsepipe arena) 3 after_pipe ts2 c2 →
  accepts (parsepipe arena) 3 after_pipe (ts ++ TSym 124 :: ts2) (Pipe c c2).
Proof.
  intros IH IH2 fuel s σ rest Hw Hs Hf Hl Hrest Hu. unfold fuel_ok in Hf. destruct fuel as [|fuel]; [lia|].
  cbn [parsepipe cost] in *. rewrite <-app_assoc in Hl. cbn [app] in Hl.
  assert (0 ≤ cost c ∧ 0 ≤ cost c2) as [? ?] by (pose proof (depth_cost c); pose proof (depth_cost c2); lia).
  destruct (IH fuel s σ _ Hw Hs ltac:(unfold fuel_ok; lia) Hl) as (p & s1 & σ1 & E1 & Hw1 & Hu1 & Hs1 & Hl1);
    [apply stops_cons; set_solver|lia|].
  unfold takes. mstep E1. start.
  destruct (peek_one s1 _ 124 ltac:(lia) ltac:(sym) ltac:(done) Hl1) as (s2 & Hs2 & _ & Hyes & _).
  destruct (Hyes eq_refl) as (-> & Hlt & Hl2).
  destruct (IH2 fuel (tk_s (gettoken m s2 es)) σ1 rest) as (p2 & s3 & σ3 & E3 & Hw3 & Hu3 & Hs3 & Hl3); try done;
    [lia|unfold fuel_ok; lia|lia|].
  mstep E3. destruct (new_node_takes (NPipe p p2) σ3 Hw3) as (p' & σ' & E' & Hw' & Hu' & _); [cbn [sizeof]; lia|].
  cbn [sizeof] in Hu'. unfold pipecmd. mstep E'. exists p', s3, σ'. split_and!; (done || lia).
Qed.

(** A pipeline with its [&]s. *)
Lemma line_start ts c n fuel s σ rest :
  accepts (parsepipe arena) 3 after_pipe ts c →
  wf σ → s0 ≤ s ≤ es → fuel_ok es fuel s 3 → lexes (str s) (ts ++ replicate n (TSym 38) ++ rest) →
  stops [41; 59] rest → sh_used σ + cost (Nat.iter n Back c) ≤ MAXN →
  ∃ p1 s1 σ1, parsepipe arena fuel s es σ = Ret (p1, s1) σ1 ∧ s ≤ s1 ∧
    ∃ p s' σ', back_loop arena (Z.to_nat (es - s1) + 1) p1 s1 es σ1 = Ret (p, s') σ' ∧
      wf σ' ∧ sh_used σ' = sh_used σ + cost (Nat.iter n Back c) ∧ s ≤ s' ≤ es ∧ lexes (str s') rest.
Proof.
  intros IH Hw Hs Hf Hl Hrest Hu. rewrite cost_iter in *.
  destruct (IH fuel s σ _ Hw Hs Hf Hl) as (p1 & s1 & σ1 & E1 & Hw1 & Hu1 & Hs1 & Hl1);
    [apply stops_amps; [set_solver|]; eapply stops_le; [|done]; set_solver|lia|].
  exists p1, s1, σ1. split; [done|]. split; [lia|].
  destruct (back_loop_takes n (Z.to_nat (es - s1) + 1) p1 s1 σ1 rest) as (p & s' & σ' & E & ? & ? & ? & ?); try done; try lia.
  exists p, s', σ'. split_and!; (done || lia).
Qed.
Lemma accepts_line_pipe ts c n :
  accepts (parsepipe arena) 3 after_pipe ts c →
  accepts (parseline arena) 4 after_line (ts ++ replicate n (TSym 38)) (Nat.iter n Back c).
Proof.
  intros IH fuel s σ rest Hw Hs Hf Hl Hrest Hu. unfold fuel_ok in Hf. destruct fuel as [|fuel]; [lia|]. cbn [parseline].
  rewrite <-app_assoc in Hl.
  destruct (line_start ts c n fuel s σ rest) as (p1 & s1 & σ1 & E1 & Hs1 & p & s2 & σ2 & E2 & Hw2 & Hu2 & Hs2 & Hl2);
    try done; [unfold fuel_ok; lia|eapply stops_le; [|done]; set_solver|].
  unfold takes. mstep E1. cbv beta iota. mstep E2. start.
  destruct (peek_one s2 _ 59 ltac:(lia) ltac:(sym) ltac:(done) Hl2) as (s3 & Hs3 & Hl3 & _ & Hno).
  rewrite Hno by (eapply stops_head; [done|set_solver by lia]).
  exists p, s3, σ2. split_and!; (done || lia).
Qed.
Lemma accepts_line_list ts c n ts2 c2 :
  accepts (parsepipe arena) 3 after_pipe ts c → accepts (parseline arena) 4 after_line ts2 c2 →
  accepts (parseline arena) 4 after_line (ts ++ replicate n (TSym 38) ++ TSym 59 :: ts2) (List (Nat.iter n Back c) c2).
Proof.
  intros IH IH2 fuel s σ rest Hw Hs Hf Hl Hrest Hu. unfold fuel_ok in Hf. destruct fuel as [|fuel]; [lia|].
  cbn [parseline cost] in *. rewrite <-!app_assoc in Hl. cbn [app] in Hl.
  assert (0 ≤ cost c2) by (pose proof (depth_cost c2); lia).
  destruct (line_start ts c n fuel s σ (TSym 59 :: ts2 ++ rest)) as
    (p1 & s1 & σ1 & E1 & Hs1 & p & s2 & σ2 & E2 & Hw2 & Hu2 & Hs2 & Hl2);
    try done; [unfold fuel_ok; lia|apply stops_cons; set_solver|lia|].
  unfold takes. mstep E1. cbv beta iota. mstep E2. start.
  destruct (peek_one s2 _ 59 ltac:(lia) ltac:(sym) ltac:(done) Hl2) as (s3 & Hs3 & _ & Hyes & _).
  destruct (Hyes eq_refl) as (-> & Hlt & Hl3).
  destruct (IH2 fuel (tk_s (gettoken m s3 es)) σ2 rest) as (p2 & s4 & σ4 & E4 & Hw4 & Hu4 & Hs4 & Hl4); try done;
    [lia|unfold fuel_ok; lia|lia|].
  mstep E4. destruct (new_node_takes (NList p p2) σ4 Hw4) as (p' & σ' & E' & Hw' & Hu' & _); [cbn [sizeof]; lia|].
  cbn [sizeof] in Hu'. unfold listcmd. mstep E'. exists p', s4, σ'. split_and!; (done || lia).
Qed.

Lemma grammar_accepted :
  (∀ ts c, g_line ts c → accepts (parseline arena) 4 after_line ts c) ∧
  (∀ ts c, g_pipe ts c → accepts (parsepipe arena) 3 after_pipe ts c) ∧
  (∀ ts c, g_exec ts c → accepts (parseexec arena) 2 after_exec ts c).
Proof.
  apply g_mut; intros.
  - by apply accepts_line_pipe.
  - by apply accepts_line_list.
  - by apply accepts_pipe_exec.
  - by apply accepts_pipe_pipe.
  - by apply accepts_exec_simple.
  - by apply accepts_exec_block.
Qed.
End Complete.

(** ** Lines *)

(** Behind the last token there is only white space. *)
Lemma peek_end m es s0 s toks :
  (∀ x, s0 ≤ x < es → m x ≠ 0) → m es = 0 → s0 ≤ s ≤ es → lexes (str m es s) [] → (peek m s es toks).2 = es.
Proof.
  intros Hline Hes Hs Hl. unfold peek. cbn [snd].
  destruct (skip_space_spec m es s0 Hline Hes s Hs) as (Hs' & Hw & Hlex & _). cbv zeta in *.
  set (s' := skip_space (Z.to_nat (es - s)) m s) in *.
  pose proof (lexed_skip m es s0 Hline Hes s s' [] ltac:(lia) Hlex Hl) as Hl'.
  destruct (decide (s' < es)) as [Hlt|]; [exfalso|lia]. rewrite str_cons in Hl' by done.
  apply lexes_cons_inv in Hl' as [[? _]|[(_ & _ & us & ? & _)|[(_ & _ & us & ? & _)|[(_ & l' & us & _ & ? & _)|
    (_ & w & l' & us & _ & _ & _ & _ & ? & _)]]]]; done.
Qed.

(** A line that the grammar derives to a command that fits into the arena is
    parsed to this command. *)
Lemma parsecmd_complete arena σ s line nbuf ts c :
  0 < arena → 0 < s → cstr (sh_mem σ) s line → (length line < nbuf)%nat →
  0 ≤ sh_used σ → (∀ a, is_Some (sh_heap σ a) → arena ≤ a < arena + sh_used σ) →
  lexes line ts → g_line ts c → sh_used σ + cost c ≤ MAXN →
  ∃ p σ', parsecmd arena nbuf s σ = Ret p σ' ∧ represents (length line) σ' p c ∧
    (∀ a n, sh_heap σ' a = Some n → a ≠ 0) ∧ (depth c ≤ Z.to_nat MAXN)%nat.
Proof.
  intros Ha Hs Hl Hn Hu Hh Hlex HG Hcost.
  assert (0 ≤ cost c) by (pose proof (depth_cost c); lia).
  pose proof (parsecmd_sound arena σ s line nbuf Ha Hs Hl Hn ltac:(lia) Hh) as Hsound.
  destruct (cstr_line _ _ _ Hl) as (Hline & Hes & Hstr). cbv zeta in *.
  set (es := s + Z.of_nat (length line)) in *. set (m := sh_mem σ) in *.
  assert (wf arena m σ) as Hw by (split; [done|lia|done]).
  destruct (grammar_accepted arena Ha m es s Hs Hline Hes) as [Hacc _].
  destruct (Hacc ts c HG (4 * length line + 4)%nat s σ []) as (p1 & s1 & σ1 & E1 & _ & _ & Hs1 & Hl1); try done;
    [lia|unfold fuel_ok; lia|by rewrite app_nil_r, Hstr|by left|].
  pose proof (parse_good arena Ha m es s Hs Hline Hes (4 * length line + 4)%nat) as [Hgood _].
  specialize (Hgood s σ Hw ltac:(lia) ltac:(unfold fuel_ok; lia)). rewrite E1 in Hgood.
  destruct Hgood as (Hw1 & _ & ts1 & c1 & _ & _ & Hrep & He). cbn [fst] in Hrep.
  assert (depth c1 ≤ Z.to_nat MAXN)%nat as Hd.
  { pose proof (depth_cost c1). pose proof (ext_used _ _ _ _ He). pose proof (wf_used _ _ _ Hw1). lia. }
  destruct (nulterminate_spec m es s (Z.to_nat MAXN) p1 c1 σ1 Hrep) as (σ2 & E2 & _);
    [intros a n; exact (node_not_null arena Ha m σ1 a n Hw1)|exact Hd|].
  assert (parsecmd arena nbuf s σ = Ret p1 σ2) as Hrun.
  { unfold parsecmd, memory. erewrite mbind_ret by reflexivity. cbv beta. fold m.
    unfold strlen. rewrite (strlen_loop_spec nbuf m s line 0 Hl Hn), Z.add_0_l. fold es. rewrite Nat2Z.id.
    mstep E1. cbv beta iota. pose proof (peek_end m es s s1 [] Hline Hes ltac:(lia) Hl1) as Hend.
    destruct (peek m s1 es []) as [b s2]. cbn [snd] in Hend. rewrite Hend, Z.eqb_refl. cbn [negb]. by mstep E2. }
  rewrite Hrun in Hsound. destruct Hsound as (_ & ts' & c' & Hlex' & HG' & Hrep' & Hnn & Hd').
  rewrite <-(lexes_det _ _ Hlex _ Hlex') in HG'. rewrite <-(g_line_unique _ _ _ HG HG') in Hrep', Hd'.
  by exists p1, σ2.
Qed.

(** C40: The child that the shell forks accepts the whole grammar.  If the line
    consists of the tokens [ts], the grammar derives from them the command
    [c], and the structures of [c] fit into what is left of the arena, then
    the child makes exactly the calls of the [meaning] of [c]: it does not
    exit with an error message, and no other reading of the line is possible. *)
Theorem child_complete arena buf σ line ts c :
  0 < arena → 0 < buf → cstr (sh_mem σ) buf line → Z.of_nat (length line) < BUFSIZE →
  0 ≤ sh_used σ → (∀ a, is_Some (sh_heap σ a) → arena ≤ a < arena + sh_used σ) →
  lexes line ts → g_line ts c → sh_used σ + cost c ≤ MAXN →
  prog_eq (child arena buf σ) (meaning c) ∧
  (∀ ts' c', lexes line ts' → g_line ts' c' → ts' = ts ∧ c' = c).
Proof.
  intros Ha Hb Hl Hn Hu Hh Hlex HG Hcost. split.
  - destruct (parsecmd_complete arena σ buf line (Z.to_nat BUFSIZE) ts c) as (p & σ' & E & Hrep & Hnn & Hd);
      try done; [lia|]. unfold child. rewrite E. eapply runcmd_meaning; [exact Hrep|exact Hnn|lia|exact Hd].
  - intros ts' c' Hlex' HG'. rewrite <-(lexes_det _ _ Hlex _ Hlex') in *. split; [done|]. by eapply g_line_unique.
Qed.

(** [ls | wc &]. *)
Definition ex_pipe_line : list Z := [108; 115; 32; 124; 32; 119; 99; 32; 38; 10].
Definition ex_pipe_sh : sh := Sh (mwrite (λ _, 0) 100 ex_pipe_line) (λ _, None) 0.
Definition ex_pipe_com : com := Back (Pipe (Simple [[108; 115]]) (Simple [[119; 99]])).

Lemma child_complete_witness :
  prog_eq (child 5000 100 ex_pipe_sh) (meaning ex_pipe_com).
Proof.
  assert (lexes ex_pipe_line [TWord [108; 115]; TSym 124; TWord [119; 99]; TSym 38]) as Hlex.
  { unfold ex_pipe_line. assert (∀ c, c = 32 → ¬ word_char c) as Hsp.
    { intros c ->. apply space_not_word. unfold whitespace. set_solver. }
    apply (lx_word [108; 115]); [done| |intros c [= <-]; by apply Hsp|].
    { repeat constructor; try done; unfold whitespace, symbols; set_solver by lia. }
    apply lx_space; [unfold whitespace; set_solver|]. apply lx_sym; [sym|done|].
    apply lx_space; [unfold whitespace; set_solver|].
    apply (lx_word [119; 99]); [done| |intros c [= <-]; by apply Hsp|].
    { repeat constructor; try done; unfold whitespace, symbols; set_solver by lia. }
    apply lx_space; [unfold whitespace; set_solver|]. apply lx_sym; [sym|done|].
    apply lx_space; [unfold whitespace; set_solver|]. apply lx_end. }
  assert (g_line [TWord [108; 115]; TSym 124; TWord [119; 99]; TSym 38] ex_pipe_com) as HG.
  { apply (gl_pipe [TWord [108; 115]; TSym 124; TWord [119; 99]] (Pipe (Simple [[108; 115]]) (Simple [[119; 99]])) 1).
    apply (gp_pipe [TWord [108; 115]] (Simple [[108; 115]]) [TWord [119; 99]] (Simple [[119; 99]])).
    - apply (ge_simple [IWord [108; 115]]). by vm_compute.
    - apply gp_exec, (ge_simple [IWord [119; 99]]). by vm_compute. }
  assert (cstr (sh_mem ex_pipe_sh) 100 ex_pipe_line) as Hl.
  { split; [|by vm_compute]. intros i c Hi. pose proof (lookup_lt_Some _ _ _ Hi) as Hlt. cbn in Hlt.
    do 10 (destruct i as [|i]; [injection Hi as <-; by vm_compute|]). lia. }
  apply (child_complete 5000 100 ex_pipe_sh ex_pipe_line _ _ eq_refl eq_refl Hl eq_refl
           ltac:(by vm_compute) (λ a H, match is_Some_None H with end) Hlex HG). by vm_compute.
Defined.
