(* ===== verification/Mkfs.v ===== *)
(** The image builder: user/src/mkfs/main.c.

    The image is a file of blocks, [mk_len] long; what has not been written
    reads as zeros.  The program runs on a host with little-endian integers.
    [exit(1)] and failed assertions are the outcome [Panic], without what is
    printed; a [struct dinode] is a value of [inode] of which only the fields
    on disk matter, and a [struct dirent] the list of its bytes.  An input
    file is its path and what the calls of [read] on it return one after the
    other, or [None] if it cannot be opened; opening the image itself is not
    modelled. *)

From S2P Require Import Prelude Sleeplock BufferCache Superblock Log Fs.

Definition FSSIZE : Z := 1000.
Definition NINODES : Z := 200.
Definition nbitmap : Z := FSSIZE / (BSIZE * 8) + 1.
Definition ninodeblocks : Z := NINODES / IPB + 1.
Definition nlog : Z := LOGSIZE.
Definition nmeta : Z := 2 + nlog + ninodeblocks + nbitmap.
Definition nblocks : Z := FSSIZE - nmeta.
Definition zeroes : block := replicate (Z.to_nat BSIZE) 0.

(** The number whose bytes are the low bytes of [x], the lowest first. *)
Definition xshort (x : Z) : Z := of_bytes [w8 x; w8 (Z.shiftr x 8)].
Definition xint (x : Z) : Z := of_bytes [w8 x; w8 (Z.shiftr x 8); w8 (Z.shiftr x 16); w8 (Z.shiftr x 24)].

Definition mk_sb : superblock :=
  mkSb (xint FSSIZE) (xint nblocks) (xint NINODES) (xint nlog) (xint 2) (xint (2 + nlog)) (xint (2 + nlog + ninodeblocks)).

(** The image, its length, [freeinode] and [freeblock]. *)
Record mk := Mk { mk_img : Z → block; mk_len : Z; mk_inode : Z; mk_block : Z }.
Definition mk0 : mk := Mk (λ _, zeroes) 0 1 0.

(** ** Sectors and inodes *)

(** The offset that [lseek] is given is a 32-bit number of bytes. *)
Definition sector (sec : Z) : Z := w32 (sec * BSIZE) / BSIZE.
Definition wsect (sec : Z) (d : block) : M mk () :=
  modify (λ s, Mk (upd (mk_img s) (sector sec) d) (Z.max (mk_len s) (sector sec + 1)) (mk_inode s) (mk_block s)).
Definition rsect (sec : Z) : M mk block :=
  n ← gets mk_len;
  if n <=? sector sec then panic "read" else gets (λ s, mk_img s (sector sec)).

(** Inode number [inum] before any field is set. *)
Definition blank (inum : Z) : inode := Inode ROOTDEV inum 0 initsleeplock 0 0 0 0 0 0 (replicate 13 0).
Definition winode (inum : Z) (ip : inode) : M mk () :=
  d ← rsect (IBLOCK inum mk_sb);
  wsect (IBLOCK inum mk_sb) (store_dinode ip d).
Definition rinode (inum : Z) : M mk inode :=
  d ← rsect (IBLOCK inum mk_sb);
  mret (load_dinode d (blank inum)).

Definition ialloc (type : Z) : M mk Z :=
  inum ← gets mk_inode;
  modify (λ s, Mk (mk_img s) (mk_len s) (w32 (inum + 1)) (mk_block s)) ;;
  winode inum (Inode ROOTDEV inum 0 initsleeplock 0 (xshort type) 0 0 (xshort 1) (xint 0) (replicate 13 0)) ;;
  mret inum.

(** [freeblock++] *)
Definition new_block : M mk Z :=
  b ← gets mk_block;
  modify (λ s, Mk (mk_img s) (mk_len s) (mk_inode s) (w32 (b + 1))) ;;
  mret b.

(** ** The bitmap *)

Fixpoint balloc_bits (n : nat) (i : Z) (d : block) : block :=
  match n with
  | O => d
  | S n => balloc_bits n (i + 1) (set_bit d i)
  end.
Definition balloc (used : Z) : M mk () :=
  if BSIZE * 8 <=? used then panic "assert"
  else wsect (sb_bmapstart mk_sb) (balloc_bits (Z.to_nat used) 0 zeroes).

(** ** Appending to a file *)

(** The block number of [fbn], allocated if there is none. *)
Definition iappend_block (din : inode) (fbn : Z) : M mk (inode * Z) :=
  if fbn <? NDIRECT then
    a ← array_get (i_addrs din) fbn;
    din ← (if xint a =? 0 then
             b ← new_block; mret (with_addrs din (<[Z.to_nat fbn := xint b]> (i_addrs din)))
           else mret din);
    a ← array_get (i_addrs din) fbn;
    mret (din, xint a)
  else
    a ← array_get (i_addrs din) NDIRECT;
    din ← (if xint a =? 0 then
             b ← new_block; mret (with_addrs din (<[Z.to_nat NDIRECT := xint b]> (i_addrs din)))
           else mret din);
    a ← array_get (i_addrs din) NDIRECT;
    indirect ← rsect (xint a);
    let o := Z.to_nat (4 * (fbn - NDIRECT)) in
    if get32 indirect o =? 0 then
      b ← new_block;
      let indirect := put32 indirect o (xint b) in
      wsect (xint a) indirect ;;
      mret (din, xint (get32 indirect o))
    else mret (din, xint (get32 indirect o)).

(** The loop of [iappend]: the bytes [p] at offset [off]; the result is the
    inode and the offset at the end. *)
Fixpoint iappend_loop (fuel : nat) (din : inode) (off : Z) (p : list Z) : M mk (inode * Z) :=
  match fuel with
  | O => no_fuel
  | S fuel =>
    match p with
    | [] => mret (din, off)
    | _ =>
      let fbn := off / BSIZE in
      if MAXFILE <=? fbn then panic "assert"
      else
        '(din, x) ← iappend_block din fbn;
        let n1 := Z.to_nat (Z.min (Z.of_nat (length p)) ((fbn + 1) * BSIZE - off)) in
        d ← rsect x;
        wsect x (splice d (Z.to_nat (off - fbn * BSIZE)) (take n1 p)) ;;
        iappend_loop fuel din (w32 (off + Z.of_nat n1)) (drop n1 p)
    end
  end.
Definition iappend (inum : Z) (p : list Z) : M mk () :=
  din ← rinode inum;
  '(din, off) ← iappend_loop (length p + 1) din (xint (i_size din)) p;
  winode inum (with_size din (xint off)).

(** ** The whole image *)

Record input := Input { in_path : list Z; in_reads : option (list (list Z)) }.

(** [j] when the loop over [path] ends. *)
Fixpoint base_length (path : list Z) (j : Z) : Z :=
  match path with
  | [] => j
  | c :: path => base_length path (if c =? 47 then 0 else j + 1)
  end.
Definition base_name (path : list Z) : list Z := drop (length path - Z.to_nat (base_length path 0)) path.
Definition skip_underscore (name : list Z) : list Z :=
  match name with c :: rest => if c =? 95 then rest else name | [] => [] end.

Fixpoint wsect_all (n : nat) (i : Z) : M mk () :=
  match n with
  | O => mret ()
  | S n => wsect i zeroes ;; wsect_all n (i + 1)
  end.
(** The loop over [read], which ends when nothing is returned. *)
Fixpoint append_reads (inum : Z) (reads : list (list Z)) : M mk () :=
  match reads with
  | [] | [] :: _ => mret ()
  | p :: reads => iappend inum p ;; append_reads inum reads
  end.
Fixpoint add_files (rootino : Z) (files : list input) : M mk () :=
  match files with
  | [] => mret ()
  | f :: files =>
    let name := base_name (in_path f) in
    if existsb (Z.eqb 47) name then panic "assert"
    else match in_reads f with
    | None => panic "open"
    | Some reads =>
      inum ← ialloc T_FILE;
      iappend rootino (mk_dirent (xshort inum) (skip_underscore name)) ;;
      append_reads inum reads ;;
      add_files rootino files
    end
  end.
Definition make_root : M mk Z :=
  rootino ← ialloc T_DIR;
  if negb (rootino =? ROOTINO) then panic "assert"
  else
    iappend rootino (mk_dirent (xshort rootino) [46]) ;;
    iappend rootino (mk_dirent (xshort rootino) [46; 46]) ;;
    mret rootino.
Definition fix_root (rootino : Z) : M mk () :=
  din ← rinode rootino;
  let off := xint (i_size din) in
  let off := w32 ((off / BSIZE + 1) * BSIZE) in
  winode rootino (with_size din (xint off)).
Definition mkfs (files : list input) : M mk () :=
  modify (λ s, Mk (mk_img s) (mk_len s) (mk_inode s) nmeta) ;;
  wsect_all (Z.to_nat FSSIZE) 0 ;;
  wsect 1 (put_words zeroes 0
    [sb_size mk_sb; sb_nblocks mk_sb; sb_ninodes mk_sb; sb_nlog mk_sb; sb_logstart mk_sb; sb_inodestart mk_sb;
     sb_bmapstart mk_sb]) ;;
  rootino ← make_root;
  add_files rootino files ;;
  fix_root rootino ;;
  used ← gets mk_block;
  balloc used.

(** An image with two files, "/_a" in two reads and "b". *)
Definition ex_inputs : list input :=
  [Input [47; 95; 97] (Some [replicate 512 1; replicate 10 2]); Input [98] (Some [[7; 8; 9]])].
