(* ===== verification/MkfsFile.v ===== *)
(** How [iappend] of mkfs grows a file.

    [laid] says how the blocks of one file lie in the image: the blocks that
    its size needs are there, distinct and below the next free one, and zero
    past the end.  [iappend_loop_ok] is the loop of [iappend]. *)

From S2P Require Import Prelude Sleeplock BufferCache Superblock Log LogOps Txn.
From S2P Require Import Fs FsAlloc FsInode FsFile FsRw FsDir Mkfs.

(** ** Numbers *)

Lemma xint_w32 x : xint x = w32 x.
Proof. unfold xint, w32, w8. cbn [of_bytes]. rewrite !Z.shiftr_div_pow2 by lia. zlia. Qed.
Lemma xshort_w16 x : xshort x = w16 x.
Proof. unfold xshort, w16, w8. cbn [of_bytes]. rewrite !Z.shiftr_div_pow2 by lia. zlia. Qed.
Lemma xint_small x : 0 ≤ x < 2 ^ 32 → xint x = x.
Proof. intros. rewrite xint_w32. by apply w32_small. Qed.
Lemma sector_small b : 0 ≤ b < FSSIZE → sector b = b.
Proof. unfold sector, FSSIZE, BSIZE. intros. rewrite w32_small by lia. apply Z.div_mul. lia. Qed.

Lemma mk_sb_eq : mk_sb = mkSb 1000 941 200 30 2 32 58.
Proof. by vm_compute. Qed.
Lemma nmeta_eq : nmeta = 59.
Proof. done. Qed.
Lemma data_start_eq : data_start mk_sb = nmeta.
Proof. by vm_compute. Qed.

(** The constants of the layout, for [lia]. *)
Ltac consts := unfold FSSIZE, NINODES, MAXFILE, NINDIRECT, NDIRECT, BSIZE in *; rewrite ?nmeta_eq in *;
  change (512 / 4) with 128 in *; change (12 + 128) with 140 in *; change (140 * 512) with 71680 in *;
  change (12 * 512) with 6144 in *.
Ltac clia := consts; lia.

Lemma nth_replicate_zero n m : nth m (replicate n 0) 0 = 0.
Proof. rewrite nth_lookup. destruct (replicate n 0 !! m) as [x|] eqn:Hx; [|done]. by apply lookup_replicate in Hx as [-> _]. Qed.

(** ** The blocks of a file *)

(** Block [k] of a file is needed as soon as the file is longer than this. *)
Definition fstart (k : Z) : Z := if k =? MAXFILE then NDIRECT * BSIZE else k * BSIZE.
(** The blocks that a file of [z] bytes takes. *)
Definition nblk (z : Z) : Z := (z + 511) / 512 + if NDIRECT * BSIZE <? z then 1 else 0.

(** A file of [z] bytes with the addresses [A], all of whose blocks lie below
    [hi] and are zero past its end. *)
Record laid (img : Z → block) (A : list Z) (z hi : Z) : Prop := {
  la_len : length A = 13%nat;
  la_size : 0 ≤ z ≤ MAXFILE * BSIZE;
  la_mapped k : 0 ≤ k ≤ MAXFILE → faddr img A k ≠ 0 ↔ fstart k < z;
  la_range k : 0 ≤ k ≤ MAXFILE → faddr img A k ≠ 0 → nmeta ≤ faddr img A k < hi;
  la_inj k k' : 0 ≤ k ≤ MAXFILE → 0 ≤ k' ≤ MAXFILE → faddr img A k ≠ 0 → faddr img A k = faddr img A k' → k = k';
  la_tail o : z ≤ o → o / BSIZE < MAXFILE → faddr img A (o / BSIZE) ≠ 0 → fbyte img A o = 0;
}.

(** The file has grown from [z] to [z'] bytes. *)
Record grown (img : Z → block) (A : list Z) (z hi : Z) (img' : Z → block) (A' : list Z) (z' hi' : Z) : Prop := {
  gr_laid : laid img' A' z' hi';
  gr_old k : 0 ≤ k ≤ MAXFILE → faddr img A k ≠ 0 → faddr img' A' k = faddr img A k;
  gr_new k : 0 ≤ k ≤ MAXFILE → faddr img A k = 0 → faddr img' A' k ≠ 0 → hi ≤ faddr img' A' k;
  gr_frame b : b < hi → (∀ k, 0 ≤ k ≤ MAXFILE → faddr img A k ≠ 0 → faddr img A k ≠ b) → img' b = img b;
  gr_bytes o : 0 ≤ o < z → fbyte img' A' o = fbyte img A o;
}.

(** The image from [hi] on has not been used. *)
Record fresh (img : Z → block) (hi : Z) : Prop := {
  fr_ok b : block_ok (img b);
  fr_hi : nmeta ≤ hi ≤ FSSIZE;
  fr_zero b : hi ≤ b < FSSIZE → img b = zeroes;
}.

Lemma faddr_max img A : faddr img A MAXFILE = indirect A.
Proof. done. Qed.
Lemma laid_indirect img A z hi : laid img A z hi → indirect A ≠ 0 ↔ NDIRECT * BSIZE < z.
Proof. intros Hl. rewrite <-(faddr_max img A). rewrite (la_mapped _ _ _ _ Hl) by clia. done. Qed.
Lemma fstart_block k : 0 ≤ k < MAXFILE → fstart k = k * BSIZE.
Proof. unfold fstart. intros. destruct (Z.eqb_spec k MAXFILE); [lia|done]. Qed.

(** A number of bytes in the same last block needs the same blocks. *)
Lemma fstart_same k z z' :
  0 ≤ k ≤ MAXFILE → 0 < z → z ≤ z' ≤ ((z - 1) / BSIZE + 1) * BSIZE → fstart k < z' ↔ fstart k < z.
Proof.
  intros Hk Hz Hz'. unfold fstart. destruct (k =? MAXFILE).
  - consts. split; intros; [|lia]. zlia.
  - consts. split; intros; [|lia]. zlia.
Qed.

Lemma laid_resize img A z z' hi :
  laid img A z hi → 0 < z → z ≤ z' ≤ ((z - 1) / BSIZE + 1) * BSIZE → laid img A z' hi.
Proof.
  intros [L1 L2 L3 L4 L5 L6] Hz Hz'. split; try done.
  - consts. zlia.
  - intros k Hk. rewrite L3 by done. symmetry. by apply fstart_same.
  - intros o Ho. apply L6. lia.
Qed.

Lemma laid_hi img A z hi hi' : laid img A z hi → hi ≤ hi' → laid img A z hi'.
Proof. intros [L1 L2 L3 L4 L5 L6] Hh. split; try done. intros k Hk H0. specialize (L4 k Hk H0). lia. Qed.

(** The entries of the inode. *)
Lemma laid_direct img A z hi k : laid img A z hi → 0 ≤ k < NDIRECT → A !! Z.to_nat k = Some (faddr img A k).
Proof.
  intros Hl Hk. pose proof (la_len _ _ _ _ Hl) as HA. unfold faddr. destruct (Z.ltb_spec k NDIRECT); [|lia].
  rewrite nth_lookup. destruct (lookup_lt_is_Some_2 A (Z.to_nat k)) as [x ->]; [clia|done].
Qed.
Lemma laid_ientry img A z hi : laid img A z hi → A !! Z.to_nat NDIRECT = Some (indirect A).
Proof.
  intros Hl. pose proof (la_len _ _ _ _ Hl) as HA. unfold indirect.
  rewrite nth_lookup. destruct (lookup_lt_is_Some_2 A (Z.to_nat NDIRECT)) as [x ->]; [clia|done].
Qed.
Lemma laid_bound img A z hi k : laid img A z hi → hi ≤ FSSIZE → 0 ≤ k ≤ MAXFILE → 0 ≤ faddr img A k < FSSIZE.
Proof.
  intros Hl Hh Hk. destruct (decide (faddr img A k = 0)) as [->|H0]; [clia|].
  pose proof (la_range _ _ _ _ Hl k Hk H0). clia.
Qed.
Lemma laid_fit img A z hi : laid img A z hi → hi ≤ FSSIZE → Forall (λ a, 0 ≤ a < 2 ^ 32) A.
Proof.
  intros Hl Hh. apply Forall_lookup. intros i a Hi.
  pose proof (lookup_lt_Some _ _ _ Hi) as Hlt. rewrite (la_len _ _ _ _ Hl) in Hlt.
  destruct (decide (i = 12%nat)) as [->|].
  - change 12%nat with (Z.to_nat NDIRECT) in Hi. rewrite (laid_ientry _ _ _ _ Hl) in Hi. injection Hi as <-.
    pose proof (laid_bound img A z hi MAXFILE Hl Hh ltac:(clia)) as Hb. rewrite faddr_max in Hb. clia.
  - replace i with (Z.to_nat (Z.of_nat i)) in Hi by lia. rewrite (laid_direct img A z hi) in Hi; [|done|clia].
    injection Hi as <-. pose proof (laid_bound img A z hi (Z.of_nat i) Hl Hh ltac:(clia)). clia.
Qed.

(** Other blocks of the image do not matter. *)
Lemma faddr_frame img img' A k :
  (faddr img A MAXFILE ≠ 0 → img' (faddr img A MAXFILE) = img (faddr img A MAXFILE)) → faddr img' A k = faddr img A k.
Proof. intros Hi. apply faddr_view. exact Hi. Qed.
Lemma fbyte_frame img img' A o :
  (∀ k, 0 ≤ k ≤ MAXFILE → faddr img A k ≠ 0 → img' (faddr img A k) = img (faddr img A k)) →
  0 ≤ o → o / BSIZE < MAXFILE → faddr img A (o / BSIZE) ≠ 0 → fbyte img' A o = fbyte img A o.
Proof.
  intros Hf Ho Hb H0. unfold fbyte. rewrite (faddr_frame img img') by (apply Hf; clia).
  rewrite Hf; [done|split; [apply Z.div_pos; [lia|done]|lia]|done].
Qed.
Lemma laid_frame img img' A z hi :
  (∀ k, 0 ≤ k ≤ MAXFILE → faddr img A k ≠ 0 → img' (faddr img A k) = img (faddr img A k)) →
  laid img A z hi → laid img' A z hi.
Proof.
  intros Hf [L1 L2 L3 L4 L5 L6].
  assert (∀ k, faddr img' A k = faddr img A k) as Hfa by (intros k; apply faddr_frame; apply Hf; clia).
  split; try done.
  - intros k. rewrite Hfa. apply L3.
  - intros k. rewrite Hfa. apply L4.
  - intros k k'. rewrite !Hfa. apply L5.
  - intros o Ho Hb. rewrite Hfa. intros H0. rewrite (fbyte_frame img); [by apply L6|done|lia|done|done].
Qed.

(** ** A block is added *)

(** The blocks [k] with [P k] are there, distinct and below [hi]. *)
Record owns (img : Z → block) (A : list Z) (P : Z → Prop) (hi : Z) : Prop := {
  ow_mapped k : 0 ≤ k ≤ MAXFILE → faddr img A k ≠ 0 ↔ P k;
  ow_range k : 0 ≤ k ≤ MAXFILE → faddr img A k ≠ 0 → nmeta ≤ faddr img A k < hi;
  ow_inj k k' : 0 ≤ k ≤ MAXFILE → 0 ≤ k' ≤ MAXFILE → faddr img A k ≠ 0 → faddr img A k = faddr img A k' → k = k';
}.
Lemma laid_owns img A z hi : laid img A z hi → owns img A (λ k, fstart k < z) hi.
Proof. by intros []. Qed.
Lemma owns_iff img A (P Q : Z → Prop) hi :
  (∀ k, 0 ≤ k ≤ MAXFILE → P k ↔ Q k) → owns img A P hi → owns img A Q hi.
Proof. intros HPQ [O1 O2 O3]. split; try done. intros k Hk. by rewrite <-HPQ, O1. Qed.

Lemma owns_add img A P hi img' A' n :
  owns img A P hi → nmeta ≤ hi → 0 ≤ n ≤ MAXFILE → faddr img A n = 0 →
  (∀ k, 0 ≤ k ≤ MAXFILE → faddr img' A' k = if k =? n then hi else faddr img A k) →
  owns img' A' (λ k, k = n ∨ P k) (hi + 1).
Proof.
  intros [O1 O2 O3] Hhi Hn H0 Hfa. split.
  - intros k Hk. rewrite Hfa by done. destruct (Z.eqb_spec k n) as [->|Hne].
    + split; [by left|clia].
    + rewrite O1 by done. split; [by right|by intros [?|?]].
  - intros k Hk. rewrite Hfa by done. destruct (Z.eqb_spec k n); [clia|]. intros Hk0. specialize (O2 k Hk Hk0). clia.
  - intros k k' Hk Hk'. rewrite !Hfa by done. destruct (Z.eqb_spec k n), (Z.eqb_spec k' n).
    + congruence.
    + intros _ He. assert (faddr img A k' ≠ 0) as Hk0 by clia. specialize (O2 k' Hk' Hk0). clia.
    + intros Hk0 He. specialize (O2 k Hk Hk0). clia.
    + by apply O3.
Qed.

(** What is new is zero, and only the indirect block has changed. *)
Lemma grown_add img A z hi img' A' hi' :
  laid img A z hi → z < MAXFILE * BSIZE → length A' = 13%nat →
  owns img' A' (λ k, fstart k < z + 1) hi' →
  (∀ k, 0 ≤ k ≤ MAXFILE → faddr img A k ≠ 0 → faddr img' A' k = faddr img A k) →
  (∀ k, 0 ≤ k ≤ MAXFILE → faddr img A k = 0 → faddr img' A' k ≠ 0 →
     hi ≤ faddr img' A' k ∧ (k < MAXFILE → img' (faddr img' A' k) = zeroes)) →
  (∀ b, (indirect A' ≠ 0 → b ≠ indirect A') → img' b = img b) →
  grown img A z hi img' A' (z + 1) hi'.
Proof.
  intros Hl Hz HA [O1 O2 O3] Hold Hnew Hfr. pose proof Hl as [L1 L2 L3 L4 L5 L6].
  assert (∀ k, 0 ≤ k < MAXFILE → faddr img A k ≠ 0 → img' (faddr img A k) = img (faddr img A k)) as Hdata.
  { intros k Hk Hk0. apply Hfr. rewrite <-(faddr_max img' A'). intros HM He.
    assert (0 ≤ k ≤ MAXFILE) as Hk' by lia. assert (0 ≤ MAXFILE ≤ MAXFILE) as HMM by clia.
    pose proof (Hold k Hk' Hk0) as Hk1. rewrite <-Hk1 in He.
    assert (k = MAXFILE) by (apply O3; [done|done|by rewrite Hk1|done]). lia. }
  assert (∀ o, 0 ≤ o → o / BSIZE < MAXFILE → faddr img A (o / BSIZE) ≠ 0 → fbyte img' A' o = fbyte img A o) as Hby.
  { intros o Ho Hb H0. assert (0 ≤ o / BSIZE) by (apply Z.div_pos; [lia|done]).
    unfold fbyte. rewrite Hold by (done || lia). by rewrite Hdata by (done || lia). }
  split; [split; try done|done| | |].
  - clia.
  - intros o Ho Hb H0. assert (0 ≤ o / BSIZE) by (apply Z.div_pos; [lia|done]).
    destruct (decide (faddr img A (o / BSIZE) = 0)) as [Hz0|Hz0].
    + destruct (Hnew (o / BSIZE) ltac:(lia) Hz0 H0) as [_ Hzero]. unfold fbyte. rewrite Hzero by done.
      apply nth_replicate_zero.
    + rewrite Hby by (done || lia). apply L6; [lia|done|done].
  - intros k Hk H0 H1. by apply Hnew.
  - intros b Hb Hno. apply Hfr. intros HM He. rewrite <-(faddr_max img' A') in HM, He.
    assert (0 ≤ MAXFILE ≤ MAXFILE) as HMM by clia.
    destruct (decide (faddr img A MAXFILE = 0)) as [HM0|HM0].
    + destruct (Hnew MAXFILE HMM HM0 HM). lia.
    + rewrite (Hold MAXFILE HMM HM0) in He. by destruct (Hno MAXFILE HMM HM0).
  - intros o Ho. assert (0 ≤ o / BSIZE < MAXFILE) by (consts; zlia).
    apply Hby; [lia|lia|]. apply L3; [lia|]. rewrite fstart_block by done. consts. zlia.
Qed.

(** ** Steps of the program *)

Lemma nblk_step z :
  0 ≤ z → nblk (z + 1) - nblk z = (if z mod BSIZE =? 0 then 1 else 0) + (if z =? NDIRECT * BSIZE then 1 else 0).
Proof.
  intros Hz. unfold nblk. consts. destruct (Z.eqb_spec (z mod 512) 0), (Z.eqb_spec z 6144),
    (Z.ltb_spec 6144 (z + 1)), (Z.ltb_spec 6144 z); zlia.
Qed.

Abbreviation img_at img ino hi := (Mk img FSSIZE ino hi).

Lemma rsect_run b img ino hi : 0 ≤ b < FSSIZE → rsect b (img_at img ino hi) = Ret (img b) (img_at img ino hi).
Proof.
  intros Hb. unfold rsect. mstep (eq_refl (gets mk_len (img_at img ino hi))). rewrite sector_small by done. cbn [mk_len].
  destruct (Z.leb_spec FSSIZE b); [lia|done].
Qed.
Lemma wsect_run b d img ino hi : 0 ≤ b < FSSIZE → wsect b d (img_at img ino hi) = Ret () (img_at (upd img b d) ino hi).
Proof. intros Hb. unfold wsect, modify. cbn. rewrite sector_small by done. by rewrite Z.max_l by lia. Qed.
Lemma new_block_run img ino hi :
  0 ≤ hi < FSSIZE → new_block (img_at img ino hi) = Ret hi (img_at img ino (hi + 1)).
Proof.
  intros Hh. unfold new_block. mstep (eq_refl (gets mk_block (img_at img ino hi))). unfold modify. cbn.
  unfold mbind, M_bind. cbn. by rewrite w32_small by clia.
Qed.
Lemma fresh_zero img hi : fresh img hi → hi < FSSIZE → img hi = zeroes.
Proof. intros [_ F2 F3] Hh. apply F3. lia. Qed.
Lemma fresh_put img hi hi' b d :
  fresh img hi → hi ≤ hi' ≤ FSSIZE → b < hi' → block_ok d → fresh (upd img b d) hi'.
Proof.
  intros [F1 F2 F3] Hh Hb Hd. split.
  - intros c. rewrite upd_case. case_decide; [done|apply F1].
  - lia.
  - intros c Hc. rewrite upd_ne by lia. apply F3. lia.
Qed.
Lemma block_ok_put32 d o v : block_ok d → (o + 4 ≤ Z.to_nat BSIZE)%nat → block_ok (put32 d o v).
Proof. unfold block_ok. intros Hd Ho. rewrite length_put32; [done|lia]. Qed.
Lemma with_addrs_same ip : with_addrs ip (i_addrs ip) = ip.
Proof. by destruct ip. Qed.

(** What [iappend_block] does for the block of the next byte. *)
Definition block_step (din : inode) (z ino hi : Z) (img : Z → block) : Prop :=
  let hi' := hi + (nblk (z + 1) - nblk z) in
  ∃ A' img', iappend_block din (z / BSIZE) (img_at img ino hi) =
      Ret (with_addrs din A', faddr img' A' (z / BSIZE)) (img_at img' ino hi') ∧
    grown img (i_addrs din) z hi img' A' (z + 1) hi' ∧ fresh img' hi'.

(** The block is there. *)
Lemma block_step_same din z ino hi img :
  laid img (i_addrs din) z hi → fresh img hi → z < MAXFILE * BSIZE → z mod BSIZE ≠ 0 → block_step din z ino hi img.
Proof.
  intros Hl Hf Hz Hm. pose proof (la_size _ _ _ _ Hl) as Hz0. set (A := i_addrs din) in *. set (fbn := z / BSIZE).
  assert (0 ≤ fbn < MAXFILE ∧ fbn * BSIZE < z ∧ 0 < z ∧ z ≠ NDIRECT * BSIZE) as (Hb & Hlt & Hpos & Hne)
    by (unfold fbn; consts; zlia).
  unfold block_step. rewrite (nblk_step z) by lia. destruct (Z.eqb_spec (z mod BSIZE) 0); [done|].
  destruct (Z.eqb_spec z (NDIRECT * BSIZE)); [done|]. rewrite Z.add_0_l, Z.add_0_r. fold fbn.
  assert (faddr img A fbn ≠ 0) as H0 by (apply (la_mapped _ _ _ _ Hl); [lia|by rewrite fstart_block]).
  pose proof (laid_bound img A z hi fbn Hl ltac:(apply Hf) ltac:(lia)) as Hbd.
  assert (xint (faddr img A fbn) = faddr img A fbn) as Hx by (apply xint_small; clia). unfold A in H0, Hbd, Hx.
  exists A, img. split; [|split; [|done]].
  - unfold A at 1. rewrite with_addrs_same. unfold iappend_block. destruct (Z.ltb_spec fbn NDIRECT) as [Hd|Hd].
    + pose proof (laid_direct img A z hi fbn Hl ltac:(lia)) as Ha. unfold A in Ha.
      mstep (array_get_some _ fbn _ (img_at img ino hi) (proj1 Hb) Ha). rewrite Hx.
      destruct (Z.eqb_spec (faddr img (i_addrs din) fbn) 0); [done|].
      mstep (eq_refl (mret (M := M mk) din (img_at img ino hi))).
      mstep (array_get_some _ fbn _ (img_at img ino hi) (proj1 Hb) Ha). by rewrite Hx.
    + assert (indirect A ≠ 0) as Hi0 by (apply (laid_indirect _ _ _ _ Hl); consts; lia).
      pose proof (laid_bound img A z hi MAXFILE Hl ltac:(apply Hf) ltac:(clia)) as Hbi. rewrite faddr_max in Hbi.
      assert (xint (indirect A) = indirect A) as Hxi by (apply xint_small; clia).
      pose proof (laid_ientry img A z hi Hl) as Ha. unfold A in Ha, Hi0, Hbi, Hxi. assert (0 ≤ NDIRECT) as HN by done.
      mstep (array_get_some _ NDIRECT _ (img_at img ino hi) HN Ha). rewrite Hxi.
      destruct (Z.eqb_spec (indirect (i_addrs din)) 0); [done|].
      mstep (eq_refl (mret (M := M mk) din (img_at img ino hi))).
      mstep (array_get_some _ NDIRECT _ (img_at img ino hi) HN Ha). rewrite Hxi.
      mstep (rsect_run (indirect (i_addrs din)) img ino hi Hbi).
      pose proof (faddr_in_entry img (i_addrs din) fbn ltac:(lia) Hi0) as Hfa. rewrite <-Hfa.
      destruct (Z.eqb_spec (faddr img (i_addrs din) fbn) 0); [done|]. by rewrite Hx.
  - apply (grown_add img A z hi img A hi Hl Hz (la_len _ _ _ _ Hl)); try done.
    eapply owns_iff; [|exact (laid_owns _ _ _ _ Hl)]. intros k Hk. cbv beta.
    rewrite (fstart_same k z (z + 1)) by (done || (consts; zlia)). done.
Qed.

(** A direct block is new. *)
Lemma block_step_direct din z ino hi img :
  laid img (i_addrs din) z hi → fresh img hi → z mod BSIZE = 0 → z < NDIRECT * BSIZE → hi < FSSIZE →
  block_step din z ino hi img.
Proof.
  intros Hl Hf Hm Hz Hh. pose proof (la_size _ _ _ _ Hl) as Hz0. set (fbn := z / BSIZE).
  assert (0 ≤ fbn < NDIRECT ∧ fbn * BSIZE = z ∧ z ≠ NDIRECT * BSIZE) as (Hb & Heq & Hne) by (unfold fbn; consts; zlia).
  unfold block_step. rewrite (nblk_step z), Hm by lia. rewrite (proj2 (Z.eqb_neq _ _) Hne), Z.add_0_r. fold fbn.
  change (if 0 =? 0 then 1 else 0) with 1.
  pose proof (fr_hi _ _ Hf) as Hhi.
  set (A' := <[Z.to_nat fbn := hi]> (i_addrs din)).
  assert (0 ≤ fbn ≤ MAXFILE) as HbM by clia.
  assert (∀ k, 0 ≤ k ≤ MAXFILE → faddr img A' k = if k =? fbn then hi else faddr img (i_addrs din) k) as Hfa.
  { intros k Hk. apply faddr_direct; [done|apply Hl|done|done]. }
  assert (faddr img (i_addrs din) fbn = 0) as H0.
  { destruct (decide (faddr img (i_addrs din) fbn = 0)) as [|Hn]; [done|]. apply (la_mapped _ _ _ _ Hl) in Hn; [|done].
    rewrite fstart_block in Hn by clia. lia. }
  assert (length A' = 13%nat) as HA' by (unfold A'; rewrite length_insert; apply Hl).
  exists A', img. split; [|split].
  - unfold iappend_block. rewrite (proj2 (Z.ltb_lt _ _) (proj2 Hb)).
    pose proof (laid_direct _ _ _ _ fbn Hl Hb) as Ha.
    mstep (array_get_some _ fbn _ (img_at img ino hi) (proj1 Hb) Ha). rewrite H0. change (xint 0 =? 0) with true.
    assert (0 ≤ hi < FSSIZE) as Hhi' by clia. assert (xint hi = hi) as Hx by (apply xint_small; clia).
    erewrite mbind_ret; [|erewrite mbind_ret; [reflexivity|exact (new_block_run img ino hi Hhi')]]. rewrite Hx. fold A'.
    change (i_addrs (with_addrs din A')) with A'.
    erewrite mbind_ret.
    2:{ apply array_get_some; [exact (proj1 Hb)|]. apply list_lookup_insert_eq. rewrite (la_len _ _ _ _ Hl). clia. }
    by rewrite Hx, Hfa, Z.eqb_refl by done.
  - apply (grown_add img (i_addrs din)); try done.
    + clia.
    + pose proof (owns_add _ _ _ _ img A' fbn (laid_owns _ _ _ _ Hl) ltac:(lia) HbM H0 Hfa) as Ho.
      eapply owns_iff; [|exact Ho]. intros k Hk. cbv beta. unfold fstart. destruct (Z.eqb_spec k MAXFILE); clia.
    + intros k Hk Hk0. rewrite Hfa by done. destruct (Z.eqb_spec k fbn) as [->|]; [done|done].
    + intros k Hk Hk0. rewrite Hfa by done. destruct (Z.eqb_spec k fbn) as [->|]; [|done].
      intros _. split; [lia|]. intros _. by apply (fresh_zero img).
  - destruct Hf as [F1 F2 F3]. split; [done|lia|]. intros b Hbb. apply F3. lia.
Qed.

(** An entry of the indirect block is new. *)
Definition put_entry (img : Z → block) (A : list Z) (n c : Z) : Z → block :=
  upd img (indirect A) (put32 (img (indirect A)) (Z.to_nat (4 * (n - NDIRECT))) c).

Lemma put_entry_faddr img A n c k :
  NDIRECT ≤ n < MAXFILE → 0 ≤ k ≤ MAXFILE → indirect A ≠ 0 → block_ok (img (indirect A)) → 0 ≤ c < FSSIZE →
  faddr (put_entry img A n c) A k = if k =? n then c else faddr img A k.
Proof. intros. apply faddr_entry; try done. clia. Qed.

(** The rest of [iappend_block] when the indirect block is there. *)
Lemma iappend_entry din fbn hi ino img :
  NDIRECT ≤ fbn < MAXFILE → i_addrs din !! Z.to_nat NDIRECT = Some (indirect (i_addrs din)) →
  0 < indirect (i_addrs din) < FSSIZE → faddr img (i_addrs din) fbn = 0 → 0 ≤ hi < FSSIZE →
  block_ok (img (indirect (i_addrs din))) →
  (a ← array_get (i_addrs din) NDIRECT;
   indirect ← rsect (xint a);
   let o := Z.to_nat (4 * (fbn - NDIRECT)) in
   if get32 indirect o =? 0 then
     b ← new_block;
     let indirect := put32 indirect o (xint b) in
     wsect (xint a) indirect ;;
     mret (din, xint (get32 indirect o))
   else mret (din, xint (get32 indirect o))) (img_at img ino hi) =
  Ret (din, hi) (img_at (put_entry img (i_addrs din) fbn hi) ino (hi + 1)).
Proof.
  intros Hb Ha Hi H0 Hh Hok. assert (0 ≤ NDIRECT) as HN by done.
  mstep (array_get_some _ NDIRECT _ (img_at img ino hi) HN Ha).
  assert (xint (indirect (i_addrs din)) = indirect (i_addrs din)) as Hxi by (apply xint_small; clia). rewrite Hxi.
  mstep (rsect_run (indirect (i_addrs din)) img ino hi ltac:(lia)).
  cbv beta zeta. rewrite <-(faddr_in_entry img (i_addrs din) fbn) by (done || lia). rewrite H0. change (0 =? 0) with true. cbv iota zeta.
  mstep (new_block_run img ino hi Hh). assert (xint hi = hi) as Hx by (apply xint_small; clia). rewrite Hx.
  mstep (wsect_run (indirect (i_addrs din)) (put32 (img (indirect (i_addrs din))) (Z.to_nat (4 * (fbn - NDIRECT))) hi)
    img ino (hi + 1) ltac:(lia)).
  rewrite get32_put32 by (unfold block_ok in Hok; rewrite Hok; clia). rewrite w32_small by clia. by rewrite Hx.
Qed.

Lemma block_step_entry din z ino hi img :
  laid img (i_addrs din) z hi → fresh img hi → z mod BSIZE = 0 → NDIRECT * BSIZE < z < MAXFILE * BSIZE → hi < FSSIZE →
  block_step din z ino hi img.
Proof.
  intros Hl Hf Hm Hz Hh. set (fbn := z / BSIZE). set (A := i_addrs din) in *.
  assert (NDIRECT ≤ fbn < MAXFILE ∧ fbn * BSIZE = z ∧ z ≠ NDIRECT * BSIZE) as (Hb & Heq & Hne) by (unfold fbn; consts; zlia).
  unfold block_step. rewrite (nblk_step z), Hm by clia. rewrite (proj2 (Z.eqb_neq _ _) Hne), Z.add_0_r. fold fbn.
  change (if 0 =? 0 then 1 else 0) with 1. fold A.
  pose proof (fr_hi _ _ Hf) as Hhi.
  assert (indirect A ≠ 0) as Hi0 by (apply (laid_indirect _ _ _ _ Hl); lia).
  assert (0 ≤ MAXFILE ≤ MAXFILE ∧ 0 ≤ fbn ≤ MAXFILE) as [HMM HbM] by clia.
  pose proof (la_range _ _ _ _ Hl MAXFILE HMM ltac:(by rewrite faddr_max)) as Hir. rewrite faddr_max in Hir.
  assert (faddr img A fbn = 0) as H0.
  { destruct (decide (faddr img A fbn = 0)) as [|Hn]; [done|]. apply (la_mapped _ _ _ _ Hl) in Hn; [|done].
    rewrite fstart_block in Hn by clia. lia. }
  assert (block_ok (img (indirect A))) as Hok by apply Hf.
  assert (0 ≤ hi < FSSIZE) as Hhi' by clia.
  set (img' := put_entry img A fbn hi).
  assert (∀ k, 0 ≤ k ≤ MAXFILE → faddr img' A k = if k =? fbn then hi else faddr img A k) as Hfa
    by (intros k Hk; by apply put_entry_faddr).
  assert (img' hi = zeroes) as Hzero by (unfold img', put_entry; rewrite upd_ne by lia; by apply (fresh_zero img)).
  exists A, img'. split; [|split].
  - unfold A at 1. rewrite with_addrs_same. unfold iappend_block. destruct (Z.ltb_spec fbn NDIRECT); [lia|]. fold A.
    pose proof (laid_ientry _ _ _ _ Hl) as Ha. assert (0 ≤ NDIRECT) as HN by done.
    mstep (array_get_some _ NDIRECT _ (img_at img ino hi) HN Ha).
    assert (xint (indirect A) = indirect A) as Hxi by (apply xint_small; clia). rewrite Hxi.
    rewrite (proj2 (Z.eqb_neq _ _) Hi0). mstep (eq_refl (mret (M := M mk) din (img_at img ino hi))).
    rewrite Hfa, Z.eqb_refl by done. apply iappend_entry; try done. fold A. clia.
  - apply (grown_add img A); try done.
    + lia.
    + apply Hl.
    + pose proof (owns_add _ _ _ _ img' A fbn (laid_owns _ _ _ _ Hl) ltac:(lia) HbM H0 Hfa) as Ho.
      eapply owns_iff; [|exact Ho]. intros k Hk. cbv beta. unfold fstart. destruct (Z.eqb_spec k MAXFILE); clia.
    + intros k Hk Hk0. rewrite Hfa by done. destruct (Z.eqb_spec k fbn) as [->|]; [done|done].
    + intros k Hk Hk0. rewrite Hfa by done. destruct (Z.eqb_spec k fbn) as [->|]; [|done]. intros _. split; [lia|done].
    + intros b Hbi. apply upd_ne. by apply Hbi.
  - apply (fresh_put _ hi); [done|lia|lia|]. apply block_ok_put32; [done|clia].
Qed.

(** The indirect block and its first entry are new. *)
Lemma block_step_indirect din z ino hi img :
  laid img (i_addrs din) z hi → fresh img hi → z = NDIRECT * BSIZE → hi + 1 < FSSIZE → block_step din z ino hi img.
Proof.
  intros Hl Hf Hz Hh. set (A := i_addrs din) in *.
  assert (z mod BSIZE = 0 ∧ z / BSIZE = NDIRECT) as [Hm Hb] by by rewrite Hz.
  unfold block_step. rewrite (nblk_step z), Hm by clia. rewrite (proj2 (Z.eqb_eq _ _) Hz). fold A. rewrite Hb.
  change ((if 0 =? 0 then 1 else 0) + 1) with (1 + 1). rewrite Z.add_assoc.
  pose proof (fr_hi _ _ Hf) as Hhi. pose proof (la_len _ _ _ _ Hl) as HA.
  assert (0 ≤ MAXFILE ≤ MAXFILE ∧ 0 ≤ NDIRECT ≤ MAXFILE ∧ NDIRECT ≤ NDIRECT < MAXFILE) as (HMM & HNM & HNN) by clia.
  assert (indirect A = 0) as Hi0.
  { destruct (decide (indirect A = 0)) as [|Hn]; [done|]. apply (laid_indirect _ _ _ _ Hl) in Hn. lia. }
  assert (img hi = zeroes) as Hzero by (apply (fresh_zero img); [done|lia]).
  assert (img (hi + 1) = zeroes) as Hzero1 by (apply (fr_zero _ _ Hf); lia).
  set (A' := <[Z.to_nat NDIRECT := hi]> A).
  assert (∀ k, 0 ≤ k ≤ MAXFILE → faddr img A' k = if k =? MAXFILE then hi else faddr img A k) as Hfa1
    by (intros k Hk; by apply faddr_indirect).
  assert (indirect A' = hi) as Hi' by (rewrite <-(faddr_max img A'), Hfa1 by done; by rewrite Z.eqb_refl).
  assert (length A' = 13%nat) as HA' by (unfold A'; by rewrite length_insert).
  assert (faddr img A NDIRECT = 0) as H0.
  { destruct (decide (faddr img A NDIRECT = 0)) as [|Hn]; [done|]. apply (la_mapped _ _ _ _ Hl) in Hn; [|done].
    rewrite fstart_block in Hn by done. lia. }
  assert (faddr img A' NDIRECT = 0) as H0' by (rewrite Hfa1 by done; exact H0).
  assert (0 ≤ hi < FSSIZE ∧ 0 ≤ hi + 1 < FSSIZE ∧ hi ≠ 0) as (Hhi1 & Hhi2 & Hhi0) by clia.
  set (img' := put_entry img A' NDIRECT (hi + 1)).
  assert (∀ k, 0 ≤ k ≤ MAXFILE → faddr img' A' k = if k =? NDIRECT then hi + 1 else faddr img A' k) as Hfa
    by (intros k Hk; apply put_entry_faddr; try done; [by rewrite Hi'|apply Hf]).
  exists A', img'. split; [|split].
  - unfold iappend_block. change (NDIRECT <? NDIRECT) with false. cbv iota.
    pose proof (laid_ientry _ _ _ _ Hl) as Ha. assert (0 ≤ NDIRECT) as HN by done.
    mstep (array_get_some _ NDIRECT _ (img_at img ino hi) HN Ha). rewrite Hi0. change (xint 0 =? 0) with true.
    assert (xint hi = hi) as Hx by (apply xint_small; clia).
    erewrite mbind_ret; [|erewrite mbind_ret; [reflexivity|exact (new_block_run img ino hi Hhi1)]]. rewrite Hx. fold A A'.
    rewrite Hfa by done. change (NDIRECT =? NDIRECT) with true. cbv iota.
    apply (iappend_entry (with_addrs din A') NDIRECT (hi + 1) ino img HNN).
    + change (i_addrs (with_addrs din A')) with A'. rewrite Hi'. apply list_lookup_insert_eq. rewrite HA. clia.
    + change (i_addrs (with_addrs din A')) with A'. rewrite Hi'. lia.
    + exact H0'.
    + done.
    + apply Hf.
  - apply (grown_add img A); try done.
    + clia.
    + pose proof (owns_add _ _ _ _ img A' MAXFILE (laid_owns _ _ _ _ Hl) ltac:(lia) HMM ltac:(by rewrite faddr_max) Hfa1) as Ho1.
      pose proof (owns_add _ _ _ _ img' A' NDIRECT Ho1 ltac:(lia) HNM H0' Hfa) as Ho.
      eapply owns_iff; [|exact Ho]. intros k Hk. cbv beta. unfold fstart. destruct (Z.eqb_spec k MAXFILE); clia.
    + intros k Hk Hk0. rewrite Hfa by done. destruct (Z.eqb_spec k NDIRECT) as [->|]; [done|].
      rewrite Hfa1 by done. destruct (Z.eqb_spec k MAXFILE) as [->|]; [|done]. by rewrite faddr_max, Hi0 in Hk0.
    + intros k Hk Hk0. rewrite Hfa by done. destruct (Z.eqb_spec k NDIRECT) as [->|].
      * intros _. split; [lia|]. intros _. unfold img', put_entry. rewrite Hi', upd_ne by lia. done.
      * rewrite Hfa1 by done. destruct (Z.eqb_spec k MAXFILE) as [->|]; [|done]. intros _. split; [lia|]. lia.
    + intros b Hbi. unfold img', put_entry. apply upd_ne. apply Hbi. by rewrite Hi'.
  - apply (fresh_put _ hi); [done|lia|lia|]. apply block_ok_put32; [apply Hf|clia].
Qed.

Lemma block_step_ok din z ino hi img :
  laid img (i_addrs din) z hi → fresh img hi → z < MAXFILE * BSIZE → hi + (nblk (z + 1) - nblk z) ≤ FSSIZE →
  block_step din z ino hi img.
Proof.
  intros Hl Hf Hz Hh. pose proof (la_size _ _ _ _ Hl) as Hz0. rewrite nblk_step in Hh by lia.
  destruct (Z.eqb_spec (z mod BSIZE) 0) as [Hm|Hm]; [|by apply block_step_same].
  destruct (Z.eqb_spec z (NDIRECT * BSIZE)) as [He|He]; [apply block_step_indirect; (done || lia)|].
  destruct (decide (z < NDIRECT * BSIZE)); [apply block_step_direct; (done || lia)|].
  apply block_step_entry; (done || lia).
Qed.

(** ** Bytes are written *)

Lemma laid_pos img A z hi k : laid img A z hi → 0 ≤ k ≤ MAXFILE → faddr img A k ≠ 0 → 0 < faddr img A k < hi.
Proof. intros Hl Hk H0. pose proof (la_range _ _ _ _ Hl k Hk H0). clia. Qed.

(** The bytes [q] go to the block of offset [z]. *)
Lemma write_bytes img A z hi q :
  let x := faddr img A (z / BSIZE) in
  let img' := upd img x (splice (img x) (Z.to_nat (z mod BSIZE)) q) in
  laid img A (z + 1) hi → (∀ b, block_ok (img b)) → 0 ≤ z < MAXFILE * BSIZE →
  z mod BSIZE + Z.of_nat (length q) ≤ BSIZE →
  (∀ k, faddr img' A k = faddr img A k) ∧
  ∀ o, 0 ≤ o → o / BSIZE < MAXFILE → faddr img A (o / BSIZE) ≠ 0 →
    fbyte img' A o = if decide (z ≤ o < z + Z.of_nat (length q)) then nth (Z.to_nat (o - z)) q 0 else fbyte img A o.
Proof.
  intros x img' Hl Hok Hz Hq.
  assert (0 ≤ z / BSIZE < MAXFILE) as Hb by (consts; zlia).
  assert (x ≠ 0) as Hx0.
  { apply (la_mapped _ _ _ _ Hl); [lia|]. rewrite fstart_block by done. consts. zlia. }
  assert (faddr img A MAXFILE ≠ 0 → img' (faddr img A MAXFILE) = img (faddr img A MAXFILE)) as Hind.
  { intros HM. apply upd_ne. intros He.
    assert (MAXFILE = z / BSIZE) by (apply (la_inj _ _ _ _ Hl); [clia|lia|done|done]). lia. }
  assert (∀ k, faddr img' A k = faddr img A k) as Hfa by (intros k; by apply faddr_frame).
  split; [done|]. intros o Ho Hob H0. assert (0 ≤ o / BSIZE) by (apply Z.div_pos; [lia|done]).
  unfold fbyte. rewrite Hfa. destruct (decide (o / BSIZE = z / BSIZE)) as [He|He].
  - rewrite He. fold x. unfold img'. rewrite upd_eq.
    assert (length (img x) = 512%nat) as Hlen by apply Hok.
    rewrite nth_splice by (rewrite Hlen; consts; zlia).
    assert (o - z = o mod BSIZE - z mod BSIZE) as Hoz by (consts; zlia).
    pose proof (Z.mod_pos_bound z BSIZE ltac:(done)). pose proof (Z.mod_pos_bound o BSIZE ltac:(done)).
    destruct (decide (Z.to_nat (z mod BSIZE) ≤ Z.to_nat (o mod BSIZE) < Z.to_nat (z mod BSIZE) + length q)%nat) as [Hd|Hd],
      (decide (z ≤ o < z + Z.of_nat (length q))) as [Hd'|Hd']; try lia.
    f_equal. lia.
  - assert (faddr img A (o / BSIZE) ≠ x) as Hne.
    { intros Hx. apply He. apply (la_inj _ _ _ _ Hl); [lia|lia|done|done]. }
    unfold img'. rewrite upd_ne by done. destruct (decide (z ≤ o < z + Z.of_nat (length q))); [|done].
    exfalso. apply He. consts. zlia.
Qed.

Lemma grown_write img A z hi img1 A' hi' q :
  let x := faddr img1 A' (z / BSIZE) in
  let img' := upd img1 x (splice (img1 x) (Z.to_nat (z mod BSIZE)) q) in
  laid img A z hi → grown img A z hi img1 A' (z + 1) hi' → fresh img1 hi' → z < MAXFILE * BSIZE →
  q ≠ [] → z mod BSIZE + Z.of_nat (length q) ≤ BSIZE →
  grown img A z hi img' A' (z + Z.of_nat (length q)) hi' ∧ fresh img' hi' ∧
  ∀ o, z ≤ o < z + Z.of_nat (length q) → fbyte img' A' o = nth (Z.to_nat (o - z)) q 0.
Proof.
  intros x img' Hl0 [Hl Hold Hnew Hfr Hby] Hf Hz Hq0 Hq. pose proof (la_size _ _ _ _ Hl0) as Hz0.
  assert (0 < length q)%nat as Hq1 by (destruct q; [done|cbn; lia]).
  destruct (write_bytes img1 A' z hi' q Hl ltac:(apply Hf) ltac:(lia) Hq) as [Hfa Hb]. fold x img' in Hfa, Hb.
  assert (0 ≤ z / BSIZE < MAXFILE) as Hbn by (consts; zlia).
  assert (x ≠ 0) as Hx0.
  { apply (la_mapped _ _ _ _ Hl); [lia|]. rewrite fstart_block by done. consts. zlia. }
  pose proof (laid_pos _ _ _ _ (z / BSIZE) Hl ltac:(lia) Hx0) as Hxr. fold x in Hxr.
  assert (laid img1 A' (z + Z.of_nat (length q)) hi') as Hl1.
  { apply (laid_resize _ _ (z + 1)); [done|lia|]. consts. zlia. }
  pose proof Hl1 as [L1 L2 L3 L4 L5 L6].
  assert (∀ o, 0 ≤ o → o < z + Z.of_nat (length q) → o / BSIZE < MAXFILE ∧ faddr img1 A' (o / BSIZE) ≠ 0) as Hmap.
  { intros o Ho Hlt. assert (0 ≤ o / BSIZE < MAXFILE) by (consts; zlia). split; [lia|]. apply L3; [lia|].
    rewrite fstart_block by done. consts. zlia. }
  split; [|split].
  - split; [split; try done| | | |].
    + intros k. rewrite Hfa. apply L3.
    + intros k. rewrite Hfa. apply L4.
    + intros k k'. rewrite !Hfa. apply L5.
    + intros o Ho Hob. rewrite Hfa. intros H0. rewrite Hb by (done || lia). rewrite decide_False by lia. by apply L6.
    + intros k Hk H0. rewrite Hfa. by apply Hold.
    + intros k Hk H0. rewrite Hfa. by apply Hnew.
    + intros b Hbh Hno. unfold img'. rewrite upd_ne; [by apply Hfr|]. intros ->.
      destruct (decide (faddr img A (z / BSIZE) = 0)) as [He|He].
      * pose proof (Hnew (z / BSIZE) ltac:(lia) He Hx0). fold x in H. lia.
      * apply (Hno (z / BSIZE) ltac:(lia) He). symmetry. by apply Hold; [lia|].
    + intros o Ho. destruct (Hmap o) as [H1 H2]; [lia|lia|]. rewrite Hb by (done || lia).
      rewrite decide_False by lia. by apply Hby.
  - apply (fresh_put _ hi'); [done|pose proof (fr_hi _ _ Hf); lia|lia|].
    unfold block_ok. rewrite length_splice; [apply Hf|]. assert (length (img1 x) = 512%nat) as -> by apply Hf. consts. zlia.
  - intros o Ho. destruct (Hmap o) as [H1 H2]; [lia|lia|]. rewrite Hb by (done || lia). by rewrite decide_True by lia.
Qed.

Lemma laid_grown_trans img A z hi img1 A1 z1 hi1 img2 A2 z2 hi2 :
  laid img A z hi → z ≤ z1 → hi ≤ hi1 → grown img A z hi img1 A1 z1 hi1 → grown img1 A1 z1 hi1 img2 A2 z2 hi2 →
  grown img A z hi img2 A2 z2 hi2.
Proof.
  intros Hl Hz Hh [G1 G2 G3 G4 G5] [K1 K2 K3 K4 K5]. split; [done| | | |].
  - intros k Hk H0. rewrite K2; [by apply G2|done|by rewrite G2].
  - intros k Hk H0 H2. destruct (decide (faddr img1 A1 k = 0)) as [He|He].
    + specialize (K3 k Hk He H2). lia.
    + rewrite (K2 k Hk He). by apply G3.
  - intros b Hb Hno. rewrite K4; [by apply G4|lia|]. intros k Hk H1.
    destruct (decide (faddr img A k = 0)) as [He|He].
    + specialize (G3 k Hk He H1). lia.
    + rewrite (G2 k Hk He). by apply Hno.
  - intros o Ho. rewrite K5 by lia. by apply G5.
Qed.

Lemma nblk_mono z z' : z ≤ z' → nblk z ≤ nblk z'.
Proof. intros Hz. unfold nblk. consts. destruct (Z.ltb_spec 6144 z), (Z.ltb_spec 6144 z'); zlia. Qed.
Lemma nblk_same z n : 0 ≤ z → 0 < n → z mod BSIZE + n ≤ BSIZE → nblk (z + n) = nblk (z + 1).
Proof. intros Hz Hn Hm. unfold nblk. consts. destruct (Z.ltb_spec 6144 (z + n)), (Z.ltb_spec 6144 (z + 1)); zlia. Qed.

Lemma nth_skip (p : list Z) n k : (n ≤ k)%nat → nth (k - n) (drop n p) 0 = nth k p 0.
Proof. intros Hk. rewrite !nth_lookup, lookup_drop. by replace (n + (k - n))%nat with k by lia. Qed.
Lemma nth_first (p : list Z) n k : (k < n)%nat → nth k (take n p) 0 = nth k p 0.
Proof. intros Hk. by rewrite !nth_lookup, lookup_take_lt. Qed.

Lemma iappend_loop_cons fuel din z p :
  p ≠ [] → iappend_loop (S fuel) din z p = (
    if MAXFILE <=? z / BSIZE then panic "assert"
    else
      '(din, x) ← iappend_block din (z / BSIZE);
      let n1 := Z.to_nat (Z.min (Z.of_nat (length p)) ((z / BSIZE + 1) * BSIZE - z)) in
      d ← rsect x;
      wsect x (splice d (Z.to_nat (z - z / BSIZE * BSIZE)) (take n1 p)) ;;
      iappend_loop fuel din (w32 (z + Z.of_nat n1)) (drop n1 p)).
Proof. by destruct p. Qed.

Lemma iappend_loop_ok ino fuel : ∀ din z hi img p,
  laid img (i_addrs din) z hi → fresh img hi → z + Z.of_nat (length p) ≤ MAXFILE * BSIZE →
  hi + (nblk (z + Z.of_nat (length p)) - nblk z) ≤ FSSIZE → (length p < fuel)%nat →
  let z' := z + Z.of_nat (length p) in let hi' := hi + (nblk z' - nblk z) in
  ∃ A' img', iappend_loop fuel din z p (img_at img ino hi) = Ret (with_addrs din A', z') (img_at img' ino hi') ∧
    grown img (i_addrs din) z hi img' A' z' hi' ∧ fresh img' hi' ∧
    ∀ o, z ≤ o < z' → fbyte img' A' o = nth (Z.to_nat (o - z)) p 0.
Proof.
  induction fuel as [|fuel IH]; intros din z hi img p Hl Hf Hmax Hh Hfu z' hi'; [lia|].
  destruct (decide (p = [])) as [->|Hp].
  { exists (i_addrs din), img. unfold hi', z'. cbn [length Z.of_nat]. rewrite Z.add_0_r, Z.sub_diag, Z.add_0_r, with_addrs_same.
    split; [done|]. split; [by split|]. split; [done|lia]. }
  assert (0 < length p)%nat as Hlen by (destruct p; [done|cbn; lia]).
  pose proof (la_size _ _ _ _ Hl) as Hz0.
  assert (0 ≤ z / BSIZE < MAXFILE) as Hb by (consts; zlia).
  set (n1 := Z.to_nat (Z.min (Z.of_nat (length p)) ((z / BSIZE + 1) * BSIZE - z))) in *.
  assert (z mod BSIZE + Z.of_nat n1 ≤ BSIZE ∧ (0 < n1 ≤ length p)%nat) as [Hn1 Hn1'] by (unfold n1; consts; zlia).
  assert (nblk (z + Z.of_nat n1) = nblk (z + 1)) as Hn2 by (apply nblk_same; lia).
  assert (nblk (z + 1) ≤ nblk z') as Hn3 by (apply nblk_mono; unfold z'; lia).
  assert (nblk z ≤ nblk (z + 1)) as Hn4 by (apply nblk_mono; lia).
  destruct (block_step_ok din z ino hi img Hl Hf ltac:(lia) ltac:(unfold z' in *; lia)) as (A1 & img1 & E1 & G1 & F1).
  set (hi1 := hi + (nblk (z + 1) - nblk z)) in *. set (x := faddr img1 A1 (z / BSIZE)) in *.
  pose proof (gr_laid _ _ _ _ _ _ _ _ G1) as Hl1.
  assert (x ≠ 0) as Hx0.
  { apply (la_mapped _ _ _ _ Hl1); [lia|]. rewrite fstart_block by done. consts. zlia. }
  pose proof (laid_pos _ _ _ _ (z / BSIZE) Hl1 ltac:(lia) Hx0) as Hxr. fold x in Hxr. pose proof (fr_hi _ _ F1) as Hh1.
  assert (length (take n1 p) = n1) as Hlt by (rewrite length_take; lia).
  destruct (grown_write img (i_addrs din) z hi img1 A1 hi1 (take n1 p) Hl G1 F1 ltac:(lia)) as (G2 & F2 & B2);
    [intros Hn; rewrite Hn in Hlt; cbn in Hlt; lia|lia|]. rewrite Hlt in G2, B2. fold x in G2, F2, B2.
  set (img2 := upd img1 x _) in *.
  assert (z + Z.of_nat n1 + Z.of_nat (length (drop n1 p)) = z') as Hz' by (rewrite length_drop; unfold z'; lia).
  destruct (IH (with_addrs din A1) (z + Z.of_nat n1) hi1 img2 (drop n1 p)) as (A' & img' & E & G & F & B).
  { exact (gr_laid _ _ _ _ _ _ _ _ G2). } { done. } { rewrite Hz'. unfold z'. lia. } { rewrite Hz'. unfold hi1, z' in *. lia. }
  { rewrite length_drop. lia. }
  rewrite Hz', Hn2 in E, G, F. rewrite Hz' in B.
  replace (hi1 + (nblk z' - nblk (z + 1))) with hi' in E, G, F by (unfold hi1, hi'; lia).
  exists A', img'. split; [|split; [|split; [done|]]].
  - subst n1 x. clear -Hp E E1 Hb Hxr Hh1 Hn1 Hmax Hz0 Hn1' Hf hi'. rewrite iappend_loop_cons by done.
    destruct (Z.leb_spec MAXFILE (z / BSIZE)); [lia|]. mstep E1. cbv beta iota zeta.
    mstep (rsect_run (faddr img1 A1 (z / BSIZE)) img1 ino hi1 ltac:(lia)).
    replace (z - z / BSIZE * BSIZE) with (z mod BSIZE) by (consts; zlia).
    mstep (wsect_run (faddr img1 A1 (z / BSIZE)) (splice (img1 (faddr img1 A1 (z / BSIZE))) (Z.to_nat (z mod BSIZE))
      (take (Z.to_nat (Z.min (Z.of_nat (length p)) ((z / BSIZE + 1) * BSIZE - z))) p)) img1 ino hi1 ltac:(lia)).
    rewrite w32_small by clia. exact E.
  - apply (laid_grown_trans _ _ _ _ img2 A1 (z + Z.of_nat n1) hi1); [done|lia|unfold hi1; lia|done|done].
  - intros o Ho. destruct (decide (o < z + Z.of_nat n1)) as [Hlo|Hlo].
    + rewrite (gr_bytes _ _ _ _ _ _ _ _ G) by lia. rewrite B2 by lia. apply nth_first. lia.
    + rewrite B by lia. replace (Z.to_nat (o - (z + Z.of_nat n1))) with (Z.to_nat (o - z) - n1)%nat by lia. apply nth_skip. lia.
Qed.
