(* ===== verification/MkfsSpec.v ===== *)
(** What mkfs builds: the image holds the files it was given, laid out as the
    kernel expects.

    [inv] says what holds of the image between two calls of [ialloc] or
    [iappend]; Section Kernel draws the conclusion for a kernel that runs on
    the image. *)

From S2P Require Import Prelude Sleeplock BufferCache Superblock Log LogOps Txn.
From S2P Require Import Fs FsAlloc FsInode FsFile FsRw FsDir Mkfs MkfsFile.

(** ** All the files *)

Definition node (img : Z → block) (i : Z) : inode := disk_inode mk_sb img (blank i).
Abbreviation naddr img i k := (faddr img (i_addrs (node img i)) k).

(** Inode [i] is a file with the content [c]. *)
Record file_is (img : Z → block) (hi i : Z) (c : list Z) : Prop := {
  fi_fits : inode_fits (node img i);
  fi_type : i_type (node img i) = if i =? ROOTINO then T_DIR else T_FILE;
  fi_nlink : i_nlink (node img i) = 1;
  fi_size : i_size (node img i) = Z.of_nat (length c);
  fi_laid : laid img (i_addrs (node img i)) (Z.of_nat (length c)) hi;
  fi_bytes o : 0 ≤ o < Z.of_nat (length c) → fbyte img (i_addrs (node img i)) o = nth (Z.to_nat o) c 0;
}.

(** [C] gives the contents of the inodes that have been allocated. *)
Record inv (s : mk) (C : Z → list Z) : Prop := {
  iv_len : mk_len s = FSSIZE;
  iv_fresh : fresh (mk_img s) (mk_block s);
  iv_ino : 1 ≤ mk_inode s ≤ NINODES;
  iv_file i : 1 ≤ i < mk_inode s → file_is (mk_img s) (mk_block s) i (C i);
  iv_sep i j k l : 1 ≤ i < mk_inode s → 1 ≤ j < mk_inode s → i ≠ j → 0 ≤ k ≤ MAXFILE → 0 ≤ l ≤ MAXFILE →
    naddr (mk_img s) i k ≠ 0 → naddr (mk_img s) i k ≠ naddr (mk_img s) j l;
}.

Definition mk_home (b : Z) : Prop := 32 ≤ b < 1000.
Lemma mk_geom (home : Z → Prop) : (∀ b, 32 ≤ b < 1000 → home b) → fs_geom mk_sb home.
Proof. intros Hh. rewrite mk_sb_eq. split; cbn; [lia|by vm_compute|by vm_compute|lia|exact Hh]. Qed.
Lemma mk_iblock i : 0 ≤ i < NINODES → 32 ≤ IBLOCK i mk_sb < 58.
Proof.
  intros Hi. destruct (iblock mk_sb mk_home i (mk_geom mk_home (λ b H, H))) as (_ & _ & Hb); [by rewrite mk_sb_eq|].
  by rewrite mk_sb_eq in Hb |- *.
Qed.

Lemma rinode_run i img ino hi : 0 ≤ i < NINODES → rinode i (img_at img ino hi) = Ret (node img i) (img_at img ino hi).
Proof. intros Hi. unfold rinode. pose proof (mk_iblock i Hi). by mstep (rsect_run (IBLOCK i mk_sb) img ino hi ltac:(clia)). Qed.

Definition put_node (img : Z → block) (ip : inode) : Z → block :=
  upd img (IBLOCK (i_inum ip) mk_sb) (store_dinode ip (img (IBLOCK (i_inum ip) mk_sb))).
Lemma winode_run ip img ino hi :
  0 ≤ i_inum ip < NINODES → winode (i_inum ip) ip (img_at img ino hi) = Ret () (img_at (put_node img ip) ino hi).
Proof.
  intros Hi. unfold winode. pose proof (mk_iblock _ Hi). mstep (rsect_run (IBLOCK (i_inum ip) mk_sb) img ino hi ltac:(clia)).
  apply wsect_run. clia.
Qed.

Lemma put_node_data img ip b : 0 ≤ i_inum ip < NINODES → b < 32 ∨ 58 ≤ b → put_node img ip b = img b.
Proof. intros Hi Hb. pose proof (mk_iblock _ Hi). apply upd_ne. lia. Qed.
Lemma put_node_ok img ip b :
  (∀ b, block_ok (img b)) → length (i_addrs ip) = 13%nat → block_ok (put_node img ip b).
Proof. intros Hok Ha. unfold put_node. rewrite upd_case. case_decide; [|apply Hok]. by apply length_store_dinode; [apply Hok|]. Qed.
Lemma put_node_same img ip :
  (∀ b, block_ok (img b)) → inode_fits ip →
  let n := node (put_node img ip) (i_inum ip) in
  i_type n = i_type ip ∧ i_nlink n = i_nlink ip ∧ i_size n = i_size ip ∧ i_addrs n = i_addrs ip ∧ inode_fits n.
Proof.
  intros Hok Hf. unfold node, disk_inode. cbn [blank i_inum]. unfold put_node. rewrite upd_eq.
  rewrite load_store_dinode by (done || apply Hok). cbn. split_and!; try done. by destruct Hf; split.
Qed.
Lemma put_node_other img ip j :
  (∀ b, block_ok (img b)) → length (i_addrs ip) = 13%nat → 0 ≤ i_inum ip < NINODES → 0 ≤ j < NINODES → j ≠ i_inum ip →
  node (put_node img ip) j = node img j.
Proof.
  intros Hok Ha Hi Hj Hne. assert (sb_ninodes mk_sb = NINODES) as Hn by done.
  pose proof (mk_geom mk_home (λ b H, H)) as Hg.
  unfold node, disk_inode. cbn [blank i_inum]. unfold put_node. rewrite upd_case. case_decide as Hb; [|done]. rewrite Hb.
  apply load_store_other; [apply Hok|done|]. cbn [blank i_inum].
  apply (iblock_offset mk_sb mk_home); [done|by rewrite Hn|by rewrite Hn|done|done].
Qed.

(** A change elsewhere. *)
Lemma file_frame img img' hi hi' i c :
  node img' i = node img i → hi ≤ hi' →
  (∀ k, 0 ≤ k ≤ MAXFILE → naddr img i k ≠ 0 → img' (naddr img i k) = img (naddr img i k)) →
  file_is img hi i c → file_is img' hi' i c.
Proof.
  intros Hn Hh Hf [F1 F2 F3 F4 F5 F6]. split; rewrite ?Hn; try done.
  - apply (laid_hi _ _ _ hi); [|done]. by apply (laid_frame img).
  - intros o Ho. assert (0 ≤ o / BSIZE < MAXFILE) by (pose proof (la_size _ _ _ _ F5); consts; zlia).
    rewrite (fbyte_frame img); [by apply F6|done|lia|lia|]. apply (la_mapped _ _ _ _ F5); [lia|].
    rewrite fstart_block by done. consts. zlia.
Qed.
Lemma naddr_frame img img' i k :
  node img' i = node img i →
  (∀ k, 0 ≤ k ≤ MAXFILE → naddr img i k ≠ 0 → img' (naddr img i k) = img (naddr img i k)) → naddr img' i k = naddr img i k.
Proof. intros Hn Hf. rewrite Hn. apply faddr_frame. apply Hf. clia. Qed.

(** The node of a file that has grown. *)
Lemma file_grown img hi i c p img1 A' hi' img2 :
  let z := Z.of_nat (length c) in let z' := Z.of_nat (length (c ++ p)) in let din := node img i in
  file_is img hi i c → 0 ≤ i < NINODES → (∀ b, block_ok (img1 b)) → hi' ≤ FSSIZE →
  grown img (i_addrs din) z hi img1 A' z' hi' →
  (∀ o, z ≤ o < z' → fbyte img1 A' o = nth (Z.to_nat (o - z)) p 0) →
  img2 = put_node img1 (with_size (with_addrs din A') z') →
  file_is img2 hi' i (c ++ p) ∧ i_addrs (node img2 i) = A' ∧ laid img2 A' z' hi'.
Proof.
  intros z z' din [F1 F2 F3 F4 F5 F6] Hi Hok Hhi [G1 G2 G3 G4 G5] Hb ->.
  set (ip := with_size (with_addrs din A') z'). pose proof (la_size _ _ _ _ G1) as Hz'.
  assert (inode_fits ip) as Hfit.
  { destruct F1. split; try done; [unfold ip; cbn; clia|by apply (laid_fit img1 _ z' hi')|apply G1]. }
  destruct (put_node_same img1 ip Hok Hfit) as (N1 & N2 & N3 & N4 & N5).
  change (i_inum ip) with i in N1, N2, N3, N4, N5. change (i_addrs ip) with A' in N4.
  assert (∀ k, 0 ≤ k ≤ MAXFILE → faddr img1 A' k ≠ 0 → put_node img1 ip (faddr img1 A' k) = img1 (faddr img1 A' k)) as Hf.
  { intros k Hk H0. apply put_node_data; [done|]. pose proof (la_range _ _ _ _ G1 k Hk H0). clia. }
  assert (laid (put_node img1 ip) A' z' hi') as Hl by by apply (laid_frame img1).
  split; [|by split]. split; try done; [by rewrite N1|by rewrite N2|by rewrite N4|].
  intros o Ho. change (0 ≤ o < z') in Ho. rewrite N4.
  assert (0 ≤ o / BSIZE < MAXFILE) as Hob by (consts; zlia).
  rewrite (fbyte_frame img1); [|done|lia|lia|apply (la_mapped _ _ _ _ G1); [lia|rewrite fstart_block by done; consts; zlia]].
  rewrite nth_lookup, lookup_app. destruct (decide (o < z)) as [Hlo|Hlo].
  - rewrite G5 by lia. rewrite F6 by (unfold z in *; lia). rewrite nth_lookup.
    destruct (lookup_lt_is_Some_2 c (Z.to_nat o)) as [x ->]; [unfold z in Hlo; lia|done].
  - rewrite Hb by lia. rewrite lookup_ge_None_2 by (unfold z in Hlo; lia). rewrite nth_lookup. do 2 f_equal. unfold z. lia.
Qed.

(** ** The operations on the image *)

Lemma file_bound img ino hi C i : inv (img_at img ino hi) C → 1 ≤ i < ino → 0 ≤ i < NINODES.
Proof. intros Hv Hi. pose proof (iv_ino _ _ Hv) as Hn. cbn in Hn. lia. Qed.

(** The content of one file changes, the others are as they were. *)
Lemma inv_change img ino hi C i c img' hi' :
  inv (img_at img ino hi) C → 1 ≤ i < ino → hi ≤ hi' → fresh img' hi' → file_is img' hi' i c →
  (∀ j, 1 ≤ j < ino → j ≠ i → node img' j = node img j) →
  (∀ j k, 1 ≤ j < ino → j ≠ i → 0 ≤ k ≤ MAXFILE → naddr img j k ≠ 0 → img' (naddr img j k) = img (naddr img j k)) →
  (∀ k, 0 ≤ k ≤ MAXFILE → naddr img' i k ≠ 0 → naddr img' i k = naddr img i k ∨ hi ≤ naddr img' i k) →
  inv (img_at img' ino hi') (upd C i c).
Proof.
  intros [V1 V2 V3 V4 V5] Hi Hh Hf Hfile Hn Hd Ha. cbn in V2, V3, V4, V5.
  assert (∀ j k, 1 ≤ j < ino → j ≠ i → naddr img' j k = naddr img j k) as Hna.
  { intros j k Hj Hne. apply naddr_frame; [by apply Hn|]. intros. by apply Hd. }
  assert (∀ k l j, 1 ≤ j < ino → j ≠ i → 0 ≤ k ≤ MAXFILE → 0 ≤ l ≤ MAXFILE → naddr img' i k ≠ 0 → naddr img j l ≠ 0 →
    naddr img' i k ≠ naddr img j l) as Hsep.
  { intros k l j Hj Hne Hk Hl H0 H1. destruct (Ha k Hk H0) as [He|He].
    - rewrite He in H0 |- *. apply V5; done.
    - pose proof (la_range _ _ _ _ (fi_laid _ _ _ _ (V4 j Hj)) l Hl H1). lia. }
  split; [done|done|done| |]; cbn [mk_img mk_block mk_inode].
  - intros j Hj. rewrite upd_case. case_decide as He; [by subst j|].
    apply (file_frame img _ hi); [by apply Hn|done| |by apply V4]. intros. by apply Hd.
  - intros j j' k l Hj Hj' Hne Hk Hl H0. destruct (decide (j = i)) as [->|Hji]; [|destruct (decide (j' = i)) as [->|Hji']].
    + rewrite (Hna j') by done. destruct (decide (naddr img j' l = 0)) as [->|]; [done|]. by apply Hsep.
    + rewrite (Hna j) in H0 |- * by done. intros He. apply (Hsep l k j); try done. by rewrite <-He.
    + rewrite (Hna j) in H0 |- * by done. rewrite (Hna j') by done. by apply V5.
Qed.

Lemma nblk_app (c p : list Z) : nblk (Z.of_nat (length c)) ≤ nblk (Z.of_nat (length (c ++ p))).
Proof. apply nblk_mono. rewrite length_app. lia. Qed.

Lemma iappend_ok img ino hi C i p :
  let hi' := hi + (nblk (Z.of_nat (length (C i ++ p))) - nblk (Z.of_nat (length (C i)))) in
  inv (img_at img ino hi) C → 1 ≤ i < ino → Z.of_nat (length (C i ++ p)) ≤ MAXFILE * BSIZE → hi' ≤ FSSIZE →
  ∃ img', iappend i p (img_at img ino hi) = Ret () (img_at img' ino hi') ∧
    inv (img_at img' ino hi') (upd C i (C i ++ p)) ∧ ∀ b, b < 32 → img' b = img b.
Proof.
  intros hi' Hv Hi Hmax Hh. pose proof (file_bound _ _ _ _ _ Hv Hi) as Hin. pose proof (nblk_app (C i) p) as Hle.
  pose proof (iv_file _ _ Hv i Hi) as Hfile. cbn [mk_img mk_block] in Hfile. set (c := C i) in *. set (din := node img i) in *.
  pose proof (iv_fresh _ _ Hv) as Hfr. cbn [mk_img mk_block] in Hfr. pose proof Hfile as [F1 F2 F3 F4 F5 F6].
  assert (Z.of_nat (length c) + Z.of_nat (length p) = Z.of_nat (length (c ++ p))) as Hz by (rewrite length_app; lia).
  destruct (iappend_loop_ok ino (length p + 1) din (Z.of_nat (length c)) hi img p) as (A' & img1 & E & G & Fr & B);
    [done|done|lia|rewrite Hz; exact Hh|lia|]. rewrite Hz in E, G, Fr, B. fold hi' in E, G, Fr.
  set (z' := Z.of_nat (length (c ++ p))) in *. set (ip := with_size (with_addrs din A') z').
  destruct (file_grown img hi i c p img1 A' hi' (put_node img1 ip)) as (K1 & K2 & K3); [done|done|apply Fr|done|exact G|exact B|done|].
  assert (length (i_addrs ip) = 13%nat) as Hlen by apply G.
  assert (∀ b, block_ok (put_node img1 ip b)) as Hok2 by (intros b; by apply put_node_ok; [apply Fr|]).
  assert (∀ b, nmeta ≤ b → put_node img1 ip b = img1 b) as Hdat.
  { intros b Hb. apply put_node_data; [done|clia]. }
  assert (∀ b, b < hi → (∀ k, 0 ≤ k ≤ MAXFILE → naddr img i k ≠ 0 → naddr img i k ≠ b) → img1 b = img b) as Hfrm by apply G.
  assert (∀ b, b < nmeta → img1 b = img b) as Hmeta.
  { intros b Hb. apply Hfrm; [pose proof (fr_hi _ _ Hfr); lia|]. intros k Hk H0.
    pose proof (la_range _ _ _ _ F5 k Hk H0). unfold din in *. lia. }
  exists (put_node img1 ip). split; [|split].
  - unfold iappend. mstep (rinode_run i img ino hi Hin). fold din.
    change (node img i) with din in F4. rewrite F4, xint_small by clia. mstep E. cbv beta iota. rewrite xint_small by clia. exact (winode_run ip img1 ino hi' Hin).
  - apply (inv_change img ino hi); try done; [lia| | | |].
    + destruct Fr as [R1 R2 R3]. split; [done|done|]. intros b Hb. rewrite Hdat by lia. by apply R3.
    + intros j Hj Hne. rewrite put_node_other; [|apply Fr|done|done|exact (file_bound _ _ _ _ _ Hv Hj)|done].
      unfold node, disk_inode. cbn [blank i_inum]. rewrite Hmeta; [done|].
      pose proof (mk_iblock j (file_bound _ _ _ _ _ Hv Hj)). clia.
    + intros j k Hj Hne Hk H0. pose proof (la_range _ _ _ _ (fi_laid _ _ _ _ (iv_file _ _ Hv j Hj)) k Hk H0) as Hr.
      cbn [mk_img mk_block] in Hr. rewrite Hdat by lia. apply Hfrm; [lia|]. intros l Hl H1.
      apply (iv_sep _ _ Hv i j); done.
    + intros k Hk. rewrite K2. rewrite (faddr_frame img1).
      * intros H0. destruct (decide (naddr img i k = 0)) as [He|He]; [right; by apply (gr_new _ _ _ _ _ _ _ _ G)|left].
        by apply (gr_old _ _ _ _ _ _ _ _ G).
      * intros H0. apply Hdat. apply (la_range _ _ _ _ (gr_laid _ _ _ _ _ _ _ _ G)); [clia|done].
  - intros b Hb. rewrite put_node_data by (done || lia). apply Hmeta. clia.
Qed.

(** *** [ialloc] *)

Lemma faddr_nil img k : faddr img (replicate 13 0) k = 0.
Proof.
  unfold faddr, indirect. rewrite !nth_replicate_zero. change (0 =? 0) with true. cbn iota.
  by destruct (k <? NDIRECT), (k =? MAXFILE).
Qed.
Lemma laid_nil img hi : laid img (replicate 13 0) 0 hi.
Proof.
  split; [done|clia| | | |]; intros k; rewrite faddr_nil; try done.
  intros Hk. split; [done|]. unfold fstart. destruct (k =? MAXFILE); clia.
Qed.

Lemma ialloc_ok img ino hi C type :
  inv (img_at img ino hi) C → ino < NINODES → type = (if ino =? ROOTINO then T_DIR else T_FILE) →
  ∃ img', Mkfs.ialloc type (img_at img ino hi) = Ret ino (img_at img' (ino + 1) hi) ∧
    inv (img_at img' (ino + 1) hi) (upd C ino []) ∧ ∀ b, b < 32 → img' b = img b.
Proof.
  intros [V1 V2 V3 V4 V5] Hi Hty. cbn [mk_img mk_block mk_inode] in V2, V3, V4, V5.
  set (ip := Inode ROOTDEV ino 0 initsleeplock 0 type 0 0 1 0 (replicate 13 0)).
  assert (inode_fits ip) as Hfit.
  { split; cbn; try done; [rewrite Hty; by destruct (ino =? ROOTINO)|by repeat constructor]. }
  assert (0 ≤ i_inum ip < NINODES) as Hin by (cbn; lia).
  destruct (put_node_same img ip ltac:(apply V2) Hfit) as (N1 & N2 & N3 & N4 & N5). change (i_inum ip) with ino in *.
  assert (∀ b, nmeta ≤ b → put_node img ip b = img b) as Hdat by (intros b Hb; apply put_node_data; [done|clia]).
  assert (∀ j, 1 ≤ j < ino → node (put_node img ip) j = node img j) as Hnode.
  { intros j Hj. apply put_node_other; [apply V2|done|done|lia|cbn; lia]. }
  assert (∀ k, naddr (put_node img ip) ino k = 0) as H0 by (intros k; rewrite N4; apply faddr_nil).
  assert (∀ j k, 1 ≤ j < ino → 0 ≤ k ≤ MAXFILE → naddr img j k ≠ 0 → put_node img ip (naddr img j k) = img (naddr img j k)) as Hd.
  { intros j k Hj Hk Hne. apply Hdat. by apply (la_range _ _ _ _ (fi_laid _ _ _ _ (V4 j Hj))). }
  exists (put_node img ip). split; [|split].
  - unfold Mkfs.ialloc. mstep (eq_refl (gets mk_inode (img_at img ino hi))). unfold modify, mbind at 1, M_bind at 1.
    cbn [mk_img mk_len mk_inode mk_block]. rewrite w32_small by clia.
    assert (xshort type = type) as -> by by rewrite Hty; destruct (ino =? ROOTINO).
    change (xshort 1) with 1. change (xint 0) with 0. fold ip.
    by mstep (winode_run ip img (ino + 1) hi Hin).
  - split; [done| |cbn; lia| |]; cbn [mk_img mk_block mk_inode].
    + destruct V2 as [R1 R2 R3]. split; [|done|intros b Hb; rewrite Hdat by lia; by apply R3].
      intros b. by apply put_node_ok.
    + intros j Hj. rewrite upd_case. case_decide as He.
      * subst j. split; rewrite ?N1, ?N2, ?N3, ?N4; try done; [apply laid_nil|]. cbn. lia.
      * apply (file_frame img _ hi); [apply Hnode; lia|done| |apply V4; lia]. intros. apply Hd; [lia|done|done].
    + intros j j' k l Hj Hj' Hne Hk Hl Hk0. destruct (decide (j = ino)) as [->|]; [by rewrite H0 in Hk0|].
      assert (∀ i k, 1 ≤ i < ino → naddr (put_node img ip) i k = naddr img i k) as Hna.
      { intros j0 k0 Hj0. apply naddr_frame; [by apply Hnode|]. intros. by apply Hd. }
      destruct (decide (j' = ino)) as [->|]; [by rewrite H0|]. rewrite Hna in Hk0 |- * by lia. rewrite Hna by lia.
      apply V5; done || lia.
  - intros b Hb. apply put_node_data; [done|lia].
Qed.

(** *** The files *)

(** What is read up to the end of the file. *)
Fixpoint read_bytes (reads : list (list Z)) : list Z :=
  match reads with
  | [] | [] :: _ => []
  | p :: reads => p ++ read_bytes reads
  end.

Lemma read_bytes_cons p reads : p ≠ [] → read_bytes (p :: reads) = p ++ read_bytes reads.
Proof. by destruct p. Qed.

Lemma append_reads_ok i ino reads : ∀ img hi C,
  let hi' := hi + (nblk (Z.of_nat (length (C i ++ read_bytes reads))) - nblk (Z.of_nat (length (C i)))) in
  inv (img_at img ino hi) C → 1 ≤ i < ino → Z.of_nat (length (C i ++ read_bytes reads)) ≤ MAXFILE * BSIZE → hi' ≤ FSSIZE →
  ∃ img' C', append_reads i reads (img_at img ino hi) = Ret () (img_at img' ino hi') ∧
    inv (img_at img' ino hi') C' ∧ C' i = C i ++ read_bytes reads ∧ (∀ j, j ≠ i → C' j = C j) ∧
    ∀ b, b < 32 → img' b = img b.
Proof.
  assert (∀ img hi C, inv (img_at img ino hi) C → ∃ img' C', (mret () : M mk ()) (img_at img ino hi) =
    Ret () (img_at img' ino (hi + (nblk (Z.of_nat (length (C i ++ []))) - nblk (Z.of_nat (length (C i)))))) ∧
    inv (img_at img' ino (hi + (nblk (Z.of_nat (length (C i ++ []))) - nblk (Z.of_nat (length (C i)))))) C' ∧
    C' i = C i ++ [] ∧ (∀ j, j ≠ i → C' j = C j) ∧ ∀ b, b < 32 → img' b = img b) as Hnil.
  { intros img hi C Hv. exists img, C. rewrite app_nil_r, Z.sub_diag, Z.add_0_r. done. }
  induction reads as [|p reads IH]; intros img hi C hi' Hv Hi Hmax Hh; [by apply Hnil|].
  destruct (decide (p = [])) as [->|Hp]; [by apply Hnil|].
  revert hi' Hh Hmax. rewrite read_bytes_cons by done. rewrite app_assoc. intros hi' Hh Hmax.
  pose proof (nblk_app (C i ++ p) (read_bytes reads)) as Hle.
  destruct (iappend_ok img ino hi C i p Hv Hi) as (img1 & E1 & V1 & B1);
    [rewrite (length_app (C i ++ p)) in Hmax; lia|unfold hi' in Hh; lia|].
  edestruct (IH img1) as (img2 & C' & E2 & V2 & C2 & O2 & B2); [exact V1|done|by rewrite upd_eq| |]; rewrite ?upd_eq.
  { unfold hi' in Hh. lia. }
  rewrite upd_eq in E2, V2, C2.
  match type of E2 with _ = Ret () (img_at _ _ ?h) => replace h with hi' in E2, V2 by (unfold hi'; lia) end.
  exists img2, C'. split; [|split; [done|split; [done|split]]].
  - replace (append_reads i (p :: reads)) with (iappend i p ;; append_reads i reads) by by destruct p. by mstep E1.
  - intros j Hj. rewrite O2 by done. by rewrite upd_ne.
  - intros b Hb. rewrite B2, B1; done.
Qed.

(** The entries of the root directory, from number [j] on: entry [j] is for
    inode [j], except that the first one is for the root as well. *)
Fixpoint dirents (j : Z) (names : list (list Z)) : list Z :=
  match names with
  | [] => []
  | n :: names => mk_dirent (Z.max 1 j) n ++ dirents (j + 1) names
  end.
Definition file_name (f : input) : list Z := skip_underscore (base_name (in_path f)).
Definition root_names (files : list input) : list (list Z) := [[46]; [46; 46]] ++ map file_name files.
Definition file_bytes (f : input) : list Z := read_bytes (default [] (in_reads f)).

Lemma length_dirents names : ∀ j, Z.of_nat (length (dirents j names)) = 16 * Z.of_nat (length names).
Proof.
  induction names as [|n names IH]; intros j; cbn [dirents length]; [done|].
  rewrite length_app, length_mk_dirent, Nat2Z.inj_add, IH. lia.
Qed.
Lemma dirents_app a b : ∀ j, dirents j (a ++ b) = dirents j a ++ dirents (j + Z.of_nat (length a)) b.
Proof.
  induction a as [|n a IH]; intros j; cbn [dirents app length]; [by rewrite Z.add_0_r|].
  rewrite IH, <-app_assoc. do 3 f_equal. lia.
Qed.

(** No name has a slash. *)
Lemma base_length_bound path : ∀ j, 0 ≤ j → 0 ≤ base_length path j ≤ j + Z.of_nat (length path).
Proof.
  induction path as [|c path IH]; intros j Hj; cbn [base_length length]; [lia|].
  destruct (c =? 47); [specialize (IH 0)|specialize (IH (j + 1))]; lia.
Qed.
Lemma base_length_spec path : ∀ j pre, existsb (Z.eqb 47) (drop (length pre - Z.to_nat j) pre) = false →
  0 ≤ j ≤ Z.of_nat (length pre) →
  existsb (Z.eqb 47) (drop (length (pre ++ path) - Z.to_nat (base_length path j)) (pre ++ path)) = false.
Proof.
  induction path as [|c path IH]; intros j pre Hp Hj; cbn [base_length]; [by rewrite app_nil_r|].
  replace (pre ++ c :: path) with ((pre ++ [c]) ++ path) by by rewrite <-app_assoc.
  apply IH; [|rewrite length_app; cbn; destruct (c =? 47); lia].
  destruct (Z.eqb_spec c 47) as [->|Hc].
  - by rewrite drop_ge by (rewrite Nat.sub_0_r; done).
  - rewrite length_app. cbn [length]. replace (length pre + 1 - Z.to_nat (j + 1))%nat with (length pre - Z.to_nat j)%nat by lia.
    rewrite drop_app_le by lia. rewrite existsb_app, Hp. cbn. destruct c; try done. rewrite orb_false_r.
    destruct (Pos.eqb_spec 47 p) as [<-|]; done.
Qed.
Lemma base_name_no_slash path : existsb (Z.eqb 47) (base_name path) = false.
Proof. apply (base_length_spec path 0 []); [done|cbn; lia]. Qed.

(** An input that the image can take, and the blocks of all of them. *)
Record fits (f : input) : Prop := {
  ft_open : is_Some (in_reads f);
  ft_size : Z.of_nat (length (file_bytes f)) ≤ MAXFILE * BSIZE;
}.
Definition blocks_needed (files : list input) : Z :=
  foldr (λ f n, nblk (Z.of_nat (length (file_bytes f))) + n) 0 files.

Lemma nblk_nonneg z : 0 ≤ z → 0 ≤ nblk z.
Proof. intros Hz. unfold nblk. consts. destruct (6144 <? z); zlia. Qed.
Lemma blocks_nonneg files : 0 ≤ blocks_needed files.
Proof.
  induction files as [|f files IH]; cbn [blocks_needed foldr]; [done|]. fold (blocks_needed files).
  pose proof (nblk_nonneg (Z.of_nat (length (file_bytes f))) ltac:(lia)). lia.
Qed.

(** One file, with its entry in the root. *)
Lemma add_file_ok img ino hi C f reads :
  let hi' := hi + (nblk (16 * (ino + 1)) - nblk (16 * ino)) + nblk (Z.of_nat (length (file_bytes f))) in
  inv (img_at img ino hi) C → Z.of_nat (length (C ROOTINO)) = 16 * ino → 2 ≤ ino < NINODES → fits f →
  in_reads f = Some reads → hi' ≤ FSSIZE →
  ∃ img' C', (inum ← Mkfs.ialloc T_FILE;
              iappend ROOTINO (mk_dirent (xshort inum) (file_name f)) ;;
              append_reads inum reads) (img_at img ino hi) = Ret () (img_at img' (ino + 1) hi') ∧
    inv (img_at img' (ino + 1) hi') C' ∧ C' ROOTINO = C ROOTINO ++ mk_dirent (Z.max 1 ino) (file_name f) ∧
    C' ino = file_bytes f ∧ (∀ j, j ≠ ROOTINO → j ≠ ino → C' j = C j) ∧ ∀ b, b < 32 → img' b = img b.
Proof.
  intros hi' Hv Hroot Hi [_ Hsz] Hr Hh. assert (ROOTINO = 1) as HR by done.
  assert (0 ≤ nblk (Z.of_nat (length (file_bytes f)))) as Hnn by (apply nblk_nonneg; lia).
  destruct (ialloc_ok img ino hi C T_FILE Hv) as (img1 & E1 & V1 & B1); [lia| |].
  { destruct (Z.eqb_spec ino ROOTINO); [lia|done]. }
  assert (upd C ino [] ROOTINO = C ROOTINO) as HC1 by (apply upd_ne; lia).
  assert (xshort ino = Z.max 1 ino) as Hx.
  { rewrite xshort_w16. unfold w16, NINODES in *. rewrite Z.mod_small by lia. lia. }
  assert (Z.of_nat (length (C ROOTINO ++ mk_dirent (Z.max 1 ino) (file_name f))) = 16 * (ino + 1)) as Hlen.
  { rewrite length_app, length_mk_dirent. lia. }
  destruct (iappend_ok img1 (ino + 1) hi (upd C ino []) ROOTINO (mk_dirent (Z.max 1 ino) (file_name f)) V1)
    as (img2 & E2 & V2 & B2); rewrite ?HC1, ?Hlen, ?Hroot; [lia|clia|unfold hi' in Hh; lia|].
  rewrite HC1, Hlen, Hroot in E2, V2. set (hi2 := hi + (nblk (16 * (ino + 1)) - nblk (16 * ino))) in *.
  set (C2 := upd (upd C ino []) ROOTINO (C ROOTINO ++ mk_dirent (Z.max 1 ino) (file_name f))) in *.
  assert (C2 ino = []) as HC2 by (unfold C2; rewrite upd_ne by lia; apply upd_eq).
  assert (read_bytes reads = file_bytes f) as Hrb by (unfold file_bytes; by rewrite Hr).
  pose proof (append_reads_ok ino (ino + 1) reads img2 hi2 C2) as H3. cbv zeta in H3. rewrite HC2, app_nil_l, Hrb in H3.
  change (nblk (Z.of_nat (length (@nil Z)))) with 0 in H3. rewrite Z.sub_0_r in H3.
  destruct H3 as (img3 & C3 & E3 & V3 & K3 & O3 & B3); [exact V2|lia|exact Hsz|exact Hh|].
  exists img3, C3. split; [|split; [exact V3|split; [|split; [exact K3|split]]]].
  - mstep E1. cbv beta. rewrite Hx. mstep E2. exact E3.
  - rewrite O3 by lia. apply upd_eq.
  - intros j H1 H2. rewrite O3 by done. unfold C2. rewrite !upd_ne by done. done.
  - intros b Hb. rewrite B3, B2, B1; done.
Qed.

Lemma add_files_ok files : ∀ img ino hi C,
  let n := Z.of_nat (length files) in
  let hi' := hi + (nblk (16 * (ino + n)) - nblk (16 * ino)) + blocks_needed files in
  inv (img_at img ino hi) C → Z.of_nat (length (C ROOTINO)) = 16 * ino → 2 ≤ ino → ino + n ≤ NINODES →
  Forall fits files → hi' ≤ FSSIZE →
  ∃ img' C', add_files ROOTINO files (img_at img ino hi) = Ret () (img_at img' (ino + n) hi') ∧
    inv (img_at img' (ino + n) hi') C' ∧ C' ROOTINO = C ROOTINO ++ dirents ino (map file_name files) ∧
    (∀ k f, files !! k = Some f → C' (ino + Z.of_nat k) = file_bytes f) ∧
    (∀ j, j ≠ ROOTINO → j < ino → C' j = C j) ∧ ∀ b, b < 32 → img' b = img b.
Proof.
  induction files as [|f files IH]; intros img ino hi C n hi' Hv Hroot Hi Hn Hall Hh.
  { exists img, C. unfold hi', n. cbn [length Z.of_nat blocks_needed foldr dirents map]. rewrite !Z.add_0_r, Z.sub_diag, Z.add_0_r, app_nil_r.
    split; [done|]. split; [done|]. split; [done|]. split; [intros k f Hf; by rewrite lookup_nil in Hf|done]. }
  apply Forall_cons in Hall as [Hf Hall]. destruct (ft_open _ Hf) as [reads Hr].
  assert (n = 1 + Z.of_nat (length files)) as Hn' by (unfold n; cbn [length]; lia). clearbody n. subst n.
  set (m := Z.of_nat (length files)) in *. assert (0 ≤ m) as Hm by (unfold m; lia).
  assert (hi' = hi + (nblk (16 * (ino + 1)) - nblk (16 * ino)) + nblk (Z.of_nat (length (file_bytes f))) +
    (nblk (16 * (ino + 1 + m)) - nblk (16 * (ino + 1))) + blocks_needed files) as Hhi.
  { unfold hi'. cbn [blocks_needed foldr]. fold (blocks_needed files). rewrite !Z.add_assoc. lia. }
  clearbody hi'. pose proof (blocks_nonneg files) as Hb.
  assert (nblk (16 * (ino + 1)) ≤ nblk (16 * (ino + 1 + m))) as Hle by (apply nblk_mono; lia).
  destruct (add_file_ok img ino hi C f reads Hv Hroot) as (img1 & C1 & E1 & V1 & R1 & F1 & O1 & B1); try done; [lia|lia|].
  edestruct (IH img1 (ino + 1)) as (img2 & C2 & E2 & V2 & R2 & F2 & O2 & B2);
    [exact V1|rewrite R1, length_app, length_mk_dirent; lia|lia|fold m; lia|done|fold m; lia|].
  fold m in E2, V2. rewrite <-Hhi in E2, V2. rewrite (Z.add_assoc ino 1 m). exists img2, C2.
  split; [|split; [exact V2|split; [|split; [|split]]]].
  - cbn [add_files]. rewrite base_name_no_slash, Hr. fold (file_name f).
    transitivity (((inum ← Mkfs.ialloc T_FILE;
      iappend ROOTINO (mk_dirent (xshort inum) (file_name f)) ;; append_reads inum reads) ;; add_files ROOTINO files)
      (img_at img ino hi)); [|by mstep E1].
    cbv beta zeta. unfold mbind, M_bind. destruct (Mkfs.ialloc T_FILE (img_at img ino hi)); try done.
    fold (file_name f). destruct (iappend _ _ _); done.
  - rewrite R2, R1, <-app_assoc. done.
  - intros [|k] f' Hf'; cbn in Hf'.
    + injection Hf' as <-. rewrite Z.add_0_r. rewrite O2; [done|unfold ROOTINO; lia|lia].
    + rewrite <-(F2 k f' Hf'). f_equal. lia.
  - intros j Hj Hlt. rewrite O2, O1; try done; lia.
  - intros b Hb'. rewrite B2, B1; done.
Qed.

(** *** The beginning *)

Lemma zeroes_ok : block_ok zeroes.
Proof. done. Qed.

Lemma wsect_all_ok n : ∀ img i ino hi, (∀ b, img b = zeroes) → 0 ≤ i → i + Z.of_nat n ≤ FSSIZE →
  ∃ img', wsect_all n i (Mk img i ino hi) = Ret () (Mk img' (i + Z.of_nat n) ino hi) ∧ ∀ b, img' b = zeroes.
Proof.
  induction n as [|n IH]; intros img i ino hi Hz Hi Hn; cbn [wsect_all]; [rewrite Z.add_0_r; by exists img|].
  destruct (IH (upd img i zeroes) (i + 1) ino hi) as (img' & E & Hz'); [|lia|lia|].
  { intros b. rewrite upd_case. by case_decide. }
  exists img'. split; [|done]. replace (i + Z.of_nat (S n)) with (i + 1 + Z.of_nat n) by lia. rewrite <-E.
  unfold wsect, modify, mbind, M_bind. cbn [mk_img mk_len mk_inode mk_block]. rewrite sector_small by lia.
  by rewrite Z.max_r by lia.
Qed.

(** The block with the superblock. *)
Definition sb_block : block := put_words zeroes 0
  [sb_size mk_sb; sb_nblocks mk_sb; sb_ninodes mk_sb; sb_nlog mk_sb; sb_logstart mk_sb; sb_inodestart mk_sb; sb_bmapstart mk_sb].

(** The image when [ialloc] is first called. *)
Lemma inv_start img C : (∀ b, img b = zeroes) → inv (img_at (upd img 1 sb_block) 1 nmeta) C.
Proof.
  intros Hz. split; [done| |by vm_compute| |]; cbn [mk_img mk_block mk_inode]; [|intros; lia..].
  split; [|by vm_compute|].
  - intros b. rewrite upd_case. case_decide; [by vm_compute|by rewrite Hz].
  - intros b Hb. rewrite upd_ne by clia. apply Hz.
Qed.

Lemma make_root_ok img0 C : inv (img_at img0 1 nmeta) C → ∃ img C', make_root (img_at img0 1 nmeta) = Ret ROOTINO (img_at img 2 (nmeta + 1)) ∧
  inv (img_at img 2 (nmeta + 1)) C' ∧ C' ROOTINO = dirents 0 [[46]; [46; 46]] ∧ ∀ b, b < 32 → img b = img0 b.
Proof.
  intros V0.
  destruct (ialloc_ok img0 1 nmeta C T_DIR V0) as (img1 & E1 & V1 & B1); [by vm_compute|done|].
  change (1 + 1) with 2 in E1, V1.
  destruct (iappend_ok img1 2 nmeta (upd C 1 []) ROOTINO (mk_dirent 1 [46]) V1) as (img2 & E2 & V2 & B2);
    [unfold ROOTINO; lia|unfold ROOTINO; rewrite upd_eq; by vm_compute..|].
  assert (upd C 1 [] ROOTINO = []) as HC by apply upd_eq. rewrite HC, app_nil_l in E2, V2.
  change (nmeta + _) with (nmeta + 1) in E2, V2. set (C2 := upd (upd C 1 []) ROOTINO (mk_dirent 1 [46])) in *.
  assert (C2 ROOTINO = mk_dirent 1 [46]) as HC2 by apply upd_eq.
  destruct (iappend_ok img2 2 (nmeta + 1) C2 ROOTINO (mk_dirent 1 [46; 46]) V2) as (img3 & E3 & V3 & B3);
    [unfold ROOTINO; lia|rewrite HC2; by vm_compute..|].
  rewrite HC2 in E3, V3. change (nmeta + 1 + _) with (nmeta + 1) in E3, V3.
  exists img3, (upd C2 ROOTINO (mk_dirent 1 [46] ++ mk_dirent 1 [46; 46])). split; [|split; [exact V3|split]].
  - unfold make_root. mstep E1. change (negb (1 =? ROOTINO)) with false. cbv iota. change (xshort 1) with 1.
    change ROOTINO with 1 in E2, E3. mstep E2. by mstep E3.
  - by rewrite upd_eq.
  - intros b Hb. rewrite B3, B2, B1; done.
Qed.

(** *** The end *)

(** [fix_root] rounds the size of the root up, unless the last block is full. *)
Definition dir_size (z : Z) : Z := (z / BSIZE + 1) * BSIZE.
Lemma fix_root_ok img ino hi C :
  let c := C ROOTINO in let l := Z.of_nat (length c) in
  inv (img_at img ino hi) C → ROOTINO < ino → 0 < l → l mod BSIZE ≠ 0 →
  ∃ img', fix_root ROOTINO (img_at img ino hi) = Ret () (img_at img' ino hi) ∧
    inv (img_at img' ino hi) (upd C ROOTINO (c ++ replicate (Z.to_nat (dir_size l - l)) 0)) ∧ ∀ b, b < 32 → img' b = img b.
Proof.
  intros c l Hv Hi Hl Hm. assert (ROOTINO = 1) as HR by done. assert (1 ≤ ROOTINO < ino) as Hi' by lia.
  pose proof (file_bound _ _ _ _ _ Hv Hi') as Hin.
  pose proof (iv_file _ _ Hv ROOTINO Hi') as Hfile. cbn [mk_img mk_block] in Hfile.
  pose proof Hfile as [F1 F2 F3 F4 F5 F6]. fold c l in F4, F5, F6.
  pose proof (iv_fresh _ _ Hv) as Fr. cbn [mk_img mk_block] in Fr. set (din := node img ROOTINO) in *.
  assert (l < dir_size l ≤ ((l - 1) / BSIZE + 1) * BSIZE) as Hz by (unfold dir_size; consts; zlia).
  pose proof (laid_resize _ _ _ (dir_size l) _ F5 Hl ltac:(lia)) as Hlz. pose proof (la_size _ _ _ _ Hlz) as Hsz.
  set (p := replicate (Z.to_nat (dir_size l - l)) 0).
  assert (Z.of_nat (length (c ++ p)) = dir_size l) as Hlen.
  { rewrite length_app. unfold p. rewrite length_replicate. fold l. unfold l in *. lia. }
  set (ip := with_size (with_addrs din (i_addrs din)) (dir_size l)).
  destruct (file_grown img hi ROOTINO c p img (i_addrs din) hi (put_node img ip)) as (K1 & K2 & K3); try done.
  { apply Fr. } { apply Fr. } { rewrite Hlen. by split. }
  { rewrite Hlen. fold l. intros o Ho. unfold p. rewrite nth_replicate_zero. apply (la_tail _ _ _ _ F5); [lia|consts; zlia|].
    apply (la_mapped _ _ _ _ Hlz); [consts; zlia|]. rewrite fstart_block by (consts; zlia). consts; zlia. }
  { by rewrite Hlen. }
  assert (∀ b, nmeta ≤ b → put_node img ip b = img b) as Hdat by (intros b Hb; apply put_node_data; [done|clia]).
  exists (put_node img ip). split; [|split].
  - unfold fix_root. mstep (rinode_run ROOTINO img ino hi Hin). change (node img ROOTINO) with din in F4. fold din.
    assert (dir_size l < 2 ^ 32) by (clear -Hsz; clia). rewrite F4, (xint_small l) by (clear -H Hz Hl; lia).
    fold (dir_size l). rewrite w32_small, xint_small by lia.
    rewrite <-(with_addrs_same din) at 1. exact (winode_run ip img ino hi Hin).
  - apply (inv_change img ino hi); try done.
    + destruct Fr as [R1 R2 R3]. split; [|done|intros b Hb; rewrite Hdat by lia; by apply R3].
      intros b. apply put_node_ok; [done|apply F5].
    + intros j Hj Hne. apply put_node_other; [apply Fr|apply F5|done|exact (file_bound _ _ _ _ _ Hv Hj)|done].
    + intros j k Hj Hne Hk H0. apply Hdat.
      by apply (la_range _ _ _ _ (fi_laid _ _ _ _ (iv_file _ _ Hv j Hj))).
    + intros k Hk H0. left. rewrite K2. apply faddr_frame. intros H1. apply Hdat.
      apply (la_range _ _ _ _ F5); [clia|done].
  - intros b Hb. apply put_node_data; [done|lia].
Qed.

Lemma balloc_bits_ok n : ∀ i d, block_ok d → 0 ≤ i → i + Z.of_nat n ≤ BPB →
  block_ok (balloc_bits n i d) ∧
  ∀ j, 0 ≤ j < BPB → bit_used (balloc_bits n i d) j = ((i <=? j) && (j <? i + Z.of_nat n)) || bit_used d j.
Proof.
  induction n as [|n IH]; intros i d Hd Hi Hn; cbn [balloc_bits].
  { split; [done|]. intros j Hj. destruct (Z.leb_spec i j), (Z.ltb_spec j (i + Z.of_nat 0)); done || lia. }
  assert (block_ok (set_bit d i)) as Hd' by (unfold block_ok, set_bit; by rewrite length_set_byte).
  destruct (IH (i + 1) (set_bit d i)) as [H1 H2]; [done|lia|lia|]. split; [done|]. intros j Hj.
  rewrite H2, bit_set by (done || lia).
  destruct (Z.leb_spec (i + 1) j), (Z.ltb_spec j (i + 1 + Z.of_nat n)), (Z.eqb_spec i j), (Z.leb_spec i j),
    (Z.ltb_spec j (i + Z.of_nat (S n))); done || lia.
Qed.

Lemma mk_balloc_ok img ino hi C :
  inv (img_at img ino hi) C →
  ∃ img', Mkfs.balloc hi (img_at img ino hi) = Ret () (img_at img' ino hi) ∧ inv (img_at img' ino hi) C ∧
    (∀ b, 0 ≤ b < FSSIZE → in_use mk_sb img' b = (b <? hi)) ∧ ∀ b, b < 32 → img' b = img b.
Proof.
  intros [V1 V2 V3 V4 V5]. cbn [mk_img mk_block mk_inode] in *. pose proof (fr_hi _ _ V2) as Hh.
  destruct (balloc_bits_ok (Z.to_nat hi) 0 zeroes zeroes_ok) as [D1 D2]; [lia|unfold BPB; clia|].
  set (d := balloc_bits (Z.to_nat hi) 0 zeroes) in *.
  assert (∀ j, 1 ≤ j < ino → node (upd img 58 d) j = node img j) as Hn.
  { intros j Hj. unfold node, disk_inode. cbn [blank i_inum]. rewrite upd_ne; [done|].
    pose proof (mk_iblock j ltac:(lia)). lia. }
  assert (∀ j k, 1 ≤ j < ino → 0 ≤ k ≤ MAXFILE → naddr img j k ≠ 0 → upd img 58 d (naddr img j k) = img (naddr img j k)) as Hd.
  { intros j k Hj Hk H0. apply upd_ne. pose proof (la_range _ _ _ _ (fi_laid _ _ _ _ (V4 j Hj)) k Hk H0). clia. }
  exists (upd img 58 d). split; [|split; [|split]].
  - unfold Mkfs.balloc. destruct (Z.leb_spec (BSIZE * 8) hi); [clia|]. fold d. rewrite mk_sb_eq. cbn [sb_bmapstart].
    apply wsect_run. clia.
  - split; [done| |done| |]; cbn [mk_img mk_block mk_inode].
    + apply (fresh_put _ hi); [done|lia|clia|done].
    + intros j Hj. apply (file_frame img _ hi); [by apply Hn|done| |by apply V4]. intros. by apply Hd.
    + intros i j k l Hi Hj Hne Hk Hl. rewrite (naddr_frame img _ i k), (naddr_frame img _ j l) by auto. by apply V5.
  - intros b Hb. unfold in_use. assert (BBLOCK b mk_sb = 58) as ->.
    { unfold BBLOCK, BPB, FSSIZE in *. rewrite mk_sb_eq. cbn [sb_bmapstart]. change (BSIZE * 8) with 4096.
      assert (b / 4096 = 0) as -> by (apply Z.div_small; lia). done. }
    rewrite upd_eq. rewrite Z.mod_small by (unfold BPB; clia). rewrite D2 by (unfold BPB; clia).
    rewrite Z2Nat.id by clia. destruct (Z.leb_spec 0 b); [|lia]. cbn [andb]. rewrite Z.add_0_l.
    assert (bit_used zeroes b = false) as ->; [|by rewrite orb_false_r].
    unfold bit_used, get_byte, zeroes. by rewrite nth_replicate_zero.
  - intros b Hb. apply upd_ne. lia.
Qed.

(** *** All together *)

(** What the inputs must be like: each can be opened and is not too long,
    there are enough inodes and blocks, and the entries of the root do not
    just fill a block. *)
Record takes (files : list input) : Prop := {
  tk_fits : Forall fits files;
  tk_inodes : 2 + Z.of_nat (length files) ≤ NINODES;
  tk_dir : (2 + Z.of_nat (length files)) mod 32 ≠ 0;
  tk_blocks : nmeta + nblk (16 * (2 + Z.of_nat (length files))) + blocks_needed files ≤ FSSIZE;
}.

Record built (files : list input) (m : mk) (C : Z → list Z) : Prop := {
  bt_inv : inv m C;
  bt_ino : mk_inode m = 2 + Z.of_nat (length files);
  bt_block : mk_block m = nmeta + nblk (16 * (2 + Z.of_nat (length files))) + blocks_needed files;
  bt_root : ∃ p, C ROOTINO = dirents 0 (root_names files) ++ replicate p 0 ∧ Z.of_nat (length (C ROOTINO)) mod 512 = 0;
  bt_files k f : files !! k = Some f → C (2 + Z.of_nat k) = file_bytes f;
  bt_low b : b < 32 → mk_img m b = if b =? 1 then sb_block else zeroes;
  bt_used b : 0 ≤ b < FSSIZE → in_use mk_sb (mk_img m) b = (b <? mk_block m);
}.

Lemma mkfs_built files : takes files → ∃ m C, mkfs files mk0 = Ret () m ∧ built files m C.
Proof.
  intros [Hfit Hino Hdir Hblk]. set (n := Z.of_nat (length files)) in *.
  assert (0 ≤ n) as Hn by (unfold n; lia).
  destruct (wsect_all_ok (Z.to_nat FSSIZE) (λ _, zeroes) 0 1 nmeta) as (img0 & E0 & Hz); [done|done|done|].
  change (0 + Z.of_nat (Z.to_nat FSSIZE)) with FSSIZE in E0.
  destruct (make_root_ok (upd img0 1 sb_block) (λ _, []) (inv_start img0 (λ _, []) Hz)) as (img1 & C1 & E1 & V1 & R1 & B1).
  assert (Z.of_nat (length (C1 ROOTINO)) = 16 * 2) as Hlen by by rewrite R1.
  destruct (add_files_ok files img1 2 (nmeta + 1) C1 V1 Hlen) as (img2 & C2 & E2 & V2 & R2 & F2 & _ & B2);
    [done|exact Hino|done|fold n; change (nblk (16 * 2)) with 1; lia|].
  fold n in E2, V2. change (nblk (16 * 2)) with 1 in E2, V2.
  set (hi := nmeta + nblk (16 * (2 + n)) + blocks_needed files) in *.
  replace (nmeta + 1 + (nblk (16 * (2 + n)) - 1) + blocks_needed files) with hi in E2, V2 by (unfold hi; lia).
  assert (C2 ROOTINO = dirents 0 (root_names files)) as HC.
  { rewrite R2, R1. unfold root_names. by rewrite dirents_app. }
  assert (Z.of_nat (length (C2 ROOTINO)) = 16 * (2 + n)) as Hlen2.
  { rewrite HC, length_dirents. unfold root_names. rewrite length_app, length_map. cbn [length]. unfold n. lia. }
  destruct (fix_root_ok img2 (2 + n) hi C2 V2) as (img3 & E3 & V3 & B3); rewrite ?Hlen2; [unfold ROOTINO; lia|lia|consts; zlia|].
  destruct (mk_balloc_ok img3 (2 + n) hi _ V3) as (img4 & E4 & V4 & U4 & B4).
  exists (img_at img4 (2 + n) hi), (upd C2 ROOTINO (C2 ROOTINO ++ replicate (Z.to_nat
    (dir_size (Z.of_nat (length (C2 ROOTINO))) - Z.of_nat (length (C2 ROOTINO)))) 0)).
  split; [|split; [exact V4|reflexivity|reflexivity| | | |exact U4]].
  - unfold mkfs, modify at 1, mbind at 1, M_bind at 1. cbn [mk_img mk_len mk_inode mk_block mk0].
    mstep E0. fold sb_block. mstep (wsect_run 1 sb_block img0 1 nmeta ltac:(clia)). mstep E1. mstep E2. mstep E3.
    mstep (eq_refl (gets mk_block (img_at img3 (2 + n) hi))). exact E4.
  - rewrite upd_eq, HC. eexists. split; [done|].
    rewrite length_app, length_replicate, <-HC. rewrite Nat2Z.inj_add, Hlen2. unfold dir_size. consts. zlia.
  - intros k f Hk. rewrite upd_ne by (unfold ROOTINO; lia). by apply F2.
  - intros b Hb. cbn [mk_img]. rewrite B4, B3, B2, B1 by lia. rewrite upd_case. destruct (Z.eqb_spec b 1).
    + by rewrite decide_True.
    + rewrite decide_False by done. apply Hz.
Qed.

(** ** A kernel on the image *)

(** The number of the first entry with the name. *)
Fixpoint find_name (name : list Z) (names : list (list Z)) (j : Z) : option Z :=
  match names with
  | [] => None
  | n :: names => if namecmp name n =? 0 then Some j else find_name name names (j + 1)
  end.

Lemma find_entry_names name names p (d : Z → list Z) : ∀ j,
  0 ≤ j → j + Z.of_nat (length names) < 2 ^ 16 →
  (∀ k n, names !! k = Some n → d (j + Z.of_nat k) = mk_dirent (Z.max 1 (j + Z.of_nat k)) n) →
  (∀ k, j + Z.of_nat (length names) ≤ k < j + Z.of_nat (length names + p) → de_inum (d k) = 0) →
  find_entry (length names + p) j d name = option_map (λ i, (16 * i, Z.max 1 i)) (find_name name names j).
Proof.
  induction names as [|n names IH]; intros j Hj Hlt Hd Hz; cbn [find_name].
  { cbn [length plus] in *. clear Hd Hlt. revert j Hj Hz. induction p as [|p IH]; intros j Hj Hz; cbn [find_entry]; [done|].
    unfold matches at 1. rewrite Hz by lia. cbn [negb andb Z.eqb]. apply IH; [lia|]. intros k Hk. apply Hz. lia. }
  cbn [length plus find_entry] in *. pose proof (Hd 0%nat n eq_refl) as H0. rewrite Z.add_0_r in H0. rewrite H0.
  rewrite matches_new by lia. destruct (Z.eqb_spec (namecmp name n) 0) as [He|He].
  - cbn [option_map]. unfold de_inum, mk_dirent. rewrite take_app_length' by by rewrite length_bytes_of.
    rewrite of_bytes_bytes_of. change (8 * Z.of_nat 2) with 16. by rewrite Z.mod_small by lia.
  - apply IH; [lia|lia| |].
    + intros k n' Hk. replace (j + 1 + Z.of_nat k) with (j + Z.of_nat (S k)) by lia. by apply Hd.
    + intros k Hk. apply Hz. lia.
Qed.

(** The bytes of one entry. *)
Lemma dirents_slice names : ∀ j k n q,
  names !! k = Some n →
  map (λ o, nth (Z.to_nat o) (dirents j names ++ q) 0) (seqZ (16 * Z.of_nat k) 16) = mk_dirent (Z.max 1 (j + Z.of_nat k)) n.
Proof.
  intros j k n q Hk. pose proof (lookup_lt_Some _ _ _ Hk) as Hlt.
  set (a := dirents j (take k names)). set (e := mk_dirent (Z.max 1 (j + Z.of_nat k)) n).
  assert (dirents j names = a ++ e ++ dirents (j + Z.of_nat k + 1) (drop (S k) names)) as ->.
  { rewrite <-(take_drop_middle names k n Hk) at 1. rewrite dirents_app. cbn [dirents]. by rewrite length_take, Nat.min_l by lia. }
  assert (length a = 16 * k)%nat as Ha.
  { pose proof (length_dirents (take k names) j) as Hl. rewrite length_take, Nat.min_l in Hl by lia. unfold a. lia. }
  rewrite <-!app_assoc. set (r := _ ++ q). assert (length e = 16%nat) as He by apply length_mk_dirent.
  rewrite <-slice_nth by (rewrite ?length_app; lia). unfold slice.
  rewrite drop_app_length' by lia. by rewrite take_app_length' by lia.
Qed.

Lemma nth_dirents_tail names p o j :
  16 * Z.of_nat (length names) ≤ o → nth (Z.to_nat o) (dirents j names ++ replicate p 0) 0 = 0.
Proof.
  intros Ho. pose proof (length_dirents names j) as Hl. rewrite app_nth2 by lia. apply nth_replicate_zero.
Qed.

Section Kernel.
Context {T : Type} `{Txn T} (devsw_read : Z → option (Z → Z → M (fs T) (Z * list Z))).
Implicit Types (s : fs T) (t : tx).

(** The kernel has read the superblock, and its blocks are those of the
    image. *)
Record runs_on (m : mk) s t : Prop := {
  ro_sb : f_sb s = sb_of_block (mk_img m 1);
  ro_home b : 32 ≤ b < FSSIZE → t_home t b;
  ro_view : t_view t = mk_img m;
  ro_held : t_held t = ∅;
  ro_rel : tx_rel (f_tx s) t;
}.
(** Cache entry [e] has been filled by [ilock] for inode [i]. *)
Record entry_for (m : mk) s (e i : Z) : Prop := {
  ef_dev : i_dev (f_icache s e) = ROOTDEV;
  ef_inum : i_inum (f_icache s e) = i;
  ef_load : disk_inode mk_sb (mk_img m) (f_icache s e) = f_icache s e;
}.

Lemma entry_node m s e i (n := node (mk_img m) i) :
  entry_for m s e i →
  i_type (f_icache s e) = i_type n ∧ i_size (f_icache s e) = i_size n ∧ i_addrs (f_icache s e) = i_addrs n.
Proof. intros [_ <- Hl]. by rewrite <-Hl. Qed.

Lemma runs_alloc files m C s t : built files m C → runs_on m s t → alloc_ok mk_sb s t.
Proof.
  intros Hb [R1 R2 R3 R4 R5]. pose proof (fr_hi _ _ (iv_fresh _ _ (bt_inv _ _ _ Hb))) as Hhi.
  split; [rewrite R1, (bt_low _ _ _ Hb) by lia; by vm_compute|by apply mk_geom| | |done].
  - intros b Hb0 Hb1. rewrite R3. rewrite data_start_eq in Hb0. rewrite (bt_used _ _ _ Hb) by clia.
    apply Z.ltb_lt. lia.
  - intros b _. by rewrite R4, !lookup_empty.
Qed.

Lemma runs_readable files m C s t e i :
  built files m C → runs_on m s t → entry_for m s e i → 1 ≤ i < mk_inode m →
  readable mk_sb s t e ∧ i_type (f_icache s e) = (if i =? ROOTINO then T_DIR else T_FILE) ∧
  i_size (f_icache s e) = Z.of_nat (length (C i)) ∧
  ∀ o, 0 ≤ o < Z.of_nat (length (C i)) → fbyte (t_view t) (i_addrs (f_icache s e)) o = nth (Z.to_nat o) (C i) 0.
Proof.
  intros Hb Hr He Hi. pose proof (entry_node _ _ _ _ He) as (N1 & N2 & N3).
  pose proof (iv_file _ _ (bt_inv _ _ _ Hb) i Hi) as [F1 F2 F3 F4 F5 F6]. pose proof Hr as [R1 R2 R3 R4 R5].
  pose proof (fr_hi _ _ (iv_fresh _ _ (bt_inv _ _ _ Hb))) as Hhi. pose proof F5 as [L1 L2 L3 L4 L5 L6].
  rewrite N1, N2, N3, R3, F2, F4. split; [|done].
  split; [by apply (runs_alloc files m C)|done|apply He| |by rewrite N2, F4| |].
  - rewrite N1, F2. by destruct (i =? ROOTINO).
  - rewrite N3, R3. split; [done|]. split; [|done]. intros k Hk H0. pose proof (L4 k Hk H0) as Hr'.
    rewrite data_start_eq. split; [rewrite mk_sb_eq; cbn [sb_size]; clia|].
    rewrite (bt_used _ _ _ Hb) by clia. apply Z.ltb_lt. lia.
  - rewrite N2, N3, F4, R3. intros bn Hbn Hlt. assert (bn < MAXFILE) by (revert Hlt L2; clear; clia).
    apply L3; [lia|]. rewrite fstart_block by lia. done.
Qed.

(** C24: an image that mkfs builds has the layout of its superblock, exactly the
    blocks it has handed out are marked in the bitmap, and the kernel reads
    from inode [2 + k] the bytes of input [k]. *)
Theorem mkfs_files files :
  takes files → ∃ m, mkfs files mk0 = Ret () m ∧ mk_len m = FSSIZE ∧
    mk_block m = nmeta + nblk (16 * (2 + Z.of_nat (length files))) + blocks_needed files ∧
    (∀ b, 0 ≤ b < FSSIZE → in_use mk_sb (mk_img m) b = (b <? mk_block m)) ∧
    ∀ s t e k f, runs_on m s t → tx_room t 1 → files !! k = Some f → entry_for m s e (2 + Z.of_nat k) →
      let z := Z.of_nat (length (file_bytes f)) in
      i_type (f_icache s e) = T_FILE ∧ i_size (f_icache s e) = z ∧
      ∃ x, tx_rel x t ∧ readi devsw_read e 0 z s = Ret (z, file_bytes f) (with_tx s x).
Proof.
  intros Htk. destruct (mkfs_built files Htk) as (m & C & E & Hb). exists m. split; [done|].
  split; [apply (bt_inv _ _ _ Hb)|]. split; [apply Hb|]. split; [apply Hb|]. intros s t e k f Hr Hroom Hk He z.
  pose proof (lookup_lt_Some _ _ _ Hk) as Hlt. pose proof (bt_ino _ _ _ Hb) as Hino.
  destruct (runs_readable files m C s t e _ Hb Hr He) as (H1 & H2 & H3 & H4); [lia|].
  rewrite (bt_files _ _ _ Hb k f Hk) in H3, H4. fold z in H3, H4.
  destruct (Z.eqb_spec (2 + Z.of_nat k) ROOTINO) as [H0|_]; [unfold ROOTINO in H0; lia|].
  split; [done|]. split; [done|]. pose proof (rd_size _ _ _ _ H1) as Hz. rewrite H3 in Hz.
  destruct (readi_ok mk_sb devsw_read s t e 0 z H1 Hroom) as (x & Ex & Hx); [lia|lia|clia|].
  exists x. split; [done|]. rewrite Ex, H3. rewrite Z.sub_0_r, Z.min_id. do 2 f_equal.
  transitivity (map (λ o, nth (Z.to_nat o) (file_bytes f) 0) (seqZ 0 z)).
  - apply map_ext_in. intros o Ho%list_elem_of_In%elem_of_seqZ. apply H4. lia.
  - rewrite <-slice_nth by lia. unfold slice, z. rewrite drop_0, Nat2Z.id. apply take_ge. lia.
Qed.

(** C25: on an image that mkfs builds, the kernel's [dirlookup] in the root finds
    the first file with the name, ["."] and [".."] being the root itself, and
    nothing for any other name. *)
Theorem mkfs_root files :
  takes files → ∃ m, mkfs files mk0 = Ret () m ∧
    ∀ s t e name, runs_on m s t → tx_room t 1 → entry_for m s e ROOTINO →
      ∃ x, tx_rel x t ∧ dirlookup devsw_read e name s =
        match find_name name (root_names files) 0 with
        | None => Ret None (with_tx s x)
        | Some j => (i ← iget ROOTDEV (Z.max 1 j); mret (Some (i, 16 * j))) (with_tx s x)
        end.
Proof.
  intros Htk. destruct (mkfs_built files Htk) as (m & C & E & Hb). exists m. split; [done|].
  intros s t e name Hr Hroom He. pose proof (bt_ino _ _ _ Hb) as Hino. assert (ROOTINO = 1) as HR by done.
  destruct (runs_readable files m C s t e ROOTINO Hb Hr He) as (H1 & H2 & H3 & H4); [lia|].
  destruct (bt_root _ _ _ Hb) as (p & Hc & Hmod). set (n := length (root_names files)).
  assert (Z.of_nat n = 2 + Z.of_nat (length files)) as Hn by (unfold n, root_names; rewrite length_app, length_map; cbn; lia).
  pose proof (tk_inodes _ Htk) as Hni. unfold NINODES in Hni.
  pose proof (length_dirents (root_names files) 0) as Hld. fold n in Hld.
  pose proof (f_equal length Hc) as Hlc. rewrite length_app, length_replicate in Hlc.
  assert (directory mk_sb s t e) as Hd by (split; [done|done|rewrite H3; zlia]).
  destruct (dirlookup_ok mk_sb devsw_read (λ _, None) s t e name Hd Hroom) as (x & Hx & Ex). exists x. split; [done|]. rewrite Ex.
  assert (i_size (f_icache s e) = 16 * Z.of_nat (ndents s e)) as Hnd by (unfold ndents; rewrite H3; zlia).
  rewrite H3 in Hnd. replace (ndents s e) with (n + (ndents s e - n))%nat by lia.
  assert (∀ k, 0 ≤ k < Z.of_nat (ndents s e) → dents s t e k =
    map (λ o, nth (Z.to_nat o) (dirents 0 (root_names files) ++ replicate p 0) 0) (seqZ (16 * k) 16)) as Hde.
  { intros k Hk. apply map_ext_in. intros o Ho%list_elem_of_In%elem_of_seqZ. rewrite H4 by lia. by rewrite Hc. }
  unfold n. rewrite find_entry_names; fold n; [|done|lia| |].
  - by destruct (find_name name (root_names files) 0).
  - intros k nm Hk. pose proof (lookup_lt_Some _ _ _ Hk) as Hlt. fold n in Hlt.
    rewrite Hde by lia. exact (dirents_slice _ 0 k nm _ Hk).
  - intros k Hk. rewrite Hde by lia. transitivity (de_inum (map (λ _, 0) (seqZ (16 * k) 16))); [|reflexivity].
    f_equal. apply map_ext_in. intros o Ho%list_elem_of_In%elem_of_seqZ. apply nth_dirents_tail. fold n. lia.
Qed.
End Kernel.

(** The hypotheses hold for the example. *)
Lemma takes_ex : takes ex_inputs.
Proof.
  split; [|by vm_compute|by vm_compute|by vm_compute].
  unfold ex_inputs. apply Forall_cons; split; [split; [by eexists|by vm_compute]|].
  apply Forall_cons; split; [split; [by eexists|by vm_compute]|constructor].
Qed.
