(* ===== verification/MkfsExample.v ===== *)
(** A kernel on the disk in memory of file Ramdisk, holding an image that mkfs
    has built: the hypotheses of the theorems of file MkfsSpec can be met. *)

From S2P Require Import Prelude BufferCache Sleeplock Bio Superblock Log LogOps Ramdisk Txn.
From S2P Require Import Fs FsAlloc FsInode FsFile FsRw FsDir FsExample Mkfs MkfsFile MkfsSpec.

(** Cache entry 0 holds inode [i] as [ilock] loads it. *)
Definition mk_fs (m : mk) (i : Z) : fs (lst (bst ramdisk)) :=
  Fs (sb_of_block (mk_img m 1))
     (upd (λ _, inode0) 0 (disk_inode mk_sb (mk_img m) (Inode ROOTDEV i 1 (mkSleeplock 1 1) 1 0 0 0 0 0 [])))
     (mkLst ex_log (rd_boot (mk_img m))).
Definition mk_tx (m : mk) : tx := Tx (λ b, home ex_log b ∧ b ≠ 1) 29 (mk_img m) [] ∅.

Lemma mk_entry m i : entry_for m (mk_fs m i) 0 i.
Proof. by split. Qed.

Section Built.
Context (files : list input) (m : mk) (C : Z → list Z) (Hb : built files m C).

Lemma mk_only : op_only ex_log (mk_img m) 1.
Proof.
  split; [done|done| |].
  - split; rewrite ?(bt_low _ _ _ Hb) by lia; [by vm_compute..|cbn; lia].
  - rewrite (bt_low _ _ _ Hb) by (cbn; lia). by vm_compute.
Qed.

Lemma mk_rel i : tx_rel (f_tx (mk_fs m i)) (mk_tx m).
Proof.
  exists (Abs (mk_img m) [] ∅). split; [|exact mk_only|done|by intros b ?%not_elem_of_nil|done|done| |].
  - split; [by split|apply NoDup_nil_2|done| |intros b _; apply lookup_empty|].
    + apply bc_boot_rel, rd_boot_ok. intros b _. apply (fr_ok _ _ (iv_fresh _ _ (bt_inv _ _ _ Hb))).
    + intros b. split; [by intros ?%not_elem_of_nil|]. cbn. by intros (e & ?%lookup_empty_Some & _).
  - intros b e. cbn. by intros ?%lookup_empty_Some.
  - intros b i'. cbn. by intros ?%lookup_empty_Some.
Qed.

Lemma mk_runs_on i : runs_on m (mk_fs m i) (mk_tx m).
Proof.
  split; [done| |done|done|apply mk_rel]. intros b Hr. change (32 ≤ b < 1000) in Hr.
  split; [|lia]. split; [unfold blk_ok, MBR_BASE; lia|]. unfold in_log. cbn. lia.
Qed.
Lemma mk_room : tx_room (mk_tx m) 1.
Proof. unfold tx_room. cbn. rewrite map_size_empty. unfold NBUF, MAXOPBLOCKS. lia. Qed.
End Built.

Lemma mkfs_files_witness :
  ∃ m s', mkfs ex_inputs mk0 = Ret () m ∧ mk_block m = 63 ∧
    readi no_dev_read 0 0 522 (mk_fs m 2) = Ret (522, replicate 512 1 ++ replicate 10 2) s'.
Proof.
  destruct (mkfs_built ex_inputs takes_ex) as (m & C & E & Hb).
  destruct (mkfs_files (T := lst (bst ramdisk)) no_dev_read ex_inputs takes_ex) as (m' & E' & _ & Hblk & _ & Hr).
  rewrite E in E'. injection E' as <-.
  destruct (Hr (mk_fs m 2) (mk_tx m) 0 0%nat (Input [47; 95; 97] (Some [replicate 512 1; replicate 10 2]))
    (mk_runs_on _ _ _ Hb 2) (mk_room m) eq_refl (mk_entry m 2)) as (_ & _ & x & _ & Ex).
  exists m, (with_tx (mk_fs m 2) x). exact (conj E (conj Hblk Ex)).
Defined.

(** "/_a" is entry 2 of the root, as "a". *)
Lemma mkfs_root_witness :
  ∃ m x y, mkfs ex_inputs mk0 = Ret () m ∧
    dirlookup no_dev_read 0 [97] (mk_fs m 1) = (i ← iget ROOTDEV 2; mret (Some (i, 32))) (with_tx (mk_fs m 1) x) ∧
    dirlookup no_dev_read 0 [99] (mk_fs m 1) = Ret None (with_tx (mk_fs m 1) y).
Proof.
  destruct (mkfs_built ex_inputs takes_ex) as (m & C & E & Hb).
  destruct (mkfs_root (T := lst (bst ramdisk)) no_dev_read ex_inputs takes_ex) as (m' & E' & Hr).
  rewrite E in E'. injection E' as <-.
  destruct (Hr (mk_fs m 1) (mk_tx m) 0 [97] (mk_runs_on _ _ _ Hb 1) (mk_room m) (mk_entry m 1)) as (x & _ & Ex).
  destruct (Hr (mk_fs m 1) (mk_tx m) 0 [99] (mk_runs_on _ _ _ Hb 1) (mk_room m) (mk_entry m 1)) as (y & _ & Ey).
  exists m, x, y. exact (conj E (conj Ex Ey)).
Defined.
