(* ===== verification/Mmio.v ===== *)
(** Device registers, and the two small users of them: the mailbox of
    kern/mbox.c and the local timer of kern/clock.c.

    A device is anything of class [Mmio]: reading a register may change it.
    Memory that the program shares with a device, such as the buffer of a
    mailbox message, is read and written the same way.  Barriers, cache
    maintenance and what is printed are left out; a register that is read only
    to be printed is read all the same ([peek]).  Values of type [int] are
    their 32-bit patterns. *)

From S2P Require Import Prelude Memory.

(** [get32], [put32], [delay] and [delayus] of inc/arm.h. *)
Class Mmio (D : Type) := {
  io_read : Z → D → Z * D;
  io_write : Z → Z → D → D;
  io_delay : Z → D → D;
  io_delayus : Z → D → D;
}.

Definition MMIO_BASE : Z := KERNBASE + 0x3F000000.
Definition LOCAL_BASE : Z := KERNBASE + 0x40000000.

Section Access.
Context {S D : Type} `{!Mmio D, !Lens S D}.

Definition reg_read (r : Z) : M S Z := λ s, let '(v, d) := io_read r (lget s) in Ret v (lset d s).
Definition reg_write (r v : Z) : M S () := modify (λ s, lset (io_write r v (lget s)) s).
Definition delay (n : Z) : M S () := modify (λ s, lset (io_delay n (lget s)) s).
Definition delayus (n : Z) : M S () := modify (λ s, lset (io_delayus n (lget s)) s).
Definition peek (r : Z) : M S () := reg_read r ;; mret ().
(** [*r = *r & ~clear | set] *)
Definition reg_update (r clear set : Z) : M S () :=
  v ← reg_read r; reg_write r (Z.lor (Z.ldiff v clear) set).

(** [while (cond && count--) body]: the value of [count] at the end. *)
Fixpoint while_post (count : nat) (cond : M S bool) (body : M S ()) : M S Z :=
  c ← cond;
  if negb c then mret (Z.of_nat count)
  else match count with
       | O => mret (-1)
       | Datatypes.S n => body ;; while_post n cond body
       end.
(** [while (cond && --count) body], for a positive [count]. *)
Fixpoint while_pre (count : nat) (cond : M S bool) (body : M S ()) : M S Z :=
  c ← cond;
  if negb c then mret (Z.of_nat count)
  else match count with
       | O | Datatypes.S O => mret 0
       | Datatypes.S n => body ;; while_pre n cond body
       end.
(** [while (cond);], for as long as there is fuel. *)
Fixpoint while_wait (fuel : nat) (cond : M S bool) : M S () :=
  match fuel with
  | O => no_fuel
  | Datatypes.S fuel => c ← cond; if negb c then mret () else while_wait fuel cond
  end.

(** ** kern/mbox.c *)

Definition VIDEOCORE_MBOX : Z := MMIO_BASE + 0x0000B880.
Definition MBOX_READ : Z := VIDEOCORE_MBOX + 0x00.
Definition MBOX_STATUS : Z := VIDEOCORE_MBOX + 0x18.
Definition MBOX_WRITE : Z := VIDEOCORE_MBOX + 0x20.
Definition MBOX_FULL : Z := 0x80000000.
Definition MBOX_EMPTY : Z := 0x40000000.
Definition MBOX_TAG_GET_ARM_MEMORY : Z := 0x00010005.
Definition MBOX_TAG_GET_CLOCK_RATE : Z := 0x00030002.
Definition MBOX_TAG_END : Z := 0x0.

(** [*r & m] *)
Definition test_reg (r m : Z) : M S bool := v ← reg_read r; mret (negb (Z.land v m =? 0)).

Fixpoint mbox_read (fuel : nat) (chan : Z) : M S Z :=
  match fuel with
  | O => no_fuel
  | Datatypes.S f =>
    while_wait fuel (test_reg MBOX_STATUS MBOX_EMPTY) ;;
    r ← reg_read MBOX_READ;
    if Z.land r 0xF =? chan then mret (Z.shiftr r 4) else mbox_read f chan
  end.
Definition mbox_write (fuel : nat) (buf chan : Z) : M S () :=
  if negb (Z.land buf 0xF =? 0) || negb (Z.land chan (Z.lnot 0xF) =? 0) then panic "assert"
  else
    while_wait fuel (test_reg MBOX_STATUS MBOX_FULL) ;;
    reg_write MBOX_WRITE (Z.lor (Z.land buf (Z.lnot 0xF)) chan).

(** The words [ws] at address [p]. *)
Fixpoint write_words (p : Z) (ws : list Z) : M S () :=
  match ws with
  | [] => mret ()
  | w :: ws => reg_write p w ;; write_words (p + 4) ws
  end.
(** Both requests: [buf] is the address of the local array, which the other
    side changes before it answers. *)
Definition mbox_request (fuel : nat) (buf : Z) (msg : list Z) : M S () :=
  write_words buf msg ;;
  if negb (Z.land (V2P buf) 0xF =? 0) then panic "Buffer should align to 16 bytes. "
  else
    mbox_write fuel (w32 (V2P buf)) 8 ;;
    mbox_read fuel 8 ;;
    mret ().
Definition mbox_get_arm_memory (fuel : nat) (buf : Z) : M S Z :=
  mbox_request fuel buf [36; 0; MBOX_TAG_GET_ARM_MEMORY; 8; 0; 0; 0; MBOX_TAG_END] ;;
  base ← reg_read (buf + 4 * 5);
  if negb (base =? 0) then panic "Memory base address should be zero. "
  else
    size ← reg_read (buf + 4 * 6);
    if size =? 0 then panic "Memory size should not be zero. "
    else reg_read (buf + 4 * 6).
Definition mbox_get_clock_rate (fuel : nat) (buf : Z) : M S Z :=
  mbox_request fuel buf [36; 0; MBOX_TAG_GET_CLOCK_RATE; 8; 0; 1; 0; MBOX_TAG_END] ;;
  peek (buf + 4 * 6) ;;
  reg_read (buf + 4 * 6).

(** ** kern/clock.c *)

Definition TIMER_ROUTE : Z := LOCAL_BASE + 0x24.
Definition TIMER_CTRL : Z := LOCAL_BASE + 0x34.
Definition TIMER_CLR : Z := LOCAL_BASE + 0x38.
Definition TIMER_INTENA : Z := Z.shiftl 1 29.
Definition TIMER_ENABLE : Z := Z.shiftl 1 28.
Definition TIMER_RELOAD_SEC : Z := 38400000.
Definition TIMER_CLR_INT : Z := Z.shiftl 1 31.
Definition TIMER_RELOAD : Z := Z.shiftl 1 30.

Definition clock_init : M S () :=
  reg_write TIMER_CTRL (Z.lor (Z.lor TIMER_INTENA TIMER_ENABLE) TIMER_RELOAD_SEC) ;;
  reg_write TIMER_ROUTE 0 ;;
  reg_write TIMER_CLR (Z.lor TIMER_RELOAD TIMER_CLR_INT).
Definition clock_reset : M S () := reg_write TIMER_CLR TIMER_CLR_INT.
Definition clock : M S () := mret ().
End Access.
