(* ===== verification/Triple.v ===== *)
(** Triples for computations that must not fail, and how reading and writing
    device registers preserves what does not depend on the device. *)

From S2P Require Import Prelude Memory Mmio.

(** ** Triples *)

(** Whether a loop may run out of fuel, and whether the kernel may panic. *)
Class Faults := { starve : Prop; panics : Prop }.
(** From a state with [P], [m] returns with [Q], or fails in an allowed way. *)
Definition triple `{!Faults} {S A} (P : S → Prop) (m : M S A) (Q : A → S → Prop) : Prop :=
  ∀ s, P s → match m s with Ret a s' => Q a s' | NoFuel => starve | Panic _ => panics | _ => False end.

Section Triple.
Context `{!Faults} {S : Type}.
Implicit Types (P : S → Prop).

Lemma triple_ret {A} P (a : A) : triple P (mret a) (λ x s, x = a ∧ P s).
Proof. by intros s HP. Qed.
Lemma triple_conseq {A} P P' (m : M S A) Q Q' :
  triple P' m Q' → (∀ s, P s → P' s) → (∀ a s, Q' a s → Q a s) → triple P m Q.
Proof. intros Hm HP HQ s Hs. specialize (Hm s (HP s Hs)). destruct (m s); auto. Qed.
Lemma triple_bind {A B} P (m : M S A) (k : A → M S B) R Q :
  triple P m R → (∀ a, triple (R a) (k a) Q) → triple P (mbind k m) Q.
Proof. intros Hm Hk s Hs. specialize (Hm s Hs). unfold mbind, M_bind. destruct (m s); [by apply Hk|done..]. Qed.
Lemma triple_gets {A} P (f : S → A) : triple P (gets f) (λ x s, x = f s ∧ P s).
Proof. by intros s HP. Qed.
Lemma triple_modify P (f : S → S) (Q : () → S → Prop) : (∀ s, P s → Q () (f s)) → triple P (modify f) Q.
Proof. intros HP s. apply HP. Qed.
Lemma triple_if {A} P (c : bool) (m m' : M S A) Q :
  (c = true → triple P m Q) → (c = false → triple P m' Q) → triple P (if c then m else m') Q.
Proof. destruct c; auto. Qed.
Lemma triple_pure {A} P (C : Prop) (m : M S A) Q : (C → triple P m Q) → triple (λ s, C ∧ P s) m Q.
Proof. intros Hm s [HC HP]. by apply Hm. Qed.
End Triple.

(** [P] before and after. *)
Abbreviation preserves P m := (triple P m (λ _, P)).

Section Preserve.
Context `{!Faults} {S : Type} (P : S → Prop).

Lemma preserves_ret {A} (a : A) : preserves P (mret a).
Proof. by intros s HP. Qed.
Lemma preserves_gets {A} (f : S → A) : preserves P (gets f).
Proof. by intros s HP. Qed.
Lemma preserves_fuel {A} : starve → preserves P (no_fuel (A := A)).
Proof. by intros Hn s HP. Qed.
Lemma preserves_bind {A B} (m : M S A) (k : A → M S B) : preserves P m → (∀ a, preserves P (k a)) → preserves P (mbind k m).
Proof. apply triple_bind. Qed.
Lemma preserves_if {A} (c : bool) (m m' : M S A) : preserves P m → preserves P m' → preserves P (if c then m else m').
Proof. by destruct c. Qed.
Lemma preserves_when c (m : M S ()) : preserves P m → preserves P (when c m).
Proof. destruct c; [done|]. intros _. apply preserves_ret. Qed.
Lemma preserves_then {A B} (m : M S A) (k : A → M S B) Q : preserves P m → (∀ a, triple P (k a) Q) → triple P (mbind k m) Q.
Proof. apply triple_bind. Qed.
End Preserve.

Create HintDb preserve discriminated.
#[export] Hint Constants Opaque : preserve.
#[export] Hint Resolve preserves_ret preserves_gets preserves_fuel : preserve.
Ltac preserve :=
  repeat first [ solve [eauto with preserve]
    | lazymatch goal with
      | |- triple _ (mbind _ _) _ => apply preserves_bind; [|intros ?]
      | |- triple _ (if _ then _ else _) _ => apply preserves_if
      | |- triple _ (when _ _) _ => apply preserves_when
      end ].

(** ** Registers *)

Section Regs.
Context `{!Faults} {S D : Type} `{!Mmio D, !Lens S D} (P : S → Prop) (Hdev : ∀ s d, P s → P (lset d s)).

Lemma preserves_reg_read r : preserves P (reg_read r).
Proof. intros s HP. unfold reg_read. destruct (io_read r (lget s)). by apply Hdev. Qed.
Lemma preserves_reg_write r v : preserves P (reg_write r v).
Proof. intros s HP. by apply Hdev. Qed.
Lemma preserves_delay n : preserves P (delay n).
Proof. intros s HP. by apply Hdev. Qed.
Lemma preserves_delayus n : preserves P (delayus n).
Proof. intros s HP. by apply Hdev. Qed.
Hint Resolve preserves_reg_read preserves_reg_write preserves_delay preserves_delayus : preserve.

Lemma preserves_peek r : preserves P (peek r).
Proof. unfold peek. preserve. Qed.
Lemma preserves_reg_update r c v : preserves P (reg_update r c v).
Proof. unfold reg_update. preserve. Qed.
Lemma preserves_test_reg r m : preserves P (test_reg r m).
Proof. unfold test_reg. preserve. Qed.
Hint Resolve preserves_test_reg : preserve.
Lemma preserves_while_post n cond body : preserves P cond → preserves P body → preserves P (while_post n cond body).
Proof. intros Hc Hb. induction n; cbn [while_post]; preserve. Qed.
Lemma preserves_while_pre n cond body : preserves P cond → preserves P body → preserves P (while_pre n cond body).
Proof. intros Hc Hb. induction n as [|[|n] IH]; [cbn [while_pre]; preserve..|]. simpl while_pre in *. preserve. Qed.
Lemma preserves_while_wait n cond : starve → preserves P cond → preserves P (while_wait n cond).
Proof. intros Hn Hc. induction n; cbn [while_wait]; preserve. Qed.
Hint Resolve preserves_while_wait : preserve.

Lemma preserves_mbox_read fuel chan : starve → preserves P (mbox_read fuel chan).
Proof. intros Hn. induction fuel; cbn [mbox_read]; preserve. Qed.
Lemma preserves_write_words p ws : preserves P (write_words p ws).
Proof. revert p. induction ws; intros p; cbn [write_words]; preserve. Qed.
Hint Resolve preserves_mbox_read preserves_write_words : preserve.

Lemma preserves_mbox_request fuel buf msg : starve → Z.land (V2P buf) 0xF = 0 → preserves P (mbox_request fuel buf msg).
Proof.
  intros Hn Hb. unfold mbox_request, mbox_write. rewrite Hb. cbn [negb Z.eqb].
  replace (Z.land (w32 (V2P buf)) 0xF) with 0.
  { change (negb (Z.land 8 (Z.lnot 0xF) =? 0)) with false. change (negb (0 =? 0)) with false. cbn iota. cbn [orb]. preserve. }
  rewrite <-Hb. unfold w32. rewrite <-Z.land_ones, <-Z.land_assoc by lia. done.
Qed.
Lemma preserves_mbox_clock_rate fuel buf : starve → Z.land (V2P buf) 0xF = 0 → preserves P (mbox_get_clock_rate fuel buf).
Proof. intros Hn Hb. unfold mbox_get_clock_rate, peek. pose proof (preserves_mbox_request fuel buf). preserve. Qed.
End Regs.
