(* ===== verification/Sd.v ===== *)
(** The SD card driver, kern/sd.c: commands, initialisation and the decoding
    of the card's registers.  File SdQueue models the transfers.

    The controller is a device of class [Mmio].  What is printed is left out,
    [sdParseCID] returns it.  A command is named by its index in the command
    table, and [sdCard.lastCmd] is such an index or null.  Values of type [int]
    are their 32-bit patterns, and so are results that are card status words.
    [mbox_fuel] bounds the polls of the mailbox, and [mbox_buf] is the address
    of the message on the stack. *)

From S2P Require Import Prelude Memory Dlist Bio Mmio SdRegs.

Record SDDescriptor := SDDesc {
  capacity : Z; cid : list Z; csd : list Z; scr : list Z; ocr : Z; support : Z; fileFormat : Z;
  type : Z; uhsi : Z; init : Z; absent : Z;
  rca : Z; cardState : Z; status : Z; lastCmd : option Z; lastArg : Z;
}.
Definition sdCard0 : SDDescriptor :=
  SDDesc 0 (replicate 4 0) (replicate 4 0) (replicate 2 0) 0 0 0 0 0 0 0 0 0 0 None 0.

Definition with_csd (c : SDDescriptor) (l : list Z) : SDDescriptor :=
  SDDesc (capacity c) (cid c) l (scr c) (ocr c) (support c) (fileFormat c) (type c) (uhsi c) (init c) (absent c)
         (rca c) (cardState c) (status c) (lastCmd c) (lastArg c).
Definition with_cid (c : SDDescriptor) (l : list Z) : SDDescriptor :=
  SDDesc (capacity c) l (csd c) (scr c) (ocr c) (support c) (fileFormat c) (type c) (uhsi c) (init c) (absent c)
         (rca c) (cardState c) (status c) (lastCmd c) (lastArg c).
Definition with_scr (c : SDDescriptor) (l : list Z) : SDDescriptor :=
  SDDesc (capacity c) (cid c) (csd c) l (ocr c) (support c) (fileFormat c) (type c) (uhsi c) (init c) (absent c)
         (rca c) (cardState c) (status c) (lastCmd c) (lastArg c).
Definition with_ocr (c : SDDescriptor) (v : Z) : SDDescriptor :=
  SDDesc (capacity c) (cid c) (csd c) (scr c) v (support c) (fileFormat c) (type c) (uhsi c) (init c) (absent c)
         (rca c) (cardState c) (status c) (lastCmd c) (lastArg c).
Definition add_support (c : SDDescriptor) (v : Z) : SDDescriptor :=
  SDDesc (capacity c) (cid c) (csd c) (scr c) (ocr c) (Z.lor (support c) v) (fileFormat c) (type c) (uhsi c) (init c)
         (absent c) (rca c) (cardState c) (status c) (lastCmd c) (lastArg c).
Definition with_capacity (c : SDDescriptor) (v : Z) : SDDescriptor :=
  SDDesc v (cid c) (csd c) (scr c) (ocr c) (support c) (fileFormat c) (type c) (uhsi c) (init c) (absent c)
         (rca c) (cardState c) (status c) (lastCmd c) (lastArg c).
Definition with_fileFormat (c : SDDescriptor) (v : Z) : SDDescriptor :=
  SDDesc (capacity c) (cid c) (csd c) (scr c) (ocr c) (support c) v (type c) (uhsi c) (init c) (absent c)
         (rca c) (cardState c) (status c) (lastCmd c) (lastArg c).
Definition with_card_type (c : SDDescriptor) (v : Z) : SDDescriptor :=
  SDDesc (capacity c) (cid c) (csd c) (scr c) (ocr c) (support c) (fileFormat c) v (uhsi c) (init c) (absent c)
         (rca c) (cardState c) (status c) (lastCmd c) (lastArg c).
Definition with_init (c : SDDescriptor) (i a : Z) : SDDescriptor :=
  SDDesc (capacity c) (cid c) (csd c) (scr c) (ocr c) (support c) (fileFormat c) (type c) (uhsi c) i a
         (rca c) (cardState c) (status c) (lastCmd c) (lastArg c).
Definition with_status (c : SDDescriptor) (r st : Z) (s : Z) : SDDescriptor :=
  SDDesc (capacity c) (cid c) (csd c) (scr c) (ocr c) (support c) (fileFormat c) (type c) (uhsi c) (init c) (absent c)
         r st s (lastCmd c) (lastArg c).
Definition with_last (c : SDDescriptor) (cmd : option Z) (arg : Z) : SDDescriptor :=
  SDDesc (capacity c) (cid c) (csd c) (scr c) (ocr c) (support c) (fileFormat c) (type c) (uhsi c) (init c) (absent c)
         (rca c) (cardState c) (status c) cmd arg.
(** The fields that [sdResetCard] clears. *)
Definition reset_fields (c : SDDescriptor) : SDDescriptor :=
  SDDesc (capacity c) (cid c) (csd c) (scr c) 0 (support c) (fileFormat c) 0 0 (init c) (absent c)
         0 (cardState c) 0 None 0.

(** The static variables of sd.c, the buffers with their queue nodes, the
    channels woken up so far and the device. *)
Record sdst (D : Type) := SdSt {
  sd_card : SDDescriptor; sdHostVer : Z; sdBaseClock : Z;
  sd_buf : Z → buf; sd_que : lheap; sd_woken : list Z; sd_dev : D;
}.
Arguments SdSt {D} _ _ _ _ _ _ _.
Arguments sd_card {D} _.
Arguments sdHostVer {D} _.
Arguments sdBaseClock {D} _.
Arguments sd_buf {D} _.
Arguments sd_que {D} _.
Arguments sd_woken {D} _.
Arguments sd_dev {D} _.

(** ** Arithmetic *)

Definition shift_if_clear (mask k : Z) (xr : Z * Z) : Z * Z :=
  let '(x, r) := xr in if Z.land x mask =? 0 then (w64 (Z.shiftl x k), r - k) else (x, r).
Definition fls_long (x : Z) : Z :=
  if x =? 0 then 0
  else
    snd (shift_if_clear 0x80000000 1 (shift_if_clear 0xc0000000 2 (shift_if_clear 0xf0000000 4
      (shift_if_clear 0xff000000 8 (shift_if_clear 0xffff0000 16 (x, 32)))))).
Definition roundup_pow_of_two (x : Z) : Z := w64 (Z.shiftl 1 (fls_long (w64 (x - 1)))).

(** [sdHostVer] is the argument [ver]. *)
Definition sdGetClockDivider (ver freq : Z) : Z :=
  let closest := 41666666 / freq in
  let shiftcount := fls_long (w32 (closest - 1)) in
  let shiftcount := if 0 <? shiftcount then shiftcount - 1 else shiftcount in
  let shiftcount := if 7 <? shiftcount then 7 else shiftcount in
  let divisor := if HOST_SPEC_V2 <? ver then closest else Z.shiftl 1 shiftcount in
  let divisor := if divisor <=? 2 then 2 else divisor in
  let hi := if HOST_SPEC_V2 <? ver then Z.shiftr (Z.land divisor 0x300) 2 else 0 in
  let lo := Z.land divisor 0x0ff in
  w32 (Z.shiftl lo 8 + hi).

(** [sdParseCSD]: the capacity from the four words of the CSD. *)
Definition csd_capacity (csd : list Z) : Z :=
  let w i := nth i csd 0 in
  if Z.land (w 0%nat) CSD0_VERSION =? CSD0_V1 then
    let csize := Z.shiftl (Z.land (w 1%nat) CSD1V1_C_SIZEH) CSD1V1_C_SIZEH_SHIFT +
                 Z.shiftr (Z.land (w 2%nat) CSD2V1_C_SIZEL) CSD2V1_C_SIZEL_SHIFT in
    let mult := Z.shiftl 1 (Z.shiftr (Z.land (w 2%nat) CSD2V1_C_SIZE_MULT) CSD2V1_C_SIZE_MULT_SHIFT + 2) in
    let blockSize := Z.shiftl 1 (Z.shiftr (Z.land (w 1%nat) CSD1VN_READ_BL_LEN) CSD1VN_READ_BL_LEN_SHIFT) in
    w64 ((csize + 1) * mult * blockSize)
  else
    let csize := Z.shiftr (Z.land (w 2%nat) CSD2V2_C_SIZE) CSD2V2_C_SIZE_SHIFT in
    w64 ((csize + 1) * 512 * 1024).

(** What [sdParseCID] prints of the CID. *)
Record cid_info := CidInfo {
  ci_man : Z; ci_app : list Z; ci_name : list Z; ci_revH : Z; ci_revL : Z; ci_serial : Z; ci_year : Z; ci_month : Z;
}.
Definition parse_cid (cid : list Z) : cid_info :=
  let w i := nth i cid 0 in
  let field i mask k := Z.shiftr (Z.land (w i) mask) k in
  CidInfo (field 0%nat 0x00ff0000 16) [field 0%nat 0x0000ff00 8; field 0%nat 0x000000ff 0; 0]
    [field 1%nat 0xff000000 24; field 1%nat 0x00ff0000 16; field 1%nat 0x0000ff00 8; field 1%nat 0x000000ff 0;
     field 2%nat 0xff000000 24; 0]
    (field 2%nat 0x00f00000 20) (field 2%nat 0x000f0000 16)
    (w32 (Z.shiftl (Z.land (w 2%nat) 0x0000ffff) 16) + field 3%nat 0xffff0000 16)
    (field 3%nat 0x00000ff0 4 + 2000) (field 3%nat 0x0000000f 0).

Section Sd.
Context {D : Type} `{!Mmio D} (mbox_fuel : nat) (mbox_buf : Z).
Implicit Types (s : sdst D).

#[export] Instance sd_lens : Lens (sdst D) D := {
  lget := sd_dev;
  lset d s := SdSt (sd_card s) (sdHostVer s) (sdBaseClock s) (sd_buf s) (sd_que s) (sd_woken s) d;
  lget_lset d s := eq_refl; lset_lget s := match s with SdSt _ _ _ _ _ _ _ => eq_refl end;
  lset_lset d d' s := eq_refl;
}.

Definition get_card : M (sdst D) SDDescriptor := gets sd_card.
Definition mod_card (f : SDDescriptor → SDDescriptor) : M (sdst D) () :=
  modify (λ s, SdSt (f (sd_card s)) (sdHostVer s) (sdBaseClock s) (sd_buf s) (sd_que s) (sd_woken s) (sd_dev s)).

Definition sd_delayus (c : Z) : M (sdst D) () := delayus (w32 (c * 3)).

(** ** Waiting *)

Definition any (v m : Z) : bool := negb (Z.land v m =? 0).

Definition sdDebugResponse (resp : Z) : M (sdst D) Z :=
  c ← get_card;
  match lastCmd c with
  | None => undef "sdDebugResponse: sdCard.lastCmd is null"
  | Some _ =>
    peek EMMC_RESP3 ;; peek EMMC_RESP2 ;; peek EMMC_RESP1 ;; peek EMMC_RESP0 ;;
    peek EMMC_STATUS ;; peek EMMC_CONTROL1 ;; peek EMMC_INTERRUPT ;;
    mret resp
  end.

Definition sdWaitForInterrupt (mask : Z) : M (sdst D) Z :=
  let waitMask := Z.lor mask INT_ERROR_MASK in
  count ← while_post (Z.to_nat 1000000) (v ← reg_read EMMC_INTERRUPT; mret (negb (any v waitMask))) (sd_delayus 1);
  ival ← reg_read EMMC_INTERRUPT;
  if (count <=? 0) || any ival INT_CMD_TIMEOUT || any ival INT_DATA_TIMEOUT then
    reg_write EMMC_INTERRUPT ival ;; mret SD_TIMEOUT
  else if any ival INT_ERROR_MASK then
    peek EMMC_STATUS ;; peek EMMC_RESP0 ;;
    reg_write EMMC_INTERRUPT ival ;; mret SD_ERROR
  else reg_write EMMC_INTERRUPT mask ;; mret SD_OK.

(** [( *EMMC_STATUS & inhibit) && !( *EMMC_INTERRUPT & INT_ERROR_MASK)] *)
Definition inhibited (inhibit : Z) : M (sdst D) bool :=
  v ← reg_read EMMC_STATUS;
  if any v inhibit then i ← reg_read EMMC_INTERRUPT; mret (negb (any i INT_ERROR_MASK)) else mret false.

(** [expired || ( *EMMC_INTERRUPT & INT_ERROR_MASK)], and the result. *)
Definition busy_if (expired : bool) : M (sdst D) Z :=
  e ← (if expired then mret true else i ← reg_read EMMC_INTERRUPT; mret (any i INT_ERROR_MASK));
  if e : bool then
    peek EMMC_STATUS ;; peek EMMC_INTERRUPT ;; peek EMMC_RESP0 ;; mret SD_BUSY
  else mret SD_OK.
Definition sdWaitForCommand : M (sdst D) Z :=
  count ← while_post (Z.to_nat 1000000) (inhibited SR_CMD_INHIBIT) (sd_delayus 1);
  busy_if (count <=? 0).
(** [count] goes up to 500000 here. *)
Definition sdWaitForData : M (sdst D) Z :=
  left ← while_pre (Z.to_nat 500000) (inhibited SR_DAT_INHIBIT) (sd_delayus 1);
  busy_if (500000 <=? 500000 - left).

(** ** Commands *)

(** The response of a command in [RESP0] and the other registers. *)
Definition handle_response (resp arg resp0 : Z) : M (sdst D) Z :=
  if resp =? RESP_NO then mret SD_OK
  else if (resp =? RESP_R1) || (resp =? RESP_R1b) then
    mod_card (λ c, with_status c (rca c) (Z.shiftr (Z.land resp0 ST_CARD_STATE) R1_CARD_STATE_SHIFT) resp0) ;;
    mret (Z.land resp0 R1_ERRORS_MASK)
  else if (resp =? RESP_R2I) || (resp =? RESP_R2S) then
    mod_card (λ c, with_status c (rca c) (cardState c) 0) ;;
    d0 ← reg_read EMMC_RESP3;
    d1 ← reg_read EMMC_RESP2;
    d2 ← reg_read EMMC_RESP1;
    let data := [d0; d1; d2; resp0] in
    mod_card (λ c, if resp =? RESP_R2I then with_cid c data else with_csd c data) ;;
    mret SD_OK
  else if resp =? RESP_R3 then
    mod_card (λ c, with_ocr (with_status c (rca c) (cardState c) 0) resp0) ;;
    mret SD_OK
  else if resp =? RESP_R6 then
    let st := Z.lor (Z.lor (Z.lor (Z.land resp0 0x00001fff) (Z.shiftl (Z.land resp0 0x00002000) 6))
                (Z.shiftl (Z.land resp0 0x00004000) 8)) (Z.shiftl (Z.land resp0 0x00008000) 8) in
    mod_card (λ c, with_status c (Z.land resp0 R6_RCA_MASK)
                     (Z.shiftr (Z.land resp0 ST_CARD_STATE) R1_CARD_STATE_SHIFT) st) ;;
    mret (Z.land st R1_ERRORS_MASK)
  else if resp =? RESP_R7 then
    mod_card (λ c, with_status c (rca c) (cardState c) 0) ;;
    mret (if resp0 =? arg then SD_OK else SD_ERROR)
  else panic "Unexpected response.".

Definition sdSendCommandP (ix arg : Z) : M (sdst D) Z :=
  cmd ← array_get sdCommandTable ix;
  r ← sdWaitForCommand;
  if negb (r =? 0) then mret SD_BUSY
  else
    mod_card (λ c, with_last c (Some ix) arg) ;;
    v ← reg_read EMMC_INTERRUPT;
    reg_write EMMC_INTERRUPT v ;;
    reg_write EMMC_ARG1 arg ;;
    reg_write EMMC_CMDTM (cmd_code cmd) ;;
    when (negb (cmd_delay cmd =? 0)) (sd_delayus (cmd_delay cmd)) ;;
    result ← sdWaitForInterrupt INT_CMD_DONE;
    if negb (result =? 0) then mret result
    else
      resp0 ← reg_read EMMC_RESP0;
      handle_response (cmd_resp cmd) arg resp0.

Definition sdSendAppCommand : M (sdst D) Z :=
  c ← get_card;
  if rca c =? 0 then sdSendCommandP IX_APP_CMD 0 ;; mret SD_OK
  else
    resp ← sdSendCommandP IX_APP_CMD_RCA (rca c);
    if negb (resp =? 0) then sdDebugResponse resp
    else
      c ← get_card;
      mret (if any (status c) ST_APP_CMD then SD_OK else SD_ERROR).

(** The checks around a command, common to [sdSendCommand] and
    [sdSendCommandA]. *)
Definition send (index : Z) (command : M (sdst D) Z) : M (sdst D) Z :=
  resp ← (if IX_APP_CMD_START <=? index then sdSendAppCommand else mret 0);
  if negb (resp =? 0) then sdDebugResponse resp
  else
    resp ← command;
    if negb (resp =? 0) then mret resp
    else
      c ← get_card;
      if (IX_APP_CMD_START <=? index) && negb (rca c =? 0) && negb (any (status c) ST_APP_CMD) then mret SD_ERROR_APP_CMD
      else mret resp.
Definition sdSendCommand (index : Z) : M (sdst D) Z :=
  send index (
    cmd ← array_get sdCommandTable index;
    c ← get_card;
    sdSendCommandP index (if cmd_rca cmd =? RCA_YES then rca c else 0)).
Definition sdSendCommandA (index arg : Z) : M (sdst D) Z := send index (sdSendCommandP index arg).

(** ** Registers of the card *)

(** The loop that reads the SCR, up to the next word: the word, and how many
    polls are left; [None] is the [break]. *)
Fixpoint scr_word (count : nat) : M (sdst D) (option (Z * nat)) :=
  v ← reg_read EMMC_STATUS;
  if any v SR_READ_AVAILABLE then w ← reg_read EMMC_DATA; mret (Some (w, count))
  else
    sd_delayus 1 ;;
    match count with
    | S (S _ as n) => scr_word n
    | _ => mret None
    end.
Definition set_scr (i : nat) (v : Z) : M (sdst D) () := mod_card (λ c, with_scr c (<[i := v]> (scr c))).
Definition scr_timeout : M (sdst D) Z :=
  peek EMMC_STATUS ;; peek EMMC_INTERRUPT ;; peek EMMC_RESP0 ;; mret SD_TIMEOUT.
(** [if (sdCard.scr[0] & flag) sdCard.support |= supp] *)
Definition support_if (flag supp : Z) : M (sdst D) () :=
  c ← get_card; when (any (nth 0 (scr c) 0) flag) (mod_card (λ c, add_support c supp)).

Definition sdReadSCR : M (sdst D) Z :=
  r ← sdWaitForData;
  if negb (r =? 0) then mret SD_TIMEOUT
  else
    reg_write EMMC_BLKSIZECNT (Z.lor (Z.shiftl 1 16) 8) ;;
    resp ← sdSendCommand IX_SEND_SCR;
    if negb (resp =? 0) then sdDebugResponse resp
    else
      resp ← sdWaitForInterrupt INT_READ_RDY;
      if negb (resp =? 0) then sdDebugResponse resp
      else
        r0 ← scr_word (Z.to_nat 100000);
        match r0 with
        | None => scr_timeout
        | Some (w0, n) =>
          set_scr 0 w0 ;;
          r1 ← scr_word n;
          match r1 with
          | None => scr_timeout
          | Some (w1, _) =>
            set_scr 1 w1 ;;
            support_if SCR_SD_BUS_WIDTH_4 SD_SUPP_BUS_WIDTH_4 ;;
            support_if SCR_SD_BUS_WIDTH_1 SD_SUPP_BUS_WIDTH_1 ;;
            support_if SCR_CMD_SUPP_SET_BLKCNT SD_SUPP_SET_BLOCK_COUNT ;;
            support_if SCR_CMD_SUPP_SPEED_CLASS SD_SUPP_SPEED_CLASS ;;
            mret SD_OK
          end
        end.

Definition sdParseCSD : M (sdst D) () :=
  mod_card (λ c, with_capacity c (csd_capacity (csd c))) ;;
  mod_card (λ c, with_fileFormat c (Z.land (nth 3 (csd c) 0) CSD3VN_FILE_FORMAT)).
Definition sdParseCID : M (sdst D) cid_info := c ← get_card; mret (parse_cid (cid c)).

(** ** Clock and reset *)

Definition sdSetClock (freq : Z) : M (sdst D) Z :=
  count ← while_pre (Z.to_nat 100000) (test_reg EMMC_STATUS (Z.lor SR_CMD_INHIBIT SR_DAT_INHIBIT)) (sd_delayus 1);
  if count <=? 0 then peek EMMC_STATUS ;; mret SD_ERROR_CLOCK
  else
    reg_update EMMC_CONTROL1 C1_CLK_EN 0 ;;
    sd_delayus 10 ;;
    ver ← gets sdHostVer;
    v ← reg_read EMMC_CONTROL1;
    reg_write EMMC_CONTROL1 (Z.lor (Z.land v 0xffff003f) (sdGetClockDivider ver freq)) ;;
    sd_delayus 10 ;;
    reg_update EMMC_CONTROL1 0 C1_CLK_EN ;;
    sd_delayus 10 ;;
    count ← while_post (Z.to_nat 10000) (b ← test_reg EMMC_CONTROL1 C1_CLK_STABLE; mret (negb b)) (sd_delayus 10);
    if count <=? 0 then mret SD_ERROR_CLOCK
    else peek EMMC_STATUS ;; peek EMMC_CONTROL1 ;; mret SD_OK.

Definition sdResetCard (resetType : Z) : M (sdst D) Z :=
  reg_write EMMC_CONTROL0 0 ;;
  reg_update EMMC_CONTROL1 0 resetType ;;
  sd_delayus 10 ;;
  count ← while_post (Z.to_nat 10000) (test_reg EMMC_CONTROL1 resetType) (sd_delayus 10);
  if count <=? 0 then mret SD_ERROR_RESET
  else
    reg_update EMMC_CONTROL1 0 (Z.lor C1_CLK_INTLEN C1_TOUNIT_MAX) ;;
    sd_delayus 10 ;;
    resp ← sdSetClock FREQ_SETUP;
    if negb (resp =? 0) then mret resp
    else
      reg_write EMMC_IRPT_EN (Z.ldiff (Z.ldiff 0xffffffff INT_CMD_DONE) INT_WRITE_RDY) ;;
      reg_write EMMC_IRPT_MASK 0xffffffff ;;
      mod_card reset_fields ;;
      sdSendCommand IX_GO_IDLE_STATE.

(** ** Initialisation *)

(** The loop that repeats ACMD41; [Some resp] is an early return. *)
Fixpoint opcond_retry (count : nat) (arg : Z) : M (sdst D) (option Z) :=
  c ← get_card;
  if any (ocr c) R3_COMPLETE then mret None
  else match count with
  | O => mret None
  | S n =>
    peek EMMC_STATUS ;;
    delay 50000 ;;
    resp ← sdSendCommandA IX_APP_SEND_OP_COND arg;
    if negb (resp =? 0) && negb (resp =? SD_TIMEOUT) then mret (Some resp) else opcond_retry n arg
  end.
Definition sdAppSendOpCond (arg : Z) : M (sdst D) Z :=
  peek EMMC_STATUS ;;
  resp ← sdSendCommandA IX_APP_SEND_OP_COND arg;
  if negb (resp =? 0) && negb (resp =? SD_TIMEOUT) then mret resp
  else
    r ← opcond_retry 6 arg;
    match r with
    | Some resp => mret resp
    | None =>
      c ← get_card;
      if negb (any (ocr c) R3_COMPLETE) then mret SD_TIMEOUT
      else if negb (any (ocr c) ACMD41_VOLTAGE) then mret SD_ERROR_VOLTAGE
      else mret SD_OK
    end.
Definition sdSwitchVoltage : M (sdst D) Z := mret SD_OK.

Definition GPIO_BASE : Z := MMIO_BASE + 0x200000.
Definition GPFSEL4 : Z := GPIO_BASE + 0x10.
Definition GPFSEL5 : Z := GPIO_BASE + 0x14.
Definition GPEDS1 : Z := GPIO_BASE + 0x44.
Definition GPHEN1 : Z := GPIO_BASE + 0x68.
Definition GPPUD : Z := GPIO_BASE + 0x94.
Definition GPPUDCLK1 : Z := GPIO_BASE + 0x9C.

(** [put32(GPPUD, 2); delay(150); put32(GPPUDCLK1, pins); delay(150);
    put32(GPPUD, 0); put32(GPPUDCLK1, 0)] *)
Definition pull_up (pins : Z) : M (sdst D) () :=
  reg_write GPPUD 2 ;; delay 150 ;;
  reg_write GPPUDCLK1 pins ;; delay 150 ;;
  reg_write GPPUD 0 ;; reg_write GPPUDCLK1 0.
(** [7 << (k * 3)] for each [k]. *)
Definition pin_functions (ks : list Z) : Z := fold_left (λ v k, Z.lor v (w32 (Z.shiftl 7 (k * 3)))) ks 0.
Definition sdInitGPIO : M (sdst D) () :=
  reg_update GPFSEL4 (pin_functions [7]) 0 ;;
  pull_up (Z.shiftl 1 15) ;;
  reg_update GPHEN1 0 (Z.shiftl 1 15) ;;
  reg_update GPFSEL4 0 (pin_functions [8; 9]) ;;
  pull_up (Z.lor (Z.shiftl 1 16) (Z.shiftl 1 17)) ;;
  reg_update GPFSEL5 0 (pin_functions [0; 1; 2; 3]) ;;
  pull_up (Z.lor (Z.lor (Z.lor (Z.shiftl 1 18) (Z.shiftl 1 19)) (Z.shiftl 1 20)) (Z.shiftl 1 21)).

Definition sdGetBaseClock : M (sdst D) Z :=
  v ← mbox_get_clock_rate mbox_fuel mbox_buf;
  modify (λ s, SdSt (sd_card s) (sdHostVer s) v (sd_buf s) (sd_que s) (sd_woken s) (sd_dev s)) ;;
  mret (if v =? w32 (-1) then SD_ERROR else SD_OK).

(** [if ((resp = m)) return sdDebugResponse(resp);] and then [k]; with
    [if ((resp = m)) return resp;] in [return_if]. *)
Definition debug_if (m : M (sdst D) Z) (k : M (sdst D) Z) : M (sdst D) Z :=
  resp ← m; if negb (resp =? 0) then sdDebugResponse resp else k.
Definition return_if (m : M (sdst D) Z) (k : M (sdst D) Z) : M (sdst D) Z :=
  resp ← m; if negb (resp =? 0) then mret resp else k.

(** The part of [sdInit] from [SEND_IF_COND] to the type of the card, then [k]. *)
Definition identify (k : M (sdst D) Z) : M (sdst D) Z :=
  resp ← sdSendCommandA IX_SEND_IF_COND 0x000001AA;
  if resp =? SD_OK then
    delay 50 ;;
    debug_if (sdAppSendOpCond ACMD41_ARG_HC) (
      mod_card (λ c, with_card_type c (if any (ocr c) R3_CCS then SD_TYPE_2_HC else SD_TYPE_2_SC)) ;; k)
  else if resp =? SD_BUSY then mret resp
  else
    return_if (b ← test_reg EMMC_STATUS SR_CMD_INHIBIT; if b : bool then sdResetCard C1_SRST_HC else mret 0) (
    debug_if (sdAppSendOpCond ACMD41_ARG_SC) (
    mod_card (λ c, with_card_type c SD_TYPE_1) ;; k)).
(** The rest of [sdInit]. *)
Definition configure (oldCID : list Z) : M (sdst D) Z :=
  return_if (c ← get_card; if any (ocr c) R3_S18A then sdSwitchVoltage else mret 0) (
  debug_if (sdSendCommand IX_ALL_SEND_CID) (
  debug_if (sdSendCommand IX_SEND_REL_ADDR) (
  debug_if (sdSendCommand IX_SEND_CSD) (
  sdParseCSD ;;
  c ← get_card;
  if negb (fileFormat c =? CSD3VN_FILE_FORMAT_DOSFAT) && negb (fileFormat c =? CSD3VN_FILE_FORMAT_HDD) then mret SD_ERROR
  else
    debug_if (sdSetClock FREQ_NORMAL) (
    debug_if (sdSendCommand IX_CARD_SELECT) (
    debug_if sdReadSCR (
    c ← get_card;
    debug_if (if any (support c) SD_SUPP_BUS_WIDTH_4 then
                resp ← sdSendCommandA IX_SET_BUS_WIDTH (Z.lor (rca c) 2);
                when (resp =? 0) (reg_update EMMC_CONTROL0 0 C0_HCTL_DWITDH) ;;
                mret resp
              else mret 0) (
    debug_if (sdSendCommandA IX_SET_BLOCKLEN 512) (
    sdParseCID ;;
    mod_card (λ c, with_init c 1 (absent c)) ;;
    c ← get_card;
    mret (if bool_decide (oldCID = cid c) then SD_CARD_REINSERTED else SD_CARD_CHANGED)))))))))).
Definition sdInit : M (sdst D) Z :=
  c ← get_card;
  when (init c =? 0) sdInitGPIO ;;
  v ← reg_read GPEDS1;
  let cardEjected := any v (Z.shiftl 1 15) in
  mod_card (λ c, with_init c (init c) 0) ;;
  c ← get_card;
  when (cardEjected && negb (init c =? 0)) (mod_card (λ c, with_init c 0 (absent c))) ;;
  c' ← get_card;
  if negb (init c' =? 0) then mret SD_OK
  else
    let oldCID := if negb (init c =? 0) then cid c else replicate 4 0 in
    v ← reg_read EMMC_SLOTISR_VER;
    modify (λ s, SdSt (sd_card s) (Z.shiftr (Z.land v HOST_SPEC_NUM) HOST_SPEC_NUM_SHIFT) (sdBaseClock s) (sd_buf s)
                      (sd_que s) (sd_woken s) (sd_dev s)) ;;
    return_if sdGetBaseClock (
    return_if (sdResetCard C1_SRST_HC) (
    identify (configure oldCID))).
End Sd.
