(* ===== verification/SdQueue.v ===== *)
(** Transfers of the SD card driver: the request queue of kern/sd.c.

    A buffer is named by the address of its node in the queue, so that
    [container_of] has offset 0; [sdque] is the address of the head.  The
    critical sections under [sdlock] are single steps: the handler [sd_intr]
    is one, and [sdrw] is [sdrw_begin] followed by [sdrw_wait], which is
    evaluated again after each wakeup. *)

From S2P Require Import Prelude Dlist BufferCache Bio Mmio SdRegs Sd.

Section SdQueue.
Context {D : Type} `{!Mmio D} (sdque : Z).
Implicit Types (s : sdst D).

Definition get_sbuf (b : Z) : M (sdst D) buf := gets (λ s, sd_buf s b).
Definition put_sbuf (b : Z) (v : buf) : M (sdst D) () :=
  modify (λ s, SdSt (sd_card s) (sdHostVer s) (sdBaseClock s) (upd (sd_buf s) b v) (sd_que s) (sd_woken s) (sd_dev s)).
Definition get_que : M (sdst D) lheap := gets sd_que.
Definition put_que (H : lheap) : M (sdst D) () :=
  modify (λ s, SdSt (sd_card s) (sdHostVer s) (sdBaseClock s) (sd_buf s) H (sd_woken s) (sd_dev s)).
Definition sd_wakeup (chan : Z) : M (sdst D) () :=
  modify (λ s, SdSt (sd_card s) (sdHostVer s) (sdBaseClock s) (sd_buf s) (sd_que s) (sd_woken s ++ [chan]) (sd_dev s)).

Definition set_flags (v : buf) (fl : Z) : buf :=
  mkBuf fl (b_dev v) (b_blockno v) (b_refcnt v) (b_data v) (b_lock v).
Definition with_data (v : buf) (d : block) : buf :=
  mkBuf (b_flags v) (b_dev v) (b_blockno v) (b_refcnt v) d (b_lock v).

(** [while (done < 128) *EMMC_DATA = intbuf[done++]], and the loop that reads. *)
Fixpoint write_data (n : nat) (k : nat) (d : block) : M (sdst D) () :=
  match n with
  | O => mret ()
  | S n => reg_write EMMC_DATA (get32 d (4 * k)) ;; write_data n (S k) d
  end.
Fixpoint read_data (n : nat) (k : nat) (d : block) : M (sdst D) block :=
  match n with
  | O => mret d
  | S n => w ← reg_read EMMC_DATA; read_data n (S k) (put32 d (4 * k) w)
  end.

(** [asserts(! *EMMC_INTERRUPT, ...)] *)
Definition no_interrupt : M (sdst D) () :=
  v ← reg_read EMMC_INTERRUPT; if v =? 0 then mret () else panic "emmc interrupt flag should be empty".

(** [b] is the buffer itself: nothing of it changes. *)
Definition sd_start (b : buf) : M (sdst D) () :=
  c ← get_card;
  let bno := if type c =? SD_TYPE_2_HC then b_blockno b else w32 (Z.shiftl (b_blockno b) 9) in
  let write := any (b_flags b) B_DIRTY in
  no_interrupt ;;
  reg_write EMMC_BLKSIZECNT 512 ;;
  resp ← sdSendCommandA (if write then IX_WRITE_SINGLE else IX_READ_SINGLE) bno;
  if negb (resp =? 0) then panic "* EMMC send command error."
  else
    when write (
      resp ← sdWaitForInterrupt INT_WRITE_RDY;
      if negb (resp =? 0) then panic "* EMMC ERROR: Timeout waiting for ready to write"
      else no_interrupt ;; write_data 128 0 (b_data b)).

Definition sd_intr : M (sdst D) () :=
  H ← get_que;
  if list_empty sdque H then peek EMMC_INTERRUPT
  else
    i ← reg_read EMMC_INTERRUPT;
    if negb (any i INT_DATA_DONE || any i INT_READ_RDY) then panic "unexpected sd intr"
    else
      reg_write EMMC_INTERRUPT i ;;
      let b := list_first_entry sdque 0 H in
      v ← get_sbuf b;
      let write := any (b_flags v) B_DIRTY in
      if negb ((write && (i =? INT_DATA_DONE)) || (negb write && negb (INT_READ_RDY =? 0))) then sd_start v
      else
        when (negb write) (
          d ← read_data 128 0 (b_data v);
          put_sbuf b (with_data v d) ;;
          sdWaitForInterrupt INT_DATA_DONE ;;
          mret ()) ;;
        v ← get_sbuf b;
        put_sbuf b (set_flags v (Z.ldiff (Z.lor (b_flags v) B_VALID) B_DIRTY)) ;;
        sd_wakeup b ;;
        H ← get_que;
        put_que (list_del (l_next H sdque) H) ;;
        H ← get_que;
        when (negb (list_empty sdque H)) (v ← get_sbuf (list_first_entry sdque 0 H); sd_start v).

(** [sdrw] up to the loop, and the loop: it ends or sleeps on [b]. *)
Definition sdrw_begin (b : Z) : M (sdst D) () :=
  v ← get_sbuf b;
  if Z.land (b_flags v) (Z.lor B_VALID B_DIRTY) =? B_VALID then panic "sdrw: nothing to do"
  else
    H ← get_que;
    put_que (list_add_tail b sdque H) ;;
    when (list_empty sdque H) (sd_start v).
Definition sdrw_wait (b : Z) : M (sdst D) () :=
  v ← get_sbuf b;
  if Z.land (b_flags v) (Z.lor B_VALID B_DIRTY) =? B_VALID then mret () else sleep_on b.
Definition sdrw (b : Z) : M (sdst D) () := sdrw_begin b ;; sdrw_wait b.

(** [sd_init]: the three values it prints of the second partition.  The buffer
    is a local variable, which is not in the queue. *)
Definition sd_init (mbox_fuel : nat) (mbox_buf : Z) : M (sdst D) (list Z) :=
  H ← get_que;
  put_que (INIT_LIST_HEAD sdque H) ;;
  sdInit mbox_fuel mbox_buf ;;
  c ← get_card;
  if init c =? 0 then panic "assert"
  else
    sd_start buf0 ;;
    sdWaitForInterrupt INT_READ_RDY ;;
    d ← read_data 128 0 (b_data buf0);
    sdWaitForInterrupt INT_DATA_DONE ;;
    let part i := get32 d (0x1CE + 4 * i) in
    mret [Z.land (part 1%nat) 0xff; part 2%nat; part 3%nat].
End SdQueue.
