(* ===== verification/Emmc.v ===== *)
(** What the SD card driver relies on: the host controller with a card in
    transfer state, as the SD Host Controller specification describes them.

    [em] is the controller as the driver can observe it: the contents of the
    card, the block size register and the phase of the transfer.  A flag of the
    interrupt register comes up after a number of polls that the controller
    chooses, and stays until it is acknowledged.  Class [Emmc] says that the
    device registers behave like this; the accesses it allows are those of a
    driver that follows the protocol. *)

From S2P Require Import Prelude BufferCache Mmio SdRegs.

(** [w]: a write; [a]: the argument of the command; [n]: the number of polls
    before the flag of this phase comes up. *)
Inductive phase :=
| PReady
| PArmed (a : Z)
| PSent (n : nat) (w : bool) (a : Z)    (** then INT_CMD_DONE *)
| PRead (n : nat) (a : Z)               (** then INT_READ_RDY *)
| PData (a : Z) (k : nat)               (** [k] words have been read *)
| PWrite (n : nat) (a : Z)              (** then INT_WRITE_RDY *)
| PFill (a : Z) (ws : list Z)           (** these words have been written *)
| PEnd (n : nat).                       (** then INT_DATA_DONE *)

Record em := Em {
  em_hc : bool;                 (** the card is addressed by blocks, not bytes *)
  em_disk : Z → block;
  em_writes : list (Z * block);
  em_blksz : Z;
  em_phase : phase;
}.
Definition at_phase (e : em) (p : phase) : em := Em (em_hc e) (em_disk e) (em_writes e) (em_blksz e) p.

(** The flag that is set. *)
Definition flag_of (p : phase) : Z :=
  match p with
  | PSent O _ _ => INT_CMD_DONE
  | PRead O _ => INT_READ_RDY
  | PWrite O _ => INT_WRITE_RDY
  | PEnd O => INT_DATA_DONE
  | _ => 0
  end.
(** No command takes longer than this many polls, a microsecond each. *)
Definition poll_limit : nat := Z.to_nat 1000000.
Lemma poll_limit_pos : (0 < poll_limit)%nat.
Proof. unfold poll_limit. lia. Qed.
#[global] Opaque poll_limit.

Definition em_sector (e : em) (a : Z) : Z := if em_hc e then a else a / BSIZE.
Definition words_block (ws : list Z) : block := concat (map (bytes_of 4) ws).
Definition stored (e : em) (a : Z) (ws : list Z) (n : nat) : em :=
  let b := em_sector e a in let d := words_block ws in
  Em (em_hc e) (upd (em_disk e) b d) (em_writes e ++ [(b, d)]) (em_blksz e) (PEnd n).

(** Reading register [r] gives [v]. *)
Inductive em_read (e : em) : Z → Z → em → Prop :=
| er_interrupt : em_read e EMMC_INTERRUPT (flag_of (em_phase e)) e
| er_status v : em_phase e = PReady → Z.land v SR_CMD_INHIBIT = 0 → em_read e EMMC_STATUS v e
| er_resp_read n a v : em_phase e = PRead n a → Z.land v R1_ERRORS_MASK = 0 → em_read e EMMC_RESP0 v e
| er_resp_write n a v : em_phase e = PWrite n a → Z.land v R1_ERRORS_MASK = 0 → em_read e EMMC_RESP0 v e
| er_data a k :
    em_phase e = PData a k → (k < 127)%nat →
    em_read e EMMC_DATA (get32 (em_disk e (em_sector e a)) (4 * k)) (at_phase e (PData a (S k)))
| er_data_last a n :
    em_phase e = PData a 127 → (n < poll_limit)%nat →
    em_read e EMMC_DATA (get32 (em_disk e (em_sector e a)) (4 * 127)) (at_phase e (PEnd n)).

(** Writing [v] to register [r]. *)
Inductive em_write (e : em) : Z → Z → em → Prop :=
| ew_blksz v : em_phase e = PReady →
    em_write e EMMC_BLKSIZECNT v (Em (em_hc e) (em_disk e) (em_writes e) v PReady)
| ew_arg a : em_phase e = PReady → em_write e EMMC_ARG1 a (at_phase e (PArmed a))
| ew_cmd_read a n : em_phase e = PArmed a → em_blksz e = BSIZE → (n < poll_limit)%nat →
    em_write e EMMC_CMDTM 0x11220010 (at_phase e (PSent n false a))
| ew_cmd_write a n : em_phase e = PArmed a → em_blksz e = BSIZE → (n < poll_limit)%nat →
    em_write e EMMC_CMDTM 0x18220000 (at_phase e (PSent n true a))
| ew_ack_none v : Z.land v (flag_of (em_phase e)) = 0 → em_write e EMMC_INTERRUPT v e
| ew_ack_cmd_read a n : em_phase e = PSent 0 false a → em_write e EMMC_INTERRUPT INT_CMD_DONE (at_phase e (PRead n a))
| ew_ack_cmd_write a n : em_phase e = PSent 0 true a → (n < poll_limit)%nat →
    em_write e EMMC_INTERRUPT INT_CMD_DONE (at_phase e (PWrite n a))
| ew_ack_read a : em_phase e = PRead 0 a → em_write e EMMC_INTERRUPT INT_READ_RDY (at_phase e (PData a 0))
| ew_ack_write a : em_phase e = PWrite 0 a → em_write e EMMC_INTERRUPT INT_WRITE_RDY (at_phase e (PFill a []))
| ew_ack_end : em_phase e = PEnd 0 → em_write e EMMC_INTERRUPT INT_DATA_DONE (at_phase e PReady)
| ew_data a ws v : em_phase e = PFill a ws → (length ws < 127)%nat →
    em_write e EMMC_DATA v (at_phase e (PFill a (ws ++ [v])))
| ew_data_last a ws v n : em_phase e = PFill a ws → length ws = 127%nat →
    em_write e EMMC_DATA v (stored e a (ws ++ [v]) n).

(** A wait brings the flag nearer; when the interrupt fires it is there. *)
Definition sooner (m : nat) (p : phase) : phase :=
  match p with
  | PSent n w a => PSent (min m (pred n)) w a
  | PRead n a => PRead (min m (pred n)) a
  | PWrite n a => PWrite (min m (pred n)) a
  | PEnd n => PEnd (min m (pred n))
  | _ => p
  end.
Definition due (e : em) : em := at_phase e (sooner 0 (em_phase e)).

Class Emmc (D : Type) `{!Mmio D} := {
  em_rel : D → em → Prop;
  (** the device when its next interrupt is raised *)
  em_fire : D → D;
  em_fire_law d e : em_rel d e → em_rel (em_fire d) (due e);
  em_read_law d e r v0 e0 :
    em_rel d e → em_read e r v0 e0 →
    ∃ v d' e', io_read r d = (v, d') ∧ em_read e r v e' ∧ em_rel d' e';
  em_write_law d e r v e0 :
    em_rel d e → em_write e r v e0 →
    ∃ e', em_write e r v e' ∧ em_rel (io_write r v d) e';
  em_delay_law d e us :
    em_rel d e → 0 < us → ∃ m, em_rel (io_delayus us d) (at_phase e (sooner m (em_phase e)));
}.
