(* ===== verification/SdSpec.v ===== *)
(** The SD card driver serves its requests in order. *)

From S2P Require Import Prelude Dlist Sleeplock BufferCache Bio FsInode FsRw Mmio SdRegs Sd SdQueue Emmc.

(** ** Blocks and their words *)

(** A block whose elements are bytes. *)
Definition bytes_ok (d : block) : Prop := block_ok d ∧ Forall is_byte d.

Definition block_words (d : block) (k n : nat) : list Z := map (λ j, get32 d (4 * j)) (seq k n).

Lemma slice_bytes d o : bytes_ok d → (o + 4 ≤ Z.to_nat BSIZE)%nat → bytes_of 4 (get32 d o) = slice d o 4.
Proof.
  intros [Hl Hb] Ho. unfold get32. assert (length (slice d o 4) = 4%nat) as H4 by (apply length_slice; unfold block_ok in Hl; lia).
  rewrite <-H4 at 1. apply bytes_of_of_bytes. unfold slice. by apply Forall_take, Forall_drop.
Qed.

Lemma take_slice {A} (l : list A) a b : take a l ++ slice l a b = take (a + b) l.
Proof.
  unfold slice. rewrite <-(take_drop a l) at 3. rewrite take_app. rewrite take_take, Nat.min_r by lia. f_equal.
  rewrite length_take. destruct (decide (a ≤ length l)%nat).
  - by replace (a + b - a `min` length l)%nat with b by lia.
  - by rewrite drop_ge, !take_nil by lia.
Qed.

Lemma words_of_block d n : ∀ k, bytes_ok d → (k + n = 128)%nat → words_block (block_words d k n) = drop (4 * k) d.
Proof.
  induction n as [|n IH]; intros k Hd Hk; unfold words_block, block_words; cbn [seq map concat].
  - rewrite drop_ge; [done|]. destruct Hd as [Hd _]. unfold block_ok, BSIZE in Hd. lia.
  - fold (block_words d (S k) n). fold (words_block (block_words d (S k) n)). rewrite IH by (done || lia).
    rewrite slice_bytes by (done || (unfold BSIZE; lia)). unfold slice.
    replace (4 * S k)%nat with (4 * k + 4)%nat by lia. rewrite <-drop_drop. apply take_drop.
Qed.

(** The words are read over a buffer one by one. *)
Lemma read_word d x k :
  bytes_ok x → block_ok d → (k < 128)%nat → take (4 * k) d = take (4 * k) x →
  let d' := put32 d (4 * k) (get32 x (4 * k)) in block_ok d' ∧ take (4 * S k) d' = take (4 * S k) x.
Proof.
  intros Hx Hd Hk Ht d'. pose proof (proj1 Hx) as Hlx. unfold block_ok in *. assert (Z.to_nat BSIZE = 512%nat) as HB by done.
  split; [unfold d'; by rewrite length_put32 by lia|]. unfold d', put32. rewrite slice_bytes by (done || lia).
  assert (length (slice x (4 * k) 4) = 4%nat) as H4 by (apply length_slice; lia).
  unfold splice. rewrite Ht, H4. rewrite app_assoc, take_slice. replace (4 * k + 4)%nat with (4 * S k)%nat by lia.
  rewrite take_app_le by (rewrite length_take; lia). rewrite take_take. by rewrite Nat.min_id.
Qed.

(** ** Single accesses *)

(** What the transition [H] can be, given the register. *)
Ltac em_inv H :=
  inversion H; clear H; subst;
  try (exfalso; unfold EMMC_INTERRUPT, EMMC_STATUS, EMMC_RESP0, EMMC_DATA, EMMC_BLKSIZECNT, EMMC_ARG1, EMMC_CMDTM in *; lia).

Section Access.
Context {D : Type} `{Emmc D}.
Implicit Types (s : sdst D) (e : em).

Definition with_dev s (d : D) : sdst D := lset d s.
Lemma with_dev_same s : with_dev s (sd_dev s) = s.
Proof. by destruct s. Qed.

Lemma read_run s e r v0 e0 :
  em_rel (sd_dev s) e → em_read e r v0 e0 →
  ∃ v d e', reg_read r s = Ret v (with_dev s d) ∧ em_read e r v e' ∧ em_rel d e'.
Proof.
  intros Hr Hv. destruct (em_read_law _ _ _ _ _ Hr Hv) as (v & d & e' & E & Hv' & Hr').
  exists v, d, e'. split; [|done]. unfold reg_read. change (lget s) with (sd_dev s). by rewrite E.
Qed.
Lemma write_run s e r v e0 :
  em_rel (sd_dev s) e → em_write e r v e0 →
  ∃ d e', reg_write r v s = Ret () (with_dev s d) ∧ em_write e r v e' ∧ em_rel d e'.
Proof.
  intros Hr Hv. destruct (em_write_law _ _ _ _ _ Hr Hv) as (e' & Hv' & Hr').
  by exists (io_write r v (sd_dev s)), e'.
Qed.
Lemma delay_run s e us :
  em_rel (sd_dev s) e → 0 < us < 2 ^ 30 →
  ∃ d m, sd_delayus us s = Ret () (with_dev s d) ∧ em_rel d (at_phase e (sooner m (em_phase e))).
Proof.
  intros Hr Hu. destruct (em_delay_law _ _ (w32 (us * 3)) Hr) as [m Hm]; [rewrite w32_small; lia|].
  by exists (io_delayus (w32 (us * 3)) (sd_dev s)), m.
Qed.

Lemma read_int s e :
  em_rel (sd_dev s) e →
  ∃ d, reg_read EMMC_INTERRUPT s = Ret (flag_of (em_phase e)) (with_dev s d) ∧ em_rel d e.
Proof.
  intros Hr. destruct (read_run s e _ _ _ Hr (er_interrupt e)) as (v & d & e' & E & Hv & Hr').
  em_inv Hv. by exists d.
Qed.

(** ** Waiting for a flag *)

(** The polls that are left before the flag of a phase comes up. *)
Definition left_of (p : phase) : option nat :=
  match p with
  | PSent n _ _ | PRead n _ | PWrite n _ | PEnd n => Some n
  | _ => None
  end.
Definition flags : list Z := [INT_CMD_DONE; INT_READ_RDY; INT_WRITE_RDY; INT_DATA_DONE].

Lemma sooner_0 m p n : left_of p = Some n → sooner 0 (sooner m p) = sooner 0 p.
Proof. by destruct p. Qed.
Lemma sooner_left m p n : left_of p = Some (S n) → ∃ k, left_of (sooner m p) = Some k ∧ (k ≤ n)%nat.
Proof. destruct p; intros [= ->]; eexists; (split; [done|cbn; lia]). Qed.
Lemma flag_now p : left_of p = Some 0%nat → sooner 0 p = p ∧ flag_of p = flag_of (sooner 0 p) ∧ flag_of p ∈ flags.
Proof. destruct p; intros [= ->]; (split; [done|split; [done|]]); unfold flags; set_solver. Qed.
Lemma flag_later p n : left_of p = Some (S n) → flag_of p = 0.
Proof. by destruct p; intros [= ->]. Qed.
Lemma flags_any mask : mask ∈ flags → any mask (Z.lor mask INT_ERROR_MASK) = true.
Proof.
  unfold flags. rewrite !elem_of_cons, elem_of_nil.
  intros [-> |[-> |[-> |[-> |[]]]]]; by vm_compute.
Qed.
Lemma flags_ok mask : mask ∈ flags →
  any mask INT_CMD_TIMEOUT = false ∧ any mask INT_DATA_TIMEOUT = false ∧ any mask INT_ERROR_MASK = false.
Proof.
  unfold flags. rewrite !elem_of_cons, elem_of_nil.
  intros [-> |[-> |[-> |[-> |[]]]]]; by vm_compute.
Qed.

Lemma wait_flag mask count : ∀ s e n,
  em_rel (sd_dev s) e → left_of (em_phase e) = Some n → (n < count)%nat → flag_of (sooner 0 (em_phase e)) = mask →
  ∃ d c, while_post count (v ← reg_read EMMC_INTERRUPT; mret (negb (any v (Z.lor mask INT_ERROR_MASK)))) (sd_delayus 1) s =
      Ret c (with_dev s d) ∧ 0 < c ∧ em_rel d (due e).
Proof.
  induction count as [|count IH]; intros s e n Hr Hn Hc Hm; [lia|]. cbn [while_post].
  destruct (read_int s e Hr) as (d & E & Hd).
  assert (∀ b, negb (any (flag_of (em_phase e)) (Z.lor mask INT_ERROR_MASK)) = b →
    (v ← reg_read EMMC_INTERRUPT; mret (negb (any v (Z.lor mask INT_ERROR_MASK)))) s = Ret b (with_dev s d)) as Ec.
  { intros b <-. by mstep E. }
  destruct n as [|n].
  - destruct (flag_now _ Hn) as (H0 & H1 & H2). rewrite H1, Hm in Ec. rewrite H1, Hm in H2.
    rewrite (flags_any _ H2) in Ec. mstep (Ec false eq_refl). cbn [negb].
    exists d, (Z.of_nat (S count)). split; [done|]. split; [lia|]. unfold due. rewrite H0. by destruct e.
  - rewrite (flag_later _ _ Hn) in Ec. mstep (Ec true eq_refl). cbn [negb].
    destruct (delay_run (with_dev s d) e 1 Hd ltac:(lia)) as (d2 & m & E2 & Hd2). mstep E2.
    destruct (sooner_left m _ _ Hn) as (k & Hk & Hlt).
    destruct (IH (with_dev (with_dev s d) d2) _ k Hd2 Hk ltac:(lia)) as (d3 & c & E3 & Hc3 & Hd3).
    { cbn [em_phase at_phase]. by rewrite (sooner_0 _ _ _ Hn). }
    exists d3, c. split; [exact E3|]. split; [done|]. unfold due in *. cbn [em_phase at_phase] in Hd3.
    rewrite (sooner_0 _ _ _ Hn) in Hd3. exact Hd3.
Qed.

Lemma wait_run mask s e n e0 :
  em_rel (sd_dev s) e → left_of (em_phase e) = Some n → (n < poll_limit)%nat → mask = flag_of (sooner 0 (em_phase e)) →
  em_write (due e) EMMC_INTERRUPT mask e0 →
  ∃ d e', sdWaitForInterrupt mask s = Ret SD_OK (with_dev s d) ∧ em_write (due e) EMMC_INTERRUPT mask e' ∧ em_rel d e'.
Proof.
  intros Hr Hn Hlt Hm Hw. unfold sdWaitForInterrupt.
  change (Z.to_nat 1000000) with poll_limit.
  destruct (wait_flag mask poll_limit s e n Hr Hn Hlt (eq_sym Hm)) as (d & c & E & Hc & Hd). mstep E.
  destruct (read_int (with_dev s d) _ Hd) as (d2 & E2 & Hd2). cbn [due em_phase at_phase] in E2. rewrite <-Hm in E2. mstep E2.
  assert (mask ∈ flags) as Hf.
  { assert (left_of (sooner 0 (em_phase e)) = Some 0%nat) as Hl by by destruct (em_phase e).
    destruct (flag_now _ Hl) as (_ & _ & Hf). by rewrite Hm. }
  destruct (flags_ok _ Hf) as (-> & -> & ->). destruct (Z.leb_spec c 0); [lia|]. cbn [orb].
  destruct (write_run (with_dev (with_dev s d) d2) _ _ _ _ Hd2 Hw) as (d3 & e3 & E3 & Hw3 & Hd3).
  exists d3, e3. split; [|done]. by mstep E3.
Qed.

(** ** Sending a command *)

(** What a command leaves alone. *)
Record kept s s' : Prop := {
  kp_buf : sd_buf s' = sd_buf s;
  kp_que : sd_que s' = sd_que s;
  kp_woken : sd_woken s' = sd_woken s;
  kp_type : type (sd_card s') = type (sd_card s);
}.
#[export] Instance kept_refl : Reflexive kept.
Proof. by split. Qed.
#[export] Instance kept_trans : Transitive kept.
Proof. intros s1 s2 s3 [] []. split; congruence. Qed.
Lemma kept_dev s d : kept s (with_dev s d).
Proof. by split. Qed.

Lemma while_post_stop {S} count (cond : M S bool) body (x y : S) :
  cond x = Ret false y → while_post count cond body x = Ret (Z.of_nat count) y.
Proof. intros Hc. destruct count; cbn [while_post]; by mstep Hc. Qed.

Lemma idle_command s e :
  em_rel (sd_dev s) e → em_phase e = PReady → ∃ d, sdWaitForCommand s = Ret SD_OK (with_dev s d) ∧ em_rel d e.
Proof.
  intros Hr Hp.
  destruct (read_run s e EMMC_STATUS 0 e Hr) as (v & d & e' & E & Hv & Hd); [by apply er_status|].
  em_inv Hv. destruct (read_int (with_dev s d) e' Hd) as (d2 & E2 & Hd2). exists d2. split; [|done].
  unfold sdWaitForCommand. erewrite mbind_ret; cycle 1.
  { apply while_post_stop. unfold inhibited. mstep E. unfold any. rewrite H1. reflexivity. }
  rewrite Z2Nat.id by lia. change (1000000 <=? 0) with false. unfold busy_if.
  assert ((i ← reg_read EMMC_INTERRUPT; mret (any i INT_ERROR_MASK)) (with_dev s d) = Ret false (with_dev s d2)) as E3.
  { mstep E2. by rewrite H0. }
  by mstep E3.
Qed.

(** The commands for one block. *)
Definition single (w : bool) : Z := if w then IX_WRITE_SINGLE else IX_READ_SINGLE.
Definition single_code (w : bool) : Z := if w then 0x18220000 else 0x11220010.
Lemma single_cmd (w : bool) {S} (s : S) :
  ∃ c, array_get sdCommandTable (single w) s = Ret c s ∧ cmd_code c = single_code w ∧ cmd_delay c = 0 ∧ cmd_resp c = RESP_R1.
Proof. by destruct w; eexists. Qed.

Lemma issue s e a w :
  em_rel (sd_dev s) e → em_phase e = PReady → em_blksz e = BSIZE →
  ∃ d n, (∀ A (k : M (sdst D) A),
      (v ← reg_read EMMC_INTERRUPT;
       reg_write EMMC_INTERRUPT v ;; reg_write EMMC_ARG1 a ;; reg_write EMMC_CMDTM (single_code w) ;; k) s =
      k (with_dev s d)) ∧ (n < poll_limit)%nat ∧ em_rel d (at_phase e (PSent n w a)).
Proof.
  intros Hr Hp Hb. destruct (read_int s e Hr) as (d1 & E1 & Hd1). rewrite Hp in E1. cbn [flag_of] in E1.
  destruct (write_run (with_dev s d1) e EMMC_INTERRUPT 0 e Hd1) as (d2 & e2 & E2 & Hw2 & Hd2).
  { apply ew_ack_none. by rewrite Hp. }
  em_inv Hw2; try congruence.
  destruct (write_run (with_dev (with_dev s d1) d2) _ EMMC_ARG1 a _ Hd2 (ew_arg _ _ Hp)) as (d3 & e3 & E3 & Hw3 & Hd3).
  em_inv Hw3.
  pose proof poll_limit_pos as Hpos.
  assert (em_write (at_phase e2 (PArmed a)) EMMC_CMDTM (single_code w) (at_phase (at_phase e2 (PArmed a)) (PSent 0 w a))) as Hw4.
  { destruct w; [apply ew_cmd_write|apply ew_cmd_read]; done. }
  destruct (write_run (with_dev (with_dev (with_dev s d1) d2) d3) _ _ _ _ Hd3 Hw4) as (d4 & e4 & E4 & Hw4' & Hd4).
  assert (∃ n, (n < poll_limit)%nat ∧ e4 = at_phase e2 (PSent n w a)) as (n & Hn & ->).
  { destruct w; em_inv Hw4'; exists n; (split; [done|]); cbn in H2; injection H2 as <-; done. }
  exists d4, n. split; [|done]. intros A k. mstep E1. mstep E2. mstep E3. by mstep E4.
Qed.

(** The phase that the acknowledged command leaves. *)
Definition begun (w : bool) (n : nat) (a : Z) : phase := if w then PWrite n a else PRead n a.

Lemma command_done s e a w n :
  em_rel (sd_dev s) e → em_phase e = PSent n w a → (n < poll_limit)%nat →
  ∃ d m, sdWaitForInterrupt INT_CMD_DONE s = Ret SD_OK (with_dev s d) ∧ em_rel d (at_phase e (begun w m a)) ∧
    (w = true → m < poll_limit)%nat.
Proof.
  intros Hr Hp Hn. pose proof poll_limit_pos as Hpos.
  destruct (wait_run INT_CMD_DONE s e n (at_phase e (begun w 0 a)) Hr) as (d & e' & E & Hw & Hd); rewrite ?Hp; try done.
  { unfold due. rewrite Hp. cbn [sooner min]. destruct w; [by apply (ew_ack_cmd_write (at_phase e (PSent 0 true a)))|].
    by apply (ew_ack_cmd_read (at_phase e (PSent 0 false a))). }
  assert (em_phase (due e) = PSent 0 w a) as Hdue by (unfold due; cbn [em_phase at_phase]; by rewrite Hp).
  assert (∃ m, e' = at_phase e (begun w m a) ∧ (w = true → m < poll_limit)%nat) as (m & -> & Hm).
  { em_inv Hw; rewrite ?Hdue in *; try congruence; [by vm_compute in H0|injection H0 as -> ->..]; exists n0; by split. }
  by exists d, m.
Qed.

Lemma send_single s e a w :
  em_rel (sd_dev s) e → em_phase e = PReady → em_blksz e = BSIZE →
  ∃ s' m, sdSendCommandA (single w) a s = Ret 0 s' ∧ kept s s' ∧ em_rel (sd_dev s') (at_phase e (begun w m a)) ∧
    (w = true → m < poll_limit)%nat.
Proof.
  intros Hr Hp Hb. unfold sdSendCommandA, send.
  assert (IX_APP_CMD_START <=? single w = false) as Hix by by destruct w. rewrite Hix.
  mstep (eq_refl ((mret 0 : M (sdst D) Z) s)). cbn [negb Z.eqb]. unfold sdSendCommandP.
  destruct (single_cmd w s) as (cmd & E0 & Hcode & Hdelay & Hresp).
  destruct (idle_command s e Hr Hp) as (d1 & E1 & Hd1).
  set (s1 := with_dev s d1) in *.
  set (s2 := SdSt (with_last (sd_card s1) (Some (single w)) a) (sdHostVer s1) (sdBaseClock s1) (sd_buf s1) (sd_que s1)
    (sd_woken s1) (sd_dev s1)).
  destruct (issue s2 e a w Hd1 Hp Hb) as (d3 & n & E3 & Hn & Hd3).
  destruct (command_done (with_dev s2 d3) _ a w n Hd3 eq_refl Hn) as (d4 & m & E4 & Hd4 & Hm).
  assert (∃ v0, Z.land v0 R1_ERRORS_MASK = 0 ∧ em_read (at_phase (at_phase e (PSent n w a)) (begun w m a)) EMMC_RESP0 v0
    (at_phase (at_phase e (PSent n w a)) (begun w m a))) as (v0 & Hv0 & Hrd).
  { exists 0. split; [done|]. destruct w; [by eapply er_resp_write|by eapply er_resp_read]. }
  destruct (read_run (with_dev (with_dev s2 d3) d4) _ _ _ _ Hd4 Hrd) as (v & d5 & e5 & E5 & Hv & Hd5).
  assert (Z.land v R1_ERRORS_MASK = 0 ∧ e5 = at_phase e (begun w m a)) as [Hv' ->] by by em_inv Hv.
  set (s5 := with_dev (with_dev (with_dev s2 d3) d4) d5) in *.
  exists (SdSt (with_status (sd_card s5) (rca (sd_card s5)) (Z.shiftr (Z.land v ST_CARD_STATE) R1_CARD_STATE_SHIFT) v)
    (sdHostVer s5) (sdBaseClock s5) (sd_buf s5) (sd_que s5) (sd_woken s5) (sd_dev s5)), m.
  split; [|split; [by split|split; [exact Hd5|done]]].
  erewrite mbind_ret; cycle 1.
  { mstep E0. mstep E1. change (negb (SD_OK =? 0)) with false. cbv iota.
    mstep (eq_refl (mod_card (λ c, with_last c (Some (single w)) a) s1)). change (SdSt _ _ _ _ _ _ _) with s2.
    rewrite Hcode, Hdelay, E3. mstep (eq_refl (when (negb (0 =? 0)) (sd_delayus 0) (with_dev s2 d3))).
    mstep E4. change (negb (SD_OK =? 0)) with false. cbv iota. mstep E5. unfold handle_response. rewrite Hresp.
    change (RESP_R1 =? RESP_NO) with false. change ((RESP_R1 =? RESP_R1) || (RESP_R1 =? RESP_R1b)) with true. cbv iota.
    mstep (eq_refl (mod_card (λ c, with_status c (rca c) (Z.shiftr (Z.land v ST_CARD_STATE) R1_CARD_STATE_SHIFT) v) s5)).
    rewrite Hv'. reflexivity. }
  change (negb (0 =? 0)) with false. cbv iota. unfold get_card, gets, mbind, M_bind. by rewrite ?Hix.
Qed.

(** ** Moving the data *)

Lemma write_data_run dat n : ∀ k s e a ws,
  em_rel (sd_dev s) e → em_phase e = PFill a ws → length ws = k → (k + S n = 128)%nat →
  ∃ d m, write_data (S n) k dat s = Ret () (with_dev s d) ∧ em_rel d (stored e a (ws ++ block_words dat k (S n)) m).
Proof.
  induction n as [|n IH]; intros k s e a ws Hr Hp Hk Hn.
  - destruct (write_run s e EMMC_DATA (get32 dat (4 * k)) _ Hr (ew_data_last _ _ _ _ 0 Hp ltac:(lia))) as (d & e' & E & Hw & Hd).
    em_inv Hw; rewrite Hp in *; simplify_eq; [lia|]. eexists d, _. split; [cbn [write_data]; by mstep E|exact Hd].
  - destruct (write_run s e EMMC_DATA (get32 dat (4 * k)) _ Hr (ew_data _ _ _ _ Hp ltac:(lia))) as (d & e' & E & Hw & Hd).
    em_inv Hw; rewrite Hp in *; simplify_eq; [|lia].
    destruct (IH (S (length ws0)) (with_dev s d) _ a0 (ws0 ++ [get32 dat (4 * length ws0)]) Hd eq_refl) as (d2 & m & E2 & Hd2);
      [rewrite length_app; cbn; lia|lia|].
    exists d2, m. split; [cbn [write_data]; mstep E; exact E2|].
    rewrite <-app_assoc in Hd2. exact Hd2.
Qed.

Lemma read_data_run x n : ∀ k s e a dat,
  em_rel (sd_dev s) e → em_phase e = PData a k → em_disk e (em_sector e a) = x → bytes_ok x → block_ok dat →
  take (4 * k) dat = take (4 * k) x → (k + S n = 128)%nat →
  ∃ d m, read_data (S n) k dat s = Ret x (with_dev s d) ∧ em_rel d (at_phase e (PEnd m)) ∧ (m < poll_limit)%nat.
Proof.
  induction n as [|n IH]; intros k s e a dat Hr Hp Hx Hbx Hdat Ht Hn;
    destruct (read_word dat x k Hbx Hdat ltac:(lia) Ht) as [Hd' Ht'].
  - assert (k = 127%nat) as -> by lia.
    destruct (read_run s e _ _ _ Hr (er_data_last _ _ 0 Hp poll_limit_pos)) as (v & d & e' & E & Hv & Hd).
    em_inv Hv; rewrite Hp in *; simplify_eq; try lia. exists d, n. split; [|done].
    change (read_data 1 127 dat s) with ((w ← reg_read EMMC_DATA; read_data 0 128 (put32 dat (4 * 127) w)) s). mstep E.
    cbn [read_data]. unfold mret, M_ret. f_equal. rewrite take_ge in Ht' by (unfold block_ok, BSIZE in Hd'; lia).
    rewrite take_ge in Ht' by (destruct Hbx as [Hbx _]; unfold block_ok, BSIZE in Hbx; lia). exact Ht'.
  - destruct (read_run s e _ _ _ Hr (er_data _ _ _ Hp ltac:(lia))) as (v & d & e' & E & Hv & Hd).
    em_inv Hv; rewrite Hp in *; simplify_eq; try lia.
    destruct (IH (S k0) (with_dev s d) _ a0 _ Hd eq_refl eq_refl Hbx Hd' Ht' ltac:(lia)) as (d2 & m & E2 & Hd2 & Hm).
    exists d2, m. split; [|done]. cbn [read_data]. mstep E. exact E2.
Qed.

(** ** Starting a request *)

(** The buffer asks for a sector that the card can address. *)
Record request (hc : bool) (v : buf) : Prop := {
  rq_block : 0 ≤ b_blockno v < 2 ^ 32;
  rq_addr : hc = false → b_blockno v < 2 ^ 23;
  rq_work : Z.land (b_flags v) (Z.lor B_VALID B_DIRTY) ≠ B_VALID;
  rq_data : block_ok (b_data v);
  rq_bytes : any (b_flags v) B_DIRTY = true → bytes_ok (b_data v);
}.
(** What the card holds once the request has been served. *)
Definition served_disk (v : buf) (disk : Z → block) : Z → block :=
  if any (b_flags v) B_DIRTY then upd disk (b_blockno v) (b_data v) else disk.
Definition served_writes (v : buf) (W : list (Z * block)) : list (Z * block) :=
  if any (b_flags v) B_DIRTY then W ++ [(b_blockno v, b_data v)] else W.

(** The controller works on the request of [v]. *)
Record started (e : em) (v : buf) (e' : em) : Prop := {
  st_hc : em_hc e' = em_hc e;
  st_disk : em_disk e' = served_disk v (em_disk e);
  st_writes : em_writes e' = served_writes v (em_writes e);
  st_phase : if any (b_flags v) B_DIRTY then ∃ n, em_phase e' = PEnd n
             else ∃ n a, em_phase e' = PRead n a ∧ em_sector e' a = b_blockno v;
}.

Lemma no_interrupt_run s e :
  em_rel (sd_dev s) e → flag_of (em_phase e) = 0 → ∃ d, no_interrupt s = Ret () (with_dev s d) ∧ em_rel d e.
Proof.
  intros Hr Hf. destruct (read_int s e Hr) as (d & E & Hd). exists d. split; [|done].
  unfold no_interrupt. mstep E. by rewrite Hf.
Qed.

Definition start_addr s (v : buf) : Z :=
  if type (sd_card s) =? SD_TYPE_2_HC then b_blockno v else w32 (Z.shiftl (b_blockno v) 9).
Lemma start_sector s e v :
  em_hc e = (type (sd_card s) =? SD_TYPE_2_HC) → request (em_hc e) v → em_sector e (start_addr s v) = b_blockno v.
Proof.
  intros Hhc [Hb Ha _ _ _]. unfold em_sector, start_addr. rewrite <-Hhc. destruct (em_hc e) eqn:He; [done|].
  specialize (Ha eq_refl). rewrite Z.shiftl_mul_pow2 by lia. rewrite w32_small by lia. unfold BSIZE. apply Z.div_mul. lia.
Qed.

Lemma fill_run s e (d : block) a n :
  em_rel (sd_dev s) e → em_phase e = PWrite n a → (n < poll_limit)%nat → bytes_ok d →
  ∃ x y m, sdWaitForInterrupt INT_WRITE_RDY s = Ret SD_OK (with_dev s x) ∧
    (no_interrupt ;; write_data 128 0 d) (with_dev s x) = Ret () (with_dev s y) ∧
    em_rel y (Em (em_hc e) (upd (em_disk e) (em_sector e a) d) (em_writes e ++ [(em_sector e a, d)]) (em_blksz e) (PEnd m)).
Proof.
  intros Hr Hp Hn Hd.
  assert (em_phase (due e) = PWrite 0 a) as Hdue by (unfold due; cbn [em_phase at_phase]; by rewrite Hp).
  destruct (wait_run INT_WRITE_RDY s e n _ Hr ltac:(by rewrite Hp) Hn ltac:(by rewrite Hp) (ew_ack_write _ _ Hdue))
    as (x & e1 & E1 & Hw & Hx).
  assert (e1 = at_phase (due e) (PFill a [])) as ->.
  { em_inv Hw; rewrite ?Hdue in *; simplify_eq; try done; by vm_compute in H0. }
  destruct (no_interrupt_run (with_dev s x) _ Hx eq_refl) as (x2 & E2 & Hx2).
  destruct (write_data_run d 127 0 (with_dev (with_dev s x) x2) _ a [] Hx2 eq_refl eq_refl eq_refl) as (y & m & E3 & Hy).
  exists x, y, m. split; [exact E1|]. split; [mstep E2; exact E3|].
  unfold stored in Hy. rewrite app_nil_l, (words_of_block d 128 0 Hd eq_refl) in Hy. exact Hy.
Qed.

Lemma sd_start_ok s e v :
  em_rel (sd_dev s) e → em_phase e = PReady → em_hc e = (type (sd_card s) =? SD_TYPE_2_HC) → request (em_hc e) v →
  ∃ s' e', sd_start v s = Ret () s' ∧ kept s s' ∧ em_rel (sd_dev s') e' ∧ started e v e'.
Proof.
  intros Hr Hp Hhc Hrq. pose proof (start_sector s e v Hhc Hrq) as Hsec. set (w := any (b_flags v) B_DIRTY).
  destruct (no_interrupt_run s e Hr) as (d1 & E1 & Hd1); [by rewrite Hp|].
  destruct (write_run (with_dev s d1) e EMMC_BLKSIZECNT 512 _ Hd1 (ew_blksz _ _ Hp)) as (d2 & e2 & E2 & Hw2 & Hd2).
  em_inv Hw2. set (e1 := Em (em_hc e) (em_disk e) (em_writes e) 512 PReady) in *.
  destruct (send_single (with_dev (with_dev s d1) d2) e1 (start_addr s v) w Hd2 eq_refl eq_refl) as (s3 & n & E3 & K3 & Hd3 & Hn).
  assert (kept s s3) as K by by destruct K3.
  unfold sd_start. mstep (eq_refl (get_card s)). fold (start_addr s v) w. fold (single w).
  mstep E1. mstep E2. mstep E3. change (negb (0 =? 0)) with false. cbv iota.
  destruct w eqn:Hw; cbn [when begun] in *.
  - destruct (fill_run s3 _ (b_data v) (start_addr s v) n Hd3 eq_refl (Hn eq_refl) (rq_bytes _ _ Hrq Hw)) as (x & y & m & E4 & E5 & Hy).
    exists (with_dev s3 y), (Em (em_hc e) (upd (em_disk e) (b_blockno v) (b_data v)) (em_writes e ++ [(b_blockno v, b_data v)]) 512 (PEnd m)).
    split; [mstep E4; change (negb (SD_OK =? 0)) with false; exact E5|].
    split; [transitivity s3; [exact K|apply kept_dev]|].
    split; [rewrite <-Hsec; exact Hy|].
    split; unfold served_disk, served_writes; fold w; rewrite ?Hw; try done. by exists m.
  - exists s3, (at_phase e1 (PRead n (start_addr s v))). split; [reflexivity|]. split; [exact K|]. split; [exact Hd3|].
    split; unfold served_disk, served_writes; fold w; rewrite ?Hw; try done. by exists n, (start_addr s v).
Qed.
End Access.

(** ** The queue *)

(** What the driver does, seen from above: a queue of buffers, and a disk on
    which the first one is served when the interrupt comes. *)
Record que := Que {
  q_hc : bool; q_list : list Z; q_buf : Z → buf;
  q_disk : Z → block; q_writes : list (Z * block); q_woken : list Z;
}.
(** The buffer after its request has been served; [d] is its sector. *)
Definition served (v : buf) (d : block) : buf :=
  set_flags (if any (b_flags v) B_DIRTY then v else with_data v d) (Z.ldiff (Z.lor (b_flags v) B_VALID) B_DIRTY).

Inductive act := Submit (b : Z) | Intr | Client (b : Z) (v : buf).
Definition q_step (a : que) (x : act) : que :=
  match x with
  | Submit b => Que (q_hc a) (q_list a ++ [b]) (q_buf a) (q_disk a) (q_writes a) (q_woken a)
  | Intr =>
    match q_list a with
    | [] => a
    | b :: l =>
      let v := q_buf a b in
      Que (q_hc a) l (upd (q_buf a) b (served v (q_disk a (b_blockno v)))) (served_disk v (q_disk a))
          (served_writes v (q_writes a)) (q_woken a ++ [b])
    end
  | Client b v => Que (q_hc a) (q_list a) (upd (q_buf a) b v) (q_disk a) (q_writes a) (q_woken a)
  end.

Section Queue.
Context {D : Type} `{Emmc D} (sdque : Z).
Implicit Types (s : sdst D) (e : em) (a : que).

(** A process submits a buffer that is not in the queue, and changes only such
    buffers: the owner of a buffer in the queue sleeps in [sdrw]. *)
Definition act_ok a (x : act) : Prop :=
  match x with
  | Submit b => b ∉ sdque :: q_list a ∧ request (q_hc a) (q_buf a b)
  | Intr => True
  | Client b v => b ∉ q_list a
  end.
Fixpoint acts_ok a (xs : list act) : Prop :=
  match xs with [] => True | x :: xs => act_ok a x ∧ acts_ok (q_step a x) xs end.

(** The same actions of the driver; an interrupt comes when the controller
    raises it. *)
Definition fire s : sdst D := with_dev s (em_fire (sd_dev s)).
Definition run_act (x : act) : M (sdst D) () :=
  match x with
  | Submit b => sdrw_begin sdque b
  | Intr => modify fire ;; sd_intr sdque
  | Client b v => put_sbuf b v
  end.
Fixpoint run_acts (xs : list act) : M (sdst D) () :=
  match xs with [] => mret () | x :: xs => run_act x ;; run_acts xs end.

(** The controller with nothing to do, and what it does for the queue. *)
Definition idle a e : Prop :=
  em_phase e = PReady ∧ em_hc e = q_hc a ∧ em_disk e = q_disk a ∧ em_writes e = q_writes a.
Definition working a e : Prop :=
  match q_list a with
  | [] => idle a e
  | b :: _ => ∃ e0, idle a e0 ∧ started e0 (q_buf a b) e
  end.

Record sd_rel s a : Prop := {
  sr_list : dlist (sd_que s) sdque (q_list a);
  sr_buf b : sd_buf s b = q_buf a b;
  sr_woken : sd_woken s = q_woken a;
  sr_hc : (type (sd_card s) =? SD_TYPE_2_HC) = q_hc a;
  sr_req b : b ∈ q_list a → request (q_hc a) (q_buf a b);
  sr_disk x : 0 ≤ x → bytes_ok (q_disk a x);
  sr_dev : ∃ e, em_rel (sd_dev s) e ∧ working a e;
}.

Lemma request_sector hc v : request hc v → 0 ≤ b_blockno v.
Proof. intros [Hb _ _ _ _]. lia. Qed.
Lemma served_disk_ok hc v d : request hc v → (∀ x, 0 ≤ x → bytes_ok (d x)) → ∀ x, 0 ≤ x → bytes_ok (served_disk v d x).
Proof.
  intros Hr Hd x Hx. unfold served_disk. destruct (any _ _) eqn:He; [|by apply Hd].
  rewrite upd_case. case_decide; [by apply (rq_bytes _ _ Hr)|by apply Hd].
Qed.

(** The device starts on [v], which is the first of the queue. *)
Lemma start_run s a e b l :
  em_rel (sd_dev s) e → idle (Que (q_hc a) [] (q_buf a) (q_disk a) (q_writes a) (q_woken a)) e →
  (type (sd_card s) =? SD_TYPE_2_HC) = q_hc a → request (q_hc a) (q_buf a b) → q_list a = b :: l →
  ∃ s', sd_start (q_buf a b) s = Ret () s' ∧ kept s s' ∧ ∃ e', em_rel (sd_dev s') e' ∧ working a e'.
Proof.
  intros Hr (I1 & I2 & I3 & I4) Hhc Hrq Hl. cbn [q_hc q_disk q_writes] in *.
  destruct (sd_start_ok s e (q_buf a b) Hr I1) as (s' & e' & E & K & Hr' & Hst); [by rewrite Hhc|by rewrite I2|].
  exists s'. split; [done|]. split; [done|]. exists e'. split; [done|]. unfold working. rewrite Hl. by exists e.
Qed.

Lemma submit_run s a b :
  sd_rel s a → act_ok a (Submit b) → ∃ s', sdrw_begin sdque b s = Ret () s' ∧ sd_rel s' (q_step a (Submit b)).
Proof.
  intros [R1 R2 R3 R4 R5 R6 (e & Hr & Hw)] [Hb Hrq]. pose proof (dlist_add_tail _ _ _ _ Hb R1) as Hd.
  set (H1 := list_add_tail b sdque (sd_que s)) in *.
  set (s1 := SdSt (sd_card s) (sdHostVer s) (sdBaseClock s) (sd_buf s) H1 (sd_woken s) (sd_dev s)).
  set (a' := q_step a (Submit b)).
  assert (∀ s', kept s1 s' → (∃ e', em_rel (sd_dev s') e' ∧ working a' e') → sd_rel s' a') as Hdone.
  { intros s' [K1 K2 K3 K4] Hdev. split; [by rewrite K2|intros c; rewrite K1; apply R2|by rewrite K3|by rewrite K4| |done|done].
    intros c. cbn [a' q_step q_list q_hc q_buf]. rewrite elem_of_app, list_elem_of_singleton. intros [Hc| ->]; [by apply R5|done]. }
  unfold sdrw_begin. mstep (eq_refl (get_sbuf b s)). rewrite R2. 
  destruct (Z.eqb_spec (Z.land (b_flags (q_buf a b)) (Z.lor B_VALID B_DIRTY)) B_VALID) as [Hn|_]; [by destruct (rq_work _ _ Hrq)|].
  mstep (eq_refl (get_que s)). fold H1. mstep (eq_refl (put_que H1 s)). fold s1.
  destruct (q_list a) as [|c l] eqn:Hl.
  - rewrite (proj2 (dlist_empty _ _ _ R1) eq_refl). cbn [when]. unfold working in Hw. rewrite Hl in Hw.
    destruct (start_run s1 a' e b [] Hr Hw R4 Hrq) as (s' & E & K & Hdev); [cbn; by rewrite Hl|].
    exists s'. split; [exact E|]. by apply Hdone.
  - assert (list_empty sdque (sd_que s) = false) as ->.
    { destruct (list_empty sdque (sd_que s)) eqn:He; [|done]. by apply (dlist_empty _ _ _ R1) in He. }
    exists s1. split; [done|]. apply Hdone; [done|]. exists e. split; [done|]. revert Hw. unfold working.
    cbn [a' q_step q_list q_buf]. by rewrite Hl.
Qed.

(** The head of the queue when its interrupt has come. *)
Lemma finish_read s e0 e v n ad :
  em_rel (sd_dev s) e → em_phase e = PRead n ad → em_sector e ad = b_blockno v → em_disk e = em_disk e0 →
  bytes_ok (em_disk e (b_blockno v)) → block_ok (b_data v) → n = 0%nat →
  ∃ x y, (reg_write EMMC_INTERRUPT INT_READ_RDY s = Ret () (with_dev s x)) ∧
    read_data 128 0 (b_data v) (with_dev s x) = Ret (em_disk e0 (b_blockno v)) (with_dev s y) ∧
    ∀ s2, sd_dev s2 = y → ∃ z, sdWaitForInterrupt INT_DATA_DONE s2 = Ret SD_OK (with_dev s2 z) ∧ em_rel z (at_phase e PReady).
Proof.
  intros Hr Hp Hsec Hdk Hb Hdat ->.
  destruct (write_run s e EMMC_INTERRUPT INT_READ_RDY _ Hr (ew_ack_read _ _ Hp)) as (x & e1 & E1 & Hw1 & Hx).
  assert (e1 = at_phase e (PData ad 0)) as ->.
  { em_inv Hw1; rewrite ?Hp in *; simplify_eq; try done; by vm_compute in H0. }
  destruct (read_data_run (em_disk e (b_blockno v)) 127 0 (with_dev s x) _ ad (b_data v) Hx eq_refl) as (y & m & E2 & Hy & Hm);
    [cbn; by rewrite <-Hsec|done|done|done|done|].
  exists x, y. split; [done|]. split; [by rewrite <-Hdk|]. intros s2 Hs2. rewrite <-Hs2 in Hy.
  set (e2 := at_phase (at_phase e (PData ad 0)) (PEnd m)) in *.
  assert (em_phase (due e2) = PEnd 0) as Hdue by done.
  destruct (wait_run INT_DATA_DONE s2 e2 m _ Hy eq_refl Hm eq_refl (ew_ack_end _ Hdue)) as (z & e3 & E3 & Hw3 & Hz).
  exists z. split; [done|].
  assert (e3 = at_phase e PReady) as ->; [|done].
  em_inv Hw3; rewrite ?Hdue in *; simplify_eq; try done; by vm_compute in H0.
Qed.

(** [sd_intr] once the data is in place: [w] is the buffer by then. *)
Definition intr_end (b : Z) : M (sdst D) () :=
  v ← get_sbuf b;
  put_sbuf b (set_flags v (Z.ldiff (Z.lor (b_flags v) B_VALID) B_DIRTY)) ;;
  sd_wakeup b ;;
  H ← get_que;
  put_que (list_del (l_next H sdque) H) ;;
  H ← get_que;
  when (negb (list_empty sdque H)) (v ← get_sbuf (list_first_entry sdque 0 H); sd_start v).

Lemma intr_end_run s a b l e :
  let a' := q_step a Intr in let v := q_buf a b in
  q_list a = b :: l → dlist (sd_que s) sdque (b :: l) → em_rel (sd_dev s) e → em_phase e = PReady →
  em_hc e = q_hc a → em_disk e = q_disk a' → em_writes e = q_writes a' →
  set_flags (sd_buf s b) (Z.ldiff (Z.lor (b_flags (sd_buf s b)) B_VALID) B_DIRTY) = served v (q_disk a (b_blockno v)) →
  (∀ c, c ≠ b → sd_buf s c = q_buf a c) → sd_woken s = q_woken a → (type (sd_card s) =? SD_TYPE_2_HC) = q_hc a →
  (∀ c, c ∈ q_list a → request (q_hc a) (q_buf a c)) → (∀ x, 0 ≤ x → bytes_ok (q_disk a x)) →
  ∃ s', intr_end b s = Ret () s' ∧ sd_rel s' a'.
Proof.
  intros a' v Hl Hq Hr Hp Hhc Hdk Hwr Hsv Hbuf Hwk Hty Hreq Hok.
  pose proof (dlist_next_head _ _ _ Hq) as Hnx. cbn [List.hd] in Hnx. pose proof (dlist_del _ _ [] b l Hq) as Hdel. cbn [app] in Hdel.
  set (w := served v (q_disk a (b_blockno v))) in *. set (H2 := list_del b (sd_que s)) in *.
  set (s3 := SdSt (sd_card s) (sdHostVer s) (sdBaseClock s) (upd (sd_buf s) b w) H2 (sd_woken s ++ [b]) (sd_dev s)).
  assert (∀ k : M (sdst D) (), (v ← get_sbuf b;
    put_sbuf b (set_flags v (Z.ldiff (Z.lor (b_flags v) B_VALID) B_DIRTY)) ;;
    sd_wakeup b ;; H ← get_que; put_que (list_del (l_next H sdque) H) ;; k) s = k s3) as E.
  { intros k. unfold get_sbuf, put_sbuf, sd_wakeup, get_que, put_que, gets, modify, mbind, M_bind.
    cbn [sd_card sdHostVer sdBaseClock sd_buf sd_que sd_woken sd_dev]. rewrite Hsv, Hnx. reflexivity. }
  unfold intr_end. rewrite E. mstep (eq_refl (get_que s3)). cbn [s3 sd_que].
  assert (q_list a' = l ∧ q_hc a' = q_hc a ∧ q_buf a' = upd (q_buf a) b w ∧ q_woken a' = q_woken a ++ [b] ∧
    q_disk a' = served_disk v (q_disk a)) as (A1 & A2 & A3 & A4 & A5) by (unfold a'; cbn [q_step]; by rewrite Hl).
  destruct Hq as [Hnd _]. apply NoDup_cons in Hnd as [Hh Hnd]. apply NoDup_cons in Hnd as [Hbl _].
  assert (∀ c, sd_buf s3 c = q_buf a' c) as Hb3.
  { intros c. rewrite A3. cbn [s3 sd_buf]. rewrite !upd_case. case_decide; [done|]. by apply Hbuf. }
  assert (∀ s', kept s3 s' → (∃ e', em_rel (sd_dev s') e' ∧ working a' e') → sd_rel s' a') as Hdone.
  { intros s' [K1 K2 K3 K4] Hdev. split; [rewrite K2, A1; exact Hdel|intros c; rewrite K1; apply Hb3| |rewrite K4, A2; exact Hty| | |done].
    - rewrite K3, A4. cbn [s3 sd_woken]. by rewrite Hwk.
    - intros c. rewrite A1, A2, A3. intros Hc. rewrite upd_ne by (by intros ->). apply Hreq. rewrite Hl. by right.
    - rewrite A5. apply (served_disk_ok (q_hc a)); [|done]. apply Hreq. rewrite Hl. by left. }
  destruct l as [|c l'].
  - rewrite (proj2 (dlist_empty _ _ _ Hdel) eq_refl). cbn [negb when]. exists s3. split; [done|]. apply Hdone; [done|].
    exists e. split; [exact Hr|]. unfold working. rewrite A1. by rewrite <-A2 in Hhc.
  - assert (list_empty sdque H2 = false) as ->.
    { destruct (list_empty sdque H2) eqn:He; [|done]. by apply (dlist_empty _ _ _ Hdel) in He. }
    cbn [negb when]. unfold list_first_entry, container_of. rewrite (dlist_next_head _ _ _ Hdel), Z.sub_0_r. cbn [List.hd].
    mstep (eq_refl (get_sbuf c s3)). rewrite Hb3.
    destruct (start_run s3 a' e c l' Hr) as (s' & E' & K & Hdev); [by rewrite <-A2 in Hhc|by rewrite A2| |done|].
    + rewrite A2, A3. rewrite upd_ne by set_solver. apply Hreq. rewrite Hl. set_solver.
    + exists s'. split; [exact E'|]. by apply Hdone.
Qed.

Lemma intr_run s a :
  sd_rel s a → ∃ s', run_act Intr s = Ret () s' ∧ sd_rel s' (q_step a Intr).
Proof.
  intros [R1 R2 R3 R4 R5 R6 (e & Hr & Hw)]. pose proof (em_fire_law _ _ Hr) as Hf.
  cbn [run_act]. mstep (eq_refl (modify fire s)). set (s1 := fire s). unfold sd_intr.
  mstep (eq_refl (get_que s1)). change (sd_que s1) with (sd_que s).
  destruct (q_list a) as [|b l] eqn:Hl; unfold working in Hw; rewrite Hl in Hw.
  - rewrite (proj2 (dlist_empty _ _ _ R1) eq_refl). destruct Hw as (I1 & I2 & I3 & I4).
    assert (due e = e) as He by (unfold due; rewrite I1; destruct e; cbn in *; by subst).
    rewrite He in Hf. destruct (read_int s1 e Hf) as (d & E & Hd). exists (with_dev s1 d).
    split; [unfold peek; by mstep E|]. cbn [q_step]. rewrite Hl.
    split; try done; [by rewrite Hl|by rewrite Hl|]. exists e. split; [done|]. unfold working. by rewrite Hl.
  - assert (list_empty sdque (sd_que s) = false) as ->.
    { destruct (list_empty sdque (sd_que s)) eqn:He; [|done]. by apply (dlist_empty _ _ _ R1) in He. }
    destruct Hw as (e0 & (I1 & I2 & I3 & I4) & [S1 S2 S3 S4]). set (v := q_buf a b) in *.
    assert (request (q_hc a) v) as Hrq by (apply R5; left).
    destruct (read_int s1 (due e) Hf) as (d & E & Hd).
    assert (list_first_entry sdque 0 (sd_que s) = b) as Hfirst.
    { unfold list_first_entry, container_of. rewrite (dlist_next_head _ _ _ R1). apply Z.sub_0_r. }
    assert (q_step a Intr = Que (q_hc a) l (upd (q_buf a) b (served v (q_disk a (b_blockno v)))) (served_disk v (q_disk a))
      (served_writes v (q_writes a)) (q_woken a ++ [b])) as Hst by (cbn [q_step]; by rewrite Hl).
    mstep E. destruct (any (b_flags v) B_DIRTY) eqn:Hdirty.
    + destruct S4 as [n Hp]. unfold due. rewrite Hp. cbn [em_phase at_phase sooner min flag_of].
      change (negb (any INT_DATA_DONE INT_DATA_DONE || any INT_DATA_DONE INT_READ_RDY)) with false. cbv iota.
      assert (em_phase (due e) = PEnd 0) as Hdue by (unfold due; by rewrite Hp).
      destruct (write_run (with_dev s1 d) (due e) EMMC_INTERRUPT INT_DATA_DONE _ Hd (ew_ack_end _ Hdue)) as (d2 & e2 & E2 & Hw2 & Hd2).
      assert (e2 = at_phase e PReady) as ->.
      { em_inv Hw2; rewrite ?Hdue in *; simplify_eq; try done; by vm_compute in H0. }
      mstep E2. rewrite Hfirst. mstep (eq_refl (get_sbuf b (with_dev (with_dev s1 d) d2))).
      change (sd_buf (with_dev (with_dev s1 d) d2) b) with (sd_buf s b). rewrite R2. fold v. rewrite Hdirty.
      change (INT_DATA_DONE =? INT_DATA_DONE) with true. cbn [andb orb negb when].
      mstep (eq_refl ((mret () : M (sdst D) ()) (with_dev (with_dev s1 d) d2))).
      destruct (intr_end_run (with_dev (with_dev s1 d) d2) a b l _ Hl R1 Hd2) as (s' & E' & Hs'); rewrite ?Hst; try done.
      * cbn [at_phase em_hc]. by rewrite S1.
      * cbn [at_phase em_disk q_disk]. by rewrite S2, I3.
      * cbn [at_phase em_writes q_writes]. by rewrite S3, I4.
      * change (sd_buf (with_dev (with_dev s1 d) d2) b) with (sd_buf s b). rewrite R2. fold v. unfold served. by rewrite Hdirty.
      * intros c _. apply R2.
      * by rewrite Hl.
      * rewrite <-Hst. by exists s'.
    + destruct S4 as (n & ad & Hp & Hsec). unfold due. rewrite Hp. cbn [em_phase at_phase sooner min flag_of].
      change (negb (any INT_READ_RDY INT_DATA_DONE || any INT_READ_RDY INT_READ_RDY)) with false. cbv iota.
      assert (em_phase (due e) = PRead 0 ad) as Hdue by (unfold due; by rewrite Hp).
      assert (served_disk v (em_disk e0) = q_disk a) as Hsd by (unfold served_disk; by rewrite Hdirty).
      destruct (finish_read (with_dev s1 d) (due e) (due e) v 0 ad Hd Hdue) as (x & y & E2 & E3 & Hend);
        [exact Hsec|done| |apply Hrq|done|].
      { cbn [due at_phase em_disk]. rewrite S2, Hsd. apply R6. by apply (request_sector (q_hc a)). }
      mstep E2. rewrite Hfirst. mstep (eq_refl (get_sbuf b (with_dev (with_dev s1 d) x))).
      change (sd_buf (with_dev (with_dev s1 d) x) b) with (sd_buf s b). rewrite R2. fold v. rewrite Hdirty.
      change (negb (INT_READ_RDY =? 0)) with true. cbn [andb orb negb when].
      assert (em_disk (due e) (b_blockno v) = q_disk a (b_blockno v)) as Hval by (cbn [due at_phase em_disk]; by rewrite S2, Hsd).
      rewrite Hval in E3.
      set (s4 := SdSt (sd_card s1) (sdHostVer s1) (sdBaseClock s1) (upd (sd_buf s1) b (with_data v (q_disk a (b_blockno v))))
        (sd_que s1) (sd_woken s1) y).
      destruct (Hend s4 eq_refl) as (z & E4 & Hz).
      destruct (intr_end_run (with_dev s4 z) a b l _ Hl R1 Hz) as (s' & E' & Hs'); rewrite ?Hst; try done.
      * cbn [due at_phase em_hc]. by rewrite S1.
      * cbn [due at_phase em_disk q_disk]. rewrite S2. by unfold served_disk; rewrite Hdirty.
      * cbn [due at_phase em_writes q_writes]. rewrite S3, I4. done.
      * change (sd_buf (with_dev s4 z) b) with (upd (sd_buf s1) b (with_data v (q_disk a (b_blockno v))) b). rewrite upd_eq.
        unfold served. fold v. by rewrite Hdirty.
      * intros c Hc. change (sd_buf (with_dev s4 z) c) with (upd (sd_buf s1) b (with_data v (q_disk a (b_blockno v))) c).
        rewrite upd_ne by done. apply R2.
      * by rewrite Hl.
      * rewrite <-Hst. exists s'. split; [|done]. erewrite mbind_ret; [exact E'|].
        mstep E3. mstep (eq_refl (put_sbuf b (with_data v (q_disk a (b_blockno v))) (with_dev (with_dev (with_dev s1 d) x) y))).
        by mstep E4.
Qed.

Definition q_run a (xs : list act) : que := fold_left q_step xs a.

Lemma act_run s a x :
  sd_rel s a → act_ok a x → ∃ s', run_act x s = Ret () s' ∧ sd_rel s' (q_step a x).
Proof.
  intros Hrel Hx. destruct x as [b| |b v]; [by apply submit_run|by apply intr_run|].
  destruct Hrel as [R1 R2 R3 R4 R5 R6 (e & Hr & Hw)]. cbn [act_ok run_act q_step] in *.
  eexists. split; [reflexivity|]. split; try done.
  - intros c. cbn. rewrite !upd_case. by rewrite R2.
  - intros c Hc. cbn in *. rewrite upd_ne by (by intros ->). by apply R5.
  - exists e. split; [done|]. revert Hw. unfold working. cbn [q_list]. destruct (q_list a) as [|c l]; [done|].
    cbn [q_buf]. by rewrite upd_ne by set_solver.
Qed.
Lemma acts_run xs : ∀ s a, sd_rel s a → acts_ok a xs → ∃ s', run_acts xs s = Ret () s' ∧ sd_rel s' (q_run a xs).
Proof.
  induction xs as [|x xs IH]; intros s a Hr Hok; [by exists s|]. destruct Hok as [Hx Hok].
  destruct (act_run s a x Hr Hx) as (s1 & E1 & R1). destruct (IH s1 _ R1 Hok) as (s2 & E2 & R2).
  exists s2. split; [|done]. cbn [run_acts]. by mstep E1.
Qed.

(** The flags after a request. *)
Lemma served_done v d : Z.land (b_flags (served v d)) (Z.lor B_VALID B_DIRTY) = B_VALID.
Proof.
  cbn [served set_flags b_flags]. apply Z.bits_inj'. intros n Hn.
  rewrite Z.land_spec, Z.ldiff_spec, !Z.lor_spec. unfold B_VALID, B_DIRTY.
  destruct (Z.testbit 2 n) eqn:H2; [|by destruct (Z.testbit 4 n), (Z.testbit (b_flags v) n)].
  destruct (decide (n = 1)) as [->|]; [by destruct (Z.testbit (b_flags v) 1)|].
  change 2 with (2 ^ 1) in H2. by rewrite Z.pow2_bits_false in H2 by lia.
Qed.
Lemma wait_sleeps s a b : sd_rel s a → b ∈ q_list a → sdrw_wait b s = Sleep b.
Proof.
  intros Hr Hb. unfold sdrw_wait. mstep (eq_refl (get_sbuf b s)). rewrite (sr_buf _ _ Hr).
  pose proof (rq_work _ _ (sr_req _ _ Hr b Hb)) as Hw. by destruct (Z.eqb_spec (Z.land (b_flags (q_buf a b)) (Z.lor B_VALID B_DIRTY)) B_VALID).
Qed.
Lemma wait_returns s a b v d : sd_rel s a → q_buf a b = served v d → sdrw_wait b s = Ret () s.
Proof.
  intros Hr Hb. unfold sdrw_wait. mstep (eq_refl (get_sbuf b s)). by rewrite (sr_buf _ _ Hr), Hb, served_done, Z.eqb_refl.
Qed.

(** The requests of a queue served one after the other. *)
Definition serial_disk (bufs : Z → buf) (l : list Z) (d : Z → block) : Z → block := fold_left (λ d b, served_disk (bufs b) d) l d.
Lemma drain l : ∀ a, q_list a = l → NoDup l →
  let a' := q_run a (replicate (length l) Intr) in
  q_list a' = [] ∧ q_woken a' = q_woken a ++ l ∧ q_disk a' = serial_disk (q_buf a) l (q_disk a) ∧
  (∀ b, b ∉ l → q_buf a' b = q_buf a b) ∧
  ∀ l1 b l2, l = l1 ++ b :: l2 →
    q_buf a' b = served (q_buf a b) (serial_disk (q_buf a) l1 (q_disk a) (b_blockno (q_buf a b))).
Proof.
  induction l as [|c l IH]; intros a Hl Hnd.
  { cbn. rewrite app_nil_r. split_and!; try done. intros l1 b l2 He. by destruct l1. }
  apply NoDup_cons in Hnd as [Hc Hnd]. cbn [length replicate q_run fold_left]. fold (q_run (q_step a Intr) (replicate (length l) Intr)).
  set (a1 := q_step a Intr). assert (q_list a1 = l) as Hl1 by (unfold a1; cbn [q_step]; by rewrite Hl).
  destruct (IH a1 Hl1 Hnd) as (I1 & I2 & I3 & I4 & I5). set (a' := q_run a1 _) in *.
  assert (q_buf a1 = upd (q_buf a) c (served (q_buf a c) (q_disk a (b_blockno (q_buf a c)))) ∧
    q_disk a1 = served_disk (q_buf a c) (q_disk a) ∧ q_woken a1 = q_woken a ++ [c]) as (A1 & A2 & A3)
    by (unfold a1; cbn [q_step]; by rewrite Hl).
  assert (∀ l' d, c ∉ l' → serial_disk (q_buf a1) l' d = serial_disk (q_buf a) l' d) as Hser.
  { intros l'. unfold serial_disk. induction l' as [|x l' IH']; intros d Hx; [done|]. cbn [fold_left].
    assert (q_buf a1 x = q_buf a x) as -> by (rewrite A1; apply upd_ne; set_solver). apply IH'. set_solver. }
  split; [done|]. split; [by rewrite I2, A3, <-app_assoc|].
  split; [rewrite I3, A2, Hser by done; reflexivity|]. split.
  - intros b Hb. rewrite I4 by set_solver. rewrite A1. apply upd_ne. set_solver.
  - intros l1 b l2 He. destruct l1 as [|x l1]; cbn in He; injection He as -> ->.
    + rewrite I4 by done. rewrite A1, upd_eq. done.
    + rewrite (I5 l1 b l2 eq_refl). assert (q_buf a1 b = q_buf a b) as -> by (rewrite A1; apply upd_ne; set_solver).
      rewrite A2, Hser by set_solver. done.
Qed.

(** C10: every sequence of submissions and interrupts does to the buffers, the
    disk and the sleeping processes what a first-in-first-out queue does that
    serves one request at each interrupt; no step panics, and [sdrw] waits as
    long as the buffer is in the queue and no longer. *)
Theorem sd_queue_refines s a xs :
  sd_rel s a → acts_ok a xs →
  let a' := q_run a xs in
  ∃ s', run_acts xs s = Ret () s' ∧ sd_rel s' a' ∧
    (∀ b, b ∈ q_list a' → sdrw_wait b s' = Sleep b) ∧
    (∀ b v d, q_buf a' b = served v d → sdrw_wait b s' = Ret () s').
Proof.
  intros Hr Hok a'. destruct (acts_run xs s a Hr Hok) as (s' & E & R). exists s'.
  split; [done|]. split; [done|]. split; [intros b; by apply wait_sleeps|intros b v d; by apply wait_returns].
Qed.

(** C11: after as many interrupts as there are requests in the queue all of them
    have been served in their order, each reading the disk as the requests
    before it have left it, and all their processes have been woken. *)
Theorem sd_queue_drains s a :
  sd_rel s a →
  ∃ s', run_acts (replicate (length (q_list a)) Intr) s = Ret () s' ∧
    list_empty sdque (sd_que s') = true ∧ sd_woken s' = sd_woken s ++ q_list a ∧
    (∃ e, em_rel (sd_dev s') e ∧ em_phase e = PReady ∧ em_disk e = serial_disk (sd_buf s) (q_list a) (q_disk a)) ∧
    ∀ l1 b l2, q_list a = l1 ++ b :: l2 →
      sdrw_wait b s' = Ret () s' ∧
      sd_buf s' b = served (sd_buf s b) (serial_disk (sd_buf s) l1 (q_disk a) (b_blockno (sd_buf s b))).
Proof.
  intros Hr. set (xs := replicate (length (q_list a)) Intr).
  assert (∀ n a, acts_ok a (replicate n Intr)) as Hok by (induction n; intros; by split || done).
  destruct (acts_run xs s a Hr (Hok _ _)) as (s' & E & R).
  assert (NoDup (q_list a)) as Hnd by (destruct (sr_list _ _ Hr) as [Hn _]; by apply NoDup_cons in Hn as [_ Hn]).
  destruct (drain (q_list a) a eq_refl Hnd) as (I1 & I2 & I3 & I4 & I5). fold xs in I1, I2, I3, I4, I5.
  assert (∀ l d, serial_disk (sd_buf s) l d = serial_disk (q_buf a) l d) as Hser.
  { intros l. unfold serial_disk. induction l as [|x l IH]; intros d; [done|]. cbn [fold_left]. by rewrite (sr_buf _ _ Hr x), IH. }
  exists s'. split; [done|]. split; [apply (dlist_empty _ _ (q_list (q_run a xs))); [apply R|exact I1]|].
  split; [by rewrite (sr_woken _ _ R), I2, (sr_woken _ _ Hr)|]. split.
  - destruct (sr_dev _ _ R) as (e & He & Hw). unfold working in Hw. rewrite I1 in Hw. destruct Hw as (W1 & W2 & W3 & W4).
    exists e. rewrite Hser, <-I3. done.
  - intros l1 b l2 Hl. pose proof (I5 l1 b l2 Hl) as Hb. rewrite (sr_buf _ _ R), (sr_buf _ _ Hr), Hser.
    split; [exact (wait_returns _ _ _ _ _ R Hb)|exact Hb].
Qed.
End Queue.
