(* ===== verification/SdExample.v ===== *)
(** A controller in memory that satisfies class [Emmc], and two requests on
    it: the second one reads the block that the first one writes. *)

From S2P Require Import Prelude Dlist Sleeplock BufferCache Bio Mmio SdRegs Sd SdQueue Emmc SdSpec.

(** Flags come up after two polls. *)
Definition dev_read (r : Z) (e : em) : Z * em :=
  if r =? EMMC_INTERRUPT then (flag_of (em_phase e), e)
  else if r =? EMMC_DATA then
    match em_phase e with
    | PData a k => (get32 (em_disk e (em_sector e a)) (4 * k), at_phase e (if (k <? 127)%nat then PData a (S k) else PEnd 2))
    | _ => (0, e)
    end
  else (0, e).
Definition dev_write (r v : Z) (e : em) : em :=
  match em_phase e with
  | PReady =>
    if r =? EMMC_BLKSIZECNT then Em (em_hc e) (em_disk e) (em_writes e) v PReady
    else if r =? EMMC_ARG1 then at_phase e (PArmed v) else e
  | PArmed a => if r =? EMMC_CMDTM then at_phase e (PSent 2 (v =? 0x18220000) a) else e
  | PSent 0 w a => if (r =? EMMC_INTERRUPT) && (v =? INT_CMD_DONE) then at_phase e (if w then PWrite 2 a else PRead 2 a) else e
  | PRead 0 a => if (r =? EMMC_INTERRUPT) && (v =? INT_READ_RDY) then at_phase e (PData a 0) else e
  | PWrite 0 a => if (r =? EMMC_INTERRUPT) && (v =? INT_WRITE_RDY) then at_phase e (PFill a []) else e
  | PFill a ws =>
    if r =? EMMC_DATA then if (length ws <? 127)%nat then at_phase e (PFill a (ws ++ [v])) else stored e a (ws ++ [v]) 2
    else e
  | PEnd 0 => if (r =? EMMC_INTERRUPT) && (v =? INT_DATA_DONE) then at_phase e PReady else e
  | _ => e
  end.

#[export] Instance mem_mmio : Mmio em := {
  io_read := dev_read; io_write := dev_write; io_delay _ e := e;
  io_delayus _ e := at_phase e (sooner (Z.to_nat 1000) (em_phase e));
}.

Lemma limit_2 : (2 < poll_limit)%nat.
Proof. with_strategy transparent [poll_limit] unfold poll_limit. lia. Qed.

Lemma dev_read_law e r v0 e0 : em_read e r v0 e0 → ∃ v e', dev_read r e = (v, e') ∧ em_read e r v e'.
Proof.
  pose proof limit_2 as H2. intros Hr. eexists _, _. split; [apply surjective_pairing|].
  destruct Hr as [|v Hp Hv|n a v Hp Hv|n a v Hp Hv|a k Hp Hk|a n Hp Hn]; cbn [fst snd].
  - change (dev_read EMMC_INTERRUPT e) with (flag_of (em_phase e), e). apply er_interrupt.
  - change (dev_read EMMC_STATUS e) with (0, e). by apply er_status.
  - change (dev_read EMMC_RESP0 e) with (0, e). by apply (er_resp_read _ n a).
  - change (dev_read EMMC_RESP0 e) with (0, e). by apply (er_resp_write _ n a).
  - unfold dev_read. rewrite Hp. change (EMMC_DATA =? EMMC_INTERRUPT) with false. change (EMMC_DATA =? EMMC_DATA) with true. cbn iota.
    destruct (Nat.ltb_spec k 127); [|lia]. by apply er_data.
  - unfold dev_read. rewrite Hp. change (EMMC_DATA =? EMMC_INTERRUPT) with false. change (EMMC_DATA =? EMMC_DATA) with true. cbn iota.
    by apply er_data_last.
Qed.
Lemma dev_write_law e r v e0 : em_write e r v e0 → em_write e r v (dev_write r v e).
Proof.
  pose proof limit_2 as H2. intros Hw. unfold dev_write.
  destruct Hw as [v Hp|a Hp|a n Hp Hb Hn|a n Hp Hb Hn|v Hf|a n Hp|a n Hp Hn|a Hp|a Hp|Hp|a ws v Hp Hl|a ws v n Hp Hl]; rewrite ?Hp.
  - by apply ew_blksz.
  - by apply ew_arg.
  - by apply ew_cmd_read.
  - by apply ew_cmd_write.
  - assert (∀ f e', flag_of (em_phase e) = f → f ∈ flags → em_write e EMMC_INTERRUPT v
      (if (EMMC_INTERRUPT =? EMMC_INTERRUPT) && (v =? f) then e' else e)) as Hcase.
    { intros f e' Hfl Hin. rewrite Z.eqb_refl. cbn [andb]. destruct (Z.eqb_spec v f) as [->|]; [|by apply ew_ack_none].
      exfalso. rewrite Hfl in Hf. revert Hf. unfold flags in Hin. rewrite !elem_of_cons, elem_of_nil in Hin.
      by destruct Hin as [-> |[-> |[-> |[-> |[]]]]]; vm_compute. }
    destruct (em_phase e) as [|a|[|n] w a|[|n] a|a k|[|n] a|a ws|[|n]] eqn:Hp;
      try (apply Hcase; [done|unfold flags; set_solver]);
      change (EMMC_INTERRUPT =? EMMC_BLKSIZECNT) with false; change (EMMC_INTERRUPT =? EMMC_ARG1) with false;
      change (EMMC_INTERRUPT =? EMMC_CMDTM) with false; change (EMMC_INTERRUPT =? EMMC_DATA) with false;
      apply ew_ack_none; by rewrite Hp.
  - by apply ew_ack_cmd_read.
  - by apply ew_ack_cmd_write.
  - by apply ew_ack_read.
  - by apply ew_ack_write.
  - by apply ew_ack_end.
  - change (EMMC_DATA =? EMMC_DATA) with true. destruct (Nat.ltb_spec (length ws) 127); [|lia]. by apply ew_data.
  - change (EMMC_DATA =? EMMC_DATA) with true. destruct (Nat.ltb_spec (length ws) 127); [lia|]. by apply ew_data_last.
Qed.

#[export, refine] Instance mem_emmc : Emmc em := { em_rel d e := d = e; em_fire := due }.
Proof.
  - by intros d e ->.
  - intros d e r v0 e0 -> Hr. destruct (dev_read_law _ _ _ _ Hr) as (v & e' & E & Hv). by exists v, e', e'.
  - intros d e r v e0 -> Hw. exists (dev_write r v e). split; [by eapply dev_write_law|done].
  - intros d e us -> Hu. by exists (Z.to_nat 1000).
Defined.

(** Buffer 100 is to be written to block 5, which buffer 200 is to read. *)
Definition sevens : block := replicate (Z.to_nat BSIZE) 7.
Definition ex_sbuf (b : Z) : buf :=
  if b =? 100 then mkBuf B_DIRTY ROOTDEV 5 1 sevens initsleeplock
  else mkBuf 0 ROOTDEV 5 1 (replicate (Z.to_nat BSIZE) 0) initsleeplock.
Definition ex_head : Z := 1.
Definition ex_em : em := Em true (λ _, replicate (Z.to_nat BSIZE) 0) [] 0 PReady.
Definition ex_sd : sdst em :=
  SdSt (with_card_type sdCard0 SD_TYPE_2_HC) 0 0 ex_sbuf (INIT_LIST_HEAD ex_head (mkLheap (λ _, 0) (λ _, 0))) [] ex_em.
Definition ex_que : que := Que true [] ex_sbuf (em_disk ex_em) [] [].

Lemma bytes_replicate x : is_byte x → bytes_ok (replicate (Z.to_nat BSIZE) x).
Proof. intros Hx. split; [apply length_replicate|by apply Forall_replicate]. Qed.
Lemma ex_sd_rel : sd_rel ex_head ex_sd ex_que.
Proof.
  split; [apply dlist_init|done|done|done|by intros b ?%not_elem_of_nil| |].
  - intros x _. apply bytes_replicate. unfold is_byte. lia.
  - by exists ex_em.
Qed.
Lemma ex_request b : request true (ex_sbuf b).
Proof.
  unfold ex_sbuf. destruct (b =? 100); split; cbn; try done; try lia.
  intros _. apply (bytes_replicate 7). unfold is_byte. lia.
Qed.
Lemma ex_acts_ok xs : acts_ok ex_head (q_run ex_que [Submit 100; Submit 200]) (replicate xs Intr) →
  acts_ok ex_head ex_que (Submit 100 :: Submit 200 :: replicate xs Intr).
Proof.
  intros Hx. split; [split; [unfold ex_head; set_solver by lia|apply ex_request]|].
  split; [split; [unfold ex_head; cbn; set_solver by lia|apply ex_request]|exact Hx].
Qed.

Lemma sd_queue_refines_witness :
  ∃ s', run_acts ex_head [Submit 100; Submit 200; Intr; Intr] ex_sd = Ret () s' ∧
    sd_woken s' = [100; 200] ∧ b_data (sd_buf s' 200) = sevens ∧ sdrw_wait 200 s' = Ret () s'.
Proof.
  destruct (sd_queue_refines ex_head ex_sd ex_que [Submit 100; Submit 200; Intr; Intr] ex_sd_rel (ex_acts_ok 2 (conj I (conj I I))))
    as (s' & E & R & _ & Hw).
  exists s'. split; [exact E|]. split; [exact (sr_woken _ _ _ R)|]. split.
  - rewrite (sr_buf _ _ _ R). reflexivity.
  - apply (Hw 200 (ex_sbuf 200) sevens). reflexivity.
Defined.

Lemma sd_queue_drains_witness :
  ∃ s s', run_acts ex_head [Submit 100; Submit 200] ex_sd = Ret () s ∧
    run_acts ex_head [Intr; Intr] s = Ret () s' ∧ sd_woken s' = [100; 200] ∧
    sdrw_wait 200 s' = Ret () s' ∧ b_data (sd_buf s' 200) = sevens.
Proof.
  destruct (acts_run ex_head [Submit 100; Submit 200] ex_sd ex_que ex_sd_rel (ex_acts_ok 0 I)) as (s & E & R).
  destruct (sd_queue_drains ex_head s _ R) as (s' & E' & _ & Hwk & _ & Hb).
  exists s, s'. split; [exact E|]. split; [exact E'|]. rewrite (sr_woken _ _ _ R) in Hwk. split; [exact Hwk|].
  destruct (Hb [100] 200 [] eq_refl) as [H1 H2]. split; [exact H1|]. rewrite H2.
  unfold serial_disk. cbn [fold_left]. rewrite !(sr_buf _ _ _ R). reflexivity.
Defined.
