(* ===== verification/SdCard.v ===== *)
(** The SD card driver, decoding of the card's registers: the capacity that
    [sdParseCSD] computes, against the fields of the SD specification. *)

From S2P Require Import Prelude SdRegs Sd.

(** ** Bit fields *)

(** Bits [hi..lo] of a register. *)
Definition bits (r hi lo : Z) : Z := Z.shiftr r lo mod 2 ^ (hi - lo + 1).

Lemma bits_testbit r hi lo n :
  0 ≤ lo ≤ hi → 0 ≤ n → Z.testbit (bits r hi lo) n = (n <? hi - lo + 1) && Z.testbit r (n + lo).
Proof.
  intros Hl Hn. unfold bits. destruct (Z.ltb_spec n (hi - lo + 1)).
  - rewrite Z.mod_pow2_bits_low by lia. by rewrite Z.shiftr_spec by lia.
  - by rewrite Z.mod_pow2_bits_high by lia.
Qed.

(** [(w & mask) >> k] is a bit field when the mask is one. *)
Lemma mask_bits w mask k n :
  0 ≤ k → 0 < n → mask = Z.shiftl (Z.ones n) k → Z.shiftr (Z.land w mask) k = bits w (k + n - 1) k.
Proof.
  intros Hk Hn ->. apply Z.bits_inj'. intros i Hi. rewrite bits_testbit by lia.
  rewrite Z.shiftr_spec, Z.land_spec, Z.shiftl_spec by lia. replace (i + k - k) with i by lia.
  replace (k + n - 1 - k + 1) with n by lia. destruct (Z.ltb_spec i n).
  - rewrite Z.ones_spec_low by lia. by rewrite andb_true_r.
  - by rewrite Z.ones_spec_high, andb_false_r by lia.
Qed.
(** A field of a word of the register. *)
Lemma bits_bits r hi lo h l :
  0 ≤ lo → 0 ≤ l ≤ h → lo + h ≤ hi → bits (bits r hi lo) h l = bits r (lo + h) (lo + l).
Proof.
  intros Hlo Hl Hh. apply Z.bits_inj'. intros i Hi. rewrite !bits_testbit by lia.
  replace (lo + h - (lo + l) + 1) with (h - l + 1) by lia.
  destruct (Z.ltb_spec i (h - l + 1)); [|done]. cbn [andb]. destruct (Z.ltb_spec (i + l) (hi - lo + 1)); [|lia].
  cbn [andb]. f_equal. lia.
Qed.
Lemma bits_range r hi lo : lo ≤ hi → 0 ≤ bits r hi lo < 2 ^ (hi - lo + 1).
Proof. intros Hl. apply Z.mod_pos_bound. apply Z.pow_pos_nonneg; lia. Qed.

(** The CSD register as the controller delivers it, without its lowest byte. *)
Definition csd_words (r : Z) : list Z := [bits r 135 104; bits r 103 72; bits r 71 40; bits r 39 8].

Lemma csd_field r i hi lo mask k n :
  nth i (csd_words r) 0 = bits r hi lo → 0 ≤ lo → 0 ≤ k → 0 < n → lo + (k + n - 1) ≤ hi → mask = Z.shiftl (Z.ones n) k →
  Z.shiftr (Z.land (nth i (csd_words r) 0) mask) k = bits r (lo + (k + n - 1)) (lo + k).
Proof. intros Hw Hlo Hk Hn Hh Hm. rewrite Hw, (mask_bits _ _ k n Hk Hn Hm). apply bits_bits; lia. Qed.

Lemma bits_split r hi mid lo :
  0 ≤ lo < mid → mid ≤ hi → bits r hi lo = Z.shiftl (bits r hi mid) (mid - lo) + bits r (mid - 1) lo.
Proof.
  intros Hl Hh. unfold bits. rewrite Z.shiftl_mul_pow2, !Z.shiftr_div_pow2 by lia.
  replace (hi - lo + 1) with ((mid - 1 - lo + 1) + (hi - mid + 1)) by lia. rewrite Z.pow_add_r by lia.
  rewrite Z.rem_mul_r by (apply Z.pow_nonzero || apply Z.pow_pos_nonneg; lia).
  rewrite Z.div_div by (apply Z.pow_nonzero || apply Z.pow_pos_nonneg; lia). rewrite <-Z.pow_add_r by lia.
  replace (lo + (mid - 1 - lo + 1)) with mid by lia. replace (mid - 1 - lo + 1) with (mid - lo) by lia. lia.
Qed.

Lemma mask_zero w mask k n :
  0 ≤ k → 0 < n → mask = Z.shiftl (Z.ones n) k → (Z.land w mask =? 0) = (Z.shiftr (Z.land w mask) k =? 0).
Proof.
  intros Hk Hn ->. assert (Z.land w (Z.shiftl (Z.ones n) k) = Z.shiftl (Z.shiftr (Z.land w (Z.shiftl (Z.ones n) k)) k) k) as He.
  { apply Z.bits_inj'. intros i Hi. rewrite Z.land_spec, Z.shiftl_spec, Z.shiftl_spec by lia. destruct (Z.ltb_spec i k).
    - by rewrite !(Z.testbit_neg_r _ (i - k)), andb_false_r by lia.
    - rewrite Z.shiftr_spec, Z.land_spec, Z.shiftl_spec by lia. by replace (i - k + k) with i by lia. }
  set (x := Z.land w _) in *. destruct (Z.eqb_spec (Z.shiftr x k) 0) as [H0|H0].
  - by rewrite He, H0, Z.shiftl_0_l.
  - destruct (Z.eqb_spec x 0) as [Hx|]; [|done]. by rewrite Hx, Z.shiftr_0_l in H0.
Qed.

(** C12: the capacity that [sdParseCSD] computes is the one that the SD
    specification defines by the fields CSD_STRUCTURE, C_SIZE, C_SIZE_MULT and
    READ_BL_LEN of the 128-bit register, for both versions of it. *)
Theorem csd_capacity_correct r :
  csd_capacity (csd_words r) =
    if bits r 127 126 =? 0 then (bits r 73 62 + 1) * 2 ^ (bits r 49 47 + 2) * 2 ^ bits r 83 80
    else (bits r 69 48 + 1) * 512 * 1024.
Proof.
  assert (∀ i hi lo mask k n x y, nth i (csd_words r) 0 = bits r hi lo → 0 ≤ lo ∧ 0 ≤ k ∧ 0 < n ∧ lo + (k + n - 1) ≤ hi →
    mask = Z.shiftl (Z.ones n) k → lo + (k + n - 1) = x → lo + k = y →
    Z.shiftr (Z.land (nth i (csd_words r) 0) mask) k = bits r x y) as Hf.
  { intros i hi lo mask k n x y Hw (H1 & H2 & H3 & H4) Hm <- <-. by apply (csd_field r i hi lo). }
  unfold csd_capacity.
  rewrite (mask_zero _ CSD0_VERSION 22 2), (Hf 0%nat 135 104 _ 22 2 127 126) by (done || lia).
  rewrite (Hf 2%nat 71 40 _ CSD2V1_C_SIZEL_SHIFT 10 71 62) by (done || (unfold CSD2V1_C_SIZEL_SHIFT; lia)).
  rewrite (Hf 2%nat 71 40 _ CSD2V1_C_SIZE_MULT_SHIFT 3 49 47) by (done || (unfold CSD2V1_C_SIZE_MULT_SHIFT; lia)).
  rewrite (Hf 1%nat 103 72 _ CSD1VN_READ_BL_LEN_SHIFT 4 83 80) by (done || (unfold CSD1VN_READ_BL_LEN_SHIFT; lia)).
  rewrite (Hf 2%nat 71 40 _ CSD2V2_C_SIZE_SHIFT 22 69 48) by (done || (unfold CSD2V2_C_SIZE_SHIFT; lia)).
  rewrite <-(Z.shiftr_0_r (Z.land (nth 1%nat (csd_words r) 0) CSD1V1_C_SIZEH)).
  rewrite (Hf 1%nat 103 72 _ 0 2 73 72) by (done || lia).
  pose proof (bits_range r 49 47 ltac:(lia)). pose proof (bits_range r 83 80 ltac:(lia)).
  pose proof (bits_range r 73 62 ltac:(lia)). pose proof (bits_range r 69 48 ltac:(lia)).
  destruct (bits r 127 126 =? 0).
  - change CSD1V1_C_SIZEH_SHIFT with (72 - 62). change 71 with (72 - 1). rewrite <-bits_split by lia. rewrite !Z.shiftl_1_l. apply w64_small.
    set (a := bits r 73 62) in *. set (b := bits r 49 47) in *. set (c := bits r 83 80) in *.
    assert (0 < 2 ^ (b + 2) ≤ 2 ^ 9) by (split; [apply Z.pow_pos_nonneg; lia|apply Z.pow_le_mono_r; lia]).
    assert (0 < 2 ^ c ≤ 2 ^ 15) by (split; [apply Z.pow_pos_nonneg; lia|apply Z.pow_le_mono_r; lia]).
    assert ((a + 1) * 2 ^ (b + 2) ≤ 2 ^ 12 * 2 ^ 9) by (apply Z.mul_le_mono_nonneg; lia).
    split; [nia|]. eapply Z.le_lt_trans; [apply (Z.mul_le_mono_nonneg _ (2 ^ 12 * 2 ^ 9) _ (2 ^ 15)); nia|lia].
  - apply w64_small. lia.
Qed.
