(* ===== verification/SdInit.v ===== *)
(** Bringing up the SD card, on any device whatsoever: [sdInit] returns within
    its counts of polls, never follows a null pointer, and when it succeeds the
    card is ready for the queue of requests. *)

From S2P Require Import Prelude Memory Dlist BufferCache Bio Mmio Triple SdRegs Sd SdQueue.

(** ** Commands *)

(** From here on nothing starves: the mailbox answers. *)
#[local] Instance no_faults : Faults := {| starve := False; panics := False |}.
Lemma preserves_clock_rate {S D} `{!Mmio D, !Lens S D} (P : S → Prop) fuel buf :
  (∀ s d, P s → P (lset d s)) → Z.land (V2P buf) 0xF = 0 → (∀ s : S, mbox_get_clock_rate fuel buf s ≠ NoFuel) →
  preserves P (mbox_get_clock_rate fuel buf).
Proof.
  intros Hdev Hb Hn s Hs. pose proof (preserves_mbox_clock_rate (H := {| starve := True; panics := False |}) P Hdev fuel buf I Hb s Hs) as H.
  specialize (Hn s). by destruct (mbox_get_clock_rate fuel buf s).
Qed.

Section Init.
Context {D : Type} `{!Mmio D}.
Implicit Types (s : sdst D) (P : sdst D → Prop).

Definition on_card (f : SDDescriptor → SDDescriptor) s : sdst D :=
  SdSt (f (sd_card s)) (sdHostVer s) (sdBaseClock s) (sd_buf s) (sd_que s) (sd_woken s) (sd_dev s).

(** What most of the driver may change: the device, the versions of the host,
    the last command, the status and the registers of the card but the CSD. *)
Record frame P : Prop := {
  fr_dev s d : P s → P (lset d s);
  fr_last s ix arg : P s → P (on_card (λ c, with_last c (Some ix) arg) s);
  fr_status s r st x : P s → P (on_card (λ c, with_status c r st x) s);
  fr_ocr s v : P s → P (on_card (λ c, with_ocr c v) s);
  fr_cid s l : P s → P (on_card (λ c, with_cid c l) s);
  fr_scr s l : P s → P (on_card (λ c, with_scr c l) s);
  fr_support s v : P s → P (on_card (λ c, add_support c v) s);
  fr_host s v w : P s → P (SdSt (sd_card s) v w (sd_buf s) (sd_que s) (sd_woken s) (sd_dev s));
}.
(** A command has been sent. *)
Definition sent s : Prop := lastCmd (sd_card s) ≠ None.

Lemma frame_sent : frame sent.
Proof. by split. Qed.
Lemma frame_and P Q : frame P → frame Q → frame (λ s, P s ∧ Q s).
Proof. intros [] []. split; naive_solver. Qed.

Section Commands.
Context P (HF : frame P).
Let Hdev := fr_dev P HF.

Lemma preserves_mod_card f : (∀ s, P s → P (on_card f s)) → preserves P (mod_card f).
Proof. intros Hf s. apply Hf. Qed.
Hint Resolve preserves_reg_read preserves_reg_write preserves_delay preserves_delayus preserves_peek
  preserves_reg_update preserves_test_reg : preserve.
Hint Extern 4 (triple _ (mod_card _) _) => apply preserves_mod_card; intros ? ?; apply HF : preserve.

(** [preserve] with loops. *)
Local Ltac preserve_loop :=
  repeat (preserve; lazymatch goal with
    | |- triple _ (while_post _ _ _) _ => apply preserves_while_post
    | |- triple _ (while_pre _ _ _) _ => apply preserves_while_pre
    end); preserve.
Lemma preserves_get_card : preserves P get_card.
Proof. apply preserves_gets. Qed.
Hint Resolve preserves_get_card : preserve.
Lemma preserves_sd_delayus n : preserves P (sd_delayus n).
Proof. unfold sd_delayus. preserve. Qed.
Hint Resolve preserves_sd_delayus : preserve.
Lemma preserves_WaitForInterrupt mask : preserves P (sdWaitForInterrupt mask).
Proof. unfold sdWaitForInterrupt. preserve_loop. Qed.
Lemma preserves_inhibited m : preserves P (inhibited m).
Proof. unfold inhibited. preserve. Qed.
Hint Resolve preserves_WaitForInterrupt preserves_inhibited : preserve.
Lemma preserves_busy_if b : preserves P (busy_if b).
Proof. unfold busy_if. preserve. Qed.
Hint Resolve preserves_busy_if : preserve.
Lemma preserves_WaitForCommand : preserves P sdWaitForCommand.
Proof. unfold sdWaitForCommand. preserve_loop. Qed.
Lemma preserves_WaitForData : preserves P sdWaitForData.
Proof. unfold sdWaitForData. preserve_loop. Qed.
Hint Resolve preserves_WaitForCommand preserves_WaitForData : preserve.

(** The command [ix] exists, has a known response, and changes the CSD only
    where [P] allows it. *)
Definition fits (ix : Z) : Prop :=
  0 ≤ ix ∧ ∃ c, sdCommandTable !! Z.to_nat ix = Some c ∧
    cmd_resp c ∈ [RESP_NO; RESP_R1; RESP_R1b; RESP_R2I; RESP_R2S; RESP_R3; RESP_R6; RESP_R7] ∧
    (cmd_resp c = RESP_R2S → ∀ s l, P s → P (on_card (λ d, with_csd d l) s)).

Lemma preserves_handle_response resp arg r0 :
  resp ∈ [RESP_NO; RESP_R1; RESP_R1b; RESP_R2I; RESP_R2S; RESP_R3; RESP_R6; RESP_R7] →
  (resp = RESP_R2S → ∀ s l, P s → P (on_card (λ d, with_csd d l) s)) →
  preserves P (handle_response resp arg r0).
Proof.
  intros Hin Hcsd.
  assert (∀ v, preserves P (mod_card (λ c, with_ocr (with_status c (rca c) (cardState c) 0) v))) as Hocr.
  { intros v. apply preserves_mod_card. intros s Hs.
    apply (fr_ocr P HF (on_card (λ c, with_status c (rca c) (cardState c) 0) s)), (fr_status P HF _ _ _ _ Hs). }
  assert (∀ r st x, preserves P (mod_card (λ c, with_status c (r c) (st c) x))) as Hst.
  { intros r st x. apply preserves_mod_card. intros s Hs. apply (fr_status P HF _ _ _ _ Hs). }
  set_unfold in Hin.
  destruct Hin as [-> |[-> |[-> |[-> |[-> |[-> |[-> |[-> |[]]]]]]]]]; unfold handle_response; cbn [Z.eqb orb Pos.eqb RESP_NO RESP_R1 RESP_R1b
    RESP_R2I RESP_R2S RESP_R3 RESP_R6 RESP_R7]; preserve; try apply Hst; try apply Hocr.
  apply preserves_mod_card. intros s. by apply Hcsd.
Qed.

Lemma preserves_table ix c : 0 ≤ ix → sdCommandTable !! Z.to_nat ix = Some c → triple P (array_get sdCommandTable ix) (λ x s, x = c ∧ P s).
Proof. intros H0 Hc s Hs. unfold array_get. destruct (Z.ltb_spec ix 0); [lia|]. by rewrite Hc. Qed.

Lemma preserves_debug r : (∀ s, P s → sent s) → preserves P (sdDebugResponse r).
Proof.
  intros Hsent s Hs. pose proof (Hsent s Hs) as Hl. unfold sent in Hl.
  assert (preserves P (peek EMMC_RESP3 ;; peek EMMC_RESP2 ;; peek EMMC_RESP1 ;; peek EMMC_RESP0 ;;
    peek EMMC_STATUS ;; peek EMMC_CONTROL1 ;; peek EMMC_INTERRUPT ;; mret r)) as H by preserve.
  unfold sdDebugResponse. erewrite mbind_ret; [|reflexivity]. destruct (lastCmd (sd_card s)); [by apply H|done].
Qed.
End Commands.

Lemma fits_sent P ix : fits P ix → fits (λ s, P s ∧ sent s) ix.
Proof. intros (H0 & c & Hc & Hr & Hcsd). split; [done|]. exists c. split; [done|]. split; [done|]. intros E s l [Hs Hl]. split; [by apply Hcsd|done]. Qed.

Lemma triple_SendCommandP P ix arg :
  frame P → fits P ix → triple P (sdSendCommandP ix arg) (λ r s, P s ∧ (r = SD_BUSY ∨ sent s)).
Proof.
  intros HF Hfit. pose proof (fits_sent _ _ Hfit) as (_ & c' & Hc' & Hr & Hcsd). destruct Hfit as (H0 & c & Hc & _).
  assert (c' = c) as -> by congruence. pose proof (frame_and _ _ HF frame_sent) as HF'.
  unfold sdSendCommandP. eapply triple_bind; [by apply preserves_table|]. intros x. apply triple_pure. intros ->.
  eapply triple_bind; [by apply preserves_WaitForCommand|]. intros r. apply triple_if; intros _.
  { intros s Hs. cbn. tauto. }
  eapply triple_conseq with (P' := P) (Q' := λ _ s, P s ∧ sent s); [|done|tauto].
  eapply triple_bind with (R := λ _ s, P s ∧ sent s).
  { apply triple_modify. intros s Hs. split; [by apply (fr_last P HF)|done]. }
  intros _. pose proof (fr_dev _ HF') as Hdev. 
  pose proof (preserves_reg_read _ Hdev) as H1. pose proof (preserves_reg_write _ Hdev) as H2.
  pose proof (preserves_sd_delayus _ HF') as H3. pose proof (preserves_WaitForInterrupt _ HF') as H4.
  pose proof (preserves_handle_response _ HF' (cmd_resp c) arg) as H5. preserve.
Qed.

Lemma fits_plain P ix c :
  0 ≤ ix → sdCommandTable !! Z.to_nat ix = Some c →
  cmd_resp c ∈ [RESP_NO; RESP_R1; RESP_R1b; RESP_R2I; RESP_R3; RESP_R6; RESP_R7] → fits P ix.
Proof.
  intros H0 Hc Hr. split; [done|]. exists c. split; [done|]. split; [set_solver|]. intros E. rewrite E in Hr.
  set_unfold in Hr. by repeat destruct Hr as [Hr|Hr].
Qed.
Local Ltac plain := by (eapply fits_plain; [|reflexivity|cbn; set_solver]).

Lemma triple_send P ix (command : M (sdst D) Z) :
  ix < IX_APP_CMD_START → triple P command (λ r s, P s ∧ (r = SD_BUSY ∨ sent s)) →
  triple P (send ix command) (λ r s, P s ∧ (r = SD_BUSY ∨ sent s)).
Proof.
  intros Hix Hc. unfold send. destruct (Z.leb_spec IX_APP_CMD_START ix); [lia|].
  eapply triple_bind; [apply triple_ret|]. intros r. apply triple_pure. intros ->. cbn [Z.eqb negb].
  eapply triple_bind; [exact Hc|]. intros r. apply triple_if; intros _; [by intros s Hs|].
  apply preserves_then; [apply preserves_gets|]. intros c s Hs. exact Hs.
Qed.

Section Card.
Context P (HF : frame P) (Hsent : ∀ s, P s → sent s).
Let Hdev := fr_dev P HF.

#[local] Hint Resolve preserves_reg_read preserves_reg_write preserves_delay preserves_delayus preserves_peek
  preserves_reg_update preserves_test_reg preserves_get_card preserves_sd_delayus preserves_WaitForInterrupt
  preserves_WaitForCommand preserves_WaitForData preserves_debug : preserve.
#[local] Hint Extern 4 (triple _ (mod_card _) _) => apply preserves_mod_card; intros ? ?; apply HF : preserve.

Lemma preserves_SendCommandP ix arg : fits P ix → preserves P (sdSendCommandP ix arg).
Proof. intros Hf. eapply (triple_conseq P P); [by apply triple_SendCommandP|done|cbn; tauto]. Qed.
Hint Resolve preserves_SendCommandP : preserve.
Lemma preserves_SendAppCommand : preserves P sdSendAppCommand.
Proof.
  assert (fits P IX_APP_CMD) by plain. assert (fits P IX_APP_CMD_RCA) by plain. unfold sdSendAppCommand. preserve.
Qed.
Hint Resolve preserves_SendAppCommand : preserve.
Lemma preserves_send ix command : preserves P command → preserves P (send ix command).
Proof. intros Hc. unfold send. preserve. Qed.
Lemma preserves_SendCommandA ix arg : fits P ix → preserves P (sdSendCommandA ix arg).
Proof. intros Hf. apply preserves_send. preserve. Qed.
Lemma preserves_SendCommand ix : fits P ix → preserves P (sdSendCommand ix).
Proof.
  intros Hf. apply preserves_send. pose proof Hf as (H0 & c & Hc & _).
  apply preserves_bind; [|intros x; preserve].
  eapply (triple_conseq P P); [by apply preserves_table|done|by intros x s []].
Qed.
Hint Resolve preserves_SendCommand preserves_SendCommandA : preserve.

Local Ltac preserve_option :=
  repeat (preserve; match goal with
    | |- triple _ (match ?x with Some _ => _ | None => _ end) _ => destruct x
    | |- triple _ (match ?x with (_, _) => _ end) _ => destruct x
    end).
Lemma preserves_scr_word n : preserves P (scr_word n).
Proof.
  assert (∀ m, preserves P (scr_word m) → preserves P (scr_word (S m))) as Hs.
  { intros m Hm. cbn [scr_word]. destruct m; preserve. }
  induction n; [cbn [scr_word]; preserve|by apply Hs].
Qed.
Hint Resolve preserves_scr_word : preserve.
Lemma preserves_ReadSCR : preserves P sdReadSCR.
Proof.
  assert (fits P IX_SEND_SCR) by plain. unfold sdReadSCR, scr_timeout, set_scr, support_if. preserve_option.
Qed.
Lemma preserves_opcond_retry n arg : preserves P (opcond_retry n arg).
Proof. assert (fits P IX_APP_SEND_OP_COND) by plain. induction n; cbn [opcond_retry]; preserve. Qed.
Hint Resolve preserves_opcond_retry : preserve.
Lemma preserves_AppSendOpCond arg : preserves P (sdAppSendOpCond arg).
Proof. assert (fits P IX_APP_SEND_OP_COND) by plain. unfold sdAppSendOpCond. preserve_option. Qed.
Lemma triple_debug_if m k Q :
  triple P m (λ _, P) → triple P k Q → (∀ r s, P s → Q r s) → triple P (debug_if m k) Q.
Proof.
  intros Hm Hk HQ. unfold debug_if. apply preserves_then; [done|]. intros r. apply triple_if; intros _; [|done].
  eapply (triple_conseq P P); [by apply preserves_debug|done|auto].
Qed.
Lemma triple_return_if m k Q :
  triple P m (λ _, P) → triple P k Q → (∀ r s, P s → Q r s) → triple P (return_if m k) Q.
Proof.
  intros Hm Hk HQ. unfold return_if. apply preserves_then; [done|]. intros r. apply triple_if; intros _; [|done].
  eapply (triple_conseq P P); [by apply preserves_ret|done|auto].
Qed.
End Card.

(** ** Clock, reset and initialisation *)

Section Setup.
Context P (HF : frame P).
Let Hdev := fr_dev P HF.

#[local] Hint Resolve preserves_reg_read preserves_reg_write preserves_delay preserves_delayus preserves_peek
  preserves_reg_update preserves_test_reg preserves_sd_delayus : preserve.

Lemma preserves_SetClock freq : preserves P (sdSetClock freq).
Proof.
  unfold sdSetClock. apply preserves_bind; [apply preserves_while_pre; preserve|]. intros n. preserve.
  apply preserves_while_post; preserve.
Qed.
Lemma preserves_InitGPIO : preserves P sdInitGPIO.
Proof. unfold sdInitGPIO, pull_up. preserve. Qed.
Lemma preserves_GetBaseClock fuel buf :
  Z.land (V2P buf) 0xF = 0 → (∀ s : sdst D, mbox_get_clock_rate fuel buf s ≠ NoFuel) → preserves P (sdGetBaseClock fuel buf).
Proof.
  intros Hb Hn. unfold sdGetBaseClock. apply preserves_bind; [by apply preserves_clock_rate|]. intros v.
  apply preserves_bind; [|intros; preserve]. intros s Hs. by apply (fr_host P HF).
Qed.

Lemma triple_ResetCard t :
  (∀ s, P s → P (on_card reset_fields s)) → triple P (sdResetCard t) (λ r s, P s ∧ (r = 0 → sent s)).
Proof.
  intros Hreset. unfold sdResetCard. pose proof preserves_SetClock as Hclk.
  assert (∀ r, r ≠ 0 → triple P (mret r) (λ r s, P s ∧ (r = 0 → sent s))) as Hret by (intros r Hr s Hs; by split).
  do 3 (apply preserves_then; [preserve|intros ?]).
  apply preserves_then; [apply preserves_while_post; preserve|]. intros n. apply triple_if; intros _; [by apply Hret|].
  do 2 (apply preserves_then; [preserve|intros ?]).
  apply preserves_then; [preserve|]. intros r. apply triple_if; [|intros _].
  { intros Hr. apply Hret. by destruct (Z.eqb_spec r 0). }
  do 2 (apply preserves_then; [preserve|intros ?]).
  apply preserves_then; [by apply preserves_mod_card|]. intros _.
  eapply triple_conseq; [apply (triple_send P IX_GO_IDLE_STATE)|done|].
  - done.
  - apply preserves_then; [|intros x; apply preserves_then; [apply preserves_gets|intros c]].
    + eapply (triple_conseq P P); [by eapply (preserves_table P IX_GO_IDLE_STATE)|done|by intros x s []].
    + apply triple_SendCommandP; [done|]. plain.
  - intros v s [Hs [-> |Hl]]; by split.
Qed.
End Setup.

(** *** What is known at each stage *)

Context (s0 : sdst D).

Definition card_type_ok s : Prop := type (sd_card s) ∈ [SD_TYPE_1; SD_TYPE_2_SC; SD_TYPE_2_HC].
(** The capacity and the file format are those of the CSD. *)
Definition csd_known s : Prop :=
  capacity (sd_card s) = csd_capacity (csd (sd_card s)) ∧
  fileFormat (sd_card s) ∈ [CSD3VN_FILE_FORMAT_HDD; CSD3VN_FILE_FORMAT_DOSFAT].
Definition same_queue s : Prop := sd_buf s = sd_buf s0 ∧ sd_que s = sd_que s0 ∧ sd_woken s = sd_woken s0.
Definition starting s : Prop := init (sd_card s) = 0 ∧ same_queue s.
Definition typed s : Prop := (starting s ∧ card_type_ok s) ∧ sent s.
Definition described s : Prop := ((starting s ∧ card_type_ok s) ∧ csd_known s) ∧ sent s.
Definition ready s : Prop := init (sd_card s) = 1 ∧ same_queue s ∧ card_type_ok s ∧ csd_known s.

Lemma frame_starting : frame starting.
Proof. split; intros; assumption. Qed.
Lemma frame_typed : frame typed.
Proof. apply (frame_and _ _); [split; intros; assumption|apply frame_sent]. Qed.
Lemma frame_described : frame described.
Proof. apply (frame_and _ _); [split; intros; assumption|apply frame_sent]. Qed.
Hint Resolve frame_starting frame_typed frame_described : core.
Lemma typed_sent s : typed s → sent s.
Proof. by intros []. Qed.
Lemma described_sent s : described s → sent s.
Proof. by intros []. Qed.
Lemma starting_sent_sent s : starting s ∧ sent s → sent s.
Proof. by intros []. Qed.
Hint Resolve typed_sent described_sent starting_sent_sent : core.

(** [sdInit] gave up, or the card is ready. *)
Definition settled (r : Z) s : Prop := starting s ∨ ready s.
Lemma typed_settled r s : typed s → settled r s.
Proof. intros [[Hs _] _]. by left. Qed.
Lemma described_settled r s : described s → settled r s.
Proof. intros [[[Hs _] _] _]. by left. Qed.
Lemma starting_settled r s : starting s ∧ sent s → settled r s.
Proof. intros [Hs _]. by left. Qed.
Hint Resolve typed_settled described_settled starting_settled : core.

Lemma fits_csd P ix : frame P → (∀ s l, P s → P (on_card (λ d, with_csd d l) s)) → ix = IX_SEND_CSD → fits P ix.
Proof. intros _ Hc ->. split; [done|]. eexists. split; [reflexivity|]. split; [cbn; set_solver|done]. Qed.

Lemma triple_configure_rest oldCID :
  triple described (
    debug_if (sdSetClock FREQ_NORMAL) (
    debug_if (sdSendCommand IX_CARD_SELECT) (
    debug_if sdReadSCR (
    c ← get_card;
    debug_if (if any (support c) SD_SUPP_BUS_WIDTH_4 then
                resp ← sdSendCommandA IX_SET_BUS_WIDTH (Z.lor (rca c) 2);
                when (resp =? 0) (reg_update EMMC_CONTROL0 0 C0_HCTL_DWITDH) ;;
                mret resp
              else mret 0) (
    debug_if (sdSendCommandA IX_SET_BLOCKLEN 512) (
    sdParseCID ;;
    mod_card (λ c, with_init c 1 (absent c)) ;;
    c ← get_card;
    mret (if bool_decide (oldCID = cid c) then SD_CARD_REINSERTED else SD_CARD_CHANGED))))))) settled.
Proof.
  assert (fits described IX_CARD_SELECT) by plain. assert (fits described IX_SET_BUS_WIDTH) by plain.
  assert (fits described IX_SET_BLOCKLEN) by plain.
  apply (triple_debug_if described); [auto..|apply preserves_SetClock; auto| |auto].
  apply (triple_debug_if described); [auto..|apply preserves_SendCommand; auto| |auto].
  apply (triple_debug_if described); [auto..|apply preserves_ReadSCR; auto| |auto].
  apply preserves_then; [apply preserves_get_card|]. intros c.
  apply (triple_debug_if described); [auto..| | |auto].
  { pose proof (preserves_SendCommandA described ltac:(auto) ltac:(auto) IX_SET_BUS_WIDTH) as Hb.
    pose proof (preserves_reg_update described (fr_dev _ frame_described)) as Hr. preserve. }
  apply (triple_debug_if described); [auto..|apply preserves_SendCommandA; auto| |auto].
  apply preserves_then; [unfold sdParseCID; preserve; apply preserves_get_card|]. intros _.
  intros s [[[[Hi Hq] Ht] Hk] _]. right. by split.
Qed.

Lemma triple_configure oldCID : triple typed (configure oldCID) settled.
Proof.
  assert (fits typed IX_ALL_SEND_CID) by plain. assert (fits typed IX_SEND_REL_ADDR) by plain.
  assert (fits typed IX_SEND_CSD) by (by apply fits_csd). unfold configure.
  apply (triple_return_if typed); [auto..|unfold sdSwitchVoltage; preserve; apply preserves_get_card| |auto].
  apply (triple_debug_if typed); [auto..|apply preserves_SendCommand; auto| |auto].
  apply (triple_debug_if typed); [auto..|apply preserves_SendCommand; auto| |auto].
  apply (triple_debug_if typed); [auto..|apply preserves_SendCommand; auto| |auto].
  eapply triple_bind with (R := λ _ s, typed s ∧ capacity (sd_card s) = csd_capacity (csd (sd_card s))).
  { intros s Hs. by split. }
  intros _. eapply triple_bind; [apply triple_gets|]. intros c s (-> & Hs & Hc).
  pose proof (proj1 (proj1 Hs)) as Hst.
  destruct (Z.eqb_spec (fileFormat (sd_card s)) CSD3VN_FILE_FORMAT_DOSFAT) as [Hf|Hf];
    [|destruct (Z.eqb_spec (fileFormat (sd_card s)) CSD3VN_FILE_FORMAT_HDD) as [Hf'|Hf']; [|by left]].
  - apply triple_configure_rest. destruct Hs. split; [split; [done|split; [done|rewrite Hf; set_solver]]|done].
  - apply triple_configure_rest. destruct Hs. split; [split; [done|split; [done|rewrite Hf'; set_solver]]|done].
Qed.

Lemma triple_identify k : triple typed k settled → triple (λ s, starting s ∧ sent s) (identify k) settled.
Proof.
  intros Hk. unfold identify. pose (P := λ s, starting s ∧ sent s).
  assert (frame P) as HF by (apply frame_and; [auto|apply frame_sent]).
  assert (∀ v, v ∈ [SD_TYPE_1; SD_TYPE_2_SC; SD_TYPE_2_HC] → triple P (mod_card (λ c, with_card_type c v) ;; k) settled) as Htype.
  { intros v Hv. eapply triple_bind with (R := λ _, typed); [|intros _; exact Hk]. intros s [Hs Hl]. by split. }
  assert (fits P IX_SEND_IF_COND) by plain.
  apply (preserves_then P); [by apply preserves_SendCommandA; auto|]. intros r. apply triple_if; intros _.
  - apply preserves_then; [by apply preserves_delay, fr_dev|]. intros _.
    apply (triple_debug_if P); [auto..|apply preserves_AppSendOpCond; auto| |auto].
    intros s Hs. unfold mod_card. erewrite mbind_ret; [|reflexivity]. cbn beta.
    destruct (any (ocr (sd_card s)) R3_CCS).
    + apply (Htype SD_TYPE_2_HC); [set_solver|done].
    + apply (Htype SD_TYPE_2_SC); [set_solver|done].
  - apply triple_if; intros _.
    { intros s Hs. by apply starting_settled. }
    unfold return_if at 1. eapply triple_bind with (R := λ r s, starting s ∧ (r = 0 → sent s)).
    { apply preserves_then; [by apply preserves_test_reg, fr_dev|]. intros b. apply triple_if; intros _.
      - eapply (triple_conseq _ starting); [apply (triple_ResetCard starting); auto|by intros s []|by intros r' s].
      - intros s [Hs Hl]. by split. }
    intros r'. destruct (Z.eqb_spec r' 0) as [-> |Hr]; cbn [negb]; [|intros s [Hs _]; by left].
    apply (triple_conseq _ P _ _ settled); [|by intros s []; split; auto|done].
    apply (triple_debug_if P); [auto..|apply preserves_AppSendOpCond; auto|apply Htype; set_solver|auto].
Qed.

Lemma triple_sdInit fuel buf :
  Z.land (V2P buf) 0xF = 0 → (∀ s : sdst D, mbox_get_clock_rate fuel buf s ≠ NoFuel) → triple starting (sdInit fuel buf) settled.
Proof.
  intros Hb Hn. unfold sdInit. pose proof (fr_dev _ frame_starting) as Hdev.
  eapply triple_bind with (R := λ c s, init c = 0 ∧ starting s).
  { intros s Hs. split; [apply Hs|done]. }
  intros c. apply triple_pure. intros Hi. rewrite Hi. change (0 =? 0) with true.
  apply preserves_then; [apply preserves_when, preserves_InitGPIO; auto|]. intros _.
  apply preserves_then; [by apply preserves_reg_read|]. intros v.
  apply preserves_then; [apply preserves_mod_card; by intros s []|]. intros _.
  eapply triple_bind with (R := λ c s, init c = 0 ∧ starting s).
  { intros s Hs. split; [apply Hs|done]. }
  intros c1. apply triple_pure. intros Hi1. rewrite Hi1. change (0 =? 0) with true. rewrite andb_false_r. cbn [negb].
  apply preserves_then; [apply preserves_ret|]. intros _.
  eapply triple_bind with (R := λ c s, init c = 0 ∧ starting s).
  { intros s Hs. split; [apply Hs|done]. }
  intros c2. apply triple_pure. intros Hi2. rewrite Hi2. change (0 =? 0) with true. cbn [negb].
  apply preserves_then; [by apply preserves_reg_read|]. intros w.
  apply preserves_then; [apply triple_modify; intros s Hs; exact Hs|]. intros _.
  apply (triple_return_if starting); [apply preserves_GetBaseClock; auto| |by left].
  unfold return_if. eapply triple_bind; [by apply triple_ResetCard; auto|].
  intros r. cbn beta. destruct (Z.eqb_spec r 0) as [-> |Hr]; cbn [negb]; [|intros s [Hs _]; by left].
  apply (triple_conseq _ (λ s, starting s ∧ sent s) _ _ settled); [apply triple_identify, triple_configure|by intros s []; split; auto|done].
Qed.

(** C18: whatever the device does, [sdInit] returns: every wait for the card is
    bounded, and no null pointer is followed.  Either initialisation failed, and
    the card stays uninitialised, or the card has one of the three known types
    and its capacity and file format are those of its CSD register.  The mailbox
    must answer, since waiting for it has no bound in the code. *)
Theorem sdInit_returns fuel buf :
  init (sd_card s0) = 0 → Z.land (V2P buf) 0xF = 0 → (∀ s : sdst D, mbox_get_clock_rate fuel buf s ≠ NoFuel) →
  ∃ r s, sdInit fuel buf s0 = Ret r s ∧ same_queue s ∧
    (init (sd_card s) = 0 ∨ (init (sd_card s) = 1 ∧ card_type_ok s ∧ csd_known s)).
Proof.
  intros Hi Hb Hn. pose proof (triple_sdInit fuel buf Hb Hn s0 (conj Hi (conj eq_refl (conj eq_refl eq_refl)))) as H.
  destruct (sdInit fuel buf s0) as [r s| | | |]; [|done..]. exists r, s. split; [done|].
  destruct H as [[H1 H2]|(H1 & H2 & H3 & H4)]; [by split; [|left]|by split; [|right]].
Qed.
End Init.

(** ** [sd_init] *)

Section Start.
Context {D : Type} `{!Mmio D} (sdque : Z).
Implicit Types (s : sdst D).

Definition may_panic : Faults := {| starve := False; panics := True |}.
Lemma triple_may_panic {S A} (P : S → Prop) (m : M S A) Q : triple P m Q → triple (H := may_panic) P m Q.
Proof. intros Hm s Hs. specialize (Hm s Hs). by destruct (m s). Qed.

Lemma frame_ready s0 : frame (ready s0).
Proof. split; intros; assumption. Qed.

(** Reading the first block panics or changes the device and the card only. *)
Lemma triple_first_block s0 :
  triple (H := may_panic) (ready s0) (
    sd_start buf0 ;; sdWaitForInterrupt INT_READ_RDY ;; d ← read_data 128 0 (b_data buf0);
    sdWaitForInterrupt INT_DATA_DONE ;;
    let part i := get32 d (0x1CE + 4 * i) in mret [Z.land (part 1%nat) 0xff; part 2%nat; part 3%nat])
  (λ _, ready s0).
Proof.
  pose proof (frame_ready s0) as HF. pose proof (fr_dev _ HF) as Hdev.
  pose proof (λ m, triple_may_panic _ _ _ (preserves_WaitForInterrupt _ HF m)) as Hw.
  assert (∀ n k d, triple (H := may_panic) (ready s0) (read_data n k d) (λ _, ready s0)) as Hr.
  { induction n as [|n IH]; intros k d; cbn [read_data]; [by apply preserves_ret|].
    apply preserves_bind; [by apply preserves_reg_read|]. intros w. apply IH. }
  apply preserves_bind; [|intros _; apply preserves_bind; [apply Hw|intros _; apply preserves_bind; [apply Hr|intros d]]].
  - unfold sd_start. change (any (b_flags buf0) B_DIRTY) with false. unfold no_interrupt.
    apply preserves_bind; [by apply preserves_gets|]. intros c.
    apply preserves_bind; [apply preserves_bind; [by apply preserves_reg_read|]|].
    { intros v. apply preserves_if; [by apply preserves_ret|by intros s Hs]. }
    intros _. apply preserves_bind; [by apply preserves_reg_write|]. intros _.
    apply preserves_bind; [apply triple_may_panic|].
    { eapply (triple_conseq (ready s0) (ready s0)); [apply triple_send|done|by intros r s []]; [done|].
      apply triple_SendCommandP; [done|]. eapply fits_plain; [done|reflexivity|cbn; set_solver]. }
    intros r. apply preserves_if; [by intros s Hs|]. by apply preserves_ret.
  - apply preserves_bind; [apply Hw|]. intros _. by apply preserves_ret.
Qed.

(** C19: [sd_init] panics, or it returns with an empty queue and a card that is
    ready: initialised, of a known type, and with the capacity and the file
    format of its CSD register.  The result of [sdInit], which [sd_init] does
    not look at, makes no difference. *)
Theorem sd_init_ready fuel buf s :
  init (sd_card s) = 0 → Z.land (V2P buf) 0xF = 0 → (∀ s1 : sdst D, mbox_get_clock_rate fuel buf s1 ≠ NoFuel) →
  match sd_init sdque fuel buf s with
  | Ret _ s' => dlist (sd_que s') sdque [] ∧ sd_buf s' = sd_buf s ∧ sd_woken s' = sd_woken s ∧
                init (sd_card s') = 1 ∧ card_type_ok s' ∧ csd_known s'
  | Panic _ => True
  | _ => False
  end.
Proof.
  intros Hi Hb Hn. unfold sd_init. erewrite mbind_ret; [|reflexivity]. erewrite mbind_ret; [|reflexivity].
  set (s0 := SdSt _ _ _ _ _ _ _). assert (dlist (sd_que s0) sdque []) as Hd by apply dlist_init.
  destruct (sdInit_returns s0 fuel buf Hi Hb Hn) as (r & s1 & E & Hq & H1).
  erewrite mbind_ret; [|exact E]. erewrite mbind_ret; [|reflexivity].
  destruct H1 as [H0|(H1 & Ht & Hc)]; [by rewrite H0|]. rewrite H1. change (1 =? 0) with false. cbn iota.
  pose proof (triple_first_block s0 s1 ltac:(done)) as H.
  match goal with |- match ?m with _ => _ end => destruct m as [l s2| | | |] end; [|done..].
  destruct H as (H2 & (Hb2 & Hq2 & Hw2) & H3 & H4). by rewrite Hq2, Hb2, Hw2.
Qed.
End Start.
