(* ===== verification/SdInitExample.v ===== *)
(** A card in memory that answers every command at once, and [sd_init] on it. *)

From S2P Require Import Prelude Memory Dlist BufferCache Bio Mmio SdRegs Sd SdQueue SdInit.

(** The index of the last command, the interrupt flags, whether data are to
    follow, how many words of them, and the block size register. *)
Record card_dev := CardDev { cd_cmd : Z; cd_flags : Z; cd_data : bool; cd_left : Z; cd_blk : Z }.

(** [RESP0]: check pattern, operating conditions, address, or card status. *)
Definition card_resp0 (cmd : Z) : Z :=
  if cmd =? 0x08 then 0x1AA else if cmd =? 0x29 then 0xC0FF8000 else if cmd =? 0x03 then 0x12340500
  else if (cmd =? 0x02) || (cmd =? 0x09) then 0 else 0x920.
Definition card_read (r : Z) (d : card_dev) : Z * card_dev :=
  if r =? EMMC_INTERRUPT then (cd_flags d, d)
  else if r =? EMMC_STATUS then (SR_READ_AVAILABLE, d)
  else if r =? EMMC_CONTROL1 then (C1_CLK_STABLE, d)
  else if r =? EMMC_RESP0 then (card_resp0 (cd_cmd d), d)
  else if r =? EMMC_RESP1 then (0x003B3700, d)
  else if r =? EMMC_RESP2 then (0x325B5900, d)
  else if r =? EMMC_RESP3 then (0x00400E00, d)
  else if r =? EMMC_DATA then
    (0x00000500, CardDev (cd_cmd d) (if cd_left d =? 1 then Z.lor (cd_flags d) INT_DATA_DONE else cd_flags d) (cd_data d)
                   (cd_left d - 1) (cd_blk d))
  else if r =? MBOX_READ then (8, d)
  else (0, d).
Definition card_write (r v : Z) (d : card_dev) : card_dev :=
  if r =? EMMC_CMDTM then CardDev (Z.shiftr v 24) INT_CMD_DONE (any v CMD_IS_DATA) (Z.land (cd_blk d) 0xFFFF / 4) (cd_blk d)
  else if r =? EMMC_INTERRUPT then
    let fl := Z.ldiff (cd_flags d) v in
    CardDev (cd_cmd d) (if any v INT_CMD_DONE && cd_data d then Z.lor fl INT_READ_RDY else fl) (cd_data d) (cd_left d) (cd_blk d)
  else if r =? EMMC_BLKSIZECNT then CardDev (cd_cmd d) (cd_flags d) (cd_data d) (cd_left d) v
  else d.
#[export] Instance card_mmio : Mmio card_dev := {
  io_read := card_read; io_write := card_write; io_delay _ d := d; io_delayus _ d := d;
}.

Definition ex_stack : Z := KERNBASE + 0x1000.
Definition ex_power_on : sdst card_dev :=
  SdSt sdCard0 0 0 (λ _, buf0) (mkLheap (λ _, 0) (λ _, 0)) [] (CardDev 0 0 false 0 0).

Lemma card_mailbox (s : sdst card_dev) : mbox_get_clock_rate 1 ex_stack s ≠ NoFuel.
Proof. destruct s as [c hv bc b q w [cmd fl da le bl]]. by vm_compute. Qed.

(** What the two runs below give: the result, and the type of the card. *)
Definition init_result : option (Z * Z) :=
  match sdInit 1 ex_stack ex_power_on with Ret r s => Some (r, type (sd_card s)) | _ => None end.
Definition sd_init_result : option (list Z * Z * Z) :=
  match sd_init 1 1 ex_stack ex_power_on with Ret l s => Some (l, init (sd_card s), capacity (sd_card s)) | _ => None end.

Lemma sdInit_returns_witness :
  ∃ r s, sdInit 1 ex_stack ex_power_on = Ret r s ∧ sd_woken s = [] ∧
    (init (sd_card s) = 0 ∨ init (sd_card s) = 1 ∧ card_type_ok s ∧ csd_known s) ∧
    init_result = Some (SD_CARD_CHANGED, SD_TYPE_2_HC).
Proof.
  destruct (sdInit_returns ex_power_on 1 ex_stack eq_refl eq_refl card_mailbox) as (r & s & E & (_ & _ & Hw) & H).
  exists r, s. split; [exact E|]. split; [exact Hw|]. split; [exact H|]. vm_compute. reflexivity.
Defined.

Lemma sd_init_ready_witness :
  sd_init_result = Some ([0; 0x5000000; 0x5000000], 1, 15160 * 512 * 1024) ∧
  match sd_init 1 1 ex_stack ex_power_on with Ret _ s => card_type_ok s ∧ csd_known s | _ => True end.
Proof.
  split; [vm_compute; reflexivity|].
  pose proof (sd_init_ready 1 1 ex_stack ex_power_on eq_refl eq_refl card_mailbox) as H.
  destruct (sd_init 1 1 ex_stack ex_power_on); try exact I; apply H.
Defined.
