(* ===== verification/Uart.v ===== *)
(** The mini UART: kern/uart.c, and the interrupt that drives the console of
    kern/console.c.

    File Console collects the bytes that it sends in [c_out]; here they go to
    the device, each with [uart_putchar].  [uart_fuel] bounds the polls of the
    line status, and the characters that one interrupt takes. *)

From S2P Require Import Prelude Mmio Console.

Definition AUX_ENABLES : Z := MMIO_BASE + 0x00215004.
Definition AUX_MU_IO_REG : Z := MMIO_BASE + 0x00215040.
Definition AUX_MU_IER_REG : Z := MMIO_BASE + 0x00215044.
Definition AUX_MU_IIR_REG : Z := MMIO_BASE + 0x00215048.
Definition AUX_MU_LCR_REG : Z := MMIO_BASE + 0x0021504C.
Definition AUX_MU_MCR_REG : Z := MMIO_BASE + 0x00215050.
Definition AUX_MU_LSR_REG : Z := MMIO_BASE + 0x00215054.
Definition AUX_MU_CNTL_REG : Z := MMIO_BASE + 0x00215060.
Definition AUX_MU_BAUD_REG : Z := MMIO_BASE + 0x00215068.
Definition GPFSEL1 : Z := MMIO_BASE + 0x200000 + 0x04.
Definition GPPUD : Z := MMIO_BASE + 0x200000 + 0x94.
Definition GPPUDCLK0 : Z := MMIO_BASE + 0x200000 + 0x98.

(** The console and the devices. *)
Record tty (D : Type) := Tty { tty_con : con; tty_dev : D }.
Arguments Tty {D} _ _.
Arguments tty_con {D} _.
Arguments tty_dev {D} _.

Section Uart.
Context {D : Type} `{!Mmio D} (uart_fuel : nat).

#[export] Instance tty_lens_con : Lens (tty D) con := {
  lget := tty_con; lset c s := Tty c (tty_dev s);
  lget_lset t s := eq_refl; lset_lget s := match s with Tty _ _ => eq_refl end; lset_lset t t' s := eq_refl;
}.
#[export] Instance tty_lens_dev : Lens (tty D) D := {
  lget := tty_dev; lset d s := Tty (tty_con s) d;
  lget_lset t s := eq_refl; lset_lget s := match s with Tty _ _ => eq_refl end; lset_lset t t' s := eq_refl;
}.

Definition uart_putchar (c : Z) : M (tty D) () :=
  while_wait uart_fuel (b ← test_reg AUX_MU_LSR_REG 0x20; mret (negb b)) ;;
  reg_write AUX_MU_IO_REG (Z.land c 0xFF).
Definition uart_getchar : M (tty D) Z :=
  stat ← reg_read AUX_MU_IIR_REG;
  if negb (Z.land stat 1 =? 0) || negb (Z.land stat 6 =? 4) then mret (-1)
  else v ← reg_read AUX_MU_IO_REG; mret (Z.land v 0xFF).

Fixpoint send_all (l : list Z) : M (tty D) () :=
  match l with
  | [] => mret ()
  | c :: l => uart_putchar c ;; send_all l
  end.
Definition set_out (o : list Z) (s : con) : con :=
  Con (c_buf s) (c_r s) (c_w s) (c_e s) (c_panicked s) o (c_wakes s).
(** [m] with its output sent to the device. *)
Definition with_output {A} (m : M con A) : M (tty D) A :=
  lift (modify (set_out [])) ;;
  a ← lift m;
  o ← gets (λ s, c_out (tty_con s));
  send_all o ;;
  mret a.

(** The loop of [console_intr] with [getc = uart_getchar]. *)
Fixpoint getc_loop (fuel : nat) (dump : bool) : M (tty D) bool :=
  match fuel with
  | O => no_fuel
  | S fuel =>
    c ← uart_getchar;
    if c <? 0 then mret dump else dump ← with_output (intr_char c dump); getc_loop fuel dump
  end.
Definition uart_intr : M (tty D) () :=
  p ← gets (λ s, c_panicked (tty_con s));
  if 0 <=? p then no_fuel (* spins for ever *)
  else
    dump ← getc_loop uart_fuel false;
    when dump (panic "unimplemented" (* procdump *)).

Definition uart_init : M (tty D) () :=
  reg_update AUX_ENABLES 0 1 ;;
  reg_write AUX_MU_CNTL_REG 0 ;;
  reg_write AUX_MU_LCR_REG 3 ;;
  reg_write AUX_MU_MCR_REG 0 ;;
  reg_write AUX_MU_IER_REG (Z.lor (Z.shiftl 3 2) 1) ;;
  reg_write AUX_MU_IIR_REG 0xc6 ;;
  reg_write AUX_MU_BAUD_REG 270 ;;
  reg_update GPFSEL1 (Z.lor (Z.shiftl 7 12) (Z.shiftl 7 15)) (Z.lor (Z.shiftl 2 12) (Z.shiftl 2 15)) ;;
  reg_write GPPUD 0 ;;
  delay 150 ;;
  reg_write GPPUDCLK0 (Z.lor (Z.shiftl 1 14) (Z.shiftl 1 15)) ;;
  delay 150 ;;
  reg_write GPPUDCLK0 0 ;;
  reg_write AUX_MU_CNTL_REG 3.
End Uart.

(** ** What the driver relies on *)

(** The UART has received [u_rx], has sent [u_tx], and needs [u_busy] polls of
    its line status before it accepts another byte. *)
Record uart_state := UartState { u_rx : list Z; u_tx : list Z; u_busy : nat }.

Inductive uart_read (u : uart_state) : Z → Z → uart_state → Prop :=
| ur_ready v : u_rx u ≠ [] → Z.land v 7 = 4 → uart_read u AUX_MU_IIR_REG v u
| ur_empty v : u_rx u = [] → Z.land v 6 ≠ 4 → uart_read u AUX_MU_IIR_REG v u
| ur_byte v c l : u_rx u = c :: l → Z.land v 0xFF = c → uart_read u AUX_MU_IO_REG v (UartState l (u_tx u) (u_busy u))
| ur_status v :
    (Z.land v 0x20 = 0 ↔ u_busy u ≠ O) → uart_read u AUX_MU_LSR_REG v (UartState (u_rx u) (u_tx u) (pred (u_busy u))).

Class Uart (D : Type) `{!Mmio D} (limit : nat) := {
  ur_rel : D → uart_state → Prop;
  ur_read_law d u r v0 u0 :
    ur_rel d u → uart_read u r v0 u0 → ∃ v d' u', io_read r d = (v, d') ∧ uart_read u r v u' ∧ ur_rel d' u';
  ur_write_law d u c :
    ur_rel d u → u_busy u = O → 0 ≤ c < 256 →
    ∃ n, (n < limit)%nat ∧ ur_rel (io_write AUX_MU_IO_REG c d) (UartState (u_rx u) (u_tx u ++ [c]) n);
}.
