(* ===== verification/UartSpec.v ===== *)
(** The UART interrupt against the console: what [uart_intr] does to the
    device is what [console_intr] does to its input and output. *)

From S2P Require Import Prelude Mmio Console ConsoleSpec Uart.

(** ** Output is only ever appended *)

(** [p] comes before what has been sent. *)
Definition sent_before (p : list Z) (s : con) : con := set_out (p ++ c_out s) s.
Definition appends {A} (m : M con A) : Prop :=
  ∀ p s, m (sent_before p s) =
    match m s with
    | Ret a s' => Ret a (sent_before p s')
    | Panic w => Panic w | Sleep c => Sleep c | Undef w => Undef w | NoFuel => NoFuel
    end.

Lemma appends_ret {A} (a : A) : appends (mret a).
Proof. done. Qed.
Lemma appends_bind {A B} (m : M con A) (k : A → M con B) : appends m → (∀ a, appends (k a)) → appends (mbind k m).
Proof. intros Hm Hk p s. unfold mbind, M_bind. rewrite Hm. destruct (m s); [apply Hk|done..]. Qed.
(** [gets id] is followed by code that does not look at the output. *)
Lemma appends_get {A} (k : con → M con A) :
  (∀ s, appends (k s)) → (∀ s p, k (sent_before p s) = k s) → appends (mbind k (gets id)).
Proof. intros Hk Hs p s. unfold mbind, M_bind, gets, id. rewrite Hs. apply Hk. Qed.
Lemma appends_if {A} (c : bool) (m m' : M con A) : appends m → appends m' → appends (if c then m else m').
Proof. by destruct c. Qed.
Lemma appends_when c (m : M con ()) : appends m → appends (when c m).
Proof. by destruct c. Qed.
Lemma appends_fuel {A} : appends (no_fuel (A := A)).
Proof. done. Qed.
Lemma appends_array {A} (l : list A) i : appends (array_get l i).
Proof. intros p s. unfold array_get. destruct (i <? 0); [done|]. by destruct (l !! _). Qed.
Lemma appends_putchar c : appends (Console.uart_putchar c).
Proof. intros p s. unfold Console.uart_putchar, modify, sent_before, set_out. cbn. by rewrite app_assoc. Qed.
Lemma appends_set_e e : appends (set_e e).
Proof. done. Qed.
Lemma appends_commit : appends commit_line.
Proof. done. Qed.
Lemma appends_put_input c : appends (put_input c).
Proof. done. Qed.
Create HintDb appends discriminated.
#[local] Hint Constants Opaque : appends.
#[local] Hint Resolve appends_ret appends_fuel appends_array appends_putchar appends_set_e appends_commit appends_put_input : appends.
Ltac appends :=
  repeat first [ solve [eauto with appends]
    | lazymatch goal with
      | |- appends (mbind _ (gets id)) => apply appends_get; [intros ?|done]
      | |- appends (mbind _ _) => apply appends_bind; [|intros ?]
      | |- appends (if _ then _ else _) => apply appends_if
      | |- appends (when _ _) => apply appends_when
      end ].

Lemma appends_consputc c : appends (consputc c).
Proof. unfold consputc. appends. Qed.
#[local] Hint Resolve appends_consputc : appends.
Lemma appends_erase : appends erase.
Proof. unfold erase. appends. Qed.
#[local] Hint Resolve appends_erase : appends.
Lemma appends_kill_line fuel : appends (kill_line fuel).
Proof. induction fuel; cbn [kill_line]; appends. Qed.
#[local] Hint Resolve appends_kill_line : appends.
Lemma appends_intr_char c dump : appends (intr_char c dump).
Proof. unfold intr_char. appends. Qed.
#[local] Hint Resolve appends_intr_char : appends.
Lemma appends_intr_loop cs : ∀ dump, appends (intr_loop cs dump).
Proof. induction cs; intros dump; cbn [intr_loop]; appends. Qed.

(** Running on an empty output. *)
Lemma set_out_self s : set_out (c_out s) s = s.
Proof. by destruct s. Qed.
Lemma sent_before_split s : sent_before (c_out s) (set_out [] s) = s.
Proof. unfold sent_before, set_out. cbn. rewrite app_nil_r. by destruct s. Qed.
Lemma con_rel_set_out s ready line o : con_rel s ready line → con_rel (set_out o s) ready line.
Proof. intros []. by split. Qed.

(** ** The device *)

Lemma iir_read v : Z.land v 7 = 4 → Z.land v 1 = 0 ∧ Z.land v 6 = 4.
Proof.
  intros Hv. split.
  - change 1 with (Z.land 7 1). by rewrite Z.land_assoc, Hv.
  - change 6 with (Z.land 7 6). by rewrite Z.land_assoc, Hv.
Qed.
Lemma byte_mask x : 0 ≤ x < 256 → Z.land x 0xFF = x.
Proof. intros Hx. change 0xFF with (Z.ones 8). rewrite Z.land_ones by lia. by apply Z.mod_small. Qed.

Section Spec.
Context {D : Type} `{!Mmio D} (limit : nat) `{!Uart D limit} (fuel : nat) (Hfuel : (limit < fuel)%nat).
Implicit Types (d : D) (u : uart_state).

Definition mask8 (l : list Z) : list Z := map (λ c, Z.land c 0xFF) l.
(** The device [d] is in state [u], and needs fewer polls than the limit. *)
Definition uart_ok d u : Prop := ur_rel d u ∧ (u_busy u < limit)%nat.

Lemma wait_ready n : ∀ c d u,
  ur_rel d u → (u_busy u < n)%nat →
  ∃ d', while_wait n (b ← test_reg AUX_MU_LSR_REG 0x20; mret (negb b)) (Tty c d) = Ret () (Tty c d') ∧
    ur_rel d' (UartState (u_rx u) (u_tx u) 0).
Proof.
  induction n as [|n IH]; intros c d u Hr Hb; [lia|]. cbn [while_wait].
  set (v0 := if decide (u_busy u = O) then 0x20 else 0).
  assert (Z.land v0 0x20 = 0 ↔ u_busy u ≠ O) as Hv0 by (unfold v0; case_decide; cbn; naive_solver).
  destruct (ur_read_law d u AUX_MU_LSR_REG v0 _ Hr (ur_status u v0 Hv0))
    as (v & d' & u' & E & Hv & Hr').
  assert (test_reg AUX_MU_LSR_REG 0x20 (Tty c d) = Ret (negb (Z.land v 0x20 =? 0)) (Tty c d')) as Ht.
  { unfold test_reg, reg_read, mbind, M_bind. cbn [lget tty_lens_dev tty_dev]. by rewrite E. }
  assert ((Z.land v 0x20 = 0 ↔ u_busy u ≠ O) ∧ u' = UartState (u_rx u) (u_tx u) (pred (u_busy u))) as [Hz ->].
  { by inversion Hv; subst. }
  erewrite mbind_ret; [|by mstep Ht]. destruct (Z.eqb_spec (Z.land v 0x20) 0) as [H0|H0]; cbn [negb].
  - apply Hz in H0. destruct (IH c d' _ Hr') as (d2 & E2 & Hr2); [cbn; lia|]. exists d2. by rewrite E2.
  - exists d'. split; [done|]. assert (u_busy u = O) as Hb0 by (destruct (decide (u_busy u = O)); tauto). by rewrite Hb0 in Hr'.
Qed.

Lemma putchar_ok x c d u :
  uart_ok d u → ∃ d' n, uart_putchar fuel x (Tty c d) = Ret () (Tty c d') ∧
    uart_ok d' (UartState (u_rx u) (u_tx u ++ [Z.land x 0xFF]) n).
Proof.
  intros [Hr Hb]. destruct (wait_ready fuel c d u Hr ltac:(lia)) as (d1 & E1 & Hr1).
  destruct (ur_write_law d1 _ (Z.land x 0xFF) Hr1 eq_refl) as (n & Hn & Hr2).
  { change 0xFF with (Z.ones 8). rewrite Z.land_ones by lia. by apply Z.mod_pos_bound. }
  eexists _, n. unfold uart_putchar. mstep E1. split; [reflexivity|]. by split.
Qed.
Lemma send_all_ok l : ∀ c d u,
  uart_ok d u → ∃ d' n, send_all fuel l (Tty c d) = Ret () (Tty c d') ∧
    uart_ok d' (UartState (u_rx u) (u_tx u ++ mask8 l) n).
Proof.
  induction l as [|x l IH]; intros c d u Hu; cbn [send_all mask8 map].
  - exists d, (u_busy u). rewrite app_nil_r. by destruct u.
  - destruct (putchar_ok x c d u Hu) as (d1 & n1 & E1 & H1). mstep E1.
    destruct (IH c d1 _ H1) as (d2 & n2 & E2 & H2). exists d2, n2. rewrite E2. split; [done|]. cbn in H2. by rewrite <-app_assoc in H2.
Qed.

Lemma reg_read_ret r c d v d' : io_read r d = (v, d') → reg_read r (Tty c d) = Ret v (Tty c d').
Proof. intros E. unfold reg_read. cbn [lget tty_lens_dev tty_dev]. by rewrite E. Qed.
Lemma getchar_byte x l c d u :
  uart_ok d u → u_rx u = x :: l → 0 ≤ x < 256 →
  ∃ d', uart_getchar (Tty c d) = Ret x (Tty c d') ∧ uart_ok d' (UartState l (u_tx u) (u_busy u)).
Proof.
  intros [Hr Hb] Hrx Hx. unfold uart_getchar.
  destruct (ur_read_law d u AUX_MU_IIR_REG 4 u Hr (ur_ready u 4 ltac:(by rewrite Hrx) eq_refl)) as (v & d1 & u1 & E1 & Hv & Hr1).
  assert (u1 = u ∧ Z.land v 7 = 4) as [-> Hv7] by (inversion Hv; subst; [done|congruence]).
  mstep (reg_read_ret _ c _ _ _ E1). destruct (iir_read v Hv7) as [-> ->].
  change (negb (0 =? 0) || negb (4 =? 4)) with false. cbn iota.
  destruct (ur_read_law d1 u AUX_MU_IO_REG x _ Hr1 (ur_byte u x x l Hrx (byte_mask x Hx))) as (w & d2 & u2 & E2 & Hw & Hr2).
  assert (u2 = UartState l (u_tx u) (u_busy u) ∧ Z.land w 0xFF = x) as [-> Hwx] by (inversion Hw; subst; split; congruence).
  mstep (reg_read_ret _ c _ _ _ E2). exists d2. rewrite Hwx. done.
Qed.
Lemma getchar_none c d u :
  uart_ok d u → u_rx u = [] → ∃ d', uart_getchar (Tty c d) = Ret (-1) (Tty c d') ∧ uart_ok d' u.
Proof.
  intros [Hr Hb] Hrx. unfold uart_getchar.
  destruct (ur_read_law d u AUX_MU_IIR_REG 0 u Hr (ur_empty u 0 Hrx ltac:(done))) as (v & d1 & u1 & E1 & Hv & Hr1).
  assert (u1 = u ∧ Z.land v 6 ≠ 4) as [-> Hv6] by (inversion Hv; subst; [congruence|done]).
  mstep (reg_read_ret _ c _ _ _ E1). destruct (Z.eqb_spec (Z.land v 6) 4); [done|].
  rewrite orb_true_r. by exists d1.
Qed.

Lemma with_output_ok {A} (m : M con A) a c c1 d u :
  uart_ok d u → m (set_out [] c) = Ret a c1 →
  ∃ d' n, with_output fuel m (Tty c d) = Ret a (Tty c1 d') ∧ uart_ok d' (UartState (u_rx u) (u_tx u ++ mask8 (c_out c1)) n).
Proof.
  intros Hu Hm. destruct (send_all_ok (c_out c1) c1 d u Hu) as (d' & n & E & H). exists d', n. split; [|done].
  unfold with_output. erewrite mbind_ret; [|reflexivity].
  assert (lift m (Tty (set_out [] c) d) = Ret a (Tty c1 d)) as Hl by (unfold lift; cbn [lget tty_lens_con tty_con]; by rewrite Hm).
  erewrite mbind_ret; [|exact Hl]. erewrite mbind_ret; [|reflexivity]. cbn [tty_con]. by mstep E.
Qed.

(** The loop takes every byte that has been received, in order. *)
Lemma getc_loop_ok n : ∀ cs dump b c c' d u,
  u_rx u = cs → (length cs < n)%nat → Forall (λ x, 0 ≤ x < 256) cs → uart_ok d u →
  intr_loop cs dump (set_out [] c) = Ret b c' →
  ∃ o d' k, getc_loop fuel n dump (Tty c d) = Ret b (Tty (set_out o c') d') ∧
    uart_ok d' (UartState [] (u_tx u ++ mask8 (c_out c')) k).
Proof.
  induction n as [|n IH]; intros cs dump b c c' d u Hrx Hn Hcs Hu Hl; [lia|]. cbn [getc_loop].
  destruct cs as [|x cs]; cbn [intr_loop] in Hl.
  - destruct (getchar_none c d u Hu Hrx) as (d1 & E1 & H1). mstep E1. cbn [Z.ltb Z.compare]. injection Hl as <- <-.
    exists (c_out c), d1, (u_busy u). split; [|cbn; rewrite app_nil_r, <-Hrx; by destruct u].
    replace (set_out (c_out c) (set_out [] c)) with c by (by destruct c). done.
  - apply Forall_cons in Hcs as [Hx Hcs]. destruct (Z.ltb_spec x 0); [lia|].
    apply mbind_inv in Hl as (dump1 & c1 & Hc1 & Hl1).
    destruct (getchar_byte x cs c d u Hu Hrx Hx) as (d1 & E1 & H1). mstep E1. destruct (Z.ltb_spec x 0); [lia|].
    destruct (with_output_ok _ _ c c1 d1 _ H1 Hc1) as (d2 & k2 & E2 & H2). mstep E2. cbn [u_rx u_tx] in H2.
    rewrite <-(sent_before_split c1), (appends_intr_loop cs dump1) in Hl1.
    destruct (intr_loop cs dump1 (set_out [] c1)) as [b' c2| | | |] eqn:El; try done. injection Hl1 as -> <-.
    destruct (IH cs dump1 b c1 c2 d2 (UartState cs (u_tx u ++ mask8 (c_out c1)) k2) eq_refl ltac:(cbn in Hn; lia) Hcs H2 El) as (o & d' & k & E & H3). cbn [u_tx] in H3.
    exists o, d', k. rewrite E. split; [done|].
    cbn [sent_before set_out c_out]. unfold mask8 in *. by rewrite map_app, app_assoc.
Qed.

(** The UART interrupt edits the console's line with every byte that the
    device has received, and echoes to the device what [console_intr] puts out
    for them, in that order: [uart_intr] ends, whatever the number of polls the
    device takes to accept each byte, with the receive queue empty and the
    circular buffer as the abstract console has it. *)
Theorem uart_intr_refines c d u ready line :
  con_rel c ready line → c_panicked c < 0 → uart_ok d u → Forall (λ x, 0 ≤ x < 256) (u_rx u) → ctrl_P ∉ u_rx u →
  (length (u_rx u) < fuel)%nat →
  let st := fold_left type_char (u_rx u) (ready, line) in
  ∃ echo c' d' n, console_intr (u_rx u) (set_out [] c) = Ret () (set_out echo c') ∧
    uart_intr fuel (Tty c d) = Ret () (Tty c' d') ∧
    uart_ok d' (UartState [] (u_tx u ++ mask8 echo) n) ∧
    con_rel c' st.1 st.2 ∧ (st.1 ≠ ready → (c_wakes c < c_wakes c')%nat).
Proof.
  intros Hc Hp Hu Hcs HP Hn st.
  destruct (intr_loop_spec (u_rx u) (set_out [] c) ready line false (con_rel_set_out _ _ _ [] Hc) Hcs) as (c1 & E1 & Hc1 & _ & Hw).
  assert (existsb (Z.eqb ctrl_P) (u_rx u) = false) as Hex.
  { apply not_true_is_false. intros (x & Hx & Hpx)%existsb_exists. apply Z.eqb_eq in Hpx as <-. by apply HP, list_elem_of_In. }
  rewrite Hex in E1. cbn [orb] in E1.
  destruct (getc_loop_ok fuel _ false _ c c1 d u eq_refl Hn Hcs Hu E1) as (o & d' & k & E & H).
  exists (c_out c1), (set_out o c1), d', k. split; [|split; [|split; [done|split; [by apply con_rel_set_out|exact Hw]]]].
  - unfold console_intr. erewrite mbind_ret; [|reflexivity]. cbn [id set_out c_panicked]. destruct (Z.leb_spec 0 (c_panicked c)); [lia|].
    mstep E1. cbn [when]. f_equal. by destruct c1.
  - unfold uart_intr. erewrite mbind_ret; [|reflexivity]. cbn [tty_con]. destruct (Z.leb_spec 0 (c_panicked c)); [lia|]. by mstep E.
Qed.
End Spec.
