(* ===== verification/Trap.v ===== *)
(** Traps and interrupts: kern/trap.c, kern/timer.c and [uvm_switch] of
    kern/vm.c.

    The state puts together what the handlers work on: the kernel of file Proc
    with the console, the driver of the SD card, the device registers and those
    system registers that the code writes.  A [trapframe *] is an address in
    kernel memory.  [AUX_INT] and the like are the constants of
    inc/peripherals/irq.h and inc/sysregs.h.  What an unexpected interrupt
    prints is left out, but not the access to the process that it prints. *)

From S2P Require Import Prelude Memory Kalloc Vm BufferCache Superblock Txn Fs File Console Proc.
From S2P Require Import Syscall Sysfile Exec Dispatch Mmio Sd SdQueue Uart.

Definition ENABLE_IRQS_1 : Z := MMIO_BASE + 0xB210.
Definition ENABLE_IRQS_2 : Z := MMIO_BASE + 0xB214.
Definition IRQ_PENDING_1 : Z := MMIO_BASE + 0xB204.
Definition IRQ_PENDING_2 : Z := MMIO_BASE + 0xB208.
Definition AUX_INT : Z := Z.shiftl 1 29.
Definition VC_ARASANSDIO_INT : Z := Z.shiftl 1 30.
Definition GPU_INT_ROUTE : Z := LOCAL_BASE + 0xC.
Definition IRQ_SRC_CORE (i : Z) : Z := LOCAL_BASE + 0x60 + 4 * i.
Definition IRQ_TIMER : Z := Z.shiftl 1 11.
Definition IRQ_GPU : Z := Z.shiftl 1 8.
Definition IRQ_CNTPNSIRQ : Z := Z.shiftl 1 1.
Definition CORE_TIMER_CTRL (i : Z) : Z := LOCAL_BASE + 0x40 + 4 * i.
Definition CORE_TIMER_ENABLE : Z := Z.shiftl 1 1.
Definition EC_SHIFT : Z := 26.
Definition EC_UNKNOWN : Z := 0x00.
Definition EC_SVC64 : Z := 0x15.
Definition ISS_MASK : Z := 0xFFFFFF.
(** [dt] of timer.c. *)
Definition dt : Z := 19200000.

(** [esr_el1], [cntp_ctl_el0], [cntp_tval_el0] and [ttbr0_el1]. *)
Record sysregs := Sysregs { esr : Z; cntp_ctl : Z; cntp_tval : Z; ttbr0 : Z }.
Record machine (T D : Type) := Machine { m_kern : kern T; m_sd : sdst D; m_regs : sysregs }.
Arguments Machine {T D} _ _ _.
Arguments m_kern {T D} _.
Arguments m_sd {T D} _.
Arguments m_regs {T D} _.

Section Trap.
Context `{!Kernel, !Libc, !Elf} {T : Type} `{!TxnOps T, !OpOps T, !Lens T con}.
Context {D : Type} `{!Mmio D}.
Context (call_of : Z → option call) (sdque : Z) (uart_fuel : nat).
Abbreviation K := (M (machine T D)).

#[export] Instance machine_kern : Lens (machine T D) (kern T) := {
  lget := m_kern; lset k m := Machine k (m_sd m) (m_regs m);
  lget_lset t s := eq_refl; lset_lget s := match s with Machine _ _ _ => eq_refl end; lset_lset t t' s := eq_refl;
}.
#[export] Instance machine_sd : Lens (machine T D) (sdst D) := {
  lget := m_sd; lset x m := Machine (m_kern m) x (m_regs m);
  lget_lset t s := eq_refl; lset_lget s := match s with Machine _ _ _ => eq_refl end; lset_lset t t' s := eq_refl;
}.
Definition lens_comp {A B C} (L : Lens A B) (L' : Lens B C) : Lens A C.
Proof.
  refine {| lget s := lget (lget s); lset t s := lset (lset t (lget s)) s |}; intros.
  - by rewrite !lget_lset.
  - by rewrite !lset_lget.
  - by rewrite lget_lset, !lset_lset.
Defined.
#[export] Instance machine_dev : Lens (machine T D) D := lens_comp machine_sd sd_lens.
(** The console is in the state of the file system. *)
Definition kern_con : Lens (kern T) con :=
  lens_comp kern_files (lens_comp files_lens (lens_comp fs_lens _)).
#[export] Instance machine_tty : Lens (machine T D) (tty D).
Proof.
  refine {| lget m := Tty (lget (Lens := kern_con) (m_kern m)) (sd_dev (m_sd m));
            lset t m := Machine (lset (Lens := kern_con) (tty_con t) (m_kern m)) (lset (tty_dev t) (m_sd m)) (m_regs m) |}.
  - intros [c d] m. cbn [m_kern m_sd tty_con tty_dev]. by rewrite !lget_lset.
  - intros [k x r]. cbn [m_kern m_sd m_regs tty_con tty_dev]. rewrite lset_lget. f_equal. apply (lset_lget (Lens := sd_lens)).
  - intros [c d] [c' d'] m. cbn [m_kern m_sd m_regs tty_con tty_dev]. by rewrite lset_lset.
Defined.

Definition get_regs : K sysregs := gets m_regs.
Definition put_regs (f : sysregs → sysregs) : K () := modify (λ m, Machine (m_kern m) (m_sd m) (f (m_regs m))).
Definition resr : K Z := r ← get_regs; mret (esr r).
Definition lesr (v : Z) : K () := put_regs (λ r, Sysregs v (cntp_ctl r) (cntp_tval r) (ttbr0 r)).
Definition lttbr0 (v : Z) : K () := put_regs (λ r, Sysregs (esr r) (cntp_ctl r) (cntp_tval r) v).

(** ** kern/timer.c *)

Definition timer_init : K () :=
  put_regs (λ r, Sysregs (esr r) 1 (cntp_tval r) (ttbr0 r)) ;;
  put_regs (λ r, Sysregs (esr r) (cntp_ctl r) dt (ttbr0 r)) ;;
  reg_write (CORE_TIMER_CTRL k_cpu) CORE_TIMER_ENABLE.
Definition timer_reset : K () := put_regs (λ r, Sysregs (esr r) (cntp_ctl r) dt (ttbr0 r)).
(** Up to the switch of contexts in [yield]. *)
Definition timer : K () := lift (drop_priority k_cpu) ;; lift (yield k_cpu).

(** ** kern/trap.c *)

(** [wakeup] for each of these channels. *)
Fixpoint wakeup_all (l : list Z) : K () :=
  match l with
  | [] => mret ()
  | ch :: l => lift (wakeup ch) ;; wakeup_all l
  end.
(** [uart_intr] and [sd_intr] with the processes that they wake up: the console
    counts its [wakeup(&input.r)], and the driver lists its channels. *)
Definition uart_interrupt : K () :=
  n ← gets (λ m, c_wakes (tty_con (lget m)));
  lift (uart_intr uart_fuel) ;;
  n' ← gets (λ m, c_wakes (tty_con (lget m)));
  wakeup_all (replicate (n' - n) k_input_r).
Definition sd_interrupt : K () :=
  n ← gets (λ m, length (sd_woken (m_sd m)));
  lift (sd_intr sdque) ;;
  l ← gets (λ m, sd_woken (m_sd m));
  wakeup_all (drop n l).

Definition irq_init : K () :=
  clock_init ;;
  reg_write ENABLE_IRQS_1 AUX_INT ;;
  reg_write ENABLE_IRQS_2 VC_ARASANSDIO_INT ;;
  reg_write GPU_INT_ROUTE 0.

Definition interrupt (tf : Z) : K () :=
  src ← reg_read (IRQ_SRC_CORE k_cpu);
  if any src IRQ_CNTPNSIRQ then timer_reset ;; timer
  else if any src IRQ_TIMER then clock_reset ;; clock
  else if any src IRQ_GPU then
    p1 ← reg_read IRQ_PENDING_1;
    p2 ← reg_read IRQ_PENDING_2;
    if any p1 AUX_INT then uart_interrupt
    else if any p2 VC_ARASANSDIO_INT then sd_interrupt
    else mret ()
  else lift (thisproc k_cpu) ;; mret ().

Definition trap (tf : Z) : K () :=
  e ← resr;
  let ec := s32 (w32 (Z.shiftr (w64 e) EC_SHIFT)) in
  let iss := Z.land e ISS_MASK in
  lesr 0 ;;
  if ec =? EC_UNKNOWN then interrupt tf
  else if ec =? EC_SVC64 then
    if iss =? 0 then lift (syscall1 call_of tf) ;; mret () else mret ()
  else panic "trap: unexpected irq.".
Definition irq_error : K () := panic "irq_error: irq of type %d unimplemented.".

(** ** [uvm_switch] of kern/vm.c *)

Definition uvm_switch (p : proc) : K () :=
  if p_pgdir p =? 0 then panic "uvm_switch: no pgdir" else lttbr0 (V2P (p_pgdir p)).
End Trap.
