(* ===== verification/TrapSpec.v ===== *)
(** From the vector table to the interrupted components: what [trap] does for an
    interrupt of the UART and for one of the SD card. *)

From S2P Require Import Prelude Memory Kalloc Dlist BufferCache Superblock Txn Fs File Console ConsoleSpec Proc ProcSpec.
From S2P Require Import Syscall Sysfile Exec Dispatch Bio Mmio SdRegs Sd SdQueue Emmc SdSpec Uart UartSpec Trap.

Lemma woken_again ch t t1 t2 : woken ch t t1 → woken ch t1 t2 → woken ch t t2.
Proof.
  intros (A1 & A2 & A3 & A4) (B1 & B2 & B3 & B4). split; [congruence|]. split; [congruence|]. split; [congruence|].
  intros i Hi. rewrite B4, A4 by done.
  destruct (bool_decide_reflect (p_state (pt_proc t i) = SLEEPING)) as [Hs|Hs]; cbn [andb]; [|by rewrite bool_decide_eq_false_2].
  destruct (p_chan (pt_proc t i) =? ch) eqn:Hc; cbn [p_state p_chan with_state].
  - by rewrite bool_decide_eq_false_2.
  - by rewrite bool_decide_eq_true_2, Hc.
Qed.

Section TrapSpec.
Context `{!Kernel, !Libc, !Elf} {T : Type} `{!TxnOps T, !OpOps T, !Lens T con}.
Context {D : Type} `{!Mmio D} (call_of : Z → option call) (sdque : Z) (fuel : nat).
Implicit Types (m : machine T D) (k : kern T) (d : D).
Abbreviation trap := (trap call_of sdque fuel).

(** The interrupt controller: an interrupt of the GPU with these two pending
    registers, and nothing from the timers.  Reading these changes nothing. *)
Record gpu_pending d (p1 p2 : Z) : Prop := {
  gp_src : ∃ src, io_read (IRQ_SRC_CORE k_cpu) d = (src, d) ∧
    any src IRQ_CNTPNSIRQ = false ∧ any src IRQ_TIMER = false ∧ any src IRQ_GPU = true;
  gp_1 : io_read IRQ_PENDING_1 d = (p1, d);
  gp_2 : io_read IRQ_PENDING_2 d = (p2, d);
}.
(** An interrupt, and not a system call. *)
Definition from_irq m : Prop := Z.shiftr (w64 (esr (m_regs m))) EC_SHIFT = EC_UNKNOWN.
Definition clear_esr (r : sysregs) : sysregs := Sysregs 0 (cntp_ctl r) (cntp_tval r) (ttbr0 r).

Lemma reg_read_same r m v : io_read r (sd_dev (m_sd m)) = (v, sd_dev (m_sd m)) → reg_read r m = Ret v m.
Proof. intros E. unfold reg_read. cbn. rewrite E. by destruct m as [? [] ?]. Qed.

Lemma trap_gpu tf m p1 p2 :
  from_irq m → gpu_pending (sd_dev (m_sd m)) p1 p2 →
  trap tf m = (if any p1 AUX_INT then uart_interrupt fuel
               else if any p2 VC_ARASANSDIO_INT then sd_interrupt sdque else mret ())
              (Machine (m_kern m) (m_sd m) (clear_esr (m_regs m))).
Proof.
  intros He [(src & E0 & S1 & S2 & S3) E1 E2]. unfold Trap.trap. mstep (eq_refl (resr m)).
  mstep (eq_refl (lesr 0 m)). unfold from_irq in He. rewrite He. change (s32 (w32 EC_UNKNOWN) =? EC_UNKNOWN) with true. cbn iota.
  set (m1 := Machine _ _ _). unfold interrupt. mstep (reg_read_same _ m1 _ E0). rewrite S1, S2, S3.
  mstep (reg_read_same _ m1 _ E1). by mstep (reg_read_same _ m1 _ E2).
Qed.

(** The kernel with another process table. *)
Definition with_table (t : ptable) k : kern T := Kern (k_files k) (k_kmem k) t.
(** [wakeup_all] for any update of the table in place of [wakeup1], which must
    not be computed. *)
Fixpoint apply_all (w : Z → ptable → ptable) (l : list Z) : M (machine T D) () :=
  match l with
  | [] => mret ()
  | ch :: l => lift (table (T := T) (w ch)) ;; apply_all w l
  end.
Lemma wakeup_all_eq l : wakeup_all (T := T) (D := D) l = apply_all wakeup1 l.
Proof. induction l as [|ch l IH]; [done|]. cbn [wakeup_all apply_all]. by rewrite IH. Qed.
Lemma apply_all_at w l : ∀ t k (x : sdst D) r,
  apply_all w l (Machine (with_table t k) x r) = Ret () (Machine (with_table (fold_left (λ t ch, w ch t) l t) k) x r).
Proof. induction l as [|ch l IH]; intros t k x r; [done|]. exact (IH (w ch t) k x r). Qed.
Definition wake (l : list Z) (t : ptable) : ptable := fold_left (λ t ch, wakeup1 ch t) l t.
Lemma wakeup_all_run l m :
  wakeup_all l m = Ret () (Machine (with_table (wake l (k_ptable (m_kern m))) (m_kern m)) (m_sd m) (m_regs m)).
Proof. rewrite wakeup_all_eq. destruct m as [[a b t] x r]. exact (apply_all_at wakeup1 l t (Kern a b t) x r). Qed.
Lemma repeated_woken (w : Z → ptable → ptable) ch (Hw : ∀ t, woken ch t (w ch t)) n : ∀ t,
  woken ch t (fold_left (λ t ch, w ch t) (replicate (S n) ch) t).
Proof.
  assert (∀ t t1, woken ch t t1 → woken ch t (fold_left (λ t ch, w ch t) (replicate n ch) t1)) as Hn.
  { induction n as [|n IH]; intros t t1 Ht; [done|]. apply IH. eapply woken_again; [exact Ht|apply Hw]. }
  intros t. apply Hn, Hw.
Qed.
Lemma wakeups_woken n ch t : (0 < n)%nat → woken ch t (wake (replicate n ch) t).
Proof. destruct n as [|n]; [lia|]. intros _. exact (repeated_woken wakeup1 ch (wakeup1_woken ch) n t). Qed.

(** ** The UART *)

Definition m_con m : con := lget (Lens := kern_con) (m_kern m).
Definition m_dev m : D := sd_dev (m_sd m).
Definition m_table m : ptable := k_ptable (m_kern m).

(** C17: a byte that arrives at the UART reaches the reader of the console.  When
    the interrupt controller reports the UART, [trap] takes all bytes from the
    device, leaves the input buffer as the abstract line editor has it after
    them, sends the echo, and makes the processes that sleep in [console_read]
    runnable when a line has become ready; nothing else of the kernel and of
    the SD driver changes. *)
Theorem trap_uart (limit : nat) `{!Uart D limit} tf m p1 p2 u ready line :
  from_irq m → gpu_pending (m_dev m) p1 p2 → any p1 AUX_INT = true →
  con_rel (m_con m) ready line → c_panicked (m_con m) < 0 →
  uart_ok limit (m_dev m) u → Forall (λ x, 0 ≤ x < 256) (u_rx u) → ctrl_P ∉ u_rx u →
  (limit < fuel)%nat → (length (u_rx u) < fuel)%nat →
  let st := fold_left type_char (u_rx u) (ready, line) in
  ∃ m' echo n, trap tf m = Ret () m' ∧
    con_rel (m_con m') st.1 st.2 ∧
    console_intr (u_rx u) (set_out [] (m_con m)) = Ret () (set_out echo (m_con m')) ∧
    uart_ok limit (m_dev m') (UartState [] (u_tx u ++ mask8 echo) n) ∧
    (st.1 ≠ ready → woken k_input_r (m_table m) (m_table m')) ∧
    m_kern m' = with_table (m_table m') (lset (Lens := kern_con) (m_con m') (m_kern m)) ∧
    m_sd m' = lset (m_dev m') (m_sd m).
Proof.
  intros He Hg Hp1 Hc Hp Hu Hrx HP Hf Hn st.
  destruct (uart_intr_refines limit fuel Hf (m_con m) (m_dev m) u ready line Hc Hp Hu Hrx HP Hn)
    as (echo & c' & d' & n & E1 & E2 & Hu' & Hc' & Hw).
  set (m1 := Machine (m_kern m) (m_sd m) (clear_esr (m_regs m))).
  set (m2 := Machine (lset (Lens := kern_con) c' (m_kern m)) (lset d' (m_sd m)) (clear_esr (m_regs m))).
  assert (lift (uart_intr fuel) m1 = Ret () m2) as El.
  { unfold lift. change (lget m1) with (Tty (m_con m) (m_dev m)). by rewrite E2. }
  assert (m_con m2 = c') as Ec by apply (lget_lset (Lens := kern_con)).
  set (k := (c_wakes c' - c_wakes (m_con m))%nat).
  exists (Machine (with_table (wake (replicate k k_input_r) (m_table m)) (m_kern m2)) (m_sd m2) (m_regs m2)), echo, n.
  split.
  { rewrite (trap_gpu tf m p1 p2 He Hg), Hp1. fold m1. unfold uart_interrupt.
    erewrite mbind_ret; [|reflexivity]. mstep El. erewrite mbind_ret; [|reflexivity].
    change (tty_con (lget m2)) with (m_con m2). rewrite Ec. change (tty_con (lget m1)) with (m_con m). fold k.
    exact (wakeup_all_run (replicate k k_input_r) m2). }
  match goal with |- context [m_con ?x] => change (m_con x) with (m_con m2) end. rewrite Ec.
  split; [exact Hc'|]. split; [exact E1|]. split; [exact Hu'|]. split; [|split; reflexivity].
  intros Hne. apply wakeups_woken. specialize (Hw Hne). lia.
Qed.

(** ** The SD card *)

(** C16: an interrupt of the SD card that the interrupt controller reports makes
    [trap] take one step of the queue of requests: the first request is served,
    the process that sleeps on its buffer becomes runnable and finds that
    [sdrw] is done, and the next request is on its way.  Nothing else of the
    kernel changes, and an interrupt with an empty queue changes nothing. *)
Theorem trap_sd `{!Emmc D} tf k r s a p1 p2 :
  let m := Machine k (fire s) r in
  from_irq m → gpu_pending (m_dev m) p1 p2 → any p1 AUX_INT = false → any p2 VC_ARASANSDIO_INT = true →
  sd_rel sdque s a →
  ∃ t s', trap tf m = Ret () (Machine (with_table t k) s' (clear_esr r)) ∧ sd_rel sdque s' (q_step a Intr) ∧
    match q_list a with
    | [] => t = k_ptable k
    | b :: _ => woken b (k_ptable k) t ∧ sdrw_wait b s' = Ret () s'
    end.
Proof.
  intros m He Hg Hp1 Hp2 Hr. destruct (intr_run sdque s a Hr) as (s' & Ei & R).
  assert (sd_intr sdque (fire s) = Ret () s') as Es by exact Ei.
  set (l := drop (length (sd_woken s)) (sd_woken s')).
  exists (wake l (k_ptable k)), s'. split; [|split; [exact R|]].
  { rewrite (trap_gpu tf m p1 p2 He Hg), Hp1, Hp2. unfold sd_interrupt. erewrite mbind_ret; [|reflexivity].
    set (m1 := Machine (m_kern m) (m_sd m) (clear_esr (m_regs m))).
    assert (lift (sd_intr sdque) m1 = Ret () (Machine k s' (clear_esr r))) as El.
    { unfold lift. change (lget m1) with (fire s). by rewrite Es. }
    mstep El. erewrite mbind_ret; [|reflexivity]. exact (wakeup_all_run l (Machine k s' (clear_esr r))). }
  pose proof (sr_woken _ _ _ R) as Hw. cbn [q_step] in Hw. unfold l. rewrite Hw, (sr_woken _ _ _ Hr).
  destruct (q_list a) as [|b q] eqn:Hq; cbn [q_woken].
  - rewrite drop_all. reflexivity.
  - rewrite drop_app_length. split; [exact (wakeups_woken 1 b (k_ptable k) ltac:(lia))|].
    eapply (wait_returns sdque s' (q_step a Intr) b (q_buf a b)); [exact R|]. cbn [q_step]. rewrite Hq. cbn [q_buf]. by rewrite upd_eq.
Qed.
End TrapSpec.
