(* ===== verification/TrapExample.v ===== *)
(** A board in memory with the SD controller of file SdExample, a UART and an
    interrupt controller, and the theorems of file TrapSpec on it. *)

From S2P Require Import Prelude Memory Kalloc Vm Dlist BufferCache Sleeplock Bio Superblock Log LogOps Ramdisk Txn Fs File Console ConsoleSpec Proc ProcSpec.
From S2P Require Import Syscall Sysfile Exec Dispatch Mmio SdRegs Sd SdQueue Emmc SdSpec SdExample Uart UartSpec Trap TrapSpec.

#[local] Instance board_kernel : Kernel := {
  k_end := KERNBASE + 0x100000; k_ptable_addr := KERNBASE + 0xF0000; k_trapret := KERNBASE + 0x81000;
  k_forkret := KERNBASE + 0x82000; k_input_r := KERNBASE + 0xE0000; k_cpu := 0; k_fuel := 1000;
}.
#[local] Instance board_libc : Libc := {
  AT_FDCWD := -100; O_RDONLY := 0; O_WRONLY := 1; O_RDWR := 2; O_CREAT := 64; O_LARGEFILE := 32768;
  stat_size := 128; store_stat _ l := l;
}.
(** Little-endian fields of the headers of ELF-64. *)
Definition elf_field (off n : nat) (l : list Z) : Z := of_bytes (take n (drop off l)).
#[local] Instance board_elf : Elf := {
  ELFMAG := [127; 69; 76; 70]; PT_LOAD := 1; AT_PAGESZ := 6; AT_NULL := 0; ehdr_size := 64; phdr_size := 56;
  e_ident := take 16; e_phoff := elf_field 32 8; e_phnum := elf_field 56 2; e_entry := elf_field 24 8;
  p_type := elf_field 0 4; p_offset := elf_field 8 8; p_vaddr := elf_field 16 8; p_filesz := elf_field 32 8; p_memsz := elf_field 40 8;
}.
Definition store : Type := lst (bst ramdisk) * con.

(** ** The board *)

Record board := Board { b_em : em; b_uart : uart_state; b_src : Z; b_p1 : Z; b_p2 : Z }.
Definition set_em (e : em) (b : board) : board := Board e (b_uart b) (b_src b) (b_p1 b) (b_p2 b).
Definition set_uart (u : uart_state) (b : board) : board := Board (b_em b) u (b_src b) (b_p1 b) (b_p2 b).
Definition board_read (r : Z) (b : board) : Z * board :=
  let u := b_uart b in
  if r =? IRQ_SRC_CORE 0 then (b_src b, b)
  else if r =? IRQ_PENDING_1 then (b_p1 b, b)
  else if r =? IRQ_PENDING_2 then (b_p2 b, b)
  else if r =? AUX_MU_IIR_REG then (match u_rx u with [] => 1 | _ => 4 end, b)
  else if r =? AUX_MU_IO_REG then
    match u_rx u with [] => (0, b) | c :: l => (c, set_uart (UartState l (u_tx u) (u_busy u)) b) end
  else if r =? AUX_MU_LSR_REG then
    (if decide (u_busy u = O) then 0x20 else 0, set_uart (UartState (u_rx u) (u_tx u) (pred (u_busy u))) b)
  else let '(v, e) := dev_read r (b_em b) in (v, set_em e b).
(** The UART is busy for three polls after each byte. *)
Definition board_write (r v : Z) (b : board) : board :=
  let u := b_uart b in
  if r =? AUX_MU_IO_REG then set_uart (UartState (u_rx u) (u_tx u ++ [v]) 3) b else set_em (dev_write r v (b_em b)) b.
#[local] Instance board_mmio : Mmio board := {
  io_read := board_read; io_write := board_write; io_delay _ b := b; io_delayus n b := set_em (io_delayus n (b_em b)) b;
}.

#[local, refine] Instance board_emmc : Emmc board := { em_rel b e := b_em b = e; em_fire b := set_em (due (b_em b)) b }.
Proof.
  - by intros b e <-.
  - intros b e r v0 e0 <- Hr. destruct (dev_read_law _ _ _ _ Hr) as (v & e' & E & Hv). exists v, (set_em e' b), e'.
    split; [|done]. cbn [io_read board_mmio]. destruct Hr; unfold board_read; rewrite E; reflexivity.
  - intros b e r v e0 <- Hw. exists (dev_write r v (b_em b)). split; [by eapply dev_write_law|].
    cbn [io_write board_mmio]. by destruct Hw.
  - intros b e us <- Hu. by exists (Z.to_nat 1000).
Defined.
#[local, refine] Instance board_uart : Uart board 4 := { ur_rel b u := b_uart b = u ∧ (∀ c, c ∈ u_rx u → 0 ≤ c < 256) }.
Proof.
  - intros b u r v0 u0 [<- Hb] Hr. destruct Hr as [v Hne _|v He _|v c l He _|v _].
    + exists 4, b, (b_uart b). split; [|split; [by apply ur_ready|done]].
      cbn [io_read board_mmio]. unfold board_read. by destruct (u_rx (b_uart b)).
    + exists 1, b, (b_uart b). split; [|split; [by apply ur_empty|done]]. cbn [io_read board_mmio]. unfold board_read. by rewrite He.
    + exists c, (set_uart (UartState l (u_tx (b_uart b)) (u_busy (b_uart b))) b), (UartState l (u_tx (b_uart b)) (u_busy (b_uart b))).
      split; [|split; [|split; [done|]]].
      * cbn [io_read board_mmio]. unfold board_read. by rewrite He.
      * apply (ur_byte _ c c l He), byte_mask, Hb. rewrite He. apply elem_of_cons. by left.
      * intros x Hx. apply Hb. rewrite He. apply elem_of_cons. by right.
    + exists (if decide (u_busy (b_uart b) = O) then 0x20 else 0). eexists _, _. split; [reflexivity|]. split; [|by split].
      apply ur_status. case_decide; cbn; naive_solver.
  - intros b u c [<- Hb] Hu Hc. exists 3%nat. split; [lia|]. by split.
Defined.

(** ** The machine: process 1 sleeps on channel [ch] *)

Definition sleeper (ch : Z) : ptable :=
  mkPtable (λ i, mkProc 0 0 0 (if i =? 1 then SLEEPING else UNUSED) i None 0 0 ch 0 [] None 0 (-1)) 2 None (λ _, None).
Definition board_kern (ch : Z) : kern store :=
  Kern (Files (λ _, file0) (Fs (sb_of_block []) (λ _, Inode 0 0 0 initsleeplock 0 0 0 0 0 0 []) (mkLst log0 (rd_boot (λ _, [])), con0))) (mkKst (λ _, 0) 0) (sleeper ch).
Definition irq_regs : sysregs := Sysregs 0 0 0 0.

(** "ls" and return have been typed. *)
Definition typed : uart_state := UartState [108; 115; 13] [] 0.
Definition typed_board : board := Board ex_em typed IRQ_GPU AUX_INT 0.
Definition typed_machine : machine store board :=
  Machine (board_kern k_input_r) (SdSt sdCard0 0 0 ex_sbuf (INIT_LIST_HEAD ex_head (mkLheap (λ _, 0) (λ _, 0))) [] typed_board) irq_regs.

Lemma trap_uart_witness :
  ∃ m' echo n, trap (λ _, None) ex_head 10 0 typed_machine = Ret () m' ∧ con_rel (m_con m') [108; 115; 10] [] ∧
    uart_ok 4 (m_dev m') (UartState [] ([] ++ mask8 echo) n) ∧
    p_state (pt_proc (m_table typed_machine) 1) = SLEEPING ∧ p_state (pt_proc (m_table m') 1) = RUNNABLE.
Proof.
  assert (gpu_pending (m_dev typed_machine) AUX_INT 0) as Hg.
  { split; [exists IRQ_GPU; split_and!; reflexivity|reflexivity|reflexivity]. }
  assert (uart_ok 4 (m_dev typed_machine) typed) as Hu.
  { split; [|cbn; lia]. split; [reflexivity|]. intros c Hc. set_unfold in Hc. lia. }
  assert (con_rel (m_con typed_machine) [] []) as Hcon by (change (con_rel con0 [] []); apply con0_rel).
  destruct (trap_uart (λ _, None) ex_head 10 4 0 typed_machine AUX_INT 0 typed [] [] eq_refl Hg eq_refl Hcon ltac:(cbn; lia) Hu
    ltac:(repeat constructor; lia) ltac:(set_solver by (unfold ctrl_P; lia)) ltac:(lia) ltac:(cbn; lia))
    as (m' & echo & n & E & Hc & _ & Hu' & Hw & _).
  exists m', echo, n. split; [exact E|]. split; [exact Hc|]. split; [exact Hu'|]. split; [reflexivity|].
  destruct (Hw ltac:(done)) as (_ & _ & _ & Hp). rewrite (Hp 1) by (unfold in_table, NPROC; lia). reflexivity.
Defined.

(** The write of buffer 100 has been submitted; process 1 waits for it. *)
Definition sd_board : board := Board ex_em (UartState [] [] 0) IRQ_GPU 0 VC_ARASANSDIO_INT.
Definition sd_idle : sdst board :=
  SdSt (with_card_type sdCard0 SD_TYPE_2_HC) 0 0 ex_sbuf (INIT_LIST_HEAD ex_head (mkLheap (λ _, 0) (λ _, 0))) [] sd_board.
Lemma sd_idle_rel : sd_rel ex_head sd_idle ex_que.
Proof.
  destruct ex_sd_rel as [R1 R2 R3 R4 R5 R6 _]. split; try done. by exists ex_em.
Qed.
Definition irq_regs_of (o : outcome (sdst board) ()) : option (Z * Z * Z) :=
  match o with
  | Ret _ s => let b := sd_dev s in Some (b_src b, b_p1 b, b_p2 b)
  | _ => None
  end.

Lemma trap_sd_witness :
  ∃ s t s', run_act ex_head (Submit 100) sd_idle = Ret () s ∧
    trap (λ _, None) ex_head 10 0 (Machine (board_kern 100) (fire s) irq_regs) = Ret () (Machine (with_table t (board_kern 100)) s' irq_regs) ∧
    p_state (pt_proc t 1) = RUNNABLE ∧ sdrw_wait 100 s' = Ret () s'.
Proof.
  destruct (act_run ex_head sd_idle ex_que (Submit 100) sd_idle_rel (proj1 (ex_acts_ok 0 I))) as (s & E & R).
  assert (irq_regs_of (run_act ex_head (Submit 100) sd_idle) = Some (IRQ_GPU, 0, VC_ARASANSDIO_INT)) as Hs by (vm_compute; reflexivity).
  rewrite E in Hs. cbn [irq_regs_of] in Hs. injection Hs as S1 S2 S3.
  assert (gpu_pending (m_dev (Machine (board_kern 100) (fire s) irq_regs)) 0 VC_ARASANSDIO_INT) as Hg.
  { split; [exists IRQ_GPU; split; [|split_and!; reflexivity]| |]; cbn [io_read board_mmio]; unfold board_read;
      cbn [m_dev m_sd fire with_dev lset sd_lens sd_dev em_fire board_emmc set_em b_src b_p1 b_p2]; rewrite ?S1, ?S2, ?S3; reflexivity. }
  destruct (trap_sd (λ _, None) ex_head 10 0 (board_kern 100) irq_regs s (q_step ex_que (Submit 100)) 0 VC_ARASANSDIO_INT
    eq_refl Hg eq_refl eq_refl R) as (t & s' & E' & _ & Hw & Hr).
  exists s, t, s'. split; [exact E|]. split; [exact E'|]. split; [|exact Hr].
  destruct Hw as (_ & _ & _ & Hp). rewrite (Hp 1) by (unfold in_table, NPROC; lia). reflexivity.
Defined.
