(* ===== verification/FirstProcs.v ===== *)
(** The first processes: what [proc_alloc], [user_init] and [user_idle_init] of
    kern/proc.c leave in memory and in the process table when the kernel
    starts. *)

From S2P Require Import Prelude Memory Sleeplock Superblock Txn CString Kalloc Vm PageTable AddrSpace UserMem NewSpace BufferCache.
From S2P Require Import Fs File Proc ProcSpec.

Section Processes.
Context {T : Type} `{!TxnOps T, !OpOps T}.
Context (kend trapret forkret : Z) (Hkend : KERNBASE < kend).
Context (Htrap : 0 ≤ trapret < 2 ^ 64) (Hfork : 0 ≤ forkret < 2 ^ 64 - 8).
Context (devsw_read : Z → option (Z → Z → M (fs T) (Z * list Z))).
Implicit Types (s : kst) (t : ptable) (k : kern T).

Definition root_inode : inode := Inode ROOTDEV ROOTINO 1 initsleeplock 0 0 0 0 0 0 (replicate 13 0).
Lemma namei_root sb (x : T) :
  Fs.namei 0 0 devsw_read [slash] [] (Fs sb (λ _, inode0) x) = Ret (Some 0) (Fs sb (upd (λ _, inode0) 0 root_inode) x).
Proof. reflexivity. Qed.

(** ** A new process *)

(** The words of the kernel stack [c] that the first switch to a process
    needs. *)
Record stack_ready (m : mem) (c : Z) : Prop := {
  sr_trapret : load64 m (c + KSTACKSIZE - TF_SIZE - 8) = trapret;
  sr_sp : load64 m (c + KSTACKSIZE - TF_SIZE - 16) = c + KSTACKSIZE;
  sr_x30 : load64 m (c + KSTACKSIZE - TF_SIZE - 16 - CONTEXT_SIZE + 88) = forkret + 8;
}.

Lemma stack_ready_ext m m' c :
  (∀ x, c ≤ x < c + KSTACKSIZE - TF_SIZE → m' x = m x) → stack_ready m c → stack_ready m' c.
Proof.
  intros Hm [H1 H2 H3]. unfold KSTACKSIZE, TF_SIZE, CONTEXT_SIZE in *.
  split; (etransitivity; [apply load64_ext; intros i Hi; apply Hm; unfold KSTACKSIZE, TF_SIZE, CONTEXT_SIZE; lia|done]).
Qed.

Lemma proc_alloc_mem s t i c free K :
  find_unused t = Some i → vm_inv kend s (c :: free) K →
  ∃ s1, (∀ f, proc_alloc trapret forkret (Kern (T := T) f s t) = Ret (Some i) (Kern f s1 (embryo i c t))) ∧
    extends kend s (c :: free) K s1 free K ∧ owned kend free K c ∧ stack_ready (k_mem s1) c.
Proof.
  intros Hi Hv. destruct (extends_alloc kend s c free K Hv) as (s1 & E1 & Ho & Hc0 & Hx).
  pose proof (proj1 Ho) as (_ & _ & Hcb).
  set (tf := c + KSTACKSIZE - TF_SIZE).
  set (m' := store64 (store64 (store64 (k_mem s1) (tf - 8) trapret) (tf - 16) (c + KSTACKSIZE)) (tf - 16 - CONTEXT_SIZE + 88) (forkret + 8)).
  exists (mkKst m' (k_free s1)). split; [|split; [|split; [done|]]].
  - intros f. unfold proc_alloc. erewrite mbind_ret; [|reflexivity]. cbn [k_ptable]. rewrite Hi.
    mlift E1. destruct (Z.eqb_spec c 0); [done|].
    repeat (erewrite mbind_ret; [|reflexivity]).
    unfold get_proc, gets. cbn -[store64]. rewrite upd_eq. reflexivity.
  - apply Hx. intros x Hout. unfold m', tf, KSTACKSIZE, TF_SIZE, CONTEXT_SIZE, PGSIZE in *.
    rewrite !store64_outside by lia. done.
  - unfold page_ok, KERNBASE, PHYSTOP in *. unfold m', tf. cbn [k_mem]. split.
    + rewrite 2!(load64_outside _ _ _ _ 8 (store64_outside _ _ _)) by (unfold KSTACKSIZE, TF_SIZE, CONTEXT_SIZE; lia).
      by apply load64_store64.
    + rewrite (load64_outside _ _ _ _ 8 (store64_outside _ _ _)) by (unfold KSTACKSIZE, TF_SIZE, CONTEXT_SIZE; lia).
      apply load64_store64. unfold KSTACKSIZE. lia.
    + apply load64_store64. lia.
Qed.

(** The rest of the memory of a new process: the page table [r] with one page,
    and the trap frame at the top of the stack [c]. *)
Lemma process_memory s s1 s3 c free K f1 f' K' r m' code :
  extends kend s free K s1 f1 K → c ∈ free → owned kend f1 K c → stack_ready (k_mem s1) c →
  extends kend s1 f1 K s3 f' K' → is_root K' r → has_program (k_mem s3) r code →
  same_outside (k_mem s3) m' (c + KSTACKSIZE - TF_SIZE) TF_SIZE →
  extends kend s free K (mkKst m' (k_free s3)) f' K' ∧ owned kend f' K' c ∧ stack_ready m' c ∧ has_program m' r code.
Proof.
  intros X1 Hin Ho Hs X2 Hr Hp Hm.
  destruct (extends_owned _ _ _ _ _ _ _ _ X2 Ho) as [Ho' Hc].
  assert (same_outside (k_mem s3) m' c PGSIZE) as Hm'.
  { intros x Hx. apply Hm. unfold KSTACKSIZE, TF_SIZE, PGSIZE in *. lia. }
  split; [|split; [done|split]].
  - eapply extends_write; [by eapply extends_trans|done..].
  - apply (stack_ready_ext (k_mem s1)); [|done]. intros x Hx. rewrite Hm by lia. apply Hc.
    unfold in_page, KSTACKSIZE, TF_SIZE, PGSIZE in *. lia.
  - eapply (write_program kend s3); [by apply (ex_inv _ _ _ _ _ _ _ X2)|done..].
Qed.

(** What the return to user mode loads: address 0, stack at the end of the
    page, user mode. *)
Record frame_ready (m : mem) (tf : Z) : Prop := {
  fr_elr : load64 m (tf + tf_elr) = 0;
  fr_spsr : load64 m (tf + tf_spsr) = 0;
  fr_sp : load64 m (tf + tf_sp) = PGSIZE;
}.
Definition frame_stores (m : mem) (tf : Z) : mem :=
  store64 (store64 (store64 m (tf + tf_spsr) 0) (tf + tf_sp) PGSIZE) (tf + tf_elr) 0.
Definition idle_stores (m : mem) (tf : Z) : mem :=
  store64 (store64 (store64 (store64 (memset m tf 0 TF_SIZE) (tf + tf_spsr) 0) (tf + tf_sp) PGSIZE) (tf + tf_r 30) 0) (tf + tf_elr) 0.

Ltac frame_words :=
  repeat first [rewrite load64_store64 by (unfold PGSIZE; lia); reflexivity
               |rewrite (load64_outside _ _ _ _ 8 (store64_outside _ _ _)) by (unfold tf_elr, tf_spsr, tf_sp, tf_r; lia)].
Ltac frame_same :=
  intros x Hx; unfold TF_SIZE, tf_elr, tf_spsr, tf_sp, tf_r in *; rewrite !store64_outside by lia.

Lemma frame_stores_ok m tf : frame_ready (frame_stores m tf) tf ∧ same_outside m (frame_stores m tf) tf TF_SIZE.
Proof.
  unfold frame_stores. split; [split; frame_words|]. by frame_same.
Qed.
Lemma idle_stores_ok m tf : frame_ready (idle_stores m tf) tf ∧ same_outside m (idle_stores m tf) tf TF_SIZE.
Proof.
  unfold idle_stores. split; [split; frame_words|]. frame_same.
  by apply (memset_spec m tf 0 304).
Qed.

(** ** The process table that [main] fills *)

(** Process [i] with the stack and the page table [cr]. *)
Definition boot_tf (cr : Z * Z) : Z := cr.1 + KSTACKSIZE - TF_SIZE.
Definition boot_proc (i : nat) (cr : Z * Z) : proc :=
  mkProc PGSIZE cr.2 cr.1 RUNNABLE (Z.of_nat i + 1) None (boot_tf cr) (boot_tf cr - 16 - CONTEXT_SIZE) 0 0
         (replicate (Z.to_nat NOFILE) None) (match i with O => Some 0 | _ => None end) 0 (-1).

(** Once the scheduler switches to it, the process runs [code] from address 0. *)
Record process_ready (m : mem) (free : list Z) (K : gmap Z reg) (cr : Z * Z) (code : Z → Z) : Prop := {
  pr_stack : owned kend free K cr.1;
  pr_root : is_root K cr.2;
  pr_words : stack_ready m cr.1;
  pr_program : has_program m cr.2 code;
  pr_frame : frame_ready m (boot_tf cr);
}.

Lemma extends_ready s f K s' f' K' cr code :
  vm_inv kend s f K → extends kend s f K s' f' K' →
  process_ready (k_mem s) f K cr code → process_ready (k_mem s') f' K' cr code.
Proof.
  intros Hi Hx [H1 H2 H3 H4 [F1 F2 F3]]. destruct (extends_owned _ _ _ _ _ _ _ _ Hx H1) as [H1' Hm].
  split; [done|by eapply extends_root| |by eapply (extends_program kend s f K)|].
  - apply (stack_ready_ext (k_mem s)); [|done]. intros x Hb. apply Hm.
    unfold in_page, KSTACKSIZE, TF_SIZE, PGSIZE in *. lia.
  - unfold boot_tf, tf_elr, tf_spsr, tf_sp, KSTACKSIZE, TF_SIZE, in_page, PGSIZE in *.
    split; unfold tf_elr, tf_spsr, tf_sp, PGSIZE; (etransitivity; [apply load64_ext; intros j Hj; apply Hm; lia|done]).
Qed.

(** The processes [l] have been made, and run [code]. *)
Record booted_with (m0 : mem) (code : nat → Z → Z) (l : list (Z * Z)) s t (free : list Z) (K : gmap Z reg) : Prop := {
  bw_inv : vm_inv kend s free K;
  bw_below x : x < kend → k_mem s x = m0 x;
  bw_next : pt_nextpid t = Z.of_nat (length l) + 1;
  bw_cpu c : pt_cpu t c = None;
  bw_init : pt_init t = match l with [] => None | _ => Some (Z.of_nat (length l) - 1) end;
  bw_used i cr : l !! i = Some cr → pt_proc t (Z.of_nat i) = boot_proc i cr ∧ process_ready (k_mem s) free K cr (code i);
  bw_unused i : Z.of_nat (length l) ≤ i → pt_proc t i = proc0;
  bw_stacks : NoDup l.*1;
  bw_roots : NoDup l.*2;
}.

Lemma bw_find m0 code l s t free K :
  booted_with m0 code l s t free K → Z.of_nat (length l) < NPROC → find_unused t = Some (Z.of_nat (length l)).
Proof.
  intros Hb Hl. unfold find_unused. pose proof (scan_spec (Z.to_nat NPROC) (unused t) 0) as H.
  assert (∀ i, 0 ≤ i < Z.of_nat (length l) → unused t i = false) as Hu.
  { intros i Hi. destruct (lookup_lt_is_Some_2 l (Z.to_nat i) ltac:(lia)) as [cr Hcr].
    destruct (bw_used _ _ _ _ _ _ _ Hb _ _ Hcr) as [E _]. rewrite Z2Nat.id in E by lia. unfold unused. by rewrite E. }
  assert (unused t (Z.of_nat (length l)) = true) as Hn.
  { unfold unused. by rewrite (bw_unused _ _ _ _ _ _ _ Hb) by lia. }
  rewrite Z2Nat.id, Z.add_0_l in H by done. destruct (scan _ 0 (unused t)) as [j|].
  - destruct H as (Hj & Hf & Hlt). f_equal.
    destruct (Z.lt_trichotomy j (Z.of_nat (length l))) as [?|[?|?]]; [|done|].
    + rewrite Hu in Hf by lia. done.
    + by rewrite (Hlt (Z.of_nat (length l))) in Hn by lia.
  - by rewrite (H (Z.of_nat (length l))) in Hn by lia.
Qed.

Lemma bw_step m0 code l s t c r free0 K s' t' free K' :
  booted_with m0 code l s t free0 K → c ∈ free0 → r ∈ free0 → extends kend s free0 K s' free K' →
  process_ready (k_mem s') free K' (c, r) (code (length l)) →
  pt_nextpid t' = pt_nextpid t + 1 → (∀ x, pt_cpu t' x = pt_cpu t x) → pt_init t' = Some (Z.of_nat (length l)) →
  pt_proc t' (Z.of_nat (length l)) = boot_proc (length l) (c, r) →
  (∀ j, j ≠ Z.of_nat (length l) → pt_proc t' j = pt_proc t j) →
  booted_with m0 code (l ++ [(c, r)]) s' t' free K'.
Proof.
  intros [Hi Hb Hn Hc Hin Hus Hun Hst Hrt] Hcf Hrf Hx Hr Hn' Hc' Hi' Hp Ho. split.
  - apply Hx.
  - intros x Hlt. rewrite <-(Hb x Hlt). eapply (same_below kend s free0 K); [done|apply Hx|done].
  - rewrite Hn', Hn, length_app. cbn. lia.
  - intros x. by rewrite Hc'.
  - rewrite Hi'. destruct l as [|q l]; [done|]. cbn [app length]. rewrite length_app. cbn [length]. f_equal. lia.
  - intros i cr [Hl|[Hge Hl]]%lookup_app_Some.
    + pose proof (lookup_lt_Some _ _ _ Hl). destruct (Hus i cr Hl) as [E R]. rewrite Ho by lia. split; [done|].
      by eapply (extends_ready s free0 K).
    + apply list_lookup_singleton_Some in Hl as [Hi0 <-]. assert (i = length l) as -> by lia. done.
  - intros i Hge. rewrite length_app in Hge. cbn in Hge. rewrite Ho by lia. apply Hun. lia.
  - rewrite fmap_app. apply NoDup_app. split; [done|]. split; [|apply NoDup_singleton].
    intros x (cr & -> & [i Hl]%list_elem_of_lookup)%list_elem_of_fmap Hx'%list_elem_of_singleton.
    destruct (Hus i cr Hl) as [_ [(_ & Hnf & _) _ _ _ _]]. rewrite Hx' in Hnf. done.
  - rewrite fmap_app. apply NoDup_app. split; [done|]. split; [|apply NoDup_singleton].
    intros x (cr & -> & [i Hl]%list_elem_of_lookup)%list_elem_of_fmap Hx'%list_elem_of_singleton.
    destruct (Hus i cr Hl) as [_ [_ Hroot _ _ _]]. unfold is_root in Hroot. rewrite Hx' in Hroot. cbn in Hroot.
    by rewrite (vi_disj _ _ _ _ Hi r Hrf) in Hroot.
Qed.

Lemma has_program_eq m root code code' :
  (∀ va, 0 ≤ va < PGSIZE → code va = code' va) → has_program m root code → has_program m root code'.
Proof.
  intros E H va Hva. specialize (H va Hva). destruct (Z.ltb_spec va PGSIZE); [|done]. by rewrite <-E by lia.
Qed.

(** The calls that [user_init] and [user_idle_init] share, and the memory they
    leave once the trap frame has been filled in. *)
Lemma spawn m0 code l s t free K binary sz :
  booted_with m0 code l s t free K → Z.of_nat (length l) < NPROC → (6 ≤ length free)%nat →
  0 ≤ sz ≤ 4096 → binary + sz ≤ kend →
  ∃ c r s1 s2 s3 free' K',
    (∀ f, proc_alloc trapret forkret (Kern (T := T) f s t) =
          Ret (Some (Z.of_nat (length l))) (Kern f s1 (embryo (Z.of_nat (length l)) c t))) ∧
    pgdir_init s1 = Ret r s2 ∧ r ≠ 0 ∧ uvm_init 1 r binary sz s2 = Ret () s3 ∧
    c ∈ free ∧ r ∈ free ∧ (length free ≤ length free' + 6)%nat ∧
    ∀ m', same_outside (k_mem s3) m' (boot_tf (c, r)) TF_SIZE → frame_ready m' (boot_tf (c, r)) →
      extends kend s free K (mkKst m' (k_free s3)) free' K' ∧
      process_ready m' free' K' (c, r) (code_of m0 binary sz).
Proof.
  intros Hb Hl Hf Hsz Hbin. pose proof (bw_find _ _ _ _ _ _ _ Hb Hl) as Hfind.
  destruct free as [|c [|r [|d free]]]; cbn in Hf; try lia. cbn [length].
  pose proof (bw_inv _ _ _ _ _ _ _ Hb) as Hi.
  destruct (proc_alloc_mem s t (Z.of_nat (length l)) c (r :: d :: free) K Hfind Hi) as (s1 & E1 & X1 & Ho & Hs).
  destruct (new_program kend Hkend s1 r d free K binary sz (ex_inv _ _ _ _ _ _ _ X1) ltac:(lia) Hsz Hbin)
    as (s2 & s3 & free' & K' & E2 & E3 & Hr0 & X2 & Hr & Hp & Hlen).
  exists c, r, s1, s2, s3, free', K'. split; [done|]. split; [done|]. split; [done|]. split; [done|].
  split; [by left|]. split; [by right; left|]. split; [lia|]. intros m' Hm Hfr.
  destruct (process_memory s s1 s3 c _ K _ free' K' r m' _ X1 ltac:(by left) Ho Hs X2 Hr Hp Hm) as (X & Ho' & Hs' & Hp').
  split; [done|]. split; [done..| |done]. eapply has_program_eq; [|exact Hp'].
  intros va Hva. unfold code_of. destruct (Z.ltb_spec va sz); [|done].
  rewrite (extends_below kend s (c :: r :: d :: free) K s1 _ K _ Hi X1) by lia. apply (bw_below _ _ _ _ _ _ _ Hb). lia.
Qed.

(** *** Steps on a kernel state *)

Section Runs.
Context (F : files T).
Lemma run_get s t i : get_proc i (Kern F s t) = Ret (pt_proc t i) (Kern F s t).
Proof. done. Qed.
Lemma run_put s t i p : put_proc i p (Kern F s t) = Ret () (Kern F s (set_proc t i p)).
Proof. done. Qed.
Lemma run_table s t f : table f (Kern F s t) = Ret () (Kern F s (f t)).
Proof. done. Qed.
Lemma run_not_null s t (i : Z) : not_null (Some i) (Kern F s t) = Ret i (Kern F s t).
Proof. done. Qed.
Lemma run_mem {A} (m : M kst A) a s s' t : m s = Ret a s' → (lift m : M (kern T) A) (Kern F s t) = Ret a (Kern F s' t).
Proof. intros E. unfold lift. cbn. by rewrite E. Qed.
Lemma run_st a v s t :
  (lift (st a v) : M (kern T) ()) (Kern F s t) = Ret () (Kern F (mkKst (store64 (k_mem s) a v) (k_free s)) t).
Proof. done. Qed.
Lemma run_setmem a v n s t :
  (lift (setmem a v n) : M (kern T) ()) (Kern F s t) = Ret () (Kern F (mkKst (memset (k_mem s) a v n) (k_free s)) t).
Proof. done. Qed.
End Runs.
Ltac krun := erewrite mbind_ret; [|
  lazymatch goal with
  | |- get_proc _ _ = _ => apply run_get
  | |- put_proc _ _ _ = _ => apply run_put
  | |- table _ _ = _ => apply run_table
  | |- not_null _ _ = _ => apply run_not_null
  | |- lift (st _ _) _ = _ => apply run_st
  | |- lift (setmem _ _ _) _ = _ => apply run_setmem
  end].
Ltac kmem H := erewrite mbind_ret; [|apply run_mem; exact H].

Lemma user_init_ok m0 code sb x ft s t free K binary size :
  booted_with m0 code [] s t free K → (6 ≤ length free)%nat →
  0 ≤ s32 size ≤ 4096 → binary + s32 size ≤ kend → code 0%nat = code_of m0 binary (s32 size) →
  ∃ cr s' t' free' K',
    user_init trapret forkret devsw_read 1 0 0 binary size (Kern (Files ft (Fs sb (λ _, inode0) x)) s t) =
      Ret () (Kern (Files ft (Fs sb (upd (λ _, inode0) 0 root_inode) x)) s' t') ∧
    booted_with m0 code [cr] s' t' free' K' ∧ (length free ≤ length free' + 6)%nat.
Proof.
  intros Hb Hf Hsz Hbin Hcode.
  destruct (spawn m0 code [] s t free K binary (s32 size) Hb ltac:(done) Hf Hsz Hbin)
    as (c & r & s1 & s2 & s3 & free' & K' & E1 & E2 & Hr0 & E3 & Hc & Hr & Hlen & Hfin).
  change (Z.of_nat (length [])) with 0 in *.
  destruct (frame_stores_ok (k_mem s3) (boot_tf (c, r))) as [Hfr Hsame].
  destruct (Hfin _ Hsame Hfr) as [X R]. set (s4 := mkKst (frame_stores (k_mem s3) (boot_tf (c, r))) (k_free s3)) in *.
  set (t1 := embryo 0 c t) in *.
  set (t2 := set_proc t1 0 (with_vm (pt_proc t1 0) (p_sz (pt_proc t1 0)) r)).
  set (t3 := mkPtable (pt_proc t2) (pt_nextpid t2) (Some 0) (pt_cpu t2)).
  set (t4 := set_state t3 0 RUNNABLE).
  set (t5 := set_proc t4 0 (with_vm (with_cwd (pt_proc t4 0) (Some 0)) PGSIZE (p_pgdir (pt_proc t4 0)))).
  assert (p_tf (pt_proc t3 0) = boot_tf (c, r)) as Htf by reflexivity.
  exists (c, r), s4, t5, free', K'. split; [|split; [|done]].
  - unfold user_init. mstep (E1 (Files ft (Fs sb (λ _, inode0) x))). krun. kmem E2. krun. krun.
    destruct (Z.eqb_spec r 0); [done|]. krun. kmem E3. krun. fold t2. fold t3. rewrite !Htf. krun. krun. krun. krun.
    erewrite mbind_ret; [|apply lift_ret, lift_ret, namei_root].
    krun. reflexivity.
  - apply (bw_step m0 code [] s t c r free K s4 t5 free' K' Hb Hc Hr X); try done.
    + cbn [length]. rewrite Hcode. exact R.
    + cbn. by rewrite (bw_next _ _ _ _ _ _ _ Hb).
    + change (pt_proc t5 (Z.of_nat (length []))) with (pt_proc t5 0). cbn.
      rewrite (bw_unused _ _ _ _ _ _ _ Hb 0) by done. rewrite (bw_next _ _ _ _ _ _ _ Hb). reflexivity.
    + intros j Hj. cbn. by rewrite !upd_ne by done.
Qed.

Lemma user_idle_init_ok m0 code l F s t free K binary size :
  booted_with m0 code l s t free K → (0 < length l)%nat → Z.of_nat (length l) < NPROC → (6 ≤ length free)%nat →
  0 ≤ s32 (size - 0x1c) ≤ 4096 → binary + 0x1c + s32 (size - 0x1c) ≤ kend →
  code (length l) = code_of m0 (binary + 0x1c) (s32 (size - 0x1c)) →
  ∃ cr s' t' free' K',
    user_idle_init trapret forkret 1 binary size (Kern (T := T) F s t) = Ret () (Kern F s' t') ∧
    booted_with m0 code (l ++ [cr]) s' t' free' K' ∧ (length free ≤ length free' + 6)%nat.
Proof.
  intros Hb Hl0 Hl Hf Hsz Hbin Hcode.
  destruct (spawn m0 code l s t free K (binary + 0x1c) (s32 (size - 0x1c)) Hb Hl Hf Hsz Hbin)
    as (c & r & s1 & s2 & s3 & free' & K' & E1 & E2 & Hr0 & E3 & Hc & Hr & Hlen & Hfin).
  set (i := Z.of_nat (length l)) in *.
  destruct (idle_stores_ok (k_mem s3) (boot_tf (c, r))) as [Hfr Hsame].
  destruct (Hfin _ Hsame Hfr) as [X R]. set (s4 := mkKst (idle_stores (k_mem s3) (boot_tf (c, r))) (k_free s3)) in *.
  set (t1 := embryo i c t) in *.
  set (t2 := set_proc t1 i (with_vm (pt_proc t1 i) (p_sz (pt_proc t1 i)) r)).
  set (t3 := mkPtable (pt_proc t2) (pt_nextpid t2) (Some i) (pt_cpu t2)).
  set (t4 := set_state t3 i RUNNABLE).
  set (t5 := set_proc t4 i (with_vm (pt_proc t4 i) PGSIZE (p_pgdir (pt_proc t4 i)))).
  assert (p_tf (pt_proc t3 i) = boot_tf (c, r)) as Htf by (cbn; by rewrite !upd_eq).
  exists (c, r), s4, t5, free', K'. split; [|split; [|done]].
  - unfold user_idle_init. mstep (E1 F). krun. kmem E2. krun. krun.
    destruct (Z.eqb_spec r 0); [done|]. krun. kmem E3. krun. fold t2. fold t3. rewrite !Htf.
    do 7 krun. reflexivity.
  - apply (bw_step m0 code l s t c r free K s4 t5 free' K' Hb Hc Hr X); try done.
    + rewrite Hcode. exact R.
    + cbn. rewrite (bw_next _ _ _ _ _ _ _ Hb). apply s32_small. unfold NPROC in Hl. lia.
    + fold i. cbn. rewrite !upd_eq. unfold with_state, with_vm. cbn. rewrite (bw_unused _ _ _ _ _ _ _ Hb i) by (unfold i; lia).
      cbn. rewrite (bw_next _ _ _ _ _ _ _ Hb). unfold boot_proc. destruct (length l); [lia|done].
    + fold i. intros j Hj. cbn. by rewrite !upd_ne by done.
Qed.

Lemma bw_code m0 code code' l s t free K :
  (∀ i va, code i va = code' i va) → booted_with m0 code l s t free K → booted_with m0 code' l s t free K.
Proof.
  intros E [H1 H2 H3 H4 H5 H6 H7 H8 H9]. split; try done. intros i cr Hl. destruct (H6 i cr Hl) as [? [R1 R2 R3 R4 R5]].
  split; [done|]. split; try done. eapply has_program_eq; [|exact R4]. intros va _. apply E.
Qed.

(** The table satisfies the invariants of file ProcSpec. *)
Lemma bw_table base m0 code l s t free K :
  booted_with m0 code l s t free K → (0 < length l ≤ 64)%nat → pt_ok t ∧ tree_ok t ∧ wait_ok base t.
Proof.
  intros Hb Hl.
  assert (∀ i, in_table i → p_parent (pt_proc t i) = None ∧
    if decide (i < Z.of_nat (length l)) then p_state (pt_proc t i) = RUNNABLE ∧ p_pid (pt_proc t i) = i + 1
    else p_state (pt_proc t i) = UNUSED) as H.
  { intros i [Hi _]. case_decide as Hlt.
    - destruct (lookup_lt_is_Some_2 l (Z.to_nat i) ltac:(lia)) as [cr Hcr].
      destruct (bw_used _ _ _ _ _ _ _ Hb _ _ Hcr) as [E _]. rewrite Z2Nat.id in E by lia. rewrite E. cbn. split; [done|]. split; [done|]. lia.
    - by rewrite (bw_unused _ _ _ _ _ _ _ Hb) by lia. }
  assert (∀ c, pt_cpu t c = None) as Hc by apply Hb.
  assert (pt_init t = Some (Z.of_nat (length l) - 1)) as Hin.
  { rewrite (bw_init _ _ _ _ _ _ _ Hb). destruct l; [cbn in Hl; lia|done]. }
  pose proof (bw_next _ _ _ _ _ _ _ Hb) as Hn.
  assert (∀ i, in_table i → p_state (pt_proc t i) ≠ UNUSED → i < Z.of_nat (length l) ∧ p_pid (pt_proc t i) = i + 1) as Hused.
  { intros i Hi Hu. destruct (H i Hi) as [_ Hs]. case_decide; [|done]. split; [done|apply Hs]. }
  assert (∀ i, in_table i → p_state (pt_proc t i) = RUNNABLE ∨ p_state (pt_proc t i) = UNUSED) as Hst.
  { intros i Hi. destruct (H i Hi) as [_ Hs]. case_decide; [left; apply Hs|by right]. }
  split; [|split].
  - split.
    + intros c i _. by rewrite Hc.
    + intros c c' i _ _. by rewrite Hc.
    + intros i Hi Hr. destruct (Hst i Hi); congruence.
    + intros i q Hi Hq. destruct (H i Hi). congruence.
    + intros i Hi _. apply (H i Hi).
    + intros i Hi. rewrite Hin in Hi. injection Hi as <-. assert (in_table (Z.of_nat (length l) - 1)) as Hi by (unfold in_table, NPROC; lia).
      split; [done|]. destruct (H _ Hi) as [_ Hs]. rewrite decide_True in Hs by lia. right; left; apply Hs.
    + intros i Hi Hu. destruct (Hused i Hi Hu) as [? ->]. unfold in_table in Hi. lia.
    + intros i j Hi Hj Hu Hv. destruct (Hused i Hi Hu) as [_ ->], (Hused j Hj Hv) as [_ ->]. lia.
    + rewrite Hn. lia.
  - split; intros i Hi.
    + destruct (H i Hi). congruence.
    + rewrite Hin in Hi. injection Hi as <-. apply H. unfold in_table, NPROC. lia.
  - intros i Hi Hs. destruct (Hst i Hi); congruence.
Qed.
End Processes.
