(* ===== verification/Main.v ===== *)
(** The start of the kernel: kern/main.c, with [console_init] of
    kern/console.c.

    [edata] and [k_end] are the linker's symbols, [binary] and [size] those of
    the program of the first processes, user/initcode.S.  The functions that
    only initialise a spin lock have no counterpart, and neither have the
    messages, [lvbar] and the table [devsw], which is a parameter.  [statics] is
    what the state below the file system keeps in static variables. *)

From S2P Require Import Prelude Memory Dlist Sleeplock BufferCache Bio Superblock Log Txn Kalloc Vm Fs File Console Proc ProcSpec.
From S2P Require Import Syscall Sysfile Exec Dispatch Mmio Sd SdQueue Uart Trap.

Record statics := Statics { st_log : log; st_cache : bcache; st_con : con }.

#[export] Instance statics_con : Lens statics con := {
  lget := st_con; lset c x := Statics (st_log x) (st_cache x) c;
  lget_lset t s := eq_refl; lset_lget s := match s with Statics _ _ _ => eq_refl end; lset_lset t t' s := eq_refl;
}.
#[export] Instance statics_cache : Lens statics bcache := {
  lget := st_cache; lset c x := Statics (st_log x) c (st_con x);
  lget_lset t s := eq_refl; lset_lget s := match s with Statics _ _ _ => eq_refl end; lset_lset t t' s := eq_refl;
}.

(** ** [memset(edata, 0, end - edata)], as seen by the static variables

    Those with an initial value that is not zero, [nextpid] and [panicked], lie
    before [edata]; what the model lists of the devices besides stays. *)

Definition zero_statics (x : statics) : statics :=
  let c := st_con x in
  Statics log0 (mkBcache (λ _, buf0) (mkLheap (λ _, 0) (λ _, 0)))
    (Con (replicate (Z.to_nat INPUT_BUF) 0) 0 0 0 (c_panicked c) (c_out c) (c_wakes c)).
Definition zero_ptable (t : ptable) : ptable := mkPtable (λ _, proc0) (pt_nextpid t) None (λ _, None).

Section Main.
Context `{!Kernel, !Libc, !Elf} {T : Type} `{!TxnOps T, !OpOps T, !Lens T statics}.
Context {D : Type} `{!Mmio D}.
Context (edata binary size sdque : Z) (mbox_fuel : nat) (mbox_buf : Z).
Context (devsw_read : Z → option (Z → Z → M (fs T) (Z * list Z))).
Abbreviation K := (M (machine T D)).

#[export] Instance main_con : Lens T con := lens_comp _ statics_con.
#[export] Instance main_cache : Lens T bcache := lens_comp _ statics_cache.

Definition zero_fs (f : fs T) : fs T :=
  Fs (mkSb 0 0 0 0 0 0 0) (λ _, inode0) (lset (zero_statics (lget (f_tx f))) (f_tx f)).
Definition zero_kern (k : kern T) : kern T :=
  Kern (Files (λ _, file0) (zero_fs (ft_fs (k_files k)))) (mkKst (k_mem (k_kmem k)) 0) (zero_ptable (k_ptable k)).
Definition zero_sd (s : sdst D) : sdst D :=
  SdSt sdCard0 0 0 (λ _, buf0) (mkLheap (λ _, 0) (λ _, 0)) (sd_woken s) (sd_dev s).
Definition clear_bss : K () :=
  lift (lift (setmem edata 0 (k_end - edata)) : M (kern T) ()) ;;
  modify (λ m, Machine (zero_kern (m_kern m)) (zero_sd (m_sd m)) (m_regs m)).

(** ** [main] *)

Definition console_init : K () := lift uart_init.
Definition on_mem {A} (m : M kst A) : K A := lift (lift m : M (kern T) A).
(** [initproc] is the process made last. *)
Definition main_processes : K () :=
  lift (user_init k_trapret k_forkret devsw_read 1 0 0 binary size) ;;
  lift (user_idle_init k_trapret k_forkret 1 binary size) ;;
  lift (user_idle_init k_trapret k_forkret 1 binary size) ;;
  lift (user_idle_init k_trapret k_forkret 1 binary size).
Definition main_binit : K () :=
  lift (on_fs (lift (modify (λ t : T, lset (binit (lget t)) t) : M T ())) : M (kern T) ()).
(** What CPU 0 does first. *)
Definition main_init : K () :=
  clear_bss ;;
  console_init ;;
  on_mem (alloc_init k_end (init_fuel k_end)) ;;
  on_mem (check_free_list k_end (init_fuel k_end)) ;;
  irq_init ;;
  main_processes ;;
  main_binit ;;
  lift (sd_init sdque mbox_fuel mbox_buf) ;;
  mret ().

(** ** All CPUs

    Where a CPU is in [main]: before [if (cpuid() == 0)], at the loop that
    waits for [started], or in [scheduler]. *)
Inductive phase := Entry | Waiting | Scheduling.
#[export] Instance phase_eq_dec : EqDecision phase.
Proof. solve_decision. Defined.
Record system := System { sy_phase : Z → phase; sy_started : Z; sy_mach : machine T D }.
Definition sy_table (s : system) : ptable := k_ptable (m_kern (sy_mach s)).

(** The constants as CPU [c] sees them. *)
Definition on_cpu (c : Z) : Kernel := {|
  k_end := k_end; k_ptable_addr := k_ptable_addr; k_trapret := k_trapret; k_forkret := k_forkret;
  k_input_r := k_input_r; k_cpu := c; k_fuel := k_fuel;
|}.
(** What is left of [main] after [started] is seen, up to the loop of
    [scheduler]. *)
Definition main_rest (c : Z) : K () :=
  timer_init (H := on_cpu c) ;; lift (table (λ t, set_cpu t c None)).

Inductive sstep : system → system → Prop :=
| ss_init m m' ph st :
    ph 0 = Entry → main_init m = Ret () m' → sstep (System ph st m) (System (upd ph 0 Waiting) 1 m')
| ss_enter c ph st m :
    0 < c < NCPU → ph c = Entry → sstep (System ph st m) (System (upd ph c Waiting) st m)
| ss_go c ph st m m' :
    0 ≤ c < NCPU → ph c = Waiting → st ≠ 0 → main_rest c m = Ret () m' →
    sstep (System ph st m) (System (upd ph c Scheduling) st m')
| ss_run c ph st m m' :
    (* one critical section of the process table, by a CPU that has got there *)
    0 ≤ c < NCPU → ph c = Scheduling → pstep k_ptable_addr (k_ptable (m_kern m)) (k_ptable (m_kern m')) →
    (∀ c', ph c' ≠ Scheduling → pt_cpu (k_ptable (m_kern m')) c' = pt_cpu (k_ptable (m_kern m)) c') →
    sstep (System ph st m) (System ph st m').
End Main.
