(* ===== verification/MainSpec.v ===== *)
(** The state in which [main] starts the schedulers. *)

From S2P Require Import Prelude Memory Dlist Sleeplock BufferCache Bio Superblock Log Txn CString Kalloc Vm PageTable AddrSpace UserMem NewSpace.
From S2P Require Import Fs File Console Proc ProcSpec FirstProcs Syscall Sysfile Exec Dispatch Mmio Triple SdRegs Sd SdQueue SdInit Uart Trap Main.

#[local] Instance no_faults : Faults := {| starve := False; panics := False |}.

Section Main.
Context `{!Kernel, !Libc, !Elf} {T : Type} `{!TxnOps T, !OpOps T, !Lens T statics}.
Context {D : Type} `{!Mmio D}.
Context (edata binary size sdque : Z) (mbox_fuel : nat) (mbox_buf : Z).
Context (devsw_read : Z → option (Z → Z → M (fs T) (Z * list Z))).
Implicit Types (m : machine T D).

(** ** Device registers *)

Definition only_device m0 m : Prop := ∃ d, m = Machine (m_kern m0) (lset d (m_sd m0)) (m_regs m0).

Lemma only_device_set m0 m d : only_device m0 m → only_device m0 (lset (Lens := machine_dev) d m).
Proof. intros [d0 ->]. exists d. reflexivity. Qed.
Lemma only_device_refl m : only_device m m.
Proof. exists (sd_dev (m_sd m)). destruct m as [k [] r]. reflexivity. Qed.
Lemma only_device_trans m0 m1 m2 : only_device m0 m1 → only_device m1 m2 → only_device m0 m2.
Proof. intros [d1 ->] [d2 ->]. exists d2. reflexivity. Qed.

Lemma uart_init_runs (s : tty D) : ∃ d, uart_init s = Ret () (Tty (tty_con s) d).
Proof.
  set (P := λ s' : tty D, tty_con s' = tty_con s).
  assert (∀ (s : tty D) d, P s → P (lset d s)) as Hd by done.
  pose proof (preserves_reg_write P Hd). pose proof (preserves_reg_update P Hd). pose proof (preserves_delay P Hd).
  assert (preserves P (uart_init (D := D))) as Hp by (unfold uart_init; preserve).
  specialize (Hp s eq_refl). destruct (uart_init s) as [[] [c d]| | | |]; [|done..]. exists d. unfold P in Hp. cbn in Hp. by rewrite Hp.
Qed.

Lemma console_init_runs m : ∃ m', console_init m = Ret () m' ∧ only_device m m'.
Proof.
  unfold console_init, lift. destruct (uart_init_runs (lget m)) as [d E]. rewrite E. eexists. split; [done|].
  exists d. destruct m as [k x r]. cbn [m_kern m_sd m_regs lset machine_tty tty_con tty_dev lget].
  f_equal. apply lset_lget.
Qed.

Lemma irq_init_runs m : ∃ m', irq_init m = Ret () m' ∧ only_device m m'.
Proof.
  assert (∀ m1 d, only_device m m1 → only_device m (lset (Lens := machine_dev) d m1)) as Hd by (intros; by apply only_device_set).
  pose proof (preserves_reg_write (only_device m) Hd) as Hw.
  assert (preserves (only_device m) irq_init) as Hp by (unfold irq_init, clock_init; preserve).
  specialize (Hp m (only_device_refl m)). destruct (irq_init m) as [[] m'| | | |]; [|done..]. by exists m'.
Qed.

(** ** The contract *)

(** Memory after [memset(edata, 0, end - edata)]. *)
Definition bss_mem (mem0 : mem) : mem := memset mem0 edata 0 (k_end - edata).
(** The program of process [i]: [start] of initcode.S for the first one, the
    endless loop at its end for the others. *)
Definition first_code (mem0 : mem) (i : nat) : Z → Z :=
  match i with
  | O => code_of mem0 binary (s32 size)
  | _ => code_of mem0 (binary + 0x1c) (s32 (size - 0x1c))
  end.

(** What holds of the kernel when the first scheduler starts, if the machine
    was switched on with the memory [mem0]. *)
Record kernel_ready (mem0 : mem) (k : kern T) : Prop := {
  kr_procs : ∃ l free K, length l = 4%nat ∧
    booted_with k_end k_trapret k_forkret (bss_mem mem0) (first_code mem0) l (k_kmem k) (k_ptable k) free K;
  kr_table : pt_ok (k_ptable k) ∧ tree_ok (k_ptable k) ∧ wait_ok k_ptable_addr (k_ptable k);
  kr_files f : ft_file (k_files k) f = file0;
  kr_root : f_icache (ft_fs (k_files k)) 0 = root_inode;
  kr_inodes i : i ≠ 0 → f_icache (ft_fs (k_files k)) i = inode0;
  kr_cache : ∃ H, lget (f_tx (ft_fs (k_files k))) = binit (mkBcache (λ _, buf0) H);
}.
Definition card_ready (x : sdst D) : Prop :=
  dlist (sd_que x) sdque [] ∧ init (sd_card x) = 1 ∧ card_type_ok x ∧ csd_known x.

(** What the linker and the loader provide: the kernel ends in the middle of a
    page, with 25 pages of memory after it, and the program is outside of the
    BSS section. *)
Record linked : Prop := {
  lk_end : KERNBASE < k_end;
  lk_room : k_end + 25 * 4096 ≤ KERNBASE + PHYSTOP;
  lk_bss : KERNBASE ≤ edata ≤ k_end;
  lk_trapret : 0 ≤ k_trapret < 2 ^ 64;
  lk_forkret : 0 ≤ k_forkret < 2 ^ 64 - 8;
  lk_size : 0x1c ≤ size ≤ 4096;
  lk_code : binary + size ≤ edata;
}.

Lemma bss_mem_before mem0 x : linked → x < edata → bss_mem mem0 x = mem0 x.
Proof.
  intros [] Hx. unfold bss_mem. apply (memset_spec mem0 edata 0 (k_end - edata)); [unfold KERNBASE, PHYSTOP in *|]; lia.
Qed.
Lemma first_code_bss mem0 i va : linked → first_code mem0 i va = first_code (bss_mem mem0) i va.
Proof.
  intros Hl. pose proof Hl as []. unfold first_code, code_of.
  destruct i; rewrite !s32_small by lia; destruct (_ <? _) eqn:E; try done; apply Z.ltb_lt in E;
    by rewrite bss_mem_before by (done || lia).
Qed.

(** ** The steps of [main] *)

Lemma run_on_mem {A} (f : M kst A) a F s s' t x r :
  f s = Ret a s' → on_mem f (Machine (Kern (T := T) F s t) x r) = Ret a (Machine (D := D) (Kern F s' t) x r).
Proof. intros E. unfold on_mem, lift. cbn. by rewrite E. Qed.
Lemma run_kern {A} (f : M (kern T) A) a k k' x r :
  f k = Ret a k' → (lift f : M (machine T D) A) (Machine k x r) = Ret a (Machine k' x r).
Proof. intros E. unfold lift. cbn. by rewrite E. Qed.

(** The allocator has enough pages, and [check_free_list] accepts them when
    the kernel does not end at a page boundary. *)
Lemma main_alloc s : linked → k_free s = 0 →
  ∃ s' l, alloc_init k_end (init_fuel k_end) s = Ret () s' ∧ vm_inv k_end s' l ∅ ∧ (24 ≤ length l)%nat ∧
    (∀ x, x < k_end → k_mem s' x = k_mem s x) ∧
    check_free_list k_end (init_fuel k_end) s' =
      if k_end mod PGSIZE =? 0 then Panic "assertion failed" else Ret () s'.
Proof.
  intros [] Hf. destruct (alloc_init_correct k_end s) as (s' & l & E & Hk & Hlen & Hin & Hm); [lia|done|].
  assert (24 ≤ length l)%nat as Hroom.
  { set (q := (k_end + 4095) / 4096). assert (k_end ≤ 4096 * q < k_end + 4096) as Hq by (unfold q; zlia).
    assert ((λ j, 4096 * (q + j)) <$> seqZ 0 24 ⊆+ l) as Hs.
    { apply NoDup_submseteq; [apply NoDup_fmap_2, NoDup_seqZ; intros x y; lia|].
      intros p (j & -> & Hj%elem_of_seqZ)%list_elem_of_fmap. apply Hin. unfold page_ok, PGSIZE. zlia. }
    apply submseteq_length in Hs. rewrite length_fmap, length_seqZ in Hs. done. }
  exists s', l. split; [done|]. split; [|split; [done|split; [done|]]].
  - split; [done| |done]. split; intros *; by intros ?%lookup_empty_Some.
  - rewrite (check_free_list_spec k_end s' l) by (done || (intros ->; cbn in Hroom; lia)).
    destruct (Z.eqb_spec (k_end mod PGSIZE) 0).
    + rewrite bool_decide_true; [done|]. apply Hin. unfold page_ok. split; [done|lia].
    + rewrite bool_decide_false; [done|]. by intros [? _]%Hin.
Qed.

(** [user_init] and [user_idle_init], three times. *)
Lemma main_processes_ok mem0 code F sb y s t free K x r :
  let k0 := Kern (Files F (Fs sb (λ _, inode0) y)) s t in
  linked → booted_with k_end k_trapret k_forkret mem0 code [] s t free K → (24 ≤ length free)%nat →
  (∀ i, code i = first_code mem0 i) →
  ∃ l s' t' free' K', length l = 4%nat ∧
    main_processes binary size devsw_read (Machine (D := D) k0 x r) =
      Ret () (Machine (Kern (Files F (Fs sb (upd (λ _, inode0) 0 root_inode) y)) s' t') x r) ∧
    booted_with k_end k_trapret k_forkret mem0 code l s' t' free' K'.
Proof.
  intros k0 [] Hb Hf Hcode. assert (s32 size = size ∧ s32 (size - 0x1c) = size - 0x1c) as [S1 S2] by (by rewrite !s32_small by lia).
  destruct (user_init_ok k_end k_trapret k_forkret lk_end0 lk_trapret0 lk_forkret0 devsw_read mem0 code sb y F s t free K binary size Hb)
    as (c1 & s1 & t1 & f1 & K1 & E1 & B1 & L1); [lia|lia|lia|apply Hcode|].
  set (G := Files F (Fs sb (upd (λ _, inode0) 0 root_inode) y)) in *.
  pose proof (λ l s t f K, user_idle_init_ok k_end k_trapret k_forkret lk_end0 lk_trapret0 lk_forkret0 mem0 code l G s t f K binary size) as Hidle.
  rewrite S2 in Hidle.
  destruct (Hidle [c1] s1 t1 f1 K1 B1) as (c2 & s2 & t2 & f2 & K2 & E2 & B2 & L2); [cbn; lia|done|lia|lia|lia|by rewrite Hcode; cbn; rewrite S2|].
  destruct (Hidle [c1; c2] s2 t2 f2 K2 B2) as (c3 & s3 & t3 & f3 & K3 & E3 & B3 & L3); [cbn; lia|done|lia|lia|lia|by rewrite Hcode; cbn; rewrite S2|].
  destruct (Hidle [c1; c2; c3] s3 t3 f3 K3 B3) as (c4 & s4 & t4 & f4 & K4 & E4 & B4 & L4); [cbn; lia|done|lia|lia|lia|by rewrite Hcode; cbn; rewrite S2|].
  exists [c1; c2; c3; c4], s4, t4, f4, K4. split; [done|]. split; [|done].
  unfold main_processes. erewrite mbind_ret; [|apply run_kern, E1]. erewrite mbind_ret; [|apply run_kern, E2].
  erewrite mbind_ret; [|apply run_kern, E3]. by erewrite run_kern; [|exact E4].
Qed.

Lemma zero_cache (y : T) :
  lget (lset (zero_statics (lget y)) y) = mkBcache (λ _, buf0) (mkLheap (λ _, 0) (λ _, 0)).
Proof.
  change (st_cache (lget (lset (zero_statics (lget y)) y)) = mkBcache (λ _, buf0) (mkLheap (λ _, 0) (λ _, 0))).
  by rewrite lget_lset.
Qed.

(** What [console_init] and [irq_init] do to the devices, which [x] and [x3]
    see before and after. *)
Definition devices_ready (x x3 : sdst D) : Prop :=
  ∃ (k1 k2 : kern T) r d1 d3, console_init (Machine k1 x r) = Ret () (Machine k1 (lset d1 x) r) ∧
    irq_init (Machine k2 (lset d1 x) r) = Ret () (Machine k2 (lset d3 x) r) ∧ x3 = lset d3 x.

(** From the state after [clear_bss] to the call of [sd_init]. *)
Lemma main_until_card mem0 t y x r :
  linked → pt_nextpid t = 1 →
  let k0 := Kern (Files (λ _, file0) (Fs (mkSb 0 0 0 0 0 0 0) (λ _, inode0) (lset (zero_statics (lget y)) y)))
              (mkKst (bss_mem mem0) 0) (zero_ptable t) in
  ∃ k3 d, kernel_ready mem0 k3 ∧ devices_ready x (lset d x) ∧ ∀ R : M (machine T D) (),
    (console_init ;; on_mem (alloc_init k_end (init_fuel k_end)) ;; on_mem (check_free_list k_end (init_fuel k_end)) ;;
     irq_init ;; main_processes binary size devsw_read ;; main_binit ;; R) (Machine k0 x r) =
    if k_end mod PGSIZE =? 0 then Panic "assertion failed" else R (Machine k3 (lset d x) r).
Proof.
  intros Hl Hn k0. destruct (console_init_runs (Machine k0 x r)) as (m1 & E1 & [d1 ->]).
  cbn [m_sd m_kern m_regs] in *.
  destruct (main_alloc (k_kmem k0) Hl eq_refl) as (s2 & l & E2 & Hv & Hroom & Hbelow & Hcheck).
  destruct (irq_init_runs (Machine (Kern (k_files k0) s2 (k_ptable k0)) (lset d1 x) r)) as (m3 & E3 & [d3 ->]).
  cbn [m_sd m_kern m_regs] in E3.
  assert (booted_with k_end k_trapret k_forkret (bss_mem mem0) (first_code (bss_mem mem0)) [] s2 (k_ptable k0) l ∅) as Hb.
  { split; [done|exact Hbelow|cbn; by rewrite Hn|done|done|by intros i cr|done|apply NoDup_nil_2..]. }
  destruct (main_processes_ok (bss_mem mem0) _ (λ _, file0) (mkSb 0 0 0 0 0 0 0) (lset (zero_statics (lget y)) y) s2 (k_ptable k0) l ∅
    (lset d3 (lset d1 x)) r Hl Hb Hroom ltac:(done)) as (ps & s4 & t4 & f4 & K4 & Hps & E4 & Hb4).
  set (G := Fs _ (upd _ 0 root_inode) _) in E4.
  exists (Kern (Files (λ _, file0) (Fs (f_sb G) (f_icache G) (lset (binit (lget (f_tx G))) (f_tx G)))) s4 t4), d3.
  split; [|split].
  2: { exists k0, (Kern (k_files k0) s2 (k_ptable k0)), r, d1, d3. done. }
  2: { intros R. mstep E1. erewrite mbind_ret; [|apply run_on_mem, E2].
    destruct (Z.eqb_spec (k_end mod PGSIZE) 0) as [_|_].
    { unfold mbind at 1, M_bind. unfold on_mem, lift at 1 2. cbn [lget kern_mem k_kmem machine_kern m_kern]. by rewrite Hcheck. }
    erewrite mbind_ret; [|apply run_on_mem, Hcheck]. mstep E3. mstep E4. erewrite mbind_ret; [|reflexivity]. reflexivity. }
  - pose proof (bw_table _ _ _ k_ptable_addr _ _ _ _ _ _ _ Hb4 ltac:(lia)) as Ht. split; try done.
    + exists ps, f4, K4. split; [done|]. eapply bw_code; [|exact Hb4]. intros i va. symmetry. by apply first_code_bss.
    + intros i Hi. cbn. by rewrite upd_ne.
    + exists (mkLheap (λ _, 0) (λ _, 0)). cbn [k_files ft_fs f_tx G]. rewrite lget_lset, zero_cache. reflexivity.
Qed.

(** *** The whole of [main_init] *)

Abbreviation main_init := (main_init edata binary size sdque mbox_fuel mbox_buf devsw_read).

Lemma main_init_runs m :
  linked → pt_nextpid (k_ptable (m_kern m)) = 1 →
  ∃ k3 x3 r, kernel_ready (k_mem (k_kmem (m_kern m))) k3 ∧ init (sd_card x3) = 0 ∧ devices_ready (zero_sd (m_sd m)) x3 ∧
    main_init m =
      if k_end mod PGSIZE =? 0 then Panic "assertion failed"
      else (lift (sd_init sdque mbox_fuel mbox_buf) ;; mret ()) (Machine k3 x3 r).
Proof.
  intros Hl Hn. destruct m as [[[F [sb ic y]] s t] x r]. cbn [m_kern k_ptable k_kmem] in *.
  destruct (main_until_card (k_mem s) t y (zero_sd x) r Hl Hn) as (k3 & d & Hk & Hd & Hrun).
  exists k3, (lset d (zero_sd x)), r. split; [done|]. split; [done|]. split; [done|].
  unfold Main.main_init. erewrite mbind_ret; [|reflexivity]. apply Hrun.
Qed.

Lemma main_init_ready m m' :
  linked → k_end mod PGSIZE ≠ 0 → pt_nextpid (k_ptable (m_kern m)) = 1 →
  Z.land (V2P mbox_buf) 0xF = 0 → (∀ s : sdst D, mbox_get_clock_rate mbox_fuel mbox_buf s ≠ NoFuel) →
  main_init m = Ret () m' → kernel_ready (k_mem (k_kmem (m_kern m))) (m_kern m') ∧ card_ready (m_sd m').
Proof.
  intros Hl He Hn Hb Hm E. destruct (main_init_runs m Hl Hn) as (k3 & x3 & r & Hk & Hi & _ & E').
  rewrite (proj2 (Z.eqb_neq _ _) He), E in E'. pose proof (sd_init_ready sdque mbox_fuel mbox_buf x3 Hi Hb Hm) as Hsd.
  unfold mbind, M_bind, lift in E'. cbn [lget machine_sd m_sd] in E'.
  destruct (sd_init sdque mbox_fuel mbox_buf x3); [|done..]. injection E' as ->.
  split; [done|]. unfold card_ready. cbn. tauto.
Qed.

(** C13: [main] starts the kernel.  From any contents of memory and of the
    static variables, CPU 0 reaches the call of [sd_init] with the kernel ready:
    the free list, the page tables and four processes in one memory, each
    process runnable with its own stack and address space, the first running
    initcode.S at address 0 and the others its endless loop; the invariants of
    the process table hold; the root inode is in the cache, and the file table
    and the buffer cache are empty.  If [sd_init] does not panic then [main]
    returns with that state, and a card that is ready. *)
Theorem main_boots m :
  linked → k_end mod PGSIZE ≠ 0 → pt_nextpid (k_ptable (m_kern m)) = 1 →
  Z.land (V2P mbox_buf) 0xF = 0 → (∀ s : sdst D, mbox_get_clock_rate mbox_fuel mbox_buf s ≠ NoFuel) →
  match main_init m with
  | Ret _ m' => kernel_ready (k_mem (k_kmem (m_kern m))) (m_kern m') ∧ card_ready (m_sd m')
  | Panic msg => ∃ s, init (sd_card s) = 0 ∧ sd_init sdque mbox_fuel mbox_buf s = Panic msg
  | _ => False
  end.
Proof.
  intros Hl He Hn Hb Hm. destruct (main_init m) as [[] m'|msg| | |] eqn:E; [by apply main_init_ready|..];
    destruct (main_init_runs m Hl Hn) as (k3 & x3 & r & _ & Hi & _ & E');
    rewrite (proj2 (Z.eqb_neq _ _) He), E in E'; pose proof (sd_init_ready sdque mbox_fuel mbox_buf x3 Hi Hb Hm) as Hsd;
    unfold mbind, M_bind, lift in E'; cbn [lget machine_sd m_sd] in E';
    destruct (sd_init sdque mbox_fuel mbox_buf x3) eqn:Ex; try done.
  exists x3. split; [done|]. congruence.
Qed.

(** ** All CPUs *)

Abbreviation sstep := (sstep edata binary size sdque mbox_fuel mbox_buf devsw_read).
Abbreviation table_ok t := (pt_ok t ∧ tree_ok t ∧ wait_ok k_ptable_addr t).

Lemma main_rest_table c m m' :
  main_rest c m = Ret () m' → k_ptable (m_kern m') = set_cpu (k_ptable (m_kern m)) c None.
Proof. destruct m as [k x r]. intros [= <-]. reflexivity. Qed.

Lemma main_rest_runs c m : ∃ m', main_rest c m = Ret () m'.
Proof. destruct m as [k x r]. eexists. reflexivity. Qed.

(** [c->proc = NULL] on a CPU that runs nothing. *)
Lemma idle_table_ok t c : pt_cpu t c = None → table_ok t → table_ok (set_cpu t c None).
Proof.
  intros Hc ([A1 A2 A3 A4 A5 A6 A7 A8 A9] & [B1 B2] & Hw).
  assert (∀ c', pt_cpu (set_cpu t c None) c' = pt_cpu t c') as E by (intros c'; cbn; rewrite upd_case; case_decide; congruence).
  split; [|done]. split; try done.
  - intros c' i Hi. rewrite E. by apply A1.
  - intros c' c'' i Hi Hj. rewrite !E. by apply A2.
  - intros i Hi Hr. destruct (A3 i Hi Hr) as (c' & Hc' & E'). exists c'. by rewrite E.
Qed.

(** The system before and after CPU 0 has made the kernel. *)
Definition sys_inv m (s : system) : Prop :=
  (sy_phase s 0 = Entry ∧ sy_started s = 0 ∧ sy_mach s = m ∧ ∀ c, sy_phase s c ≠ Scheduling) ∨
  (sy_phase s 0 ≠ Entry ∧ (∃ m1, main_init m = Ret () m1) ∧ table_ok (sy_table s) ∧
   ∀ c, sy_phase s c ≠ Scheduling → pt_cpu (sy_table s) c = None).

Lemma sstep_inv m s s' :
  linked → k_end mod PGSIZE ≠ 0 → pt_nextpid (k_ptable (m_kern m)) = 1 →
  Z.land (V2P mbox_buf) 0xF = 0 → (∀ s : sdst D, mbox_get_clock_rate mbox_fuel mbox_buf s ≠ NoFuel) →
  sys_inv m s → sstep s s' → sys_inv m s'.
Proof.
  intros Hl He Hn Hb Hm Hi Hs. destruct Hs as [m0 m' ph st Hz Hrun|c ph st m0 Hc Hp|c ph st m0 m' Hc Hp Hst Hrun|c ph st m0 m' Hc Hp Hps Hcpu];
    unfold sys_inv, sy_table in *; cbn [sy_phase sy_started sy_mach] in *.
  - destruct Hi as [(_ & _ & -> & Hno)|[? _]]; [|done]. right. rewrite upd_eq. split; [done|].
    split; [by exists m'|]. destruct (main_init_ready m m') as [[(l & free & K & _ & Hbw) Ht _ _ _ _] _]; try done.
    split; [done|]. intros c _. apply (bw_cpu _ _ _ _ _ _ _ _ _ _ Hbw).
  - assert (0 ≠ c) as Hc0 by lia. rewrite upd_ne by done. destruct Hi as [(? & ? & ? & Hno)|(? & ? & ? & Hcpu)].
    + left. split; [done|]. split; [done|]. split; [done|]. intros c'. rewrite upd_case. by case_decide.
    + right. split; [done|]. split; [done|]. split; [done|]. intros c'. rewrite upd_case. case_decide as Hcc; [|apply Hcpu].
      intros _. apply Hcpu. subst. by rewrite Hp.
  - right. destruct Hi as [(_ & ? & _)|(Hz & Hm1 & Ht & Hcpu)]; [done|].
    assert (pt_cpu (k_ptable (m_kern m0)) c = None) as Hcn by (apply Hcpu; by rewrite Hp).
    rewrite (main_rest_table _ _ _ Hrun). split; [|split; [done|split; [by apply idle_table_ok|]]].
    + rewrite upd_case. by case_decide.
    + intros c'. cbn. rewrite !upd_case. case_decide; [done|apply Hcpu].
  - right. destruct Hi as [(_ & _ & _ & Hno)|(Hz & Hm1 & (A & B & C) & Hn')]; [by destruct (Hno c)|].
    split; [done|]. split; [done|]. split; [|intros c' Hc'; rewrite Hcpu by done; by apply Hn'].
    split; [by eapply pstep_ok|]. split; [by eapply pstep_tree_ok|by eapply pstep_wait_ok].
Qed.

(** C14: No CPU runs processes on a kernel that is not there yet.  Whatever the
    order in which the CPUs run [main], one that has entered [scheduler] finds
    that CPU 0 has returned from all of its initialisation, with the kernel and
    the SD card ready; and from then on the invariants of the process table and
    of [wait] hold under every interleaving.  The flag [started] must be zero
    when the machine is switched on. *)
Theorem cpus_start m s c :
  linked → k_end mod PGSIZE ≠ 0 → pt_nextpid (k_ptable (m_kern m)) = 1 →
  Z.land (V2P mbox_buf) 0xF = 0 → (∀ s : sdst D, mbox_get_clock_rate mbox_fuel mbox_buf s ≠ NoFuel) →
  rtc sstep (System (λ _, Entry) 0 m) s → sy_phase s c = Scheduling →
  (∃ m1, main_init m = Ret () m1 ∧ kernel_ready (k_mem (k_kmem (m_kern m))) (m_kern m1) ∧ card_ready (m_sd m1)) ∧
  table_ok (sy_table s).
Proof.
  intros Hl He Hn Hb Hm Hr Hc.
  assert (sys_inv m s) as [(_ & _ & _ & Hno)|(_ & [m1 E] & Ht & _)].
  { assert (sys_inv m (System (λ _, Entry) 0 m)) as Hi by (by left). revert Hi. induction Hr as [|s1 s2 s3 H12 _ IH]; [done|].
    intros Hi. apply IH; [done|]. by eapply sstep_inv. }
  - by destruct (Hno c).
  - split; [|done]. exists m1. split; [done|]. by apply main_init_ready.
Qed.

(** When the kernel ends exactly at a page boundary, [main] panics in
    [check_free_list]: the first page after the kernel is on the free list, and
    the assertion allows only pages beyond [end]. *)
Theorem main_page_boundary m :
  linked → k_end mod PGSIZE = 0 → pt_nextpid (k_ptable (m_kern m)) = 1 → main_init m = Panic "assertion failed".
Proof.
  intros Hl He Hn. destruct (main_init_runs m Hl Hn) as (k3 & x3 & r & _ & _ & _ & ->). by rewrite He.
Qed.
End Main.
