(* ===== verification/MainExample.v ===== *)
(** The theorems of file MainSpec on a small machine: the board with the SD
    card of file SdInitExample, and the log on the cache on a disk in memory. *)

From S2P Require Import Prelude Memory CString Kalloc Vm Dlist BufferCache Sleeplock Bio Superblock Log LogOps Ramdisk Txn Fs File Console Proc ProcSpec FirstProcs.
From S2P Require Import Syscall Sysfile Exec Dispatch Mmio SdRegs Sd SdQueue SdInit SdInitExample Uart Trap Main MainSpec.

(** The kernel ends 30 pages before the end of memory. *)
Definition small_end : Z := KERNBASE + PHYSTOP - 30 * 4096 + 8.
#[local] Instance small_kernel : Kernel := {
  k_end := small_end; k_ptable_addr := small_end - 0x8000; k_trapret := KERNBASE + 0x81000;
  k_forkret := KERNBASE + 0x82000; k_input_r := KERNBASE + 0xE0000; k_cpu := 0; k_fuel := 10;
}.
#[local] Instance small_libc : Libc := {
  AT_FDCWD := -100; O_RDONLY := 0; O_WRONLY := 1; O_RDWR := 2; O_CREAT := 64; O_LARGEFILE := 32768;
  stat_size := 128; store_stat _ l := l;
}.
#[local] Instance small_elf : Elf := {
  ELFMAG := [127; 69; 76; 70]; PT_LOAD := 1; AT_PAGESZ := 6; AT_NULL := 0; ehdr_size := 64; phdr_size := 56;
  e_ident := take 16; e_phoff l := of_bytes (take 8 (drop 32 l)); e_phnum l := of_bytes (take 2 (drop 56 l));
  e_entry l := of_bytes (take 8 (drop 24 l)); p_type l := of_bytes (take 4 l); p_offset l := of_bytes (take 8 (drop 8 l));
  p_vaddr l := of_bytes (take 8 (drop 16 l)); p_filesz l := of_bytes (take 8 (drop 32 l)); p_memsz l := of_bytes (take 8 (drop 40 l));
}.
Definition storage : Type := lst (bst ramdisk) * con.
#[local, refine] Instance storage_statics : Lens storage statics := {
  lget s := Statics (ls_log s.1) (bs_cache (ls_buf s.1)) s.2;
  lset x s := (mkLst (st_log x) (mkBst (st_cache x) (bs_dev (ls_buf s.1))), st_con x);
}.
Proof.
  - by intros [].
  - by intros [[? []] ?].
  - done.
Defined.

(** The machine when it is switched on: memory and static variables are not
    zero. *)
Definition garbage_con : con := Con (replicate 128 7) 3 5 9 (-1) [] 0.
Definition garbage_kern : kern storage :=
  Kern (Files (λ _, mkFile FD_INODE 3 true true 7 9)
    (Fs (mkSb 1 2 3 4 5 6 7) (λ _, root_inode) (mkLst (mkLog 1 2 3 4 5 6 [] 7) (rd_boot (λ _, [])), garbage_con)))
    (mkKst (λ a, a mod 251) 0x1234) (mkPtable (λ _, with_state proc0 RUNNING) 1 (Some 5) (λ _, Some 3)).
Definition power_on : machine storage card_dev :=
  Machine garbage_kern (SdSt sdCard0 7 7 (λ _, buf0) (mkLheap (λ _, 7) (λ _, 7)) [] (CardDev 0 0 false 0 0)) (Sysregs 0 0 0 0).
Definition small_bss : Z := small_end - 16.
Definition small_code : Z := small_end - 128.
Definition no_dev (mj : Z) : option (Z → Z → M (fs storage) (Z * list Z)) := None.
Abbreviation boots := (main_init small_bss small_code 0x60 1 1 ex_stack no_dev power_on).

Lemma small_linked : linked small_bss small_code 0x60.
Proof. split; vm_compute; repeat split; done. Qed.

Lemma card_console k x r d :
  console_init (Machine (T := storage) (D := card_dev) k x r) = Ret () (Machine k (lset d x) r) → lset d x = x.
Proof.
  destruct x as [c hv bc b q w [cmd fl da le bl]], k as [[F [sb ic [y1 y2]]] s t]. intros E.
  apply (f_equal (λ o, match o with Ret _ m => m_sd m | _ => ex_power_on end)) in E. symmetry. exact E.
Qed.
Lemma card_irq k x r d :
  irq_init (Machine (T := storage) (D := card_dev) k x r) = Ret () (Machine k (lset d x) r) → lset d x = x.
Proof.
  destruct x as [c hv bc b q w [cmd fl da le bl]], k as [[F [sb ic [y1 y2]]] s t]. intros E.
  apply (f_equal (λ o, match o with Ret _ m => m_sd m | _ => ex_power_on end)) in E. symmetry. exact E.
Qed.

(** The card does not make [sd_init] panic. *)
Definition card_type {A} (o : outcome (sdst card_dev) A) : option Z :=
  match o with Ret _ x => Some (type (sd_card x)) | _ => None end.
Lemma card_type_ret {A} (o : outcome (sdst card_dev) A) v : card_type o = Some v → ∃ a x, o = Ret a x.
Proof. destruct o; [by eauto|done..]. Qed.
Lemma card_type_start : card_type (sd_init 1 1 ex_stack ex_power_on) = Some SD_TYPE_2_HC.
Proof. vm_compute. reflexivity. Qed.

Lemma small_end_inside : k_end mod PGSIZE ≠ 0.
Proof. by vm_compute. Qed.
Lemma power_on_card : zero_sd (m_sd power_on) = ex_power_on.
Proof. reflexivity. Qed.

Lemma boots_returns : ∃ m', boots = Ret () m'.
Proof.
  destruct (main_init_runs small_bss small_code 0x60 1 1 ex_stack no_dev power_on small_linked eq_refl)
    as (k3 & x3 & r & _ & _ & (k1 & k2 & r' & d1 & d3 & E1 & E2 & ->) & E).
  rewrite power_on_card in *. rewrite (card_console _ _ _ _ E1) in E2. rewrite (card_irq _ _ _ _ E2) in E.
  rewrite (proj2 (Z.eqb_neq _ _) small_end_inside) in E. destruct (card_type_ret _ _ card_type_start) as (l & x & Ex).
  exists (Machine k3 x r). rewrite E. unfold mbind, M_bind, lift. cbn [lget machine_sd m_sd]. by rewrite Ex.
Qed.

Lemma main_boots_witness :
  ∃ m', boots = Ret () m' ∧ kernel_ready small_bss small_code 0x60 (k_mem (k_kmem garbage_kern)) (m_kern m') ∧
    pt_init (k_ptable (m_kern m')) = Some 3 ∧ init (sd_card (m_sd m')) = 1.
Proof.
  destruct boots_returns as [m' E]. exists m'. split; [exact E|].
  pose proof (main_boots small_bss small_code 0x60 1 1 ex_stack no_dev power_on small_linked small_end_inside
    eq_refl eq_refl card_mailbox) as H.
  rewrite E in H. destruct H as [Hk (_ & Hc & _)]. split; [exact Hk|]. split; [|exact Hc].
  destruct Hk as [(l & free & K & Hl & Hb) _ _ _ _ _]. rewrite (bw_init _ _ _ _ _ _ _ _ _ _ Hb), Hl. by destruct l.
Defined.

(** CPU 2 enters [main] before CPU 0 is done, and schedules after it. *)
Lemma cpus_start_witness :
  ∃ s, rtc (sstep small_bss small_code 0x60 1 1 ex_stack no_dev) (System (λ _, Entry) 0 power_on) s ∧
    sy_phase s 2 = Scheduling ∧ sy_phase s 1 = Entry ∧ pt_ok (sy_table s).
Proof.
  destruct boots_returns as [m' E].
  destruct (main_rest_runs 2 m') as [m2 E2].
  set (s := System (upd (upd (upd (λ _, Entry) 2 Waiting) 0 Waiting) 2 Scheduling) 1 m2).
  assert (rtc (sstep small_bss small_code 0x60 1 1 ex_stack no_dev) (System (λ _, Entry) 0 power_on) s) as Hr.
  { eapply rtc_l; [apply (ss_enter _ _ _ _ _ _ _ 2); [split; reflexivity|reflexivity]|].
    eapply rtc_l; [apply (ss_init _ _ _ _ _ _ _ _ m'); [reflexivity|exact E]|].
    apply rtc_once. apply (ss_go _ _ _ _ _ _ _ 2 _ 1 m' m2); [split; [discriminate|reflexivity]|reflexivity|discriminate|exact E2]. }
  exists s. split; [exact Hr|]. split; [reflexivity|]. split; [reflexivity|].
  apply (cpus_start small_bss small_code 0x60 1 1 ex_stack no_dev power_on s 2 small_linked small_end_inside
    eq_refl eq_refl card_mailbox Hr eq_refl).
Defined.
