(* ===== verification/FirstRun.v ===== *)
(** What the first process does in the kernel before it returns to user space:
    [forkret] of kern/proc.c and kern/fs_test.c, which it runs.

    [B] is the state of the buffer cache, over which the log in [T] lies.  The
    results of the tests are only printed.  A test that calls [ilock] or
    [dirlookup] on a null pointer has undefined behaviour. *)

From S2P Require Import Prelude Memory Kalloc Vm BufferCache Superblock Log Txn Fs File Console Proc.
From S2P Require Import Syscall Sysfile Exec.

Section FirstRun.
Context `{!Kernel, !Libc, !Elf} {B T : Type} `{!BufOps B, !TxnOps T, !OpOps T, !Lens T con, !Lens T (lst B)}.
Abbreviation K := (M (kern T)).
Abbreviation files := (files T).

(** ** kern/fs_test.c *)

Definition init_files : list (list Z) := map text ["init"; "ls"; "mkfs"; "sh"; "cat"].

(** The loop of [test_initial_scan] over the directory from offset [off]; [None]
    when an entry cannot be read. *)
Fixpoint scan_entries (fuel : nat) (i off remaining : Z) : K (option Z) :=
  match fuel with
  | O => no_fuel
  | S fuel =>
    ip ← on_fs (get_inode i);
    if off <? i_size ip then
      '(r, de) ← readi_bytes i off 16;
      if negb (w64 r =? 16) then mret None
      else if de_inum de =? 0 then scan_entries fuel i (off + 16) remaining
      else
        let found := bool_decide (c_str (de_name de) ∈ init_files) in
        scan_entries fuel i (off + 16) (if found then remaining - 1 else remaining)
    else mret (Some remaining)
  end.
Definition test_initial_scan : K Z :=
  r ← namei [slash];
  match r with
  | None => undef "null pointer"
  | Some i =>
    p ← this;
    on_fs (ilock (p_pid p) i) ;;
    ip ← on_fs (get_inode i);
    if negb (i_type ip =? T_DIR) then on_fs (iunlockput (p_pid p) i) ;; mret (-1)
    else
      r ← scan_entries (Z.to_nat (i_size ip / 16 + 2)) i 0 (Z.of_nat (length init_files));
      on_fs (iunlockput (p_pid p) i) ;;
      mret (default (-1) r)
  end.

Definition alloc_file : K Z :=
  r ← lift (filealloc : M files (option Z));
  match r with None => undef "null pointer" | Some f => mret f end.
Definition mod_file (f : Z) (g : file → file) : K () :=
  v ← lift (get_file f : M files file); lift (put_file f (g v) : M files ()).
(** An inode index outside the cache is a null pointer. *)
Definition set_ip (r : option Z) (v : file) : file :=
  mkFile FD_INODE (fl_ref v) true (fl_writable v) (default (-1) r) (fl_off v).

Fixpoint read_files (l : list (list Z)) : K Z :=
  match l with
  | [] => mret 0
  | name :: l =>
    f ← alloc_file;
    r ← namei name;
    mod_file f (set_ip r) ;;
    match r with
    | None => mret (-1)
    | Some i =>
      mod_file f (λ v, mkFile (fl_type v) 1 (fl_readable v) (fl_writable v) (fl_ip v) 0) ;;
      p ← this;
      on_fs (ilock (p_pid p) i) ;;
      on_fs (iunlock (p_pid p) i) ;;
      '(r, h) ← lift (fileread (p_pid p) (dev_read p) f ehdr_size : M files (Z * list Z));
      if negb (w64 r =? ehdr_size) then mret (-1)
      else
        lift (fileclose (p_pid p) f : M files ()) ;;
        if negb (strncmp_bytes 4 (e_ident h) ELFMAG =? 0) then mret (-1) else read_files l
    end
  end.
Definition test_initial_read : K Z := read_files init_files.

(** The names and contents of the files that [test_file_write] writes. *)
Definition write_files : list (list Z * list Z) :=
  [(text "hello.cpp",
    text "#include <cstdio> " ++ [10] ++ text " int main() { " ++ [10; 9] ++ text "printf(" ++ [34] ++
    text "Hello world!\n" ++ [34] ++ text ");" ++ [10; 9] ++ text "return 0;" ++ [10] ++ text "}" ++ [10]);
   (text "readme.md", text "This is a readme file" ++ [10])].

Definition create_here (path : list Z) (type : Z) : K (option Z) :=
  p ← this; d ← cwd_for p path;
  on_fs (create (p_pid p) d (dev_read p) (dev_write p) path type 0 0 (replicate 14 0)).
Fixpoint write_each (l : list (list Z * list Z)) : K Z :=
  match l with
  | [] => mret 0
  | (name, bytes) :: l =>
    f ← alloc_file;
    mod_file f (λ v, mkFile FD_INODE (fl_ref v) true true (fl_ip v) (fl_off v)) ;;
    r ← create_here name T_FILE;
    mod_file f (λ v, with_fref (set_ip r v) 1) ;;
    match r with
    | None => mret (-1)
    | Some i =>
      p ← this;
      on_fs (iunlock (p_pid p) i) ;;
      mod_file f (λ v, with_off v 0) ;;
      let n := Z.of_nat (length bytes) in
      r ← lift (filewrite (p_pid p) (dev_write p) k_fuel f (λ k, nth (Z.to_nat k) bytes 0) n : M files Z);
      if negb (w64 r =? n) then mret (-1)
      else
        mod_file f (λ v, with_off v 0) ;;
        '(_, b) ← lift (fileread (p_pid p) (dev_read p) f n : M files (Z * list Z));
        if negb (bool_decide (c_str (splice (replicate 100 0) 0 b) = bytes)) then mret (-1)
        else lift (fileclose (p_pid p) f : M files ()) ;; write_each l
    end
  end.
Definition test_file_write : K Z := write_each write_files.

Definition test_mkdir : K Z :=
  r ← create_here (text "dir/") T_DIR;
  match r with
  | None => mret (-1)
  | Some i =>
    ip ← on_fs (get_inode i);
    if negb (i_type ip =? T_DIR) then mret (-1)
    else
      p ← this;
      on_fs (iunlock (p_pid p) i) ;;
      match p_cwd p with
      | None => undef "null pointer"
      | Some d =>
        on_fs (iupdate d) ;;
        r ← on_fs (dirlookup (dev_read p) d (text "dir"));
        mret (match r with None => -1 | Some _ => 0 end)
      end
  end.

Definition test_file_system : K () :=
  test_initial_scan ;; test_initial_read ;; test_file_write ;; test_mkdir ;; test_initial_scan ;; mret ().

(** ** [forkret] *)

(** Up to the tests. *)
Definition forkret_init : K () :=
  on_fs (iinit ROOTDEV) ;;
  on_fs (lift (lift (initlog ROOTDEV) : M T ())) ;;
  raise_priority k_cpu ;;
  set_cpus_allowed k_cpu (Z.lxor (-1) 1).
Definition forkret : K () :=
  p ← this;
  if p_pid p =? 1 then forkret_init ;; test_file_system else mret ().
End FirstRun.
