(* ===== verification/FirstRunSpec.v ===== *)
(** The first process after a crash: [forkret] makes the file system ready. *)

From S2P Require Import Prelude Memory Sleeplock Kalloc Vm BufferCache Superblock Log LogCrash LogOps LogSpec Txn Fs File Console Proc.
From S2P Require Import Syscall Sysfile Exec FirstRun.

Section Recovery.
Context {B : Type} `{BufferCache B}.
Implicit Types (s : lst B) (a : abs) (bs : list Z).

(** The file system that the log in [s] holds, with the contents of [d]. *)
Definition fs_of (lg : log) (d : Z → block) : tx :=
  Tx (λ b, home lg b ∧ b ≠ 1) (Z.min LOGSIZE (lg_size lg - 1)) d [] ∅.

Lemma recovered_idle s a bs n b :
  ending s a bs →
  bc_rel b (Abs (apply_writes (a_disk a) (take n (end_op_writes (ls_log s) a bs))) [] ∅) →
  apply_writes (a_disk a) (take n (end_op_writes (ls_log s) a bs)) 1 = a_disk a 1 ∧
  ∃ s2 d, initlog ROOTDEV (mkLst log0 b) = Ret () s2 ∧ op_idle s2 (fs_of (ls_log s) d) ∧
    (contents (ls_log s) (a_disk a) d ∨ contents (ls_log s) (view a) d).
Proof.
  intros He Hb. destruct (recovers_after_crash s a bs n b He Hb)
    as (H1 & s2 & a2 & Hs2 & Hst & Hsi & [Hout Hcom] & Hi & Hent & Hg & Hh & Hd).
  split; [exact H1|]. exists s2, (a_disk a2). split; [exact Hs2|]. split; [|exact Hd].
  exists a2. split; try done.
  - split; [done..| |]; rewrite Hst; rewrite ?Hsi; [exact Hg|]. apply Hh.
  - intros b'. cbn. unfold home, in_log. by rewrite Hst, Hsi.
  - cbn. rewrite Hsi. destruct Hi as [[] ? ? ? ? ?]. unfold LOGSIZE, MAXOPBLOCKS in *. cbn in *. lia.
Qed.
End Recovery.

Section Forkret.
Context `{!Kernel, !Libc, !Elf} {B U : Type} `{BufferCache B}.
Implicit Types k : kern (lst B * U).

Lemma lift_pair {A} (m : M (lst B) A) (x : lst B) (u : U) a x' :
  m x = Ret a x' → (lift m : M (lst B * U) A) (x, u) = Ret a (x', u).
Proof. exact (pair_lift m (x, u) a x'). Qed.
Lemma lift_cache {A} (m : M B A) lg b a b' :
  m b = Ret a b' → (lift m : M (lst B) A) (mkLst lg b) = Ret a (mkLst lg b').
Proof. exact (lift_ret (S := lst B) m (mkLst lg b) a b'). Qed.

Lemma on_fs_run {A} (m : M (fs (lst B * U)) A) k a f :
  m (ft_fs (k_files k)) = Ret a f →
  on_fs m k = Ret a (Kern (Files (ft_file (k_files k)) f) (k_kmem k) (k_ptable k)).
Proof.
  intros Hm. unfold on_fs, lift. cbn [lget kern_files files_lens]. rewrite Hm. reflexivity.
Qed.

Lemma log_run {A} (m : M (lst B) A) sb ic (x x' : lst B) (u : U) a :
  m x = Ret a x' →
  (lift (lift m : M (lst B * U) A) : M (fs (lst B * U)) A) (Fs sb ic (x, u)) = Ret a (Fs sb ic (x', u)).
Proof. intros Hm. unfold lift. cbn [lget fs_lens f_tx fst_lens fst]. rewrite Hm. reflexivity. Qed.

(** The inode cache with its locks initialised. *)
Definition fresh_locks (ic : Z → inode) : Z → inode := init_locks (Z.to_nat NINODE) 0 ic.
Lemma iinit_spec (f : fs (lst B * U)) lg b u d :
  f_tx f = (mkLst lg b, u) → bc_rel b (Abs d [] ∅) →
  ∃ b', iinit ROOTDEV f = Ret () (Fs (sb_of_block (d 1)) (fresh_locks (f_icache f)) (mkLst lg b', u)) ∧
    bc_rel b' (Abs d [] ∅).
Proof.
  intros Htx Hb. destruct (sb_block_read b _ Hb) as (i & b1 & b2 & Hr1 & Hr2 & Hr3 & Hb2);
    [apply lookup_empty|by vm_compute|]. cbn [a_disk] in Hr2.
  exists b2. split; [|exact Hb2]. unfold iinit. destruct f as [sb ic tx]. cbn in Htx. subst tx.
  unfold fresh_locks. generalize (Z.to_nat NINODE) as nlocks. intros nlocks.
  erewrite mbind_ret by reflexivity. cbn [f_icache f_sb f_tx].
  mlift (lift_pair _ _ u _ _ (lift_cache _ lg _ _ _ Hr1)). cbn [lset fs_lens f_sb f_icache].
  mlift (lift_pair _ _ u _ _ (lift_cache _ lg _ _ _ Hr2)). cbn [lset fs_lens f_sb f_icache].
  mlift (lift_pair _ _ u _ _ (lift_cache _ lg _ _ _ Hr3)). reflexivity.
Qed.

(** The process after [raise_priority] and [set_cpus_allowed(~0 ^ 1)]. *)
Definition off_cpu0 (p : proc) : proc :=
  with_cpus (if p_priority p <? 1 then with_priority p (p_priority p + 1) else p) (-2).
Lemma pinned_spec k i :
  pt_cpu (k_ptable k) k_cpu = Some i →
  ∃ t, (raise_priority k_cpu ;; set_cpus_allowed k_cpu (Z.lxor (-1) 1)) k = Ret () (Kern (k_files k) (k_kmem k) t) ∧
    (∀ j, pt_proc t j = if j =? i then off_cpu0 (pt_proc (k_ptable k) i) else pt_proc (k_ptable k) j) ∧
    pt_cpu t = pt_cpu (k_ptable k) ∧ pt_init t = pt_init (k_ptable k) ∧ pt_nextpid t = pt_nextpid (k_ptable k).
Proof.
  intros Hi. destruct k as [fl km t]. cbn [k_ptable k_files k_kmem] in *.
  set (p := pt_proc t i). set (t1 := if p_priority p <? 1 then set_proc t i (with_priority p (p_priority p + 1)) else t).
  assert (∀ t' : ptable, pt_cpu t' k_cpu = Some i → thisproc k_cpu (Kern fl km t') = Ret i (Kern fl km t')) as Hthis.
  { intros t' Ht'. unfold thisproc. mstep (eq_refl (gets (λ s : kern (lst B * U), pt_cpu (k_ptable s) k_cpu) (Kern fl km t'))).
    cbn [k_ptable]. by rewrite Ht'. }
  assert (raise_priority k_cpu (Kern fl km t) = Ret () (Kern fl km t1)) as Hraise.
  { unfold raise_priority. mstep (Hthis t Hi). mstep (eq_refl (get_proc i (Kern fl km t))). cbn [k_ptable]. fold p.
    unfold when, t1. destruct (p_priority p <? 1); reflexivity. }
  assert (pt_cpu t1 = pt_cpu t ∧ pt_proc t1 i = if p_priority p <? 1 then with_priority p (p_priority p + 1) else p)
    as [Hcpu Hp1].
  { unfold t1. destruct (p_priority p <? 1); cbn; by rewrite ?upd_eq. }
  exists (set_proc t1 i (off_cpu0 p)). split.
  - mstep Hraise. unfold set_cpus_allowed. mstep (Hthis t1 (eq_trans (f_equal (λ c, c k_cpu) Hcpu) Hi)).
    mstep (eq_refl (get_proc i (Kern fl km t1))). cbn [k_ptable]. rewrite Hp1. reflexivity.
  - cbn [set_proc pt_proc pt_cpu pt_init pt_nextpid]. split; [|split; [exact Hcpu|]].
    + intros j. unfold upd at 1. destruct (Z.eqb_spec j i) as [->|Hj]; [done|].
      unfold t1. destruct (p_priority p <? 1); cbn; by rewrite ?upd_ne.
    + unfold t1. by destruct (p_priority p <? 1).
Qed.

Lemma this_run k i : pt_cpu (k_ptable k) k_cpu = Some i → this k = Ret (pt_proc (k_ptable k) i) k.
Proof.
  intros Hi. unfold this. erewrite mbind_ret; [reflexivity|]. unfold thisproc, gets, mbind, M_bind. by rewrite Hi.
Qed.

(** C15: after a crash the first process finds the file system ready.  Whatever
    number of the sector writes of the last [end_op] reached the disk, on the
    machine that is booted again [forkret] reads the superblock, recovers the
    log, and has the tests run on a file system where no operation is running
    and all blocks are as before the operations that were being committed, or
    all as after them; the process will not run on CPU 0 any more, and nothing
    else changes. *)
Theorem forkret_recovers `{!Lens (lst B * U) con} s a bs n s' b u i k :
  ending s a bs → Log.end_op s = Ret () s' →
  bc_boot b (apply_writes (a_disk a)
    (take n (drop (length (bc_writes (ls_buf s))) (bc_writes (ls_buf s'))))) →
  f_tx (ft_fs (k_files k)) = (mkLst log0 b, u) →
  pt_cpu (k_ptable k) k_cpu = Some i → p_pid (pt_proc (k_ptable k) i) = 1 →
  ∃ (x : lst B) (d : Z → block) (t : ptable),
    let f := k_files k in
    let fs := Fs (sb_of_block (a_disk a 1)) (fresh_locks (f_icache (ft_fs f))) (x, u) in
    forkret k = test_file_system (Kern (Files (ft_file f) fs) (k_kmem k) t) ∧
    op_idle (S := lst B * U) (x, u) (fs_of (ls_log s) d) ∧
    (contents (ls_log s) (a_disk a) d ∨ contents (ls_log s) (view a) d) ∧
    (∀ j, pt_proc t j = if j =? i then off_cpu0 (pt_proc (k_ptable k) i) else pt_proc (k_ptable k) j) ∧
    pt_cpu t = pt_cpu (k_ptable k) ∧ pt_init t = pt_init (k_ptable k) ∧ pt_nextpid t = pt_nextpid (k_ptable k).
Proof.
  intros He Hend Hb Htx Hcpu Hpid. rewrite (end_op_wrote s a bs s' He Hend) in Hb. apply bc_boot_rel in Hb.
  destruct (iinit_spec (ft_fs (k_files k)) log0 b u _ Htx Hb) as (b1 & Hiinit & Hb1).
  destruct (recovered_idle s a bs n b1 He Hb1) as (Hsb & x & d & Hinit & Hidle & Hd). rewrite Hsb in Hiinit.
  set (fs1 := Fs (sb_of_block (a_disk a 1)) (fresh_locks (f_icache (ft_fs (k_files k)))) (x, u)).
  destruct (pinned_spec (Kern (Files (ft_file (k_files k)) fs1) (k_kmem k) (k_ptable k)) i Hcpu) as (t & Ht & Hp).
  exists x, d, t. split; [|split; [exact Hidle|split; [exact Hd|exact Hp]]].
  assert (forkret_init k = Ret () (Kern (Files (ft_file (k_files k)) fs1) (k_kmem k) t)) as Hrun.
  { unfold forkret_init. mstep (on_fs_run _ k _ _ Hiinit). erewrite mbind_ret; [exact Ht|].
    exact (on_fs_run _ (Kern (Files _ (Fs _ _ _)) _ _) _ _ (log_run _ _ _ _ _ u _ Hinit)). }
  unfold forkret. erewrite mbind_ret; [|exact (this_run k i Hcpu)]. rewrite Hpid. change (1 =? 1) with true. cbv iota.
  by erewrite mbind_ret; [|exact Hrun].
Qed.
End Forkret.
