(* ===== verification/FirstRunExample.v ===== *)
(** The first run of the kernel on the disk in memory of file Ramdisk: after a
    crash, and on an image that mkfs has built, where the tests of
    kern/fs_test.c pass. *)

From S2P Require Import Prelude Memory Sleeplock Kalloc Vm BufferCache Bio Superblock Log LogCrash LogOps LogSpec Ramdisk Txn Fs File Console Proc.
From S2P Require Import Syscall Sysfile Exec FirstRun FirstRunSpec Mkfs MainExample.

#[local] Existing Instances small_kernel small_libc small_elf.

(** The kernel of file MainExample over the cache [b] as the process 1 finds it:
    [user_init] has looked up its directory, which is entry 0 of the inode
    cache. *)
Definition first_run (b : bst ramdisk) : kern storage :=
  Kern (Files (λ _, file0)
         (Fs (mkSb 0 0 0 0 0 0 0) (upd (λ _, inode0) 0 (Inode ROOTDEV ROOTINO 1 (mkSleeplock 0 0) 0 0 0 0 0 0 []))
             (mkLst log0 b, garbage_con)))
       (mkKst (λ _, 0) 0)
       (mkPtable (upd (λ _, proc0) 0 (mkProc 0 0 0 RUNNING 1 None 0 0 0 0 (replicate 16 None) (Some 0) 0 (-1)))
                 1 None (upd (λ _, None) 0 (Some 0))).

Lemma forkret_recovers_witness :
  ∃ (s x : lst (bst ramdisk)) a (b : bst ramdisk) d t,
    let fs := Fs (sb_of_block (a_disk a 1)) (fresh_locks (f_icache (ft_fs (k_files (first_run b))))) (x, garbage_con) in
    forkret (first_run b) = test_file_system (Kern (Files (λ _, file0) fs) (mkKst (λ _, 0) 0) t) ∧
    op_idle x (fs_of (ls_log s) d) ∧
    (contents (ls_log s) (a_disk a) d ∨ contents (ls_log s) (view a) d) ∧
    p_cpus_allowed (pt_proc t 0) = -2.
Proof.
  destruct example_crash as (s & s' & a & b & He & Hs' & Hb).
  destruct (forkret_recovers (H := small_kernel) s a [100] 2 s' b garbage_con 0 (first_run b) He Hs' Hb eq_refl eq_refl eq_refl)
    as (x & d & t & Hrun & Hidle & Hd & Ht & _).
  exists s, x, a, b, d, t. split; [exact Hrun|]. split; [exact Hidle|]. split; [exact Hd|].
  rewrite (Ht 0). reflexivity.
Defined.

(** ** The tests *)

(** What the tests return, which the code only prints. *)
Definition test_results : M (kern storage) (list Z) :=
  a ← test_initial_scan;
  b ← test_initial_read;
  c ← test_file_write;
  d ← test_mkdir;
  e ← test_initial_scan;
  mret [a; b; c; d; e].

(** The five programs, each a header and nothing else. *)
Definition programs : list input :=
  map (λ s, Input (47 :: text s) (Some [[127; 69; 76; 70] ++ replicate 96 1])) ["_init"; "_ls"; "_mkfs"; "_sh"; "_cat"].
Definition image : Z → block := match mkfs programs mk0 with Ret _ m => mk_img m | _ => λ _, [] end.

(** mkfs builds the image, [forkret] runs to its end on it, and every test
    passes: the file system, the log and the cache on each other. *)
Lemma self_test_passes :
  (∃ m, mkfs programs mk0 = Ret () m ∧ mk_img m = image) ∧
  (∃ k', forkret (first_run (rd_boot image)) = Ret () k') ∧
  (∃ k', (forkret_init ;; test_results) (first_run (rd_boot image)) = Ret [0; 0; 0; 0; 0] k').
Proof.
  assert (∀ {S A} (o : outcome S A) a, match o with Ret a' _ => Some a' | _ => None end = Some a → ∃ s, o = Ret a s) as Hret.
  { intros S A [a' s| | | |] a; [intros [= ->]; by exists s|done..]. }
  split; [|split].
  - unfold image. assert (match mkfs programs mk0 with Ret a' _ => Some a' | _ => None end = Some ()) as Hm
      by (vm_compute; reflexivity).
    revert Hm. generalize (mkfs programs mk0). intros o (m & ->)%Hret. by exists m.
  - apply Hret. vm_compute. reflexivity.
  - apply Hret. vm_compute. reflexivity.
Qed.
