(* ===== verification/User.v ===== *)
(** User programs: cat, ls and init (user/src/cat, ls and init).

    A program is an interaction tree over the calls that it makes to the C
    library, whose loops may run for ever.  Class [Posix] says what the calls do
    to a world.  A string is the list of its bytes before the null byte, and
    [exit] ends a function with [Some] exit code.  [S_ISREG] and [S_ISDIR] are
    macros of the C library. *)

From ITree Require Import ITree ITreeFacts Events.State Events.StateFacts.
From S2P Require Import Prelude BufferCache Fs.

#[export] Instance itree_ret E : MRet (itree E) := λ A a, ITreeDefinition.Ret a.
#[export] Instance itree_bind E : MBind (itree E) := λ A B k t, ITree.bind t k.

(** The fields of [struct stat] that ls prints. *)
Record ustat := Ustat { st_mode : Z; st_ino : Z; st_size : Z }.
Inductive arg := Str (s : list Z) | Num (n : Z).

Variant libcE : Type → Type :=
| Open (path : list Z) (flags : list string) : libcE Z
| Read (fd n : Z) : libcE (Z * list Z)
| Write (fd : Z) (b : list Z) : libcE Z
| Close (fd : Z) : libcE Z
| Fstat (fd : Z) : libcE (Z * ustat)
| Stat (path : list Z) : libcE (Z * ustat)
| Printf (fd : Z) (format : string) (args : list arg) : libcE ()
| Dup (fd : Z) : libcE Z
| Mknod (path : list Z) (mode dev : Z) : libcE Z
| Fork : libcE Z
| Execv (path : list Z) (argv : list (list Z)) : libcE Z
| Wait : libcE Z
| Undefined : libcE ().
Definition call {A} (e : libcE A) : itree libcE A := ITree.trigger e.
(** A line of text. *)
Definition line (s : string) : string := String.append s (String (Ascii.ascii_of_nat 10) EmptyString).

(** ** cat *)

Definition CATBUF : Z := 512.

(** [while ((n = read(fd, buf, sizeof(buf))) > 0) write(1, buf, n);]: the last
    [n].  The [printf] after the loop has a number for its format. *)
Definition cat_loop (fd : Z) : itree libcE Z :=
  ITree.iter (λ _ : (),
    '(n, buf) ← call (Read fd CATBUF);
    if 0 <? n then call (Write 1 (take (Z.to_nat n) buf)) ;; mret (inl ())
    else mret (inr n)) ().
Definition cat (fd : Z) : itree libcE (option Z) :=
  n ← cat_loop fd;
  if 0 <? n then call Undefined ;; mret (Some 0) else mret None.

(** The loop of [main] over the arguments. *)
Fixpoint cat_args (args : list (list Z)) : itree libcE Z :=
  match args with
  | [] => mret 0
  | a :: args =>
    fd ← call (Open a ["O_RDONLY"]);
    if fd <? 0 then call (Printf 2 (line "cat: cannot open %s") [Str a]) ;; mret 0
    else
      r ← cat fd;
      match r with
      | Some code => mret code
      | None => call (Close fd) ;; cat_args args
      end
  end.
(** [args] without the name of the program. *)
Definition cat_main (args : list (list Z)) : itree libcE Z :=
  match args with
  | [] =>
    r ← cat 0;
    match r with Some code => mret code | None => mret 0 end
  | _ => cat_args args
  end.

(** ** ls *)

(** The loop of [fmtname] from the character [n - 1] down: where [p] stops. *)
Fixpoint last_slash (n : nat) (path : list Z) : Z :=
  match n with
  | O => -1
  | S n => if nth n path 0 =? slash then Z.of_nat n else last_slash n path
  end.
Definition fmtname (path : list Z) : list Z :=
  let p := last_slash (S (length path)) path + 1 in
  let s := drop (Z.to_nat p) path in
  if DIRSIZ <=? Z.of_nat (length s) then s else s ++ replicate (Z.to_nat DIRSIZ - length s) 32.

Section Ls.
(** [buf] is not initialised. *)
Context (S_ISREG S_ISDIR : Z → bool) (stack : list Z).
Definition LSBUF : Z := 512.

Definition print_entry (name : list Z) (st : ustat) : itree libcE () :=
  call (Printf 1 (line "%s %x %ld %ld") [Str (fmtname name); Num (st_mode st); Num (st_ino st); Num (st_size st)]).

(** The loop over the directory; [p] is an index into [buf]. *)
Definition ls_entry (fd : Z) (p : nat) (buf : list Z) : itree libcE (list Z + ()) :=
  '(n, b) ← call (Read fd 16);
  let de := take 16 b in
  if negb (n =? 16) then mret (inr ())
  else if de_inum de =? 0 then mret (inl buf)
  else
    let buf := splice (splice buf p (de_name de)) (p + Z.to_nat DIRSIZ) [0] in
    '(r, st) ← call (Stat (c_str buf));
    (if r <? 0 then call (Printf 2 (line "ls: cannot stat %s") [Str (c_str buf)])
     else print_entry (c_str buf) st) ;;
    mret (inl buf).
Definition ls_loop (fd : Z) (p : nat) (buf : list Z) : itree libcE () := ITree.iter (ls_entry fd p) buf.

Definition ls (path : list Z) : itree libcE () :=
  fd ← call (Open path ["O_RDONLY"]);
  if fd <? 0 then call (Printf 2 (line "ls: cannot open %s") [Str path])
  else
    '(r, st) ← call (Fstat fd);
    if r <? 0 then call (Printf 2 (line "ls: cannot stat %s") [Str path]) ;; call (Close fd) ;; mret ()
    else
      (if S_ISREG (st_mode st) then print_entry path st
       else if S_ISDIR (st_mode st) then
         if LSBUF <? Z.of_nat (length path) + 1 + DIRSIZ + 1 then call (Printf 2 (line "ls: path too long") [])
         else
           let buf := splice stack 0 (path ++ [0]) in
           let p := length path in
           ls_loop fd (p + 1) (splice buf p [slash])
       else mret ()) ;;
      call (Close fd) ;; mret ().
Fixpoint ls_args (args : list (list Z)) : itree libcE Z :=
  match args with
  | [] => mret 0
  | a :: args => ls a ;; ls_args args
  end.
Definition ls_main (args : list (list Z)) : itree libcE Z :=
  match args with [] => ls [46] ;; mret 0 | _ => ls_args args end.
End Ls.

(** ** init *)

(** [while ((wpid = wait(NULL)) >= 0 && wpid != pid) printf("zombie!\n");] *)
Definition init_wait (pid : Z) : itree libcE () :=
  ITree.iter (λ _ : (),
    wpid ← call Wait;
    if (0 <=? wpid) && negb (wpid =? pid) then call (Printf 1 (line "zombie!") []) ;; mret (inl ())
    else mret (inr ())) ().
(** One turn of [while (1)]; [Some] is the exit code. *)
Definition init_round : itree libcE (option Z) :=
  call (Printf 1 (line "init: starting sh") []) ;;
  pid ← call Fork;
  if pid <? 0 then call (Printf 1 (line "init: fork failed") []) ;; mret (Some 1)
  else if pid =? 0 then
    call (Execv (text "sh") [text "sh"]) ;;
    call (Printf 1 (line "init: exec sh failed") []) ;;
    mret (Some 1)
  else init_wait pid ;; mret None.
Definition init_console : itree libcE () :=
  r ← call (Open (text "console") ["O_RDWR"]);
  (if r <? 0 then
     call (Mknod (text "console") 1 1) ;;
     call (Open (text "console") ["O_RDWR"]) ;; mret ()
   else mret ()) ;;
  call (Dup 0) ;; call (Dup 0) ;; mret ().
Definition init_loop : itree libcE Z :=
  ITree.iter (λ _ : (),
    r ← init_round;
    mret (match r with Some code => inr code | None => inl () end)) ().
Definition init_main : itree libcE Z := init_console ;; init_loop.
