(* ===== verification/UserSpec.v ===== *)
(** What cat, ls and init do, for any world that behaves as POSIX says.

    [view] is what can be seen of a world: what was written to the standard
    output and error, the files by their paths, the rest of each file that is
    open for reading, the children in the order in which [wait] will report
    them, and how many calls have failed or have written less than they were
    asked to.  The laws are those of a world in which nobody else writes to the
    files while the program runs; a call may fail, and a write may be short.
    [does] and [runs] say that a call and a program end, in which world and with
    which value. *)

From ITree Require Import ITree ITreeFacts Events.State Events.StateFacts.
From S2P Require Import Prelude BufferCache Fs User.

Record ufile := UFile { uf_stat : ustat; uf_bytes : list Z }.
Record view := View {
  v_out : list Z; v_err : list Z;
  v_files : list Z → option ufile; v_fds : gmap Z ufile; v_children : list Z; v_faults : nat }.

Definition print (fd : Z) (b : list Z) (v : view) : view :=
  if fd =? 1 then View (v_out v ++ b) (v_err v) (v_files v) (v_fds v) (v_children v) (v_faults v)
  else View (v_out v) (v_err v ++ b) (v_files v) (v_fds v) (v_children v) (v_faults v).
Definition with_fds (f : gmap Z ufile → gmap Z ufile) (v : view) : view :=
  View (v_out v) (v_err v) (v_files v) (f (v_fds v)) (v_children v) (v_faults v).
Definition with_children (l : list Z) (v : view) : view :=
  View (v_out v) (v_err v) (v_files v) (v_fds v) l (v_faults v).
(** One more call has failed. *)
Definition fault (v : view) : view :=
  View (v_out v) (v_err v) (v_files v) (v_fds v) (v_children v) (S (v_faults v)).
(** A call to write [b] that has returned [r]: the first [r] bytes are written,
    and none of them if [r] is negative. *)
Definition delivered (fd r : Z) (b : list Z) (v : view) : view :=
  if r <? Z.of_nat (length b) then fault (print fd (take (Z.to_nat r) b) v) else print fd b v.

Class World (W : Type) := {
  posix : ∀ A, libcE A → W → itree void1 (W * A);
  viewof : W → view;
  (** What [printf] makes of a format and its arguments. *)
  render : string → list arg → list Z }.

Definition does `{World W} {A} (e : libcE A) (w w' : W) (a : A) : Prop :=
  eutt eq (posix A e w) (ITreeDefinition.Ret (w', a)).
Definition runs `{World W} {A} (t : itree libcE A) (w w' : W) (a : A) : Prop :=
  eutt eq (interp_state posix t w) (ITreeDefinition.Ret (w', a)).

Class Posix W `{World W} := {
  posix_open w path :
    ∃ fd w', does (Open path ["O_RDONLY"]) w w' fd ∧
      match v_files (viewof w) path with
      | Some f =>
        0 ≤ fd ∧ v_fds (viewof w) !! fd = None ∧ viewof w' = with_fds <[fd := f]> (viewof w) ∨
        fd < 0 ∧ viewof w' = fault (viewof w)
      | None => fd < 0 ∧ viewof w' = viewof w
      end;
  posix_read w fd n f : v_fds (viewof w) !! fd = Some f → 0 < n →
    ∃ k l w', does (Read fd n) w w' (k, l) ∧
      (k < 0 ∧ viewof w' = fault (viewof w) ∨
       0 ≤ k ≤ n ∧ (k = 0 ↔ uf_bytes f = []) ∧
       k ≤ Z.of_nat (length (uf_bytes f)) ∧ take (Z.to_nat k) l = take (Z.to_nat k) (uf_bytes f) ∧
       viewof w' = with_fds <[fd := UFile (uf_stat f) (drop (Z.to_nat k) (uf_bytes f))]> (viewof w));
  posix_write w b :
    ∃ r w', does (Write 1 b) w w' r ∧ -1 ≤ r ≤ Z.of_nat (length b) ∧ viewof w' = delivered 1 r b (viewof w);
  posix_close w fd : ∃ r w', does (Close fd) w w' r ∧ viewof w' = with_fds (delete fd) (viewof w);
  posix_fstat w fd f : v_fds (viewof w) !! fd = Some f →
    ∃ r st w', does (Fstat fd) w w' (r, st) ∧
      (r = 0 ∧ st = uf_stat f ∧ viewof w' = viewof w ∨ r < 0 ∧ viewof w' = fault (viewof w));
  posix_stat w path :
    ∃ r st w', does (Stat path) w w' (r, st) ∧
      match v_files (viewof w) path with
      | Some f => r = 0 ∧ st = uf_stat f ∧ viewof w' = viewof w ∨ r < 0 ∧ viewof w' = fault (viewof w)
      | None => r < 0 ∧ viewof w' = viewof w
      end;
  (** [printf] calls [write], too; the programs do not look at its result. *)
  posix_printf w fd format args : fd = 1 ∨ fd = 2 →
    ∃ r w', does (Printf fd format args) w w' () ∧ viewof w' = delivered fd r (render format args) (viewof w);
  posix_wait w :
    match v_children (viewof w) with
    | [] => ∃ r w', does Wait w w' r ∧ r < 0 ∧ viewof w' = viewof w
    | pid :: l => ∃ w', does Wait w w' pid ∧ viewof w' = with_children l (viewof w)
    end;
  (** In the parent. *)
  posix_fork w :
    ∃ pid w', does Fork w w' pid ∧
      (pid < 0 ∧ viewof w' = viewof w ∨
       ∃ zs rest, 0 < pid ∧ Forall (λ z, 0 ≤ z ∧ z ≠ pid) zs ∧
         viewof w' = with_children (zs ++ pid :: rest) (viewof w)) }.

(** The reads of a file that is not a terminal are as long as they can be. *)
Class FullReads W `{World W} :=
  full_reads w w' fd n f k l : v_fds (viewof w) !! fd = Some f → does (Read fd n) w w' (k, l) → 0 ≤ k →
    k = n `min` Z.of_nat (length (uf_bytes f)).

(** ** What is seen after a run *)

(** From [v] to [v'] a program has written to its output a part of [b], in
    order, and all of [b], and [c] to the error output, unless a call has
    failed; the descriptors and the children are [fds] and [l]. *)
Definition seen (v v' : view) (b c : list Z) (fds : gmap Z ufile) (l : list Z) : Prop :=
  (v_faults v ≤ v_faults v')%nat ∧ v_files v' = v_files v ∧ v_fds v' = fds ∧ v_children v' = l ∧
  ∃ o e, v_out v' = v_out v ++ o ∧ v_err v' = v_err v ++ e ∧ o `sublist_of` b ∧
    (v_faults v' = v_faults v → o = b ∧ e = c).

Lemma seen_refl v : seen v v [] [] (v_fds v) (v_children v).
Proof. split; [lia|]. do 3 (split; [done|]). exists [], []. by rewrite !app_nil_r. Qed.
Lemma seen_fds v f : seen v (with_fds f v) [] [] (f (v_fds v)) (v_children v).
Proof. split; [done|]. do 3 (split; [done|]). exists [], []. cbn. by rewrite !app_nil_r. Qed.
Lemma seen_children v l : seen v (with_children l v) [] [] (v_fds v) l.
Proof. split; [done|]. do 3 (split; [done|]). exists [], []. cbn. by rewrite !app_nil_r. Qed.
(** A call that has failed writes nothing of what it should. *)
Lemma seen_fault v b c : seen v (fault v) b c (v_fds v) (v_children v).
Proof.
  split; [cbn; lia|]. do 3 (split; [done|]). exists [], []. cbn. rewrite !app_nil_r.
  do 2 (split; [done|]). split; [apply sublist_nil_l|lia].
Qed.
Lemma seen_trans {v v1 v2 b1 c1 b2 c2 fds1 fds2 l1 l2} :
  seen v v1 b1 c1 fds1 l1 → seen v1 v2 b2 c2 fds2 l2 → seen v v2 (b1 ++ b2) (c1 ++ c2) fds2 l2.
Proof.
  intros (F1 & E1 & _ & _ & o1 & e1 & O1 & R1 & S1 & A1) (F2 & E2 & D2 & C2 & o2 & e2 & O2 & R2 & S2 & A2).
  split; [lia|]. split; [congruence|]. split; [done|]. split; [done|]. exists (o1 ++ o2), (e1 ++ e2).
  split; [by rewrite O2, O1, app_assoc|]. split; [by rewrite R2, R1, app_assoc|]. split; [by apply sublist_app|].
  intros Hf. destruct A1 as [-> ->]; [lia|]. destruct A2 as [-> ->]; [lia|done].
Qed.
(** After a call has failed, the rest may be left out. *)
Lemma seen_less v v' b b' c c' fds l :
  seen v v' b c fds l → (v_faults v < v_faults v')%nat → b `sublist_of` b' → seen v v' b' c' fds l.
Proof.
  intros (F & E & D & C & o & e & O & R & S & _) Hlt Hb. split; [lia|]. do 3 (split; [done|]).
  exists o, e. do 2 (split; [done|]). split; [by etrans|lia].
Qed.
(** What the program writes to the error output after a call has failed. *)
Lemma seen_after_fault {v v' b c c' fds l} :
  seen (fault v) v' [] c' fds l → seen v v' b c fds l.
Proof.
  intros Hs. pose proof (seen_trans (seen_fault v [] []) Hs) as Hall.
  eapply seen_less; [exact Hall| |apply sublist_nil_l]. destruct Hs as (F & _). cbn in F. lia.
Qed.
Lemma seen_print fd b v :
  fd = 1 ∨ fd = 2 →
  seen v (print fd b v) (if fd =? 1 then b else []) (if fd =? 1 then [] else b) (v_fds v) (v_children v).
Proof.
  intros [-> | ->]; (split; [cbn; lia|]); do 3 (split; [done|]); [exists b, []|exists [], b]; cbn;
    rewrite !app_nil_r; done.
Qed.
Lemma seen_delivered fd r b v :
  fd = 1 ∨ fd = 2 →
  seen v (delivered fd r b v) (if fd =? 1 then b else []) (if fd =? 1 then [] else b) (v_fds v) (v_children v).
Proof.
  intros Hfd. unfold delivered. destruct (r <? Z.of_nat (length b)); [|by apply seen_print].
  assert (∀ v1 b1 c1 fds l, seen v v1 b1 c1 fds l → seen v (fault v1) b1 c1 (v_fds v1) (v_children v1)) as Hf.
  { intros v1 b1 c1 fds l Hs. rewrite <- (app_nil_r b1), <- (app_nil_r c1). eapply seen_trans; [exact Hs|].
    apply seen_fault. }
  pose proof (seen_print fd (take (Z.to_nat r) b) v Hfd) as Hs. apply Hf in Hs.
  assert (v_fds (print fd (take (Z.to_nat r) b) v) = v_fds v ∧
          v_children (print fd (take (Z.to_nat r) b) v) = v_children v ∧
          v_faults (print fd (take (Z.to_nat r) b) v) = v_faults v) as (E1 & E2 & E3)
    by (unfold print; by destruct (fd =? 1)).
  rewrite E1, E2 in Hs. eapply seen_less; [exact Hs|cbn; rewrite E3; lia|].
  destruct (fd =? 1); [apply sublist_take|done].
Qed.
(** When no call has failed, the whole view is known. *)
Lemma seen_exact {v v' b c fds l} :
  seen v v' b c fds l → v_faults v' = v_faults v →
  v' = print 2 c (print 1 b (with_fds (λ _, fds) (with_children l v))).
Proof.
  intros (_ & E & D & C & o & e & O & R & _ & A) Hf. destruct (A Hf) as [-> ->].
  destruct v, v'. unfold print, with_fds, with_children. cbn in *. by subst.
Qed.

(** ** Running programs *)

Section Runs.
Context `{World W}.
Implicit Types w : W.

Lemma runs_ret {A} w (a : A) : runs (mret a) w w a.
Proof. unfold runs, mret, itree_ret. rewrite interp_state_ret. reflexivity. Qed.
Lemma runs_bind {A B} (t : itree libcE A) (k : A → itree libcE B) w w1 w2 a b :
  runs t w w1 a → runs (k a) w1 w2 b → runs (t ≫= k) w w2 b.
Proof.
  unfold runs, mbind, itree_bind. intros Ht Hk. rewrite interp_state_bind, Ht. rewrite bind_ret_l. exact Hk.
Qed.
Lemma runs_call {A B} (e : libcE A) (k : A → itree libcE B) w w1 w2 a b :
  does e w w1 a → runs (k a) w1 w2 b → runs (call e ≫= k) w w2 b.
Proof. intros He. apply runs_bind. unfold runs, call. rewrite interp_state_trigger. exact He. Qed.
Lemma runs_last {A} (e : libcE A) w w' a : does e w w' a → runs (call e) w w' a.
Proof. intros He. unfold runs, call. rewrite interp_state_trigger. exact He. Qed.
Lemma iter_step {I R} (body : I → itree libcE (I + R)) i w w1 r :
  runs (body i) w w1 r →
  eutt eq (interp_state posix (ITree.iter body i) w)
    (match r with
     | inl i' => interp_state posix (ITree.iter body i') w1
     | inr x => ITreeDefinition.Ret (w1, x)
     end).
Proof.
  unfold runs. intros Hb. rewrite unfold_iter, interp_state_bind, Hb, bind_ret_l. cbn.
  destruct r as [i'|x]; [|rewrite interp_state_ret; reflexivity].
  rewrite interp_state_tau, tau_eutt. reflexivity.
Qed.
Lemma runs_again {I R} (body : I → itree libcE (I + R)) i i' w w1 w2 x :
  runs (body i) w w1 (inl i') → runs (ITree.iter body i') w1 w2 x → runs (ITree.iter body i) w w2 x.
Proof. intros Hb%iter_step Hi. unfold runs in *. rewrite Hb. exact Hi. Qed.
Lemma runs_stop {I R} (body : I → itree libcE (I + R)) i w w1 x :
  runs (body i) w w1 (inr x) → runs (ITree.iter body i) w w1 x.
Proof. intros Hb%iter_step. exact Hb. Qed.
End Runs.

Lemma print_nil fd v : print fd [] v = v.
Proof. destruct v. unfold print. destruct (fd =? 1); cbn; by rewrite app_nil_r. Qed.

(** A call of the program, by its law. *)
Ltac ucall D := eapply runs_call; [exact D|cbn beta iota zeta].

Section Calls.
Context `{Posix W}.
Implicit Types w : W.

(** What the calls of the programs do, in terms of [seen]. *)
Lemma printf_seen w fd format args :
  fd = 1 ∨ fd = 2 →
  ∃ w', does (Printf fd format args) w w' () ∧ let t := render format args in
    seen (viewof w) (viewof w') (if fd =? 1 then t else []) (if fd =? 1 then [] else t)
      (v_fds (viewof w)) (v_children (viewof w)).
Proof.
  intros Hfd. destruct (posix_printf w fd format args Hfd) as (r & w' & Hd & Hv). exists w'. split; [done|].
  cbv zeta. rewrite Hv. by apply seen_delivered.
Qed.
Lemma write_seen w b :
  ∃ r w', does (Write 1 b) w w' r ∧
    seen (viewof w) (viewof w') b [] (v_fds (viewof w)) (v_children (viewof w)).
Proof.
  destruct (posix_write w b) as (r & w' & Hd & _ & Hv). exists r, w'. split; [done|]. rewrite Hv.
  apply (seen_delivered 1). by left.
Qed.
Lemma close_seen w fd :
  ∃ r w', does (Close fd) w w' r ∧
    seen (viewof w) (viewof w') [] [] (delete fd (v_fds (viewof w))) (v_children (viewof w)).
Proof.
  destruct (posix_close w fd) as (r & w' & Hd & Hv). exists r, w'. split; [done|]. rewrite Hv. apply seen_fds.
Qed.
End Calls.

(** ** cat *)

Section Cat.
Context `{Posix W}.
Implicit Types w : W.

(** What is left of the file once the loop ends: nothing, unless a read has failed. *)
Lemma cat_loop_spec fd f w :
  v_fds (viewof w) !! fd = Some f →
  ∃ n rest w', runs (cat_loop fd) w w' n ∧ n ≤ 0 ∧
    seen (viewof w) (viewof w') (uf_bytes f) [] (<[fd := UFile (uf_stat f) rest]> (v_fds (viewof w)))
      (v_children (viewof w)) ∧
    (v_faults (viewof w') = v_faults (viewof w) → rest = []).
Proof.
  remember (length (uf_bytes f)) as m eqn:Hm. revert f w Hm.
  induction m as [m IH] using lt_wf_ind. intros f w Hm Hf.
  destruct (posix_read w fd CATBUF f Hf) as (k & l & w1 & Hread & [[Hk Hv1]|(Hk & Hz & Hle & Hl & Hv1)]); [reflexivity|..].
  { exists k, (uf_bytes f), w1. split; [|split; [lia|split]].
    - eapply runs_stop. ucall Hread. destruct (Z.ltb_spec 0 k); [lia|]. apply runs_ret.
    - rewrite Hv1. destruct f as [st b]. rewrite insert_id by done. apply seen_fault.
    - rewrite Hv1. cbn. lia. }
  pose proof (seen_fds (viewof w) <[fd := UFile (uf_stat f) (drop (Z.to_nat k) (uf_bytes f))]>) as Hs1.
  rewrite <- Hv1 in Hs1. destruct (Z.ltb_spec 0 k) as [Hpos|Hend].
  - destruct (write_seen w1 (take (Z.to_nat k) l)) as (r & w2 & Hwrite & Hs2). rewrite Hl in Hs2.
    set (f1 := UFile (uf_stat f) (drop (Z.to_nat k) (uf_bytes f))) in *.
    assert (length (uf_bytes f1) = m - Z.to_nat k)%nat as Hf1 by (cbn; rewrite length_drop; lia).
    assert (v_fds (viewof w2) = <[fd := f1]> (v_fds (viewof w)) ∧ v_children (viewof w2) = v_children (viewof w)) as [E2 C2].
    { destruct Hs2 as (_ & _ & -> & -> & _). by rewrite Hv1. }
    destruct (IH (length (uf_bytes f1)) ltac:(lia) f1 w2 eq_refl) as (n & rest & w3 & Hrun & Hn & Hs3 & Hrest).
    { rewrite E2. apply lookup_insert_eq. }
    exists n, rest, w3. split; [|split; [done|split]].
    + eapply runs_again; [|exact Hrun]. ucall Hread. destruct (Z.ltb_spec 0 k); [|lia].
      ucall Hwrite. apply runs_ret.
    + pose proof (seen_trans Hs1 (seen_trans Hs2 Hs3)) as Hs.
      rewrite E2, C2, insert_insert_eq in Hs. cbn [app f1 uf_bytes uf_stat] in Hs. by rewrite take_drop in Hs.
    + intros He. apply Hrest. destruct Hs1 as (? & _), Hs2 as (? & _), Hs3 as (? & _). lia.
  - assert (k = 0) as -> by lia. pose proof (proj1 Hz eq_refl) as Hb. exists 0, [], w1. split; [|split; [done|split]].
    + eapply runs_stop. ucall Hread. apply runs_ret.
    + rewrite Hb in *. exact Hs1.
    + done.
Qed.
Lemma cat_spec fd f w :
  v_fds (viewof w) !! fd = Some f →
  ∃ rest w', runs (cat fd) w w' None ∧
    seen (viewof w) (viewof w') (uf_bytes f) [] (<[fd := UFile (uf_stat f) rest]> (v_fds (viewof w)))
      (v_children (viewof w)) ∧
    (v_faults (viewof w') = v_faults (viewof w) → rest = []).
Proof.
  intros (n & rest & w' & Hrun & Hn & Hs)%cat_loop_spec. exists rest, w'. split; [|exact Hs].
  eapply runs_bind; [exact Hrun|]. destruct (Z.ltb_spec 0 n); [lia|]. apply runs_ret.
Qed.

(** What a list of arguments writes to the output, and the message. *)
Fixpoint cat_text (files : list Z → option ufile) (args : list (list Z)) : list Z :=
  match args with
  | [] => []
  | a :: args => match files a with Some f => uf_bytes f ++ cat_text files args | None => [] end
  end.
Fixpoint cat_error (files : list Z → option ufile) (args : list (list Z)) : list Z :=
  match args with
  | [] => []
  | a :: args =>
    match files a with
    | Some _ => cat_error files args
    | None => render (line "cat: cannot open %s") [Str a]
    end
  end.

Lemma cat_args_spec args w :
  ∃ w', runs (cat_args args) w w' 0 ∧ let v := viewof w in
    seen v (viewof w') (cat_text (v_files v) args) (cat_error (v_files v) args) (v_fds v) (v_children v).
Proof.
  revert w. induction args as [|a args IH]; intros w; cbv zeta; cbn [cat_args cat_error cat_text].
  { exists w. split; [apply runs_ret|apply seen_refl]. }
  destruct (posix_open w a) as (fd & w1 & Hopen & Hv1).
  destruct (printf_seen w1 2 (line "cat: cannot open %s") [Str a]) as (wp & Hprint & Hsp); [by right|]. cbv zeta in Hsp.
  assert (fd < 0 → runs (fd ← call (Open a ["O_RDONLY"]);
    if fd <? 0 then call (Printf 2 (line "cat: cannot open %s") [Str a]) ;; mret 0
    else r ← cat fd; match r with Some code => mret code | None => call (Close fd) ;; cat_args args end) w wp 0) as Hend.
  { intros Hfd. ucall Hopen. destruct (Z.ltb_spec fd 0); [|lia]. ucall Hprint. apply runs_ret. }
  destruct (v_files (viewof w) a) as [f|] eqn:Ha.
  - destruct Hv1 as [(Hfd & Hnew & Hv1)|[Hfd Hv1]]; cycle 1.
    { exists wp. split; [by apply Hend|]. rewrite Hv1 in Hsp. exact (seen_after_fault Hsp). }
    destruct (cat_spec fd f w1) as (rest & w2 & Hcat & Hs2 & _); [rewrite Hv1; cbn; apply lookup_insert_eq|].
    destruct (close_seen w2 fd) as (r & w3 & Hclose & Hs3). destruct (IH w3) as (w4 & Hrun & Hs4). cbv zeta in Hs4.
    exists w4. split.
    { ucall Hopen. destruct (Z.ltb_spec fd 0); [lia|]. eapply runs_bind; [exact Hcat|]. ucall Hclose. exact Hrun. }
    pose proof (seen_fds (viewof w) <[fd := f]>) as Hs1. rewrite <- Hv1 in Hs1.
    pose proof (seen_trans Hs1 (seen_trans Hs2 Hs3)) as Hs.
    pose proof (seen_trans Hs Hs4) as Hall. destruct Hs as (_ & E & D & C & _).
    destruct Hs2 as (_ & _ & D2 & C2 & _). rewrite E, D, C, D2, C2, Hv1 in Hall.
    cbn [with_fds v_fds v_children] in Hall. rewrite insert_insert_eq, delete_insert_id in Hall by done.
    cbn [app] in Hall. by rewrite app_nil_r in Hall.
  - destruct Hv1 as [Hfd Hv1]. exists wp. split; [by apply Hend|]. by rewrite Hv1 in Hsp.
Qed.

(** C36: in a world in which any call may fail, a read may be cut and a write
    may be short, cat ends with exit code 0, having written to the standard
    output nothing but a part of its files, in order, and having closed what it
    has opened.  If no call has failed and no write was short, it has written
    its files one after the other and each of them whole, however the reads were
    cut; it ends at the first file that does not exist, with a message.  Without
    arguments it copies the standard input in the same way. *)
Theorem cat_main_correct args w :
  (args = [] → v_fds (viewof w) !! 0 ≠ None) →
  ∃ w' o e, runs (cat_main args) w w' 0 ∧
    let v := viewof w in let v' := viewof w' in
    v_out v' = v_out v ++ o ∧ v_err v' = v_err v ++ e ∧ v_files v' = v_files v ∧
    match args, v_fds v !! 0 with
    | [], Some f =>
      o `sublist_of` uf_bytes f ∧ (∃ rest, v_fds v' = <[0 := UFile (uf_stat f) rest]> (v_fds v)) ∧
      (v_faults v' = v_faults v → v' = print 1 (uf_bytes f) (with_fds <[0 := UFile (uf_stat f) []]> v))
    | _, _ =>
      o `sublist_of` cat_text (v_files v) args ∧ v_fds v' = v_fds v ∧
      (v_faults v' = v_faults v → v' = print 2 (cat_error (v_files v) args) (print 1 (cat_text (v_files v) args) v))
    end.
Proof.
  intros Hin. destruct args as [|a args].
  - destruct (v_fds (viewof w) !! 0) as [f|] eqn:Hf; [|by destruct (Hin eq_refl)].
    destruct (cat_spec 0 f w Hf) as (rest & w' & Hrun & Hs & Hrest). pose proof (seen_exact Hs) as He.
    destruct Hs as (_ & E & D & C & o & e & O & R & S & _). exists w', o, e. split.
    { eapply runs_bind; [exact Hrun|]. apply runs_ret. }
    cbv zeta. rewrite Hf. do 4 (split; [done|]). split; [exists rest; exact D|].
    intros Hft. rewrite (He Hft), (Hrest Hft), print_nil. reflexivity.
  - destruct (cat_args_spec (a :: args) w) as (w' & Hrun & Hs). cbv zeta in Hs.
    pose proof (seen_exact Hs) as He. destruct Hs as (_ & E & D & C & o & e & O & R & S & _).
    exists w', o, e. split_and!; done.
Qed.
End Cat.

(** ** ls *)

Lemma last_slash_none n l : slash ∉ take n l → last_slash n l = -1.
Proof.
  induction n as [|n IH]; [done|]. intros Hin. cbn. destruct (Z.eqb_spec (nth n l 0) slash) as [He|_].
  - destruct Hin. apply list_elem_of_lookup. exists n. rewrite lookup_take, decide_True by lia.
    destruct (nth_lookup_or_length l n 0) as [Hl|Hl]; [by rewrite Hl, He|].
    rewrite nth_overflow in He by lia. discriminate.
  - apply IH. intros Hs. apply Hin. rewrite list_elem_of_lookup in Hs |- *. destruct Hs as [i Hi].
    rewrite lookup_take in Hi. case_decide; [|done]. exists i. rewrite lookup_take. by rewrite decide_True by lia.
Qed.
Lemma last_slash_app d name n :
  slash ∉ name → (n ≤ S (length name))%nat →
  last_slash (S (length d) + n) (d ++ slash :: name) = Z.of_nat (length d).
Proof.
  intros Hs. induction n as [|n IH]; intros Hn.
  - rewrite Nat.add_0_r. cbn. rewrite app_nth2, Nat.sub_diag by lia. reflexivity.
  - rewrite Nat.add_succ_r. cbn [last_slash]. destruct (Z.eqb_spec (nth (S (length d) + n) (d ++ slash :: name) 0) slash) as [He|_].
    + destruct Hs. rewrite app_nth2 in He by lia. replace (S (length d) + n - length d)%nat with (S n) in He by lia.
      cbn in He. apply list_elem_of_lookup. exists n.
      destruct (nth_lookup_or_length name n 0) as [Hl|Hl]; [by rewrite Hl, He|].
      rewrite nth_overflow in He by lia. discriminate.
    + apply IH. lia.
Qed.
(** A name filled up with blanks. *)
Definition padded (name : list Z) : list Z := name ++ replicate (Z.to_nat DIRSIZ - length name) 32.
Lemma padded_long name : (Z.to_nat DIRSIZ ≤ length name)%nat → padded name = name.
Proof. intros. unfold padded. replace (_ - _)%nat with 0%nat by lia. apply app_nil_r. Qed.
Lemma fmtname_at path p name :
  last_slash (S (length path)) path + 1 = p → drop (Z.to_nat p) path = name → fmtname path = padded name.
Proof.
  intros Hp Hd. unfold fmtname. rewrite Hp, Hd. cbv zeta. destruct (Z.leb_spec DIRSIZ (Z.of_nat (length name))); [|done].
  by rewrite padded_long by lia.
Qed.
Lemma fmtname_path d name : slash ∉ name → fmtname (d ++ slash :: name) = padded name.
Proof.
  intros Hs. apply (fmtname_at _ (Z.of_nat (length d) + 1)).
  - f_equal. rewrite length_app. cbn [length]. replace (S (length d + S (length name))) with (S (length d) + S (length name))%nat by lia.
    by apply last_slash_app.
  - replace (Z.to_nat (Z.of_nat (length d) + 1)) with (S (length d)) by lia.
    rewrite drop_app_ge by lia. by replace (S (length d) - length d)%nat with 1%nat by lia.
Qed.
Lemma fmtname_name name : slash ∉ name → fmtname name = padded name.
Proof.
  intros Hs. apply (fmtname_at _ 0); [|done]. rewrite last_slash_none; [done|]. by rewrite take_ge by lia.
Qed.

(** [memmove(p, de.name, DIRSIZ); p[DIRSIZ] = 0]: the path in the buffer. *)
Lemma entry_path path name rest :
  length name = Z.to_nat DIRSIZ → (Z.to_nat DIRSIZ < length rest)%nat → 0 ∉ path →
  ∃ rest', length rest' = length rest ∧
    splice (splice (path ++ slash :: rest) (length path + 1) name) (length path + 1 + Z.to_nat DIRSIZ) [0]
      = path ++ slash :: rest' ∧
    c_str (path ++ slash :: rest') = path ++ slash :: c_str name.
Proof.
  intros Hn Hr Hp. exists (name ++ 0 :: drop 15 rest). change (Z.to_nat DIRSIZ) with 14%nat in *.
  repeat split.
  - rewrite length_app. cbn. rewrite length_drop. lia.
  - assert (∀ q x l : list Z, splice (q ++ x) (length q) l = q ++ l ++ drop (length l) x) as Hsp.
    { intros q x l. unfold splice. rewrite take_app_length, drop_app_ge by lia. by replace (length q + length l - length q)%nat with (length l) by lia. }
    replace (path ++ slash :: rest) with ((path ++ [slash]) ++ rest) by (by rewrite <- app_assoc).
    replace (length path + 1)%nat with (length (path ++ [slash])) by (rewrite length_app; done).
    rewrite Hsp, app_assoc. replace (length (path ++ [slash]) + 14)%nat with (length ((path ++ [slash]) ++ name))
      by (rewrite length_app; lia).
    rewrite Hsp, drop_drop, Hn. by rewrite <- !app_assoc.
  - rewrite c_str_app by done. cbn. by rewrite c_str_end.
Qed.

Section LsSpec.
Context `{Posix W} `{!FullReads W} (S_ISREG S_ISDIR : Z → bool) (stack : list Z).
Implicit Types w : W.

Definition stat_line (name : list Z) (st : ustat) : list Z :=
  render (line "%s %x %ld %ld") [Str (padded name); Num (st_mode st); Num (st_ino st); Num (st_size st)].
(** What one entry of the directory [path] writes to the output and to the
    error output. *)
Definition entry_text (files : list Z → option ufile) (path de : list Z) : list Z * list Z :=
  let name := c_str (de_name de) in
  if de_inum de =? 0 then ([], [])
  else
    match files (path ++ slash :: name) with
    | Some f => (stat_line name (uf_stat f), [])
    | None => ([], render (line "ls: cannot stat %s") [Str (path ++ slash :: name)])
    end.

Lemma print_entry_spec path name st w :
  fmtname path = padded name →
  ∃ w', runs (print_entry path st) w w' () ∧
    seen (viewof w) (viewof w') (stat_line name st) [] (v_fds (viewof w)) (v_children (viewof w)).
Proof.
  intros Hf. unfold print_entry. rewrite Hf.
  destruct (printf_seen w 1 (line "%s %x %ld %ld")
    [Str (padded name); Num (st_mode st); Num (st_ino st); Num (st_size st)]) as (w' & Hd & Hv); [by left|].
  exists w'. split; [by apply runs_last|exact Hv].
Qed.

Definition dirent_ok (de : list Z) : Prop := length de = 16%nat ∧ slash ∉ de_name de.
Lemma ls_entry_read fd st l rest w :
  v_fds (viewof w) !! fd = Some (UFile st (l ++ rest)) → (length l = 16 ∨ rest = [] ∧ length l < 16)%nat →
  ∃ k l' w', does (Read fd 16) w w' (k, l') ∧
    (k < 0 ∧ viewof w' = fault (viewof w) ∨
     k = Z.of_nat (length l) ∧ (k = 16 → take 16 l' = l) ∧ viewof w' = with_fds <[fd := UFile st rest]> (viewof w)).
Proof.
  intros Hfd Hl. destruct (posix_read w fd 16 _ Hfd) as (k & l' & w' & Hd & Hk); [lia|]. exists k, l', w'. split; [done|].
  destruct Hk as [Hk|(Hk & _ & _ & Htake & Hv)]; [by left|right].
  pose proof (full_reads w w' fd 16 _ k l' Hfd Hd ltac:(lia)) as Hfull. cbn [uf_bytes uf_stat] in *. rewrite length_app in Hfull.
  assert (k = Z.of_nat (length l)) as -> by (destruct Hl as [Hl|[-> Hl]]; cbn [length] in Hfull; lia).
  rewrite Nat2Z.id in *. split; [done|]. split.
  - intros Hl16. replace 16%nat with (length l) by lia. by rewrite Htake, take_app_length.
  - by rewrite Hv, drop_app_length.
Qed.

(** [stat] of an entry's path, and what is written then. *)
Lemma entry_stat_spec path name w :
  fmtname path = padded name →
  ∃ r st w1 w2, does (Stat path) w w1 (r, st) ∧
    runs (if r <? 0 then call (Printf 2 (line "ls: cannot stat %s") [Str path]) else print_entry path st) w1 w2 () ∧
    let t := match v_files (viewof w) path with
             | Some f => (stat_line name (uf_stat f), [])
             | None => ([], render (line "ls: cannot stat %s") [Str path])
             end in
    seen (viewof w) (viewof w2) t.1 t.2 (v_fds (viewof w)) (v_children (viewof w)).
Proof.
  intros Hn. destruct (posix_stat w path) as (r & st & w1 & Hstat & Hr). exists r, st, w1.
  destruct (printf_seen w1 2 (line "ls: cannot stat %s") [Str path]) as (wp & Hprint & Hsp); [by right|]. cbv zeta in Hsp.
  cbv zeta. destruct (v_files (viewof w) path) as [f|]; cbn [fst snd].
  - destruct Hr as [(-> & -> & Hv)|[Hr Hv]].
    + destruct (print_entry_spec path name (uf_stat f) w1 Hn) as (w2 & Hrun & Hs). exists w2. rewrite Hv in Hs. done.
    + exists wp. split; [done|]. split; [destruct (Z.ltb_spec r 0); [by apply runs_last|lia]|].
      rewrite Hv in Hsp. exact (seen_after_fault Hsp).
  - destruct Hr as [Hr Hv]. exists wp. split; [done|]. split; [destruct (Z.ltb_spec r 0); [by apply runs_last|lia]|].
    by rewrite Hv in Hsp.
Qed.

(** An entry is listed, or it could not be read. *)
Lemma ls_entry_spec fd st de rest path x w :
  dirent_ok de → 0 ∉ path → (Z.to_nat DIRSIZ < length x)%nat →
  v_fds (viewof w) !! fd = Some (UFile st (de ++ rest)) →
  (∃ w', runs (ls_entry fd (length path + 1) (path ++ slash :: x)) w w' (inr ()) ∧ viewof w' = fault (viewof w)) ∨
  ∃ x' w', length x' = length x ∧
    runs (ls_entry fd (length path + 1) (path ++ slash :: x)) w w' (inl (path ++ slash :: x')) ∧
    let t := entry_text (v_files (viewof w)) path de in
    seen (viewof w) (viewof w') t.1 t.2 (<[fd := UFile st rest]> (v_fds (viewof w))) (v_children (viewof w)).
Proof.
  intros [Hlen Hs] Hp Hx Hfd.
  destruct (ls_entry_read fd st de rest w Hfd) as (k & l' & w1 & Hread & [[Hk Hv1]|(Hk & Hl & Hv1)]); [by left|left|right].
  { exists w1. split; [|done]. ucall Hread. destruct (Z.eqb_spec k 16); [lia|]. apply runs_ret. }
  rewrite Hlen in Hk. subst k. specialize (Hl eq_refl). pose proof (seen_fds (viewof w) <[fd := UFile st rest]>) as Hs1.
  rewrite <- Hv1 in Hs1. unfold entry_text. destruct (Z.eqb_spec (de_inum de) 0) as [Hi|Hi].
  { exists x, w1. split; [done|]. split; [|done].
    ucall Hread. rewrite Hl. change (negb _) with false. cbv iota. destruct (Z.eqb_spec (de_inum de) 0); [|done]. apply runs_ret. }
  destruct (entry_path path (de_name de) x) as (x' & Hx' & Hsp & Hcs); [|done..|].
  { unfold de_name. rewrite length_drop, Hlen. reflexivity. }
  assert (slash ∉ c_str (de_name de)) as Hs' by (by intros ?%elem_of_c_str).
  set (name := c_str (de_name de)) in *.
  destruct (entry_stat_spec (path ++ slash :: name) name w1) as (r & st' & w2 & w3 & Hstat & Hrun & Hs3); [by apply fmtname_path|].
  exists x', w3. split; [done|]. split.
  - ucall Hread. rewrite Hl. change (negb _) with false. cbv iota. destruct (Z.eqb_spec (de_inum de) 0); [done|].
    rewrite Hsp, Hcs. ucall Hstat. eapply runs_bind; [exact Hrun|]. apply runs_ret.
  - pose proof (seen_trans Hs1 Hs3) as Hs2. rewrite Hv1 in Hs2. exact Hs2.
Qed.

(** What the entries of a directory write. *)
Definition dir_out (files : list Z → option ufile) (path : list Z) (des : list (list Z)) : list Z :=
  concat (map (λ de, (entry_text files path de).1) des).
Definition dir_err (files : list Z → option ufile) (path : list Z) (des : list (list Z)) : list Z :=
  concat (map (λ de, (entry_text files path de).2) des).

Lemma ls_loop_spec fd st des rest path x w :
  Forall dirent_ok des → (length rest < 16)%nat → 0 ∉ path → (Z.to_nat DIRSIZ < length x)%nat →
  v_fds (viewof w) !! fd = Some (UFile st (concat des ++ rest)) →
  ∃ f w', runs (ls_loop fd (length path + 1) (path ++ slash :: x)) w w' () ∧ let v := viewof w in
    seen v (viewof w') (dir_out (v_files v) path des) (dir_err (v_files v) path des) (<[fd := f]> (v_fds v)) (v_children v).
Proof.
  intros Hdes Hrest Hp. revert x w. induction Hdes as [|de des Hde _ IH]; intros x w Hx Hfd; cbn [concat app] in Hfd.
  - destruct (ls_entry_read fd st rest [] w) as (k & l' & w1 & Hread & Hk); [by rewrite app_nil_r|by right|].
    assert (k ≠ 16) as Hne by (destruct Hk as [[? _]|[? _]]; lia).
    assert (runs (ls_loop fd (length path + 1) (path ++ slash :: x)) w w1 ()) as Hrun.
    { eapply runs_stop. ucall Hread. destruct (Z.eqb_spec k 16); [done|]. apply runs_ret. }
    destruct Hk as [(_ & Hv1)|(_ & _ & Hv1)].
    + eexists _, w1. split; [exact Hrun|]. cbv zeta. rewrite Hv1, insert_id by done. apply seen_fault.
    + exists (UFile st []), w1. split; [exact Hrun|]. cbv zeta. rewrite Hv1. apply seen_fds.
  - rewrite <- app_assoc in Hfd. cbv zeta. unfold dir_out, dir_err. cbn [map concat].
    destruct (ls_entry_spec fd st de (concat des ++ rest) path x w Hde Hp Hx Hfd)
      as [(w1 & Hentry & Hv1)|(x' & w1 & Hx' & Hentry & Hs1)].
    { eexists _, w1. split; [by eapply runs_stop|]. rewrite Hv1, insert_id by done. apply seen_fault. }
    pose proof Hs1 as (_ & E1 & D1 & C1 & _).
    destruct (IH x' w1) as (f & w2 & Hloop & Hs2); [lia|rewrite D1; apply lookup_insert_eq|].
    exists f, w2. split; [by eapply runs_again|].
    cbv zeta in Hs1, Hs2. rewrite E1, D1, C1, insert_insert_eq in Hs2. by eapply seen_trans.
Qed.

(** The body of [ls] for a directory that is open. *)
Lemma ls_dir_spec fd path st des rest w :
  S_ISREG (st_mode st) = false → S_ISDIR (st_mode st) = true →
  v_fds (viewof w) !! fd = Some (UFile st (concat des ++ rest)) →
  Forall dirent_ok des → (length rest < 16)%nat →
  0 ∉ path → Z.of_nat (length path) + 1 + DIRSIZ + 1 ≤ LSBUF → length stack = Z.to_nat LSBUF →
  ∃ f w', runs
      ('(r, st) ← call (Fstat fd);
       if r <? 0 then call (Printf 2 (line "ls: cannot stat %s") [Str path]) ;; call (Close fd) ;; mret ()
       else
         (if S_ISREG (st_mode st) then print_entry path st
          else if S_ISDIR (st_mode st) then
            if LSBUF <? Z.of_nat (length path) + 1 + DIRSIZ + 1 then call (Printf 2 (line "ls: path too long") [])
            else
              let buf := splice stack 0 (path ++ [0]) in
              let p := length path in
              ls_loop fd (p + 1) (splice buf p [slash])
          else mret ()) ;;
         call (Close fd) ;; mret ()) w w' () ∧ let v := viewof w in
    seen v (viewof w') (dir_out (v_files v) path des) (dir_err (v_files v) path des)
      (delete fd (<[fd := f]> (v_fds v))) (v_children v).
Proof.
  intros Hreg Hdir Hfd Hdes Hrest Hp Hlen Hstack.
  destruct (posix_fstat w fd _ Hfd) as (r & st' & w2 & Hfstat & [(-> & -> & Hv2)|[Hr Hv2]]).
  - assert (∃ x, (Z.to_nat DIRSIZ < length x)%nat ∧
      splice (splice stack 0 (path ++ [0])) (length path) [slash] = path ++ slash :: x) as (x & Hx & Hbuf).
    { exists (drop (length path + 1) stack). unfold DIRSIZ, LSBUF in *. split; [rewrite length_drop; lia|].
      unfold splice. rewrite take_0, length_app. cbn [app length Nat.add]. rewrite <- app_assoc.
      rewrite take_app_length, drop_app_ge by lia. cbn [app].
      by replace (length path + 1 - length path)%nat with 1%nat by lia. }
    destruct (ls_loop_spec fd st des rest path x w2) as (f & w3 & Hloop & Hs3); [done..|by rewrite Hv2|]. cbv zeta in Hs3.
    destruct (close_seen w3 fd) as (r & w4 & Hclose & Hs4). exists f, w4. split.
    + cbn [uf_stat] in Hfstat. ucall Hfstat. rewrite Hreg, Hdir.
      destruct (Z.ltb_spec LSBUF (Z.of_nat (length path) + 1 + DIRSIZ + 1)); [lia|]. rewrite Hbuf.
      eapply runs_bind; [exact Hloop|]. ucall Hclose. apply runs_ret.
    + cbv zeta. rewrite Hv2 in Hs3. pose proof (seen_trans Hs3 Hs4) as Hs.
      destruct Hs3 as (_ & _ & D3 & C3 & _). by rewrite D3, C3, !app_nil_r in Hs.
  - destruct (printf_seen w2 2 (line "ls: cannot stat %s") [Str path]) as (w3 & Hprint & Hs3); [by right|]. cbv zeta in Hs3.
    destruct (close_seen w3 fd) as (r' & w4 & Hclose & Hs4). eexists _, w4. split.
    + ucall Hfstat. destruct (Z.ltb_spec r 0); [|lia]. ucall Hprint. ucall Hclose. apply runs_ret.
    + cbv zeta. rewrite insert_id by done. rewrite Hv2 in Hs3. pose proof (seen_trans Hs3 Hs4) as Hs.
      destruct Hs3 as (_ & _ & D3 & C3 & _). rewrite D3, C3 in Hs. exact (seen_after_fault Hs).
Qed.

(** C37: ls of a directory writes one line for each entry that is in use, in the
    order of the directory, with the name filled up to DIRSIZ and what [stat]
    says about the file, and a message for an entry without a file; it closes
    the directory.  This is all it does when no call fails; a call that fails
    can only take something away from these lines, and the directory is closed
    all the same. *)
Theorem ls_directory path st des rest w :
  S_ISREG (st_mode st) = false → S_ISDIR (st_mode st) = true →
  v_files (viewof w) path = Some (UFile st (concat des ++ rest)) →
  Forall dirent_ok des → (length rest < 16)%nat →
  0 ∉ path → Z.of_nat (length path) + 1 + DIRSIZ + 1 ≤ LSBUF → length stack = Z.to_nat LSBUF →
  ∃ w' o, runs (ls S_ISREG S_ISDIR stack path) w w' () ∧
    let v := viewof w in let v' := viewof w' in
    v_out v' = v_out v ++ o ∧ o `sublist_of` dir_out (v_files v) path des ∧ v_fds v' = v_fds v ∧
    (v_faults v' = v_faults v →
     v' = print 2 (dir_err (v_files v) path des) (print 1 (dir_out (v_files v) path des) v)).
Proof.
  intros Hreg Hdir Hfile Hdes Hrest Hp Hlen Hstack.
  assert (∃ w', runs (ls S_ISREG S_ISDIR stack path) w w' () ∧ let v := viewof w in
    seen v (viewof w') (dir_out (v_files v) path des) (dir_err (v_files v) path des) (v_fds v) (v_children v))
    as (w' & Hrun & Hs).
  - destruct (posix_open w path) as (fd & w1 & Hopen & Hv1). rewrite Hfile in Hv1.
    destruct Hv1 as [(Hfd & Hnew & Hv1)|[Hfd Hv1]].
    + destruct (ls_dir_spec fd path st des rest w1) as (f & w2 & Hrun & Hs2); [done..| |done|done|done|done|done|].
      { rewrite Hv1. cbn. apply lookup_insert_eq. }
      exists w2. split.
      * ucall Hopen. destruct (Z.ltb_spec fd 0); [lia|]. exact Hrun.
      * cbv zeta in *. pose proof (seen_fds (viewof w) <[fd := UFile st (concat des ++ rest)]>) as Hs1.
        rewrite Hv1 in Hs2. pose proof (seen_trans Hs1 Hs2) as Hs.
        cbn [with_fds v_fds v_files v_children app] in Hs. by rewrite insert_insert_eq, delete_insert_id in Hs by done.
    + destruct (printf_seen w1 2 (line "ls: cannot open %s") [Str path]) as (w2 & Hprint & Hs2); [by right|]. cbv zeta in Hs2.
      exists w2. split; [ucall Hopen; destruct (Z.ltb_spec fd 0); [by apply runs_last|lia]|]. cbv zeta. rewrite Hv1 in Hs2.
      exact (seen_after_fault Hs2).
  - cbv zeta in Hs. pose proof (seen_exact Hs) as He. destruct Hs as (_ & E & D & C & o & e & O & R & S & _).
    exists w', o. split_and!; done.
Qed.
End LsSpec.

(** ** init *)

Section Init.
Context `{Posix W}.
Implicit Types w : W.

Definition message (s : string) : list Z := render (line s) [].
Definition zombies (n : nat) : list Z := concat (replicate n (message "zombie!")).

Lemma init_wait_spec zs pid rest w :
  v_children (viewof w) = zs ++ pid :: rest → Forall (λ z, 0 ≤ z ∧ z ≠ pid) zs → 0 ≤ pid →
  ∃ w', runs (init_wait pid) w w' () ∧
    seen (viewof w) (viewof w') (zombies (length zs)) [] (v_fds (viewof w)) rest.
Proof.
  intros Hc Hzs Hpid. revert w Hc. induction Hzs as [|z zs [Hz Hne] _ IH]; intros w Hc; pose proof (posix_wait w) as Hwait;
    rewrite Hc in Hwait; cbn [app] in Hwait; destruct Hwait as (w1 & Hwait & Hv1).
  - exists w1. split; [|rewrite Hv1; apply seen_children].
    eapply runs_stop. ucall Hwait. rewrite Z.eqb_refl, andb_false_r. apply runs_ret.
  - pose proof (seen_children (viewof w) (zs ++ pid :: rest)) as Hs1. rewrite <- Hv1 in Hs1.
    destruct (printf_seen w1 1 (line "zombie!") []) as (w2 & Hprint & Hs2); [by left|]. cbv zeta in Hs2.
    assert (v_fds (viewof w2) = v_fds (viewof w) ∧ v_children (viewof w2) = zs ++ pid :: rest) as [D2 C2].
    { destruct Hs2 as (_ & _ & -> & -> & _). by rewrite Hv1. }
    destruct (IH w2 C2) as (w3 & Hrun & Hs3). rewrite D2 in Hs3. exists w3. split.
    + eapply runs_again; [|exact Hrun]. ucall Hwait. rewrite (proj2 (Z.leb_le 0 z)), (proj2 (Z.eqb_neq z pid)) by done.
      cbn [andb negb]. ucall Hprint. apply runs_ret.
    + exact (seen_trans Hs1 (seen_trans Hs2 Hs3)).
Qed.

(** One turn: a shell is started and waited for, or [fork] has failed. *)
Lemma init_round_spec w :
  (∃ w' n l, runs init_round w w' None ∧
     seen (viewof w) (viewof w') (message "init: starting sh" ++ zombies n) [] (v_fds (viewof w)) l) ∨
  (∃ w', runs init_round w w' (Some 1) ∧
     seen (viewof w) (viewof w') (message "init: starting sh" ++ message "init: fork failed") []
       (v_fds (viewof w)) (v_children (viewof w))).
Proof.
  destruct (printf_seen w 1 (line "init: starting sh") []) as (w1 & Hprint & Hs1); [by left|]. cbv zeta in Hs1.
  pose proof Hs1 as (_ & _ & D1 & C1 & _).
  destruct (posix_fork w1) as (pid & w2 & Hfork & [[Hpid Hv2]|(zs & rest & Hpid & Hzs & Hv2)]).
  - right. destruct (printf_seen w2 1 (line "init: fork failed") []) as (w3 & Hprint' & Hs3); [by left|]. cbv zeta in Hs3.
    exists w3. split; [ucall Hprint; ucall Hfork; destruct (Z.ltb_spec pid 0); [|lia]; ucall Hprint'; apply runs_ret|].
    rewrite Hv2, D1, C1 in Hs3. exact (seen_trans Hs1 Hs3).
  - left. pose proof (seen_children (viewof w1) (zs ++ pid :: rest)) as Hs2. rewrite <- Hv2 in Hs2.
    destruct (init_wait_spec zs pid rest w2) as (w3 & Hwait & Hs3); [by rewrite Hv2|done|lia|].
    exists w3, (length zs), rest. split.
    + ucall Hprint. ucall Hfork. destruct (Z.ltb_spec pid 0); [lia|]. destruct (Z.eqb_spec pid 0); [lia|].
      eapply runs_bind; [exact Hwait|]. apply runs_ret.
    + rewrite Hv2 in Hs3. cbn [with_children v_fds] in Hs3. rewrite D1 in Hs3. rewrite Hv2, D1 in Hs2.
      exact (seen_trans Hs1 (seen_trans Hs2 Hs3)).
Qed.

(** The text of rounds that each report some zombies. *)
Definition rounds_text (ns : list nat) : list Z :=
  concat (map (λ n, message "init: starting sh" ++ zombies n) ns).

(** Init keeps a shell running: after any number of rounds, each of which
    starts a shell and waits until this shell has ended, it is back at the start
    of its loop, whatever other children it has waited for meanwhile, and its
    only output is the line of each round and a line for each of the others, or
    a part of these lines when a write has failed; only a [fork] that fails ends
    it, and then its exit code is 1. *)
Theorem init_loop_runs k w :
  ∃ w' ns l,
    seen (viewof w) (viewof w') (rounds_text ns) [] (v_fds (viewof w)) l ∧
    eutt eq (interp_state posix init_loop w) (interp_state posix init_loop w') ∧
    (length ns = k ∨
     (length ns < k)%nat ∧ ∃ w'', runs init_loop w' w'' 1 ∧
       seen (viewof w') (viewof w'') (message "init: starting sh" ++ message "init: fork failed") []
         (v_fds (viewof w')) (v_children (viewof w'))).
Proof.
  revert w. induction k as [|k IH]; intros w.
  { exists w, [], (v_children (viewof w)). split; [apply seen_refl|split; [reflexivity|by left]]. }
  destruct (init_round_spec w) as [(w1 & n & l & Hround & Hs1)|(w1 & Hround & Hs1)].
  - destruct (IH w1) as (w2 & ns & l' & Hs2 & Heq & Hend). exists w2, (n :: ns), l'. split; [|split].
    + pose proof Hs1 as (_ & _ & D1 & _). rewrite D1 in Hs2. exact (seen_trans Hs1 Hs2).
    + rewrite <- Heq. apply (iter_step _ () w w1 (inl ())). eapply runs_bind; [exact Hround|]. apply runs_ret.
    + destruct Hend as [<-|[Hlt Hend]]; [by left|right]. cbn. split; [lia|exact Hend].
  - exists w, [], (v_children (viewof w)). split; [apply seen_refl|split; [reflexivity|right]].
    cbn. split; [lia|]. exists w1. split; [|exact Hs1].
    eapply runs_stop. eapply runs_bind; [exact Hround|]. apply runs_ret.
Qed.
End Init.
