(* ===== verification/UserExample.v ===== *)
(** A world in which cat, ls and init run: a handful of files in memory. *)

From ITree Require Import ITree ITreeFacts Events.State Events.StateFacts.
From S2P Require Import Prelude BufferCache Fs User UserSpec.

Definition new_fd (v : view) : Z :=
  3 + Z.of_nat (fresh (set_map (λ fd, Z.to_nat (fd - 3)) (dom (v_fds v)) : gset nat)).
Definition arg_bytes (a : arg) : list Z := match a with Str s => s | Num n => [n] end.

(** The world is a view and the room that the output has left: a [write] delivers
    what there is room for, and fails when there is none.  A [printf] writes its
    arguments behind its format, and [fork]'s child, 5, ends after a process 7
    that init has inherited. *)
Definition memory : Type := view * Z.
Definition memory_write (b : list Z) (s : memory) : memory * Z :=
  let '(v, room) := s in
  let n := Z.max 0 room `min` Z.of_nat (length b) in
  let r := if (n =? 0) && (0 <? Z.of_nat (length b)) then -1 else n in
  ((delivered 1 r b v, room - n), r).
Definition memory_step A (e : libcE A) (s : memory) : memory * A :=
  let '(v, room) := s in
  match e in libcE A return memory * A with
  | Open path _ =>
    match v_files v path with
    | Some f => ((with_fds <[new_fd v := f]> v, room), new_fd v)
    | None => (s, -1)
    end
  | Read fd n =>
    match v_fds v !! fd with
    | Some f =>
      let k := n `min` Z.of_nat (length (uf_bytes f)) in
      ((with_fds <[fd := UFile (uf_stat f) (drop (Z.to_nat k) (uf_bytes f))]> v, room),
       (k, take (Z.to_nat k) (uf_bytes f)))
    | None => (s, (-1, []))
    end
  | Write fd b => if fd =? 1 then memory_write b s else (s, -1)
  | Close fd => ((with_fds (delete fd) v, room), 0)
  | Fstat fd => (s, match v_fds v !! fd with Some f => (0, uf_stat f) | None => (-1, Ustat 0 0 0) end)
  | Stat path => (s, match v_files v path with Some f => (0, uf_stat f) | None => (-1, Ustat 0 0 0) end)
  | Printf fd format args => ((print fd (text format ++ concat (map arg_bytes args)) v, room), ())
  | Dup fd => (s, fd)
  | Mknod _ _ _ => (s, 0)
  | Fork => ((with_children [7; 5] v, room), 5)
  | Execv _ _ => (s, -1)
  | Wait => match v_children v with [] => (s, -1) | pid :: l => ((with_children l v, room), pid) end
  | Undefined => (s, ())
  end.
Definition memory_posix A (e : libcE A) (s : memory) : itree void1 (memory * A) :=
  ITreeDefinition.Ret (memory_step A e s).
#[export] Instance memory_world : World memory := {|
  posix := memory_posix; viewof := fst;
  render := λ format args, text format ++ concat (map arg_bytes args) |}.

Lemma new_fd_new v : v_fds v !! new_fd v = None.
Proof.
  apply not_elem_of_dom. intros Hin. unfold new_fd in *.
  set (X := set_map _ _ : gset nat) in *. apply (is_fresh X). apply elem_of_map.
  eexists. split; [|exact Hin]. lia.
Qed.
Lemma memory_does {A} (e : libcE A) (s s' : memory) (a : A) :
  memory_step A e s = (s', a) → does e s s' a.
Proof. intros He. unfold does. cbn [posix memory_world]. unfold memory_posix. rewrite He. reflexivity. Qed.

#[export] Instance memory_posix_laws : Posix memory.
Proof.
  constructor; unfold viewof; cbn [memory_world].
  - intros [v room] path. cbn [fst]. destruct (v_files v path) as [f|] eqn:Hf.
    + exists (new_fd v), (with_fds <[new_fd v := f]> v, room).
      split; [apply memory_does; unfold memory_step; by rewrite Hf|left].
      split; [unfold new_fd; lia|]. split; [apply new_fd_new|done].
    + exists (-1), (v, room). split; [apply memory_does; unfold memory_step; by rewrite Hf|done].
  - intros [v room] fd n f Hf Hn. cbn [fst] in *. set (k := n `min` Z.of_nat (length (uf_bytes f))).
    exists k, (take (Z.to_nat k) (uf_bytes f)), (with_fds <[fd := UFile (uf_stat f) (drop (Z.to_nat k) (uf_bytes f))]> v, room).
    split; [apply memory_does; unfold memory_step; by rewrite Hf|right]. repeat split; [lia..| | |lia|].
    + intros Hk. apply length_zero_iff_nil. lia.
    + intros Hb. subst k. rewrite Hb. cbn. lia.
    + rewrite take_take. f_equal. lia.
  - intros [v room] b. destruct (memory_write b (v, room)) as [s' r] eqn:Hw. exists r, s'.
    split; [apply memory_does; cbn; by rewrite <- Hw|]. unfold memory_write in Hw. injection Hw as <- <-. split; [|done].
    destruct (Z.eqb_spec (Z.max 0 room `min` Z.of_nat (length b)) 0), (Z.ltb_spec 0 (Z.of_nat (length b))); cbn [andb]; lia.
  - intros [v room] fd. do 2 eexists. split; [by apply memory_does|done].
  - intros [v room] fd f Hf. cbn [fst] in Hf. exists 0, (uf_stat f), (v, room).
    split; [apply memory_does; unfold memory_step; by rewrite Hf|by left].
  - intros [v room] path. cbn [fst]. destruct (v_files v path) as [f|] eqn:Hf.
    + exists 0, (uf_stat f), (v, room). split; [apply memory_does; unfold memory_step; by rewrite Hf|by left].
    + exists (-1), (Ustat 0 0 0), (v, room). split; [apply memory_does; unfold memory_step; by rewrite Hf|done].
  - intros [v room] fd format args _. set (t := text format ++ concat (map arg_bytes args)).
    exists (Z.of_nat (length t)), (print fd t v, room). split; [by apply memory_does|].
    unfold delivered, render. cbn [memory_world fst]. fold t. by destruct (Z.ltb_spec (Z.of_nat (length t)) (Z.of_nat (length t))); [lia|].
  - intros [v room]. cbn [fst]. destruct (v_children v) as [|pid l] eqn:Hc.
    + exists (-1), (v, room). split; [apply memory_does; unfold memory_step; by rewrite Hc|done].
    + exists (with_children l v, room). split; [apply memory_does; unfold memory_step; by rewrite Hc|done].
  - intros [v room]. exists 5, (with_children [7; 5] v, room). split; [by apply memory_does|]. right.
    exists [7], []. split; [lia|]. split; [|done]. repeat constructor; lia.
Qed.
#[export] Instance memory_full_reads : FullReads memory.
Proof.
  intros [v room] s' fd n f k l Hf Hd _. unfold does in Hd. cbn [posix viewof memory_world fst] in Hd, Hf.
  unfold memory_posix, memory_step in Hd. rewrite Hf in Hd. apply eutt_inv_Ret in Hd. by injection Hd.
Qed.

(** Two files and a directory that holds one of them, with a free entry and an
    entry whose file is gone. *)
Definition regular (m : Z) : bool := m =? 32768.
Definition directory (m : Z) : bool := m =? 16384.
Definition file_a : ufile := UFile (Ustat 32768 2 3) [104; 105; 10].
Definition file_b : ufile := UFile (Ustat 32768 3 1) [33].
Definition entries : list (list Z) := [mk_dirent 2 [97]; mk_dirent 0 [98]; mk_dirent 9 [99]].
Definition files (path : list Z) : option ufile :=
  if decide (path = [97]) then Some file_a
  else if decide (path = [98]) then Some file_b
  else if decide (path = [46]) then Some (UFile (Ustat 16384 1 48) (concat entries))
  else if decide (path = [46; slash; 97]) then Some file_a
  else None.
Definition start (room : Z) : memory := (View [] [] files ∅ [] 0, room).

(** The first [n] steps of a run in [memory]. *)
Fixpoint memory_run {A} (n : nat) (t : itree libcE A) (s : memory) : option (memory * A) :=
  match n with
  | O => None
  | S n =>
    match observe t with
    | RetF a => Some (s, a)
    | TauF t => memory_run n t s
    | @VisF _ _ _ B e k => let '(s', b) := memory_step B e s in memory_run n (k b) s'
    end
  end.
Lemma memory_run_runs {A} n (t : itree libcE A) (s s' : memory) (a : A) :
  memory_run n t s = Some (s', a) → runs t s s' a.
Proof.
  revert t s. induction n as [|n IH]; intros t s; [done|]. cbn [memory_run]. unfold runs.
  destruct (observe t) as [r|t'|B e k] eqn:Ho; intros Hr; rewrite (itree_eta t), Ho.
  - injection Hr as -> ->. rewrite interp_state_ret. reflexivity.
  - rewrite interp_state_tau, tau_eutt. by apply IH.
  - destruct (memory_step B e s) as [s1 b] eqn:He. rewrite interp_state_vis. cbn [posix memory_world].
    unfold memory_posix. rewrite He, bind_ret_l, tau_eutt. by apply IH.
Qed.
Lemma runs_unique {A} (t : itree libcE A) (s s1 s2 : memory) (a1 a2 : A) :
  runs t s s1 a1 → runs t s s2 a2 → s1 = s2 ∧ a1 = a2.
Proof. unfold runs. intros H1 H2. rewrite H1 in H2. apply eutt_inv_Ret in H2. by injection H2. Qed.
(** What a run writes, and how many of its calls fail. *)
Lemma memory_run_seen {A} n (t : itree libcE A) (s s' : memory) (a : A) o e f :
  runs t s s' a →
  (λ r : memory * A, (v_out r.1.1, v_err r.1.1, v_faults r.1.1)) <$> memory_run n t s = Some (o, e, f) →
  v_out s'.1 = o ∧ v_err s'.1 = e ∧ v_faults s'.1 = f.
Proof.
  intros Hrun Hm. destruct (memory_run n t s) as [[s1 a1]|] eqn:Hr; [|done]. apply memory_run_runs in Hr.
  destruct (runs_unique t s s' s1 a a1 Hrun Hr) as [-> _]. cbn in Hm. by injection Hm.
Qed.

(** [cat a b c]: the third file cannot be opened. *)
Lemma cat_main_correct_witness :
  ∃ w' : memory, runs (cat_main [[97]; [98]; [99]]) (start 100) w' 0 ∧
    v_out w'.1 = [104; 105; 10; 33] ∧ v_err w'.1 = text (line "cat: cannot open %s") ++ [99] ∧ v_fds w'.1 = ∅.
Proof.
  destruct (cat_main_correct [[97]; [98]; [99]] (start 100)) as (w' & o & e & Hrun & _ & _ & _ & _ & _ & Hv); [discriminate|].
  exists w'. split; [exact Hrun|].
  destruct (memory_run_seen 100 _ _ _ _ [104; 105; 10; 33] (text (line "cat: cannot open %s") ++ [99]) 0 Hrun)
    as (_ & _ & Hf); [vm_compute; reflexivity|].
  cbn [viewof memory_world] in Hv. rewrite Hv by exact Hf. split; [|split]; reflexivity.
Defined.

(** [cat a] on an output that has room for two bytes: the third is lost, and
    cat neither says so nor ends with another exit code. *)
Lemma cat_loses_output :
  ∃ w' : memory, runs (cat_main [[97]]) (start 2) w' 0 ∧ v_out w'.1 = [104; 105] ∧ v_err w'.1 = [] ∧ v_faults w'.1 = 1%nat.
Proof.
  destruct (memory_run 100 (cat_main [[97]]) (start 2)) as [[w' a]|] eqn:Hr; [|vm_compute in Hr; discriminate].
  pose proof (f_equal (fmap snd) Hr) as Ha. vm_compute in Ha. injection Ha as <-. apply memory_run_runs in Hr.
  exists w'. split; [exact Hr|]. apply (memory_run_seen 100 _ _ _ _ _ _ _ Hr). vm_compute. reflexivity.
Qed.

Lemma ls_directory_witness :
  ∃ w' : memory, runs (ls regular directory (replicate 512 0) [46]) (start 100) w' () ∧
    v_out w'.1 = text (line "%s %x %ld %ld") ++ 97 :: replicate 13 32 ++ [32768; 2; 3] ∧
    v_err w'.1 = text (line "ls: cannot stat %s") ++ [46; slash; 99].
Proof.
  destruct (ls_directory regular directory (replicate 512 0) [46] (Ustat 16384 1 48) entries [] (start 100))
    as (w' & o & Hrun & _ & _ & _ & Hv); try reflexivity.
  - repeat constructor; unfold slash; cbn; apply (bool_decide_unpack _); reflexivity.
  - cbn. lia.
  - apply (bool_decide_unpack _). reflexivity.
  - discriminate.
  - exists w'. split; [exact Hrun|].
    destruct (memory_run_seen 100 _ _ _ _ (text (line "%s %x %ld %ld") ++ 97 :: replicate 13 32 ++ [32768; 2; 3])
      (text (line "ls: cannot stat %s") ++ [46; slash; 99]) 0 Hrun) as (_ & _ & Hf); [vm_compute; reflexivity|].
    cbn [viewof memory_world] in Hv. rewrite Hv by exact Hf. split; vm_compute; reflexivity.
Defined.

Lemma init_loop_runs_witness :
  ∃ (w' : memory) ns o, eutt eq (interp_state posix init_loop (start 0)) (interp_state posix init_loop w') ∧
    o `sublist_of` rounds_text ns ∧ v_out w'.1 = o.
Proof.
  destruct (init_loop_runs 3 (start 0)) as (w' & ns & l & (_ & _ & _ & _ & o & e & Ho & _ & Hs & _) & Heq & _).
  exists w', ns, o. done.
Defined.
